(* ===== verification/_CoqProject ===== *)
-Q . S2P
Prelude.v
UnitTypes.v
Relation.v
ReDb.v
UnitDb.v
UnitDbFacts.v
RateLimit.v
Condition.v
UnitEntry.v
Target.v
JobRentry.v
JobData.v
JobStat.v
JobStore.v
JobEntry.v
JobUnit.v
JobTable.v
JobTrans.v
JobNotify.v
JobManager.v
JobSample.v
JobEntryFacts.v
JobUnitFacts.v
JobTransFacts.v
JobVerifyFacts.v
JobCommitFacts.v
JobTableFacts.v
JobManagerFacts.v
StdString.v
StdNet.v
ShowTable.v
Reli.v
ReliFacts.v
ReliSample.v
UnitFile.v
ExecParams.v
Spawn.v
UnitIf.v
Cgroup.v
ProcessUtil.v
UmStore.v
UmLoad.v
UmManager.v
CmdProto.v
Manager.v
Init.v
Install.v
InstallFacts.v
UmFacts.v
UmInvFacts.v
UmMapFacts.v
UmManagerFacts.v
ManagerFacts.v
UmLoadFacts.v
UmLoadSample.v
UmSample.v
Mount.v
Device.v
DeviceFacts.v
DeviceEnum.v
DeviceEnumFacts.v
Devmaster.v
DevmasterFacts.v
Event.v
EventFacts.v
EventSample.v
EventIo.v
ServiceTypes.v
ServiceStore.v
Service.v
ServiceFacts.v
ServiceSample.v
ServiceRunFacts.v
SocketTypes.v
SocketStore.v
Socket.v
SocketFacts.v
SocketWatchFacts.v
SocketSample.v
SocketRunFacts.v
