(* ===== verification/Prelude.v ===== *)
(** * sysMaster: a verification development of its manager

    sysMaster is an init daemon: units (services, sockets, targets, ..) depend on
    each other; a request to start or stop one becomes jobs for it and for what it
    depends on; the jobs run the units, whose state changes finish the jobs; and
    all of it is persisted, so that the manager can be restarted at any time.  This
    library models that core of the program, in the order in which a request
    travels through it, and proves what each part is for.

    ** How a Rust program becomes definitions

    A method that changes state is a computation of the monad [M S A] below over
    the store [S] of its component: it returns, panics ([Panicked], where the code
    reaches an [assert!], an [unwrap] or a [todo!]), or runs out of the fuel that
    the loops without a structural bound are given.  Arithmetic is that of a release
    build: unsigned integers wrap unless the code checks.  Definitions keep the
    names of the methods; where two components have a method of the same name, the
    second one's has a prefix ([sk_] in [Socket], [JobUnitData.] and the like in
    the job engine).  Shared mutable objects ([Rc<Job>], [Rc<JobUnit>]) are places
    in a heap named by handles, so that aliasing is as in the code.  The order in
    which a [HashMap] is walked is not fixed: it is the class [HashIter], and the
    theorems hold for every order; the same for the element a [BinaryHeap] picks
    among equals ([Event.v]).  What the program calls outside its own code - the
    kernel, the clock, the [heed] database, the parsing of unit files - is a
    parameter: a class whose fields are the calls, with laws only where a theorem
    needs them and an instance ([..Sample.v]) on which the witnesses run.

    ** The parts

    - the vocabulary: [UnitTypes] (core/lib/unit, core/lib/error.rs),
      [Relation] (core/bin/unit/base);
    - persistence: [ReDb] (core/lib/rel/base.rs), the cache in front of one table
      of the database, over which every persisted table below is built; [Reli]
      (core/lib/rel), the environments of the database, the last words of an
      interrupted operation, the descriptors that survive a restart, the recovery;
    - the units: [UnitDb] (core/bin/unit/datastore/deps.rs), the dependency graph;
      [RateLimit], [Condition], [UnitEntry] (core/bin/unit/entry), the gate a start
      goes through; [Target] (coms/target), the simplest kind of unit;
    - the job engine (core/bin/job): [JobRentry] and [JobData] (its data),
      [JobStat] (its counters), [JobStore] (its store), [JobEntry] (a job and the
      allocator), [JobUnit] (the jobs of one unit), [JobTable] (the tables),
      [JobTrans] (transactions), [JobNotify], [JobManager] (the manager);
    - what a unit plugin may ask of the rest: [UnitIf] (the traits [UmIf],
      [UnitBase] and the event loop, as classes), [ExecParams] (core/lib/exec,
      core/lib/unit/kill.rs), and the functions of Rust's library the plugins use
      ([StdString], [StdNet]);
    - the event loop (libs/event): [Event];
    - service units (coms/service): [ServiceTypes], [ServiceStore], [Service];
    - socket units (coms/socket): [SocketTypes], [SocketStore], [Socket];
    - the unit manager (core/bin/unit): [UnitFile] (util/unit_file.rs and
      libs/basic/src/path_lookup.rs), where the files of a unit are; [UmStore]
      (datastore, entry, rentry.rs), the units with their tables, processes and
      cgroups; [UmLoad] (manager.rs, runtime.rs, uload.rs), loading, the two queues
      and every call that a unit can make; [UmManager] (manager.rs, sigchld.rs,
      notify.rs), recovery, children, notifications and status;
    - the installation of units: [Install] (core/bin/manager/pre_install.rs), the links
      of enabling and disabling, the presets;
    - process 1: [Init] (exts/init), which starts the manager, watches its signs of life
      and starts it again, with the manager's end of that ([KeepAlive], the handlers of
      core/bin/main.rs);
    - starting a command: [Spawn] (core/bin/unit/execute/spawn.rs), the child up to its
      execve and the descriptors it hands over; [Cgroup] (libs/cgroup), the control
      groups the processes of a unit are kept in and killed through;
    - the manager's process: [CmdProto] (libs/cmdproto, exts/sctl), the commands
      from [sctl] to their execution; [Manager] (core/bin/manager), what they and
      the signals do, the loops, reload and reboot; [ProcessUtil] and [ShowTable]
      (libs/basic), the end of all processes and the tables of the status;
    - mount units (coms/mount): [Mount], which follow the mount table of the kernel;
    - devices: [Device] (libs/device), one device with its properties, its messages
      and its reading from the tree under /sys; [DeviceEnum] (device_enumerator.rs),
      the search of that tree; [Devmaster] (exts/devmaster), the queue of device
      events and the worker threads that empty it.

    They meet at these interfaces.  The job engine reads the units through the class
    [UnitDb] ([UnitDb.v]) and runs them through [SubUnits] ([UnitEntry.v], the trait
    [SubUnit]); [Target] implements the latter.  Services and sockets are modelled
    over an abstract rest of the system [E] with instances of [UmIf], [UnitBase] and
    [EventLoop] ([UnitIf.v]); [EventIo] shows that the loop of [Event] keeps the
    laws [EventLaws] that the theorems about sockets assume of it, and
    [SocketSample] runs a socket on that loop over a small kernel.  Seen from the
    other side, a unit is a program [Prog] of the calls [UmCall] of [UmIf] and
    [UnitBase], which [um_call] runs on the store of the unit manager ([UmLoad.v]):
    the theorems hold for every program, and for every answer of the job engine
    (the class [JobEngine]).  [Manager] implements [ExecuterAction], which [CmdProto]
    executes the commands through.  [Devmaster] is over any [DeviceIf], which [Device]
    implements.

    ** What is shown

    - transactions: [JobTransFacts] - the jobs of a request are exactly the closure
      of the requested one under the dependencies; [JobVerifyFacts] - a request is
      refused exactly on a conflict, and then nothing but the stage has changed;
      [JobTableFacts] - a commit refines a function on the sets of kinds that wait
      on each unit ([CommitSpec]).
    - the jobs of a unit: [JobUnitFacts] - the invariant of [JobUnitData], what
      reshuffling, triggering and finishing do, that each keeps it; [JobEntryFacts] -
      the kinds a job runs through, its persisted entries along its life, the order
      of two jobs, the allocation of ids; [JobStat] - the counters are the census of
      the jobs; [JobManagerFacts] - the event source is armed whenever a job can run.
    - units: [UnitDbFacts] - the dependency graph, its inverse relations and its
      persisted copy agree and survive a restart; [RateLimit] - at most [burst]
      starts in any interval; [Condition], [UnitEntry] - which starts are let through.
    - the event loop: [EventFacts] - no enabled source and no timer is lost, the
      most urgent source is served first, a timer that is due fires.
    - services: [ServiceFacts] - every event ends, and a requested stop is never
      followed by a restart; [ServiceRunFacts] - a service that fails is started
      again, and one survives a restart of the manager.
    - sockets: [SocketWatchFacts] - the ports are watched exactly while the socket
      listens and are open while it serves; [SocketFacts], [SocketRunFacts] - where
      failures lead, and recovery.

    - reliability: [ReliFacts] - an operation is committed whole or not at all, the
      recovery can itself be interrupted, no descriptor is lost.
    - the unit manager: [UmFacts], [UmInvFacts], [UmManagerFacts] - the entries, the
      tables, the queues, the dependencies and the watched processes agree in every
      store that is reached; [UmLoadFacts] - loading a unit ends, and loads what it
      depends on; [UmMapFacts] - after a restart the manager is what it was.
    - installation: [InstallFacts] - enabling creates exactly the links that the files
      ask for, and disabling undoes it.
    - process 1: [Init] - a manager that is silent for the timeout is asked to execute
      itself again; one that was given up is never watched again.
    - commands: [Spawn] - the command finds exactly its descriptors, in their order;
      [Cgroup] - killing a cgroup signals exactly its members but the spared ones.
    - the process: [ManagerFacts], [CmdProto], [ProcessUtil], [ShowTable] - what
      reaches the manager from [sctl], how a reboot ends, or does not, that no text
      of a status table is cut.
    - mounts: [Mount] - one reading of the mount table brings the mount units in
      line with it.
    - devices: [DeviceFacts] - a device that was read from a message comes out of the
      message it is sent in; [DeviceEnumFacts] - sorting loses no device, gives none
      twice, and puts the prioritized subsystems in front; [DevmasterFacts] - the queue
      is emptied and every worker comes back, unless workers are killed or a thread
      cannot answer.

    Some theorems say what the code does where that is not what it means to do; the
    comments call these behaviours by name.

    ** Fuel

    Recursive calls that follow the dependencies take fuel: [job_trans_expand] is
    given [6 * n + 1] for [n] units, one step for each kind of job of each unit, and
    [job_trans_expand_closure] holds for it ([JobTransFacts]).  [enter_signal] of a
    service nests at most three deep and of a socket four ([signal_depth],
    [sk_signal_depth]), proved with the termination theorems; the allocator of ids,
    the timers' [drain] and the descents of the parsers are bounded by the sizes of
    what they consume.  The loops of a socket that read from the kernel until it has
    no more take [FlushFuel] and the theorems assume that the kernel runs dry
    ([flush_ends]); [run] of the job manager takes the number of its rounds.
    [load_queue_loop] takes one unit for each round and [load_unit_closed] holds with
    more fuel than there are names; [wait_loop] needs one unit for each child and for
    each second of the timeout ([wait_pids_ends]), [read_loop] one for each 1024 bytes
    ([frame_roundtrip]).  [rloop] and [main_loop] are endless by design: their fuel is
    the number of rounds, and a theorem about them speaks of every number.
    [add_parent_devices] goes up one directory at each step ([parents_fuel]),
    [collect_prioritized] takes at least one device from the table at each round
    ([wp_collect]), [crawl_stack] one directory.  [unit_install_discover] takes one unit
    for each name on the way through [Also]; more than there are names is enough
    ([discover_ends]).  [shift_fds] starts again at most once for each descriptor and once
    more ([wp_shift_fds]); [cg_remove_dir] needs two units, since what is below the root
    goes at once; [cg_is_empty_recursive] takes one for each level of the hierarchy.
    The calls that [Init] repeats take [InitFuel], enough for what the kernel has pending
    ([InitLaws]); its [main_loop] is endless, and its theorems speak of every number of
    rounds.

    ** Not modelled

    Left out because they are system calls with little between them, generated code or glue:
    the set-up of mounts, the order of the manager's own set-up, the loading of plugins,
    the reading of unit files (the confique crate), the protobuf encoding, the other
    extensions, the variant of the cgroups for hongmeng, and in the modelled parts the
    [fmt] implementations of traces, the accessors and the registration glue. *)
From stdpp Require Export base tactics list gmap strings sorting fin_maps finite.

(** ** Outcomes: what a Rust call can do

    A call returns a value, panics ([assert!], [unwrap], [expect],
    [unreachable!], [todo!]) or, for the loops and recursions that are not
    structural, runs out of the fuel the model gives them.  A theorem that a
    call terminates rules [OutOfFuel] out. *)

Inductive Outcome (A : Type) : Type :=
| Returned (a : A)
| Panicked
| OutOfFuel.
Arguments Returned {A} a.
Arguments Panicked {A}.
Arguments OutOfFuel {A}.

(** [M S A]: a computation over the mutable store [S] that yields an [A]. *)
Definition M (S A : Type) : Type := S → Outcome (S * A).

#[export] Instance M_ret {S} : MRet (M S) := λ A a s, Returned (s, a).
#[export] Instance M_bind {S} : MBind (M S) := λ A B k m s,
  match m s with
  | Returned (s', a) => k a s'
  | Panicked => Panicked
  | OutOfFuel => OutOfFuel
  end.

Definition mget {S} : M S S := λ s, Returned (s, s).
Definition mgets {S A} (f : S → A) : M S A := λ s, Returned (s, f s).
Definition mmodify {S} (f : S → S) : M S unit := λ s, Returned (f s, tt).
Definition mpanic {S A} : M S A := λ _, Panicked.
Definition mnofuel {S A} : M S A := λ _, OutOfFuel.

(** [assert!(b)] *)
Definition massert {S} (b : bool) : M S unit :=
  if b then mret tt else mpanic.
(** [o.unwrap()] / [o.expect(..)] *)
Definition munwrap {S A} (o : option A) : M S A :=
  match o with Some a => mret a | None => mpanic end.
(** [o.is_some()] *)
Abbreviation is_some o := (bool_decide (is_Some o)).
(** [if b { m }] *)
Definition mwhen {S} (b : bool) (m : M S unit) : M S unit :=
  if b then m else mret tt.

(** [for x in l { .. }] with the loop-carried variables in [a]. *)
Fixpoint mfold {S A B} (f : A → B → M S A) (a : A) (l : list B) : M S A :=
  match l with
  | [] => mret a
  | x :: l' => a' ← f a x; mfold f a' l'
  end.

(** [for x in l { .. }] without loop-carried variables. *)
Fixpoint mforeach {S B} (f : B → M S unit) (l : list B) : M S unit :=
  match l with
  | [] => mret tt
  | x :: l' => f x;; mforeach f l'
  end.

(** [for x in l { if !f(x) { return false; } } true] *)
Fixpoint mforallb {S B} (f : B → M S bool) (l : list B) : M S bool :=
  match l with
  | [] => mret true
  | x :: l' => b ← f x; if (b : bool) then mforallb f l' else mret false
  end.

(** [for x in l { if f(x) { return true; } } false] *)
Fixpoint mexistsb {S B} (f : B → M S bool) (l : list B) : M S bool :=
  match l with
  | [] => mret false
  | x :: l' => b ← f x; if (b : bool) then mret true else mexistsb f l'
  end.

(** A computation over a part [T] of the store. *)
Definition mzoom {S T A} (get : S → T) (set : T → S → S) (m : M T A) : M S A := λ s,
  match m (get s) with
  | Returned (t, a) => Returned (set t s, a)
  | Panicked => Panicked
  | OutOfFuel => OutOfFuel
  end.

(** ** Total-correctness triples

    [wp m s Q]: started in [s], [m] returns (it neither panics nor runs out
    of fuel) and its final store and value satisfy [Q]. *)

Definition wp {S A} (m : M S A) (s : S) (Q : S → A → Prop) : Prop :=
  match m s with Returned (s', a) => Q s' a | _ => False end.

(** The final store of a run that returns (the initial one otherwise). *)
Definition run_state {S A} (m : M S A) (s : S) : S :=
  match m s with Returned (s', _) => s' | _ => s end.

(** [panics m s]: started in [s], [m] panics. *)
Definition panics {S A} (m : M S A) (s : S) : Prop := m s = Panicked.

Section wp.
Context {S : Type}.
Implicit Types (s : S).

Lemma panics_bind {A B} (m : M S A) (k : A → M S B) s :
  wp m s (λ s' a, panics (k a) s') → panics (m ≫= k) s.
Proof. unfold wp, panics, mbind, M_bind. by destruct (m s) as [[??]| |]. Qed.
Lemma panics_bind_l {A B} (m : M S A) (k : A → M S B) s : panics m s → panics (m ≫= k) s.
Proof. unfold panics, mbind, M_bind. by intros ->. Qed.
Lemma panics_massert {A} b (k : unit → M S A) s : b = false → panics (massert b ≫= k) s.
Proof. by intros ->. Qed.

Lemma wp_ret {A} (a : A) s (Q : S → A → Prop) : wp (mret a) s Q ↔ Q s a.
Proof. done. Qed.

Lemma wp_bind {A B} (m : M S A) (k : A → M S B) s (Q : S → B → Prop) :
  wp (m ≫= k) s Q ↔ wp m s (λ s' a, wp (k a) s' Q).
Proof. unfold wp, mbind, M_bind. by destruct (m s) as [[??]| |]. Qed.

Lemma wp_bind_assoc {A B C} (m : M S A) (k : A → M S B) (k' : B → M S C) s (Q : S → C → Prop) :
  wp (m ≫= λ a, k a ≫= k') s Q ↔ wp (m ≫= k) s (λ s' b, wp (k' b) s' Q).
Proof.
  rewrite !wp_bind. unfold wp at 1 3. destruct (m s) as [[s' a]| |]; [|done..]. apply wp_bind.
Qed.

Lemma wp_mono {A} (m : M S A) s (P Q : S → A → Prop) :
  wp m s P → (∀ s' a, P s' a → Q s' a) → wp m s Q.
Proof. unfold wp. destruct (m s) as [[??]| |]; naive_solver. Qed.

Lemma wp_and {A} (m : M S A) s (P Q : S → A → Prop) :
  wp m s P → wp m s Q → wp m s (λ s' a, P s' a ∧ Q s' a).
Proof. unfold wp. destruct (m s) as [[??]| |]; naive_solver. Qed.

Lemma wp_run_state {A} (m : M S A) s (P : S → Prop) :
  wp m s (λ s' _, P s') → P (run_state m s).
Proof. unfold wp, run_state. by destruct (m s) as [[??]| |]. Qed.

Lemma wp_returns {A} (m : M S A) s (Q : S → A → Prop) :
  wp m s Q → ∃ s' a, m s = Returned (s', a) ∧ Q s' a.
Proof. unfold wp. destruct (m s) as [[s' a]| |]; [|done..]. by exists s', a. Qed.

Lemma wp_mget s (Q : S → S → Prop) : wp mget s Q ↔ Q s s.
Proof. done. Qed.
Lemma wp_mgets {A} (f : S → A) s (Q : S → A → Prop) : wp (mgets f) s Q ↔ Q s (f s).
Proof. done. Qed.
Lemma wp_mmodify (f : S → S) s (Q : S → unit → Prop) : wp (mmodify f) s Q ↔ Q (f s) tt.
Proof. done. Qed.
Lemma wp_massert b s (Q : S → unit → Prop) : wp (massert b) s Q ↔ b = true ∧ Q s tt.
Proof. destruct b; unfold wp; simpl; naive_solver. Qed.
Lemma wp_munwrap {A} (o : option A) s (Q : S → A → Prop) :
  wp (munwrap o) s Q ↔ ∃ a, o = Some a ∧ Q s a.
Proof. destruct o; unfold wp; simpl; naive_solver. Qed.

Lemma wp_mzoom {T A} (get : S → T) (set : T → S → S) (m : M T A) s (Q : S → A → Prop) :
  wp (mzoom get set m) s Q ↔ wp m (get s) (λ t a, Q (set t s) a).
Proof. unfold wp, mzoom. by destruct (m (get s)) as [[??]| |]. Qed.

(** The loop rule: an invariant indexed by the elements already visited. *)
Lemma wp_mfold {A B} (I : list B → S → A → Prop) (f : A → B → M S A) l a s
    (Q : S → A → Prop) :
  I [] s a →
  (∀ dn x rest s a, l = dn ++ x :: rest → I dn s a →
     wp (f a x) s (λ s' a', I (dn ++ [x]) s' a')) →
  (∀ s a, I l s a → Q s a) →
  wp (mfold f a l) s Q.
Proof.
  intros H0 Hstep HQ.
  assert (∀ rest dn s a, l = dn ++ rest → I dn s a → wp (mfold f a rest) s Q) as Hgen.
  { induction rest as [|x rest IH]; intros dn s' a' Hl HI; simpl.
    - apply HQ. subst. by rewrite app_nil_r.
    - apply wp_bind. eapply wp_mono; [by eapply Hstep|].
      intros s'' a'' HI'. eapply (IH (dn ++ [x])); [|done].
      by rewrite <-app_assoc. }
  by apply (Hgen l []).
Qed.

Lemma wp_mforeach {B} (I : list B → S → Prop) (f : B → M S unit) l s
    (Q : S → unit → Prop) :
  I [] s →
  (∀ dn x rest s, l = dn ++ x :: rest → I dn s →
     wp (f x) s (λ s' _, I (dn ++ [x]) s')) →
  (∀ s, I l s → Q s tt) →
  wp (mforeach f l) s Q.
Proof.
  intros H0 Hstep HQ.
  assert (∀ rest dn s, l = dn ++ rest → I dn s → wp (mforeach f rest) s Q) as Hgen.
  { induction rest as [|x rest IH]; intros dn s' Hl HI; simpl.
    - apply HQ. subst. by rewrite app_nil_r.
    - apply wp_bind. eapply wp_mono; [by eapply Hstep|].
      intros s'' [] HI'. eapply (IH (dn ++ [x])); [|done].
      by rewrite <-app_assoc. }
  by apply (Hgen l []).
Qed.

(** The read-only searches: each test answers [g x] and leaves the store. *)
Lemma wp_mexistsb {B} (g : B → bool) (f : B → M S bool) l s (Q : S → bool → Prop) :
  (∀ x, x ∈ l → wp (f x) s (λ s' b, s' = s ∧ b = g x)) → Q s (existsb g l) →
  wp (mexistsb f l) s Q.
Proof.
  intros Hf HQ. induction l as [|x l IH]; simpl in *; [done|].
  apply wp_bind. eapply wp_mono; [apply Hf; by left|]. intros s' b [-> ->].
  destruct (g x); simpl in HQ; [done|]. apply IH; [|done]. intros y Hy. apply Hf. by right.
Qed.
Lemma wp_mforallb {B} (g : B → bool) (f : B → M S bool) l s (Q : S → bool → Prop) :
  (∀ x, x ∈ l → wp (f x) s (λ s' b, s' = s ∧ b = g x)) → Q s (forallb g l) →
  wp (mforallb f l) s Q.
Proof.
  intros Hf HQ. induction l as [|x l IH]; simpl in *; [done|].
  apply wp_bind. eapply wp_mono; [apply Hf; by left|]. intros s' b [-> ->].
  destruct (g x); simpl in HQ; [|done]. apply IH; [|done]. intros y Hy. apply Hf. by right.
Qed.
End wp.

(** The proof step: peel binds, returns and the store primitives. *)
Ltac wp_pure :=
  repeat first
    [ rewrite wp_bind | rewrite wp_ret | rewrite wp_mget | rewrite wp_mgets
    | rewrite wp_mmodify | rewrite wp_mzoom ]; cbn beta.

(** ** Terminating triples

    [wtp m s Q]: started in [s], [m] does not run out of fuel, and if it returns
    its final store and value satisfy [Q]; it may panic.  The rule for a
    computation whose panics depend on answers of the rest of the system. *)

Definition wtp {S A} (m : M S A) (s : S) (Q : S → A → Prop) : Prop :=
  match m s with Returned (s', a) => Q s' a | Panicked => True | OutOfFuel => False end.

Section wtp.
Context {S : Type}.
Implicit Types (s : S).

Lemma wtp_of_wp {A} (m : M S A) s (Q : S → A → Prop) : wp m s Q → wtp m s Q.
Proof. unfold wp, wtp. by destruct (m s) as [[??]| |]. Qed.
Lemma wtp_returned {A} (m : M S A) s s' a (Q : S → A → Prop) :
  wtp m s Q → m s = Returned (s', a) → Q s' a.
Proof. by unfold wtp; intros ? Hm; rewrite Hm in *. Qed.
Lemma wtp_ret {A} (a : A) s (Q : S → A → Prop) : wtp (mret a) s Q ↔ Q s a.
Proof. done. Qed.
Lemma wtp_bind {A B} (m : M S A) (k : A → M S B) s (Q : S → B → Prop) :
  wtp (m ≫= k) s Q ↔ wtp m s (λ s' a, wtp (k a) s' Q).
Proof. unfold wtp, mbind, M_bind. by destruct (m s) as [[??]| |]. Qed.
Lemma wtp_mono {A} (m : M S A) s (P Q : S → A → Prop) :
  wtp m s P → (∀ s' a, P s' a → Q s' a) → wtp m s Q.
Proof. unfold wtp. destruct (m s) as [[??]| |]; naive_solver. Qed.
Lemma wtp_and {A} (m : M S A) s (P Q : S → A → Prop) :
  wtp m s P → wtp m s Q → wtp m s (λ s' a, P s' a ∧ Q s' a).
Proof. unfold wtp. destruct (m s) as [[??]| |]; naive_solver. Qed.
Lemma wp_and_wtp {A} (m : M S A) s (P Q : S → A → Prop) :
  wp m s P → wtp m s Q → wp m s (λ s' a, P s' a ∧ Q s' a).
Proof. unfold wp, wtp. destruct (m s) as [[??]| |]; naive_solver. Qed.
Lemma wtp_mget s (Q : S → S → Prop) : wtp mget s Q ↔ Q s s.
Proof. done. Qed.
Lemma wtp_mgets {A} (f : S → A) s (Q : S → A → Prop) : wtp (mgets f) s Q ↔ Q s (f s).
Proof. done. Qed.
Lemma wtp_mmodify (f : S → S) s (Q : S → unit → Prop) : wtp (mmodify f) s Q ↔ Q (f s) tt.
Proof. done. Qed.
Lemma wtp_mpanic {A} s (Q : S → A → Prop) : wtp mpanic s Q.
Proof. done. Qed.
Lemma wtp_massert b s (Q : S → unit → Prop) : wtp (massert b) s Q ↔ (b = true → Q s tt).
Proof. destruct b; unfold wtp; simpl; naive_solver. Qed.
Lemma wtp_munwrap {A} (o : option A) s (Q : S → A → Prop) :
  wtp (munwrap o) s Q ↔ ∀ a, o = Some a → Q s a.
Proof. destruct o; unfold wtp; simpl; naive_solver. Qed.
Lemma wtp_mwhen b (m : M S unit) s (Q : S → unit → Prop) :
  wtp (mwhen b m) s Q ↔ if b then wtp m s Q else Q s tt.
Proof. by destruct b. Qed.

Lemma wtp_mforeach {B} (I : list B → S → Prop) (f : B → M S unit) l s (Q : S → unit → Prop) :
  I [] s →
  (∀ dn x rest s, l = dn ++ x :: rest → I dn s → wtp (f x) s (λ s' _, I (dn ++ [x]) s')) →
  (∀ s, I l s → Q s tt) →
  wtp (mforeach f l) s Q.
Proof.
  intros H0 Hstep HQ.
  assert (∀ rest dn s, l = dn ++ rest → I dn s → wtp (mforeach f rest) s Q) as Hgen.
  { induction rest as [|x rest IH]; intros dn s' Hl HI; simpl.
    - apply HQ. subst. by rewrite app_nil_r.
    - apply wtp_bind. eapply wtp_mono; [by eapply Hstep|].
      intros s'' [] HI'. eapply (IH (dn ++ [x])); [|done]. by rewrite <-app_assoc. }
  by apply (Hgen l []).
Qed.

(** *** Frames: computations that relate their first and last store by [R]. *)
Section frames.
Context (R : S → S → Prop) (HR : PreOrder R).

Definition keeps {A} (m : M S A) : Prop := ∀ s, wtp m s (λ s' _, R s s').

Lemma keeps_ret {A} (a : A) : keeps (mret a).
Proof. intros s. by apply wtp_ret. Qed.
Lemma keeps_bind {A B} (m : M S A) (k : A → M S B) :
  keeps m → (∀ a, keeps (k a)) → keeps (m ≫= k).
Proof.
  intros Hm Hk s. apply wtp_bind. eapply wtp_mono; [apply Hm|]. intros s1 a H1.
  eapply wtp_mono; [apply Hk|]. intros s2 b H2. by trans s1.
Qed.
(** A frame step in front of the rest, seen from an earlier store [s0]. *)
Lemma keeps_then {A B} s0 (m : M S A) (k : A → M S B) s Q : keeps m → R s0 s →
  (∀ s' a, R s0 s' → wtp (k a) s' Q) → wtp (m ≫= k) s Q.
Proof.
  intros Hm H0 Hk. apply wtp_bind. eapply wtp_mono; [apply Hm|]. intros s1 a H1.
  apply Hk. by trans s.
Qed.
(** Under a read, the store that was read is the one the rest starts in. *)
Lemma keeps_mget {B} (k : S → M S B) :
  (∀ s, wtp (k s) s (λ s' _, R s s')) → keeps (mget ≫= k).
Proof. intros Hk s. apply wtp_bind, wtp_mget, Hk. Qed.
Lemma keeps_get : keeps mget.
Proof. intros s. by apply wtp_mget. Qed.
Lemma keeps_gets {A} (f : S → A) : keeps (mgets f).
Proof. intros s. by apply wtp_mgets. Qed.
Lemma keeps_modify (f : S → S) : (∀ s, R s (f s)) → keeps (mmodify f).
Proof. intros Hf s. apply wtp_mmodify, Hf. Qed.
Lemma keeps_panic {A} : keeps (mpanic : M S A).
Proof. done. Qed.
Lemma keeps_massert b : keeps (massert b).
Proof. intros s. by apply wtp_massert. Qed.
Lemma keeps_munwrap {A} (o : option A) : keeps (munwrap o).
Proof. intros s. by apply wtp_munwrap. Qed.
Lemma keeps_mwhen b (m : M S unit) : keeps m → keeps (mwhen b m).
Proof. destruct b; [done|]. intros _. apply keeps_ret. Qed.
Lemma keeps_mforeach {B} (f : B → M S unit) l : (∀ x, keeps (f x)) → keeps (mforeach f l).
Proof.
  intros Hf. induction l as [|x l IH]; simpl; [apply keeps_ret|]. by apply keeps_bind.
Qed.
End frames.
End wtp.

(** [calm m]: [m] does not panic, whatever the store. *)
Section calm.
Context {S : Type}.
Definition calm {A} (m : M S A) : Prop := ∀ s, m s ≠ Panicked.
Lemma wp_of_wtp {A} (m : M S A) s (Q : S → A → Prop) : calm m → wtp m s Q → wp m s Q.
Proof. unfold wp, wtp. intros Hc. specialize (Hc s). by destruct (m s) as [[??]| |]. Qed.
Lemma calm_ret {A} (a : A) : calm (mret a).
Proof. done. Qed.
Lemma calm_bind {A B} (m : M S A) (k : A → M S B) :
  calm m → (∀ a, calm (k a)) → calm (m ≫= k).
Proof.
  intros Hm Hk s. specialize (Hm s). unfold mbind, M_bind.
  destruct (m s) as [[s' a]| |]; [apply Hk|done..].
Qed.
Lemma calm_get : calm (mget : M S S).
Proof. done. Qed.
Lemma calm_gets {A} (f : S → A) : calm (mgets f).
Proof. done. Qed.
Lemma calm_modify (f : S → S) : calm (mmodify f).
Proof. done. Qed.
Lemma calm_nofuel {A} : calm (mnofuel : M S A).
Proof. done. Qed.
Lemma calm_munwrap {A} (o : option A) : is_Some o → calm (munwrap o).
Proof. by intros [a ->]. Qed.
Lemma calm_mwhen b (m : M S unit) : calm m → calm (mwhen b m).
Proof. by destruct b. Qed.
Lemma calm_mforeach {B} (f : B → M S unit) l : (∀ x, calm (f x)) → calm (mforeach f l).
Proof. intros Hf. induction l as [|x l IH]; simpl; [done|]. by apply calm_bind. Qed.
End calm.
Create HintDb calm.
#[export] Hint Resolve calm_ret calm_get calm_gets calm_modify calm_nofuel : calm.
Ltac calm_step :=
  match goal with
  | |- calm (_ ≫= _) => apply calm_bind; [| intros ?]
  | |- calm (mwhen _ _) => apply calm_mwhen
  | |- calm (mforeach _ _) => apply calm_mforeach; intros ?
  | |- calm (match _ with _ => _ end) => case_match
  | |- calm _ => solve [eauto 3 with calm nocore]
  end.
Ltac calm := intros; repeat calm_step.

(** The lemmas that establish a frame; a development adds those of its own
    operations. *)
Create HintDb frames.
#[export] Hint Resolve keeps_ret keeps_get keeps_gets keeps_panic keeps_massert keeps_munwrap : frames.
#[export] Hint Extern 0 (PreOrder _) => apply _ : frames.
(** One step of a frame proof: a bind, a case distinction, or a hint. *)
Ltac frame_step :=
  match goal with
  | |- keeps _ (_ ≫= _) => apply keeps_bind; [apply _ | | intros ?]
  | |- keeps _ (mwhen _ _) => apply keeps_mwhen; [apply _ |]
  | |- keeps _ (mforeach _ _) => apply keeps_mforeach; [apply _ | intros ?]
  | |- keeps _ (match _ with _ => _ end) => case_match
  | |- keeps _ _ => solve [eauto 3 with frames nocore]
  end.
Ltac frame := intros; repeat frame_step.

(** ** Hash collections

    [HashMap] and [HashSet] iterate in an order the standard library leaves
    unspecified.  [HashIter] is that order: any enumeration of the entries. *)

Class HashIter : Type := {
  hm_iter : ∀ {K A : Type} `{Countable K}, gmap K A → list (K * A);
  hm_iter_perm : ∀ {K A : Type} `{Countable K} (m : gmap K A),
    hm_iter m ≡ₚ map_to_list m;
}.

Definition hm_keys `{!HashIter} {K A} `{Countable K} (m : gmap K A) : list K :=
  (hm_iter m).*1.
Definition hm_values `{!HashIter} {K A} `{Countable K} (m : gmap K A) : list A :=
  (hm_iter m).*2.
Definition hs_iter `{!HashIter} {K} `{Countable K} (X : gset K) : list K :=
  hm_keys (gset_to_gmap tt X).

(** The enumeration used by the concrete runs; not an instance, so that no
    theorem depends on it by accident. *)
Definition hash_iter_canonical : HashIter := {|
  hm_iter := λ K A _ _ m, map_to_list m;
  hm_iter_perm := λ K A _ _ m, reflexivity _;
|}.

Section hash_iter.
Context `{!HashIter} {K A : Type} `{Countable K}.
Implicit Types (m : gmap K A).

Lemma elem_of_hm_iter m k a : (k, a) ∈ hm_iter m ↔ m !! k = Some a.
Proof. rewrite hm_iter_perm. apply elem_of_map_to_list. Qed.

Lemma elem_of_hm_keys m k : k ∈ hm_keys m ↔ is_Some (m !! k).
Proof.
  unfold hm_keys. rewrite list_elem_of_fmap. split.
  - intros [[k' a] [-> Hin]]. apply elem_of_hm_iter in Hin. by eexists.
  - intros [a Ha]. exists (k, a). split; [done|]. by apply elem_of_hm_iter.
Qed.

Lemma elem_of_hm_values m a : a ∈ hm_values m ↔ ∃ k, m !! k = Some a.
Proof.
  unfold hm_values. rewrite list_elem_of_fmap. split.
  - intros [[k a'] [-> Hin]]. apply elem_of_hm_iter in Hin. by eexists.
  - intros [k Hk]. exists (k, a). split; [done|]. by apply elem_of_hm_iter.
Qed.

Lemma NoDup_hm_keys m : NoDup (hm_keys m).
Proof. unfold hm_keys. rewrite hm_iter_perm. apply NoDup_fst_map_to_list. Qed.

Lemma NoDup_hm_iter m : NoDup (hm_iter m).
Proof. rewrite hm_iter_perm. apply NoDup_map_to_list. Qed.

Lemma hm_iter_empty : hm_iter (∅ : gmap K A) = [].
Proof. apply Permutation_nil. by rewrite hm_iter_perm, map_to_list_empty. Qed.

Lemma hm_values_empty : hm_values (∅ : gmap K A) = [].
Proof. unfold hm_values. by rewrite hm_iter_empty. Qed.

Lemma length_hm_values m : length (hm_values m) = size m.
Proof.
  unfold hm_values. rewrite length_fmap, hm_iter_perm. apply length_map_to_list.
Qed.

Lemma elem_of_hs_iter (X : gset K) k : k ∈ hs_iter X ↔ k ∈ X.
Proof.
  unfold hs_iter. split.
  - intros Hk. unfold hm_keys in Hk.
    apply list_elem_of_fmap in Hk as [[k' []] [-> Hin]].
    rewrite hm_iter_perm in Hin. apply elem_of_map_to_list in Hin.
    by apply lookup_gset_to_gmap_Some in Hin as [??].
  - intros Hk. unfold hm_keys. apply list_elem_of_fmap. exists (k, tt).
    split; [done|]. rewrite hm_iter_perm. apply elem_of_map_to_list.
    by apply lookup_gset_to_gmap_Some.
Qed.
End hash_iter.

(** [BTreeMap<Rc<UnitX>, _>]: the values in the order of the keys. *)
Definition bt_values {A} (m : gmap string A) : list A :=
  (merge_sort (λ a b : string * A, a.1 ≤ b.1)%string (map_to_list m)).*2.

Lemma elem_of_bt_values {A} (m : gmap string A) a : a ∈ bt_values m ↔ ∃ k, m !! k = Some a.
Proof.
  unfold bt_values. rewrite merge_sort_Permutation, list_elem_of_fmap.
  setoid_rewrite elem_of_map_to_list'. split.
  - intros [[k a'] [-> Hin]]. by exists k.
  - intros [k Hk]. by exists (k, a).
Qed.

Lemma forallb_false {B} (g : B → bool) l : forallb g l = false → ∃ x, x ∈ l ∧ g x = false.
Proof.
  induction l as [|x l IH]; simpl; [done|]. intros [Hx|Hl]%andb_false_iff.
  - exists x. split; [by left|done].
  - destruct (IH Hl) as (y & ? & ?). exists y. split; [by right|done].
Qed.

(** ** Machine integers *)
Definition u32_max : Z := (2 ^ 32 - 1)%Z.
Definition u64_max : Z := (2 ^ 64 - 1)%Z.
Definition wrap_u32 (z : Z) : Z := (z mod 2 ^ 32)%Z.
Definition wrap_u64 (z : Z) : Z := (z mod 2 ^ 64)%Z.

(** ** Patterns and sorting *)

(** Whether a pattern matches, [None] for a pattern that is not well formed. *)
Class Patterns : Type := { glob_match : string → string → option bool; regex_match : string → string → option bool }.

(** [slice::sort_by]: a permutation, in order if the comparison is one on the slice. *)
Definition orders {A} (c : A → A → comparison) (l : list A) : Prop :=
  (∀ x y, x ∈ l → y ∈ l → c y x = CompOpp (c x y))
  ∧ (∀ x y z, x ∈ l → y ∈ l → z ∈ l → c x y ≠ Gt → c y z ≠ Gt → c x z ≠ Gt).
Class SliceSort : Type := {
  sort_by {A : Type} : (A → A → comparison) → list A → list A;
  sort_by_perm {A : Type} (c : A → A → comparison) (l : list A) : sort_by c l ≡ₚ l;
  sort_by_sorted {A : Type} (c : A → A → comparison) (l : list A) : orders c l →
    StronglySorted (λ x y, c x y ≠ Gt) (sort_by c l);
}.

Fixpoint insert_by {A} (c : A → A → comparison) (x : A) (l : list A) : list A :=
  match l with
  | [] => [x]
  | y :: l' => match c x y with Gt => y :: insert_by c x l' | _ => x :: l end
  end.
Definition insertion_sort {A} (c : A → A → comparison) (l : list A) : list A := foldr (insert_by c) [] l.
Lemma insert_by_perm {A} (c : A → A → comparison) x l : insert_by c x l ≡ₚ x :: l.
Proof. induction l as [|y l IH]; [done|]. simpl. destruct (c x y); [done..|]. rewrite IH. apply Permutation_swap. Qed.
Lemma insertion_sort_perm {A} (c : A → A → comparison) l : insertion_sort c l ≡ₚ l.
Proof. induction l as [|x l IH]; [done|]. simpl. by rewrite insert_by_perm, IH. Qed.
Lemma insert_by_sorted {A} (c : A → A → comparison) x l : orders c (x :: l) →
  StronglySorted (λ x y, c x y ≠ Gt) l → StronglySorted (λ x y, c x y ≠ Gt) (insert_by c x l).
Proof.
  intros [Ho1 Ho2] Hs. induction Hs as [|y l Hs IH Hy]; simpl; [repeat constructor|].
  assert (c x y ≠ Gt → StronglySorted (λ x y, c x y ≠ Gt) (x :: y :: l)) as Hfront.
  { intros Hxy. constructor; [by constructor|]. constructor; [done|]. rewrite Forall_forall in *. intros z Hz.
    apply (Ho2 x y z); [set_solver..|done|by apply Hy]. }
  destruct (c x y) eqn:Hxy; [by apply Hfront..|]. constructor.
  - apply IH; intros; [apply Ho1|eapply (Ho2 x0 y0 z)]; set_solver.
  - apply Forall_forall. intros z. rewrite insert_by_perm. intros [->|Hz]%elem_of_cons.
    + rewrite (Ho1 x y) by set_solver. by rewrite Hxy.
    + rewrite Forall_forall in Hy. by apply Hy.
Qed.
Lemma insertion_sort_sorted {A} (c : A → A → comparison) l : orders c l → StronglySorted (λ x y, c x y ≠ Gt) (insertion_sort c l).
Proof.
  intros Ho. induction l as [|x l IH]; [constructor|]. simpl. apply insert_by_sorted.
  - destruct Ho as [Ho1 Ho2]. split; [intros a b Ha Hb; apply Ho1|intros a b d Ha Hb Hd; apply Ho2];
      revert Ha Hb; try revert Hd; rewrite !elem_of_cons, ?insertion_sort_perm; tauto.
  - apply IH. destruct Ho as [Ho1 Ho2]. split; [intros a b Ha Hb; apply Ho1|intros a b d Ha Hb Hd; apply Ho2]; by right.
Qed.
(** The order of an insertion sort, for concrete runs. *)
Definition insertion_sort_sorts : SliceSort := {|
  sort_by _ c l := insertion_sort c l; sort_by_perm _ := insertion_sort_perm; sort_by_sorted _ := insertion_sort_sorted |}.
