(* ===== verification/UnitTypes.v ===== *)
(** * Unit data: states, relations, atoms, modes, errors

    The enumerations of [core/lib/unit/state.rs], [core/lib/unit/deps.rs],
    [core/bin/unit/rentry.rs] and [core/lib/error.rs] that the job engine and
    the unit store are written with, with decidable equality, finiteness and
    countability. *)
From S2P Require Import Prelude.

(** An [Rc<UnitX>] is compared, hashed and ordered by the unit's id
    ([Unit]'s [PartialEq], [Hash] and [Ord]), so the model's handle of a unit
    is its id.  ([PartialEq] also compares the unit type, which
    [unit_name_to_type] computes from the id.) *)
Abbreviation UnitId := string.

(** ** [core/lib/unit/state.rs] *)
Inductive UnitActiveState :=
| UnitActive | UnitReloading | UnitInActive | UnitFailed
| UnitActivating | UnitDeActivating | UnitMaintenance.

#[export] Instance UnitActiveState_eq_dec : EqDecision UnitActiveState.
Proof. solve_decision. Defined.

Definition is_active_or_reloading (s : UnitActiveState) : bool :=
  match s with UnitActive | UnitReloading => true | _ => false end.
Definition is_inactive_or_failed (s : UnitActiveState) : bool :=
  match s with UnitInActive | UnitFailed => true | _ => false end.
Definition is_active_or_activating (s : UnitActiveState) : bool :=
  match s with UnitActive | UnitActivating | UnitReloading => true | _ => false end.
Definition is_inactive_or_deactivating (s : UnitActiveState) : bool :=
  match s with UnitInActive | UnitFailed | UnitDeActivating => true | _ => false end.

(** [bitflags! UnitNotifyFlags: u8] *)
Definition UnitNotifyFlags := Z.
Definition UNIT_NOTIFY_SUCCESS : UnitNotifyFlags := 0%Z.
Definition UNIT_NOTIFY_RELOAD_FAILURE : UnitNotifyFlags := Z.shiftl 1 0.
Definition UNIT_NOTIFY_WILL_AUTO_RESTART : UnitNotifyFlags := Z.shiftl 1 1.
(** [a.intersects(b)] of the [bitflags] crate: some bit is in both. *)
Definition flags_intersects (a b : UnitNotifyFlags) : bool :=
  negb (Z.land a b =? 0)%Z.

(** ** [core/lib/unit/deps.rs] *)
Inductive UnitRelations :=
| UnitRequires | UnitRequisite | UnitWants | UnitBindsTo | UnitPartOf | UnitUpHolds
| UnitRequiresBy | UnitRequisiteOf | UnitWantsBy | UnitBoundBy | UnitConsistsOf
| UnitUpHeldBy
| UnitConflicts | UnitConflictedBy
| UnitBefore | UnitAfter
| UnitOnSuccess | UnitOnSuccessOf | UnitOnFailure | UnitonFailureOf
| UnitTriggers | UnitTriggeredBy
| UnitPropagatesReloadTo | UnitReloadPropagatedFrom
| UnitPropagatesStopTo | UnitStopPropagatedFrom
| UnitJoinsNameSpaceOf
| UnitReferences | UnitReferencedBy
| UnitInSlice | UnitSliceOf.

#[export] Instance UnitRelations_eq_dec : EqDecision UnitRelations.
Proof. solve_decision. Defined.

#[export] Program Instance UnitRelations_finite : Finite UnitRelations := {|
  enum := [UnitRequires; UnitRequisite; UnitWants; UnitBindsTo; UnitPartOf; UnitUpHolds;
    UnitRequiresBy; UnitRequisiteOf; UnitWantsBy; UnitBoundBy; UnitConsistsOf; UnitUpHeldBy;
    UnitConflicts; UnitConflictedBy; UnitBefore; UnitAfter;
    UnitOnSuccess; UnitOnSuccessOf; UnitOnFailure; UnitonFailureOf;
    UnitTriggers; UnitTriggeredBy; UnitPropagatesReloadTo; UnitReloadPropagatedFrom;
    UnitPropagatesStopTo; UnitStopPropagatedFrom; UnitJoinsNameSpaceOf;
    UnitReferences; UnitReferencedBy; UnitInSlice; UnitSliceOf] |}.
Next Obligation. by apply (bool_decide_unpack _). Qed.
Next Obligation. intros []; by apply (bool_decide_unpack _). Qed.

Inductive UnitRelationAtom :=
| UnitAtomPullInStart | UnitAtomPullInStartIgnored | UnitAtomPullInVerify
| UnitAtomPullInStop | UnitAtomPullInStopIgnored | UnitAtomAddStopWhenUnneededQueue
| UnitAtomPinsStopWhenUnneeded | UnitAtomCannotBeActiveWithout
| UnitAtomAddCannotBeActiveWithoutQueue | UnitAtomStartSteadily
| UnitAtomAddStartWhenUpheldQueue | UnitAtomRetroActiveStartReplace
| UnitAtomRetroActiveStartFail | UnitAtomRetroActiveStopOnStart
| UnitAtomRetroActiveStopOnStop | UnitAtomPropagateStartFailure
| UnitAtomPropagateStopFailure | UnitAtomPropagateInactiveStartAsFailure
| UnitAtomPropagateStop | UnitAtomPropagateRestart
| UnitAtomAddDefaultTargetDependencyQueue | UnitAtomDefaultTargetDependencies
| UnitAtomBefore | UnitAtomAfter | UnitAtomOnSuccess | UnitAtomOnFailure
| UnitAtomTriggers | UnitAtomTriggeredBy | UnitAtomPropagatesReloadTo
| UnitAtomJoinsNameSpaceOf | UnitAtomReferences | UnitAtomReferencedBy
| UnitAtomInSlice | UnitAtomSliceOf.

#[export] Instance UnitRelationAtom_eq_dec : EqDecision UnitRelationAtom.
Proof. solve_decision. Defined.

#[export] Program Instance UnitRelationAtom_finite : Finite UnitRelationAtom := {|
  enum := [UnitAtomPullInStart; UnitAtomPullInStartIgnored; UnitAtomPullInVerify;
    UnitAtomPullInStop; UnitAtomPullInStopIgnored; UnitAtomAddStopWhenUnneededQueue;
    UnitAtomPinsStopWhenUnneeded; UnitAtomCannotBeActiveWithout;
    UnitAtomAddCannotBeActiveWithoutQueue; UnitAtomStartSteadily;
    UnitAtomAddStartWhenUpheldQueue; UnitAtomRetroActiveStartReplace;
    UnitAtomRetroActiveStartFail; UnitAtomRetroActiveStopOnStart;
    UnitAtomRetroActiveStopOnStop; UnitAtomPropagateStartFailure;
    UnitAtomPropagateStopFailure; UnitAtomPropagateInactiveStartAsFailure;
    UnitAtomPropagateStop; UnitAtomPropagateRestart;
    UnitAtomAddDefaultTargetDependencyQueue; UnitAtomDefaultTargetDependencies;
    UnitAtomBefore; UnitAtomAfter; UnitAtomOnSuccess; UnitAtomOnFailure;
    UnitAtomTriggers; UnitAtomTriggeredBy; UnitAtomPropagatesReloadTo;
    UnitAtomJoinsNameSpaceOf; UnitAtomReferences; UnitAtomReferencedBy;
    UnitAtomInSlice; UnitAtomSliceOf] |}.
Next Obligation. by apply (bool_decide_unpack _). Qed.
Next Obligation. intros []; by apply (bool_decide_unpack _). Qed.

Inductive UnitType :=
| UnitService | UnitTarget | UnitSocket | UnitMount
| UnitTypeMax | UnitTypeInvalid | UnitTypeErrnoMax.

#[export] Instance UnitType_eq_dec : EqDecision UnitType.
Proof. solve_decision. Defined.

#[export] Program Instance UnitType_finite : Finite UnitType := {|
  enum := [UnitService; UnitTarget; UnitSocket; UnitMount; UnitTypeMax; UnitTypeInvalid;
    UnitTypeErrnoMax] |}.
Next Obligation. by apply (bool_decide_unpack _). Qed.
Next Obligation. intros []; by apply (bool_decide_unpack _). Qed.

(** [impl From<UnitType> for String] *)
Definition UnitType_to_string (t : UnitType) : string :=
  match t with
  | UnitService => "service"
  | UnitTarget => "target"
  | UnitSocket => "socket"
  | UnitMount => "mount"
  | UnitTypeMax | UnitTypeInvalid | UnitTypeErrnoMax => ""
  end.

(** ** [core/bin/unit/rentry.rs] *)
Inductive JobMode :=
| ModeFail | ModeReplace | ModeReplaceIrreversible | ModeIsolate | ModeFlush
| ModeIgnoreDependencies | ModeIgnoreRequirements | ModeTrigger.

#[export] Instance JobMode_eq_dec : EqDecision JobMode.
Proof. solve_decision. Defined.

(** [JobMode::deserialize_with]: the names a unit file may use. *)
Definition JobMode_of_string (s : string) : JobMode :=
  if decide (s = "fail") then ModeFail
  else if decide (s = "replace") then ModeReplace
  else if decide (s = "replace_irreversible") then ModeReplaceIrreversible
  else if decide (s = "isolate") then ModeIsolate
  else if decide (s = "flush") then ModeFlush
  else if decide (s = "ignore_dependencies") then ModeIgnoreDependencies
  else if decide (s = "ignore_requirements") then ModeIgnoreRequirements
  else if decide (s = "trigger") then ModeTrigger
  else ModeReplace.

Inductive UnitLoadState :=
| UnitStub | UnitLoaded | UnitNotFound | UnitError | UnitMerged | UnitMasked.

#[export] Instance UnitLoadState_eq_dec : EqDecision UnitLoadState.
Proof. solve_decision. Defined.

(** [UnitEmergencyAction] ([core/bin/unit/entry/config.rs]): what the manager does
    when a unit ends, fails, or is started too often. *)
Inductive UnitEmergencyAction :=
| ActionNone | Reboot | RebootForce | RebootImmediate
| Poweroff | PoweroffForce | PoweroffImmediate | Exit | ExitForce.

#[export] Instance UnitEmergencyAction_eq_dec : EqDecision UnitEmergencyAction.
Proof. solve_decision. Defined.

(** [UnitEmergencyAction::deserialize_with] and [from] *)
Definition UnitEmergencyAction_of_string (s : string) : UnitEmergencyAction :=
  if decide (s = "none") then ActionNone
  else if decide (s = "reboot") then Reboot
  else if decide (s = "reboot-force") then RebootForce
  else if decide (s = "reboot-immediate") then RebootImmediate
  else if decide (s = "poweroff") then Poweroff
  else if decide (s = "poweroff-force") then PoweroffForce
  else if decide (s = "poweroff-immediate") then PoweroffImmediate
  else if decide (s = "exit") then Exit
  else if decide (s = "exit-force") then ExitForce
  else ActionNone.

Record UeConfigUnit := {
  Description : string;
  Documentation : string;
  IgnoreOnIsolate : bool;
  DefaultDependencies : bool;
  RefuseManualStart : bool;
  RefuseManualStop : bool;
  OnFailureJobMode : JobMode;
  OnSuccessJobMode : JobMode;
  Wants : list string;
  Requires : list string;
  BindsTo : list string;
  Requisite : list string;
  PartOf : list string;
  OnFailure : list string;
  OnSuccess : list string;
  Before : list string;
  After : list string;
  Conflicts : list string;
  ConditionFileNotEmpty : string;
  ConditionNeedsUpdate : string;
  ConditionPathExists : string;
  ConditionUser : string;
  ConditionFirstBoot : string;
  AssertPathExists : string;
  StartLimitInterval : Z; (* u64 *)
  StartLimitBurst : Z;    (* u32 *)
  SuccessAction : UnitEmergencyAction;
  FailureAction : UnitEmergencyAction;
  StartLimitAction : UnitEmergencyAction;
  JobTimeoutSec : Z;      (* u64 *)
  JobTimeoutAction : UnitEmergencyAction;
}.

(** The [#[config(default = ..)]] values. *)
Definition UeConfigUnit_default : UeConfigUnit := {|
  Description := "";
  Documentation := "";
  IgnoreOnIsolate := false;
  DefaultDependencies := true;
  RefuseManualStart := false;
  RefuseManualStop := false;
  OnFailureJobMode := ModeReplace;
  OnSuccessJobMode := ModeReplace;
  Wants := []; Requires := []; BindsTo := []; Requisite := []; PartOf := [];
  OnFailure := []; OnSuccess := []; Before := []; After := []; Conflicts := [];
  ConditionFileNotEmpty := "";
  ConditionNeedsUpdate := "";
  ConditionPathExists := "";
  ConditionUser := "";
  ConditionFirstBoot := "";
  AssertPathExists := "";
  StartLimitInterval := 10%Z;
  StartLimitBurst := 5%Z;
  SuccessAction := ActionNone;
  FailureAction := ActionNone;
  StartLimitAction := ActionNone;
  JobTimeoutSec := 0%Z;
  JobTimeoutAction := ActionNone;
|}.

Record UeConfigInstall := {
  Alias : list string;
  WantedBy : list string;
  RequiredBy : list string;
  Also : list string;
}.
Definition UeConfigInstall_default : UeConfigInstall :=
  {| Alias := []; WantedBy := []; RequiredBy := []; Also := [] |}.

(** ** [core/lib/error.rs]: the errors the job engine and the unit actions
    raise and match on; [ErrOther] stands for every other constructor, which
    all the matches modelled here treat alike. *)
Inductive Error :=
| ErrInput | ErrConflict | ErrNotExisted | ErrInternal | ErrNotSupported | ErrBadRequest
| UnitActionEAgain | UnitActionEAlready | UnitActionEComm | UnitActionEBadR
| UnitActionENoExec | UnitActionEProto | UnitActionEOpNotSupp | UnitActionENolink
| UnitActionEStale | UnitActionEFailed | UnitActionEInval | UnitActionEBusy
| UnitActionENoent | UnitActionECanceled
| UnitActionERefuseManualStart | UnitActionERefuseManualStop
| ErrOther (msg : string).

#[export] Instance Error_eq_dec : EqDecision Error.
Proof. solve_decision. Defined.

(** [Result<T, Error>] *)
Inductive Result (T E : Type) :=
| Ok (t : T)
| Err (e : E).
Arguments Ok {T E} t.
Arguments Err {T E} e.

Definition is_ok {T E} (r : Result T E) : bool :=
  match r with Ok _ => true | Err _ => false end.
Definition is_err {T E} (r : Result T E) : bool :=
  match r with Ok _ => false | Err _ => true end.
(** The operator [?], and its notations. *)
Definition mtry {S A B X} (m : M S (Result A X)) (k : A → M S (Result B X)) : M S (Result B X) :=
  r ← m; match r with Ok a => k a | Err e => mret (Err e) end.
Lemma wp_mtry {S A B X} (m : M S (Result A X)) (k : A → M S (Result B X)) s Q :
  wp (mtry m k) s Q ↔ wp m s (λ s' r, match r with Ok a => wp (k a) s' Q | Err e => Q s' (Err e) end).
Proof.
  unfold mtry. rewrite wp_bind. split; intros H; (eapply wp_mono; [exact H|]); intros s' [a|e]; simpl; auto.
Qed.
Declare Scope try_scope.
Delimit Scope try_scope with try.
Notation "x ←? m ; k" := (mtry m (λ x, k)) (at level 20, m at level 100, k at level 200, right associativity) : try_scope.
Notation "m ;;? k" := (mtry m (λ _, k)) (at level 100, k at level 200, right associativity) : try_scope.
(** [r.unwrap()] *)
Definition munwrap_ok {S A} (r : Result A Error) : M S A :=
  match r with Ok a => mret a | Err _ => mpanic end.
