(* ===== verification/Relation.v ===== *)
(** * Relations and their atoms

    [core/bin/unit/base]: the inverse of a relation ([relation.rs]) and the two
    tables that translate between a relation and its atoms
    ([relation_atom.rs]). *)
From S2P Require Import Prelude UnitTypes.

Definition unit_relation_to_inverse (relation : UnitRelations) : UnitRelations :=
  match relation with
  | UnitRequires => UnitRequiresBy
  | UnitRequisite => UnitRequisiteOf
  | UnitWants => UnitWantsBy
  | UnitBindsTo => UnitBoundBy
  | UnitPartOf => UnitConsistsOf
  | UnitUpHolds => UnitUpHeldBy
  | UnitRequiresBy => UnitRequires
  | UnitRequisiteOf => UnitRequisite
  | UnitWantsBy => UnitWants
  | UnitBoundBy => UnitBindsTo
  | UnitConsistsOf => UnitPartOf
  | UnitUpHeldBy => UnitUpHolds
  | UnitConflicts => UnitConflictedBy
  | UnitConflictedBy => UnitConflicts
  | UnitBefore => UnitAfter
  | UnitAfter => UnitBefore
  | UnitOnSuccess => UnitOnSuccessOf
  | UnitOnSuccessOf => UnitOnSuccess
  | UnitOnFailure => UnitonFailureOf
  | UnitonFailureOf => UnitOnFailure
  | UnitTriggers => UnitTriggeredBy
  | UnitTriggeredBy => UnitTriggers
  | UnitPropagatesReloadTo => UnitReloadPropagatedFrom
  | UnitReloadPropagatedFrom => UnitPropagatesReloadTo
  | UnitPropagatesStopTo => UnitStopPropagatedFrom
  | UnitStopPropagatedFrom => UnitPropagatesStopTo
  | UnitJoinsNameSpaceOf => UnitJoinsNameSpaceOf
  | UnitReferences => UnitReferencedBy
  | UnitReferencedBy => UnitReferences
  | UnitInSlice => UnitSliceOf
  | UnitSliceOf => UnitInSlice
  end.

(** Each [atoms.push(..)] in the order of the code. *)
Definition unit_relation_to_atom (relation : UnitRelations) : list UnitRelationAtom :=
  match relation with
  | UnitRequires =>
    [UnitAtomPullInStart;
     UnitAtomRetroActiveStartReplace;
     UnitAtomAddStopWhenUnneededQueue;
     UnitAtomAddDefaultTargetDependencyQueue]
  | UnitRequisite =>
    [UnitAtomPullInVerify;
     UnitAtomAddStopWhenUnneededQueue;
     UnitAtomAddDefaultTargetDependencyQueue]
  | UnitWants =>
    [UnitAtomPullInStartIgnored;
     UnitAtomRetroActiveStartFail;
     UnitAtomAddStopWhenUnneededQueue;
     UnitAtomDefaultTargetDependencies]
  | UnitBindsTo =>
    [UnitAtomPullInStart;
     UnitAtomRetroActiveStartReplace;
     UnitAtomCannotBeActiveWithout;
     UnitAtomAddStopWhenUnneededQueue;
     UnitAtomAddDefaultTargetDependencyQueue]
  | UnitPartOf =>
    [UnitAtomAddDefaultTargetDependencyQueue]
  | UnitUpHolds =>
    [UnitAtomPullInStartIgnored;
     UnitAtomRetroActiveStartReplace;
     UnitAtomAddStartWhenUpheldQueue;
     UnitAtomAddStopWhenUnneededQueue;
     UnitAtomAddDefaultTargetDependencyQueue]
  | UnitRequiresBy =>
    [UnitAtomPropagateStop;
     UnitAtomPropagateRestart;
     UnitAtomPropagateStartFailure;
     UnitAtomPinsStopWhenUnneeded;
     UnitAtomDefaultTargetDependencies]
  | UnitRequisiteOf =>
    [UnitAtomPropagateStop;
     UnitAtomPropagateRestart;
     UnitAtomPropagateStartFailure;
     UnitAtomPropagateInactiveStartAsFailure;
     UnitAtomPinsStopWhenUnneeded;
     UnitAtomDefaultTargetDependencies]
  | UnitWantsBy =>
    [UnitAtomDefaultTargetDependencies; UnitAtomPinsStopWhenUnneeded]
  | UnitBoundBy =>
    [UnitAtomRetroActiveStopOnStop;
     UnitAtomPropagateStop;
     UnitAtomPropagateRestart;
     UnitAtomPropagateStartFailure;
     UnitAtomPinsStopWhenUnneeded;
     UnitAtomAddCannotBeActiveWithoutQueue;
     UnitAtomDefaultTargetDependencies]
  | UnitUpHeldBy =>
    [UnitAtomStartSteadily;
     UnitAtomDefaultTargetDependencies;
     UnitAtomPinsStopWhenUnneeded]
  | UnitConsistsOf =>
    [UnitAtomPropagateStop; UnitAtomPropagateRestart]
  | UnitConflicts =>
    [UnitAtomPullInStop; UnitAtomRetroActiveStopOnStart]
  | UnitConflictedBy =>
    [UnitAtomPullInStopIgnored;
     UnitAtomRetroActiveStopOnStart;
     UnitAtomPropagateStopFailure]
  | UnitPropagatesStopTo =>
    [UnitAtomRetroActiveStopOnStop; UnitAtomPropagateStop]
  | UnitBefore =>
    [UnitAtomBefore]
  | UnitAfter =>
    [UnitAtomAfter]
  | UnitOnSuccess =>
    [UnitAtomOnSuccess]
  | UnitOnFailure =>
    [UnitAtomOnFailure]
  | UnitTriggers =>
    [UnitAtomTriggers]
  | UnitTriggeredBy =>
    [UnitAtomTriggeredBy]
  | UnitPropagatesReloadTo =>
    [UnitAtomPropagatesReloadTo]
  | UnitJoinsNameSpaceOf =>
    [UnitAtomJoinsNameSpaceOf]
  | UnitReferences =>
    [UnitAtomReferences]
  | UnitReferencedBy =>
    [UnitAtomReferences]
  | UnitInSlice =>
    [UnitAtomInSlice]
  | UnitSliceOf =>
    [UnitAtomSliceOf]
  | UnitReloadPropagatedFrom | UnitOnSuccessOf | UnitonFailureOf
  | UnitStopPropagatedFrom => []
  end.

Definition unit_relation_from_unique_atom (atom : UnitRelationAtom) : list UnitRelations :=
  match atom with
  | UnitAtomPullInStart =>
    [UnitRequires; UnitBindsTo]
  | UnitAtomPullInStartIgnored =>
    [UnitWants; UnitUpHolds]
  | UnitAtomPullInVerify =>
    [UnitRequisite]
  | UnitAtomPullInStop =>
    [UnitConflicts]
  | UnitAtomPullInStopIgnored =>
    [UnitConflictedBy]
  | UnitAtomAddStopWhenUnneededQueue =>
    [UnitRequires; UnitRequisite; UnitWants; UnitBindsTo; UnitUpHolds]
  | UnitAtomPinsStopWhenUnneeded =>
    [UnitRequiresBy;
     UnitRequisiteOf;
     UnitWantsBy;
     UnitBoundBy;
     UnitUpHeldBy]
  | UnitAtomCannotBeActiveWithout =>
    [UnitBindsTo]
  | UnitAtomAddCannotBeActiveWithoutQueue =>
    [UnitBoundBy]
  | UnitAtomStartSteadily =>
    [UnitUpHeldBy]
  | UnitAtomAddStartWhenUpheldQueue =>
    [UnitUpHolds]
  | UnitAtomRetroActiveStartReplace =>
    [UnitRequires; UnitBindsTo; UnitUpHolds]
  | UnitAtomRetroActiveStartFail =>
    [UnitWants]
  | UnitAtomRetroActiveStopOnStart =>
    [UnitConflicts; UnitConflictedBy]
  | UnitAtomRetroActiveStopOnStop =>
    [UnitBoundBy; UnitPropagatesStopTo]
  | UnitAtomPropagateStartFailure =>
    [UnitRequiresBy; UnitRequisiteOf; UnitBoundBy]
  | UnitAtomPropagateStopFailure =>
    [UnitConflictedBy]
  | UnitAtomPropagateInactiveStartAsFailure =>
    [UnitRequisiteOf]
  | UnitAtomPropagateStop =>
    [UnitRequiresBy;
     UnitRequisiteOf;
     UnitBoundBy;
     UnitConsistsOf;
     UnitPropagatesStopTo]
  | UnitAtomPropagateRestart =>
    [UnitRequiresBy; UnitRequisiteOf; UnitBoundBy; UnitConsistsOf]
  | UnitAtomAddDefaultTargetDependencyQueue =>
    [UnitRequires;
     UnitRequisite;
     UnitWants;
     UnitBindsTo;
     UnitPartOf;
     UnitUpHolds]
  | UnitAtomDefaultTargetDependencies =>
    [UnitRequiresBy;
     UnitRequisiteOf;
     UnitWantsBy;
     UnitBoundBy;
     UnitUpHeldBy]
  | UnitAtomBefore =>
    [UnitBefore]
  | UnitAtomAfter =>
    [UnitAfter]
  | UnitAtomOnSuccess =>
    [UnitOnSuccess]
  | UnitAtomOnFailure =>
    [UnitOnFailure]
  | UnitAtomTriggers =>
    [UnitTriggers]
  | UnitAtomTriggeredBy =>
    [UnitTriggeredBy]
  | UnitAtomPropagatesReloadTo =>
    [UnitPropagatesReloadTo]
  | UnitAtomJoinsNameSpaceOf =>
    [UnitJoinsNameSpaceOf]
  | UnitAtomReferences =>
    [UnitReferences]
  | UnitAtomReferencedBy =>
    [UnitReferencedBy]
  | UnitAtomInSlice =>
    [UnitInSlice]
  | UnitAtomSliceOf =>
    [UnitSliceOf]
  end.

(** ** Properties *)

(** The pairs on which the two tables disagree. *)
Definition atom_table_mismatch : list (UnitRelations * UnitRelationAtom) :=
  [ (UnitWants, UnitAtomAddDefaultTargetDependencyQueue);
    (UnitWants, UnitAtomDefaultTargetDependencies);
    (UnitReferencedBy, UnitAtomReferences);
    (UnitReferencedBy, UnitAtomReferencedBy) ].

(** The inverse of a relation.  [unit_relation_to_inverse] is an
    involution: a dependency inserted from either end leaves the same two
    entries. *)
Theorem inverse_involutive r :
  unit_relation_to_inverse (unit_relation_to_inverse r) = r.
Proof. by destruct r. Qed.

(** C40: the two tables between relations and atoms.  A relation is listed for
    an atom exactly when the atom is listed for the relation, except for four
    pairs, on which the two tables of [relation_atom.rs] contradict each other
    ([UnitWants] and the two default-target atoms, [UnitReferencedBy] and the two
    reference atoms). *)
Theorem atom_tables_agree r a :
  (r ∈ unit_relation_from_unique_atom a ↔ a ∈ unit_relation_to_atom r)
  ↔ (r, a) ∉ atom_table_mismatch.
Proof.
  assert (∀ r a, bool_decide (bool_decide (r ∈ unit_relation_from_unique_atom a)
     = bool_decide (a ∈ unit_relation_to_atom r)) =
     negb (bool_decide ((r, a) ∈ atom_table_mismatch))) as Hall.
  { clear. intros []; intros []; vm_compute; reflexivity. }
  specialize (Hall r a).
  repeat case_bool_decide; naive_solver.
Qed.
