(* ===== verification/ReDb.v ===== *)
(** * The reliability database

    [core/lib/rel/base.rs]: [ReDb<K, V>], a cache in front of one table of the
    on-disk store (the [heed] crate).  Every persisted map of the program (the
    jobs of [JobRe], the units of [UnitRe]) is one of these. *)
From S2P Require Import Prelude.

(** The [heed] table is third-party code: an abstract type with the four
    calls [ReDb] makes.  [None] is a [heed] error, on which the code panics
    ([expect]).  [db_view] is the content a reader sees; the laws are what the
    crate documents of a key/value table. *)
Class HeedDb (K V DB : Type) `{Countable K} : Type := {
  db_put : DB → K → V → option DB;
  db_delete : DB → K → option DB;
  db_clear : DB → option DB;
  db_iter : DB → list (K * V);
  db_view : DB → gmap K V;
  db_put_view : ∀ d k v d', db_put d k v = Some d' → db_view d' = <[k:=v]> (db_view d);
  db_delete_view : ∀ d k d', db_delete d k = Some d' → db_view d' = delete k (db_view d);
  db_clear_view : ∀ d d', db_clear d = Some d' → db_view d' = ∅;
  db_iter_view : ∀ d, db_iter d ≡ₚ map_to_list (db_view d);
}.

Section redb.
Context `{HI : !HashIter} {K V DB : Type} `{EqK : EqDecision K} `{CK : !Countable K}.
Context `{HD : !HeedDb K V DB}.

Record ReDb := {
  redb_ignore : bool;
  redb_cache : gmap K V;
  redb_add : gmap K V;
  redb_del : gset K;
}.

Definition ReDb_new : ReDb :=
  {| redb_ignore := false; redb_cache := ∅; redb_add := ∅; redb_del := ∅ |}.

Definition redb_set_ignore (ignore : bool) (r : ReDb) : ReDb :=
  {| redb_ignore := ignore; redb_cache := redb_cache r;
     redb_add := redb_add r; redb_del := redb_del r |}.

Definition redb_insert (k : K) (v : V) (r : ReDb) : ReDb :=
  if redb_ignore r then r else
  {| redb_ignore := redb_ignore r;
     redb_del := redb_del r ∖ {[k]};
     redb_add := <[k:=v]> (redb_add r);
     redb_cache := <[k:=v]> (redb_cache r) |}.

Definition redb_remove (k : K) (r : ReDb) : ReDb :=
  if redb_ignore r then r else
  {| redb_ignore := redb_ignore r;
     redb_add := delete k (redb_add r);
     redb_del := {[k]} ∪ redb_del r;
     redb_cache := delete k (redb_cache r) |}.

Definition redb_get (k : K) (r : ReDb) : option V := redb_cache r !! k.
Definition redb_contains_key (k : K) (r : ReDb) : bool := bool_decide (is_Some (redb_cache r !! k)).
Definition redb_keys (r : ReDb) : list K := hm_keys (redb_cache r).
Definition redb_entries (r : ReDb) : list (K * V) := hm_iter (redb_cache r).

(** [do_clear]: the table and the three maps are emptied. *)
Definition redb_do_clear (r : ReDb) (d : DB) : option (ReDb * DB) :=
  d' ← db_clear d;
  Some ({| redb_ignore := redb_ignore r; redb_cache := ∅; redb_add := ∅; redb_del := ∅ |}, d').

(** [for (k, v) in add { db.put(k, v).expect(..) }] *)
Fixpoint put_all (l : list (K * V)) (d : DB) : option DB :=
  match l with
  | [] => Some d
  | (k, v) :: l' => d' ← db_put d k v; put_all l' d'
  end.

(** [for k in del { db.delete(k).expect(..) }] *)
Fixpoint delete_all (l : list K) (d : DB) : option DB :=
  match l with
  | [] => Some d
  | k :: l' => d' ← db_delete d k; delete_all l' d'
  end.

Definition cache_2_db (r : ReDb) (d : DB) : option (ReDb * DB) :=
  d1 ← put_all (hm_iter (redb_add r)) d;
  d2 ← delete_all (hs_iter (redb_del r)) d1;
  Some ({| redb_ignore := redb_ignore r; redb_cache := redb_cache r;
           redb_add := ∅; redb_del := ∅ |}, d2).

(** [for entry in iter { cache.insert(k, v) }] on the emptied cache. *)
Definition db_2_cache (r : ReDb) (d : DB) : ReDb :=
  {| redb_ignore := redb_ignore r;
     redb_add := ∅; redb_del := ∅;
     redb_cache := foldl (λ c kv, <[kv.1:=kv.2]> c) ∅ (db_iter d) |}.

(** ** Properties *)

(** The cache is the table with the pending changes applied. *)
Record redb_inv (r : ReDb) (d : DB) : Prop := {
  redb_inv_disj : ∀ k, k ∈ redb_del r → redb_add r !! k = None;
  redb_inv_del : ∀ k, k ∈ redb_del r → redb_cache r !! k = None;
  redb_inv_add : ∀ k v, redb_add r !! k = Some v → redb_cache r !! k = Some v;
  redb_inv_db : ∀ k, k ∉ redb_del r → redb_add r !! k = None →
    redb_cache r !! k = db_view d !! k;
}.

Lemma redb_insert_ignore k v r : redb_ignore (redb_insert k v r) = redb_ignore r.
Proof. unfold redb_insert. by destruct (redb_ignore r) eqn:?. Qed.
Lemma redb_remove_ignore k r : redb_ignore (redb_remove k r) = redb_ignore r.
Proof. unfold redb_remove. by destruct (redb_ignore r) eqn:?. Qed.
Lemma redb_insert_cache k v r : redb_ignore r = false →
  redb_cache (redb_insert k v r) = <[k:=v]> (redb_cache r).
Proof. intros Hi. unfold redb_insert. by rewrite Hi. Qed.
Lemma redb_remove_cache k r : redb_ignore r = false →
  redb_cache (redb_remove k r) = delete k (redb_cache r).
Proof. intros Hi. unfold redb_remove. by rewrite Hi. Qed.

Lemma redb_insert_inv k v r d : redb_inv r d → redb_inv (redb_insert k v r) d.
Proof.
  intros [Hdj Hdl Had Hdb]. unfold redb_insert. destruct (redb_ignore r); [done|].
  split; simpl; intros k'.
  - rewrite elem_of_difference, not_elem_of_singleton. intros [Hd Hk].
    rewrite lookup_insert_ne by done. eauto.
  - rewrite elem_of_difference, not_elem_of_singleton. intros [Hd Hk].
    rewrite lookup_insert_ne by done. eauto.
  - intros v'. rewrite !lookup_insert. case_decide; [done|]. eauto.
  - rewrite !lookup_insert. case_decide; [done|]. set_solver.
Qed.

Lemma redb_remove_inv k r d : redb_inv r d → redb_inv (redb_remove k r) d.
Proof.
  intros [Hdj Hdl Had Hdb]. unfold redb_remove. destruct (redb_ignore r); [done|].
  split; simpl; intros k'.
  - rewrite lookup_delete. case_decide; [done|]. set_solver.
  - rewrite lookup_delete. case_decide; [done|]. set_solver.
  - intros v'. rewrite !lookup_delete. case_decide; [done|]. eauto.
  - rewrite elem_of_union, elem_of_singleton. intros Hk.
    rewrite !lookup_delete. case_decide; [naive_solver|]. naive_solver.
Qed.

Lemma put_all_view l d d' : NoDup l.*1 → put_all l d = Some d' →
  ∀ k, db_view d' !! k = match (list_to_map l : gmap K V) !! k with
                         | Some v => Some v | None => db_view d !! k end.
Proof.
  revert d. induction l as [|[k v] l IH]; intros d Hnd Hput k'; simpl in *.
  { by simplify_eq. }
  apply NoDup_cons in Hnd as [Hk Hnd].
  apply bind_Some in Hput as (d1 & Hd1 & Hput). rewrite (IH d1 Hnd Hput k').
  rewrite (db_put_view _ _ _ _ Hd1), !lookup_insert. case_decide as Hkk; [|done].
  subst k'. by rewrite (not_elem_of_list_to_map_1 l k Hk).
Qed.

Lemma delete_all_view l d d' : delete_all l d = Some d' →
  ∀ k, db_view d' !! k = if decide (k ∈ l) then None else db_view d !! k.
Proof.
  revert d. induction l as [|k l IH]; intros d Hdel k'; simpl in *.
  { by simplify_eq. }
  apply bind_Some in Hdel as (d1 & Hd1 & Hdel). rewrite (IH d1 Hdel k').
  rewrite (db_delete_view _ _ _ Hd1), lookup_delete.
  repeat case_decide; set_solver.
Qed.

Lemma foldl_insert_lookup (l : list (K * V)) (c : gmap K V) k : NoDup l.*1 →
  foldl (λ c kv, <[kv.1:=kv.2]> c) c l !! k
  = match (list_to_map l : gmap K V) !! k with Some v => Some v | None => c !! k end.
Proof.
  revert c. induction l as [|[k' v] l IH]; intros c Hnd; simpl in *; [done|].
  apply NoDup_cons in Hnd as [Hk Hnd]. rewrite IH, !lookup_insert by done.
  case_decide as Hkk; [|done]. subst k'.
  by rewrite (not_elem_of_list_to_map_1 l k Hk).
Qed.

Lemma cache_2_db_view r d r' d' : redb_inv r d →
  cache_2_db r d = Some (r', d') → db_view d' = redb_cache r.
Proof.
  intros [Hdj Hdl Had Hdb] Hexp. unfold cache_2_db in Hexp.
  apply bind_Some in Hexp as (d1 & Hd1 & Hexp).
  apply bind_Some in Hexp as (d2 & Hd2 & Hexp). simplify_eq.
  apply map_eq. intros k. rewrite (delete_all_view _ _ _ Hd2).
  rewrite (put_all_view _ _ _ (NoDup_hm_keys _) Hd1).
  assert ((list_to_map (hm_iter (redb_add r)) : gmap K V) = redb_add r) as ->.
  { rewrite (list_to_map_proper _ (map_to_list (redb_add r))).
    - apply list_to_map_to_list.
    - apply NoDup_hm_keys.
    - apply hm_iter_perm. }
  case_decide as Hk; rewrite elem_of_hs_iter in Hk; [by rewrite Hdl|].
  destruct (redb_add r !! k) eqn:Ha; [by rewrite (Had _ _ Ha)|].
  symmetry. eauto.
Qed.

Lemma db_2_cache_view r d : redb_cache (db_2_cache r d) = db_view d.
Proof.
  apply map_eq. intros k. unfold db_2_cache; simpl.
  assert (NoDup (db_iter d).*1) as Hnd.
  { rewrite db_iter_view. apply NoDup_fst_map_to_list. }
  rewrite foldl_insert_lookup by done.
  rewrite (list_to_map_proper _ (map_to_list (db_view d)) Hnd (db_iter_view d)).
  rewrite list_to_map_to_list, lookup_empty. by destruct (db_view d !! k).
Qed.

(** Crash recovery.  Whatever inserts and removes were cached over the
    table, exporting the cache and then importing the table into any cache (a
    restarted process) gives back exactly the exported cache, with no pending
    change left, and the export leaves the invariant in place. *)
Theorem redb_export_import r r0 d r' d' :
  redb_inv r d →
  cache_2_db r d = Some (r', d') →
  redb_cache (db_2_cache r0 d') = redb_cache r
  ∧ redb_add (db_2_cache r0 d') = ∅ ∧ redb_del (db_2_cache r0 d') = ∅
  ∧ redb_inv r' d' ∧ redb_inv (db_2_cache r0 d') d'.
Proof.
  intros Hinv Hexp. pose proof (cache_2_db_view _ _ _ _ Hinv Hexp) as Hv.
  split; [by rewrite db_2_cache_view|]. do 2 (split; [done|]). split.
  - unfold cache_2_db in Hexp. apply bind_Some in Hexp as (d1 & _ & Hexp).
    apply bind_Some in Hexp as (d2 & _ & Hexp). simplify_eq.
    split; simpl; try set_solver. intros k _ _. by rewrite Hv.
  - split; simpl; try set_solver. intros k _ _.
    change (redb_cache (db_2_cache r0 d') !! k = db_view d' !! k).
    by rewrite db_2_cache_view.
Qed.
End redb.
Arguments ReDb K V {_ _}.

(** A concrete table, for the witnesses: a [gmap] on which no call fails. *)
#[export] Program Instance gmap_HeedDb {K V} `{Countable K} : HeedDb K V (gmap K V) := {|
  db_put d k v := Some (<[k:=v]> d);
  db_delete d k := Some (delete k d);
  db_clear d := Some ∅;
  db_iter d := map_to_list d;
  db_view d := d;
|}.
Next Obligation. naive_solver. Qed.
Next Obligation. naive_solver. Qed.
Next Obligation. naive_solver. Qed.
Next Obligation. done. Qed.

(** Two inserts and a remove are cached over a table with one entry. *)
Definition redb_sample : ReDb nat string :=
  redb_remove 1 (redb_insert 3 "c" (redb_insert 2 "b"
    {| redb_ignore := false; redb_cache := {[1 := "a"]}; redb_add := ∅; redb_del := ∅ |})).

Lemma redb_export_import_witness :
  ∃ r' d', @cache_2_db hash_iter_canonical _ _ _ _ _ _ redb_sample ({[1 := "a"]} : gmap nat string)
    = Some (r', d')
  ∧ redb_cache (db_2_cache (DB := gmap nat string) ReDb_new d') = {[2 := "b"; 3 := "c"]}.
Proof.
  eexists _, _. split; [vm_compute; reflexivity|].
  eapply (@redb_export_import hash_iter_canonical nat string (gmap nat string) _ _ _ redb_sample
    ReDb_new ({[1 := "a"]} : gmap nat string)); [|vm_compute; reflexivity].
  unfold redb_sample. apply redb_remove_inv, redb_insert_inv, redb_insert_inv.
  split; simpl; try set_solver.
Defined.
