(* ===== verification/UnitDb.v ===== *)
(** * The unit store

    [core/bin/unit/datastore]: the dependency graph of the units
    ([deps.rs]: [UnitDepData] behind [UnitDep]), the set of units ([sets.rs]) and
    the façade [UnitDb] ([mod.rs]) the job engine reads them through.  The class
    [UnitDb] is what the store promises to the job engine; [UnitDbStore] is the
    implementation. *)
From S2P Require Import Prelude UnitTypes Relation ReDb.

(** [UnitDepMask]: two [u16] masks. *)
Record UnitDepMask := { mask_source : Z; mask_dest : Z }.

#[export] Instance UnitDepMask_eq_dec : EqDecision UnitDepMask.
Proof. solve_decision. Defined.

(** The part of [UnitRe] ([core/bin/unit/rentry.rs]) the dependencies use:
    the [base] table, whose keys are the known units, and the [dep] table. *)
Record UnitRe := {
  re_base : ReDb UnitId UnitType;
  re_dep : ReDb UnitId (list (UnitRelations * UnitId));
}.

Abbreviation DepTable := (gmap UnitId (gmap UnitRelations (gmap UnitId UnitDepMask))).

Record UnitDepData := {
  dep_units : gset UnitId;  (* [units: Rc<UnitSets>], the names it holds *)
  dep_rentry : UnitRe;
  dep_t : DepTable;
}.

Definition set_t (t : DepTable) (s : UnitDepData) : UnitDepData :=
  {| dep_units := dep_units s; dep_rentry := dep_rentry s; dep_t := t |}.
Definition set_rentry (r : UnitRe) (s : UnitDepData) : UnitDepData :=
  {| dep_units := dep_units s; dep_rentry := r; dep_t := dep_t s |}.

(** [UnitRe::dep_insert], [dep_get], [dep_keys] *)
Definition re_dep_insert (unit_id : UnitId) (deps : list (UnitRelations * UnitId))
    : M UnitDepData unit :=
  s ← mget;
  massert (redb_contains_key unit_id (re_base (dep_rentry s)));;
  mmodify (set_rentry {| re_base := re_base (dep_rentry s);
                         re_dep := redb_insert unit_id deps (re_dep (dep_rentry s)) |}).

Definition re_dep_get (r : UnitRe) (unit_id : UnitId) : list (UnitRelations * UnitId) :=
  match redb_get unit_id (re_dep r) with Some deps => deps | None => [] end.

Module UnitDepData.
Section dep.
Context `{HI : !HashIter}.

(** [get_mut_dv_pad(source, relation)]: the two levels padded with empty maps. *)
Definition get_mut_dv_pad (t : DepTable) (source : UnitId) (relation : UnitRelations)
    : gmap UnitId UnitDepMask :=
  let sv := default ∅ (t !! source) in
  default ∅ (sv !! relation).

Definition insert_one_way (source : UnitId) (relation : UnitRelations) (dest : UnitId)
    (mask : UnitDepMask) (t : DepTable) : DepTable :=
  let dv := get_mut_dv_pad t source relation in
  <[source := <[relation := <[dest := mask]> dv]> (default ∅ (t !! source))]> t.

(** As written: the entry of [source] is dropped when it is *not* empty. *)
Definition remove_one_way (source : UnitId) (relation : UnitRelations) (dest : UnitId)
    (t : DepTable) : DepTable :=
  match t !! source with
  | None => t
  | Some sv =>
    let sv' := alter (delete dest) relation sv in
    if decide (sv' = ∅) then <[source := sv']> t else delete source t
  end.

(** The flat list [db_update] persists. *)
Definition deps_of (t : DepTable) (u : UnitId) : list (UnitRelations * UnitId) :=
  rdv ← hm_iter (default ∅ (t !! u));
  (λ d, (rdv.1, d)) <$> hm_keys rdv.2.

Definition db_update (u : UnitId) : M UnitDepData unit :=
  s ← mget; re_dep_insert u (deps_of (dep_t s) u).

Definition insert (source : UnitId) (relation : UnitRelations) (dest : UnitId)
    (reference : bool) (source_mask : Z) : M UnitDepData unit :=
  if decide (source = dest) then mret tt else
  let mask := {| mask_source := source_mask; mask_dest := 0%Z |} in
  let mask_inverse := {| mask_source := 0%Z; mask_dest := source_mask |} in
  let relation_inverse := unit_relation_to_inverse relation in
  s ← mget;
  mmodify (set_t (insert_one_way dest relation_inverse source mask_inverse
                   (insert_one_way source relation dest mask (dep_t s))));;
  mwhen reference (
    s ← mget;
    mmodify (set_t
      (insert_one_way dest (unit_relation_to_inverse UnitReferences) source mask_inverse
         (insert_one_way source UnitReferences dest mask (dep_t s)))));;
  db_update source;;
  db_update dest.

Definition remove (source : UnitId) (relation : UnitRelations) (dest : UnitId)
    : M UnitDepData unit :=
  let relation_inverse := unit_relation_to_inverse relation in
  s ← mget;
  mmodify (set_t (remove_one_way dest relation_inverse source
                   (remove_one_way source relation dest (dep_t s))));;
  db_update source;;
  db_update dest.

Definition remove_unit (source : UnitId) : M UnitDepData unit :=
  s ← mget;
  match dep_t s !! source with
  | None => mret tt
  | Some _ => mforeach (λ rd, remove source rd.1 rd.2) (deps_of (dep_t s) source)
  end.

Definition gets (t : DepTable) (source : UnitId) (relation : UnitRelations) : list UnitId :=
  match t !! source with
  | Some sv => match sv !! relation with Some dv => hm_keys dv | None => [] end
  | None => []
  end.

Definition is_dep_with (t : DepTable) (source : UnitId) (relation : UnitRelations)
    (dest : UnitId) : bool :=
  match t !! source with
  | Some sv =>
    match sv !! relation with
    | Some dv => bool_decide (is_Some (dv !! dest))
    | None => false
    end
  | None => false
  end.

(** [db_map]: rebuild the graph from the persisted dependencies. *)
Definition db_map : M UnitDepData unit :=
  s0 ← mget;
  let mask := {| mask_source := 0%Z; mask_dest := 0%Z |} in
  mforeach (λ source,
    massert (bool_decide (source ∈ dep_units s0));;     (* units.get(source).unwrap() *)
    mforeach (λ rd,
      let r_dst := unit_relation_to_inverse rd.1 in
      massert (bool_decide (rd.2 ∈ dep_units s0));;      (* units.get(dest).unwrap() *)
      s ← mget;
      mmodify (set_t (insert_one_way rd.2 r_dst source mask
                       (insert_one_way source rd.1 rd.2 mask (dep_t s)))))
      (re_dep_get (dep_rentry s0) source))
    (redb_keys (re_dep (dep_rentry s0))).

Definition clear : M UnitDepData unit := mmodify (set_t ∅).
End dep.
End UnitDepData.

(** [UnitDep::gets_atom] and [UnitDep::is_dep_atom_with] *)
Definition gets_atom `{!HashIter} (t : DepTable) (source : UnitId) (atom : UnitRelationAtom)
    : list UnitId :=
  relation ← unit_relation_from_unique_atom atom; UnitDepData.gets t source relation.

Definition is_dep_atom_with (t : DepTable) (source : UnitId) (atom : UnitRelationAtom)
    (dest : UnitId) : bool :=
  existsb (λ relation, UnitDepData.is_dep_with t source relation dest)
          (unit_relation_from_unique_atom atom).

(** ** What the store promises to the job engine

    [UnitDb] is the façade of [mod.rs] as one operation of the job engine sees
    it: the engine only reads the store, which does not change meanwhile. *)
Class UnitDb : Type := {
  dep_gets_atom : UnitId → UnitRelationAtom → list UnitId;
  dep_is_dep_atom_with : UnitId → UnitRelationAtom → UnitId → bool;
  units_get_all : list UnitId;
  units_get : UnitId → option UnitId;
  dep_is_dep_atom_with_spec : ∀ s a t,
    dep_is_dep_atom_with s a t = true ↔ t ∈ dep_gets_atom s a;
  units_get_spec : ∀ u v, units_get u = Some v ↔ u = v ∧ u ∈ units_get_all;
}.
