(* ===== verification/UnitDbFacts.v ===== *)
(** * The unit store: properties

    The dependency graph of [UnitDb.v]: what an insertion changes, the
    symmetry between a relation and its inverse, the agreement between the
    graph and its persisted copy, recovery after a restart, and what the
    removal really does. *)
From S2P Require Import Prelude UnitTypes Relation ReDb UnitDb.

(** ** Lookups in the three-level table *)
Section lookups.
Implicit Types (t : DepTable) (a b s d : UnitId) (r : UnitRelations).

Lemma is_dep_with_insert_one_way t s r d m a r' b :
  UnitDepData.is_dep_with (UnitDepData.insert_one_way s r d m t) a r' b
  = bool_decide ((a, r', b) = (s, r, d)) || UnitDepData.is_dep_with t a r' b.
Proof.
  unfold UnitDepData.is_dep_with, UnitDepData.insert_one_way, UnitDepData.get_mut_dv_pad.
  rewrite lookup_insert. case_decide as Hs; [subst a|].
  - rewrite lookup_insert. case_decide as Hr; [subst r'|].
    + rewrite lookup_insert. case_decide as Hd; [subst b|].
      * rewrite !bool_decide_true by (done || by eexists). done.
      * rewrite (bool_decide_false ((s, r, b) = _)) by naive_solver. simpl.
        destruct (t !! s) as [sv|]; simpl; [|done].
        destruct (sv !! r); simpl; [done|]. by rewrite lookup_empty.
    + rewrite (bool_decide_false ((s, r', b) = _)) by naive_solver. simpl.
      by destruct (t !! s) as [sv|]; simpl.
  - by rewrite (bool_decide_false ((a, r', b) = _)) by naive_solver.
Qed.

Lemma is_dep_with_remove_one_way_other t s r d a r' b : a ≠ s →
  UnitDepData.is_dep_with (UnitDepData.remove_one_way s r d t) a r' b
  = UnitDepData.is_dep_with t a r' b.
Proof.
  intros Ha. unfold UnitDepData.is_dep_with, UnitDepData.remove_one_way.
  destruct (t !! s); [|done].
  case_decide; [by rewrite lookup_insert_ne | by rewrite lookup_delete_ne].
Qed.

Lemma is_dep_with_remove_one_way_same t s r d r' b :
  UnitDepData.is_dep_with (UnitDepData.remove_one_way s r d t) s r' b = false.
Proof.
  unfold UnitDepData.is_dep_with, UnitDepData.remove_one_way.
  destruct (t !! s) as [sv|] eqn:Hs; [|by rewrite Hs].
  case_decide as He.
  - by rewrite lookup_insert_eq, He, lookup_empty.
  - by rewrite lookup_delete_eq.
Qed.

Context `{HI : !HashIter}.

Lemma elem_of_gets t s r d :
  d ∈ UnitDepData.gets t s r ↔ UnitDepData.is_dep_with t s r d = true.
Proof.
  unfold UnitDepData.gets, UnitDepData.is_dep_with.
  destruct (t !! s) as [sv|]; [|set_solver].
  destruct (sv !! r) as [dv|]; [|set_solver].
  by rewrite elem_of_hm_keys, bool_decide_eq_true.
Qed.

Lemma elem_of_deps_of t u r d :
  (r, d) ∈ UnitDepData.deps_of t u ↔ UnitDepData.is_dep_with t u r d = true.
Proof.
  unfold UnitDepData.deps_of, UnitDepData.is_dep_with.
  rewrite list_elem_of_bind. setoid_rewrite list_elem_of_fmap. split.
  - intros ([r' dv] & (d' & Heq & Hd') & Hin); simplify_eq/=.
    apply elem_of_hm_iter in Hin. apply elem_of_hm_keys in Hd'.
    destruct (t !! u); simpl in Hin; [|by rewrite lookup_empty in Hin].
    rewrite Hin. by apply bool_decide_eq_true.
  - destruct (t !! u) as [sv|] eqn:Hu; [|done]. simpl.
    destruct (sv !! r) as [dv|] eqn:Hr; [|done].
    intros Hd%bool_decide_eq_true. exists (r, dv). split.
    + exists d. split; [done|]. by apply elem_of_hm_keys.
    + by apply elem_of_hm_iter.
Qed.

(** The two queries the job engine makes agree. *)
Lemma is_dep_atom_with_gets_atom t s (atom : UnitRelationAtom) d :
  is_dep_atom_with t s atom d = true ↔ d ∈ gets_atom t s atom.
Proof.
  unfold is_dep_atom_with, gets_atom. rewrite existsb_exists, list_elem_of_bind.
  split; intros (r & H1 & H2); exists r.
  - split; [by apply elem_of_gets | by apply list_elem_of_In].
  - split; [by apply list_elem_of_In | by apply elem_of_gets].
Qed.
End lookups.

(** The store keeps the promise of [UnitDb]. *)
Program Definition UnitDepData_UnitDb `{!HashIter} (d : UnitDepData) : UnitDb := {|
  dep_gets_atom := gets_atom (dep_t d);
  dep_is_dep_atom_with := is_dep_atom_with (dep_t d);
  units_get_all := hs_iter (dep_units d);
  units_get u := if decide (u ∈ dep_units d) then Some u else None;
|}.
Next Obligation. intros. by apply is_dep_atom_with_gets_atom. Qed.
Next Obligation.
  intros HI d u v. simpl. rewrite elem_of_hs_iter. case_decide; naive_solver.
Qed.

(** ** The invariant of the store *)
Definition saved_deps (s : UnitDepData) (u : UnitId) : list (UnitRelations * UnitId) :=
  re_dep_get (dep_rentry s) u.

Record dep_wf (s : UnitDepData) : Prop := {
  wf_live : redb_ignore (re_dep (dep_rentry s)) = false;
  wf_base : ∀ u, u ∈ dep_units s → redb_contains_key u (re_base (dep_rentry s)) = true;
  wf_closed : ∀ a r b, UnitDepData.is_dep_with (dep_t s) a r b = true →
    a ∈ dep_units s ∧ b ∈ dep_units s;
  wf_sym : ∀ a r b, UnitDepData.is_dep_with (dep_t s) a r b
    = UnitDepData.is_dep_with (dep_t s) b (unit_relation_to_inverse r) a;
  wf_saved : ∀ u r d, (r, d) ∈ saved_deps s u
    ↔ UnitDepData.is_dep_with (dep_t s) u r d = true;
  wf_keys : ∀ u, is_Some (redb_cache (re_dep (dep_rentry s)) !! u) → u ∈ dep_units s;
}.

(** What [insert] adds: the relation and its inverse and, for a reference, the
    two reference relations. *)
Definition inserted (source : UnitId) (relation : UnitRelations) (dest : UnitId)
    (reference : bool) (a : UnitId) (r : UnitRelations) (b : UnitId) : bool :=
  bool_decide ((a, r, b) = (source, relation, dest))
  || bool_decide ((a, r, b) = (dest, unit_relation_to_inverse relation, source))
  || (reference
      && (bool_decide ((a, r, b) = (source, UnitReferences, dest))
          || bool_decide ((a, r, b) = (dest, unit_relation_to_inverse UnitReferences, source)))).

Lemma inserted_sym source relation dest reference a r b :
  inserted source relation dest reference a r b
  = inserted source relation dest reference b (unit_relation_to_inverse r) a.
Proof.
  assert (∀ r1 r2, unit_relation_to_inverse r1 = r2 ↔ r1 = unit_relation_to_inverse r2) as Hx.
  { intros [] []; vm_compute; naive_solver. }
  assert (∀ x y r2, (b, unit_relation_to_inverse r, a) = (x, r2, y)
    ↔ (a, r, b) = (y, unit_relation_to_inverse r2, x)) as Hb.
  { intros x y r2. split; intros Heq; simplify_eq; f_equal; f_equal; by apply Hx. }
  apply Bool.eq_iff_eq_true. unfold inserted.
  rewrite !orb_true_iff, !andb_true_iff, !orb_true_iff, !bool_decide_eq_true, !Hb.
  assert (unit_relation_to_inverse (unit_relation_to_inverse relation) = relation) as ->
    by (by apply Hx).
  simpl. tauto.
Qed.

Section store.
Context `{HI : !HashIter}.
Implicit Types (s : UnitDepData).

Lemma wp_db_update u s (Q : UnitDepData → unit → Prop) :
  redb_contains_key u (re_base (dep_rentry s)) = true →
  Q (set_rentry {| re_base := re_base (dep_rentry s);
       re_dep := redb_insert u (UnitDepData.deps_of (dep_t s) u) (re_dep (dep_rentry s)) |} s) tt →
  wp (UnitDepData.db_update u) s Q.
Proof.
  intros Hb HQ. unfold UnitDepData.db_update, re_dep_insert. wp_pure.
  by apply wp_massert.
Qed.

(** Persisting the two ends of a change keeps the saved copy exact. *)
Lemma saved_after_update s t' x y :
  dep_wf s →
  (∀ a r b, a ≠ x → a ≠ y → UnitDepData.is_dep_with t' a r b
                            = UnitDepData.is_dep_with (dep_t s) a r b) →
  let re1 := redb_insert x (UnitDepData.deps_of t' x) (re_dep (dep_rentry s)) in
  let re2 := redb_insert y (UnitDepData.deps_of t' y) re1 in
  ∀ u r d, (r, d) ∈ re_dep_get {| re_base := re_base (dep_rentry s); re_dep := re2 |} u
    ↔ UnitDepData.is_dep_with t' u r d = true.
Proof.
  intros Hwf Hother re1 re2 u r d. subst re2 re1.
  unfold re_dep_get, redb_get; simpl.
  rewrite !redb_insert_cache by (rewrite ?redb_insert_ignore; apply (wf_live _ Hwf)).
  destruct (decide (u = y)) as [->|Hy].
  { rewrite lookup_insert_eq. apply elem_of_deps_of. }
  rewrite lookup_insert_ne by done.
  destruct (decide (u = x)) as [->|Hx].
  { rewrite lookup_insert_eq. apply elem_of_deps_of. }
  rewrite lookup_insert_ne by done. rewrite Hother by done.
  apply (wf_saved _ Hwf).
Qed.

Lemma insert_table s source relation dest reference mask mask' :
  let t1 := UnitDepData.insert_one_way dest (unit_relation_to_inverse relation) source mask'
              (UnitDepData.insert_one_way source relation dest mask (dep_t s)) in
  let t2 := if (reference : bool) then
      UnitDepData.insert_one_way dest (unit_relation_to_inverse UnitReferences) source mask'
        (UnitDepData.insert_one_way source UnitReferences dest mask t1) else t1 in
  ∀ a r b, UnitDepData.is_dep_with t2 a r b
    = inserted source relation dest reference a r b
      || UnitDepData.is_dep_with (dep_t s) a r b.
Proof.
  intros t1 t2 a r b. subst t2 t1. unfold inserted.
  destruct reference; rewrite ?is_dep_with_insert_one_way, ?orb_false_r; simpl;
    rewrite ?is_dep_with_insert_one_way;
    repeat case_bool_decide; simpl; done.
Qed.

Lemma dep_insert_ok s source relation dest reference mask :
  dep_wf s → source ∈ dep_units s → dest ∈ dep_units s → source ≠ dest →
  wp (UnitDepData.insert source relation dest reference mask) s (λ s' _,
    dep_units s' = dep_units s
    ∧ (∀ a r b, UnitDepData.is_dep_with (dep_t s') a r b
         = inserted source relation dest reference a r b
           || UnitDepData.is_dep_with (dep_t s) a r b)
    ∧ dep_wf s' ∧ re_base (dep_rentry s') = re_base (dep_rentry s)).
Proof.
  intros Hwf Hs Hd Hne. unfold UnitDepData.insert. rewrite decide_False by done.
  set (m1 := {| mask_source := mask; mask_dest := 0%Z |}).
  set (m2 := {| mask_source := 0%Z; mask_dest := mask |}).
  pose proof (insert_table s source relation dest reference m1 m2) as Htab.
  cbv zeta in Htab.
  wp_pure. unfold mwhen.
  assert (∀ t', (∀ a r b, UnitDepData.is_dep_with t' a r b
      = inserted source relation dest reference a r b
        || UnitDepData.is_dep_with (dep_t s) a r b) →
    wp (UnitDepData.db_update source) (set_t t' s) (λ s1 _,
      wp (UnitDepData.db_update dest) s1 (λ s' _,
      dep_units s' = dep_units s
      ∧ (∀ a r b, UnitDepData.is_dep_with (dep_t s') a r b
           = inserted source relation dest reference a r b
             || UnitDepData.is_dep_with (dep_t s) a r b)
      ∧ dep_wf s' ∧ re_base (dep_rentry s') = re_base (dep_rentry s)))) as Hfin.
  { intros t' Ht'. apply wp_db_update; [by apply (wf_base _ Hwf)|].
    apply wp_db_update; [by apply (wf_base _ Hwf)|]. simpl.
    split; [done|]. split; [done|]. split; [|done]. split; simpl.
    - rewrite !redb_insert_ignore. apply (wf_live _ Hwf).
    - apply (wf_base _ Hwf).
    - intros a r b. rewrite Ht', orb_true_iff. intros [Hin|Hin].
      + unfold inserted in Hin. destruct reference; repeat case_bool_decide; naive_solver.
      + by apply (wf_closed _ Hwf) in Hin.
    - intros a r b. by rewrite !Ht', inserted_sym, (wf_sym _ Hwf a r b).
    - unfold saved_deps; simpl. apply (saved_after_update s t' source dest Hwf).
      intros a r b Ha Hb. rewrite Ht'.
      assert (inserted source relation dest reference a r b = false) as ->; [|done].
      unfold inserted. rewrite !bool_decide_false by naive_solver.
      by destruct reference.
    - intros u.
      rewrite !redb_insert_cache by (rewrite ?redb_insert_ignore; apply (wf_live _ Hwf)).
      rewrite !lookup_insert.
      repeat case_decide; subst; try done. apply (wf_keys _ Hwf). }
  destruct reference; wp_pure; by apply Hfin.
Qed.

(** An insertion adds exactly the relation, its inverse and (for a
    reference) the two reference relations, touches no other pair of units,
    persists the result and keeps the store well formed; in particular it
    never panics on known units. *)
Theorem dep_insert_spec s source relation dest reference mask :
  dep_wf s → source ∈ dep_units s → dest ∈ dep_units s → source ≠ dest →
  wp (UnitDepData.insert source relation dest reference mask) s (λ s' _,
    dep_units s' = dep_units s
    ∧ (∀ a r b, UnitDepData.is_dep_with (dep_t s') a r b
         = inserted source relation dest reference a r b
           || UnitDepData.is_dep_with (dep_t s) a r b)
    ∧ dep_wf s').
Proof.
  intros Hwf Hs Hd Hne. eapply wp_mono; [by apply dep_insert_ok|]. intros s' [] (? & ? & ? & _). done.
Qed.

(** The state of a restarted process: the persisted tables survive, the graph
    is rebuilt by [db_map] from nothing. *)
Definition restarted s : UnitDepData := set_t ∅ s.

(** Rebuilding, from tables [re] that hold what those of [s] hold, never invents a
    dependency, and covers what it has visited. *)
Record rebuilt (s : UnitDepData) (re : UnitRe) (done : list (UnitId * UnitRelations * UnitId))
    (s' : UnitDepData) : Prop := {
  rebuilt_units : dep_units s' = dep_units s;
  rebuilt_rentry : dep_rentry s' = re;
  rebuilt_sound : ∀ a r b, UnitDepData.is_dep_with (dep_t s') a r b = true →
    UnitDepData.is_dep_with (dep_t s) a r b = true;
  rebuilt_done : ∀ a r b, (a, r, b) ∈ done →
    UnitDepData.is_dep_with (dep_t s') a r b = true;
}.

Lemma rebuilt_step s re dn s' a r b m m' :
  dep_wf s → rebuilt s re dn s' → (r, b) ∈ saved_deps s a →
  rebuilt s re (dn ++ [(a, r, b)])
    (set_t (UnitDepData.insert_one_way b (unit_relation_to_inverse r) a m
       (UnitDepData.insert_one_way a r b m' (dep_t s'))) s').
Proof.
  intros Hwf [Hu Hr Hs Hd] Hin. pose proof (proj1 (wf_saved _ Hwf a r b) Hin) as Hdep.
  split; simpl; [done..| |].
  - intros x q y. rewrite !is_dep_with_insert_one_way, !orb_true_iff, !bool_decide_eq_true.
    intros [?|[?|?]]; [|by simplify_eq|by apply Hs].
    simplify_eq. by rewrite <-(wf_sym _ Hwf).
  - intros x q y Hxy. rewrite !is_dep_with_insert_one_way, !orb_true_iff, !bool_decide_eq_true.
    apply elem_of_app in Hxy as [Hxy|Hxy%list_elem_of_singleton]; [|by simplify_eq; auto].
    right; right. by apply Hd.
Qed.

Definition saved_triples s (us : list UnitId) : list (UnitId * UnitRelations * UnitId) :=
  u ← us; (λ rd, (u, rd.1, rd.2)) <$> saved_deps s u.

Lemma dep_reload s re : dep_wf s → redb_cache (re_dep re) = redb_cache (re_dep (dep_rentry s)) →
  wp UnitDepData.db_map {| dep_units := dep_units s; dep_rentry := re; dep_t := ∅ |} (λ s' _,
    dep_units s' = dep_units s ∧ dep_rentry s' = re
    ∧ ∀ a r b, UnitDepData.is_dep_with (dep_t s') a r b = UnitDepData.is_dep_with (dep_t s) a r b).
Proof.
  intros Hwf Hre. unfold UnitDepData.db_map. wp_pure. simpl.
  set (keys := redb_keys (re_dep re)).
  assert (∀ u, u ∈ keys ↔ is_Some (redb_cache (re_dep (dep_rentry s)) !! u)) as Hkeys.
  { intros u. unfold keys, redb_keys. rewrite Hre. apply elem_of_hm_keys. }
  assert (∀ u, re_dep_get re u = saved_deps s u) as Hget.
  { intros u. unfold saved_deps, re_dep_get, redb_get. by rewrite Hre. }
  eapply (wp_mforeach (λ dn s', rebuilt s re (saved_triples s dn) s')).
  - split; simpl; [done..| |]; [|set_solver].
    intros a r b. unfold UnitDepData.is_dep_with. by rewrite lookup_empty.
  - intros dn u rest s1 Hl Hs1. wp_pure. apply wp_massert. split.
    { apply bool_decide_eq_true, (wf_keys _ Hwf), Hkeys. rewrite Hl. set_solver. }
    rewrite Hget. eapply (wp_mforeach (λ dn2 s', rebuilt s re (saved_triples s dn
      ++ ((λ rd, (u, rd.1, rd.2)) <$> dn2)) s')).
    + by rewrite app_nil_r.
    + intros dn2 [r d] rest2 s2 Hl2 Hs2. wp_pure. apply wp_massert.
      assert ((r, d) ∈ saved_deps s u) as Hin by (rewrite Hl2; set_solver). split.
      { apply bool_decide_eq_true. apply (wf_saved _ Hwf) in Hin.
        by apply (wf_closed _ Hwf) in Hin as [??]. }
      simpl. rewrite fmap_app, app_assoc. by apply rebuilt_step.
    + intros s2 Hs2. unfold saved_triples in *. rewrite bind_app.
      change (mbind ?f [u]) with (f u ++ []). by rewrite app_nil_r.
  - intros s1 [Hu Hr Hs Hd]. split_and!; [done..|].
    intros a r b. apply Bool.eq_iff_eq_true. split; [apply Hs|]. intros Hdep.
    apply Hd. unfold saved_triples. apply list_elem_of_bind. exists a.
    pose proof (proj2 (wf_saved _ Hwf a r b) Hdep) as Hin. split.
    + apply list_elem_of_fmap. by exists (r, b).
    + apply Hkeys. unfold saved_deps, re_dep_get, redb_get in Hin.
      destruct (redb_cache _ !! a) eqn:Ha; [by eexists|set_solver].
Qed.

(** Recovery of the dependency graph.  After a restart, [db_map] rebuilds
    from the persisted table exactly the dependency relation that the store
    had, without panicking. *)
Theorem dep_reload_roundtrip s :
  dep_wf s →
  wp UnitDepData.db_map (restarted s) (λ s' _,
    (∀ a r b, UnitDepData.is_dep_with (dep_t s') a r b
       = UnitDepData.is_dep_with (dep_t s) a r b)
    ∧ dep_wf s').
Proof.
  intros Hwf. eapply wp_mono; [by apply dep_reload|]. intros s' [] (Hu & Hr & Heq). split; [done|].
  destruct Hwf. split; unfold saved_deps; rewrite ?Hr, ?Hu; try done.
  - intros a r b. rewrite Heq. eauto.
  - intros a r b. rewrite !Heq. eauto.
  - intros u r d. rewrite Heq. eauto.
Qed.

(** [remove] does not remove one dependency.  Its test on the
    emptiness of the source's entry is inverted, so removing any dependency of
    a unit erases every dependency of that unit, in either direction of the
    pair. *)
Theorem dep_remove_erases_source s source relation dest :
  dep_wf s → source ∈ dep_units s → dest ∈ dep_units s → source ≠ dest →
  wp (UnitDepData.remove source relation dest) s (λ s' _,
    (∀ r b, UnitDepData.is_dep_with (dep_t s') source r b = false)
    ∧ (∀ r b, UnitDepData.is_dep_with (dep_t s') dest r b = false)
    ∧ (∀ a r b, a ≠ source → a ≠ dest →
         UnitDepData.is_dep_with (dep_t s') a r b = UnitDepData.is_dep_with (dep_t s) a r b)).
Proof.
  intros Hwf Hs Hd Hne. unfold UnitDepData.remove. wp_pure.
  apply wp_db_update; [by apply (wf_base _ Hwf)|].
  apply wp_db_update; [by apply (wf_base _ Hwf)|]. simpl.
  split; [|split].
  - intros r b. rewrite is_dep_with_remove_one_way_other by done.
    apply is_dep_with_remove_one_way_same.
  - intros r b. apply is_dep_with_remove_one_way_same.
  - intros a r b Ha Hb. by rewrite !is_dep_with_remove_one_way_other.
Qed.
End store.

(** ** Concrete runs *)
Definition dep_sample : UnitDepData := {|
  dep_units := {["a.service"; "b.service"; "c.target"]};
  dep_rentry := {|
    re_base := {| redb_ignore := false; redb_add := ∅; redb_del := ∅;
      redb_cache := {["a.service" := UnitService; "b.service" := UnitService;
                      "c.target" := UnitTarget]} |};
    re_dep := ReDb_new |};
  dep_t := ∅ |}.

Lemma dep_sample_wf : dep_wf dep_sample.
Proof.
  split; simpl; try done.
  - intros u Hu. assert (u = "a.service" ∨ u = "b.service" ∨ u = "c.target") as Hx by set_solver.
    by destruct Hx as [->|[->| ->]].
  - intros u r d. split; [|done]. unfold saved_deps, re_dep_get, redb_get. simpl.
    rewrite lookup_empty. set_solver.
  - intros u [? Hu]. by rewrite lookup_empty in Hu.
Qed.

Lemma dep_insert_spec_witness :
  wp (@UnitDepData.insert hash_iter_canonical "a.service" UnitRequires "b.service" true 0%Z)
    dep_sample (λ s' _, UnitDepData.is_dep_with (dep_t s') "b.service" UnitRequiresBy "a.service"
      = true ∧ dep_wf s').
Proof.
  eapply wp_mono.
  - apply (@dep_insert_spec hash_iter_canonical dep_sample "a.service" UnitRequires "b.service"
      true 0%Z); [apply dep_sample_wf | set_solver | set_solver | done].
  - intros s' [] (_ & Hdep & Hwf). split; [by rewrite Hdep | done].
Defined.

(** [a] requires [b] and wants [c]. *)
Definition dep_sample_ab : UnitDepData :=
  run_state (@UnitDepData.insert hash_iter_canonical "a.service" UnitRequires "b.service" true 0%Z)
    dep_sample.
Definition dep_sample_abc : UnitDepData :=
  run_state (@UnitDepData.insert hash_iter_canonical "a.service" UnitWants "c.target" true 0%Z)
    dep_sample_ab.

Lemma dep_insert_run (s : UnitDepData) a r b refb m :
  dep_wf s → a ∈ dep_units s → b ∈ dep_units s → a ≠ b →
  dep_wf (run_state (@UnitDepData.insert hash_iter_canonical a r b refb m) s)
  ∧ dep_units (run_state (@UnitDepData.insert hash_iter_canonical a r b refb m) s) = dep_units s.
Proof.
  intros Hwf Ha Hb Hne.
  apply (wp_run_state _ s (λ s', dep_wf s' ∧ dep_units s' = dep_units s)).
  eapply wp_mono; [by apply (@dep_insert_ok hash_iter_canonical)|naive_solver].
Qed.

Lemma dep_sample_abc_wf : dep_wf dep_sample_abc ∧ dep_units dep_sample_abc = dep_units dep_sample.
Proof.
  assert (dep_wf dep_sample_ab ∧ dep_units dep_sample_ab = dep_units dep_sample) as [Hwf Hu].
  { apply dep_insert_run; [apply dep_sample_wf|set_solver|set_solver|done]. }
  unfold dep_sample_abc. rewrite <-Hu.
  apply dep_insert_run; [done|rewrite Hu; set_solver|rewrite Hu; set_solver|done].
Qed.

Lemma dep_remove_erases_source_witness :
  UnitDepData.is_dep_with (dep_t dep_sample_abc) "a.service" UnitWants "c.target" = true
  ∧ wp (@UnitDepData.remove hash_iter_canonical "a.service" UnitRequires "b.service")
    dep_sample_abc (λ s' _, UnitDepData.is_dep_with (dep_t s') "a.service" UnitWants "c.target" = false).
Proof.
  split; [by vm_compute|]. destruct dep_sample_abc_wf as [Hwf Hu]. eapply wp_mono.
  - apply (@dep_remove_erases_source hash_iter_canonical dep_sample_abc "a.service" UnitRequires
      "b.service"); [done | rewrite Hu; set_solver | rewrite Hu; set_solver | done].
  - by intros s' [] [Hdep _].
Defined.

Lemma dep_reload_roundtrip_witness :
  wp (@UnitDepData.db_map hash_iter_canonical) (restarted dep_sample_abc)
    (λ s' _, UnitDepData.is_dep_with (dep_t s') "c.target" UnitWantsBy "a.service" = true).
Proof.
  eapply wp_mono.
  - apply (@dep_reload_roundtrip hash_iter_canonical dep_sample_abc), dep_sample_abc_wf.
  - intros s' [] [Hdep _]. by rewrite Hdep.
Defined.
