(* ===== verification/RateLimit.v ===== *)
(** * Start rate limiting

    [core/bin/unit/entry/ratelimit.rs]: [RateLimit] and the [StartLimit] every
    unit owns.  The monotonic clock is an argument of the call: [Instant::now()]
    is a number of nanoseconds. *)
From S2P Require Import Prelude.

Local Open Scope Z_scope.

Record RateLimit := {
  interval : Z;         (* u64, seconds *)
  burst : Z;            (* u32 *)
  begin : option Z;     (* Option<Instant> *)
  nums : Z;             (* u32 *)
}.

Definition RateLimit_new (i b : Z) : RateLimit :=
  {| interval := i; burst := b; begin := None; nums := 0 |}.

Definition ratelimit_enabled (r : RateLimit) : bool :=
  (0 <? interval r) && (0 <? burst r).

(** [now.duration_since(begin).as_secs()]; [duration_since] is zero on an
    earlier instant. *)
Definition elapsed_secs (now b : Z) : Z := Z.max 0 (now - b) / 1000000000.

Definition RateLimit_ratelimit_below (now : Z) (r : RateLimit) : RateLimit * bool :=
  if negb (ratelimit_enabled r) then (r, true) else
  if match begin r with None => true | Some b => interval r <? elapsed_secs now b end
  then ({| interval := interval r; burst := burst r; begin := Some now; nums := 1 |}, true)
  else if nums r <? burst r
  then ({| interval := interval r; burst := burst r; begin := begin r;
           nums := wrap_u32 (nums r + 1) |}, true)
  else (r, false).

Definition RateLimit_init_from_config (i b : Z) (r : RateLimit) : RateLimit :=
  {| interval := i; burst := b; begin := begin r; nums := nums r |}.

Inductive StartLimitResult := StartLimitNotHit | StartLimitHit.

Record StartLimit := { hit : bool; start_limit : RateLimit }.

Definition StartLimit_new : StartLimit := {| hit := false; start_limit := RateLimit_new 0 0 |}.
Definition set_hit (h : bool) (s : StartLimit) : StartLimit :=
  {| hit := h; start_limit := start_limit s |}.
Definition StartLimit_ratelimit_below (now : Z) (s : StartLimit) : StartLimit * bool :=
  let rb := RateLimit_ratelimit_below now (start_limit s) in
  ({| hit := hit s; start_limit := rb.1 |}, rb.2).
Definition StartLimit_init_from_config (i b : Z) (s : StartLimit) : StartLimit :=
  {| hit := hit s; start_limit := RateLimit_init_from_config i b (start_limit s) |}.

(** ** Properties *)

(** The verdicts of a sequence of calls, in order. *)
Fixpoint ratelimit_run (nows : list Z) (r : RateLimit) : RateLimit * list bool :=
  match nows with
  | [] => (r, [])
  | now :: nows' =>
    let rb := RateLimit_ratelimit_below now r in
    let rs := ratelimit_run nows' rb.1 in
    (rs.1, rb.2 :: rs.2)
  end.

Definition accepted (bs : list bool) : Z := Z.of_nat (length (filter (λ b, b = true) bs)).

(** What every limiter reached from [RateLimit_new] satisfies. *)
Definition ratelimit_wf (r : RateLimit) : Prop :=
  0 <= interval r ∧ 0 <= burst r <= u32_max ∧
  (begin r = None → nums r = 0) ∧ 0 <= nums r ∧
  (ratelimit_enabled r = true → nums r <= burst r).

(** Whether a call at [now] falls in the limiter's current window. *)
Definition in_window (r : RateLimit) (now : Z) : Prop :=
  match begin r with None => False | Some b => elapsed_secs now b <= interval r end.

Lemma ratelimit_enabled_spec r : ratelimit_enabled r = true ↔ 0 < interval r ∧ 0 < burst r.
Proof. unfold ratelimit_enabled. rewrite andb_true_iff, !Z.ltb_lt. lia. Qed.

Lemma wrap_u32_id z : 0 <= z <= u32_max → wrap_u32 z = z.
Proof. unfold wrap_u32, u32_max. intros. apply Z.mod_small. lia. Qed.

Lemma accepted_cons b bs : accepted (b :: bs) = (if b then 1 else 0) + accepted bs.
Proof. unfold accepted. destruct b; rewrite filter_cons; simpl; lia. Qed.

(** In the current window the limiter is a counter up to [burst]. *)
Lemma ratelimit_run_window r nows :
  ratelimit_wf r → ratelimit_enabled r = true → Forall (in_window r) nows →
  let (r', bs) := ratelimit_run nows r in
  ratelimit_wf r' ∧ begin r' = begin r ∧ interval r' = interval r ∧ burst r' = burst r ∧
  accepted bs = Z.min (Z.of_nat (length nows)) (burst r - nums r) ∧
  nums r' = nums r + accepted bs.
Proof.
  revert r. induction nows as [|now nows IH]; intros r Hwf Hen Hin; simpl.
  { pose proof Hwf as (?&?&?&?&Hb). specialize (Hb Hen). unfold accepted; cbn [filter length list_filter].
    change (Z.of_nat 0) with 0.
    split_and!; [done..|lia|lia]. }
  apply Forall_cons in Hin as [Hnow Hin].
  destruct Hwf as (Hi&Hb&Hn&Hn0&Hnb). specialize (Hnb Hen).
  assert (∃ b0, begin r = Some b0 ∧ elapsed_secs now b0 <= interval r) as (b0&Hb0&Hel).
  { unfold in_window in Hnow. destruct (begin r); [eauto|done]. }
  unfold RateLimit_ratelimit_below. rewrite Hen, Hb0. simpl.
  replace (interval r <? elapsed_secs now b0) with false by (symmetry; apply Z.ltb_ge; lia).
  destruct (nums r <? burst r) eqn:Hlt; simpl.
  - apply Z.ltb_lt in Hlt. rewrite wrap_u32_id by (unfold u32_max in *; lia).
    set (r1 := {| interval := interval r; burst := burst r; begin := Some b0;
                  nums := nums r + 1 |}).
    assert (ratelimit_enabled r1 = true) as Hen1 by done.
    specialize (IH r1). destruct (ratelimit_run nows r1) as [r' bs].
    destruct IH as (?&Hbg&?&?&Hacc&Hnums).
    { unfold r1, ratelimit_wf; simpl. split_and!; try done; lia. }
    { done. }
    { eapply Forall_impl; [exact Hin|]. intros t. unfold in_window, r1. simpl. by rewrite Hb0. }
    simpl in *. rewrite accepted_cons, Hacc. split_and!; solve [done | congruence | lia].
  - apply Z.ltb_ge in Hlt.
    specialize (IH r). destruct (ratelimit_run nows r) as [r' bs].
    destruct IH as (?&?&?&?&Hacc&?); [by unfold ratelimit_wf|done|done|].
    simpl. rewrite accepted_cons. simpl. split_and!; solve [done | congruence | lia].
Qed.

(** C39: start-rate limiting.  With a positive interval and burst, a call
    outside the current window opens a window of its own, and of the calls of
    that window (the opening one and the [n] after it) exactly [min (n+1) burst]
    are accepted, the first ones: no more than [burst] starts pass in a window,
    and none of the first [burst] is refused. *)
Theorem ratelimit_window r now nows :
  ratelimit_wf r → ratelimit_enabled r = true → ¬ in_window r now →
  Forall (λ t, elapsed_secs t now <= interval r) nows →
  let (r', bs) := ratelimit_run (now :: nows) r in
  accepted bs = Z.min (Z.of_nat (S (length nows))) (burst r)
  ∧ ratelimit_wf r' ∧ begin r' = Some now ∧ nums r' = accepted bs.
Proof.
  intros Hwf Hen Hout Hin. simpl.
  set (r1 := {| interval := interval r; burst := burst r; begin := Some now; nums := 1 |}).
  assert (RateLimit_ratelimit_below now r = (r1, true)) as ->.
  { unfold RateLimit_ratelimit_below. rewrite Hen. simpl.
    unfold in_window in Hout. destruct (begin r) as [b|]; [|done].
    replace (interval r <? elapsed_secs now b) with true; [done|]. symmetry. apply Z.ltb_lt. lia. }
  simpl. pose proof (proj1 (ratelimit_enabled_spec _) Hen) as [Hi Hb].
  destruct Hwf as (?&?&?&?&?).
  pose proof (ratelimit_run_window r1 nows) as Hrun.
  destruct (ratelimit_run nows r1) as [r' bs]. simpl in *.
  destruct Hrun as (?&?&?&?&Hacc&?).
  { unfold r1, ratelimit_wf; simpl. split_and!; try done; lia. }
  { done. }
  { exact Hin. }
  rewrite accepted_cons, Hacc. split_and!; try done; lia.
Qed.

(** Seven calls in one second, at most five of them accepted. *)
Lemma ratelimit_window_witness :
  let (r', bs) := ratelimit_run (0 :: [1; 2; 3; 4; 5; 6]) (RateLimit_new 10 5) in
  accepted bs = Z.min 7 5 ∧ ratelimit_wf r' ∧ begin r' = Some 0 ∧ nums r' = accepted bs.
Proof.
  apply (ratelimit_window (RateLimit_new 10 5) 0 [1; 2; 3; 4; 5; 6]).
  - unfold ratelimit_wf, u32_max; simpl. lia.
  - done.
  - intros [].
  - repeat constructor; by vm_compute.
Defined.
