(* ===== verification/Condition.v ===== *)
(** * Unit conditions and asserts

    [libs/basic/src/condition.rs] ([Condition] and its probes),
    [core/bin/unit/entry/condition.rs] ([UeCondition]), and the parsers the
    probes use ([parse_boolean], [parse_uid], [parse_name], the kernel command
    line). *)
From Stdlib Require Import Ascii.
From S2P Require Import Prelude.

Local Open Scope Z_scope.

(** What the probes ask the operating system.  [env_user_by_uid] and
    [env_user_by_name] are [User::from_uid] and [User::from_name] of [nix] (an
    error and a missing user are both [None]: every caller treats them alike),
    returning the user's uid; root exists on every system. *)
Class CondEnv : Type := {
  env_path_exists : string → bool;
  env_metadata : string → option (bool * Z);   (* (is_file, len) *)
  env_uid : Z;
  env_euid : Z;
  env_user_by_uid : Z → option Z;
  env_user_by_name : string → option Z;
  env_cmdline : option string;                  (* /proc/cmdline, if readable *)
  env_root : env_user_by_uid 0 = Some 0;
}.

(** ** Parsers *)

Definition to_lowercase_ascii (c : Ascii.ascii) : Ascii.ascii :=
  let n := Ascii.nat_of_ascii c in
  if (65 <=? n)%nat && (n <=? 90)%nat then Ascii.ascii_of_nat (n + 32) else c.
Definition to_lowercase (s : string) : string :=
  String.string_of_list_ascii (map to_lowercase_ascii (String.list_ascii_of_string s)).

(** [parse_boolean]; [None] is the parse error. *)
Definition parse_boolean (item : string) : option bool :=
  let s := to_lowercase item in
  if bool_decide (s ∈ ["1"; "yes"; "y"; "true"; "t"; "on"]%string) then Some true
  else if bool_decide (s ∈ ["0"; "no"; "n"; "false"; "f"; "off"]%string) then Some false
  else None.

(** [str::split] at the characters that satisfy [p]. *)
Fixpoint split_on (p : Ascii.ascii → bool) (cur : list Ascii.ascii) (s : list Ascii.ascii)
    : list (list Ascii.ascii) :=
  match s with
  | [] => [rev cur]
  | c :: s' => if p c then rev cur :: split_on p [] s' else split_on p (c :: cur) s'
  end.
Definition is_space (c : Ascii.ascii) : bool :=
  let n := Ascii.nat_of_ascii c in (n =? 32)%nat || ((9 <=? n)%nat && (n <=? 13)%nat).
Definition split_whitespace (s : string) : list (list Ascii.ascii) :=
  filter (λ w, w ≠ []) (split_on is_space [] (String.list_ascii_of_string s)).
(** A word holds no white space, so [trim] leaves the parts as they are. *)
Definition split_eq (w : list Ascii.ascii) : list string :=
  String.string_of_list_ascii <$> split_on (λ c, Ascii.eqb c "="%char) [] w.

Fixpoint cmdline_find (key : string) (ws : list (list Ascii.ascii)) : option string :=
  match ws with
  | [] => None
  | w :: ws' =>
    match split_eq w with
    | [k; v] => if decide (k = key) then Some v else cmdline_find key ws'
    | _ => cmdline_find key ws'
    end
  end.

(** [cmdline_get_value]; the outer [None] is the I/O error. *)
Definition cmdline_get_value `{CondEnv} (key : string) : option (option string) :=
  buf ← env_cmdline; Some (cmdline_find key (split_whitespace buf)).

Definition proc_cmdline_get_bool `{CondEnv} (key : string) : option bool :=
  val ← cmdline_get_value key;
  match val with
  | None => Some false
  | Some v => parse_boolean v
  end.

Definition is_digit (c : Ascii.ascii) : bool :=
  let n := Ascii.nat_of_ascii c in (48 <=? n)%nat && (n <=? 57)%nat.
Definition digits_value (cs : list Ascii.ascii) : Z :=
  foldl (λ acc c, acc * 10 + (Z.of_nat (Ascii.nat_of_ascii c) - 48)) 0 cs.

(** [parse_uid]: the uid of the user, [None] for every error. *)
Definition parse_uid `{CondEnv} (uid_str : string) : option Z :=
  match String.list_ascii_of_string uid_str with
  | [] => None
  | c :: cs =>
    if decide (uid_str = "0"%string) then env_user_by_uid 0
    else if is_digit c && negb (Ascii.eqb c "0"%char) && forallb is_digit cs then
      let uid := digits_value (c :: cs) in
      if u32_max <? uid then None else env_user_by_uid uid
    else None
  end.

Definition parse_name `{CondEnv} (name_str : string) : option Z :=
  if decide (name_str = ""%string) then None else env_user_by_name name_str.

Definition uid_is_system (uid : Z) : bool := uid <=? 999.

(** ** [Condition] *)
Inductive ConditionType := PathExists | FileNotEmpty | NeedsUpdate | User | FirstBoot.

Record Condition := {
  c_type : ConditionType;
  c_trigger : Z;  (* i8 *)
  c_revert : Z;   (* i8 *)
  c_params : string;
}.

(** [b as i8] *)
Definition bool_as_i8 (b : bool) : Z := if b then 1 else 0.

Section condition.
Context `{CondEnv}.

Definition test_path_exists (params : string) : Z := bool_as_i8 (env_path_exists params).

Definition test_file_not_empty (params : string) : Z :=
  bool_as_i8 (default false ((λ m, if (m.1 : bool) then 0 <? m.2 else false) <$> env_metadata params)).

Definition test_needs_update (params : string) : Z := 0.

Definition test_user (params : string) : Z :=
  match parse_uid params with
  | Some uid => bool_as_i8 ((uid =? env_uid) || (uid =? env_euid))
  | None =>
    if decide (params = "@system"%string) then
      bool_as_i8 (uid_is_system env_uid || uid_is_system env_euid)
    else bool_as_i8 (match parse_name params with
                     | Some uid => (uid =? env_uid) || (uid =? env_euid)
                     | None => false
                     end)
  end.

Definition test_first_boot (params : string) : Z :=
  if decide (proc_cmdline_get_bool "sysmaster.condition-first-boot" = Some true) then 1 else
  match parse_boolean params with
  | None => 0
  | Some result =>
    bool_as_i8 (Bool.eqb result (env_path_exists "/run/sysmaster/first-boot"))
  end.

Definition probe (t : ConditionType) (params : string) : Z :=
  match t with
  | PathExists => test_path_exists params
  | FileNotEmpty => test_file_not_empty params
  | NeedsUpdate => test_needs_update params
  | User => test_user params
  | FirstBoot => test_first_boot params
  end.

(** [Condition::test]; [!result] on an [i8] is the bitwise complement. *)
Definition Condition_test (c : Condition) : bool :=
  if decide (c_params c = ""%string) then true else
  let result := probe (c_type c) (c_params c) in
  let result := if 1 <=? c_revert c then Z.lnot result else result in
  0 <? result.

(** ** [UeCondition] *)
Record UeCondition := {
  init_flag : Z;
  conditions : list Condition;
  asserts : list Condition;
}.
Definition UeCondition_new : UeCondition :=
  {| init_flag := 0; conditions := []; asserts := [] |}.

Definition strip_prefix (ch : Ascii.ascii) (s : string) : option string :=
  match s with
  | String.EmptyString => None
  | String.String c s' => if Ascii.eqb c ch then Some s' else None
  end.

Definition new_condition (t : ConditionType) (params : string) : Condition :=
  let trig_rest := match strip_prefix "|"%char params with
                   | Some s => (1, s)
                   | None => (0, params)
                   end in
  let rev_rest := match strip_prefix "!"%char trig_rest.2 with
                  | Some s => (1, s)
                  | None => (0, trig_rest.2)
                  end in
  {| c_type := t; c_trigger := trig_rest.1; c_revert := rev_rest.1; c_params := rev_rest.2 |}.

(** [condition_keys] *)
Definition condition_key (condop : string) : option ConditionType :=
  if decide (condop = "ConditionPathExists"%string) then Some PathExists
  else if decide (condop = "ConditionFileNotEmpty"%string) then Some FileNotEmpty
  else if decide (condop = "ConditionNeedsUpdate"%string) then Some NeedsUpdate
  else if decide (condop = "ConditionUser"%string) then Some User
  else if decide (condop = "ConditionFirstBOOT"%string) then Some FirstBoot
  else None.
(** [assert_keys] *)
Definition assert_key (assertop : string) : option ConditionType :=
  if decide (assertop = "AssertPathExists"%string) then Some PathExists
  else if decide (assertop = "AssertFileNotEmpty"%string) then Some FileNotEmpty
  else None.

Definition add_condition (condop params : string) (u : UeCondition) : UeCondition :=
  if decide (params = ""%string) then u else
  match condition_key condop with
  | Some t => {| init_flag := init_flag u; asserts := asserts u;
                 conditions := conditions u ++ [new_condition t params] |}
  | None => u
  end.

Definition add_assert (assertop params : string) (u : UeCondition) : UeCondition :=
  if decide (params = ""%string) then u else
  match assert_key assertop with
  | Some t => {| init_flag := init_flag u; conditions := conditions u;
                 asserts := asserts u ++ [new_condition t params] |}
  | None => u
  end.

(** The loop of [condition_vec_test]; [None] is its early [return false]. *)
Fixpoint condition_vec_loop (cs : list Condition) (trigger_flag : Z) (ret : bool) : option bool :=
  match cs with
  | [] => Some ret
  | cond :: cs' =>
    let r := Condition_test cond in
    if (c_trigger cond =? 0) && negb r then None
    else if negb (c_trigger cond =? 0) && (trigger_flag =? 0)
    then condition_vec_loop cs' (if r then 1 else trigger_flag) r
    else condition_vec_loop cs' trigger_flag ret
  end.
Definition condition_vec_test (cs : list Condition) : bool :=
  default false (condition_vec_loop cs 0 true).

Definition conditions_test (u : UeCondition) : bool := condition_vec_test (conditions u).
Definition asserts_test (u : UeCondition) : bool := condition_vec_test (asserts u).

(** ** Properties *)

Definition plain (c : Condition) : Prop := c_trigger c = 0.
#[global] Instance plain_dec c : Decision (plain c).
Proof. unfold plain. apply _. Defined.

Lemma condition_vec_loop_spec cs tf ret :
  condition_vec_loop cs tf ret = Some true ↔
    Forall (λ c, plain c → Condition_test c = true) cs
    ∧ (if decide (tf = 0) then
         Exists (λ c, ¬ plain c ∧ Condition_test c = true) cs ∨ ret = true ∧ Forall plain cs
       else ret = true).
Proof.
  revert tf ret. induction cs as [|c cs IH]; intros tf ret;
    cbn [condition_vec_loop].
  { assert (¬ Exists (λ c, ¬ plain c ∧ Condition_test c = true) []) by inversion 1.
    split; [|by case_decide; intros [_ ?]; f_equal; tauto].
    intros [= ->]. split; [constructor|]. case_decide; [right|]; auto. }
  destruct (decide (plain c)) as [Hp|Hp]; unfold plain in Hp.
  - rewrite (proj2 (Z.eqb_eq _ _) Hp). destruct (Condition_test c) eqn:Hc; cbn [andb negb].
    + rewrite IH. destruct (decide (tf = 0)); rewrite !Forall_cons, ?Exists_cons; unfold plain; tauto.
    + split; [done|]. rewrite Forall_cons. unfold plain. intros [[Hall _] _]. specialize (Hall Hp). cbn in Hall. congruence.
  - rewrite (proj2 (Z.eqb_neq _ _) Hp). cbn [andb negb].
    destruct (decide (tf = 0)) as [->|Hf]; rewrite !Forall_cons, ?Exists_cons; unfold plain.
    + cbn [Z.eqb]. destruct (Condition_test c) eqn:Hc; rewrite IH; simpl; unfold plain; intuition congruence.
    + rewrite (proj2 (Z.eqb_neq _ _) Hf), IH, decide_False by done. unfold plain. tauto.
Qed.

Lemma condition_vec_test_iff cs :
  condition_vec_test cs = true ↔
    Forall (λ c, plain c → Condition_test c = true) cs
    ∧ (Exists (λ c, ¬ plain c ∧ Condition_test c = true) cs ∨ Forall plain cs).
Proof.
  unfold condition_vec_test.
  assert (default false (condition_vec_loop cs 0 true) = true ↔
          condition_vec_loop cs 0 true = Some true) as ->.
  { destruct (condition_vec_loop cs 0 true) as [[]|]; naive_solver. }
  rewrite condition_vec_loop_spec by auto. simpl. naive_solver.
Qed.

(** A list of conditions is met exactly when every plain condition holds
    and, if some conditions are marked as triggering ([|]), one of those holds:
    the documented reading of the unit file, whatever the order of the list. *)
Theorem condition_vec_test_spec cs :
  condition_vec_test cs =
    forallb (λ c, implb (bool_decide (plain c)) (Condition_test c)) cs
    && (existsb (λ c, negb (bool_decide (plain c)) && Condition_test c) cs
        || forallb (λ c, bool_decide (plain c)) cs).
Proof.
  apply eq_true_iff_eq. rewrite condition_vec_test_iff.
  rewrite andb_true_iff, orb_true_iff, <-!Is_true_true, !forallb_True, existb_True.
  apply ZifyClasses.and_morph; [|apply ZifyClasses.or_morph].
  - apply Forall_iff. intros c. case_bool_decide; destruct (Condition_test c); naive_solver.
  - apply Exists_proper; [|done]. intros c. case_bool_decide; destruct (Condition_test c); naive_solver.
  - apply Forall_iff. intros c. case_bool_decide; naive_solver.
Qed.

Lemma probe_01 t p : probe t p = 0 ∨ probe t p = 1.
Proof.
  destruct t; simpl; unfold test_path_exists, test_file_not_empty, test_user, test_first_boot,
    bool_as_i8; repeat case_match; auto.
Qed.

(** A negated condition ([!]) never holds.  The probes answer 0 or 1, the
    code complements that bitwise to -1 or -2, and neither is positive: instead
    of reversing the probe, the marker makes every check fail, so a unit file
    with a plain [ConditionX=!value] can never be started. *)
Theorem negated_condition_fails t params rest :
  strip_prefix "!"%char params = Some rest → rest ≠ ""%string →
  Condition_test (new_condition t params) = false
  ∧ ∀ cs cs', condition_vec_test (cs ++ new_condition t params :: cs') = false.
Proof.
  intros Hp Hrest.
  assert (strip_prefix "|"%char params = None) as Hbar.
  { destruct params as [|c s]; [done|]. simpl in *.
    destruct (Ascii.eqb c "!"%char) eqn:Hc; [|done]. apply Ascii.eqb_eq in Hc. by subst c. }
  assert (Condition_test (new_condition t params) = false) as Ht.
  { unfold Condition_test, new_condition. rewrite Hbar. simpl. rewrite Hp. simpl.
    rewrite decide_False by done. by destruct (probe_01 t rest) as [-> | ->]. }
  split; [done|]. intros cs cs'. apply not_true_iff_false. rewrite condition_vec_test_iff.
  intros [Hall _]. rewrite Forall_app, Forall_cons in Hall. destruct Hall as (_ & Hc & _).
  rewrite Ht in Hc. discriminate Hc. unfold plain, new_condition. by rewrite Hbar.
Qed.

(** The verdict depends on the set of conditions only. *)
Lemma condition_vec_test_ext cs cs' :
  (∀ c, c ∈ cs ↔ c ∈ cs') → condition_vec_test cs = condition_vec_test cs'.
Proof.
  intros Heq. apply eq_true_iff_eq. rewrite !condition_vec_test_iff, !Forall_forall, !Exists_exists.
  setoid_rewrite Heq. done.
Qed.
End condition.

(** A machine for the concrete runs: root, an existing [/etc], no first boot.
    Not an instance, so that no theorem depends on it by accident. *)
Program Definition cond_env_sample : CondEnv := {|
  env_path_exists p := bool_decide (p = "/etc"%string);
  env_metadata p := None;
  env_uid := 0; env_euid := 0;
  env_user_by_uid u := if decide (u = 0) then Some 0 else None;
  env_user_by_name n := if decide (n = "root"%string) then Some 0 else None;
  env_cmdline := Some "BOOT_IMAGE=/vmlinuz ro quiet"%string;
|}.
Next Obligation. done. Qed.

#[local] Existing Instance cond_env_sample.

(** [ConditionPathExists=!/gone] fails although the path does not exist. *)
Lemma negated_condition_fails_witness :
  env_path_exists "/gone" = false
  ∧ Condition_test (new_condition PathExists "!/gone") = false.
Proof.
  split; [by vm_compute|].
  apply (negated_condition_fails PathExists "!/gone" "/gone"); done.
Defined.
