(* ===== verification/UnitEntry.v ===== *)
(** * The unit entry

    [core/bin/unit/entry/uentry.rs]: [Unit], the object the job engine starts,
    stops and reloads; [core/bin/unit/data/state.rs] and the sub-unit interface
    of [core/lib/unit/base.rs].  The kinds of units (service, socket, target..)
    are plugins behind the trait [SubUnit]; the class [SubUnits] is that trait,
    over the state [W] of all the sub-units. *)
From S2P Require Import Prelude UnitTypes RateLimit Condition.

(** [UnitState]: what a unit publishes when its active state changes. *)
Record UnitState := { st_os : UnitActiveState; st_ns : UnitActiveState; st_flags : UnitNotifyFlags }.

(** The trait [SubUnit]: every operation gives the new state of the sub-units,
    the state changes it published while it ran ([UnitBase::notify]), in order,
    and its result. *)
Class SubUnits (W : Type) : Type := {
  sub_current_active_state : UnitId → W → UnitActiveState;
  sub_start : UnitId → W → W * list UnitState * Result unit Error;
  sub_stop : UnitId → bool → W → W * list UnitState * Result unit Error;
  sub_reload : UnitId → W → W * list UnitState * Result unit Error;
  sub_can_reload : UnitId → W → bool;
}.

(** The fields of [Unit] next to its sub-unit. *)
Record Unit := {
  u_config : UeConfigUnit;
  u_load_state : UnitLoadState;
  u_conditions : UeCondition;
  u_start_limit : StartLimit;
}.

(** All the units: an [Rc<Unit>] is its id.  [us_states] and [us_limits] are
    what was inserted in the tables [1] and [2] of the [DataManager] and not yet
    taken by a subscriber, oldest first. *)
Record Units (W : Type) := {
  us_unit : UnitId → Unit;
  us_sub : W;
  us_states : list (UnitId * UnitState);
  us_limits : list (UnitId * StartLimitResult);
}.
Arguments us_unit {W}. Arguments us_sub {W}. Arguments us_states {W}. Arguments us_limits {W}.
Arguments Build_Units {W}.

(** [Unit::conditions]: the flag is never set, so every call appends the
    configured conditions and asserts once more. *)
Definition Unit_conditions (c : UeConfigUnit) (u : UeCondition) : UeCondition :=
  if negb (init_flag u =? 0)%Z then u else
  let add_c op params u := if decide (params = ""%string) then u else add_condition op params u in
  let add_a op params u := if decide (params = ""%string) then u else add_assert op params u in
  add_a "AssertPathExists" (AssertPathExists c)
    (add_c "ConditionFirstBOOT" (ConditionFirstBoot c)
      (add_c "ConditionUser" (ConditionUser c)
        (add_c "ConditionPathExists" (ConditionPathExists c)
          (add_c "ConditionNeedsUpdate" (ConditionNeedsUpdate c)
            (add_c "ConditionFileNotEmpty" (ConditionFileNotEmpty c) u))))).

Section unit.
Context `{HC : !CondEnv} {W : Type} `{HS : !SubUnits W}.
Implicit Types (u : UnitId) (s : Units W).

Definition set_unit u (x : Unit) s : Units W :=
  {| us_unit := λ v, if decide (v = u) then x else us_unit s v;
     us_sub := us_sub s; us_states := us_states s; us_limits := us_limits s |}.
Definition set_conditions (c : UeCondition) (x : Unit) : Unit :=
  {| u_config := u_config x; u_load_state := u_load_state x; u_conditions := c;
     u_start_limit := u_start_limit x |}.
Definition set_start_limit (l : StartLimit) (x : Unit) : Unit :=
  {| u_config := u_config x; u_load_state := u_load_state x; u_conditions := u_conditions x;
     u_start_limit := l |}.

(** [Unit::notify]: insert in the unit-state table of the [DataManager]. *)
Definition Unit_notify u (st : UnitState) s : Units W :=
  {| us_unit := us_unit s; us_sub := us_sub s; us_states := us_states s ++ [(u, st)];
     us_limits := us_limits s |}.
Definition insert_start_limit_result u (r : StartLimitResult) s : Units W :=
  {| us_unit := us_unit s; us_sub := us_sub s; us_states := us_states s;
     us_limits := us_limits s ++ [(u, r)] |}.

Definition current_active_state u s : UnitActiveState := sub_current_active_state u (us_sub s).
Definition load_state u s : UnitLoadState := u_load_state (us_unit s u).
Definition ignore_on_isolate u s : bool := IgnoreOnIsolate (u_config (us_unit s u)).

(** A call of the sub-unit: its state, then what it published. *)
Definition call_sub u (res : W * list UnitState * Result unit Error) s
    : Units W * Result unit Error :=
  ({| us_unit := us_unit s; us_sub := res.1.1;
      us_states := us_states s ++ ((u,.) <$> res.1.2); us_limits := us_limits s |}, res.2).

(** [self.conditions()] *)
Definition update_conditions u s : Units W :=
  let x := us_unit s u in
  set_unit u (set_conditions (Unit_conditions (u_config x) (u_conditions x)) x) s.

Definition Unit_start u s : Units W * Result unit Error :=
  let active_state := current_active_state u s in
  if is_active_or_reloading active_state then (s, Err UnitActionEAlready) else
  if decide (active_state = UnitMaintenance) then (s, Err UnitActionEAgain) else
  if decide (load_state u s ≠ UnitLoaded) then (s, Err UnitActionEInval) else
  if decide (active_state ≠ UnitActivating) then
    let s1 := update_conditions u s in
    if negb (conditions_test (u_conditions (us_unit s1 u))) then (s1, Err UnitActionEInval) else
    let s2 := update_conditions u s1 in
    if negb (asserts_test (u_conditions (us_unit s2 u))) then (s2, Err UnitActionEInval) else
    call_sub u (sub_start u (us_sub s2)) s2
  else call_sub u (sub_start u (us_sub s)) s.

Definition Unit_stop u (force : bool) s : Units W * Result unit Error :=
  if negb force && is_inactive_or_failed (current_active_state u s)
  then (s, Err UnitActionEAlready)
  else call_sub u (sub_stop u force (us_sub s)) s.

Definition Unit_reload u s : Units W * Result unit Error :=
  if negb (sub_can_reload u (us_sub s)) then (s, Err UnitActionEBadR) else
  let active_state := current_active_state u s in
  if decide (active_state = UnitReloading) then (s, Err UnitActionEAgain) else
  if decide (active_state ≠ UnitActive) then (s, Err UnitActionENoExec) else
  match call_sub u (sub_reload u (us_sub s)) s with
  | (s', Ok _) => (s', Ok tt)
  | (s', Err e) =>
    if decide (e = UnitActionEOpNotSupp) then
      (Unit_notify u {| st_os := active_state; st_ns := active_state;
                        st_flags := UNIT_NOTIFY_SUCCESS |} s', Ok tt)
    else (s', Err e)
  end.

(** [Unit::test_start_limit], called by a sub-unit's start at the instant [now]. *)
Definition Unit_test_start_limit u (now : Z) s : Units W * bool :=
  let x := us_unit s u in
  let c := u_config x in
  let l := if (0 <? StartLimitInterval c)%Z && (0 <? StartLimitBurst c)%Z
           then StartLimit_init_from_config (StartLimitInterval c) (StartLimitBurst c)
                  (u_start_limit x)
           else u_start_limit x in
  let lb := StartLimit_ratelimit_below now l in
  if lb.2 then
    (insert_start_limit_result u StartLimitNotHit
       (set_unit u (set_start_limit (set_hit false lb.1) x) s), true)
  else
    (insert_start_limit_result u StartLimitHit
       (set_unit u (set_start_limit (set_hit true lb.1) x) s), false).

(** ** Properties *)

(** The conditions the configuration asks for, once. *)
Definition configured (c : UeConfigUnit) : UeCondition := Unit_conditions c UeCondition_new.

(** What a unit's list of conditions can be: configured ones, any number of
    times (the list of a new unit is empty). *)
Record conditions_ok (x : Unit) : Prop := {
  co_flag : init_flag (u_conditions x) = 0%Z;
  co_conditions : ∀ c, c ∈ conditions (u_conditions x) → c ∈ conditions (configured (u_config x));
  co_asserts : ∀ c, c ∈ asserts (u_conditions x) → c ∈ asserts (configured (u_config x));
}.

Lemma add_condition_eq op p t (uc : UeCondition) : condition_key op = Some t →
  (if decide (p = ""%string) then uc else add_condition op p uc)
  = {| init_flag := init_flag uc; asserts := asserts uc;
       conditions := conditions uc ++ if decide (p = ""%string) then [] else [new_condition t p] |}.
Proof.
  intros Ht. unfold add_condition. rewrite Ht. destruct uc; simpl.
  case_decide; [by rewrite app_nil_r|done].
Qed.
Lemma add_assert_eq op p t (uc : UeCondition) : assert_key op = Some t →
  (if decide (p = ""%string) then uc else add_assert op p uc)
  = {| init_flag := init_flag uc; conditions := conditions uc;
       asserts := asserts uc ++ if decide (p = ""%string) then [] else [new_condition t p] |}.
Proof.
  intros Ht. unfold add_assert. rewrite Ht. destruct uc; simpl.
  case_decide; [by rewrite app_nil_r|done].
Qed.

Lemma Unit_conditions_app c (uc : UeCondition) : init_flag uc = 0%Z →
  Unit_conditions c uc = {| init_flag := 0;
    conditions := conditions uc ++ conditions (configured c);
    asserts := asserts uc ++ asserts (configured c) |}.
Proof.
  intros Hf. unfold configured, Unit_conditions. rewrite Hf. cbn [Z.eqb negb init_flag UeCondition_new].
  rewrite !(add_condition_eq "ConditionFileNotEmpty" _ FileNotEmpty) by done.
  rewrite !(add_condition_eq "ConditionNeedsUpdate" _ NeedsUpdate) by done.
  rewrite !(add_condition_eq "ConditionPathExists" _ PathExists) by done.
  rewrite !(add_condition_eq "ConditionUser" _ User) by done.
  rewrite !(add_condition_eq "ConditionFirstBOOT" _ FirstBoot) by done.
  rewrite !(add_assert_eq "AssertPathExists" _ PathExists) by done. cbn.
  rewrite Hf. f_equal. by rewrite !app_assoc.
Qed.

Lemma update_conditions_ok u s : conditions_ok (us_unit s u) →
  let x' := us_unit (update_conditions u s) u in
  conditions_ok x' ∧ u_config x' = u_config (us_unit s u)
  ∧ conditions_test (u_conditions x') = conditions_test (configured (u_config x'))
  ∧ asserts_test (u_conditions x') = asserts_test (configured (u_config x')).
Proof.
  intros [Hf Hc Ha]. unfold update_conditions; simpl. rewrite decide_True by done. simpl.
  rewrite Unit_conditions_app by done. simpl.
  split_and!; [split; simpl; set_solver | done | |]; apply condition_vec_test_ext; simpl; set_solver.
Qed.

Lemma update_conditions_other u s : us_sub (update_conditions u s) = us_sub s
  ∧ us_states (update_conditions u s) = us_states s ∧ us_limits (update_conditions u s) = us_limits s
  ∧ u_config (us_unit (update_conditions u s) u) = u_config (us_unit s u)
  ∧ (∀ v, v ≠ u → us_unit (update_conditions u s) v = us_unit s v).
Proof.
  unfold update_conditions; simpl. rewrite decide_True by done. split_and!; try done.
  intros v Hv. by rewrite decide_False.
Qed.

(** Whether the code lets the sub-unit's [start] run, read off the state, the
    load state and the configuration alone. *)
Definition start_verdict u s : option Error :=
  match current_active_state u s with
  | UnitActive | UnitReloading => Some UnitActionEAlready
  | UnitMaintenance => Some UnitActionEAgain
  | UnitActivating => if decide (load_state u s = UnitLoaded) then None else Some UnitActionEInval
  | UnitInActive | UnitFailed | UnitDeActivating =>
    if decide (load_state u s = UnitLoaded) then
      if conditions_test (configured (u_config (us_unit s u)))
         && asserts_test (configured (u_config (us_unit s u)))
      then None else Some UnitActionEInval
    else Some UnitActionEInval
  end.

(** The gate in front of a unit's start.  The verdict depends only on the
    active state, the load state and the configured conditions, however many
    copies of them earlier starts have piled up.  A refused start neither
    touches the sub-unit nor publishes anything; an admitted one is exactly one
    call of the sub-unit's start.  Either way the other units are left alone
    and the piled-up conditions stay configured ones. *)
Theorem unit_start_gate u s : conditions_ok (us_unit s u) →
  let (s', r) := Unit_start u s in
  conditions_ok (us_unit s' u)
  ∧ (∀ v, v ≠ u → us_unit s' v = us_unit s v)
  ∧ match start_verdict u s with
    | Some e => r = Err e ∧ us_sub s' = us_sub s ∧ us_states s' = us_states s
    | None => r = (sub_start u (us_sub s)).2 ∧ us_sub s' = (sub_start u (us_sub s)).1.1
              ∧ us_states s' = us_states s ++ ((u,.) <$> (sub_start u (us_sub s)).1.2)
    end.
Proof.
  intros Hok.
  destruct (update_conditions_ok u s Hok) as (Hok1 & Hc1 & Ht1 & _).
  destruct (update_conditions_ok u _ Hok1) as (Hok2 & Hc2 & _ & Ha2).
  destruct (update_conditions_other u s) as (Hs1 & Hn1 & _ & _ & Ho1).
  destruct (update_conditions_other u (update_conditions u s)) as (Hs2 & Hn2 & _ & _ & Ho2).
  rewrite Hc1 in Hc2. rewrite Hc1 in Ht1. rewrite Hc2 in Ha2.
  unfold Unit_start, start_verdict.
  rewrite Ht1, Ha2.
  set (cok := conditions_test (configured (u_config (us_unit s u)))).
  set (aok := asserts_test (configured (u_config (us_unit s u)))).
  destruct (current_active_state u s) eqn:Hst; cbn [is_active_or_reloading];
    repeat (case_decide; try congruence);
    try destruct cok; try destruct aok; cbn [negb andb call_sub us_unit us_sub us_states];
    rewrite ?Hs2, ?Hs1, ?Hn2, ?Hn1; split_and!; try done;
    intros v Hv; rewrite ?Ho2, ?Ho1 by done; done.
Qed.

(** A unit's reload.  It succeeds only on an active unit whose sub-unit can
    reload; the refusals leave the unit untouched and name the reason; an
    admitted reload is one call of the sub-unit's reload, whose "not supported"
    is turned into a success published as a change from active to active. *)
Theorem unit_reload_spec u s :
  let (s', r) := Unit_reload u s in
  let res := sub_reload u (us_sub s) in
  match sub_can_reload u (us_sub s), current_active_state u s with
  | false, _ => s' = s ∧ r = Err UnitActionEBadR
  | true, UnitReloading => s' = s ∧ r = Err UnitActionEAgain
  | true, UnitActive =>
    us_sub s' = res.1.1 ∧ us_unit s' = us_unit s
    ∧ match res.2 with
      | Ok _ => r = Ok tt ∧ us_states s' = us_states s ++ ((u,.) <$> res.1.2)
      | Err UnitActionEOpNotSupp => r = Ok tt ∧
          ∃ st, us_states s' = us_states s ++ ((u,.) <$> res.1.2) ++ [(u, st)]
                ∧ st_os st = UnitActive ∧ st_ns st = UnitActive
                ∧ flags_intersects (st_flags st) UNIT_NOTIFY_RELOAD_FAILURE = false
      | Err e => r = Err e ∧ us_states s' = us_states s ++ ((u,.) <$> res.1.2)
      end
  | true, _ => s' = s ∧ r = Err UnitActionENoExec
  end.
Proof.
  unfold Unit_reload.
  destruct (sub_can_reload u (us_sub s)) eqn:Hcan; simpl; [|done].
  destruct (current_active_state u s) eqn:Hst; repeat (case_decide; simplify_eq/=); try done.
  unfold call_sub. destruct (sub_reload u (us_sub s)) as [[w ns] r]. simpl.
  destruct r as [[]|e]; simpl; [done|].
  case_decide; subst; simpl; [|by destruct e].
  split_and!; try done. eexists. rewrite <-app_assoc. split_and!; try done.
Qed.
End unit.
