(* ===== verification/Target.v ===== *)
(** * Target units

    [coms/target]: the simplest kind of unit, [Target] over [TargetMng]
    ([unit.rs], [mng.rs]) with its persisted state ([rentry.rs]).  It is an
    implementation of the interface [SubUnits], and the one the concrete runs of
    the job engine use. *)
From S2P Require Import Prelude UnitTypes ReDb RateLimit Condition UnitEntry.

Inductive TargetState := Dead | Active | StateMax.

#[export] Instance TargetState_eq_dec : EqDecision TargetState.
Proof. solve_decision. Defined.

Definition to_unit_state (t : TargetState) : UnitActiveState :=
  match t with Dead | StateMax => UnitInActive | Active => UnitActive end.

(** The [TargetMng] of every target, and the table they share.  A new manager
    is in [StateMax]. *)
Record Targets := {
  tg_state : gmap UnitId TargetState;
  tg_rentry : ReDb UnitId TargetState;
}.
Definition Targets_new : Targets := {| tg_state := ∅; tg_rentry := ReDb_new |}.

Definition target_state (u : UnitId) (w : Targets) : TargetState :=
  default StateMax (tg_state w !! u).

(** [db_insert] / [db_update]: persist the state.  [db_map]: load it. *)
Definition target_db_insert (u : UnitId) (w : Targets) : Targets :=
  {| tg_state := tg_state w;
     tg_rentry := redb_insert u (target_state u w) (tg_rentry w) |}.
Definition target_db_map (u : UnitId) (w : Targets) : Targets :=
  match redb_get u (tg_rentry w) with
  | Some state => {| tg_state := <[u:=state]> (tg_state w); tg_rentry := tg_rentry w |}
  | None => w
  end.

Definition target_set_state (u : UnitId) (new_state : TargetState) (notify : bool) (w : Targets)
    : Targets * list UnitState :=
  let old_state := target_state u w in
  let w1 := {| tg_state := <[u:=new_state]> (tg_state w); tg_rentry := tg_rentry w |} in
  if notify then
    (target_db_insert u w1,
     [{| st_os := to_unit_state old_state; st_ns := to_unit_state new_state;
         st_flags := UNIT_NOTIFY_RELOAD_FAILURE |}])
  else (w1, []).

Definition target_start (u : UnitId) (w : Targets) : Targets * list UnitState * Result unit Error :=
  if decide (target_state u w = Active) then (w, [], Err UnitActionEAgain)
  else (target_set_state u Active true w, Ok tt).

Definition target_stop (u : UnitId) (force : bool) (w : Targets)
    : Targets * list UnitState * Result unit Error :=
  if negb force && bool_decide (target_state u w = Dead) then (w, [], Err UnitActionEAgain)
  else (target_set_state u Dead true w, Ok tt).

(** [reload] and [can_reload] are the trait's defaults. *)
#[export] Instance TargetSubUnits : SubUnits Targets := {|
  sub_current_active_state u w := to_unit_state (target_state u w);
  sub_start := target_start;
  sub_stop := target_stop;
  sub_reload u w := (w, [], Err UnitActionEOpNotSupp);
  sub_can_reload u w := false;
|}.

(** ** Properties *)

(** The persisted state is the live one. *)
Definition target_inv (w : Targets) : Prop :=
  redb_ignore (tg_rentry w) = false ∧ redb_cache (tg_rentry w) = tg_state w.

Lemma target_set_state_inv u st w : target_inv w → target_inv (target_set_state u st true w).1.
Proof.
  intros [Hi Hc]. split; simpl.
  - by rewrite redb_insert_ignore.
  - rewrite redb_insert_cache by done. unfold target_state. simpl.
    by rewrite lookup_insert, decide_True, Hc.
Qed.

(** A target across a restart.  Whatever the starts and stops of targets
    did, a restarted manager that knows nothing but the table recovers every
    target's active state. *)
Theorem target_recovers u v (start force : bool) w :
  target_inv w →
  let w' := if start then (target_start u w).1.1 else (target_stop u force w).1.1 in
  target_inv w'
  ∧ to_unit_state (target_state v (target_db_map v {| tg_state := ∅; tg_rentry := tg_rentry w' |}))
    = to_unit_state (target_state v w').
Proof.
  intros Hinv w'.
  assert (target_inv w') as Hinv'.
  { unfold w'. destruct start; [unfold target_start; case_decide | unfold target_stop; case_match];
      try done; by apply target_set_state_inv. }
  split; [done|]. destruct Hinv' as [_ Hc]. clearbody w'. unfold target_db_map, redb_get. cbn [tg_rentry]. rewrite Hc.
  unfold target_state. destruct (tg_state w' !! v) eqn:Hv; rewrite ?Hv; simpl; [|by rewrite ?lookup_empty].
  by rewrite lookup_insert, decide_True.
Qed.

Lemma target_recovers_witness :
  to_unit_state (target_state "a.target" (target_db_map "a.target"
    {| tg_state := ∅; tg_rentry := tg_rentry (target_start "a.target" Targets_new).1.1 |}))
  = UnitActive.
Proof.
  transitivity (to_unit_state (target_state "a.target" (target_start "a.target" Targets_new).1.1)).
  - apply (target_recovers "a.target" "a.target" true false Targets_new). done.
  - by vm_compute.
Defined.

#[local] Existing Instance cond_env_sample.

(** A start of a target that is down, through the unit's gate. *)
Definition sample_unit : Unit := {|
  u_config := UeConfigUnit_default; u_load_state := UnitLoaded;
  u_conditions := Condition.UeCondition_new; u_start_limit := RateLimit.StartLimit_new |}.
Definition sample_units : Units Targets := {|
  us_unit := λ _, sample_unit; us_sub := Targets_new; us_states := []; us_limits := [] |}.

Lemma unit_start_gate_witness :
  conditions_ok (us_unit sample_units "a.target")
  ∧ (Unit_start "a.target" sample_units).2 = Ok tt.
Proof.
  assert (conditions_ok (us_unit sample_units "a.target")) as Hok.
  { split; [done|intros c Hc; by inversion Hc..]. }
  split; [done|].
  pose proof (unit_start_gate "a.target" sample_units Hok) as Hg.
  destruct (Unit_start "a.target" sample_units) as [s' r].
  destruct Hg as (_ & _ & Hr & _). exact Hr.
Defined.
