(* ===== verification/JobRentry.v ===== *)
(** * The job engine's persisted data

    [core/bin/job/rentry.rs]: [JobKind], [JobAttr] and the two tables of
    [JobRe], the trigger of each unit and its suspended jobs. *)
From S2P Require Import Prelude UnitTypes ReDb.

Inductive JobKind :=
| Start | Stop | Reload | Restart       (* mut *)
| Verify | Nop                          (* non-mut *)
| TryReload | TryRestart | ReloadOrStart. (* compound *)

#[export] Instance JobKind_eq_dec : EqDecision JobKind.
Proof. solve_decision. Defined.
#[export] Program Instance JobKind_finite : Finite JobKind := {|
  enum := [Start; Stop; Reload; Restart; Verify; Nop; TryReload; TryRestart; ReloadOrStart] |}.
Next Obligation. by apply (bool_decide_unpack _). Qed.
Next Obligation. intros []; by apply (bool_decide_unpack _). Qed.

Definition job_is_basic_op (kind : JobKind) : bool :=
  match kind with
  | Start | Stop | Reload | Restart => true
  | Verify | Nop => true
  | TryReload | TryRestart | ReloadOrStart => false
  end.

Record JobAttr := {
  ignore_order : bool;
  irreversible : bool;
  force : bool;
  no_relevancy : bool;
}.
#[export] Instance JobAttr_eq_dec : EqDecision JobAttr.
Proof. solve_decision. Defined.

Definition JobAttr_new (io irr f nr : bool) : JobAttr :=
  {| ignore_order := io; irreversible := irr; force := f; no_relevancy := nr |}.
Definition JobAttr_or (a b : JobAttr) : JobAttr := {|
  ignore_order := ignore_order a || ignore_order b;
  irreversible := irreversible a || irreversible b;
  force := force a || force b;
  no_relevancy := no_relevancy a || no_relevancy b;
|}.
Definition attr_set_ignore_order (b : bool) (a : JobAttr) : JobAttr :=
  JobAttr_new b (irreversible a) (force a) (no_relevancy a).
Definition attr_set_irreversible (b : bool) (a : JobAttr) : JobAttr :=
  JobAttr_new (ignore_order a) b (force a) (no_relevancy a).

Record JobReTrigData := { jt_kind : JobKind; jt_attr : JobAttr }.
(** [JobReSuspKey] is a pair, [JobReSuspData] its attribute. *)
Abbreviation JobReSuspKey := (UnitId * JobKind)%type.

Record JobRe := {
  re_trigger : ReDb UnitId JobReTrigData;
  re_suspends : ReDb JobReSuspKey JobAttr;
}.
Definition JobRe_new : JobRe := {| re_trigger := ReDb_new; re_suspends := ReDb_new |}.

Definition re_set_trigger (t : ReDb UnitId JobReTrigData) (r : JobRe) : JobRe :=
  {| re_trigger := t; re_suspends := re_suspends r |}.
Definition re_set_suspends (t : ReDb JobReSuspKey JobAttr) (r : JobRe) : JobRe :=
  {| re_trigger := re_trigger r; re_suspends := t |}.

Module JobRe.
Definition trigger_insert (unit_id : UnitId) (kind : JobKind) (attr : JobAttr) : M JobRe unit :=
  massert (job_is_basic_op kind);;
  r ← mget;
  mmodify (re_set_trigger (redb_insert unit_id {| jt_kind := kind; jt_attr := attr |}
                             (re_trigger r))).

Definition trigger_remove (unit_id : UnitId) : M JobRe unit :=
  r ← mget; mmodify (re_set_trigger (redb_remove unit_id (re_trigger r))).

Definition trigger_get (unit_id : UnitId) (r : JobRe) : option (JobKind * JobAttr) :=
  (λ d, (jt_kind d, jt_attr d)) <$> redb_get unit_id (re_trigger r).

Definition trigger_keys `{!HashIter} (r : JobRe) : list UnitId := redb_keys (re_trigger r).

Definition trigger_entries `{!HashIter} (r : JobRe) : list (UnitId * JobKind * JobAttr) :=
  (λ e, (e.1, jt_kind e.2, jt_attr e.2)) <$> redb_entries (re_trigger r).

Definition suspends_insert (unit_id : UnitId) (kind : JobKind) (attr : JobAttr) : M JobRe unit :=
  massert (job_is_basic_op kind);;
  r ← mget;
  mmodify (re_set_suspends (redb_insert (unit_id, kind) attr (re_suspends r))).

Definition suspends_remove (unit_id : UnitId) (kind : JobKind) : M JobRe unit :=
  r ← mget; mmodify (re_set_suspends (redb_remove (unit_id, kind) (re_suspends r))).

Definition suspends_get (unit_id : UnitId) (kind : JobKind) (r : JobRe) : option JobAttr :=
  redb_get (unit_id, kind) (re_suspends r).

Definition suspends_entries `{!HashIter} (r : JobRe) : list (UnitId * JobKind * JobAttr) :=
  (λ e, (e.1.1, e.1.2, e.2)) <$> redb_entries (re_suspends r).
End JobRe.
