(* ===== verification/JobData.v ===== *)
(** * The data of the job engine

    The records of [core/bin/job]: [Job] and [JobInfo] ([entry.rs]), [JobUnitData]
    ([junit.rs]), [JobUnitTable] and [JobTable] ([table.rs]), [JobAllocData]
    ([alloc.rs]).  Jobs and job-units are shared ([Rc]) and mutated in place, so
    they live in a heap and are named by handles: an [Rc<Job>] is the job's id
    (jobs are compared by id, and the allocator never hands one out twice), an
    [Rc<JobUnit>] is an address.  [set_f v r] is the record [r] with field [f]
    set to [v]. *)
From S2P Require Import Prelude UnitTypes ReDb JobRentry.

Inductive JobResult :=
| Done | Cancelled | TimeOut | Failed | Dependency | Skipped | Invalid | Assert
| UnSupported | Collected | Once | Merged.
#[export] Instance JobResult_eq_dec : EqDecision JobResult.
Proof. solve_decision. Defined.

Inductive JobStage := Init | Wait | Running | EndWith (result : JobResult).
#[export] Instance JobStage_eq_dec : EqDecision JobStage.
Proof. solve_decision. Defined.

(** [JobConf]: a unit and a kind. *)
Record JobConf := { jc_unit : UnitId; jc_kind : JobKind }.

Abbreviation JobPtr := Z.  (* Rc<Job>: its u32 id *)
Abbreviation UvPtr := N.   (* Rc<JobUnit> *)

(** [Job]; its key [id] is its handle.  [j_timer] is [JobTimer::time_usec]. *)
Record Job := {
  j_unit : UnitId;
  j_kind : JobKind;
  j_timer : Z;
  j_attr : JobAttr;
  j_run_kind : JobKind;
  j_stage : JobStage;
}.
Definition set_j_unit (v : UnitId) (j : Job) : Job :=
  Build_Job v (j_kind j) (j_timer j) (j_attr j) (j_run_kind j) (j_stage j).
Definition set_j_kind (v : JobKind) (j : Job) : Job :=
  Build_Job (j_unit j) v (j_timer j) (j_attr j) (j_run_kind j) (j_stage j).
Definition set_j_timer (v : Z) (j : Job) : Job :=
  Build_Job (j_unit j) (j_kind j) v (j_attr j) (j_run_kind j) (j_stage j).
Definition set_j_attr (v : JobAttr) (j : Job) : Job :=
  Build_Job (j_unit j) (j_kind j) (j_timer j) v (j_run_kind j) (j_stage j).
Definition set_j_run_kind (v : JobKind) (j : Job) : Job :=
  Build_Job (j_unit j) (j_kind j) (j_timer j) (j_attr j) v (j_stage j).
Definition set_j_stage (v : JobStage) (j : Job) : Job :=
  Build_Job (j_unit j) (j_kind j) (j_timer j) (j_attr j) (j_run_kind j) v.

Record JobInfo := {
  ji_id : JobPtr;
  ji_unit : UnitId;
  ji_kind : JobKind;
  ji_attr : JobAttr;
  ji_run_kind : JobKind;
  ji_stage : JobStage;
}.
(** [JobInfo::map] *)
Definition JobInfo_map (id : JobPtr) (j : Job) : JobInfo := {|
  ji_id := id; ji_unit := j_unit j; ji_kind := j_kind j; ji_attr := j_attr j;
  ji_run_kind := j_run_kind j; ji_stage := j_stage j |}.

Record JobUnitData := {
  ju_unit : UnitId;
  suspends : gmap JobKind JobPtr;
  trigger : option JobPtr;
  order : bool;
  sq : list JobPtr;
  interrupt : bool;
  retrigger : bool;
  dirty : bool;
  pause : bool;
  ready : bool;
  up_ready : bool;
}.
Definition set_ju_unit (v : UnitId) (d : JobUnitData) : JobUnitData :=
  Build_JobUnitData v (suspends d) (trigger d) (order d) (sq d) (interrupt d) (retrigger d)
    (dirty d) (pause d) (ready d) (up_ready d).
Definition set_suspends (v : gmap JobKind JobPtr) (d : JobUnitData) : JobUnitData :=
  Build_JobUnitData (ju_unit d) v (trigger d) (order d) (sq d) (interrupt d) (retrigger d)
    (dirty d) (pause d) (ready d) (up_ready d).
Definition set_trigger (v : option JobPtr) (d : JobUnitData) : JobUnitData :=
  Build_JobUnitData (ju_unit d) (suspends d) v (order d) (sq d) (interrupt d) (retrigger d)
    (dirty d) (pause d) (ready d) (up_ready d).
Definition set_order (v : bool) (d : JobUnitData) : JobUnitData :=
  Build_JobUnitData (ju_unit d) (suspends d) (trigger d) v (sq d) (interrupt d) (retrigger d)
    (dirty d) (pause d) (ready d) (up_ready d).
Definition set_sq (v : list JobPtr) (d : JobUnitData) : JobUnitData :=
  Build_JobUnitData (ju_unit d) (suspends d) (trigger d) (order d) v (interrupt d) (retrigger d)
    (dirty d) (pause d) (ready d) (up_ready d).
Definition set_interrupt (v : bool) (d : JobUnitData) : JobUnitData :=
  Build_JobUnitData (ju_unit d) (suspends d) (trigger d) (order d) (sq d) v (retrigger d) (dirty
    d) (pause d) (ready d) (up_ready d).
Definition set_retrigger (v : bool) (d : JobUnitData) : JobUnitData :=
  Build_JobUnitData (ju_unit d) (suspends d) (trigger d) (order d) (sq d) (interrupt d) v (dirty
    d) (pause d) (ready d) (up_ready d).
Definition set_dirty (v : bool) (d : JobUnitData) : JobUnitData :=
  Build_JobUnitData (ju_unit d) (suspends d) (trigger d) (order d) (sq d) (interrupt d)
    (retrigger d) v (pause d) (ready d) (up_ready d).
Definition set_pause (v : bool) (d : JobUnitData) : JobUnitData :=
  Build_JobUnitData (ju_unit d) (suspends d) (trigger d) (order d) (sq d) (interrupt d)
    (retrigger d) (dirty d) v (ready d) (up_ready d).
Definition set_ready (v : bool) (d : JobUnitData) : JobUnitData :=
  Build_JobUnitData (ju_unit d) (suspends d) (trigger d) (order d) (sq d) (interrupt d)
    (retrigger d) (dirty d) (pause d) v (up_ready d).
Definition set_up_ready (v : bool) (d : JobUnitData) : JobUnitData :=
  Build_JobUnitData (ju_unit d) (suspends d) (trigger d) (order d) (sq d) (interrupt d)
    (retrigger d) (dirty d) (pause d) (ready d) v.

Definition JobUnitData_new (unit : UnitId) : JobUnitData := {|
  ju_unit := unit; suspends := ∅; trigger := None; order := true; sq := [];
  interrupt := false; retrigger := false; dirty := false; pause := false;
  ready := false; up_ready := false |}.

Record JobUnitTable := {
  t_data : gmap UnitId UvPtr;
  t_ready : gmap UnitId UvPtr;
  readys : list UvPtr;
  ut_up_ready : bool;
  sync : bool;
}.
Definition set_t_data (v : gmap UnitId UvPtr) (t : JobUnitTable) : JobUnitTable :=
  Build_JobUnitTable v (t_ready t) (readys t) (ut_up_ready t) (sync t).
Definition set_t_ready (v : gmap UnitId UvPtr) (t : JobUnitTable) : JobUnitTable :=
  Build_JobUnitTable (t_data t) v (readys t) (ut_up_ready t) (sync t).
Definition set_readys (v : list UvPtr) (t : JobUnitTable) : JobUnitTable :=
  Build_JobUnitTable (t_data t) (t_ready t) v (ut_up_ready t) (sync t).
Definition set_ut_up_ready (v : bool) (t : JobUnitTable) : JobUnitTable :=
  Build_JobUnitTable (t_data t) (t_ready t) (readys t) v (sync t).
Definition set_sync (v : bool) (t : JobUnitTable) : JobUnitTable :=
  Build_JobUnitTable (t_data t) (t_ready t) (readys t) (ut_up_ready t) v.

Definition JobUnitTable_new : JobUnitTable := {|
  t_data := ∅; t_ready := ∅; readys := []; ut_up_ready := false; sync := true |}.

Record JobTable := { t_id : gmap JobPtr JobPtr; t_unit : JobUnitTable }.
Definition set_t_id (v : gmap JobPtr JobPtr) (t : JobTable) : JobTable :=
  {| t_id := v; t_unit := t_unit t |}.
Definition set_t_unit (v : JobUnitTable) (t : JobTable) : JobTable :=
  {| t_id := t_id t; t_unit := v |}.
Definition JobTable_new : JobTable := {| t_id := ∅; t_unit := JobUnitTable_new |}.

Record JobAllocData := { ids : gset Z; last_id : Z }.
Definition JobAllocData_new : JobAllocData := {| ids := ∅; last_id := 0%Z |}.
