(* ===== verification/JobStat.v ===== *)
(** * Job statistics

    [core/bin/job/stat.rs]: [JobStatData], the snapshot of the live jobs by kind
    and the history counters.  Counters are [usize] (64 bit); a change is the
    lists of added, deleted and updated jobs, read at the time of the call. *)
From S2P Require Import Prelude UnitTypes ReDb JobRentry JobData.

Local Open Scope Z_scope.

(** [value_try_add], [value_try_sub]: the new value and the overflow flag; the
    value is kept on overflow. *)
Definition value_try_add (value add : Z) : Z * bool :=
  if u64_max <? value + add then (value, true) else (value + add, false).
Definition value_try_sub (value sub : Z) : Z * bool :=
  if value - sub <? 0 then (value, true) else (value - sub, false).

Record JobKindNum := {
  kn_start : Z;
  kn_stop : Z;
  kn_reload : Z;
  kn_restart : Z;
  kn_verify : Z;
  kn_nop : Z;
}.
Definition JobKindNum_new : JobKindNum := Build_JobKindNum 0 0 0 0 0 0.

(** The field a kind is counted in; a compound kind has none. *)
Definition kn_get (k : JobKind) (n : JobKindNum) : option Z :=
  match k with
  | Start => Some (kn_start n)
  | Stop => Some (kn_stop n)
  | Reload => Some (kn_reload n)
  | Restart => Some (kn_restart n)
  | Verify => Some (kn_verify n)
  | Nop => Some (kn_nop n)
  | TryReload | TryRestart | ReloadOrStart => None
  end.
Definition kn_set (k : JobKind) (v : Z) (n : JobKindNum) : JobKindNum :=
  match k with
    | Start => Build_JobKindNum v (kn_stop n) (kn_reload n) (kn_restart n) (kn_verify n) (kn_nop
      n)
    | Stop => Build_JobKindNum (kn_start n) v (kn_reload n) (kn_restart n) (kn_verify n) (kn_nop
      n)
    | Reload => Build_JobKindNum (kn_start n) (kn_stop n) v (kn_restart n) (kn_verify n) (kn_nop
      n)
    | Restart => Build_JobKindNum (kn_start n) (kn_stop n) (kn_reload n) v (kn_verify n) (kn_nop
      n)
    | Verify => Build_JobKindNum (kn_start n) (kn_stop n) (kn_reload n) (kn_restart n) v (kn_nop
      n)
    | Nop => Build_JobKindNum (kn_start n) (kn_stop n) (kn_reload n) (kn_restart n) (kn_verify
      n) v
  | TryReload | TryRestart | ReloadOrStart => n
  end.

(** [let overflow = match job.kind() { .. }; assert!(!overflow);] *)
Definition kn_apply (f : Z → Z → Z * bool) (k : JobKind) : M JobKindNum unit :=
  n ← mget;
  v ← munwrap (kn_get k n);
  massert (negb (f v 1).2);;
  mmodify (kn_set k (f v 1).1).

Definition JobKindNum_update (adds dels : list Job) : M JobKindNum unit :=
  mforeach (λ job, kn_apply value_try_sub (j_kind job)) dels;;
  mforeach (λ job, kn_apply value_try_add (j_kind job)) adds.

Definition JobKindNum_total (n : JobKindNum) : Z :=
  kn_start n + kn_stop n + kn_reload n + kn_restart n + kn_verify n + kn_nop n.

(** [JobStageNum] is never updated. *)
Record JobStageNum := { sn_wait : Z; sn_running : Z }.
Definition JobStageNum_new : JobStageNum := Build_JobStageNum 0 0.

Record JobNum := { num_kind : JobKindNum; num_stage : JobStageNum }.
Definition JobNum_new : JobNum := {| num_kind := JobKindNum_new; num_stage := JobStageNum_new |}.

Record JobResultCnt := {
  rc_done : Z;
  rc_cancelled : Z;
  rc_timeout : Z;
  rc_failed : Z;
  rc_dependency : Z;
  rc_skipped : Z;
  rc_invalid : Z;
  rc_assert : Z;
  rc_unsupported : Z;
  rc_collected : Z;
  rc_once : Z;
  rc_merged : Z;
}.
Definition JobResultCnt_new : JobResultCnt := Build_JobResultCnt 0 0 0 0 0 0 0 0 0 0 0 0.

Definition rc_get (r : JobResult) (n : JobResultCnt) : Z :=
  match r with
  | Done => rc_done n
  | Cancelled => rc_cancelled n
  | TimeOut => rc_timeout n
  | Failed => rc_failed n
  | Dependency => rc_dependency n
  | Skipped => rc_skipped n
  | Invalid => rc_invalid n
  | Assert => rc_assert n
  | UnSupported => rc_unsupported n
  | Collected => rc_collected n
  | Once => rc_once n
  | Merged => rc_merged n
  end.
Definition rc_set (r : JobResult) (v : Z) (n : JobResultCnt) : JobResultCnt :=
  match r with
    | Done => Build_JobResultCnt v (rc_cancelled n) (rc_timeout n) (rc_failed n) (rc_dependency
      n) (rc_skipped n) (rc_invalid n) (rc_assert n) (rc_unsupported n) (rc_collected n)
      (rc_once n) (rc_merged n)
    | Cancelled => Build_JobResultCnt (rc_done n) v (rc_timeout n) (rc_failed n) (rc_dependency
      n) (rc_skipped n) (rc_invalid n) (rc_assert n) (rc_unsupported n) (rc_collected n)
      (rc_once n) (rc_merged n)
    | TimeOut => Build_JobResultCnt (rc_done n) (rc_cancelled n) v (rc_failed n) (rc_dependency
      n) (rc_skipped n) (rc_invalid n) (rc_assert n) (rc_unsupported n) (rc_collected n)
      (rc_once n) (rc_merged n)
    | Failed => Build_JobResultCnt (rc_done n) (rc_cancelled n) (rc_timeout n) v (rc_dependency
      n) (rc_skipped n) (rc_invalid n) (rc_assert n) (rc_unsupported n) (rc_collected n)
      (rc_once n) (rc_merged n)
    | Dependency => Build_JobResultCnt (rc_done n) (rc_cancelled n) (rc_timeout n) (rc_failed n)
      v (rc_skipped n) (rc_invalid n) (rc_assert n) (rc_unsupported n) (rc_collected n) (rc_once
      n) (rc_merged n)
    | Skipped => Build_JobResultCnt (rc_done n) (rc_cancelled n) (rc_timeout n) (rc_failed n)
      (rc_dependency n) v (rc_invalid n) (rc_assert n) (rc_unsupported n) (rc_collected n)
      (rc_once n) (rc_merged n)
    | Invalid => Build_JobResultCnt (rc_done n) (rc_cancelled n) (rc_timeout n) (rc_failed n)
      (rc_dependency n) (rc_skipped n) v (rc_assert n) (rc_unsupported n) (rc_collected n)
      (rc_once n) (rc_merged n)
    | Assert => Build_JobResultCnt (rc_done n) (rc_cancelled n) (rc_timeout n) (rc_failed n)
      (rc_dependency n) (rc_skipped n) (rc_invalid n) v (rc_unsupported n) (rc_collected n)
      (rc_once n) (rc_merged n)
    | UnSupported => Build_JobResultCnt (rc_done n) (rc_cancelled n) (rc_timeout n) (rc_failed
      n) (rc_dependency n) (rc_skipped n) (rc_invalid n) (rc_assert n) v (rc_collected n)
      (rc_once n) (rc_merged n)
    | Collected => Build_JobResultCnt (rc_done n) (rc_cancelled n) (rc_timeout n) (rc_failed n)
      (rc_dependency n) (rc_skipped n) (rc_invalid n) (rc_assert n) (rc_unsupported n) v
      (rc_once n) (rc_merged n)
    | Once => Build_JobResultCnt (rc_done n) (rc_cancelled n) (rc_timeout n) (rc_failed n)
      (rc_dependency n) (rc_skipped n) (rc_invalid n) (rc_assert n) (rc_unsupported n)
      (rc_collected n) v (rc_merged n)
    | Merged => Build_JobResultCnt (rc_done n) (rc_cancelled n) (rc_timeout n) (rc_failed n)
      (rc_dependency n) (rc_skipped n) (rc_invalid n) (rc_assert n) (rc_unsupported n)
      (rc_collected n) (rc_once n) v
  end.

(** One turn of the loop: the counters and the accumulated overflow. *)
Definition rc_step (acc : JobResultCnt * bool) (job : Job) : JobResultCnt * bool :=
  match j_stage job with
  | EndWith result =>
    let vo := value_try_add (rc_get result acc.1) 1 in
    (rc_set result vo.1 acc.1, acc.2 || vo.2)
  | _ => acc
  end.
Definition JobResultCnt_update (dels : list Job) (n : JobResultCnt) : JobResultCnt * bool :=
  foldl rc_step (n, false) dels.

Record JobOpCnt := { oc_add : Z; oc_update : Z; oc_del : Z }.
Definition JobOpCnt_new : JobOpCnt := Build_JobOpCnt 0 0 0.

Definition JobOpCnt_update (adds dels updates : list Job) (n : JobOpCnt) : JobOpCnt * bool :=
  let va := value_try_add (oc_add n) (Z.of_nat (length adds)) in
  let vd := value_try_add (oc_del n) (Z.of_nat (length dels)) in
  let vu := value_try_add (oc_update n) (Z.of_nat (length updates)) in
  ({| oc_add := va.1; oc_update := vu.1; oc_del := vd.1 |}, va.2 || vd.2 || vu.2).

Record JobCnt := { cnt_result : JobResultCnt; cnt_op : JobOpCnt }.
Definition JobCnt_new : JobCnt := {| cnt_result := JobResultCnt_new; cnt_op := JobOpCnt_new |}.
Definition JobCnt_update (adds dels updates : list Job) (c : JobCnt) : JobCnt * bool :=
  let r := JobResultCnt_update dels (cnt_result c) in
  let o := JobOpCnt_update adds dels updates (cnt_op c) in
  ({| cnt_result := r.1; cnt_op := o.1 |}, r.2 || o.2).

Record JobStatData := { stat_num : JobNum; stat_cnt : JobCnt }.
Definition JobStatData_new : JobStatData := {| stat_num := JobNum_new; stat_cnt := JobCnt_new |}.

Module JobStatData.
Definition clear : M JobStatData unit := mmodify (λ _, JobStatData_new).

Definition update_changes (adds dels updates : list Job) : M JobStatData unit :=
  mzoom (λ s, num_kind (stat_num s))
        (λ k s, {| stat_num := {| num_kind := k; num_stage := num_stage (stat_num s) |};
                   stat_cnt := stat_cnt s |})
        (JobKindNum_update adds dels);;
  mmodify (λ s, {| stat_num := stat_num s;
                   stat_cnt := (JobCnt_update adds dels updates (stat_cnt s)).1 |}).

Definition clear_cnt : M JobStatData unit :=
  mmodify (λ s, {| stat_num := stat_num s; stat_cnt := JobCnt_new |}).
End JobStatData.

(** ** Properties *)

(** How many of the jobs are of kind [k]. *)
Definition kind_count (k : JobKind) (js : list Job) : Z :=
  Z.of_nat (length (filter (λ j, j_kind j = k) js)).
(** The snapshot is the census of [js]. *)
Definition kn_counts (n : JobKindNum) (js : list Job) : Prop :=
  ∀ k, job_is_basic_op k = true → kn_get k n = Some (kind_count k js).
Definition all_basic (js : list Job) : Prop :=
  Forall (λ j, job_is_basic_op (j_kind j) = true) js.

Lemma kind_count_cons k j js :
  kind_count k (j :: js) = (if decide (j_kind j = k) then 1 else 0) + kind_count k js.
Proof. unfold kind_count. rewrite filter_cons. case_decide; simpl; lia. Qed.
Lemma kind_count_app k js1 js2 : kind_count k (js1 ++ js2) = kind_count k js1 + kind_count k js2.
Proof. unfold kind_count. rewrite filter_app, length_app. lia. Qed.
Lemma kind_count_bound k js : 0 <= kind_count k js <= Z.of_nat (length js).
Proof. unfold kind_count. pose proof (length_filter (λ j, j_kind j = k) js). lia. Qed.
Lemma kn_counts_perm n js1 js2 : js1 ≡ₚ js2 → kn_counts n js1 → kn_counts n js2.
Proof. intros Hp Hc k Hk. rewrite (Hc k Hk). unfold kind_count. by rewrite Hp. Qed.

Lemma kn_get_set k k' v n : job_is_basic_op k = true → job_is_basic_op k' = true →
  kn_get k (kn_set k' v n) = if decide (k = k') then Some v else kn_get k n.
Proof. by destruct k, k'. Qed.

(** One counted job more or less. *)
Lemma wp_kn_apply f k n (Q : JobKindNum → unit → Prop) v v' : 
  kn_get k n = Some v → f v 1 = (v', false) → Q (kn_set k v' n) tt → wp (kn_apply f k) n Q.
Proof.
  intros Hv Hf HQ. unfold kn_apply. rewrite wp_bind, wp_mget, wp_bind, wp_munwrap.
  exists v. split; [done|]. rewrite Hf, wp_bind, wp_massert. split; [done|]. by rewrite wp_mmodify.
Qed.

Lemma wp_kn_dels dels rest n : all_basic dels →
  kn_counts n (dels ++ rest) →
  wp (mforeach (λ job, kn_apply value_try_sub (j_kind job)) dels) n (λ n' _, kn_counts n' rest).
Proof.
  intros Hb. revert n. induction Hb as [|j dels Hj Hb IH]; intros n Hc; simpl; [done|].
  rewrite wp_bind. pose proof (Hc _ Hj) as Hv. simpl in Hv.
  rewrite kind_count_cons, decide_True in Hv by done.
  pose proof (kind_count_bound (j_kind j) (dels ++ rest)).
  eapply wp_kn_apply; [exact Hv| |].
  { unfold value_try_sub. rewrite (proj2 (Z.ltb_ge _ _)) by lia. done. }
  apply IH. intros k Hk. rewrite kn_get_set by done. case_decide as Heq.
  - subst k. f_equal; lia.
  - rewrite (Hc k Hk). simpl. rewrite kind_count_cons, decide_False by congruence. done.
Qed.

Lemma wp_kn_adds adds rest n : all_basic adds →
  kn_counts n rest → Z.of_nat (length (rest ++ adds)) <= u64_max →
  wp (mforeach (λ job, kn_apply value_try_add (j_kind job)) adds) n
    (λ n' _, kn_counts n' (rest ++ adds)).
Proof.
  intros Hb. revert n rest. induction Hb as [|j adds Hj Hb IH]; intros n rest Hc Hlen; simpl.
  { by rewrite app_nil_r. }
  rewrite wp_bind. pose proof (Hc _ Hj) as Hv.
  pose proof (kind_count_bound (j_kind j) rest). rewrite length_app in Hlen. simpl in Hlen.
  eapply wp_kn_apply; [exact Hv| |].
  { unfold value_try_add. rewrite (proj2 (Z.ltb_ge _ _)) by lia. done. }
  replace (rest ++ j :: adds) with ((rest ++ [j]) ++ adds) by (by rewrite <-app_assoc).
  apply IH; [|rewrite !length_app; simpl; lia].
  intros k Hk. rewrite kn_get_set, kind_count_app, kind_count_cons by done.
  change (kind_count k []) with 0. case_decide as Heq.
  - subst k. rewrite decide_True by done. f_equal; lia.
  - rewrite decide_False by congruence. rewrite (Hc k Hk). f_equal; lia.
Qed.

(** The snapshot of the live jobs is exact.  If it counts the live jobs and
    the deleted ones are among them, the update does not panic (the counters
    cannot underflow, nor overflow below [2^64] jobs) and counts the jobs that
    are then live, whatever happened to the history counters. *)
Theorem job_num_tracks s live dels rest adds updates :
  kn_counts (num_kind (stat_num s)) live → live ≡ₚ dels ++ rest →
  all_basic live → all_basic adds → Z.of_nat (length (rest ++ adds)) <= u64_max →
  wp (JobStatData.update_changes adds dels updates) s (λ s' _,
    kn_counts (num_kind (stat_num s')) (rest ++ adds)
    ∧ JobKindNum_total (num_kind (stat_num s')) = Z.of_nat (length (rest ++ adds))).
Proof.
  intros Hc Hp Hlb Hab Hlen. unfold JobStatData.update_changes, JobKindNum_update.
  apply (kn_counts_perm _ _ _ Hp) in Hc. unfold all_basic in Hlb. rewrite Hp, Forall_app in Hlb.
  destruct Hlb as [Hdb Hrb].
  rewrite wp_bind, wp_mzoom, wp_bind. eapply wp_mono; [by apply wp_kn_dels|].
  intros n1 [] Hc1. eapply wp_mono; [by apply (wp_kn_adds _ rest)|].
  intros n2 [] Hc2. rewrite wp_mmodify. simpl. split; [done|].
  assert (∀ k v, job_is_basic_op k = true → kn_get k n2 = Some v → v = kind_count k (rest ++ adds))
    as Hget.
  { intros k v Hk Hv. rewrite (Hc2 k Hk) in Hv. congruence. }
  unfold JobKindNum_total.
  rewrite (Hget Start _ eq_refl eq_refl), (Hget Stop _ eq_refl eq_refl),
    (Hget Reload _ eq_refl eq_refl), (Hget Restart _ eq_refl eq_refl),
    (Hget Verify _ eq_refl eq_refl), (Hget Nop _ eq_refl eq_refl).
  assert (all_basic (rest ++ adds)) as Hall by by apply Forall_app.
  clear -Hall. induction Hall as [|j js Hj Hall IH]; [done|].
  rewrite !kind_count_cons. simpl length.
  destruct (j_kind j); try done; simpl; lia.
Qed.

(** Deletions are counted before additions. *)
Lemma kn_dels_panics dels n live k : kn_counts n live → all_basic dels →
  job_is_basic_op k = true → kind_count k live < kind_count k dels →
  panics (mforeach (λ job, kn_apply value_try_sub (j_kind job)) dels) n.
Proof.
  intros Hc Hb Hk. revert n live Hc. induction Hb as [|j dels Hj Hb IH]; intros n live Hc Hlt.
  { pose proof (kind_count_bound k live). change (kind_count k []) with 0 in Hlt. lia. }
  simpl. pose proof (Hc _ Hj) as Hv. pose proof (kind_count_bound (j_kind j) live) as [H0 _].
  destruct (decide (kind_count (j_kind j) live = 0)) as [Hz|Hz].
  - apply panics_bind_l. unfold kn_apply. apply panics_bind. rewrite wp_mget.
    apply panics_bind. rewrite wp_munwrap. eexists. split; [exact Hv|].
    apply panics_massert. by rewrite Hz.
  - apply panics_bind. eapply wp_kn_apply; [exact Hv| |].
    { unfold value_try_sub. rewrite (proj2 (Z.ltb_ge _ _)) by lia. done. }
    (* the census without one job of this kind *)
    assert (∃ j1 rest, live ≡ₚ j1 :: rest ∧ j_kind j1 = j_kind j) as (j1 & rest & Hp & Hj1).
    { unfold kind_count in Hz. destruct (filter (λ x, j_kind x = j_kind j) live) as [|j1 l] eqn:Hf.
      { by destruct Hz. }
      assert (j1 ∈ filter (λ x, j_kind x = j_kind j) live) as Hin by (rewrite Hf; by left).
      apply list_elem_of_filter in Hin as [Hk1 Hin]. apply elem_of_Permutation in Hin as [rest Hp].
      by exists j1, rest. }
    assert (∀ k', kind_count k' live = (if decide (j_kind j = k') then 1 else 0) + kind_count k' rest)
      as Hcnt.
    { intros k'. rewrite <-Hj1, <-kind_count_cons. unfold kind_count. by rewrite Hp. }
    apply (IH _ rest).
    + intros k' Hk'. rewrite kn_get_set by done. destruct (decide (k' = j_kind j)) as [->|Hne].
      * f_equal. rewrite Hcnt, decide_True by done. lia.
      * by rewrite (Hc k' Hk'), Hcnt, decide_False by congruence.
    + rewrite Hcnt, kind_count_cons in Hlt. lia.
Qed.

(** The order of the census.  Deletions are subtracted before additions are
    counted: an update that deletes more jobs of a kind than were live panics,
    even when the jobs are among those it adds. *)
Theorem job_num_underflow s live dels adds updates k :
  kn_counts (num_kind (stat_num s)) live → all_basic dels →
  job_is_basic_op k = true → kind_count k live < kind_count k dels →
  panics (JobStatData.update_changes adds dels updates) s.
Proof.
  intros Hc Hb Hk Hlt. unfold JobStatData.update_changes. apply panics_bind_l.
  unfold JobKindNum_update, mzoom, panics.
  pose proof (kn_dels_panics dels _ live k Hc Hb Hk Hlt) as Hp.
  by rewrite (panics_bind_l _ (λ _, mforeach _ adds) _ Hp).
Qed.

Definition stat_sample_job (k : JobKind) : Job :=
  Build_Job "a.target" k 0 (JobAttr_new false false false false) k Init.

Lemma job_num_tracks_witness :
  wp (JobStatData.update_changes [stat_sample_job Stop] [stat_sample_job Start] [])
    {| stat_num := {| num_kind := Build_JobKindNum 1 0 0 0 1 0; num_stage := JobStageNum_new |};
       stat_cnt := JobCnt_new |}
    (λ s' _, JobKindNum_total (num_kind (stat_num s')) = 2).
Proof.
  eapply wp_mono.
  - apply (job_num_tracks _ [stat_sample_job Start; stat_sample_job Verify]
      [stat_sample_job Start] [stat_sample_job Verify] [stat_sample_job Stop] []).
    + intros k Hk. by destruct k.
    + done.
    + by repeat constructor.
    + by repeat constructor.
    + by vm_compute.
  - intros s' [] [_ Ht]. exact Ht.
Defined.

(** A start accepted and merged away by the same request. *)
Lemma job_num_underflow_witness :
  panics (JobStatData.update_changes [stat_sample_job Start; stat_sample_job Restart]
            [stat_sample_job Start] []) JobStatData_new.
Proof.
  apply (job_num_underflow _ [] _ _ _ Start).
  - intros k Hk. by destruct k.
  - by repeat constructor.
  - done.
  - by vm_compute.
Defined.
