(* ===== verification/JobStore.v ===== *)
(** * The store of the job engine

    Everything the methods of [JobManagerData] ([core/bin/job/manager.rs]) reach:
    its own fields, the heap of jobs and job-units, and the units. *)
From S2P Require Import Prelude UnitTypes ReDb UnitDb UnitEntry JobRentry JobData JobStat.

Record Store {W : Type} := {
  st_heap : gmap JobPtr Job;  (* every Rc<Job> *)
  st_uvs : gmap UvPtr JobUnitData;  (* every Rc<JobUnit> *)
  st_next_uv : UvPtr;  (* the next fresh address *)
  st_re : JobRe;  (* rentry: Rc<JobRe> *)
  st_units : Units W;  (* the units, and what they publish *)
  st_timers : list JobPtr;  (* the JobTimers added to the event loop *)
  st_last_unit : option UnitId;  (* reli's last unit *)
  st_ja : JobAllocData;  (* ja: JobAlloc *)
  st_jobs : JobTable;  (* jobs: JobTable *)
  st_stage : JobTable;  (* stage: JobTable *)
  st_enabled : bool;  (* the event source is armed *)
  st_running : bool;
  st_text : option (UnitId * UnitState);
  st_stat : JobStatData;  (* stat: JobStat *)
}.
Arguments Store W : clear implicits.

Section setters.
Context {W : Type}.
Definition set_st_heap (v : gmap JobPtr Job) (s : Store W) : Store W :=
  Build_Store _ v (st_uvs s) (st_next_uv s) (st_re s) (st_units s) (st_timers s) (st_last_unit s)
    (st_ja s) (st_jobs s) (st_stage s) (st_enabled s) (st_running s) (st_text s) (st_stat s).
Definition set_st_uvs (v : gmap UvPtr JobUnitData) (s : Store W) : Store W :=
  Build_Store _ (st_heap s) v (st_next_uv s) (st_re s) (st_units s) (st_timers s) (st_last_unit s)
    (st_ja s) (st_jobs s) (st_stage s) (st_enabled s) (st_running s) (st_text s) (st_stat s).
Definition set_st_next_uv (v : UvPtr) (s : Store W) : Store W :=
  Build_Store _ (st_heap s) (st_uvs s) v (st_re s) (st_units s) (st_timers s) (st_last_unit s)
    (st_ja s) (st_jobs s) (st_stage s) (st_enabled s) (st_running s) (st_text s) (st_stat s).
Definition set_st_re (v : JobRe) (s : Store W) : Store W :=
  Build_Store _ (st_heap s) (st_uvs s) (st_next_uv s) v (st_units s) (st_timers s) (st_last_unit
    s) (st_ja s) (st_jobs s) (st_stage s) (st_enabled s) (st_running s) (st_text s) (st_stat s).
Definition set_st_units (v : Units W) (s : Store W) : Store W :=
  Build_Store _ (st_heap s) (st_uvs s) (st_next_uv s) (st_re s) v (st_timers s) (st_last_unit s)
    (st_ja s) (st_jobs s) (st_stage s) (st_enabled s) (st_running s) (st_text s) (st_stat s).
Definition set_st_timers (v : list JobPtr) (s : Store W) : Store W :=
  Build_Store _ (st_heap s) (st_uvs s) (st_next_uv s) (st_re s) (st_units s) v (st_last_unit s)
    (st_ja s) (st_jobs s) (st_stage s) (st_enabled s) (st_running s) (st_text s) (st_stat s).
Definition set_st_last_unit (v : option UnitId) (s : Store W) : Store W :=
  Build_Store _ (st_heap s) (st_uvs s) (st_next_uv s) (st_re s) (st_units s) (st_timers s) v
    (st_ja s) (st_jobs s) (st_stage s) (st_enabled s) (st_running s) (st_text s) (st_stat s).
Definition set_st_ja (v : JobAllocData) (s : Store W) : Store W :=
  Build_Store _ (st_heap s) (st_uvs s) (st_next_uv s) (st_re s) (st_units s) (st_timers s)
    (st_last_unit s) v (st_jobs s) (st_stage s) (st_enabled s) (st_running s) (st_text s)
    (st_stat s).
Definition set_st_jobs (v : JobTable) (s : Store W) : Store W :=
  Build_Store _ (st_heap s) (st_uvs s) (st_next_uv s) (st_re s) (st_units s) (st_timers s)
    (st_last_unit s) (st_ja s) v (st_stage s) (st_enabled s) (st_running s) (st_text s) (st_stat
    s).
Definition set_st_stage (v : JobTable) (s : Store W) : Store W :=
  Build_Store _ (st_heap s) (st_uvs s) (st_next_uv s) (st_re s) (st_units s) (st_timers s)
    (st_last_unit s) (st_ja s) (st_jobs s) v (st_enabled s) (st_running s) (st_text s) (st_stat
    s).
Definition set_st_enabled (v : bool) (s : Store W) : Store W :=
  Build_Store _ (st_heap s) (st_uvs s) (st_next_uv s) (st_re s) (st_units s) (st_timers s)
    (st_last_unit s) (st_ja s) (st_jobs s) (st_stage s) v (st_running s) (st_text s) (st_stat
    s).
Definition set_st_running (v : bool) (s : Store W) : Store W :=
  Build_Store _ (st_heap s) (st_uvs s) (st_next_uv s) (st_re s) (st_units s) (st_timers s)
    (st_last_unit s) (st_ja s) (st_jobs s) (st_stage s) (st_enabled s) v (st_text s) (st_stat
    s).
Definition set_st_text (v : option (UnitId * UnitState)) (s : Store W) : Store W :=
  Build_Store _ (st_heap s) (st_uvs s) (st_next_uv s) (st_re s) (st_units s) (st_timers s)
    (st_last_unit s) (st_ja s) (st_jobs s) (st_stage s) (st_enabled s) (st_running s) v (st_stat
    s).
Definition set_st_stat (v : JobStatData) (s : Store W) : Store W :=
  Build_Store _ (st_heap s) (st_uvs s) (st_next_uv s) (st_re s) (st_units s) (st_timers s)
    (st_last_unit s) (st_ja s) (st_jobs s) (st_stage s) (st_enabled s) (st_running s) (st_text
    s) v.

End setters.

(** A computation of the job engine. *)
Abbreviation J W := (M (Store W)).

Section store.
Context {W : Type}.
Implicit Types (s : Store W).

(** Dereferencing a job or a job-unit.  A handle that names nothing would be a
    dangling pointer, which the theorems rule out. *)
Definition job_get (id : JobPtr) : J W Job :=
  s ← mget; munwrap (st_heap s !! id).
Definition job_put (id : JobPtr) (j : Job) : J W unit :=
  mmodify (λ s, set_st_heap (<[id:=j]> (st_heap s)) s).
Definition job_modify (id : JobPtr) (f : Job → Job) : J W unit :=
  j ← job_get id; job_put id (f j).

Definition uv_get (p : UvPtr) : J W JobUnitData :=
  s ← mget; munwrap (st_uvs s !! p).
Definition uv_put (p : UvPtr) (d : JobUnitData) : J W unit :=
  mmodify (λ s, set_st_uvs (<[p:=d]> (st_uvs s)) s).
Definition uv_modify (p : UvPtr) (f : JobUnitData → JobUnitData) : J W unit :=
  d ← uv_get p; uv_put p (f d).
(** [Rc::new(JobUnit::new(unit))] *)
Definition uv_new (unit_id : UnitId) : J W UvPtr :=
  s ← mget;
  uv_put (st_next_uv s) (JobUnitData_new unit_id);;
  mmodify (set_st_next_uv (st_next_uv s + 1)%N);;
  mret (st_next_uv s).

(** The two tables of [JobManagerData]. *)
Inductive TableId := Jobs | Stage.
#[export] Instance TableId_eq_dec : EqDecision TableId.
Proof. solve_decision. Defined.

Definition get_table (self : TableId) s : JobTable :=
  match self with Jobs => st_jobs s | Stage => st_stage s end.
Definition set_table (self : TableId) (t : JobTable) s : Store W :=
  match self with Jobs => set_st_jobs t s | Stage => set_st_stage t s end.

(** [self.t_unit.borrow()], [self.t_id.borrow()] and their updates. *)
Definition ut_get (self : TableId) : J W JobUnitTable :=
  mgets (λ s, t_unit (get_table self s)).
Definition ut_modify (self : TableId) (f : JobUnitTable → JobUnitTable) : J W unit :=
  mmodify (λ s, set_table self (set_t_unit (f (t_unit (get_table self s))) (get_table self s)) s).
Definition tid_get (self : TableId) : J W (gmap JobPtr JobPtr) :=
  mgets (λ s, t_id (get_table self s)).
Definition tid_modify (self : TableId) (f : gmap JobPtr JobPtr → gmap JobPtr JobPtr)
    : J W unit :=
  mmodify (λ s, set_table self (set_t_id (f (t_id (get_table self s))) (get_table self s)) s).

(** [self.rentry.f(..)], [self.stat.f(..)] *)
Definition in_re {A} (m : M JobRe A) : J W A := mzoom st_re set_st_re m.
Definition in_stat {A} (m : M JobStatData A) : J W A := mzoom st_stat set_st_stat m.
(** [unit.f(..)] of a unit *)
Definition in_units {A} (f : Units W → Units W * A) : J W A := λ s,
  let ra := f (st_units s) in Returned (set_st_units ra.1 s, ra.2).
End store.

(** ** Reasoning steps *)
Section wp_store.
Context {W : Type}.
Implicit Types (s : Store W).

Lemma wp_job_get id s (Q : Store W → Job → Prop) :
  wp (job_get id) s Q ↔ ∃ j, st_heap s !! id = Some j ∧ Q s j.
Proof. unfold job_get. by rewrite wp_bind, wp_mget, wp_munwrap. Qed.
Lemma wp_job_put id j s (Q : Store W → unit → Prop) :
  wp (job_put id j) s Q ↔ Q (set_st_heap (<[id:=j]> (st_heap s)) s) tt.
Proof. done. Qed.
Lemma wp_job_modify id f s (Q : Store W → unit → Prop) :
  wp (job_modify id f) s Q ↔
    ∃ j, st_heap s !! id = Some j ∧ Q (set_st_heap (<[id:=f j]> (st_heap s)) s) tt.
Proof. unfold job_modify. by rewrite wp_bind, wp_job_get. Qed.

Lemma wp_uv_get p s (Q : Store W → JobUnitData → Prop) :
  wp (uv_get p) s Q ↔ ∃ d, st_uvs s !! p = Some d ∧ Q s d.
Proof. unfold uv_get. by rewrite wp_bind, wp_mget, wp_munwrap. Qed.
Lemma wp_uv_put p d s (Q : Store W → unit → Prop) :
  wp (uv_put p d) s Q ↔ Q (set_st_uvs (<[p:=d]> (st_uvs s)) s) tt.
Proof. done. Qed.
Lemma wp_uv_modify p f s (Q : Store W → unit → Prop) :
  wp (uv_modify p f) s Q ↔
    ∃ d, st_uvs s !! p = Some d ∧ Q (set_st_uvs (<[p:=f d]> (st_uvs s)) s) tt.
Proof. unfold uv_modify. by rewrite wp_bind, wp_uv_get. Qed.
Lemma wp_uv_new u s (Q : Store W → UvPtr → Prop) :
  wp (uv_new u) s Q ↔
    Q (set_st_next_uv (st_next_uv s + 1)%N
         (set_st_uvs (<[st_next_uv s:=JobUnitData_new u]> (st_uvs s)) s)) (st_next_uv s).
Proof. done. Qed.

Lemma wp_ut_get self s (Q : Store W → JobUnitTable → Prop) :
  wp (ut_get self) s Q ↔ Q s (t_unit (get_table self s)).
Proof. done. Qed.
Lemma wp_ut_modify self f s (Q : Store W → unit → Prop) :
  wp (ut_modify self f) s Q ↔
    Q (set_table self (set_t_unit (f (t_unit (get_table self s))) (get_table self s)) s) tt.
Proof. done. Qed.
Lemma wp_tid_get self s (Q : Store W → gmap JobPtr JobPtr → Prop) :
  wp (tid_get self) s Q ↔ Q s (t_id (get_table self s)).
Proof. done. Qed.
Lemma wp_tid_modify self f s (Q : Store W → unit → Prop) :
  wp (tid_modify self f) s Q ↔
    Q (set_table self (set_t_id (f (t_id (get_table self s))) (get_table self s)) s) tt.
Proof. done. Qed.
Lemma wp_in_re {A} (m : M JobRe A) s (Q : Store W → A → Prop) :
  wp (in_re m) s Q ↔ wp m (st_re s) (λ r a, Q (set_st_re r s) a).
Proof. apply wp_mzoom. Qed.
Lemma wp_in_stat {A} (m : M JobStatData A) s (Q : Store W → A → Prop) :
  wp (in_stat m) s Q ↔ wp m (st_stat s) (λ r a, Q (set_st_stat r s) a).
Proof. apply wp_mzoom. Qed.
Lemma wp_in_units {A} (f : Units W → Units W * A) s (Q : Store W → A → Prop) :
  wp (in_units f) s Q ↔ Q (set_st_units (f (st_units s)).1 s) (f (st_units s)).2.
Proof. done. Qed.
Lemma wp_mwhen b (m : J W unit) s (Q : Store W → unit → Prop) :
  wp (mwhen b m) s Q ↔ if b then wp m s Q else Q s tt.
Proof. by destruct b. Qed.
End wp_store.

(** One step of a proof about a computation of the engine: open a bind, a
    return or an access to the store. *)
Ltac j_step :=
  first
    [ rewrite wp_bind | rewrite wp_ret | rewrite wp_mget | rewrite wp_mgets | rewrite wp_mmodify
    | rewrite wp_job_get | rewrite wp_job_put | rewrite wp_job_modify
    | rewrite wp_uv_get | rewrite wp_uv_put | rewrite wp_uv_modify | rewrite wp_uv_new
    | rewrite wp_ut_get | rewrite wp_ut_modify | rewrite wp_tid_get | rewrite wp_tid_modify
    | rewrite wp_in_re | rewrite wp_in_stat | rewrite wp_in_units | rewrite wp_mwhen
    | rewrite wp_massert | rewrite wp_munwrap ]; cbn beta.
(** The store after a chain of updates: look through the setters ([simpl] only
    unfolds a setter under a projection). *)
Ltac j_simpl := simpl.
