(* ===== verification/JobEntry.v ===== *)
(** * Jobs

    [core/bin/job/entry.rs]: the life of one [Job] and the tables that say what
    a job does to its unit, what the unit's state says of the job, and in which
    order two jobs run; [core/bin/job/alloc.rs]: the allocation of jobs. *)
From S2P Require Import Prelude UnitTypes ReDb UnitDb RateLimit Condition UnitEntry JobRentry.
From S2P Require Import JobData JobStat JobStore.

(** ** Tables *)

Definition job_rkind_new (kind : JobKind) : JobKind :=
  match kind with Restart => Stop | _ => kind end.

Definition job_rkind_map (kind last_rkind : JobKind) : JobKind :=
  match kind, last_rkind with
  | Restart, Stop => Start
  | Restart, Start => Start
  | _, _ => kind
  end.

Definition job_trigger_err_to_result (err : Error) : option JobResult :=
  match err with
  | UnitActionEAgain => None
  | UnitActionEAlready => Some Done
  | UnitActionEComm => Some Done
  | UnitActionEBadR => Some Skipped
  | UnitActionENoExec => Some Invalid
  | UnitActionEProto => Some Assert
  | UnitActionEOpNotSupp => Some UnSupported
  | UnitActionENolink => Some Dependency
  | UnitActionEStale => Some Once
  | UnitActionEFailed => Some Failed
  | UnitActionEInval => Some Failed
  | UnitActionEBusy => Some Failed
  | UnitActionENoent => Some Failed
  | UnitActionECanceled => Some Failed
  | _ => Some Skipped
  end.

Definition job_process_unit_start (ns : UnitActiveState) : option JobResult * bool :=
  match ns with
  | UnitActive => (Some Done, true)
  | UnitActivating => (None, true)
  | UnitInActive => (Some Done, false)
  | UnitFailed => (Some Failed, false)
  | UnitReloading | UnitDeActivating | UnitMaintenance => (None, false)
  end.

Definition job_process_unit_stop (ns : UnitActiveState) : option JobResult * bool :=
  match ns with
  | UnitInActive | UnitFailed => (Some Done, true)
  | UnitDeActivating => (None, true)
  | UnitActive => (Some Failed, false)
  | UnitReloading | UnitActivating | UnitMaintenance => (Some Failed, false)
  end.

Definition job_process_unit_reload (ns : UnitActiveState) (flags : UnitNotifyFlags)
    : option JobResult * bool :=
  let result := if flags_intersects flags UNIT_NOTIFY_RELOAD_FAILURE then Failed else Done in
  match ns with
  | UnitActive => (Some result, true)
  | UnitReloading => (None, true)
  | UnitInActive => (Some Done, false)
  | UnitFailed => (Some Failed, false)
  | UnitActivating | UnitDeActivating | UnitMaintenance => (None, false)
  end.

(** The outer [None] is [unreachable!]. *)
Definition job_process_unit (run_kind : JobKind) (ns : UnitActiveState) (flags : UnitNotifyFlags)
    : option (option JobResult * bool) :=
  match run_kind with
  | Start => Some (job_process_unit_start ns)
  | Stop => Some (job_process_unit_stop ns)
  | Reload => Some (job_process_unit_reload ns flags)
  | _ => None
  end.

Definition job_merge_unit_state (kind : JobKind) (active_or_reloading : bool) : JobKind :=
  match kind, active_or_reloading with
  | TryReload, false => Nop
  | TryReload, true => Reload
  | TryRestart, false => Nop
  | TryRestart, true => Restart
  | ReloadOrStart, false => Start
  | ReloadOrStart, true => Reload
  | kind, _ => kind
  end.

(** The [i8] of [job_order_compare] at the atom [UnitAtomBefore]; at
    [UnitAtomAfter] the code recurses once, with the sides swapped. *)
Definition job_order_compare_before (rk_a rk_b : JobKind) : Z :=
  if bool_decide (rk_a = Nop) || bool_decide (rk_b = Nop) then 0%Z else
  match rk_b with Stop => 1%Z | _ => (-1)%Z end.
Definition job_order_compare (rk_a rk_b : JobKind) (atom : UnitRelationAtom) : Z :=
  if bool_decide (rk_a = Nop) || bool_decide (rk_b = Nop) then 0%Z else
  if decide (atom = UnitAtomAfter) then (- job_order_compare_before rk_b rk_a)%Z
  else match rk_b with Stop => 1%Z | _ => (-1)%Z end.

Section entry.
Context `{HI : !HashIter} `{HC : !CondEnv} {W : Type} `{HS : !SubUnits W}.
Implicit Types (s : Store W) (self : JobPtr).

(** [unit.active_state()] *)
Definition active_state (u : UnitId) : J W UnitActiveState :=
  mgets (λ s, current_active_state u (st_units s)).

(** [job_merge_unit], and [JobConf::map] *)
Definition job_merge_unit (kind : JobKind) (u : UnitId) : J W JobKind :=
  st ← active_state u; mret (job_merge_unit_state kind (is_active_or_reloading st)).
Definition JobConf_map (input : JobConf) : J W JobConf :=
  k ← job_merge_unit (jc_kind input) (jc_unit input);
  mret {| jc_unit := jc_unit input; jc_kind := k |}.

Definition job_trigger_unit (u : UnitId) (run_kind : JobKind) (force : bool)
    : J W (Result unit (option JobResult)) :=
  ret ← match run_kind with
        | Start => in_units (Unit_start u)
        | Stop => in_units (Unit_stop u force)
        | Reload => in_units (Unit_reload u)
        | Verify =>
          st ← active_state u;
          mret (match st with
                | UnitActive | UnitReloading => Err UnitActionEAlready
                | UnitActivating => Err UnitActionEAgain
                | _ => Err UnitActionEBadR
                end)
        | Nop => mret (Err UnitActionEAlready)
        | _ => mpanic
        end;
  mret (match ret with
        | Ok _ => Ok tt
        | Err err => Err (job_trigger_err_to_result err)
        end).

End entry.

(** ** [impl Job] *)
Module Job.
Section job.
Context `{HI : !HashIter} `{HC : !CondEnv} {W : Type} `{HS : !SubUnits W}.
Implicit Types (s : Store W) (self : JobPtr).

(** [Job::new]: the fields of a fresh job. *)
Definition new (u : UnitId) (kind : JobKind) : Job := {|
  j_unit := u; j_kind := kind; j_timer := 0%Z;
  j_attr := JobAttr_new false false false false;
  j_run_kind := job_rkind_new kind; j_stage := Init |}.

(** [set_timer]: [sec * 1000000] wraps, the release profile has no overflow
    checks. *)
Definition set_timer self : J W unit :=
  j ← job_get self;
  us ← mgets st_units;
  let sec := JobTimeoutSec (u_config (us_unit us (j_unit j))) in
  if (sec =? 0)%Z then mret tt
  else job_modify self (set_j_timer (wrap_u64 (sec * 1000000))).

Definition rentry_trigger_insert self : J W unit :=
  j ← job_get self; in_re (JobRe.trigger_insert (j_unit j) (j_kind j) (j_attr j)).
Definition rentry_trigger_remove self : J W unit :=
  j ← job_get self; in_re (JobRe.trigger_remove (j_unit j)).
Definition rentry_suspends_insert self : J W unit :=
  j ← job_get self; in_re (JobRe.suspends_insert (j_unit j) (j_kind j) (j_attr j)).
Definition rentry_suspends_remove self : J W unit :=
  j ← job_get self; in_re (JobRe.suspends_remove (j_unit j) (j_kind j)).

Definition rentry_map_trigger self : J W unit :=
  j ← job_get self;
  re ← mgets st_re;
  ka ← munwrap (JobRe.trigger_get (j_unit j) re);
  massert (bool_decide (ka.1 = j_kind j));;
  job_modify self (set_j_stage Running);;
  job_modify self (set_j_attr ka.2).

Definition rentry_map_suspend self : J W unit :=
  j ← job_get self;
  re ← mgets st_re;
  attr ← munwrap (JobRe.suspends_get (j_unit j) (j_kind j) re);
  job_modify self (set_j_stage Wait);;
  job_modify self (set_j_attr attr).

Definition init_attr self (mode : JobMode) : J W unit :=
  j ← job_get self;
  massert (bool_decide (j_stage j = Init));;
  mwhen (bool_decide (mode = ModeIgnoreDependencies) || bool_decide (j_kind j = Nop))
    (job_modify self (λ j, set_j_attr (attr_set_ignore_order true (j_attr j)) j));;
  mwhen (bool_decide (mode = ModeReplaceIrreversible))
    (job_modify self (λ j, set_j_attr (attr_set_irreversible true (j_attr j)) j)).

Definition merge_attr self (other : JobPtr) : J W unit :=
  j ← job_get self;
  massert (bool_decide (j_stage j = Wait));;
  o ← job_get other;
  massert (bool_decide (j_kind j = j_kind o));;
  job_modify self (λ j, set_j_attr (JobAttr_or (j_attr j) (j_attr o)) j);;
  rentry_suspends_insert self.

Definition wait self : J W unit :=
  j ← job_get self;
  massert (bool_decide (j_stage j = Init));;
  job_modify self (set_j_stage Wait);;
  rentry_suspends_insert self.

Definition run self : J W (Result unit (option JobResult)) :=
  j ← job_get self;
  let stage := j_stage j in
  massert (bool_decide (stage = Wait) || bool_decide (stage = Running));;
  job_modify self (set_j_stage Running);;
  mwhen (negb (j_timer j =? 0)%Z)
    (mmodify (λ s, set_st_timers (st_timers s ++ [self]) s));;
  mmodify (set_st_last_unit (Some (j_unit j)));;
  mwhen (bool_decide (stage = Wait)) (
    rentry_suspends_remove self;;
    rentry_trigger_insert self);;
  job_trigger_unit (j_unit j) (j_run_kind j) (force (j_attr j)).

Definition update_runkind self : J W bool :=
  j ← job_get self;
  let last_rkind := j_run_kind j in
  let rkind := job_rkind_map (j_kind j) last_rkind in
  job_modify self (set_j_run_kind rkind);;
  mret (bool_decide (last_rkind ≠ rkind)).

Definition finish self (result : JobResult) : J W bool :=
  j ← job_get self;
  let stage := j_stage j in
  massert (bool_decide (stage = Wait) || bool_decide (stage = Running));;
  retry ← match result with Done => update_runkind self | _ => mret false end;
  (if (retry : bool) then
     job_modify self (set_j_stage Running)
   else
     job_modify self (set_j_stage (EndWith result));;
     if decide (stage = Wait) then rentry_suspends_remove self
     else rentry_trigger_remove self);;
  mret retry.

Definition is_order_with self (other : JobPtr) (atom : UnitRelationAtom) : J W Z :=
  massert (bool_decide (atom = UnitAtomAfter) || bool_decide (atom = UnitAtomBefore));;
  j ← job_get self; o ← job_get other;
  if ignore_order (j_attr j) || ignore_order (j_attr o) then mret 0%Z
  else mret (job_order_compare (j_run_kind j) (j_run_kind o) atom).
End job.
End Job.

(** ** [impl JobAlloc] *)
Module JobAlloc.
Section alloc.
Context `{HI : !HashIter} `{HC : !CondEnv} {W : Type} `{HS : !SubUnits W}.
Implicit Types (s : Store W).

(** The loop of [alloc_id], with fuel.  One turn increments [last_id] modulo
    [2^32] and tries to insert it. *)
Fixpoint alloc_id_loop (fuel : nat) (a : JobAllocData) : option (JobAllocData * Z) :=
  match fuel with
  | O => None
  | S fuel =>
    let id := wrap_u32 (last_id a + 1) in
    if decide (id ∈ ids a) then alloc_id_loop fuel {| ids := ids a; last_id := id |}
    else Some ({| ids := {[id]} ∪ ids a; last_id := id |}, id)
  end.
(** After [size ids + 1] turns a free id has been met, if there is one. *)
Definition alloc_id : J W Z :=
  a ← mgets st_ja;
  match alloc_id_loop (S (size (ids a))) a with
  | Some (a', id) => mmodify (set_st_ja a');; mret id
  | None => mnofuel
  end.

Definition alloc (config : JobConf) : J W JobPtr :=
  id ← alloc_id;
  job_put id (Job.new (jc_unit config) (jc_kind config));;
  Job.set_timer id;;
  mret id.

Definition clear : J W unit := mmodify (set_st_ja JobAllocData_new).
End alloc.
End JobAlloc.
