(* ===== verification/JobUnit.v ===== *)
(** * The jobs of one unit

    [core/bin/job/junit.rs]: [JobUnitData], the suspended jobs of a unit (at most
    one of each kind), the queue [sq] in which they run, and the triggered job;
    [JobUnit] is a shared cell with a [JobUnitData] in it.  The methods take the
    address [self] of the cell.

    The life of a job-unit: jobs are inserted in [suspends] ([order] and the
    queue are stale from then on), [reshuffle] merges them and rebuilds the
    queue, [do_next_trigger] moves the first of the queue to [trigger] (or
    re-triggers the triggered one), and [finish_trigger] ends it.  [ready] says
    whether [do_next_trigger] can be called. *)
From S2P Require Import Prelude UnitTypes ReDb UnitDb RateLimit Condition UnitEntry JobRentry.
From S2P Require Import JobData JobStat JobStore JobEntry.

Definition JOBUNIT_SQ_MUTOP_MAX_NUM : nat := 1.
Definition JOBUNIT_SQ_MAX_NUM : nat := 3.

(** The lists of added, deleted and updated jobs. *)
Abbreviation JobChanges := (list JobPtr * list JobPtr * list JobPtr)%type.

Module JobUnitData.
Section junit.
Context `{HI : !HashIter} `{HC : !CondEnv} {W : Type} `{HS : !SubUnits W}.
Implicit Types (s : Store W) (self other : UvPtr) (d : JobUnitData).

(** ** Readiness *)
Definition calc_natural_ready_ts d : option bool :=
  match interrupt d, retrigger d with
  | true, _ => Some true
  | false, true => Some false
  | false, false => None
  end.
Definition calc_natural_ready_t d : J W (option bool) :=
  massert (negb (interrupt d));;
  mret (if retrigger d then Some false else None).
Definition calc_natural_ready_s d : J W (option bool) :=
  massert (negb (interrupt d));;
  mret (Some true).
Definition calc_natural_ready d : J W (option bool) :=
  if order d then
    match is_some (trigger d), negb (bool_decide (sq d = [])) with
    | true, true => mret (calc_natural_ready_ts d)
    | true, false => calc_natural_ready_t d
    | false, true => calc_natural_ready_s d
    | false, false => mret None
    end
  else mret None.
Definition calc_ready d : J W (option bool) :=
  if negb (pause d) then calc_natural_ready d else mret None.
Definition update_ready self : J W unit :=
  d ← uv_get self;
  r ← calc_ready d;
  uv_modify self (set_ready (is_some r)).

(** [self.dirty = true; self.update_ready();] *)
Definition make_dirty self : J W unit :=
  uv_modify self (set_dirty true);; update_ready self.

(** ** Queries *)
Definition suspends_kind_len d (kind : JobKind) : nat :=
  if is_some (suspends d !! kind) then 1 else 0.
Definition get_suspends d : list JobPtr := hm_values (suspends d).
Definition is_empty d : bool := negb (is_some (trigger d)) && bool_decide (suspends d = ∅).
Definition is_trigger d (job : JobPtr) : bool := bool_decide (trigger d = Some job).

Definition num_others d : nat :=
  size (suspends d) - suspends_kind_len d Stop - suspends_kind_len d Nop.

Definition is_suspends_conflict d : bool :=
  let num_stop := suspends_kind_len d Stop in
  (0 <? num_stop) && (0 <? num_others d).

Definition is_suspends_conflict_with d (o : JobUnitData) : bool :=
  let stop_s := suspends_kind_len d Stop in
  let stop_o := suspends_kind_len o Stop in
  (0 <? stop_s + stop_o) && (0 <? num_others d + num_others o).

Definition is_suspends_irreversible d : J W bool :=
  mexistsb (λ job, j ← job_get job; mret (irreversible (j_attr j))) (hm_values (suspends d)).

Definition is_suspends_replace_with d (o : JobUnitData) : J W bool :=
  massert (negb (is_suspends_conflict d) && negb (is_suspends_conflict o));;
  let stop_s := suspends_kind_len d Stop in
  let others_s := num_others d in
  let stop_o := suspends_kind_len o Stop in
  let others_o := num_others o in
  if (0 <? others_s) && (0 <? stop_o) then
    irr ← is_suspends_irreversible d; mret (negb irr)
  else if (0 <? stop_s) && (0 <? others_o) then
    irr ← is_suspends_irreversible d; mret (negb irr)
  else mret true.

Definition get_next_trigger_suspend d : J W JobPtr :=
  massert (negb (bool_decide (sq d = [])));; munwrap (head (sq d)).
Definition get_next_trigger_retrigger d : J W JobPtr :=
  massert (is_some (trigger d) && retrigger d);; munwrap (trigger d).
Definition get_next_trigger d : J W JobPtr :=
  r ← calc_ready d;
  match r with
  | Some true => get_next_trigger_suspend d
  | Some false => get_next_trigger_retrigger d
  | None => mpanic
  end.

Definition is_next_trigger_order_with d (o : JobUnitData) (atom : UnitRelationAtom) : J W bool :=
  massert (ready d && order o);;
  job ← get_next_trigger d;
  j ← job_get job;
  if ignore_order (j_attr j) then mret true else
  if decide (j_kind j = Nop) then mret true else
  ok ← mforallb (λ other_job, c ← Job.is_order_with job other_job atom; mret (negb (0 <? c)%Z))
                (get_suspends o);
  if negb ok then mret false else
  match trigger o with
  | Some other_job => c ← Job.is_order_with job other_job atom; mret (negb (0 <? c)%Z)
  | None => mret true
  end.

(** ** Suspended jobs *)
Definition insert_suspend self (job : JobPtr) (operate : bool) : J W (option JobPtr) :=
  j ← job_get job;
  massert (job_is_basic_op (j_kind j));;
  d ← uv_get self;
  massert (negb (is_trigger d job));;
  let old := suspends d !! j_kind j in
  uv_modify self (λ d, set_suspends (<[j_kind j:=job]> (suspends d)) d);;
  massert (bool_decide (old = None));;
  uv_modify self (set_order false);;
  make_dirty self;;
  mwhen operate (Job.wait job);;
  mret old.

Definition remove_suspend self (kind : JobKind) (result : JobResult) : J W (option JobPtr) :=
  d ← uv_get self;
  let del_job := suspends d !! kind in
  uv_modify self (λ d, set_suspends (delete kind (suspends d)) d);;
  uv_modify self (set_order false);;
  make_dirty self;;
  match del_job with
  | Some job => Job.finish job result;; mret del_job
  | None => mret del_job
  end.

Definition flush_suspends self : J W (list JobPtr) :=
  d ← uv_get self;
  let del_jobs := hm_values (suspends d) in
  uv_modify self (set_suspends ∅);;
  uv_modify self (set_order false);;
  make_dirty self;;
  mforeach (λ job, Job.finish job Cancelled;; mret tt) del_jobs;;
  mret del_jobs.

Definition merge_suspends self (other : UvPtr) : J W JobChanges :=
  d ← uv_get self;
  o ← uv_get other;
  del_jobs ← (if is_suspends_conflict_with d o then flush_suspends self else mret []);
  au ← mfold (λ (au : list JobPtr * list JobPtr) o_job,
        oj ← job_get o_job;
        d ← uv_get self;
        match suspends d !! j_kind oj with
        | Some job => Job.merge_attr job o_job;; mret (au.1, au.2 ++ [job])
        | None => insert_suspend self o_job true;; mret (au.1 ++ [o_job], au.2)
        end) ([], []) (hm_values (suspends o));
  mret (au.1, del_jobs, au.2).

(** ** Reshuffling *)
Definition jobs_suspends_remove self (kind : JobKind) (del_jobs : list JobPtr)
    : J W (list JobPtr) :=
  d ← uv_get self;
  match suspends d !! kind with
  | Some job =>
    uv_modify self (λ d, set_suspends (delete kind (suspends d)) d);;
    mret (del_jobs ++ [job])
  | None => mret del_jobs
  end.

Definition jobs_ms_start_and_reload self (del_jobs : list JobPtr) : J W (list JobPtr) :=
  del_jobs ← jobs_suspends_remove self Start del_jobs;
  jobs_suspends_remove self Reload del_jobs.

Definition jobs_ms_start_or_reload self (del_jobs : list JobPtr) : J W (list JobPtr) :=
  d ← uv_get self;
  st ← active_state (ju_unit d);
  if is_active_or_reloading st then jobs_suspends_remove self Start del_jobs
  else jobs_suspends_remove self Reload del_jobs.

Definition jobs_merge_suspend self (del_jobs : list JobPtr) : J W (list JobPtr) :=
  d ← uv_get self;
  massert (negb (order d));;
  if negb (is_some (suspends d !! Stop)) then
    match is_some (suspends d !! Restart), is_some (suspends d !! Start),
          is_some (suspends d !! Reload) with
    | true, _, _ => jobs_ms_start_and_reload self del_jobs
    | false, true, true => jobs_ms_start_or_reload self del_jobs
    | _, _, _ => mret del_jobs
    end
  else mret del_jobs.

Definition sq_order_pushback self (kind : JobKind) : J W unit :=
  d ← uv_get self;
  match suspends d !! kind with
  | Some job => uv_modify self (λ d, set_sq (sq d ++ [job]) d)
  | None => mret tt
  end.

Definition sq_order self : J W unit :=
  uv_modify self (set_sq []);;
  d ← uv_get self;
  if negb (is_some (suspends d !! Stop)) then
    sq_order_pushback self Restart;;
    sq_order_pushback self Start;;
    sq_order_pushback self Reload;;
    d ← uv_get self;
    massert (length (sq d) <=? JOBUNIT_SQ_MUTOP_MAX_NUM);;
    sq_order_pushback self Verify;;
    sq_order_pushback self Nop;;
    d ← uv_get self;
    massert (length (sq d) <=? JOBUNIT_SQ_MAX_NUM)
  else sq_order_pushback self Stop.

Definition jobs_merge_trigger_prepare self : J W unit :=
  d ← uv_get self;
  massert (order d);;
  match trigger d, head (sq d) with
  | Some _, Some front =>
    j ← job_get front;
    uv_modify self (set_interrupt (bool_decide (j_kind j = Stop) || bool_decide (j_kind j = Restart)))
  | _, _ => mret tt
  end.

Definition reshuffle self : J W (list JobPtr) :=
  d ← uv_get self;
  massert (negb (is_suspends_conflict d));;
  merge_jobs ← (if negb (order d) then
      merge_jobs ← jobs_merge_suspend self [];
      sq_order self;;
      uv_modify self (set_order true);;
      mret merge_jobs
    else mret []);
  jobs_merge_trigger_prepare self;;
  update_ready self;;
  mforeach (λ job, Job.finish job Merged;; mret tt) merge_jobs;;
  mret merge_jobs.

(** ** The triggered job *)
Definition do_pause self : J W unit :=
  d ← uv_get self;
  massert (order d);;
  uv_modify self (set_dirty true);;
  uv_modify self (set_pause true);;
  update_ready self.

Definition resume self : J W unit :=
  d ← uv_get self;
  massert (order d);;
  uv_modify self (set_dirty true);;
  uv_modify self (set_pause false);;
  update_ready self.

Definition retrigger_trigger self : J W unit :=
  d ← uv_get self;
  massert (is_some (trigger d));;
  massert (order d);;
  uv_modify self (set_retrigger true);;
  make_dirty self.

Definition insert_trigger self (job : JobPtr) : J W (option JobPtr) :=
  d ← uv_get self;
  massert (negb (is_some (trigger d)));;
  massert (bool_decide (suspends d = ∅));;
  j ← job_get job;
  massert (job_is_basic_op (j_kind j));;
  massert (order d);;
  let old := trigger d in
  uv_modify self (set_trigger (Some job));;
  retrigger_trigger self;;
  make_dirty self;;
  mret old.

Definition finish_trigger self (result : JobResult) : J W (option JobPtr) :=
  d ← uv_get self;
  massert (is_some (trigger d));;
  massert (order d);;
  t ← munwrap (trigger d);
  retry ← Job.finish t result;
  del_trigger ← (if (retry : bool) then
      retrigger_trigger self;; mret None
    else
      uv_modify self (set_interrupt false);;
      uv_modify self (set_retrigger false);;
      d ← uv_get self;
      uv_modify self (set_trigger None);;
      mret (trigger d));
  make_dirty self;;
  mret del_trigger.

Definition do_next_trigger_retrigger self : J W (JobPtr * option JobPtr) :=
  d ← uv_get self;
  massert (is_some (trigger d) && retrigger d);;
  massert (order d);;
  next_trigger ← munwrap (trigger d);
  massert (negb (interrupt d));;
  uv_modify self (set_retrigger false);;
  make_dirty self;;
  mret (next_trigger, None).

Definition do_next_trigger_suspend self : J W (JobPtr * option JobPtr) :=
  d ← uv_get self;
  massert (negb (bool_decide (sq d = [])));;
  massert (order d);;
  merge_trigger ← (if interrupt d then
      uv_modify self (set_interrupt false);;
      uv_modify self (set_retrigger false);;
      uv_modify self (set_trigger None);;
      mret (trigger d)
    else mret None);
  next_trigger ← munwrap (head (sq d));
  uv_modify self (λ d, set_sq (tail (sq d)) d);;
  uv_modify self (set_trigger (Some next_trigger));;
  j ← job_get next_trigger;
  uv_modify self (λ d, set_suspends (delete (j_kind j) (suspends d)) d);;
  make_dirty self;;
  mret (next_trigger, merge_trigger).

Definition do_next_trigger self : J W (JobPtr * option JobPtr) :=
  d ← uv_get self;
  r ← calc_ready d;
  match r with
  | Some true => do_next_trigger_suspend self
  | Some false => do_next_trigger_retrigger self
  | None => mpanic
  end.
End junit.
End JobUnitData.

Module JobUnit.
Section junit.
Context `{HI : !HashIter} `{HC : !CondEnv} {W : Type} `{HS : !SubUnits W}.

(** [JobUnit::do_trigger]: the trigger's information and, when its run says
    that it is over, the result; and the interrupted job. *)
Definition do_trigger (self : UvPtr)
    : J W (option (JobInfo * option JobResult) * option JobPtr) :=
  cm ← JobUnitData.do_next_trigger self;
  let '(cur_trigger, merge_trigger) := cm in
  cj ← job_get cur_trigger;
  let t_jinfo := JobInfo_map cur_trigger cj in
  match merge_trigger with
  | Some job =>
    j ← job_get job;
    mwhen (bool_decide (j_kind j = j_kind cj)) (Job.merge_attr cur_trigger job);;
    Job.finish job Merged;;
    mret tt
  | None => mret tt
  end;;
  ret ← Job.run cur_trigger;
  tend_result ← match ret with
    | Ok _ => mret None
    | Err None =>
      JobUnitData.do_pause self;;
      JobUnitData.retrigger_trigger self;;
      mret None
    | Err (Some tend_r) => mret (Some tend_r)
    end;
  mret (Some (t_jinfo, tend_result), merge_trigger).
End junit.
End JobUnit.

Definition job_merge_trigger_iskeep (kind : JobKind) : option bool :=
  match kind with
  | Start | Reload | Restart => Some false
  | Stop | Verify | Nop => Some true
  | _ => None (* unreachable! *)
  end.
Definition job_merge_trigger_map (old : JobKind) : option JobKind :=
  (λ keep : bool, if keep then old else Restart) <$> job_merge_trigger_iskeep old.
