(* ===== verification/JobTable.v ===== *)
(** * The tables of jobs

    [core/bin/job/table.rs]: [JobUnitTable], the job-units by unit with the queue
    of ready ones, and [JobTable], which adds the index by job id.  The manager
    owns two tables ([jobs] and [stage]); a method takes the one it works on as
    [self]. *)
From S2P Require Import Prelude UnitTypes ReDb UnitDb RateLimit Condition UnitEntry JobRentry.
From S2P Require Import JobData JobStat JobStore JobEntry JobUnit.

Module JobUnitTable.
Section table.
Context `{HI : !HashIter} `{HC : !CondEnv} {W : Type} `{HS : !SubUnits W} `{HD : !UnitDb}.
Implicit Types (s : Store W) (self : TableId) (u : UnitId) (uv : UvPtr).

Definition clear self : J W unit := ut_modify self (λ _, JobUnitTable_new).

(** [get_mut_uv_pad]: the job-unit of [u], a new one if there is none. *)
Definition get_mut_uv_pad self u : J W UvPtr :=
  t ← ut_get self;
  match t_data t !! u with
  | Some uv => mret uv
  | None =>
    uv ← uv_new u;
    ut_modify self (λ t, set_t_data (<[u:=uv]> (t_data t)) t);;
    mret uv
  end.

(** ** The ready queue *)
Definition readys_backfill self : J W unit :=
  t ← ut_get self;
  if bool_decide (readys t = []) then mret tt else
  ut_modify self (set_readys []);;
  mforeach (λ uv,
    d ← uv_get uv;
    ut_modify self (λ t, set_t_ready (<[ju_unit d:=uv]> (t_ready t)) t)) (readys t).

Definition readys_fill self : J W unit :=
  ut_modify self (λ t,
    if bool_decide (readys t = []) then set_t_ready ∅ (set_readys (bt_values (t_ready t)) t) else t).

Definition ready_insert self u uv : J W unit :=
  d ← uv_get uv;
  if up_ready d then mret tt else
  readys_backfill self;;
  ut_modify self (λ t, set_t_ready (<[u:=uv]> (t_ready t)) t);;
  uv_modify uv (set_up_ready true).

Definition ready_remove self u uv : J W unit :=
  d ← uv_get uv;
  if negb (up_ready d) then mret tt else
  readys_backfill self;;
  ut_modify self (λ t, set_t_ready (delete u (t_ready t)) t);;
  uv_modify uv (set_up_ready false).

Definition ready_sync self u uv : J W unit :=
  d ← uv_get uv;
  if ready d then ready_insert self u uv else ready_remove self u uv.

(** [readys.pop()] takes the last one. *)
Definition ready_pop self (unit : option UnitId) : J W (option UvPtr) :=
  uv_ret ← match unit with
    | Some u =>
      readys_backfill self;;
      t ← ut_get self;
      ut_modify self (λ t, set_t_ready (delete u (t_ready t)) t);;
      mret (t_ready t !! u)
    | None =>
      readys_fill self;;
      t ← ut_get self;
      ut_modify self (λ t, set_readys (removelast (readys t)) t);;
      mret (last (readys t))
    end;
  match uv_ret with
  | Some uv => uv_modify uv (set_up_ready false);; mret uv_ret
  | None => mret uv_ret
  end.

Definition try_gc_empty_unit self u uv : J W unit :=
  d ← uv_get uv;
  if JobUnitData.is_empty d then
    massert (negb (ready d));;
    massert (negb (up_ready d));;
    ut_modify self (λ t, set_t_ready (delete u (t_ready t)) (set_t_data (delete u (t_data t)) t))
  else mret tt.

(** ** Entries *)
Definition reshuffle_entry self u uv : J W (list JobPtr) :=
  d ← uv_get uv;
  if dirty d then
    merge_jobs ← JobUnitData.reshuffle uv;
    ready_sync self u uv;;
    uv_modify uv (set_dirty false);;
    mret merge_jobs
  else mret [].

Definition finish_entry self u uv (result : JobResult) : J W (option JobPtr) :=
  d ← uv_get uv;
  massert (negb (dirty d));;
  del_trigger ← JobUnitData.finish_trigger uv result;
  ready_sync self u uv;;
  uv_modify uv (set_dirty false);;
  mret del_trigger.

Definition remove_entry self u uv (kind1 : JobKind) (kind2 : option JobKind) (result : JobResult)
    : J W (list JobPtr) :=
  d ← uv_get uv;
  massert (negb (dirty d));;
  j1 ← JobUnitData.remove_suspend uv kind1 result;
  j2 ← match kind2 with
       | Some k2 => JobUnitData.remove_suspend uv k2 result
       | None => mret None
       end;
  reshuffle_entry self u uv;;
  mret (option_list j1 ++ option_list j2).

Definition resume_entry self u uv : J W unit :=
  d ← uv_get uv;
  massert (negb (dirty d));;
  if pause d then
    JobUnitData.resume uv;;
    ready_sync self u uv;;
    uv_modify uv (set_dirty false)
  else mret tt.

(** ** Operations *)
Definition insert_suspend self (job : JobPtr) : J W (option JobPtr) :=
  j ← job_get job;
  uv ← get_mut_uv_pad self (j_unit j);
  old ← JobUnitData.insert_suspend uv job false;
  d ← uv_get uv;
  massert (dirty d);;
  ut_modify self (set_sync false);;
  mret old.

Definition isolate_suspends self (other : TableId) : J W (list JobPtr) :=
  t ← ut_get self;
  o ← ut_get other;
  del_jobs ← mfold (λ del_jobs uuv,
    us ← mgets st_units;
    if ignore_on_isolate uuv.1 us then mret del_jobs else
    if is_some (t_data o !! uuv.1) then mret del_jobs else
    dels ← JobUnitData.flush_suspends uuv.2;
    d ← uv_get uuv.2;
    massert (dirty d);;
    mret (del_jobs ++ dels)) [] (hm_iter (t_data t));
  ut_modify self (set_sync false);;
  mret del_jobs.

Definition merge_suspends self (other : TableId) : J W JobChanges :=
  o ← ut_get other;
  changes ← mfold (λ (acc : JobChanges) uuv,
    uv ← get_mut_uv_pad self uuv.1;
    c ← JobUnitData.merge_suspends uv uuv.2;
    mret (acc.1.1 ++ c.1.1, acc.1.2 ++ c.1.2, acc.2 ++ c.2)) ([], [], []) (hm_iter (t_data o));
  ut_modify self (set_sync false);;
  mret changes.

Definition reshuffle self : J W (list JobPtr) :=
  t ← ut_get self;
  merge_jobs ← mfold (λ merge_jobs uuv,
    ms ← reshuffle_entry self uuv.1 uuv.2;
    try_gc_empty_unit self uuv.1 uuv.2;;
    mret (merge_jobs ++ ms)) [] (hm_iter (t_data t));
  ut_modify self (set_sync true);;
  mret merge_jobs.

Definition insert_trigger self (job : JobPtr) : J W (option JobPtr) :=
  j ← job_get job;
  uv ← get_mut_uv_pad self (j_unit j);
  old ← JobUnitData.insert_trigger uv job;
  d ← uv_get uv;
  massert (dirty d);;
  ut_modify self (set_sync false);;
  mret old.

Definition finish_trigger self u (result : JobResult) : J W (option JobPtr) :=
  t ← ut_get self;
  massert (sync t);;
  uv ← munwrap (t_data t !! u);
  d ← uv_get uv;
  massert (is_some (trigger d));;
  del_trigger ← finish_entry self u uv result;
  try_gc_empty_unit self u uv;;
  mret del_trigger.

Definition remove_suspends self u (kind1 : JobKind) (kind2 : option JobKind) (result : JobResult)
    : J W (list JobPtr) :=
  t ← ut_get self;
  massert (sync t);;
  match t_data t !! u with
  | Some uv =>
    del_jobs ← remove_entry self u uv kind1 kind2 result;
    try_gc_empty_unit self u uv;;
    mret del_jobs
  | None => mret []
  end.

Definition resume_unit self u : J W unit :=
  t ← ut_get self;
  match t_data t !! u with
  | Some uv => resume_entry self u uv
  | None => mret tt
  end.

Definition remove_unit self u : J W unit :=
  ut_modify self (λ t, set_t_ready (delete u (t_ready t)) (set_t_data (delete u (t_data t)) t)).

(** ** Queries *)
Definition calc_ready (t : JobUnitTable) : bool :=
  if sync t then negb (bool_decide (t_ready t = ∅) && bool_decide (readys t = [])) else false.
Definition update_up_ready self : J W unit :=
  ut_modify self (λ t, set_ut_up_ready (calc_ready t) t).

Definition get_suspend self u (kind : JobKind) : J W (option JobPtr) :=
  t ← ut_get self;
  match t_data t !! u with
  | Some uv => d ← uv_get uv; mret (suspends d !! kind)
  | None => mret None
  end.

Definition get_suspends self u : J W (list JobPtr) :=
  t ← ut_get self;
  match t_data t !! u with
  | Some uv => d ← uv_get uv; mret (JobUnitData.get_suspends d)
  | None => mret []
  end.

Definition get_trigger_info self u : J W (option (JobPtr * bool)) :=
  t ← ut_get self;
  match t_data t !! u with
  | Some uv => d ← uv_get uv; mret ((λ trig, (trig, pause d)) <$> trigger d)
  | None => mret None
  end.

(** As written: true when the unit {e has} an entry. *)
Definition is_unit_empty self u : J W bool :=
  t ← ut_get self; mret (is_some (t_data t !! u)).

Definition is_suspends_conflict self : J W bool :=
  t ← ut_get self;
  mexistsb (λ uv, d ← uv_get uv; mret (JobUnitData.is_suspends_conflict d)) (hm_values (t_data t)).

Definition is_suspends_conflict_with self (other : TableId) : J W bool :=
  t ← ut_get self;
  o ← ut_get other;
  mexistsb (λ uuv,
    match t_data o !! uuv.1 with
    | Some o_uv =>
      d ← uv_get uuv.2; od ← uv_get o_uv; mret (JobUnitData.is_suspends_conflict_with d od)
    | None => mret false
    end) (hm_iter (t_data t)).

Definition is_suspends_replace_with self (other : TableId) : J W bool :=
  t ← ut_get self;
  o ← ut_get other;
  mforallb (λ uuv,
    match t_data o !! uuv.1 with
    | Some o_uv =>
      d ← uv_get uuv.2; od ← uv_get o_uv; JobUnitData.is_suspends_replace_with d od
    | None => mret true
    end) (hm_iter (t_data t)).

Definition is_uv_runnable self uv : J W bool :=
  d ← uv_get uv;
  t ← ut_get self;
  let check atom := mforallb (λ other,
    match t_data t !! other with
    | Some other_uv =>
      od ← uv_get other_uv; JobUnitData.is_next_trigger_order_with d od atom
    | None => mret true
    end) (dep_gets_atom (ju_unit d) atom) in
  ok ← check UnitAtomAfter;
  if (ok : bool) then check UnitAtomBefore else mret false.
End table.
End JobUnitTable.

Section units.
Context `{HI : !HashIter} {W : Type}.

(** [jobs_2_units]: through a [HashSet]. *)
Definition jobs_2_units (jobs : list JobPtr) : J W (list UnitId) :=
  units ← mfold (λ (units : gset UnitId) job, j ← job_get job; mret ({[j_unit j]} ∪ units)) ∅ jobs;
  mret (hs_iter units).

(** [UnitX::trigger] has an empty body. *)
Definition unit_trigger (self other : UnitId) : J W unit := mret tt.
End units.

Module JobTable.
Section table.
Context `{HI : !HashIter} `{HC : !CondEnv} {W : Type} `{HS : !SubUnits W} `{HD : !UnitDb}.
Implicit Types (s : Store W) (self : TableId) (u : UnitId) (uv : UvPtr).

(** [for job in jobs { self.t_id.remove(&job.get_id()) }] *)
Definition t_id_remove_all self (jobs : list JobPtr) : J W unit :=
  mforeach (λ job, tid_modify self (delete job)) jobs.

Definition clear self : J W unit :=
  tid_modify self (λ _, ∅);; JobUnitTable.clear self.

Definition insert_suspend self (job : JobPtr) : J W (Result unit Error) :=
  t_id ← tid_get self;
  if is_some (t_id !! job) then mret (Err ErrInternal) else
  old ← JobUnitTable.insert_suspend self job;
  if is_some old then mret (Err ErrInput) else
  tid_modify self (<[job:=job]>);;
  mret (Ok tt).

Definition insert_trigger self (job : JobPtr) : J W (Result unit Error) :=
  t_id ← tid_get self;
  if is_some (t_id !! job) then mret (Err ErrInternal) else
  old ← JobUnitTable.insert_trigger self job;
  if is_some old then mret (Err ErrInput) else
  tid_modify self (<[job:=job]>);;
  mret (Ok tt).

Definition rentry_map_suspend self (config : JobConf) : J W JobPtr :=
  job ← JobAlloc.alloc config;
  Job.rentry_map_suspend job;;
  r ← insert_suspend self job;
  massert (is_ok r);;
  mret job.

Definition rentry_map_trigger self (config : JobConf) : J W JobPtr :=
  job ← JobAlloc.alloc config;
  Job.rentry_map_trigger job;;
  r ← insert_trigger self job;
  massert (is_ok r);;
  mret job.

Definition record_suspend self (config : JobConf) (mode : JobMode) : J W bool :=
  old ← JobUnitTable.get_suspend self (jc_unit config) (jc_kind config);
  if negb (is_some old) then
    job ← JobAlloc.alloc config;
    Job.init_attr job mode;;
    r ← insert_suspend self job;
    massert (is_ok r);;
    mret true
  else mret false.

Definition resume_unit self u : J W unit := JobUnitTable.resume_unit self u.

Definition process_relation self u : J W unit :=
  mforeach (λ other, unit_trigger other u) (dep_gets_atom u UnitAtomTriggeredBy);;
  mforeach (resume_unit self) (dep_gets_atom u UnitAtomAfter);;
  mforeach (resume_unit self) (dep_gets_atom u UnitAtomBefore).

Definition isolate_suspends self (other : TableId) (mode : JobMode) : J W (list JobPtr) :=
  del_jobs ← match mode with
    | ModeIsolate | ModeFlush => JobUnitTable.isolate_suspends self other
    | _ => mret []
    end;
  t_id_remove_all self del_jobs;;
  mret del_jobs.

Definition merge_suspends self (other : TableId) : J W JobChanges :=
  c ← JobUnitTable.merge_suspends self other;
  let '(add_jobs, del_jobs, update_jobs) := c in
  mforeach (λ job, tid_modify self (<[job:=job]>)) add_jobs;;
  t_id_remove_all self del_jobs;;
  mret c.

Definition reshuffle self : J W (list JobPtr) :=
  merge_jobs ← JobUnitTable.reshuffle self;
  t_id_remove_all self merge_jobs;;
  mret merge_jobs.

Definition commit self (other : TableId) (mode : JobMode) : J W (Result JobChanges Error) :=
  o_id ← tid_get other;
  t_id ← tid_get self;
  if existsb (λ o, is_some (t_id !! o)) (hm_keys o_id) then mret (Err ErrInternal) else
  iso_jobs ← isolate_suspends self other mode;
  c ← merge_suspends self other;
  let '(add_jobs, flush_jobs, update_jobs) := c in
  merge_jobs ← reshuffle self;
  mwhen (negb (bool_decide (iso_jobs = [])) || negb (bool_decide (flush_jobs = []))) (
    iso_units ← jobs_2_units iso_jobs;
    mforeach (process_relation self) iso_units;;
    flush_units ← jobs_2_units flush_jobs;
    mforeach (process_relation self) flush_units);;
  mret (Ok (add_jobs, iso_jobs ++ flush_jobs ++ merge_jobs, update_jobs)).

Definition remove_suspends self u (kind1 : JobKind) (kind2 : option JobKind) (result : JobResult)
    : J W (list JobPtr) :=
  del_jobs ← JobUnitTable.remove_suspends self u kind1 kind2 result;
  t_id_remove_all self del_jobs;;
  mwhen (negb (bool_decide (del_jobs = []))) (process_relation self u);;
  mret del_jobs.

(** A round of triggering: the triggered job's information with the result, if
    it is over; and the interrupted job. *)
Abbreviation TriggerRet := (option (JobInfo * option JobResult) * option JobPtr)%type.

Definition try_trigger_entry self uv : J W TriggerRet :=
  d ← uv_get uv;
  massert (negb (dirty d));;
  is_runnable ← JobUnitTable.is_uv_runnable self uv;
  tm ← (if (is_runnable : bool) then JobUnit.do_trigger uv
        else JobUnitData.do_pause uv;; mret (None, None));
  d ← uv_get uv;
  massert (negb (ready d));;
  uv_modify uv (set_dirty false);;
  mret tm.

Definition do_try_trigger self (unit : option UnitId) : J W (option TriggerRet) :=
  t ← ut_get self;
  massert (sync t);;
  uv_try ← JobUnitTable.ready_pop self unit;
  match uv_try with
  | Some uv =>
    tm ← try_trigger_entry self uv;
    d ← uv_get uv;
    massert (negb (JobUnitData.is_empty d));;
    mret (Some tm)
  | None => mret None
  end.

Definition try_trigger self (unit : option UnitId) : J W (option TriggerRet) :=
  trigger_ret ← do_try_trigger self unit;
  match trigger_ret with
  | Some (_, Some job) => tid_modify self (delete job)
  | _ => mret tt
  end;;
  mret trigger_ret.

Definition finish_trigger self u (result : JobResult) : J W (option JobPtr) :=
  del_trigger ← JobUnitTable.finish_trigger self u result;
  match del_trigger with
  | Some job => tid_modify self (delete job)
  | None => mret tt
  end;;
  mwhen (is_some del_trigger) (process_relation self u);;
  mret del_trigger.

Definition remove_unit self u : J W (option JobPtr * list JobPtr) :=
  ti ← JobUnitTable.get_trigger_info self u;
  let del_trigger := fst <$> ti in
  del_suspends ← JobUnitTable.get_suspends self u;
  match del_trigger with
  | Some job => tid_modify self (delete job)
  | None => mret tt
  end;;
  t_id_remove_all self del_suspends;;
  JobUnitTable.remove_unit self u;;
  mret (del_trigger, del_suspends).

Definition update_up_ready self : J W unit := JobUnitTable.update_up_ready self.
Definition up_ready self : J W bool := t ← ut_get self; mret (ut_up_ready t).
Definition calc_ready self : J W bool := t ← ut_get self; mret (JobUnitTable.calc_ready t).

(** [JobInfo::map(job)] *)
Definition job_info (job : JobPtr) : J W JobInfo := j ← job_get job; mret (JobInfo_map job j).

Definition get self (id : JobPtr) : J W (option JobInfo) :=
  t_id ← tid_get self;
  match t_id !! id with
  | Some job => i ← job_info job; mret (Some i)
  | None => mret None
  end.

Definition get_suspend self u (kind : JobKind) : J W (option JobInfo) :=
  o ← JobUnitTable.get_suspend self u kind;
  match o with
  | Some job => i ← job_info job; mret (Some i)
  | None => mret None
  end.

Definition get_trigger_info self u : J W (option (JobInfo * bool)) :=
  o ← JobUnitTable.get_trigger_info self u;
  match o with
  | Some (job, pause) => i ← job_info job; mret (Some (i, pause))
  | None => mret None
  end.

Definition is_trigger self (id : JobPtr) : J W bool :=
  ji ← get self id;
  match ji with
  | Some job_info =>
    ti ← get_trigger_info self (ji_unit job_info);
    match ti with
    | Some (t_info, _) => mret (bool_decide (ji_id t_info = ji_id job_info))
    | None => mret false
    end
  | None => mret false
  end.

Definition is_suspend self (id : JobPtr) : J W bool :=
  ji ← get self id;
  match ji with
  | Some job_info =>
    si ← get_suspend self (ji_unit job_info) (ji_kind job_info);
    match si with
    | Some s_info => mret (bool_decide (ji_id s_info = ji_id job_info))
    | None => mret false
    end
  | None => mret false
  end.
End table.
End JobTable.
