(* ===== verification/JobTrans.v ===== *)
(** * Transactions

    [core/bin/job/transaction.rs]: a requested job is expanded into the jobs its
    dependencies ask for ([job_trans_expand]), widened by the mode
    ([job_trans_affect]), checked against the jobs already there
    ([job_trans_verify]); and a failed job drags along the jobs that depend on it
    ([job_trans_fallback]).

    [job_trans_expand] and [trans_fallback_body] recurse on the state of a table,
    so they take fuel; [JobTransFacts] shows how much is enough. *)
From S2P Require Import Prelude UnitTypes ReDb UnitDb RateLimit Condition UnitEntry JobRentry.
From S2P Require Import JobData JobStat JobStore JobEntry JobUnit JobTable.

Section trans.
Context `{HI : !HashIter} `{HC : !CondEnv} {W : Type} `{HS : !SubUnits W} `{HD : !UnitDb}.
Implicit Types (s : Store W) (u : UnitId).

(** [?] of a [Result<(), Error>] *)
Definition and_then (m k : J W (Result unit Error)) : J W (Result unit Error) :=
  r ← m; match r with Ok _ => k | Err e => mret (Err e) end.

(** [for x in l { if let Err(_) = f(x) { } }] *)
Definition foreach_ignoring {A} (f : A → J W (Result unit Error)) (l : list A) : J W unit :=
  mforeach (λ x, f x;; mret tt) l.

(** [for x in l { match f(x) { Err(BadRequest) => (), Err(e) => return Err(e), _ => () } }] *)
Fixpoint foreach_bad_request {A} (f : A → J W (Result unit Error)) (l : list A)
    : J W (Result unit Error) :=
  match l with
  | [] => mret (Ok tt)
  | x :: l' =>
    r ← f x;
    match r with
    | Err ErrBadRequest => foreach_bad_request f l'
    | Err e => mret (Err e)
    | Ok _ => foreach_bad_request f l'
    end
  end.

Definition trans_is_expand (config : JobConf) (new : bool) (mode : JobMode) : bool :=
  if decide (jc_kind config = Nop) then false else
  if negb new then false else
  if bool_decide (mode = ModeIgnoreDependencies) || bool_decide (mode = ModeIgnoreRequirements)
  then false else true.

Section expand.
(** The recursive call [job_trans_expand(stage, ja, db, &conf, mode)]. *)
Variable expand : JobConf → J W (Result unit Error).

Definition expand_kind (kind : JobKind) (other : UnitId) : J W (Result unit Error) :=
  expand {| jc_unit := other; jc_kind := kind |}.

Definition trans_expand_start u : J W (Result unit Error) :=
  foreach_ignoring (expand_kind Start) (dep_gets_atom u UnitAtomPullInStart);;
  foreach_ignoring (expand_kind Start) (dep_gets_atom u UnitAtomPullInStartIgnored);;
  and_then (foreach_bad_request (expand_kind Verify) (dep_gets_atom u UnitAtomPullInVerify))
  (and_then (foreach_bad_request (expand_kind Stop) (dep_gets_atom u UnitAtomPullInStop)) (
     foreach_ignoring (expand_kind Stop) (dep_gets_atom u UnitAtomPullInStopIgnored);;
     mret (Ok tt))).

Definition trans_expand_stop (config : JobConf) : J W (Result unit Error) :=
  match jc_kind config with
  | Stop => foreach_bad_request (expand_kind Stop)
              (dep_gets_atom (jc_unit config) UnitAtomPropagateStop)
  | Restart => foreach_bad_request (expand_kind TryRestart)
                 (dep_gets_atom (jc_unit config) UnitAtomPropagateRestart)
  | _ => mpanic
  end.

Definition trans_expand_reload u : J W (Result unit Error) :=
  foreach_ignoring (expand_kind TryReload) (dep_gets_atom u UnitAtomPropagatesReloadTo);;
  mret (Ok tt).

(** The [match conf.get_kind()] of [job_trans_expand]. *)
Definition trans_expand_conf (conf : JobConf) : J W (Result unit Error) :=
  match jc_kind conf with
  | Start => trans_expand_start (jc_unit conf)
  | Stop => trans_expand_stop conf
  | Reload => trans_expand_reload (jc_unit conf)
  | Restart => and_then (trans_expand_start (jc_unit conf)) (trans_expand_stop conf)
  | Verify | Nop => mret (Ok tt)
  | _ => mpanic
  end.
End expand.

Fixpoint job_trans_expand (fuel : nat) (stage : TableId) (config : JobConf) (mode : JobMode)
    : J W (Result unit Error) :=
  match fuel with
  | O => mnofuel
  | S fuel =>
    conf ← JobConf_map config;
    new ← JobTable.record_suspend stage conf mode;
    if trans_is_expand conf new mode
    then trans_expand_conf (λ c, job_trans_expand fuel stage c mode) conf
    else mret (Ok tt)
  end.

Definition trans_affect_isolate (fuel : nat) (stage : TableId) (mode : JobMode)
    : J W (Result unit Error) :=
  massert (bool_decide (mode = ModeIsolate));;
  mforeach (λ other,
    us ← mgets st_units;
    if ignore_on_isolate other us then mret tt else
    empty ← JobUnitTable.is_unit_empty stage other;
    if negb empty then mret tt else
    job_trans_expand fuel stage {| jc_unit := other; jc_kind := Stop |} mode;;
    mret tt) units_get_all;;
  mret (Ok tt).

Definition trans_affect_trigger (fuel : nat) (stage : TableId) (config : JobConf) (mode : JobMode)
    : J W (Result unit Error) :=
  massert (bool_decide (jc_kind config = Stop));;
  massert (bool_decide (mode = ModeTrigger));;
  mforeach (λ other,
    empty ← JobUnitTable.is_unit_empty stage (jc_unit config);
    if negb empty then mret tt else
    job_trans_expand fuel stage {| jc_unit := other; jc_kind := Stop |} mode;;
    mret tt) (dep_gets_atom (jc_unit config) UnitAtomTriggeredBy);;
  mret (Ok tt).

Definition job_trans_affect (fuel : nat) (stage : TableId) (config : JobConf) (mode : JobMode)
    : J W (Result unit Error) :=
  match mode with
  | ModeIsolate => trans_affect_isolate fuel stage mode
  | ModeTrigger => trans_affect_trigger fuel stage config mode
  | _ => mret (Ok tt)
  end.

Definition trans_verify_is_conflict (stage : TableId) : J W (Result unit Error) :=
  c ← JobUnitTable.is_suspends_conflict stage;
  if (c : bool) then mret (Err ErrConflict) else mret (Ok tt).

Definition trans_verify_is_destructive (stage jobs : TableId) (mode : JobMode)
    : J W (Result unit Error) :=
  c ← JobUnitTable.is_suspends_conflict jobs;
  massert (negb c);;
  c ← JobUnitTable.is_suspends_conflict_with jobs stage;
  if negb c then mret (Ok tt) else
  if decide (mode ≠ ModeFail) then
    r ← JobUnitTable.is_suspends_replace_with jobs stage;
    if (r : bool) then mret (Ok tt) else mret (Err ErrConflict)
  else mret (Err ErrConflict).

Definition job_trans_verify (stage jobs : TableId) (mode : JobMode) : J W (Result unit Error) :=
  and_then (trans_verify_is_conflict stage) (trans_verify_is_destructive stage jobs mode).

Definition trans_fallback (jobs : TableId) u (f_result : JobResult) (atom : UnitRelationAtom)
    : J W (list JobPtr) :=
  mfold (λ del_jobs other,
    ds ← JobTable.remove_suspends jobs other Start (Some Verify) f_result;
    mret (del_jobs ++ ds)) [] (dep_gets_atom u atom).

Definition trans_fallback_action (jobs : TableId) u (run_kind : JobKind) (f_result : JobResult)
    : J W (list JobPtr) :=
  match run_kind with
  | Start | Verify => trans_fallback jobs u f_result UnitAtomPropagateStartFailure
  | Stop => trans_fallback jobs u f_result UnitAtomPropagateStopFailure
  | _ => mret []
  end.

Fixpoint trans_fallback_body (fuel : nat) (jobs : TableId) u (run_kind : JobKind)
    (f_result : JobResult) (del_jobs : list JobPtr) : J W (list JobPtr) :=
  match fuel with
  | O => mnofuel
  | S fuel =>
    dels ← trans_fallback_action jobs u run_kind f_result;
    del_jobs ← mfold (λ del_jobs job,
      j ← job_get job;
      trans_fallback_body fuel jobs (j_unit j) (j_run_kind j) f_result del_jobs) del_jobs dels;
    mret (del_jobs ++ dels)
  end.

Definition job_trans_fallback (fuel : nat) (jobs : TableId) u (run_kind : JobKind)
    (f_result : JobResult) : J W (list JobPtr) :=
  trans_fallback_body fuel jobs u run_kind f_result [].
End trans.
