(* ===== verification/JobNotify.v ===== *)
(** * Notifications between units

    [core/bin/job/notify.rs]: the jobs that an event of one unit asks of the
    others. *)
From S2P Require Import Prelude UnitTypes UnitDb JobRentry JobData.

Section notify.
Context `{HD : !UnitDb}.

Definition notify_result_start (u : UnitId) (atom : UnitRelationAtom) : list JobConf :=
  (λ other, {| jc_unit := other; jc_kind := Start |}) <$> dep_gets_atom u atom.

(** [None] is [unreachable!]. *)
Definition job_notify_result (u : UnitId) (atom : UnitRelationAtom) (mode : JobMode)
    : option (list JobConf * JobMode) :=
  match atom with
  | UnitAtomOnSuccess | UnitAtomOnFailure => Some (notify_result_start u atom, mode)
  | _ => None
  end.

(** [for other in l { if p(other) { targets.push((JobConf::new(other, kind), mode)) } }] *)
Definition targets_of (p : UnitId → bool) (kind : JobKind) (mode : JobMode) (l : list UnitId)
    : list (JobConf * JobMode) :=
  (λ other, ({| jc_unit := other; jc_kind := kind |}, mode)) <$> filter (λ o, p o = true) l.

Definition notify_event_start (config : JobConf) (mode_option : option JobMode)
    : list (JobConf * JobMode) :=
  let u := jc_unit config in
  let not_after other := negb (dep_is_dep_atom_with u UnitAtomAfter other) in
  targets_of not_after Start (default ModeReplace mode_option)
    (dep_gets_atom u UnitAtomRetroActiveStartReplace)
  ++ targets_of not_after Start (default ModeFail mode_option)
       (dep_gets_atom u UnitAtomRetroActiveStartFail)
  ++ targets_of (λ _, true) Stop (default ModeReplace mode_option)
       (dep_gets_atom u UnitAtomRetroActiveStopOnStart).

Definition notify_event_stop (config : JobConf) (mode_option : option JobMode)
    : list (JobConf * JobMode) :=
  targets_of (λ _, true) Stop (default ModeReplace mode_option)
    (dep_gets_atom (jc_unit config) UnitAtomRetroActiveStopOnStop).

Definition notify_event_reload (config : JobConf) (mode_option : option JobMode)
    : list (JobConf * JobMode) :=
  targets_of (λ _, true) TryReload (default ModeFail mode_option)
    (dep_gets_atom (jc_unit config) UnitAtomPropagatesReloadTo).

(** [None] is [unreachable!]. *)
Definition job_notify_event (config : JobConf) (mode_option : option JobMode)
    : option (list (JobConf * JobMode)) :=
  match jc_kind config with
  | Start => Some (notify_event_start config mode_option)
  | Stop => Some (notify_event_stop config mode_option)
  | Reload => Some (notify_event_reload config mode_option)
  | _ => None
  end.
End notify.
