(* ===== verification/JobManager.v ===== *)
(** * The job manager

    [core/bin/job/manager.rs]: [JobManagerData] ties the tables, the allocator,
    the transactions and the statistics together; [JobManager] wraps it and arms
    the event source that runs the jobs.

    [fuel] bounds the recursion of the transactions, [n] the rounds of [run].
    What a unit publishes while the engine runs it ([us_states]) reaches
    [try_finish] through the unit manager ([insert_states] of
    [core/bin/unit/manager.rs]); [run] delivers it at the end of the round that
    triggered the unit, with [running] still set: nothing reads [text] or the
    tables in between. *)
From S2P Require Import Prelude UnitTypes ReDb UnitDb RateLimit Condition UnitEntry JobRentry.
From S2P Require Import JobData JobStat JobStore JobEntry JobUnit JobTable JobTrans JobNotify.

Record JobAffect := {
  af_adds : list JobInfo; af_dels : list JobInfo; af_updates : list JobInfo;
  af_interested : bool;
}.
Definition JobAffect_new (interested : bool) : JobAffect :=
  {| af_adds := []; af_dels := []; af_updates := []; af_interested := interested |}.

Definition job_trans_check_input (config : JobConf) (mode : JobMode) : Result unit Error :=
  if bool_decide (mode = ModeIsolate) && negb (bool_decide (jc_kind config = Start))
  then Err ErrInput
  else if bool_decide (mode = ModeTrigger) && negb (bool_decide (jc_kind config = Stop))
  then Err ErrInput
  else Ok tt.


Section enable.
Context `{HI : !HashIter} {W : Type}.

(** [enable]: arm the event source. *)
Definition enable : J W unit := mmodify (set_st_enabled true).

Definition try_enable : J W unit :=
  r ← JobTable.calc_ready Jobs;
  up ← JobTable.up_ready Jobs;
  mwhen (r && negb up) enable;;
  JobTable.update_up_ready Jobs.

End enable.

Module JobManagerData.
Section manager.
Context `{HI : !HashIter} `{HC : !CondEnv} {W : Type} `{HS : !SubUnits W} `{HD : !UnitDb}.
Implicit Types (s : Store W) (u : UnitId).

Definition jobs_2_jobinfo (jobs : list JobPtr) : J W (list JobInfo) :=
  mfold (λ infos job, i ← JobTable.job_info job; mret (infos ++ [i])) [] jobs.

(** [JobAffect::record] *)
Definition affect_record (affect : JobAffect) (c : JobChanges) : J W JobAffect :=
  if af_interested affect then
    adds ← jobs_2_jobinfo c.1.1; dels ← jobs_2_jobinfo c.1.2; updates ← jobs_2_jobinfo c.2;
    mret {| af_adds := af_adds affect ++ adds; af_dels := af_dels affect ++ dels;
            af_updates := af_updates affect ++ updates; af_interested := true |}
  else mret affect.

(** The jobs a list of handles names. *)
Definition job_gets (jobs : list JobPtr) : J W (list Job) :=
  mfold (λ js job, j ← job_get job; mret (js ++ [j])) [] jobs.
(** [self.stat.update_changes(&(adds, dels, updates))] and [update_change] *)
Definition update_changes (adds dels updates : list JobPtr) : J W unit :=
  a ← job_gets adds; d ← job_gets dels; up ← job_gets updates;
  in_stat (JobStatData.update_changes a d up).
Definition update_change (add del update : option JobPtr) : J W unit :=
  update_changes (option_list add) (option_list del) (option_list update).

Definition entry_clear : J W unit :=
  JobTable.clear Jobs;;
  JobTable.clear Stage;;
  JobAlloc.clear;;
  mmodify (set_st_running false);;
  mmodify (set_st_text None);;
  in_stat JobStatData.clear.

Definition rentry_trigger_merge u (force : bool) : J W unit :=
  re ← mgets st_re;
  let ka := default (Restart, JobAttr_new true true force true) (JobRe.trigger_get u re) in
  relevancy ← munwrap (job_merge_trigger_iskeep ka.1);
  k_n ← munwrap (job_merge_trigger_map ka.1);
  in_re (JobRe.trigger_insert u k_n
           (JobAttr_or (JobAttr_new true true force (negb relevancy)) ka.2)).

Definition db_map : J W unit :=
  re ← mgets st_re;
  triggers ← mfold (λ js e,
    let '(unit_id, kind, _) := e in
    u ← munwrap (units_get unit_id);
    job ← JobTable.rentry_map_trigger Jobs {| jc_unit := u; jc_kind := kind |};
    mret (js ++ [job])) [] (JobRe.trigger_entries re);
  re ← mgets st_re;
  suspends ← mfold (λ js e,
    let '(unit_id, kind, _) := e in
    u ← munwrap (units_get unit_id);
    job ← JobTable.rentry_map_suspend Jobs {| jc_unit := u; jc_kind := kind |};
    mret (js ++ [job])) [] (JobRe.suspends_entries re);
  JobTable.reshuffle Jobs;;
  update_changes triggers [] [];;
  update_changes suspends [] [];;
  in_stat JobStatData.clear_cnt.

Definition exec (fuel : nat) (config : JobConf) (mode : JobMode) (affect : JobAffect)
    : J W (Result JobAffect Error) :=
  match job_trans_check_input config mode with
  | Err e => mret (Err e)
  | Ok _ =>
    JobTable.clear Stage;;
    mtry (job_trans_expand fuel Stage config mode) (λ _,
    mtry (job_trans_affect fuel Stage config mode) (λ _,
    mtry (job_trans_verify Stage Jobs mode) (λ _,
    mtry (JobTable.commit Jobs Stage mode) (λ c,
      JobTable.clear Stage;;
      update_changes c.1.1 c.1.2 c.2;;
      affect ← affect_record affect c;
      mret (Ok affect)))))
  end.

(** [if let Err(_e) = self.exec(config, mode, &mut JobAffect::new(false)) { }] *)
Definition exec_quietly (fuel : nat) (config : JobConf) (mode : JobMode) : J W unit :=
  exec fuel config mode (JobAffect_new false);; mret tt.

Definition exec_on (fuel : nat) u (atom : UnitRelationAtom) (mode : JobMode) : J W unit :=
  cm ← munwrap (job_notify_result u atom mode);
  mforeach (λ config, exec_quietly fuel config cm.2) cm.1.

Definition do_notify (fuel : nat) (config : JobConf) (mode_option : option JobMode) : J W unit :=
  targets ← munwrap (job_notify_event config mode_option);
  mforeach (λ cm : JobConf * JobMode, exec_quietly fuel cm.1 cm.2) targets.

Definition notify (fuel : nat) (config : JobConf) (mode : JobMode) : J W (Result unit Error) :=
  if decide (jc_kind config ≠ Reload) then mret (Err ErrInput) else
  do_notify fuel config (Some mode);; mret (Ok tt).

Definition simulate_job_notify (fuel : nat) u (os ns : UnitActiveState) : J W unit :=
  match os, ns with
  | (UnitInActive | UnitFailed), (UnitActive | UnitActivating) =>
    do_notify fuel {| jc_unit := u; jc_kind := Start |} None
  | (UnitActive | UnitActivating), (UnitInActive | UnitDeActivating) =>
    do_notify fuel {| jc_unit := u; jc_kind := Stop |} None
  | _, _ => mret tt
  end.

Definition simulate_unit_notify (fuel : nat) u (result : JobResult) (inside : bool) : J W unit :=
  us ← mgets st_units;
  if inside && negb (bool_decide (result = Done))
     && bool_decide (OnFailureJobMode (u_config (us_unit us u)) = ModeFail)
  then exec_on fuel u UnitAtomOnFailure ModeFail
  else mret tt.

Definition unit_start_on (fuel : nat) u (os ns : UnitActiveState) (flags : UnitNotifyFlags)
    : J W unit :=
  us ← mgets st_units;
  let c := u_config (us_unit us u) in
  let auto_restart := flags_intersects flags UNIT_NOTIFY_WILL_AUTO_RESTART in
  mwhen (negb (bool_decide (ns = os)) && negb auto_restart && bool_decide (ns = UnitFailed))
    (exec_on fuel u UnitAtomOnFailure (OnFailureJobMode c));;
  mwhen (bool_decide (ns = UnitInActive) && negb auto_restart)
    (match os with
     | UnitFailed | UnitInActive | UnitMaintenance => mret tt
     | _ => exec_on fuel u UnitAtomOnSuccess (OnSuccessJobMode c)
     end).

Definition do_remove_one (fuel : nat) (job_info : JobInfo) (result : JobResult) (inside : bool)
    : J W bool :=
  let u := ji_unit job_info in
  is_t ← JobTable.is_trigger Jobs (ji_id job_info);
  ts ← (if (is_t : bool) then
      del_trigger ← JobTable.finish_trigger Jobs u result; mret (del_trigger, None)
    else
      del_s ← JobTable.remove_suspends Jobs u (ji_kind job_info) None result;
      massert (length del_s =? 1);;
      mret (None, last del_s));
  let del_one := is_some ts.1 || is_some ts.2 in
  mwhen del_one (simulate_unit_notify fuel u result inside);;
  update_change None ts.1 None;;
  update_change None ts.2 None;;
  mret del_one.

Definition do_remove_relation (fuel : nat) (job_info : JobInfo) : J W unit :=
  let u := ji_unit job_info in
  if no_relevancy (ji_attr job_info) then
    exec_quietly fuel {| jc_unit := u; jc_kind := Stop |} ModeReplace
  else
    del_rel ← job_trans_fallback fuel Jobs u (ji_run_kind job_info) Dependency;
    units ← jobs_2_units del_rel;
    mforeach (λ v, if decide (v ≠ u) then simulate_unit_notify fuel v Dependency true else mret tt)
      units;;
    update_changes [] del_rel [].

Definition do_remove (fuel : nat) (job_info : JobInfo) (result : JobResult) (inside : bool)
    : J W bool :=
  del_one ← do_remove_one fuel job_info result inside;
  if negb del_one then mret del_one else
  mwhen (negb (bool_decide (result = Done))) (do_remove_relation fuel job_info);;
  mret del_one.

Definition do_try_finish (fuel : nat) u (st : UnitState) : J W unit :=
  let '{| st_os := os; st_ns := ns; st_flags := flags |} := st in
  ti ← JobTable.get_trigger_info Jobs u;
  gd ← match ti with
    | Some (trigger, pause) =>
      if (pause : bool) then JobTable.resume_unit Jobs u;; mret (true, false)
      else
        suggest ← munwrap (job_process_unit (ji_run_kind trigger) ns flags);
        del_one ← match suggest.1 with
          | Some result => do_remove fuel trigger result false
          | None => mret false
          end;
        mret (suggest.2, del_one)
    | None => mret (false, false)
    end;
  let '(generated, del_one) := gd in
  mwhen (negb generated) (simulate_job_notify fuel u os ns);;
  unit_start_on fuel u os ns flags;;
  mwhen (negb del_one)
    (mforeach (λ other, unit_trigger other u) (dep_gets_atom u UnitAtomTriggeredBy)).

Definition try_finish (fuel : nat) u (st : UnitState) : J W (Result unit Error) :=
  running ← mgets st_running;
  if (running : bool) then
    text ← mgets st_text;
    if is_some text then mret (Err ErrInput) else
    mmodify (set_st_text (Some (u, st)));; mret (Ok tt)
  else do_try_finish fuel u st;; mret (Ok tt).

(** The state changes published during a round, handed to [try_finish] by the
    unit manager's [insert_states], which looks the unit up and ignores an
    error. *)
Definition deliver_states (fuel : nat) : J W unit :=
  us ← mgets st_units;
  mmodify (set_st_units {| us_unit := us_unit us; us_sub := us_sub us; us_states := [];
                           us_limits := us_limits us |});;
  mforeach (λ ust : UnitId * UnitState,
    match units_get ust.1 with
    | Some u => r ← try_finish fuel u ust.2; mwhen (is_ok r) try_enable
    | None => mret tt
    end) (us_states us).

(** One round of the loop of [run]; false when nothing was triggered. *)
Definition run_round (fuel : nat) (unit : option UnitId) : J W bool :=
  mmodify (set_st_text None);;
  mmodify (set_st_running true);;
  trigger_ret ← JobTable.try_trigger Jobs unit;
  deliver_states fuel;;
  mmodify (set_st_running false);;
  match trigger_ret with
  | Some (trigger_info, merge_trigger) =>
    update_change None merge_trigger None;;
    text ← mgets st_text;
    mmodify (set_st_text None);;
    match text with
    | Some (u, st) => do_try_finish fuel u st;; mmodify (set_st_text None)
    | None => mret tt
    end;;
    match trigger_info with
    | Some (t_jinfo, Some tend_r) =>
      i ← JobTable.get Jobs (ji_id t_jinfo);
      if is_some i then do_remove fuel t_jinfo tend_r true;; mret tt else mret tt
    | _ => mret tt
    end;;
    mmodify (set_st_last_unit None);;
    mret true
  | None => mret false
  end.

(** [cnt] is a [usize] that wraps. *)
Fixpoint run (n fuel : nat) (unit : option UnitId) (cnt : Z) : J W Z :=
  match n with
  | O => mnofuel
  | S n =>
    more ← run_round fuel unit;
    if (more : bool) then run n fuel unit (wrap_u64 (cnt + 1)) else mret cnt
  end.

Definition remove (fuel : nat) (id : JobPtr) : J W (Result unit Error) :=
  running ← mgets st_running;
  massert (negb running);;
  jinfo ← JobTable.get Jobs id;
  match jinfo with
  | None => mret (Err ErrNotExisted)
  | Some job_info =>
    is_t ← JobTable.is_trigger Jobs id;
    if (is_t : bool) then mret (Err ErrNotSupported) else
    is_s ← JobTable.is_suspend Jobs id;
    if negb is_s then mret (Err ErrInternal) else
    do_remove fuel job_info Cancelled false;;
    mret (Ok tt)
  end.

Definition remove_unit u : J W unit :=
  ds ← JobTable.remove_unit Jobs u;
  update_change None ds.1 None;;
  update_changes [] ds.2 [].

(** [Source::dispatch]: the armed (one-shot) event source fires. *)
Definition dispatch (n fuel : nat) : J W unit :=
  mmodify (set_st_enabled false);;
  run n fuel None 0;;
  JobTable.update_up_ready Jobs;;
  r ← JobTable.calc_ready Jobs;
  massert (negb r).
End manager.
End JobManagerData.

Module JobManager.
Section manager.
Context `{HI : !HashIter} `{HC : !CondEnv} {W : Type} `{HS : !SubUnits W} `{HD : !UnitDb}.
Implicit Types (s : Store W) (u : UnitId).

Definition exec (fuel : nat) (config : JobConf) (mode : JobMode) (affect : JobAffect)
    : J W (Result JobAffect Error) :=
  mtry (JobManagerData.exec fuel config mode affect) (λ a, try_enable;; mret (Ok a)).

Definition notify (fuel : nat) (config : JobConf) (mode : JobMode) : J W (Result unit Error) :=
  mtry (JobManagerData.notify fuel config mode) (λ a, try_enable;; mret (Ok a)).

Definition try_finish (fuel : nat) u (st : UnitState) : J W (Result unit Error) :=
  mtry (JobManagerData.try_finish fuel u st) (λ a, try_enable;; mret (Ok a)).

Definition remove (fuel : nat) (id : JobPtr) : J W (Result unit Error) :=
  mtry (JobManagerData.remove fuel id) (λ a, try_enable;; mret (Ok a)).

Definition trigger_unit (n fuel : nat) (lunit : UnitId) : J W unit :=
  u ← munwrap (units_get lunit);
  cnt ← JobManagerData.run n fuel (Some u) 0;
  massert (negb (cnt =? 0)%Z);;
  try_enable.

Definition has_stop_job u : J W bool :=
  o ← JobTable.get_suspend Jobs u Stop; mret (is_some o).

Definition has_start_like_job u : J W bool :=
  a ← JobTable.get_suspend Jobs u Start;
  b ← JobTable.get_suspend Jobs u ReloadOrStart;
  c ← JobTable.get_suspend Jobs u Restart;
  mret (is_some a || is_some b || is_some c).

(** [ReStation]: replaying what was interrupted by a crash. *)
Definition db_compensate_last (lunit : option UnitId) : J W unit :=
  match lunit with
  | Some unit_id => JobManagerData.rentry_trigger_merge unit_id true
  | None => mret tt
  end.

Definition db_compensate_history : J W unit :=
  re ← mgets st_re;
  mforeach (λ unit_id, JobManagerData.rentry_trigger_merge unit_id false) (JobRe.trigger_keys re).

Definition do_compensate_last (n fuel : nat) (lunit : option UnitId) : J W unit :=
  match lunit with
  | Some unit_id => trigger_unit n fuel unit_id
  | None => mret tt
  end.

Definition do_compensate_others (n fuel : nat) (lunit : option UnitId) : J W unit :=
  re ← mgets st_re;
  mforeach (λ unit_id,
    if decide (Some unit_id ≠ lunit) then trigger_unit n fuel unit_id else mret tt)
    (JobRe.trigger_keys re).
End manager.
End JobManager.
