(* ===== verification/JobSample.v ===== *)
(** * Concrete engines

    A dependency graph given as a list of edges and an empty engine over target
    units: what the concrete runs (the witnesses) start from. *)
From S2P Require Import Prelude UnitTypes ReDb UnitDb RateLimit Condition UnitEntry Target.
From S2P Require Import JobRentry JobData JobStat JobStore JobEntry JobUnit JobTable JobTrans.
From S2P Require Import JobNotify JobManager.

Definition edges_gets (edges : list (UnitId * UnitRelationAtom * UnitId)) (s : UnitId)
    (a : UnitRelationAtom) : list UnitId :=
  (λ e, e.2) <$> filter (λ e, e.1 = (s, a)) edges.

Program Definition edges_UnitDb (units : list UnitId)
    (edges : list (UnitId * UnitRelationAtom * UnitId)) : UnitDb := {|
  dep_gets_atom := edges_gets edges;
  dep_is_dep_atom_with s a t := bool_decide (t ∈ edges_gets edges s a);
  units_get_all := units;
  units_get u := if decide (u ∈ units) then Some u else None;
|}.
Next Obligation. intros. by rewrite bool_decide_eq_true. Qed.
Next Obligation. intros units edges u v. simpl. case_decide; naive_solver. Qed.

(** An engine with no job, over units that satisfy [Unit] each by name. *)
Definition store_new {W} (units : Units W) : Store W := {|
  st_heap := ∅; st_uvs := ∅; st_next_uv := 0%N; st_re := JobRe_new; st_units := units;
  st_timers := []; st_last_unit := None; st_ja := JobAllocData_new;
  st_jobs := JobTable_new; st_stage := JobTable_new;
  st_enabled := false; st_running := false; st_text := None; st_stat := JobStatData_new |}.

Definition sample_store : Store Targets := store_new sample_units.
