(* ===== verification/JobEntryFacts.v ===== *)
(** * Facts about jobs

    The order of two jobs, the run kinds of a job, the persisted tables along a
    job's life, the allocation of ids ([JobEntry.v]). *)
From S2P Require Import Prelude UnitTypes ReDb UnitDb RateLimit Condition UnitEntry Target.
From S2P Require Import JobRentry JobData JobStat JobStore JobEntry JobUnit JobTable JobTrans.
From S2P Require Import JobNotify JobManager JobSample.

(** ** Order *)

(** Whether job [a] of a unit must wait for job [b] of a unit it comes after,
    and whether [b] must wait for [a]: the two questions the ready queue asks. *)
Definition waits_after (a b : JobKind) : bool := (0 <? job_order_compare a b UnitAtomAfter)%Z.
Definition waits_before (b a : JobKind) : bool := (0 <? job_order_compare b a UnitAtomBefore)%Z.

(** The order of two jobs.  For a unit configured [After=] another, their
    jobs never block each other: of two jobs that both act on their units
    exactly one waits.  The one that waits is the later unit's job, unless that
    job is a stop, which then goes first; a job that does nothing ([Nop]) is
    never waited for. *)
Theorem job_order_exclusive (a b : JobKind) :
  (waits_after a b && waits_before b a = false)
  ∧ (a ≠ Nop → b ≠ Nop → waits_before b a = negb (waits_after a b))
  ∧ waits_after a b = bool_decide (a ≠ Nop ∧ b ≠ Nop ∧ a ≠ Stop)
  ∧ waits_before b a = bool_decide (b ≠ Nop ∧ a = Stop).
Proof. destruct a, b; vm_compute; split_and!; congruence || done. Qed.

Lemma job_order_exclusive_witness : waits_before Start Stop = negb (waits_after Stop Start).
Proof. by apply (job_order_exclusive Stop Start). Defined.

Section entry.
Context `{HI : !HashIter} `{HC : !CondEnv} {W : Type} `{HS : !SubUnits W}.
Implicit Types (s : Store W) (id : JobPtr).

(** ** Run kinds *)

(** The kinds of run a job of a kind goes through. *)
Definition run_kinds (k : JobKind) : list JobKind :=
  match k with Restart => [Stop; Start] | _ => [k] end.
(** Those still to do, the current one first. *)
Definition runs_left (j : Job) : list JobKind :=
  match j_kind j, j_run_kind j with
  | Restart, Stop => [Stop; Start]
  | _, rk => [rk]
  end.
Definition job_ok (j : Job) : Prop := j_run_kind j ∈ run_kinds (j_kind j).

Lemma job_new_ok u k : job_ok (Job.new u k) ∧ runs_left (Job.new u k) = run_kinds k.
Proof. split; [|by destruct k]. unfold job_ok. destruct k; simpl; set_solver. Qed.

(** The tables after a job left its stage for good. *)
Definition re_ended (stage : JobStage) (j : Job) (re : JobRe) : JobRe :=
  if decide (stage = Wait)
  then re_set_suspends (redb_remove (j_unit j, j_kind j) (re_suspends re)) re
  else re_set_trigger (redb_remove (j_unit j) (re_trigger re)) re.

(** [finish] as a function of the job. *)
Definition finish_retry (result : JobResult) (j : Job) : bool :=
  bool_decide (result = Done) && bool_decide (j_run_kind j ≠ job_rkind_map (j_kind j) (j_run_kind j)).
Definition finished (result : JobResult) (j : Job) : Job :=
  set_j_stage (if finish_retry result j then Running else EndWith result)
    (if bool_decide (result = Done)
     then set_j_run_kind (job_rkind_map (j_kind j) (j_run_kind j)) j else j).

Lemma set_heap_heap (h1 h2 : gmap JobPtr Job) s :
  set_st_heap h1 (set_st_heap h2 s) = set_st_heap h1 s.
Proof. done. Qed.
Lemma set_heap_id s : set_st_heap (st_heap s) s = s.
Proof. by destruct s. Qed.
Lemma set_re_id s : set_st_re (st_re s) s = s.
Proof. by destruct s. Qed.

Lemma wp_job_modify_at id f j s (Q : Store W → unit → Prop) :
  st_heap s !! id = Some j →
  Q (set_st_heap (<[id:=f j]> (st_heap s)) s) tt → wp (job_modify id f) s Q.
Proof. intros Hj HQ. apply wp_job_modify. eauto. Qed.
Lemma wp_job_get_at id j s (Q : Store W → Job → Prop) :
  st_heap s !! id = Some j → Q s j → wp (job_get id) s Q.
Proof. intros Hj HQ. apply wp_job_get. eauto. Qed.

Lemma wp_update_runkind id j s (Q : Store W → bool → Prop) :
  st_heap s !! id = Some j →
  Q (set_st_heap (<[id:=set_j_run_kind (job_rkind_map (j_kind j) (j_run_kind j)) j]> (st_heap s)) s)
    (bool_decide (j_run_kind j ≠ job_rkind_map (j_kind j) (j_run_kind j))) →
  wp (Job.update_runkind id) s Q.
Proof.
  intros Hj HQ. unfold Job.update_runkind. j_step. eapply wp_job_get_at; [done|].
  j_step. by eapply wp_job_modify_at.
Qed.

Lemma wp_suspends_remove id j s (Q : Store W → unit → Prop) :
  st_heap s !! id = Some j → Q (set_st_re (re_ended Wait j (st_re s)) s) tt →
  wp (Job.rentry_suspends_remove id) s Q.
Proof.
  intros Hj HQ. unfold Job.rentry_suspends_remove. j_step. eapply wp_job_get_at; [done|].
  unfold JobRe.suspends_remove. by repeat j_step.
Qed.
Lemma wp_trigger_remove id j s (Q : Store W → unit → Prop) :
  st_heap s !! id = Some j → Q (set_st_re (re_ended Running j (st_re s)) s) tt →
  wp (Job.rentry_trigger_remove id) s Q.
Proof.
  intros Hj HQ. unfold Job.rentry_trigger_remove. j_step. eapply wp_job_get_at; [done|].
  unfold JobRe.trigger_remove. by repeat j_step.
Qed.

Lemma re_ended_ext stage j j' re : j_unit j = j_unit j' → j_kind j = j_kind j' →
  re_ended stage j re = re_ended stage j' re.
Proof. intros Hu Hk. unfold re_ended. by rewrite Hu, Hk. Qed.

Lemma wp_job_finish id result j s (Q : Store W → bool → Prop) :
  st_heap s !! id = Some j → j_stage j = Wait ∨ j_stage j = Running →
  Q (set_st_re (if finish_retry result j then st_re s else re_ended (j_stage j) j (st_re s))
      (set_st_heap (<[id:=finished result j]> (st_heap s)) s)) (finish_retry result j) →
  wp (Job.finish id result) s Q.
Proof.
  intros Hj Hst HQ. unfold Job.finish. j_step. eapply wp_job_get_at; [done|].
  do 2 j_step. split; [by destruct Hst as [-> | ->]|]. j_step.
  set (j1 := if bool_decide (result = Done)
             then set_j_run_kind (job_rkind_map (j_kind j) (j_run_kind j)) j else j).
  assert (∀ Q', Q' (set_st_heap (<[id:=j1]> (st_heap s)) s) (finish_retry result j) →
    wp (match result with Done => Job.update_runkind id | _ => mret false end) s Q') as Hretry.
  { intros Q' HQ'. unfold finish_retry, j1 in HQ'.
    destruct result; simpl in HQ'; try (apply wp_ret; by rewrite insert_id, set_heap_id in HQ').
    by eapply wp_update_runkind. }
  apply Hretry. j_step.
  assert (st_heap (set_st_heap (<[id:=j1]> (st_heap s)) s) !! id = Some j1) as Hj1.
  { j_simpl. by rewrite lookup_insert_eq. }
  assert (finished result j = set_j_stage (if finish_retry result j then Running else EndWith result) j1)
    as Hfin by done.
  assert (j_unit j1 = j_unit j ∧ j_kind j1 = j_kind j) as [Hu Hk].
  { unfold j1. by case_bool_decide. }
  destruct (finish_retry result j) eqn:Hr.
  - eapply wp_job_modify_at; [exact Hj1|]. j_step. j_simpl.
    rewrite insert_insert_eq, set_heap_heap, <-Hfin. exact HQ.
  - j_step. eapply wp_job_modify_at; [exact Hj1|].
    j_simpl. rewrite insert_insert_eq, set_heap_heap, <-Hfin.
    destruct Hst as [Hst|Hst]; rewrite Hst in HQ; rewrite Hst;
      [rewrite decide_True by done; eapply wp_suspends_remove
      |rewrite decide_False by done; eapply wp_trigger_remove];
      try (j_simpl; by rewrite lookup_insert_eq); j_step;
      rewrite (re_ended_ext _ _ j) by (rewrite Hfin; done); exact HQ.
Qed.

(** How a job ends.  Ending a waiting or running job never panics and
    changes that job and its table entry only.  It asks for another run exactly
    when a [Restart] has finished its stop with success: then the job stays
    triggered, with the start as the only run left.  Otherwise the job ends with
    the given result and its entry is removed from the table of its stage. *)
Theorem job_finish_spec id j result s :
  st_heap s !! id = Some j → job_ok j → j_stage j = Wait ∨ j_stage j = Running →
  wp (Job.finish id result) s (λ s' retry,
    retry = bool_decide (result = Done ∧ runs_left j = [Stop; Start])
    ∧ ∃ j', s' = set_st_re (if retry then st_re s else re_ended (j_stage j) j (st_re s))
                  (set_st_heap (<[id:=j']> (st_heap s)) s)
      ∧ j_stage j' = (if retry then Running else EndWith result)
      ∧ j_unit j' = j_unit j ∧ j_kind j' = j_kind j ∧ j_attr j' = j_attr j ∧ job_ok j'
      ∧ (if retry then runs_left j' = [Start] else j_run_kind j' = j_run_kind j)).
Proof.
  intros Hj Hok Hst. eapply wp_job_finish; [done|done|].
  assert (finish_retry result j = bool_decide (result = Done ∧ runs_left j = [Stop; Start])) as Hr.
  { unfold finish_retry. rewrite <-bool_decide_and. apply bool_decide_ext.
    unfold job_ok, run_kinds, runs_left in *.
    destruct (j_kind j); set_unfold in Hok; destruct_or?; simplify_eq; rewrite ?Hok;
      naive_solver. }
  split; [done|]. eexists. split; [done|].
  unfold finished. split; [done|]. simpl.
  unfold finish_retry, job_ok, run_kinds, runs_left in *.
  destruct (bool_decide (result = Done)); simpl; [|done].
  destruct (j_kind j); set_unfold in Hok; destruct_or?; simplify_eq; rewrite ?Hok; simpl;
    split_and!; try done; set_solver.
Qed.
(** ** The persisted tables *)

(** Recording is on ([ReDb::set_ignore(false)], the normal mode). *)
Definition re_live (re : JobRe) : Prop :=
  redb_ignore (re_trigger re) = false ∧ redb_ignore (re_suspends re) = false.

(** A waiting job is in the table of the suspended jobs, a running one is the
    trigger of its unit, both with their attributes. *)
Definition job_persisted (j : Job) (re : JobRe) : Prop :=
  match j_stage j with
  | Wait => JobRe.suspends_get (j_unit j) (j_kind j) re = Some (j_attr j)
  | Running => JobRe.trigger_get (j_unit j) re = Some (j_kind j, j_attr j)
  | _ => True
  end.

Lemma wp_suspends_insert id j s (Q : Store W → unit → Prop) :
  st_heap s !! id = Some j → job_is_basic_op (j_kind j) = true →
  Q (set_st_re (re_set_suspends (redb_insert (j_unit j, j_kind j) (j_attr j)
       (re_suspends (st_re s))) (st_re s)) s) tt →
  wp (Job.rentry_suspends_insert id) s Q.
Proof.
  intros Hj Hb HQ. unfold Job.rentry_suspends_insert. j_step. eapply wp_job_get_at; [done|].
  unfold JobRe.suspends_insert. do 2 j_step. by repeat j_step.
Qed.
Lemma wp_trigger_insert id j s (Q : Store W → unit → Prop) :
  st_heap s !! id = Some j → job_is_basic_op (j_kind j) = true →
  Q (set_st_re (re_set_trigger (redb_insert (j_unit j) {| jt_kind := j_kind j; jt_attr := j_attr j |}
       (re_trigger (st_re s))) (st_re s)) s) tt →
  wp (Job.rentry_trigger_insert id) s Q.
Proof.
  intros Hj Hb HQ. unfold Job.rentry_trigger_insert. j_step. eapply wp_job_get_at; [done|].
  unfold JobRe.trigger_insert. do 2 j_step. by repeat j_step.
Qed.

(** Whatever the unit does, running a job's action only changes the units. *)
Lemma wp_job_trigger_unit u rk force s (Q : Store W → Result unit (option JobResult) → Prop) :
  rk ∈ [Start; Stop; Reload; Verify; Nop] →
  (∀ us r, Q (set_st_units us s) r) → wp (job_trigger_unit u rk force) s Q.
Proof.
  intros Hrk HQ. unfold job_trigger_unit. rewrite wp_bind.
  assert (∀ r, wp (mret r) s Q) as Hret.
  { intros r. apply wp_ret. specialize (HQ (st_units s) r). by destruct s. }
  destruct rk; try set_solver; rewrite ?wp_in_units; try (by apply wp_ret); try done.
Qed.

(** The kinds [run] can be called with. *)
Lemma job_ok_run_kind j : job_ok j → job_is_basic_op (j_kind j) = true →
  j_run_kind j ∈ [Start; Stop; Reload; Verify; Nop].
Proof. unfold job_ok, run_kinds. destruct (j_kind j); simpl; set_solver. Qed.

Lemma wp_job_run id j s (Q : Store W → Result unit (option JobResult) → Prop) :
  st_heap s !! id = Some j → j_stage j = Wait ∨ j_stage j = Running →
  job_ok j → job_is_basic_op (j_kind j) = true →
  (∀ us ts r,
     let re := st_re s in
     let re' := if decide (j_stage j = Wait) then
        re_set_trigger (redb_insert (j_unit j) {| jt_kind := j_kind j; jt_attr := j_attr j |}
          (re_trigger re)) (re_ended Wait j re) else re in
     Q (set_st_units us (set_st_re re' (set_st_last_unit (Some (j_unit j)) (set_st_timers ts
          (set_st_heap (<[id:=set_j_stage Running j]> (st_heap s)) s))))) r) →
  wp (Job.run id) s Q.
Proof.
  intros Hj Hst Hok Hb HQ. unfold Job.run. j_step. eapply wp_job_get_at; [done|].
  do 2 j_step. split; [by destruct Hst as [-> | ->]|]. j_step. eapply wp_job_modify_at; [done|].
  set (s1 := set_st_heap _ s).
  assert (st_heap s1 !! id = Some (set_j_stage Running j)) as Hj1.
  { simpl. by rewrite lookup_insert_eq. }
  j_step. j_step.
  assert (∀ ts, wp (mwhen (bool_decide (j_stage j = Wait))
      (Job.rentry_suspends_remove id;; Job.rentry_trigger_insert id))
      (set_st_last_unit (Some (j_unit j)) (set_st_timers ts s1))
      (λ s' _, wp (job_trigger_unit (j_unit j) (j_run_kind j) (force (j_attr j))) s' Q)) as Hrest.
  { intros ts. rewrite wp_mwhen. case_bool_decide as Hw.
    - j_step. eapply wp_suspends_remove; [exact Hj1|]. eapply wp_trigger_insert; [exact Hj1|done|].
      apply wp_job_trigger_unit; [by apply job_ok_run_kind|]. intros us r.
      specialize (HQ us ts r). cbn zeta in HQ. rewrite decide_True in HQ by done. exact HQ.
    - apply wp_job_trigger_unit; [by apply job_ok_run_kind|]. intros us r.
      specialize (HQ us ts r). cbn zeta in HQ. rewrite decide_False in HQ by done. exact HQ. }
  destruct (negb (j_timer j =? 0)%Z); repeat first [rewrite wp_mmodify | rewrite wp_bind].
  - apply Hrest.
  - exact (Hrest (st_timers s1)).
Qed.

(** The steps of a job's life. *)
Inductive job_op := OpWait | OpRun | OpFinish (result : JobResult).
Definition job_do (op : job_op) id : J W unit :=
  match op with
  | OpWait => Job.wait id
  | OpRun => Job.run id;; mret tt
  | OpFinish result => Job.finish id result;; mret tt
  end.
Definition op_allowed (op : job_op) (j : Job) : Prop :=
  match op with
  | OpWait => j_stage j = Init
  | OpRun => j_stage j = Wait ∨ j_stage j = Running
  | OpFinish result => j_stage j = Wait ∧ result ≠ Done ∨ j_stage j = Running
  end.

(** What a restarted manager makes of the tables, for a job of this unit and
    kind: [rentry_map_suspend] and [rentry_map_trigger] rebuild the job in the
    stage and with the attributes it had; an ended job is in no table. *)
Definition restart_recovers (j : Job) (re : JobRe) : Prop :=
  ∀ s2 id2, st_re s2 = re → st_heap s2 !! id2 = Some (Job.new (j_unit j) (j_kind j)) →
  let same s3 := ∃ j3, st_heap s3 !! id2 = Some j3 ∧ j_unit j3 = j_unit j ∧ j_kind j3 = j_kind j
                       ∧ j_stage j3 = j_stage j ∧ j_attr j3 = j_attr j in
  match j_stage j with
  | Wait => wp (Job.rentry_map_suspend id2) s2 (λ s3 _, same s3)
  | Running => wp (Job.rentry_map_trigger id2) s2 (λ s3 _, same s3)
  | _ => True
  end.

Lemma persisted_recovers j re : job_persisted j re → restart_recovers j re.
Proof.
  intros Hp s2 id2 Hre Hj2. cbn zeta. unfold job_persisted in Hp. rewrite <-Hre in Hp.
  destruct (j_stage j) eqn:Hst; try done.
  - unfold Job.rentry_map_suspend. j_step. eapply wp_job_get_at; [done|]. do 2 j_step.
    j_step. j_step. eexists. split; [exact Hp|]. j_step. eapply wp_job_modify_at; [done|].
    eapply wp_job_modify_at; [j_simpl; by rewrite lookup_insert_eq|].
    eexists. j_simpl. by rewrite lookup_insert_eq.
  - unfold Job.rentry_map_trigger. j_step. eapply wp_job_get_at; [done|]. do 2 j_step.
    j_step. j_step. eexists. split; [exact Hp|]. simpl. do 2 j_step.
    split; [by apply bool_decide_eq_true|]. j_step. eapply wp_job_modify_at; [done|].
    eapply wp_job_modify_at; [j_simpl; by rewrite lookup_insert_eq|].
    eexists. j_simpl. by rewrite lookup_insert_eq.
Qed.

Lemma re_ended_get stage j re : re_live re → stage = Wait ∨ stage = Running →
  re_live (re_ended stage j re)
  ∧ match stage with
    | Wait => JobRe.suspends_get (j_unit j) (j_kind j) (re_ended stage j re) = None
    | _ => JobRe.trigger_get (j_unit j) (re_ended stage j re) = None
    end.
Proof.
  intros [Ht Hs] Hst. unfold re_ended, re_live, JobRe.suspends_get, JobRe.trigger_get, redb_get.
  destruct Hst as [-> | ->]; simpl; rewrite redb_remove_ignore, redb_remove_cache by done;
    by rewrite lookup_delete_eq.
Qed.

(** C25: a job across a crash.  Along every step of its life (wait, run whatever
    the unit does, finish with whatever result; a job that has not run is never finished as
    done) a basic job keeps its table
    entry in step with its stage: a manager restarted right after the step
    rebuilds the job in the same stage with the same attributes, and a job that
    has ended is gone from the table of its former stage. *)
Theorem job_restart_recovers op id j s :
  st_heap s !! id = Some j → job_ok j → job_is_basic_op (j_kind j) = true →
  re_live (st_re s) → job_persisted j (st_re s) → op_allowed op j →
  wp (job_do op id) s (λ s1 _, ∃ j1,
    st_heap s1 !! id = Some j1 ∧ j_unit j1 = j_unit j ∧ j_kind j1 = j_kind j
    ∧ j_attr j1 = j_attr j ∧ j_stage j1 ≠ Init
    ∧ re_live (st_re s1) ∧ restart_recovers j1 (st_re s1)
    ∧ match j_stage j1, j_stage j with
      | EndWith _, Wait => JobRe.suspends_get (j_unit j) (j_kind j) (st_re s1) = None
      | EndWith _, _ => JobRe.trigger_get (j_unit j) (st_re s1) = None
      | _, _ => True
      end).
Proof.
  intros Hj Hok Hb Hlive Hp Hop. destruct op as [| |result]; simpl in *.
  - unfold Job.wait. j_step. eapply wp_job_get_at; [done|]. do 2 j_step. rewrite Hop. split; [done|].
    j_step. eapply wp_job_modify_at; [done|].
    eapply wp_suspends_insert; [j_simpl; by rewrite lookup_insert_eq|done|].
    eexists. j_simpl. rewrite lookup_insert_eq. split_and!; try done.
    + split; simpl; rewrite ?redb_insert_ignore; apply Hlive.
    + apply persisted_recovers. unfold job_persisted, JobRe.suspends_get, redb_get. simpl.
      rewrite redb_insert_cache by apply Hlive. by rewrite lookup_insert_eq.
  - rewrite wp_bind. eapply wp_job_run; [done..|]. intros us ts r. cbn zeta. apply wp_ret.
    eexists. j_simpl. rewrite lookup_insert_eq. split_and!; try done.
    + case_decide; [|done]. destruct (re_ended_get Wait j _ Hlive (or_introl eq_refl)) as [[? ?] _].
      split; simpl; by rewrite ?redb_insert_ignore.
    + apply persisted_recovers. unfold job_persisted, JobRe.trigger_get, redb_get in *. simpl.
      case_decide; simpl.
      * destruct (re_ended_get Wait j _ Hlive (or_introl eq_refl)) as [[? _] _].
        rewrite redb_insert_cache by apply Hlive. by rewrite lookup_insert_eq.
      * destruct Hop as [?|Hst]; [done|]. by rewrite Hst in Hp.
  - assert (j_stage j = Wait ∨ j_stage j = Running) as Hst by tauto.
    rewrite wp_bind. eapply wp_job_finish; [done..|]. apply wp_ret.
    eexists. j_simpl. rewrite lookup_insert_eq.
    destruct (re_ended_get _ j _ Hlive Hst) as [Hlive' Hgone].
    assert (∀ b : bool, j_attr (if b then set_j_run_kind (job_rkind_map (j_kind j) (j_run_kind j)) j else j)
      = j_attr j) as Hattr by (by intros []).
    unfold finished. split_and!; try done; try (by case_bool_decide); simpl.
    + by destruct (finish_retry result j).
    + by destruct (finish_retry result j).
    + destruct (finish_retry result j) eqn:Hr.
      * apply persisted_recovers. unfold job_persisted in *. simpl.
        unfold finish_retry in Hr. apply andb_true_iff in Hr as [Hd%bool_decide_eq_true _].
        rewrite (bool_decide_true _ Hd). destruct Hop as [[_ ?]|Hrun]; [done|]. by rewrite Hrun in Hp.
      * by intros ? ? ? ?.
    + destruct (finish_retry result j); [done|]. by destruct Hst as [Hst|Hst]; rewrite Hst in *.
Qed.

(** ** Allocation *)

(** The allocator's ids are [u32] values and cover every job in the heap. *)
Record alloc_ok s : Prop := {
  ao_range : ∀ id, id ∈ ids (st_ja s) → (0 <= id <= u32_max)%Z;
  ao_last : (0 <= last_id (st_ja s) <= u32_max)%Z;
  ao_heap : ∀ id, is_Some (st_heap s !! id) → id ∈ ids (st_ja s);
}.
(** An id is left. *)
Definition alloc_left s : Prop := (Z.of_nat (size (ids (st_ja s))) < 2 ^ 32)%Z.

Lemma wrap_u32_range z : (0 <= wrap_u32 z <= u32_max)%Z.
Proof. unfold wrap_u32, u32_max. pose proof (Z.mod_pos_bound z (2 ^ 32)). lia. Qed.

(** A loop that runs out of fuel has met a taken id at every turn. *)
Lemma alloc_id_loop_none n a : JobAlloc.alloc_id_loop n a = None →
  ∀ i, i < n → wrap_u32 (last_id a + 1 + Z.of_nat i) ∈ ids a.
Proof.
  revert a. induction n as [|n IH]; intros a Hn i Hi; [lia|]. simpl in Hn.
  case_decide as Hin; [|done]. destruct i as [|i]; [by rewrite Z.add_0_r|].
  specialize (IH _ Hn i ltac:(lia)). simpl in IH.
  replace (wrap_u32 (last_id a + 1 + Z.of_nat (S i)))
    with (wrap_u32 (wrap_u32 (last_id a + 1) + 1 + Z.of_nat i)); [done|].
  unfold wrap_u32. rewrite <-Z.add_assoc, Zplus_mod_idemp_l. f_equal. lia.
Qed.

Lemma alloc_id_loop_some n a a' id : JobAlloc.alloc_id_loop n a = Some (a', id) →
  id ∉ ids a ∧ a' = {| ids := {[id]} ∪ ids a; last_id := id |} ∧ (0 <= id <= u32_max)%Z.
Proof.
  revert a. induction n as [|n IH]; intros a Hn; simpl in Hn; [done|].
  case_decide as Hin.
  - apply IH in Hn as (? & -> & ?). simpl in *. done.
  - simplify_eq. split_and!; [done|done|apply wrap_u32_range..].
Qed.

Lemma alloc_id_loop_total a : (Z.of_nat (size (ids a)) < 2 ^ 32)%Z →
  ∃ a' id, JobAlloc.alloc_id_loop (S (size (ids a))) a = Some (a', id).
Proof.
  intros Hsz. destruct (JobAlloc.alloc_id_loop (S (size (ids a))) a) as [[a' id]|] eqn:Hn; [eauto|].
  exfalso. pose proof (alloc_id_loop_none _ _ Hn) as Hall.
  set (f i := wrap_u32 (last_id a + 1 + Z.of_nat i)) in *.
  set (l := f <$> seq 0 (S (size (ids a)))).
  assert (NoDup l) as Hnd.
  { apply NoDup_fmap_2_strong; [|apply NoDup_seq]. intros x y Hx Hy Hf.
    apply elem_of_seq in Hx, Hy. unfold f, wrap_u32 in Hf.
    assert ((Z.of_nat x - Z.of_nat y) mod 2 ^ 32 = 0)%Z as Hm.
    { replace (Z.of_nat x - Z.of_nat y)%Z
        with ((last_id a + 1 + Z.of_nat x) - (last_id a + 1 + Z.of_nat y))%Z by lia.
      rewrite Zminus_mod, Hf, Z.sub_diag. done. }
    apply Z.mod_divide in Hm as [q Hq]; [|lia]. nia. }
  assert (list_to_set l ⊆@{gset Z} ids a) as Hsub.
  { intros z Hz. apply elem_of_list_to_set, list_elem_of_fmap in Hz as (i & -> & Hi).
    apply elem_of_seq in Hi. apply Hall. lia. }
  apply subseteq_size in Hsub. rewrite size_list_to_set in Hsub by done.
  unfold l in Hsub. rewrite length_fmap, length_seq in Hsub. lia.
Qed.

(** What an allocation does to the store. *)
Definition allocated (config : JobConf) (a' : JobAllocData) id (t : Z) s : Store W :=
  set_st_heap (<[id:=set_j_timer t (Job.new (jc_unit config) (jc_kind config))]> (st_heap s))
    (set_st_ja a' s).

Lemma wp_job_alloc config s (Q : Store W → JobPtr → Prop) : alloc_ok s → alloc_left s →
  (∀ id t,
     let s' := allocated config {| ids := {[id]} ∪ ids (st_ja s); last_id := id |} id t s in
     id ∉ ids (st_ja s) → st_heap s !! id = None → (0 <= id <= u32_max)%Z → alloc_ok s' → Q s' id) →
  wp (JobAlloc.alloc config) s Q.
Proof.
  intros [Hr Hl Hh] Hleft HQ. unfold JobAlloc.alloc, JobAlloc.alloc_id.
  destruct (alloc_id_loop_total _ Hleft) as (a' & id & Hloop).
  destruct (alloc_id_loop_some _ _ _ _ Hloop) as (Hfresh & -> & Hid).
  assert (st_heap s !! id = None) as Hnone.
  { apply eq_None_not_Some. intros Hs. by apply Hfresh, Hh. }
  do 2 j_step. j_step. rewrite Hloop. do 3 j_step. j_step. j_step.
  set (j0 := Job.new _ _). set (s1 := set_st_heap _ _).
  assert (∀ t, alloc_ok (allocated config {| ids := {[id]} ∪ ids (st_ja s); last_id := id |} id t s))
    as Hok.
  { intros t. split; simpl.
    - set_solver.
    - done.
    - intros i. rewrite lookup_insert_is_Some. set_solver. }
  unfold Job.set_timer. do 2 j_step. eapply wp_job_get_at; [by simpl; rewrite lookup_insert_eq|].
  do 2 j_step. case_match.
  - do 2 j_step. by apply (HQ id 0%Z).
  - eapply wp_job_modify_at; [by simpl; rewrite lookup_insert_eq|]. j_step.
    set (t := wrap_u64 _).
    assert (set_st_heap (<[id:=set_j_timer t j0]> (st_heap s1)) s1
            = allocated config {| ids := {[id]} ∪ ids (st_ja s); last_id := id |} id t s) as ->.
    { unfold allocated, s1. simpl. by rewrite insert_insert_eq. }
    by apply HQ.
Qed.

(** Allocating a job.  While fewer than [2^32] ids are taken the allocator's
    loop ends, within one turn more than there are taken ids, and yields a fresh
    job: its id is a [u32] no other job has or had, it is in its initial state,
    and no other job and no table changes. *)
Theorem job_alloc_fresh config s : alloc_ok s → alloc_left s →
  wp (JobAlloc.alloc config) s (λ s' id, ∃ t,
    s' = allocated config {| ids := {[id]} ∪ ids (st_ja s); last_id := id |} id t s
    ∧ id ∉ ids (st_ja s) ∧ st_heap s !! id = None ∧ (0 <= id <= u32_max)%Z ∧ alloc_ok s').
Proof.
  intros Hok Hleft. apply wp_job_alloc; [done..|]. intros id t s' ? ? ? ?. by exists t.
Qed.

(** The allocator never takes an id back, so once all [2^32] ids have been
    handed out its loop does not end, whatever the fuel: the next job request
    hangs the manager. *)
Theorem alloc_id_exhausted fuel a :
  (∀ id, (0 <= id <= u32_max)%Z → id ∈ ids a) → JobAlloc.alloc_id_loop fuel a = None.
Proof.
  revert a. induction fuel as [|fuel IH]; intros a Hall; [done|]. simpl.
  rewrite decide_True by apply Hall, wrap_u32_range. by apply IH.
Qed.
End entry.

(** ** Concrete runs *)
#[local] Existing Instance hash_iter_canonical.
#[local] Existing Instance cond_env_sample.

Definition restart_conf : JobConf := {| jc_unit := "a.target"; jc_kind := Restart |}.

Lemma alloc_ok_sample : alloc_ok sample_store ∧ alloc_left sample_store.
Proof.
  split; [split; simpl; [set_solver|by vm_compute; split; congruence|]|done].
  intros id [? Hid]. by rewrite lookup_empty in Hid.
Qed.

Lemma job_alloc_fresh_witness :
  wp (JobAlloc.alloc restart_conf) sample_store
    (λ s' id, id ∉ ids (st_ja sample_store) ∧ alloc_ok s').
Proof.
  eapply wp_mono; [apply (job_alloc_fresh restart_conf sample_store); apply alloc_ok_sample|].
  intros s' id (t & _ & Hid & _ & _ & Hok). by split.
Defined.

(** All ids taken. *)
Definition all_ids : gset Z := list_to_set (seqZ 0 (2 ^ 32)).
Lemma elem_of_all_ids id : (0 <= id <= u32_max)%Z → id ∈ all_ids.
Proof.
  unfold u32_max, all_ids. intros Hid. apply elem_of_list_to_set, elem_of_seqZ. lia.
Qed.

Lemma alloc_id_exhausted_witness :
  ∃ a : JobAllocData, (∀ id, (0 <= id <= u32_max)%Z → id ∈ ids a)
    ∧ JobAlloc.alloc_id_loop 10 a = None.
Proof.
  exists {| ids := all_ids; last_id := 0 |}.
  split; [exact elem_of_all_ids|]. apply alloc_id_exhausted. exact elem_of_all_ids.
Defined.

(** A waiting restart job, recorded in the table. *)
Definition restart_job : Job := set_j_stage Wait (Job.new "a.target" Restart).
Definition restart_store (stage : JobStage) : Store Targets :=
  set_st_heap {[1%Z := set_j_stage stage (Job.new "a.target" Restart)]}
    (set_st_re {| re_trigger := redb_insert "a.target" {| jt_kind := Restart;
                    jt_attr := JobAttr_new false false false false |} ReDb_new;
                  re_suspends := redb_insert ("a.target", Restart)
                    (JobAttr_new false false false false) ReDb_new |} sample_store).

(** The stop of a restart has succeeded: the start is left. *)
Lemma job_finish_spec_witness :
  wp (Job.finish 1 Done) (restart_store Running) (λ s' retry, retry = true).
Proof.
  eapply wp_mono.
  - apply (job_finish_spec 1 (set_j_stage Running (Job.new "a.target" Restart)) Done
      (restart_store Running)); [done| |by right]. unfold job_ok; simpl. set_solver.
  - intros s' retry [-> _]. done.
Defined.

Lemma job_restart_recovers_witness :
  wp (job_do OpRun 1) (restart_store Wait)
    (λ s1 _, ∃ j1, st_heap s1 !! 1%Z = Some j1 ∧ restart_recovers (W := Targets) j1 (st_re s1)).
Proof.
  eapply wp_mono.
  - apply (job_restart_recovers OpRun 1 restart_job (restart_store Wait)); try done.
    + unfold job_ok; simpl. set_solver.
    + by left.
  - intros s1 [] (j1 & ? & _ & _ & _ & _ & _ & ? & _). eauto.
Defined.
