(* ===== verification/JobUnitFacts.v ===== *)
(** * Facts about the jobs of one unit

    The invariant of [JobUnitData], what reshuffling and triggering do, and that
    every operation keeps the invariant ([JobUnit.v]). *)
From S2P Require Import Prelude UnitTypes ReDb UnitDb RateLimit Condition UnitEntry Target.
From S2P Require Import JobRentry JobData JobStat JobStore JobEntry JobUnit JobTable JobTrans.
From S2P Require Import JobNotify JobManager JobSample JobEntryFacts.

(** ** The functions behind the operations *)

(** What [calc_ready] returns when its asserts hold. *)
Definition ready_val (d : JobUnitData) : option bool :=
  if order d && negb (pause d) then
    match trigger d, sq d with
    | Some _, _ :: _ =>
      if interrupt d then Some true else if retrigger d then Some false else None
    | Some _, [] => if retrigger d then Some false else None
    | None, _ :: _ => Some true
    | None, [] => None
    end
  else None.
Definition ready_of (d : JobUnitData) : bool := is_some (ready_val d).
(** Its asserts: an interrupt needs both sides. *)
Definition ready_safe (d : JobUnitData) : Prop :=
  order d = true → pause d = false → interrupt d = true →
  match trigger d, sq d with Some _, [] | None, _ :: _ => False | _, _ => True end.
Definition norm (d : JobUnitData) : JobUnitData := set_ready (ready_of d) d.

(** The suspended jobs left by the merge: [Restart] absorbs [Start] and
    [Reload]; of [Start] and [Reload], the unit's state picks one. *)
Definition merged_suspends (active : bool) (m : gmap JobKind JobPtr) : gmap JobKind JobPtr :=
  if is_some (m !! Stop) then m else
  if is_some (m !! Restart) then delete Reload (delete Start m) else
  if is_some (m !! Start) && is_some (m !! Reload)
  then if active then delete Start m else delete Reload m
  else m.
(** The queue: the stop alone, or one mutating job, then verify, then nop. *)
Definition sq_of (m : gmap JobKind JobPtr) : list JobPtr :=
  if is_some (m !! Stop) then option_list (m !! Stop)
  else omap (λ k, m !! k) [Restart; Start; Reload; Verify; Nop].

Lemma is_some_iff {A} (o : option A) : is_some o = true ↔ ∃ a, o = Some a.
Proof. rewrite bool_decide_eq_true. done. Qed.

Lemma is_some_None {A} : is_some (@None A) = false.
Proof. done. Qed.
Lemma is_some_Some {A} (a : A) : is_some (Some a) = true.
Proof. done. Qed.

Lemma num_others_delete d :
  JobUnitData.num_others d = size (delete Stop (delete Nop (suspends d))).
Proof.
  unfold JobUnitData.num_others, JobUnitData.suspends_kind_len.
  rewrite !map_size_delete, lookup_delete_ne by done.
  destruct (suspends d !! Stop) eqn:Hs, (suspends d !! Nop) eqn:Hn; simpl; lia.
Qed.

Lemma suspends_conflict_spec d : JobUnitData.is_suspends_conflict d = true ↔
  (∃ i, suspends d !! Stop = Some i) ∧ ∃ k i, suspends d !! k = Some i ∧ k ≠ Stop ∧ k ≠ Nop.
Proof.
  unfold JobUnitData.is_suspends_conflict. rewrite andb_true_iff, !Nat.ltb_lt, num_others_delete.
  apply ZifyClasses.and_morph.
  - unfold JobUnitData.suspends_kind_len. destruct (suspends d !! Stop) eqn:Hs; simpl; [|naive_solver lia].
    split; [eauto|lia].
  - rewrite <-Nat.neq_0_lt_0, map_size_ne_0_lookup. apply exist_proper. intros k.
    split.
    + intros [i Hi]. apply lookup_delete_Some in Hi as [? Hi].
      apply lookup_delete_Some in Hi as [? Hi]. eauto.
    + intros (i & Hi & ? & ?). exists i. by rewrite !lookup_delete_ne.
Qed.

Section junit.
Context `{HI : !HashIter} `{HC : !CondEnv} {W : Type} `{HS : !SubUnits W}.
Implicit Types (s : Store W) (p : UvPtr) (d : JobUnitData) (id : JobPtr).

(** ** Steps *)
Definition upd_uv p d s : Store W := set_st_uvs (<[p:=d]> (st_uvs s)) s.

Lemma upd_uv_upd p d d' s : upd_uv p d (upd_uv p d' s) = upd_uv p d s.
Proof. unfold upd_uv. simpl. by rewrite insert_insert_eq. Qed.
Lemma lookup_upd_uv p d s : st_uvs (upd_uv p d s) !! p = Some d.
Proof. apply lookup_insert_eq. Qed.

Lemma wp_uv_modify_at p f d s (Q : Store W → unit → Prop) :
  st_uvs s !! p = Some d → Q (upd_uv p (f d) s) tt → wp (uv_modify p f) s Q.
Proof. intros Hd HQ. apply wp_uv_modify. eauto. Qed.
Lemma wp_uv_get_at p d s (Q : Store W → JobUnitData → Prop) :
  st_uvs s !! p = Some d → Q s d → wp (uv_get p) s Q.
Proof. intros Hd HQ. apply wp_uv_get. eauto. Qed.

Lemma wp_calc_ready d s (Q : Store W → option bool → Prop) :
  ready_safe d → Q s (ready_val d) → wp (JobUnitData.calc_ready d) s Q.
Proof.
  intros Hsafe HQ. unfold ready_safe, ready_val in *.
  unfold JobUnitData.calc_ready, JobUnitData.calc_natural_ready, JobUnitData.calc_natural_ready_ts,
    JobUnitData.calc_natural_ready_t, JobUnitData.calc_natural_ready_s.
  destruct (pause d); simpl; [by rewrite andb_false_r in HQ|].
  destruct (order d); simpl in *; [|done]. specialize (Hsafe eq_refl eq_refl).
  destruct (trigger d), (sq d), (interrupt d); try done; by destruct Hsafe.
Qed.

Lemma wp_update_ready p d s (Q : Store W → unit → Prop) :
  st_uvs s !! p = Some d → ready_safe d → Q (upd_uv p (norm d) s) tt →
  wp (JobUnitData.update_ready p) s Q.
Proof.
  intros Hd Hs HQ. unfold JobUnitData.update_ready. j_step. eapply wp_uv_get_at; [done|].
  j_step. apply wp_calc_ready; [done|].
  by eapply wp_uv_modify_at.
Qed.

Lemma wp_make_dirty p d s (Q : Store W → unit → Prop) :
  st_uvs s !! p = Some d → ready_safe d → Q (upd_uv p (norm (set_dirty true d)) s) tt →
  wp (JobUnitData.make_dirty p) s Q.
Proof.
  intros Hd Hs HQ. unfold JobUnitData.make_dirty. j_step. eapply wp_uv_modify_at; [done|].
  eapply wp_update_ready; [apply lookup_upd_uv|done|]. by rewrite upd_uv_upd.
Qed.

(** Finishing a list of waiting jobs. *)
Lemma wp_finish_all jobs r s (Q : Store W → unit → Prop) :
  r ≠ Done → NoDup jobs →
  (∀ id, id ∈ jobs → ∃ j, st_heap s !! id = Some j ∧ j_stage j = Wait) →
  (∀ h re, (∀ id, h !! id = if decide (id ∈ jobs) then set_j_stage (EndWith r) <$> st_heap s !! id
                            else st_heap s !! id) →
     Q (set_st_re re (set_st_heap h s)) tt) →
  wp (mforeach (λ job, Job.finish job r;; mret tt) jobs) s Q.
Proof.
  intros Hr. revert s. induction jobs as [|id jobs IH]; intros s Hnd Hw HQ; simpl.
  { specialize (HQ (st_heap s) (st_re s)). rewrite wp_ret. destruct s. apply HQ. intros. done. }
  apply NoDup_cons in Hnd as [Hid Hnd].
  destruct (Hw id) as (j & Hj & Hst); [set_solver|].
  rewrite !wp_bind. eapply wp_job_finish; [done|by left|]. rewrite wp_ret.
  assert (finished r j = set_j_stage (EndWith r) j) as ->.
  { unfold finished, finish_retry. by rewrite bool_decide_false. }
  apply IH; [done| |].
  - intros id' Hin. simpl. rewrite lookup_insert_ne by set_solver. apply Hw. set_solver.
  - intros h re Hh. apply (HQ h re). intros id'. rewrite Hh. simpl.
    rewrite lookup_insert. destruct (decide (id = id')) as [<-|Hne].
    + rewrite decide_False, decide_True, Hj by (done || by left). done.
    + rewrite (decide_ext (id' ∈ id :: jobs) (id' ∈ jobs)); [done|].
      rewrite elem_of_cons. naive_solver.
Qed.

Lemma upd_uv_id p d s : st_uvs s !! p = Some d → upd_uv p d s = s.
Proof. intros Hd. unfold upd_uv. rewrite insert_id by done. by destruct s. Qed.
Lemma set_sq_id d : set_sq (sq d) d = d.
Proof. by destruct d. Qed.
Lemma set_suspends_id d : set_suspends (suspends d) d = d.
Proof. by destruct d. Qed.

(** ** Reshuffling *)

(** The jobs merged away, in the order they are collected. *)
Definition merged_jobs (active : bool) (m : gmap JobKind JobPtr) : list JobPtr :=
  if is_some (m !! Stop) then [] else
  if is_some (m !! Restart) then option_list (m !! Start) ++ option_list (m !! Reload) else
  if is_some (m !! Start) && is_some (m !! Reload)
  then if active then option_list (m !! Start) else option_list (m !! Reload)
  else [].

Lemma wp_jobs_suspends_remove p d kind l s (Q : Store W → list JobPtr → Prop) :
  st_uvs s !! p = Some d →
  Q (upd_uv p (set_suspends (delete kind (suspends d)) d) s) (l ++ option_list (suspends d !! kind)) →
  wp (JobUnitData.jobs_suspends_remove p kind l) s Q.
Proof.
  intros Hd HQ. unfold JobUnitData.jobs_suspends_remove. j_step. eapply wp_uv_get_at; [done|].
  destruct (suspends d !! kind) as [job|] eqn:Hk; simpl in HQ.
  - j_step. eapply wp_uv_modify_at; [done|]. by rewrite wp_ret.
  - rewrite wp_ret. rewrite (delete_id _ _ Hk), set_suspends_id, app_nil_r, upd_uv_id in HQ; done.
Qed.

Lemma wp_jobs_merge_suspend p d s (Q : Store W → list JobPtr → Prop) :
  let active := is_active_or_reloading (current_active_state (ju_unit d) (st_units s)) in
  st_uvs s !! p = Some d → order d = false →
  Q (upd_uv p (set_suspends (merged_suspends active (suspends d)) d) s)
    (merged_jobs active (suspends d)) →
  wp (JobUnitData.jobs_merge_suspend p []) s Q.
Proof.
  intros active Hd Ho HQ. unfold JobUnitData.jobs_merge_suspend. j_step.
  eapply wp_uv_get_at; [done|]. do 2 j_step. rewrite Ho. split; [done|].
  unfold merged_suspends, merged_jobs in HQ.
  assert (∀ l, Q s l → Q (upd_uv p (set_suspends (suspends d) d) s) l) as _.
  { intros l. by rewrite set_suspends_id, upd_uv_id. }
  destruct (is_some (suspends d !! Stop)); cbn [negb].
  { rewrite wp_ret. by rewrite set_suspends_id, upd_uv_id in HQ. }
  destruct (is_some (suspends d !! Restart)); [|destruct (is_some (suspends d !! Start))];
    [|destruct (is_some (suspends d !! Reload))|].
  - unfold JobUnitData.jobs_ms_start_and_reload. rewrite wp_bind.
    eapply wp_jobs_suspends_remove; [done|]. eapply wp_jobs_suspends_remove; [apply lookup_upd_uv|].
    rewrite upd_uv_upd. simpl. by rewrite lookup_delete_ne.
  - unfold JobUnitData.jobs_ms_start_or_reload, active_state. rewrite wp_bind.
    eapply wp_uv_get_at; [done|]. rewrite wp_bind, wp_mgets. cbn [andb] in HQ. fold active.
    by destruct active; eapply wp_jobs_suspends_remove.
  - cbn [andb] in HQ. rewrite wp_ret. by rewrite set_suspends_id, upd_uv_id in HQ.
  - cbn [andb] in HQ. rewrite wp_ret. by rewrite set_suspends_id, upd_uv_id in HQ.
Qed.

Lemma wp_sq_order_pushback p d kind s (Q : Store W → unit → Prop) :
  st_uvs s !! p = Some d →
  Q (upd_uv p (set_sq (sq d ++ option_list (suspends d !! kind)) d) s) tt →
  wp (JobUnitData.sq_order_pushback p kind) s Q.
Proof.
  intros Hd HQ. unfold JobUnitData.sq_order_pushback. j_step. eapply wp_uv_get_at; [done|].
  destruct (suspends d !! kind); simpl in HQ; [by eapply wp_uv_modify_at|].
  by rewrite app_nil_r, set_sq_id, upd_uv_id in HQ.
Qed.

(** At most one mutating job: what the merge achieves. *)
Definition one_mutop (m : gmap JobKind JobPtr) : Prop :=
  length (option_list (m !! Restart) ++ option_list (m !! Start) ++ option_list (m !! Reload)) ≤ 1.

Lemma merged_one_mutop active m : m !! Stop = None → one_mutop (merged_suspends active m).
Proof.
  intros Hs. unfold merged_suspends, one_mutop. rewrite Hs. simpl.
  destruct (m !! Restart) eqn:HR, (m !! Start) eqn:HSt, (m !! Reload) eqn:HRe; simpl; 
    try (destruct active); repeat first
      [ rewrite lookup_delete_eq | rewrite lookup_delete_ne by done | rewrite HR | rewrite HSt
      | rewrite HRe ]; simpl; lia.
Qed.

Lemma wp_sq_order p d s (Q : Store W → unit → Prop) :
  st_uvs s !! p = Some d → (suspends d !! Stop = None → one_mutop (suspends d)) →
  Q (upd_uv p (set_sq (sq_of (suspends d)) d) s) tt → wp (JobUnitData.sq_order p) s Q.
Proof.
  intros Hd Hone HQ. unfold JobUnitData.sq_order. rewrite wp_bind.
  eapply wp_uv_modify_at; [done|]. rewrite wp_bind. eapply wp_uv_get_at; [apply lookup_upd_uv|].
  cbn [suspends set_sq]. unfold sq_of in HQ.
  destruct (suspends d !! Stop) as [st|] eqn:Hs; simpl.
  { eapply wp_sq_order_pushback; [apply lookup_upd_uv|]. rewrite upd_uv_upd. simpl. by rewrite Hs. }
  specialize (Hone eq_refl). unfold one_mutop in Hone. rewrite !length_app in Hone.
  do 3 (rewrite wp_bind; eapply wp_sq_order_pushback; [apply lookup_upd_uv|]; rewrite upd_uv_upd).
  rewrite wp_bind. eapply wp_uv_get_at; [apply lookup_upd_uv|].
  rewrite wp_bind, wp_massert. cbn [sq suspends set_sq app]. split.
  { apply Nat.leb_le. rewrite !length_app. unfold JOBUNIT_SQ_MUTOP_MAX_NUM. lia. }
  do 2 (rewrite wp_bind; eapply wp_sq_order_pushback; [apply lookup_upd_uv|]; rewrite upd_uv_upd).
  rewrite wp_bind. eapply wp_uv_get_at; [apply lookup_upd_uv|].
  rewrite wp_massert. cbn [sq suspends set_sq app]. split.
  { apply Nat.leb_le. rewrite !length_app. 
    unfold JOBUNIT_SQ_MAX_NUM. destruct (suspends d !! Verify), (suspends d !! Nop); simpl; lia. }
  simpl in HQ. cbn [sq suspends set_sq app].
  destruct (suspends d !! Restart), (suspends d !! Start), (suspends d !! Reload),
    (suspends d !! Verify), (suspends d !! Nop); exact HQ.
Qed.

(** ** The invariant *)

(** A waiting (respectively running) job of the unit in the heap. *)
Definition job_at (h : gmap JobPtr Job) (u : UnitId) (stage : JobStage) id (j : Job) : Prop :=
  h !! id = Some j ∧ j_unit j = u ∧ j_stage j = stage ∧ job_is_basic_op (j_kind j) = true ∧ job_ok j.

Record junit_inv (h : gmap JobPtr Job) d : Prop := {
  ji_susp : ∀ k id, suspends d !! k = Some id → ∃ j, job_at h (ju_unit d) Wait id j ∧ j_kind j = k;
  ji_trig : ∀ id, trigger d = Some id → ∃ j, job_at h (ju_unit d) Running id j;
  ji_sq : order d = true → NoDup (sq d) ∧ ∀ id, id ∈ sq d → ∃ k, suspends d !! k = Some id;
  ji_int : interrupt d = true → is_Some (trigger d);
  ji_int_sq : interrupt d = true → order d = true → sq d ≠ [];
  ji_retr : retrigger d = true → is_Some (trigger d);
  ji_ready : ready d = ready_of d;
}.

Lemma junit_inv_safe h d : junit_inv h d → ready_safe d.
Proof.
  intros [? ? ? Hi Hsq ? ?] Ho _ Hint. specialize (Hi Hint) as [t ->]. specialize (Hsq Hint Ho).
  by destruct (sq d).
Qed.

Lemma junit_susp_inj h d k k' id : junit_inv h d →
  suspends d !! k = Some id → suspends d !! k' = Some id → k = k'.
Proof.
  intros [Hs _ _ _ _ _ _] Hk Hk'. apply Hs in Hk as (j & (Hj & _) & <-), Hk' as (j' & (Hj' & _) & <-).
  congruence.
Qed.
Lemma junit_susp_trig h d k id : junit_inv h d → suspends d !! k = Some id → trigger d ≠ Some id.
Proof.
  intros [Hs Ht _ _ _ _ _] Hk Htr. apply Hs in Hk as (j & (Hj & _ & Hw & _) & _).
  apply Ht in Htr as (j' & Hj' & _ & Hr & _). congruence.
Qed.

(** The invariant only looks at the jobs of the unit. *)
Lemma junit_inv_heap h h' d : junit_inv h d →
  (∀ k id, suspends d !! k = Some id → h' !! id = h !! id) →
  (∀ id, trigger d = Some id → h' !! id = h !! id) → junit_inv h' d.
Proof.
  intros [Hs Ht ? ? ? ? ?] Hs' Ht'. split; try done.
  - intros k id Hk. unfold job_at. rewrite (Hs' _ _ Hk). by apply Hs.
  - intros id Hk. unfold job_at. rewrite (Ht' _ Hk). by apply Ht.
Qed.

(** ** The queue *)
Lemma NoDup_omap_inj {A B} (f : A → option B) l :
  (∀ x y b, f x = Some b → f y = Some b → x = y) → NoDup l → NoDup (omap f l).
Proof.
  intros Hinj Hnd. induction Hnd as [|x l Hx Hnd IH]; csimpl; [constructor|].
  destruct (f x) as [b|] eqn:Hb; [|done]. constructor; [|done].
  intros Hin. apply list_elem_of_omap in Hin as (y & Hy & Hfy).
  by rewrite (Hinj _ _ _ Hb Hfy) in Hx.
Qed.

Lemma elem_of_sq_of m id : id ∈ sq_of m → ∃ k, m !! k = Some id.
Proof.
  unfold sq_of. case_bool_decide.
  - destruct (m !! Stop) eqn:Hs; simpl; [|set_solver]. intros ->%list_elem_of_singleton. eauto.
  - intros (k & _ & Hk)%list_elem_of_omap. eauto.
Qed.
Lemma NoDup_sq_of m : (∀ k k' id, m !! k = Some id → m !! k' = Some id → k = k') → NoDup (sq_of m).
Proof.
  intros Hinj. unfold sq_of. case_bool_decide.
  - destruct (m !! Stop); simpl; [apply NoDup_singleton|constructor].
  - apply NoDup_omap_inj; [done|]. by apply (bool_decide_unpack _).
Qed.
Lemma sq_of_nil m : (∀ k id, m !! k = Some id → job_is_basic_op k = true) → sq_of m = [] → m = ∅.
Proof.
  intros Hb Hsq. unfold sq_of in Hsq. case_bool_decide as Hs.
  { destruct Hs as [id Hid]. by rewrite Hid in Hsq. }
  apply map_empty. intros k. destruct (m !! k) as [id|] eqn:Hk; [|done]. exfalso.
  apply (f_equal (λ l, id ∈ l)) in Hsq. assert (id ∈ []) as Hin; [|by inversion Hin].
  rewrite <-Hsq. apply list_elem_of_omap. exists k. split; [|done].
  specialize (Hb k id Hk). assert (k ≠ Stop) by (intros ->; by destruct Hs).
  destruct k; try done; set_solver.
Qed.

Lemma merged_lookup active m k id :
  merged_suspends active m !! k = Some id → m !! k = Some id.
Proof.
  unfold merged_suspends.
  destruct (is_some (m !! Stop)), (is_some (m !! Restart)), (is_some (m !! Start)),
    (is_some (m !! Reload)), active; simpl; rewrite ?lookup_delete_Some; tauto.
Qed.
Lemma merged_stop active m : merged_suspends active m !! Stop = m !! Stop.
Proof.
  unfold merged_suspends.
  destruct (is_some (m !! Stop)), (is_some (m !! Restart)), (is_some (m !! Start)),
    (is_some (m !! Reload)), active; simpl; by rewrite ?lookup_delete_ne.
Qed.
Lemma merged_empty active m : merged_suspends active m = ∅ → m = ∅.
Proof.
  unfold merged_suspends. intros Hm.
  destruct (m !! Stop) eqn:Hst; [done|]. simpl in Hm.
  destruct (m !! Restart) eqn:HR; simpl in Hm.
  { apply (f_equal (.!! Restart)) in Hm. rewrite !lookup_delete_ne, HR in Hm by done. done. }
  destruct (m !! Start) eqn:Ha, (m !! Reload) eqn:Hb; simpl in Hm; try done.
  destruct active; apply (f_equal (λ m, (m !! Start, m !! Reload))) in Hm;
    rewrite ?lookup_delete_eq, ?lookup_delete_ne, ?Ha, ?Hb in Hm by done; done.
Qed.
Lemma elem_of_merged_jobs active m id :
  (∀ k k' id, m !! k = Some id → m !! k' = Some id → k = k') →
  id ∈ merged_jobs active m ↔ ∃ k, m !! k = Some id ∧ merged_suspends active m !! k = None.
Proof.
  intros Hinj. unfold merged_jobs, merged_suspends.
  assert (∀ k, id ∈ option_list (m !! k) ↔ m !! k = Some id) as Ho.
  { intros k. destruct (m !! k); simpl; [rewrite list_elem_of_singleton|]; split; try congruence.
    intros Hin. by inversion Hin. }
  assert (¬ (∃ k, m !! k = Some id ∧ m !! k = None)) as Hno by (intros (k & ? & ?); congruence).
  assert (∀ k1, id ∈ option_list (m !! k1) ↔ ∃ k, m !! k = Some id ∧ delete k1 m !! k = None) as H1.
  { intros k1. rewrite Ho. split.
    - intros Hk. exists k1. by rewrite lookup_delete_eq.
    - intros (k & Hk & Hd). apply lookup_delete_None in Hd as [->|Hd]; [done|congruence]. }
  assert (id ∈ [] ↔ ∃ k, m !! k = Some id ∧ m !! k = None) as H0.
  { split; [intros Hin; by inversion Hin|done]. }
  destruct (is_some (m !! Stop)); [done|].
  destruct (is_some (m !! Restart));
    [|destruct (is_some (m !! Start)), (is_some (m !! Reload)), active; simpl; apply H1 || done].
  rewrite elem_of_app, !Ho. split.
  - intros [Hk|Hk]; eexists; (split; [exact Hk|]); rewrite !lookup_delete_None; auto.
  - intros (k & Hk & Hd). rewrite !lookup_delete_None in Hd.
    destruct Hd as [->|[->|Hd]]; auto. congruence.
Qed.
Lemma NoDup_merged_jobs active m :
  (∀ k k' id, m !! k = Some id → m !! k' = Some id → k = k') → NoDup (merged_jobs active m).
Proof.
  intros Hinj. unfold merged_jobs.
  assert (∀ k, NoDup (option_list (m !! k))) as Ho.
  { intros k. destruct (m !! k); simpl; [apply NoDup_singleton|constructor]. }
  destruct (is_some (m !! Stop)); [constructor|].
  destruct (is_some (m !! Restart));
    [|destruct (is_some (m !! Start)), (is_some (m !! Reload)), active; simpl; apply Ho || constructor].
  apply NoDup_app. split_and!; auto.
  intros id. destruct (m !! Start) eqn:Ha, (m !! Reload) eqn:Hb; simpl; try set_solver.
  rewrite !list_elem_of_singleton. intros -> ->. by specialize (Hinj _ _ _ Ha Hb).
Qed.

Lemma set_interrupt_id d : set_interrupt (interrupt d) d = d.
Proof. by destruct d. Qed.

(** Whether the first suspended job may interrupt the triggered one. *)
Definition interrupting (h : gmap JobPtr Job) d : bool :=
  match trigger d, head (sq d) ≫= (h !!.) with
  | Some _, Some j => bool_decide (j_kind j = Stop) || bool_decide (j_kind j = Restart)
  | _, _ => interrupt d
  end.

Lemma wp_merge_trigger_prepare p d s (Q : Store W → unit → Prop) :
  st_uvs s !! p = Some d → order d = true →
  (∀ id, id ∈ sq d → is_Some (st_heap s !! id)) →
  Q (upd_uv p (set_interrupt (interrupting (st_heap s) d) d) s) tt →
  wp (JobUnitData.jobs_merge_trigger_prepare p) s Q.
Proof.
  intros Hd Ho Hsq HQ. unfold JobUnitData.jobs_merge_trigger_prepare, interrupting in *.
  j_step. eapply wp_uv_get_at; [done|]. rewrite wp_bind, wp_massert. split; [done|].
  destruct (trigger d), (sq d) as [|f l] eqn:Hl; simpl in *;
    try (rewrite wp_ret; by rewrite set_interrupt_id, upd_uv_id in HQ).
  destruct (Hsq f) as [j Hj]; [by left|]. rewrite Hj in HQ.
  rewrite wp_bind. eapply wp_job_get_at; [done|]. by eapply wp_uv_modify_at.
Qed.

(** The data after a reshuffle of stale suspended jobs. *)
Definition reshuffled (active : bool) (h : gmap JobPtr Job) d : JobUnitData :=
  let m := merged_suspends active (suspends d) in
  let d1 := set_order true (set_sq (sq_of m) (set_suspends m d)) in
  norm (set_interrupt (interrupting h d1) d1).

Lemma reshuffled_inv active h h' d :
  junit_inv h d → (interrupt d = true → suspends d ≠ ∅) →
  (∀ id, h' !! id = if decide (id ∈ merged_jobs active (suspends d))
                    then set_j_stage (EndWith Merged) <$> h !! id else h !! id) →
  junit_inv h' (reshuffled active h d) ∧ ready_safe (reshuffled active h d).
Proof.
  intros Hinv Hint Hh'. pose proof (λ k k' id, junit_susp_inj h d k k' id Hinv) as Hinj.
  set (m := merged_suspends active (suspends d)).
  assert (∀ k id, m !! k = Some id → h' !! id = h !! id) as Hkeep.
  { intros k id Hk. rewrite Hh', decide_False; [done|]. rewrite elem_of_merged_jobs by done.
    intros (k' & Hk' & Hn). apply merged_lookup in Hk as Hk2. rewrite (Hinj _ _ _ Hk' Hk2) in Hn.
    unfold m in Hk. congruence. }
  assert (∀ id, trigger d = Some id → h' !! id = h !! id) as Hktr.
  { intros id Hid. rewrite Hh', decide_False; [done|]. rewrite elem_of_merged_jobs by done.
    intros (k & Hk & _). by apply (junit_susp_trig _ _ _ _ Hinv) in Hk. }
  assert (interrupting h (set_order true (set_sq (sq_of m) (set_suspends m d))) = true →
          is_Some (trigger d) ∧ sq_of m ≠ []) as Hi.
  { unfold interrupting; simpl. destruct (trigger d) as [t|] eqn:Ht.
    - intros Hb. split; [eauto|]. intros Hnil. rewrite Hnil in Hb. simpl in Hb.
      apply Hint in Hb. apply Hb. apply (merged_empty active). eapply sq_of_nil; [|done].
      intros k id Hk. apply merged_lookup, (ji_susp _ _ Hinv) in Hk as (j & (_ & _ & _ & Hb' & _) & <-).
      done.
    - intros Hb. apply (ji_int _ _ Hinv) in Hb as [? Hb]. congruence. }
  assert (junit_inv h' (reshuffled active h d)) as Hr; [|split; [done|by eapply junit_inv_safe]].
  split; simpl; fold m.
  - intros k id Hk. unfold job_at. rewrite (Hkeep _ _ Hk). eapply (ji_susp _ _ Hinv), merged_lookup, Hk.
  - intros id Hid. unfold job_at. rewrite (Hktr _ Hid). by apply (ji_trig _ _ Hinv).
  - intros _. split; [|by apply elem_of_sq_of]. apply NoDup_sq_of.
    intros k k' id Hk Hk'. by eapply Hinj; eapply merged_lookup.
  - intros Hb. by apply Hi.
  - intros Hb _. by apply Hi.
  - apply (ji_retr _ _ Hinv).
  - done.
Qed.

Lemma wp_reshuffle p d s :
  let active := is_active_or_reloading (current_active_state (ju_unit d) (st_units s)) in
  st_uvs s !! p = Some d → junit_inv (st_heap s) d → order d = false →
  JobUnitData.is_suspends_conflict d = false →
  (interrupt d = true → suspends d ≠ ∅) →
  wp (JobUnitData.reshuffle p) s (λ s' merged,
    let d' := reshuffled active (st_heap s) d in
    st_uvs s' = <[p:=d']> (st_uvs s) ∧ junit_inv (st_heap s') d'
    ∧ (suspends d' !! Stop = None → one_mutop (suspends d'))
    ∧ (∀ id, id ∈ merged ↔ ∃ k, suspends d !! k = Some id ∧ suspends d' !! k = None)
    ∧ (∀ id, st_heap s' !! id = if decide (id ∈ merged)
         then set_j_stage (EndWith Merged) <$> st_heap s !! id else st_heap s !! id)).
Proof.
  intros active Hd Hinv Ho Hcf Hint. unfold JobUnitData.reshuffle.
  rewrite wp_bind. eapply wp_uv_get_at; [done|]. rewrite wp_bind, wp_massert, Hcf. split; [done|].
  rewrite Ho. cbn [negb]. do 2 rewrite wp_bind.
  eapply wp_jobs_merge_suspend; [done|done|]. fold active. rewrite wp_bind.
  set (m := merged_suspends active (suspends d)).
  pose proof (λ k k' id, junit_susp_inj _ d k k' id Hinv) as Hinj.
  eapply wp_sq_order; [apply lookup_upd_uv| |].
  { simpl. unfold m. rewrite merged_stop. apply merged_one_mutop. }
  simpl. fold m. rewrite upd_uv_upd, wp_bind. eapply wp_uv_modify_at; [apply lookup_upd_uv|].
  rewrite upd_uv_upd, wp_ret. rewrite wp_bind.
  eapply wp_merge_trigger_prepare; [apply lookup_upd_uv|done| |].
  { simpl. intros id (k & Hk)%elem_of_sq_of.
    apply merged_lookup, (ji_susp _ _ Hinv) in Hk as (j & (Hj & _) & _). eauto. }
  rewrite upd_uv_upd, wp_bind.
  set (h' := λ id, if decide (id ∈ merged_jobs active (suspends d))
                   then set_j_stage (EndWith Merged) <$> st_heap s !! id else st_heap s !! id).
  destruct (reshuffled_inv active (st_heap s)
    (map_imap (λ id _, h' id) (st_heap s)) d Hinv Hint) as [_ Hsafe].
  { intros id. rewrite map_lookup_imap. unfold h'.
    destruct (st_heap s !! id) eqn:Hid; simpl; rewrite ?Hid; by case_decide. }
  eapply wp_update_ready; [apply lookup_upd_uv|exact Hsafe|]. rewrite upd_uv_upd, wp_bind.
  eapply wp_finish_all; [done|by apply NoDup_merged_jobs| |].
  { intros id Hid. apply elem_of_merged_jobs in Hid as (k & Hk & _); [|done].
    apply (ji_susp _ _ Hinv) in Hk as (j & (Hj & _ & Hw & _) & _). eauto. }
  intros h re Hh. rewrite wp_ret. simpl in Hh. cbn zeta.
  split_and!.
  - done.
  - by apply reshuffled_inv.
  - change (suspends (reshuffled active (st_heap s) d)) with m. unfold m.
    rewrite merged_stop. apply merged_one_mutop.
  - intros id. by apply elem_of_merged_jobs.
  - exact Hh.
Qed.

(** C9: reshuffling the jobs of a unit.  On stale, non-conflicting suspended
    jobs it never panics: it keeps the merged kinds (a restart absorbs start and
    reload, of start and reload the unit's state keeps one), rebuilds the queue
    as the stop alone or as one mutating job before verify and nop, ends exactly
    the jobs merged away, and leaves every other job alone and the unit
    consistent.  The proviso is that an interrupt already marked has a suspended
    job left to carry it. *)
Theorem reshuffle_spec p d s :
  let active := is_active_or_reloading (current_active_state (ju_unit d) (st_units s)) in
  st_uvs s !! p = Some d → junit_inv (st_heap s) d → order d = false →
  JobUnitData.is_suspends_conflict d = false →
  (interrupt d = true → suspends d ≠ ∅) →
  wp (JobUnitData.reshuffle p) s (λ s' merged,
    let d' := reshuffled active (st_heap s) d in
    st_uvs s' = <[p:=d']> (st_uvs s) ∧ junit_inv (st_heap s') d'
    ∧ (suspends d' !! Stop = None → one_mutop (suspends d'))
    ∧ (∀ id, id ∈ merged ↔ ∃ k, suspends d !! k = Some id ∧ suspends d' !! k = None)
    ∧ (∀ id, st_heap s' !! id = if decide (id ∈ merged)
         then set_j_stage (EndWith Merged) <$> st_heap s !! id else st_heap s !! id)).
Proof. apply wp_reshuffle. Qed.

(** ** Triggering *)

Definition next_suspend d k cur : JobUnitData :=
  norm (set_dirty true (set_suspends (delete k (suspends d)) (set_trigger (Some cur)
    (set_sq (tail (sq d)) (set_retrigger false (set_interrupt false d)))))).
Definition next_retrigger d : JobUnitData := norm (set_dirty true (set_retrigger false d)).

Lemma wp_do_next_trigger p d s (Q : Store W → JobPtr * option JobPtr → Prop) :
  st_uvs s !! p = Some d → junit_inv (st_heap s) d → ready d = true →
  (∀ cur rest k, sq d = cur :: rest → suspends d !! k = Some cur → order d = true →
     pause d = false → (interrupt d = true → is_Some (trigger d)) →
     (interrupt d = false → trigger d = None) →
     Q (upd_uv p (next_suspend d k cur) s) (cur, if interrupt d then trigger d else None)) →
  (∀ cur, trigger d = Some cur → order d = true → interrupt d = false →
     Q (upd_uv p (next_retrigger d) s) (cur, None)) →
  wp (JobUnitData.do_next_trigger p) s Q.
Proof.
  intros Hd Hinv Hr HQs HQr. pose proof (junit_inv_safe _ _ Hinv) as Hsafe.
  unfold JobUnitData.do_next_trigger. rewrite wp_bind. eapply wp_uv_get_at; [done|].
  rewrite wp_bind. apply wp_calc_ready; [done|].
  rewrite (ji_ready _ _ Hinv) in Hr. unfold ready_of in Hr. apply is_some_iff in Hr as [b Hb].
  rewrite Hb. unfold ready_val in Hb. destruct (order d) eqn:Ho; [|done].
  destruct (pause d) eqn:Hp; [done|]. cbn [andb negb] in Hb.
  pose proof (ji_int _ _ Hinv) as Hint. pose proof (ji_retr _ _ Hinv) as Hretr.
  destruct (ji_sq _ _ Hinv Ho) as [Hnd Hsq].
  destruct b.
  - assert (∃ cur rest, sq d = cur :: rest ∧ (interrupt d = false → trigger d = None))
      as (cur & rest & Hcur & Htr).
    { destruct (sq d) as [|cur rest]; [by destruct (trigger d), (retrigger d)|].
      exists cur, rest. split; [done|]. intros Hi. rewrite Hi in Hb.
      by destruct (trigger d), (retrigger d). }
    destruct (Hsq cur) as [k Hk]; [rewrite Hcur; by left|].
    destruct (ji_susp _ _ Hinv _ _ Hk) as (j & (Hj & _) & Hjk).
    unfold JobUnitData.do_next_trigger_suspend. rewrite wp_bind. eapply wp_uv_get_at; [done|].
    rewrite wp_bind, wp_massert, Hcur. split; [done|]. rewrite wp_bind, wp_massert. split; [done|].
    set (d0 := set_retrigger false (set_interrupt false d)).
    assert (∀ Q', Q' (upd_uv p (if interrupt d then set_trigger None d0 else d) s)
        (if interrupt d then trigger d else None) →
      wp (if interrupt d then uv_modify p (set_interrupt false);; uv_modify p (set_retrigger false);;
            uv_modify p (set_trigger None);; mret (trigger d) else mret None) s Q') as Hmt.
    { intros Q' HQ'. destruct (interrupt d); [|rewrite wp_ret; by rewrite upd_uv_id in HQ'].
      do 3 (rewrite wp_bind; eapply wp_uv_modify_at; [done || apply lookup_upd_uv|];
            rewrite ?upd_uv_upd). by rewrite wp_ret. }
    rewrite wp_bind. apply Hmt. cbn [head]. rewrite wp_bind, wp_munwrap. eexists. split; [done|].
    rewrite wp_bind. eapply wp_uv_modify_at; [apply lookup_upd_uv|]. rewrite upd_uv_upd, wp_bind.
    eapply wp_uv_modify_at; [apply lookup_upd_uv|]. rewrite upd_uv_upd, wp_bind.
    eapply wp_job_get_at; [done|]. rewrite Hjk, wp_bind.
    eapply wp_uv_modify_at; [apply lookup_upd_uv|]. rewrite upd_uv_upd, wp_bind.
    assert (set_trigger (Some cur) (set_sq (tail (sq (if interrupt d then set_trigger None d0 else d)))
        (if interrupt d then set_trigger None d0 else d))
      = set_trigger (Some cur) (set_sq (tail (sq d)) d0)) as Hd0.
    { unfold d0. destruct (interrupt d) eqn:Hi; [done|].
      assert (retrigger d = false) as Hre.
      { destruct (retrigger d); [|done]. destruct (Hretr eq_refl) as [? Hx].
        by rewrite (Htr eq_refl) in Hx. }
      clear -Hi Hre. destruct d; simpl in *. by subst. }
    cbv beta. rewrite Hd0. eapply wp_make_dirty; [apply lookup_upd_uv|by intros _ _ [=]|].
    rewrite upd_uv_upd, wp_ret. eapply HQs; done.
  - assert (∃ t, trigger d = Some t ∧ retrigger d = true ∧ interrupt d = false) as (t & Ht & Hre & Hi).
    { pose proof (ji_int_sq _ _ Hinv) as Hisq.
      destruct (trigger d) as [t|]; [|by destruct (sq d)]. exists t.
      destruct (interrupt d), (retrigger d); try done; destruct (sq d); try done.
      by destruct (Hisq eq_refl Ho). }
    unfold JobUnitData.do_next_trigger_retrigger. rewrite wp_bind. eapply wp_uv_get_at; [done|].
    rewrite wp_bind, wp_massert, Ht, Hre. split; [done|]. rewrite wp_bind, wp_massert. split; [done|].
    rewrite wp_bind, wp_munwrap. eexists. split; [done|].
    rewrite wp_bind, wp_massert, Hi. split; [done|]. rewrite wp_bind.
    eapply wp_uv_modify_at; [done|]. rewrite wp_bind.
    eapply wp_make_dirty; [apply lookup_upd_uv| |].
    { intros _ _. simpl. by rewrite Hi. }
    rewrite upd_uv_upd, wp_ret. by apply HQr.
Qed.

Lemma wp_do_pause p d s (Q : Store W → unit → Prop) :
  st_uvs s !! p = Some d → order d = true →
  Q (upd_uv p (norm (set_pause true (set_dirty true d))) s) tt → wp (JobUnitData.do_pause p) s Q.
Proof.
  intros Hd Ho HQ. unfold JobUnitData.do_pause. rewrite wp_bind. eapply wp_uv_get_at; [done|].
  rewrite wp_bind, wp_massert. split; [done|]. rewrite wp_bind. eapply wp_uv_modify_at; [done|].
  rewrite wp_bind. eapply wp_uv_modify_at; [apply lookup_upd_uv|]. rewrite upd_uv_upd.
  eapply wp_update_ready; [apply lookup_upd_uv|by intros _ [=]|]. by rewrite upd_uv_upd.
Qed.

Lemma wp_retrigger_trigger p d s (Q : Store W → unit → Prop) :
  st_uvs s !! p = Some d → is_Some (trigger d) → order d = true → ready_safe d →
  Q (upd_uv p (norm (set_dirty true (set_retrigger true d))) s) tt →
  wp (JobUnitData.retrigger_trigger p) s Q.
Proof.
  intros Hd Ht Ho Hs HQ. unfold JobUnitData.retrigger_trigger. rewrite wp_bind.
  eapply wp_uv_get_at; [done|]. rewrite wp_bind, wp_massert.
  split; [by apply bool_decide_eq_true|]. rewrite wp_bind, wp_massert. split; [done|].
  rewrite wp_bind. eapply wp_uv_modify_at; [done|].
  eapply wp_make_dirty; [apply lookup_upd_uv|done|]. by rewrite upd_uv_upd.
Qed.

(** The invariant does not look at [dirty] and [up_ready], and [norm] is what
    makes [ready] right. *)
Lemma junit_inv_norm h d d' : junit_inv h d → ju_unit d' = ju_unit d → suspends d' = suspends d →
  trigger d' = trigger d → order d' = order d → sq d' = sq d → interrupt d' = interrupt d →
  (retrigger d' = true → is_Some (trigger d)) → junit_inv h (norm d').
Proof.
  intros [? ? ? ? ? ? ?] Hu Hs Ht Ho Hsq Hi Hre.
  split; simpl; rewrite ?Hu, ?Hs, ?Ht, ?Ho, ?Hsq, ?Hi; done.
Qed.

(** The three parts of [do_trigger] after the next job is chosen: its verdict
    digested, the interrupted job merged away, and both put together. *)
Definition run_digest p cur : J W (option JobResult) :=
  ret ← Job.run cur;
  match ret with
  | Ok _ => mret None
  | Err None => JobUnitData.do_pause p;; JobUnitData.retrigger_trigger p;; mret None
  | Err (Some tend_r) => mret (Some tend_r)
  end.
Definition merge_away cur (cj : Job) (merge_trigger : option JobPtr) : J W unit :=
  match merge_trigger with
  | Some job =>
    j ← job_get job;
    mwhen (bool_decide (j_kind j = j_kind cj)) (Job.merge_attr cur job);;
    Job.finish job Merged;;
    mret tt
  | None => mret tt
  end.

Lemma wp_do_trigger p s (Q : Store W → option (JobInfo * option JobResult) * option JobPtr → Prop) :
  wp (JobUnitData.do_next_trigger p) s (λ s1 cm, ∃ jc, st_heap s1 !! cm.1 = Some jc ∧
    wp (merge_away cm.1 jc cm.2) s1 (λ s2 _, wp (run_digest p cm.1) s2 (λ s3 tend,
      Q s3 (Some (JobInfo_map cm.1 jc, tend), cm.2)))) →
  wp (JobUnit.do_trigger p) s Q.
Proof.
  intros Hwp. unfold JobUnit.do_trigger. rewrite wp_bind.
  eapply wp_mono; [exact Hwp|]. intros s1 [cur mt] (jc & Hjc & Hm). simpl in Hjc, Hm.
  rewrite wp_bind. eapply wp_job_get_at; [exact Hjc|]. rewrite wp_bind.
  eapply wp_mono; [exact Hm|]. clear Hm Hwp. intros s2 [] Hrun. cbv beta in Hrun |- *.
  apply wp_bind_assoc. exact Hrun.
Qed.

Lemma wp_merge_attr id o j jo s (Q : Store W → unit → Prop) :
  st_heap s !! id = Some j → st_heap s !! o = Some jo → j_stage j = Wait → j_kind j = j_kind jo →
  job_is_basic_op (j_kind j) = true →
  (∀ a re, Q (set_st_re re (set_st_heap (<[id:=set_j_attr a j]> (st_heap s)) s)) tt) →
  wp (Job.merge_attr id o) s Q.
Proof.
  intros Hj Ho Hst Hk Hb HQ. unfold Job.merge_attr. rewrite wp_bind. eapply wp_job_get_at; [done|].
  rewrite wp_bind, wp_massert. split; [by apply bool_decide_eq_true|].
  rewrite wp_bind. eapply wp_job_get_at; [done|]. rewrite wp_bind, wp_massert.
  split; [by apply bool_decide_eq_true|]. rewrite wp_bind. eapply wp_job_modify_at; [done|].
  eapply wp_suspends_insert; [by simpl; rewrite lookup_insert_eq|done|]. apply HQ.
Qed.

(** What merging the interrupted job away leaves of the two jobs. *)
Lemma wp_merge_away cur t jc jt s (Q : Store W → unit → Prop) :
  st_heap s !! cur = Some jc → st_heap s !! t = Some jt → cur ≠ t →
  j_stage jc = Wait → job_is_basic_op (j_kind jc) = true → j_stage jt = Running →
  (∀ a re, let jc' := set_j_attr a jc in
     Q (set_st_re re (set_st_heap
          (<[t:=set_j_stage (EndWith Merged) jt]> (<[cur:=jc']> (st_heap s))) s)) tt) →
  wp (merge_away cur jc (Some t)) s Q.
Proof.
  intros Hc Ht Hne Hw Hb Hr HQ. unfold merge_away. rewrite wp_bind. eapply wp_job_get_at; [done|].
  assert (finished Merged jt = set_j_stage (EndWith Merged) jt) as Hfin by done.
  rewrite wp_bind, wp_mwhen. case_bool_decide as Hk.
  - eapply wp_merge_attr; [done..|]. intros a re. rewrite wp_bind.
    eapply (wp_job_finish t Merged jt); [by simpl; rewrite lookup_insert_ne|by right|].
    rewrite wp_ret, Hfin. eapply HQ.
  - rewrite wp_bind. eapply (wp_job_finish t Merged jt); [done|by right|].
    rewrite wp_ret, Hfin. specialize (HQ (j_attr jc)). cbv zeta in HQ.
    assert (set_j_attr (j_attr jc) jc = jc) as Heq by by destruct jc.
    setoid_rewrite Heq in HQ. setoid_rewrite (insert_id (st_heap s) cur jc Hc) in HQ. apply HQ.
Qed.

(** Running the triggered job and digesting its verdict. *)
Lemma wp_run_digest p d cur jc s (Q : Store W → option JobResult → Prop) :
  st_uvs s !! p = Some d → trigger d = Some cur → order d = true → interrupt d = false →
  ready d = false → st_heap s !! cur = Some jc → j_stage jc = Wait ∨ j_stage jc = Running →
  job_ok jc → job_is_basic_op (j_kind jc) = true →
  junit_inv (<[cur:=set_j_stage Running jc]> (st_heap s)) d →
  (∀ d' s' tend, st_uvs s' = <[p:=d']> (st_uvs s) →
     st_heap s' = <[cur:=set_j_stage Running jc]> (st_heap s) →
     trigger d' = Some cur → ready d' = false → junit_inv (st_heap s') d' → Q s' tend) →
  wp (run_digest p cur) s Q.
Proof.
  intros Hd Ht Ho Hi Hr Hj Hst Hok Hb Hinv HQ. unfold run_digest. rewrite wp_bind.
  eapply wp_job_run; [done..|].
  intros us ts r. cbn zeta. set (s1 := set_st_units us _).
  assert (∀ tend, Q s1 tend) as HQ1.
  { intros tend. apply (HQ d); try done. symmetry. by apply insert_id. }
  destruct r as [[]|[r|]]; try by rewrite wp_ret.
  rewrite wp_bind. eapply wp_do_pause; [exact Hd|done|]. rewrite wp_bind.
  eapply wp_retrigger_trigger; [apply lookup_upd_uv|simpl; rewrite Ht; eauto|done|by intros _ [=]|].
  rewrite upd_uv_upd, wp_ret.
  eapply HQ; [done|done|done| |].
  - simpl. unfold ready_of, ready_val. simpl. by rewrite andb_false_r.
  - simpl. eapply junit_inv_norm; [exact Hinv|done..|]. rewrite Ht. eauto.
Qed.

(** The unit is consistent again once the job taken from the queue runs. *)
Lemma next_suspend_inv d k cur rest jc jc' h h' :
  junit_inv h d → order d = true → sq d = cur :: rest → suspends d !! k = Some cur →
  h !! cur = Some jc → j_unit jc' = j_unit jc → j_kind jc' = j_kind jc →
  j_run_kind jc' = j_run_kind jc → j_stage jc' = Running →
  (∀ id, id ≠ cur → trigger d ≠ Some id → h' !! id = h !! id) → h' !! cur = Some jc' →
  junit_inv h' (next_suspend d k cur).
Proof.
  intros Hinv Ho Hsq Hk Hjc Hu' Hk' Hrk' Hw' Hh Hc.
  destruct (ji_susp _ _ Hinv _ _ Hk) as (jc0 & (Hjc0 & Hju & _ & Hjb & Hjo) & Hjk).
  rewrite Hjc in Hjc0. simplify_eq.
  destruct (ji_sq _ _ Hinv Ho) as [Hnd Hall].
  rewrite Hsq in Hnd. apply NoDup_cons in Hnd as [Hcr Hnd].
  split; simpl; try done.
  - intros k' id Hid. apply lookup_delete_Some in Hid as [Hkk Hid].
    destruct (decide (id = cur)) as [->|Hne].
    { destruct Hkk. by eapply junit_susp_inj. }
    unfold job_at. rewrite Hh by (done || by eapply junit_susp_trig).
    by apply (ji_susp _ _ Hinv).
  - intros id [= <-]. exists jc'. unfold job_at, job_ok in *.
    rewrite Hu', Hk', Hrk'. split_and!; done.
  - intros _. rewrite Hsq. simpl. split; [done|]. intros id Hid.
    destruct (Hall id) as [k' Hk2]; [rewrite Hsq; by right|].
    exists k'. rewrite lookup_delete_ne; [done|]. intros <-.
    rewrite Hk in Hk2. by simplify_eq.
Qed.

Lemma next_suspend_not_ready d k cur : ready (next_suspend d k cur) = false.
Proof.
  simpl. unfold ready_of, ready_val. simpl.
  destruct (order d && negb (pause d)); [|done]. by destruct (tail (sq d)).
Qed.

(** C10: triggering a unit.  On a consistent, ready unit the trigger never
    panics.  It leaves the unit consistent, with a running triggered job, and
    {e not} ready: the assertion that follows every trigger in the table holds
    whatever the unit's action answered.  The job that was triggered before is
    ended as merged exactly when it was marked for interruption. *)
Theorem do_trigger_spec p d s :
  st_uvs s !! p = Some d → junit_inv (st_heap s) d → ready d = true →
  wp (JobUnit.do_trigger p) s (λ s' r, ∃ d' cur jc tend,
    st_uvs s' = <[p:=d']> (st_uvs s) ∧ junit_inv (st_heap s') d'
    ∧ trigger d' = Some cur ∧ ready d' = false
    ∧ st_heap s !! cur = Some jc
    ∧ r = (Some (JobInfo_map cur jc, tend), if interrupt d then trigger d else None)
    ∧ (∀ id, interrupt d = true → trigger d = Some id →
         ∃ j, st_heap s' !! id = Some j ∧ j_stage j = EndWith Merged)).
Proof.
  intros Hd Hinv Hr. apply wp_do_trigger. eapply wp_do_next_trigger; [done|done|done| |].
  - intros cur rest k Hsq Hk Ho Hp Hint Htr.
    destruct (ji_susp _ _ Hinv _ _ Hk) as (jc & (Hjc & Hju & Hjw & Hjb & Hjo) & Hjk).
    exists jc. split; [exact Hjc|]. simpl.
    (* the run, whatever the merge left of the job's attributes *)
    assert (∀ h re a (mt : option JobPtr), h !! cur = Some (set_j_attr a jc) →
      (∀ id, id ≠ cur → trigger d ≠ Some id → h !! id = st_heap s !! id) →
      (∀ id, interrupt d = true → trigger d = Some id →
         ∃ j, h !! id = Some j ∧ j_stage j = EndWith Merged) →
      wp (run_digest p cur) (set_st_re re (set_st_heap h (upd_uv p (next_suspend d k cur) s)))
        (λ s' tend, ∃ d' cur0 jc0 tend0, st_uvs s' = <[p:=d']> (st_uvs s)
          ∧ junit_inv (st_heap s') d' ∧ trigger d' = Some cur0 ∧ ready d' = false
          ∧ st_heap s !! cur0 = Some jc0
          ∧ (Some (JobInfo_map cur jc, tend), mt) = (Some (JobInfo_map cur0 jc0, tend0), mt)
          ∧ (∀ id, interrupt d = true → trigger d = Some id →
               ∃ j, st_heap s' !! id = Some j ∧ j_stage j = EndWith Merged))) as Hrun.
    { intros h re a mt Hc Hh Hm.
      eapply (wp_run_digest p (next_suspend d k cur) cur (set_j_attr a jc));
        [apply lookup_upd_uv|done|done|done|apply next_suspend_not_ready|done|by left|done|done| |].
      - apply (next_suspend_inv d k cur rest jc (set_j_stage Running (set_j_attr a jc)) (st_heap s));
          [done..| |apply lookup_insert_eq].
        intros id Hid Ht. simpl. rewrite lookup_insert_ne by done. by apply Hh.
      - intros d' s' tend Huv Hhp Ht Hrd Hi. simpl in Huv. rewrite insert_insert_eq in Huv.
        exists d', cur, jc, tend. split_and!; try done.
        intros id Hiid Hid. destruct (Hm id Hiid Hid) as (j & Hj & Hjs). exists j.
        rewrite Hhp. simpl. rewrite lookup_insert_ne; [done|].
        intros ->. by apply (junit_susp_trig _ _ _ _ Hinv) in Hk. }
    destruct (interrupt d) eqn:Hi.
    + destruct (Hint eq_refl) as [t Ht]. rewrite Ht.
      destruct (ji_trig _ _ Hinv _ Ht) as (jt & Hjt & Htu & Htr' & Htb & Hto).
      assert (cur ≠ t) as Hne by (intros ->; by eapply junit_susp_trig).
      eapply (wp_merge_away cur t jc jt); [done..|]. intros a re. cbn zeta.
      eapply wp_mono; [apply (Hrun (<[t:=set_j_stage (EndWith Merged) jt]>
        (<[cur:=set_j_attr a jc]> (st_heap s))) re a (Some t))|].
      * by rewrite lookup_insert_ne, lookup_insert_eq.
      * intros id Hid Hidt. rewrite Ht in Hidt. by rewrite !lookup_insert_ne by congruence.
      * intros id _ Hid. rewrite Ht in Hid. simplify_eq. eexists. by rewrite lookup_insert_eq.
      * intros s' tend (d' & c' & jc' & te' & H1 & H2 & H3 & H4 & H5 & H6 & H7).
        exists d', c', jc', te'. split_and!; try done. by rewrite <-Ht.
    + assert (set_j_attr (j_attr jc) jc = jc) as Heq by by destruct jc.
      apply (Hrun (st_heap s) (st_re s) (j_attr jc)); [by rewrite Heq|done|done].
  - intros cur Ht Ho Hi. destruct (ji_trig _ _ Hinv _ Ht) as (jt & Hjt & Htu & Htr' & Htb & Hto).
    exists jt. split; [exact Hjt|]. simpl.
    assert (set_j_stage Running jt = jt) as Heq by (destruct jt; simpl in *; by subst).
    eapply (wp_run_digest p (next_retrigger d) cur jt);
      [apply lookup_upd_uv|done|done|done| |done|by right|done|done| |].
    + simpl. unfold ready_of, ready_val. simpl. rewrite Ht, Hi.
      destruct (order d && negb (pause d)); [|done]. by destruct (sq d).
    + rewrite Heq, insert_id by done. eapply junit_inv_norm; done.
    + intros d' s' tend Huv Hhp Ht' Hrd Hinv'. simpl in Huv. rewrite insert_insert_eq in Huv.
      exists d', cur, jt, tend. rewrite Hi. split_and!; done.
Qed.

(** ** The end of the triggered job *)

Lemma finished_ok r j : job_ok j → job_ok (finished r j).
Proof.
  unfold job_ok, finished, finish_retry. case_bool_decide; [|done]. simpl.
  unfold run_kinds. destruct (j_kind j), (j_run_kind j); simpl; set_solver.
Qed.

(** C23: the end of the triggered job of a unit.  On a consistent, ordered unit
    it never panics and leaves the unit consistent.  When the job asks for
    another run (the start of a restart) it stays triggered and the unit is
    ready to run it unless it is paused; otherwise the trigger is gone, ended with the result,
    and the unit is ready exactly when it is not paused and a job is queued. *)
Theorem finish_trigger_spec p d t j r s :
  st_uvs s !! p = Some d → junit_inv (st_heap s) d → order d = true →
  trigger d = Some t → st_heap s !! t = Some j →
  wp (JobUnitData.finish_trigger p r) s (λ s' del, ∃ d',
    st_uvs s' = <[p:=d']> (st_uvs s) ∧ junit_inv (st_heap s') d'
    ∧ suspends d' = suspends d ∧ sq d' = sq d ∧ order d' = true
    ∧ (∀ id, id ≠ t → st_heap s' !! id = st_heap s !! id)
    ∧ if bool_decide (r = Done ∧ runs_left j = [Stop; Start])
      then del = None ∧ trigger d' = Some t ∧ ready d' = negb (pause d)
           ∧ ∃ j', st_heap s' !! t = Some j' ∧ runs_left j' = [Start]
      else del = Some t ∧ trigger d' = None
           ∧ ready d' = negb (pause d) && negb (bool_decide (sq d = []))
           ∧ ∃ j', st_heap s' !! t = Some j' ∧ j_stage j' = EndWith r).
Proof.
  intros Hd Hinv Ho Ht Hj.
  destruct (ji_trig _ _ Hinv _ Ht) as (j0 & Hj0 & Hju & Hjr & Hjb & Hjo).
  rewrite Hj in Hj0. simplify_eq.
  assert (finish_retry r j0 = bool_decide (r = Done ∧ runs_left j0 = [Stop; Start])) as <-.
  { unfold finish_retry. rewrite <-bool_decide_and. apply bool_decide_ext.
    unfold runs_left, job_ok, run_kinds in *.
    destruct (j_kind j0), (j_run_kind j0); simpl in *; set_solver. }
  unfold JobUnitData.finish_trigger. rewrite wp_bind. eapply wp_uv_get_at; [done|].
  rewrite wp_bind, wp_massert, Ht. split; [done|]. rewrite wp_bind, wp_massert. split; [done|].
  rewrite wp_bind, wp_munwrap. eexists; split; [done|]. rewrite wp_bind.
  eapply wp_job_finish; [done|by right|].
  set (s1 := set_st_re _ _).
  assert (st_heap s1 = <[t:=finished r j0]> (st_heap s)) as Hh1 by done.
  assert (∀ id, id ≠ t → st_heap s1 !! id = st_heap s !! id) as Hne.
  { intros id Hid. by rewrite Hh1, lookup_insert_ne. }
  assert (st_heap s1 !! t = Some (finished r j0)) as Ht1 by by rewrite Hh1, lookup_insert_eq.
  assert (∀ k id, suspends d !! k = Some id → st_heap s1 !! id = st_heap s !! id) as Hsu.
  { intros k id Hk. apply Hne. intros ->. by eapply junit_susp_trig. }
  destruct (finish_retry r j0) eqn:Hretry; rewrite wp_bind.
  - rewrite wp_bind. eapply wp_retrigger_trigger; [exact Hd|by rewrite Ht|done|by eapply junit_inv_safe|].
    rewrite wp_ret, wp_bind. eapply wp_make_dirty; [apply lookup_upd_uv|exact (junit_inv_safe _ _ Hinv)|].
    rewrite upd_uv_upd, wp_ret. eexists. split_and!; [done| |done..| |].
    + apply (junit_inv_norm _ d); [|done..|by rewrite Ht].
      destruct Hinv as [Hs0 Ht0 ? ? ? ? ?]. split; try done.
      * intros k id Hk. unfold job_at. simpl in Hsu |- *. rewrite (Hsu k id Hk). by apply Hs0.
      * intros id Hid. rewrite Ht in Hid. simplify_eq. exists (finished r j0).
        split; [exact Ht1|]. unfold finished. rewrite Hretry.
        split_and!; try done; [by case_bool_decide|by case_bool_decide|].
        apply (finished_ok r) in Hjo. unfold finished in Hjo. by rewrite Hretry in Hjo.
    + simpl. unfold ready_of, ready_val. simpl. rewrite Ho, Ht. destruct (pause d); [done|]. simpl.
      pose proof (ji_int_sq _ _ Hinv) as Hq. by destruct (sq d), (interrupt d).
    + exists (finished r j0). split; [exact Ht1|].
      unfold finish_retry in Hretry. apply andb_true_iff in Hretry as [Hr1 Hr2].
      unfold finished, finish_retry. rewrite Hr1, Hr2. unfold runs_left, job_ok, run_kinds in *.
      simpl. apply bool_decide_eq_true in Hr2.
      destruct (j_kind j0), (j_run_kind j0); simpl in *; try done; set_solver.
  - rewrite wp_bind. eapply wp_uv_modify_at; [exact Hd|]. rewrite wp_bind.
    eapply wp_uv_modify_at; [apply lookup_upd_uv|]. rewrite upd_uv_upd, wp_bind.
    eapply wp_uv_get_at; [apply lookup_upd_uv|]. rewrite wp_bind.
    eapply wp_uv_modify_at; [apply lookup_upd_uv|]. rewrite upd_uv_upd, wp_ret, wp_bind.
    eapply wp_make_dirty; [apply lookup_upd_uv|by intros _ _ [=]|].
    rewrite upd_uv_upd, wp_ret. eexists. split_and!; [done| |done..| |].
    + destruct Hinv as [Hs0 Ht0 ? ? ? ? ?]. split; try done.
      intros k id Hk. unfold job_at. simpl in Hsu, Hk |- *. rewrite (Hsu k id Hk). by apply Hs0.
    + simpl. unfold ready_of, ready_val. simpl. rewrite Ho. destruct (pause d); [done|].
      by destruct (sq d).
    + exists (finished r j0). split; [exact Ht1|]. unfold finished. by rewrite Hretry.
Qed.

(** ** Cancelling the waiting jobs *)

Definition flushed d : JobUnitData := norm (set_dirty true (set_order false (set_suspends ∅ d))).

Lemma NoDup_suspended h d : junit_inv h d → NoDup (hm_values (suspends d)).
Proof.
  intros Hinv. unfold hm_values. rewrite hm_iter_perm.
  apply NoDup_fmap_2_strong; [|apply NoDup_map_to_list].
  intros [k1 i1] [k2 i2] H1%elem_of_map_to_list H2%elem_of_map_to_list ?; simplify_eq/=.
  by rewrite (junit_susp_inj _ _ _ _ _ Hinv H1 H2).
Qed.

Lemma wp_flush_suspends p d s (Q : Store W → list JobPtr → Prop) :
  st_uvs s !! p = Some d → junit_inv (st_heap s) d →
  (∀ h re, (∀ id, h !! id = if decide (id ∈ hm_values (suspends d))
       then set_j_stage (EndWith Cancelled) <$> st_heap s !! id else st_heap s !! id) →
     Q (set_st_re re (set_st_heap h (upd_uv p (flushed d) s))) (hm_values (suspends d))) →
  wp (JobUnitData.flush_suspends p) s Q.
Proof.
  intros Hd Hinv HQ. unfold JobUnitData.flush_suspends. rewrite wp_bind.
  eapply wp_uv_get_at; [done|]. rewrite wp_bind. eapply wp_uv_modify_at; [done|].
  rewrite wp_bind. eapply wp_uv_modify_at; [apply lookup_upd_uv|]. rewrite upd_uv_upd, wp_bind.
  eapply wp_make_dirty; [apply lookup_upd_uv|by intros [=]|]. rewrite upd_uv_upd, wp_bind.
  eapply wp_finish_all; [done|by eapply NoDup_suspended| |].
  - intros id (k & Hk)%elem_of_hm_values.
    apply (ji_susp _ _ Hinv) in Hk as (j & (Hj & _ & Hw & _) & _). eauto.
  - intros h re Hh. rewrite wp_ret. by apply HQ.
Qed.

(** Cancelling the last suspended jobs of a unit whose running job is
    marked for interruption.  The mark is not cleared with them, so the reshuffle that
    follows fails its own assertion: the manager panics. *)
Theorem flush_interrupted_panics p d s :
  st_uvs s !! p = Some d → junit_inv (st_heap s) d → interrupt d = true → pause d = false →
  panics (JobUnitData.flush_suspends p;; JobUnitData.reshuffle p) s.
Proof.
  intros Hd Hinv Hi Hp. destruct (ji_int _ _ Hinv Hi) as [t Ht].
  apply panics_bind. eapply wp_flush_suspends; [done..|]. intros h re _.
  unfold JobUnitData.reshuffle. apply panics_bind. eapply wp_uv_get_at; [apply lookup_upd_uv|].
  apply panics_bind. rewrite wp_massert. split; [done|].
  cbn [order flushed norm set_ready set_dirty set_order negb].
  apply panics_bind. rewrite wp_bind.
  eapply wp_jobs_merge_suspend; [apply lookup_upd_uv|done|]. rewrite wp_bind.
  cbn [suspends flushed norm set_ready set_dirty set_order set_suspends].
  change (merged_suspends _ ∅) with (∅ : gmap JobKind JobPtr).
  eapply wp_sq_order; [apply lookup_upd_uv|by intros _; apply Nat.le_0_l|]. rewrite wp_bind.
  eapply wp_uv_modify_at; [apply lookup_upd_uv|]. rewrite wp_ret.
  apply panics_bind.
  eapply wp_merge_trigger_prepare; [apply lookup_upd_uv|done|by intros id Hid; inversion Hid|].
  apply panics_bind_l. unfold JobUnitData.update_ready.
  apply panics_bind. eapply wp_uv_get_at; [apply lookup_upd_uv|].
  apply panics_bind_l. unfold JobUnitData.calc_ready, JobUnitData.calc_natural_ready. simpl.
  rewrite Hp. simpl. unfold JobUnitData.calc_natural_ready_t, interrupting. simpl.
  rewrite Ht. simpl. by rewrite Hi.
Qed.
End junit.

(** ** A concrete unit *)
#[local] Existing Instance hash_iter_canonical.
#[local] Existing Instance cond_env_sample.

(** A start runs (job 3); a start (1) and a restart (2) wait behind it. *)
Definition sample_jobs : gmap JobPtr Job := {[
  1%Z := set_j_stage Wait (Job.new "a.target" Start);
  2%Z := set_j_stage Wait (Job.new "a.target" Restart);
  3%Z := set_j_stage Running (Job.new "a.target" Start) ]}.
Definition stale_unit : JobUnitData := {|
  ju_unit := "a.target"; suspends := {[Start := 1%Z; Restart := 2%Z]}; trigger := Some 3%Z;
  order := false; sq := []; interrupt := false; retrigger := false; dirty := true;
  pause := false; ready := false; up_ready := false |}.
(** The same once reshuffled: the restart waits to interrupt the start. *)
Definition ready_unit : JobUnitData := {|
  ju_unit := "a.target"; suspends := {[Restart := 2%Z]}; trigger := Some 3%Z;
  order := true; sq := [2%Z]; interrupt := true; retrigger := false; dirty := false;
  pause := false; ready := true; up_ready := true |}.
Definition unit_store d : Store Targets :=
  set_st_uvs {[0%N := d]} (set_st_heap sample_jobs sample_store).

Lemma sample_job_at u stage id j : sample_jobs !! id = Some j → j_unit j = u → j_stage j = stage →
  job_is_basic_op (j_kind j) = true → bool_decide (job_ok j) = true →
  job_at sample_jobs u stage id j.
Proof. intros Hj ? ? Hb Hok%bool_decide_eq_true. by split. Qed.

Lemma stale_unit_inv : junit_inv sample_jobs stale_unit.
Proof.
  split; try done; simpl.
  - intros k id Hk. destruct k; vm_compute in Hk; simplify_eq; eexists;
      (split; [by eapply sample_job_at; [reflexivity|..]|done]).
  - intros id [= <-]. eexists. by eapply sample_job_at; [reflexivity|..].
Qed.
Lemma ready_unit_inv : junit_inv sample_jobs ready_unit.
Proof.
  split; try done; simpl.
  - intros k id Hk. destruct k; vm_compute in Hk; simplify_eq; eexists;
      (split; [by eapply sample_job_at; [reflexivity|..]|done]).
  - intros id [= <-]. eexists. by eapply sample_job_at; [reflexivity|..].
  - intros _. split; [apply NoDup_singleton|]. intros id ->%list_elem_of_singleton.
    by exists Restart.
Qed.

Lemma reshuffle_spec_witness :
  wp (JobUnitData.reshuffle 0%N) (unit_store stale_unit) (λ s' merged, 1%Z ∈ merged).
Proof.
  eapply wp_mono.
  - apply (reshuffle_spec 0%N stale_unit (unit_store stale_unit)); try done. exact stale_unit_inv.
  - intros s' merged (_ & _ & _ & Hm & _). apply Hm. by exists Start.
Defined.

Lemma do_trigger_spec_witness :
  wp (JobUnit.do_trigger 0%N) (unit_store ready_unit) (λ s' r, r.2 = Some 3%Z).
Proof.
  eapply wp_mono.
  - apply (do_trigger_spec 0%N ready_unit (unit_store ready_unit)); try done. exact ready_unit_inv.
  - intros s' r (d' & cur & jc & tend & _ & _ & _ & _ & _ & -> & _). done.
Defined.

Lemma finish_trigger_spec_witness :
  wp (JobUnitData.finish_trigger 0%N Done) (unit_store ready_unit) (λ s' del, del = Some 3%Z).
Proof.
  eapply wp_mono.
  - apply (finish_trigger_spec 0%N ready_unit 3%Z
      (set_j_stage Running (Job.new "a.target" Start)) Done (unit_store ready_unit)); try done.
    exact ready_unit_inv.
  - intros s' del (d' & _ & _ & _ & _ & _ & _ & Hdel). by apply Hdel.
Defined.

Lemma flush_interrupted_panics_witness :
  panics (JobUnitData.flush_suspends 0%N;; JobUnitData.reshuffle 0%N) (unit_store ready_unit).
Proof.
  apply (flush_interrupted_panics 0%N ready_unit (unit_store ready_unit)); try done.
  exact ready_unit_inv.
Defined.
