(* ===== verification/JobTransFacts.v ===== *)
(** * Facts about transactions

    What [job_trans_expand] records: the closure of the requested job under the
    units' dependencies, with the fuel that is enough ([JobTrans.v]). *)
From S2P Require Import Prelude UnitTypes ReDb UnitDb RateLimit Condition UnitEntry Target.
From S2P Require Import JobRentry JobData JobStat JobStore JobEntry JobUnit JobTable JobTrans.
From S2P Require Import JobNotify JobManager JobSample JobEntryFacts JobUnitFacts.

(** ** Depth-first exploration, abstractly *)

Section explored.
Context {A : Type} `{Countable A} (pulls : A → A → Prop).
Implicit Types (l : list A) (R : gset A).

(** Exploring the roots [l] took the set of recorded elements from [R] to [R']:
    nothing is lost, the roots are in, what is new was reached from a root, and
    everything pulled by something new is in. *)
Record explored l R R' : Prop := {
  ex_sub : R ⊆ R';
  ex_roots : ∀ c, c ∈ l → c ∈ R';
  ex_sound : ∀ c, c ∈ R' → c ∈ R ∨ ∃ r, r ∈ l ∧ rtc pulls r c;
  ex_closed : ∀ c c', c ∈ R' → c ∉ R → pulls c c' → c' ∈ R';
}.

Lemma explored_nil R : explored [] R R.
Proof. split; [done|intros c Hc; by inversion Hc|by left|done]. Qed.

Lemma explored_app l1 l2 R1 R2 R3 :
  explored l1 R1 R2 → explored l2 R2 R3 → explored (l1 ++ l2) R1 R3.
Proof.
  intros [Hs1 Hr1 Ho1 Hc1] [Hs2 Hr2 Ho2 Hc2]. split.
  - by etrans.
  - intros c [Hc|Hc]%elem_of_app; auto.
  - intros c Hc. destruct (Ho2 c Hc) as [Hc'|(r & Hr & ?)].
    + destruct (Ho1 c Hc') as [|(r & Hr & ?)]; [by left|]. right. exists r.
      split; [apply elem_of_app; by left|done].
    + right. exists r. split; [apply elem_of_app; by right|done].
  - intros c c' Hc Hn Hp. destruct (decide (c ∈ R2)); [|by eauto]. apply Hs2. eauto.
Qed.

(** An element met before is not explored again. *)
Lemma explored_seen c R : c ∈ R → explored [c] R R.
Proof. intros Hc. split; [done|intros ? ->%list_elem_of_singleton; done|by left|done]. Qed.

(** A new one is recorded first, then what it pulls is explored. *)
Lemma explored_node c l R R' : (∀ c', pulls c c' ↔ c' ∈ l) →
  explored l ({[c]} ∪ R) R' → explored [c] R R'.
Proof.
  intros Hl [Hs Hr Ho Hc]. split.
  - set_solver.
  - intros ? ->%list_elem_of_singleton. set_solver.
  - intros x Hx. destruct (Ho x Hx) as [[->%elem_of_singleton|?]%elem_of_union|(r & Hr' & Hrx)].
    + right. exists c. split; [by left|done].
    + by left.
    + right. exists c. split; [by left|]. eapply rtc_l; [by apply Hl|done].
  - intros x x' Hx Hn Hp. destruct (decide (x = c)) as [->|Hne].
    + apply Hr. by apply Hl.
    + eapply Hc; [exact Hx|set_solver|exact Hp].
Qed.

(** From nothing, the exploration of [c] is its closure. *)
Lemma explored_closure c R' : explored [c] ∅ R' → ∀ x, x ∈ R' ↔ rtc pulls c x.
Proof.
  intros [Hs Hr Ho Hc] x. split.
  - intros Hx. destruct (Ho x Hx) as [Hx'|(r & ->%list_elem_of_singleton & ?)]; [|done].
    by apply elem_of_empty in Hx'.
  - assert (c ∈ R') as Hin by (apply Hr; by left).
    clear Hr Ho. intros Hx. revert Hin.
    induction Hx as [|a b d Hab _ IH]; [done|]. intros Ha. apply IH. eapply Hc; [done|set_solver|done].
Qed.
End explored.

(** ** The jobs a job asks for *)

Abbreviation Key := (UnitId * JobKind)%type.
Definition key (c : JobConf) : Key := (jc_unit c, jc_kind c).
Definition conf_of (k : Key) : JobConf := {| jc_unit := k.1; jc_kind := k.2 |}.

Section asks.
Context `{HD : !UnitDb} {W : Type} `{HS : !SubUnits W}.
Implicit Types (us : Units W) (mode : JobMode).

Definition confs (kind : JobKind) (l : list UnitId) : list JobConf :=
  (λ u, {| jc_unit := u; jc_kind := kind |}) <$> l.
Definition asks_start (u : UnitId) : list JobConf :=
  confs Start (dep_gets_atom u UnitAtomPullInStart)
  ++ confs Start (dep_gets_atom u UnitAtomPullInStartIgnored)
  ++ confs Verify (dep_gets_atom u UnitAtomPullInVerify)
  ++ confs Stop (dep_gets_atom u UnitAtomPullInStop)
  ++ confs Stop (dep_gets_atom u UnitAtomPullInStopIgnored).
(** The jobs a job on [c.1] of kind [c.2] asks for, by the dependencies of the
    unit. *)
Definition asks (c : Key) : list JobConf :=
  match c.2 with
  | Start => asks_start c.1
  | Stop => confs Stop (dep_gets_atom c.1 UnitAtomPropagateStop)
  | Reload => confs TryReload (dep_gets_atom c.1 UnitAtomPropagatesReloadTo)
  | Restart => asks_start c.1 ++ confs TryRestart (dep_gets_atom c.1 UnitAtomPropagateRestart)
  | _ => []
  end.

(** What a conditional kind becomes in the unit's present state. *)
Definition settled us (c : JobConf) : Key :=
  (jc_unit c, job_merge_unit_state (jc_kind c)
     (is_active_or_reloading (current_active_state (jc_unit c) us))).

Definition follows (mode : JobMode) : bool :=
  negb (bool_decide (mode = ModeIgnoreDependencies) || bool_decide (mode = ModeIgnoreRequirements)).
(** The jobs a job pulls in directly. *)
Definition pulled us mode (c : Key) : list Key :=
  if follows mode then settled us <$> asks c else [].
Definition pulls us mode (c c' : Key) : Prop := c' ∈ pulled us mode c.

Lemma settled_basic us c : job_is_basic_op (settled us c).2 = true.
Proof.
  unfold settled. simpl.
  by destruct (jc_kind c), (is_active_or_reloading (current_active_state (jc_unit c) us)).
Qed.
Lemma asks_unit c conf : conf ∈ asks c → ∃ a, jc_unit conf ∈ dep_gets_atom c.1 a.
Proof.
  unfold asks, asks_start, confs. intros Hin.
  destruct c.2; rewrite ?elem_of_app, ?list_elem_of_fmap in Hin; try (by inversion Hin);
    destruct_or?; naive_solver.
Qed.
End asks.

(** ** The staged jobs *)

Section stage.
Context `{HI : !HashIter} `{HC : !CondEnv} {W : Type} `{HS : !SubUnits W} `{HD : !UnitDb}.
Implicit Types (s old : Store W) (R : gset Key) (u : UnitId) (p : UvPtr) (d : JobUnitData).

(** The entry of a unit in the stage table: nothing is triggered, and every
    suspended job is a job of the unit, of its kind, in its initial state. *)
Record staged (h : gmap JobPtr Job) u d : Prop := {
  sd_unit : ju_unit d = u;
  sd_trigger : trigger d = None;
  sd_interrupt : interrupt d = false;
  sd_susp : ∀ k id, suspends d !! k = Some id → ∃ j,
    h !! id = Some j ∧ j_unit j = u ∧ j_kind j = k ∧ j_stage j = Init ∧ job_is_basic_op k = true
    ∧ job_ok j;
}.

(** What staging jobs leaves alone, since the store [old]: everything but the
    new jobs, the new job-units and the stage table. *)
Record stage_frame old s : Prop := {
  sf_heap : ∀ id j, st_heap old !! id = Some j → st_heap s !! id = Some j;
  sf_uvs : ∀ p, (p < st_next_uv old)%N → st_uvs s !! p = st_uvs old !! p;
  sf_next : (st_next_uv old <= st_next_uv s)%N;
  sf_rest : (st_re s, st_units s, st_timers s, st_last_unit s, st_jobs s, st_enabled s,
             st_running s, st_text s, st_stat s)
    = (st_re old, st_units old, st_timers old, st_last_unit old, st_jobs old, st_enabled old,
       st_running old, st_text old, st_stat old);
}.

(** The unit [u] has a staged job of kind [k]. *)
Definition recorded s u (k : JobKind) : Prop := ∃ p d,
  t_data (t_unit (st_stage s)) !! u = Some p ∧ st_uvs s !! p = Some d ∧ is_Some (suspends d !! k).

(** The stage table since [old], with the staged jobs [R]. *)
Record stage_inv old s R : Prop := {
  si_frame : stage_frame old s;
  si_alloc : alloc_ok s;
  si_tid : ∀ id, is_Some (t_id (st_stage s) !! id) → is_Some (st_heap s !! id);
  si_new : ∀ id, is_Some (t_id (st_stage s) !! id) → st_heap old !! id = None;
  si_fresh : ∀ p, is_Some (st_uvs s !! p) → (p < st_next_uv s)%N;
  si_uv : ∀ u p, t_data (t_unit (st_stage s)) !! u = Some p →
    (st_next_uv old <= p)%N ∧ ∃ d, st_uvs s !! p = Some d ∧ staged (st_heap s) u d;
  si_rec : ∀ u k, (u, k) ∈ R ↔ recorded s u k;
}.

Lemma wp_get_suspend old s R u k (Q : Store W → option JobPtr → Prop) :
  stage_inv old s R → (∀ o, is_Some o ↔ (u, k) ∈ R → Q s o) →
  wp (JobUnitTable.get_suspend Stage u k) s Q.
Proof.
  intros Hinv HQ. unfold JobUnitTable.get_suspend. rewrite wp_bind, wp_ut_get. simpl.
  destruct (t_data (t_unit (st_stage s)) !! u) as [p|] eqn:Hp.
  - destruct (si_uv _ _ _ Hinv u p Hp) as (_ & d & Hd & _).
    rewrite wp_bind. eapply wp_uv_get_at; [done|]. rewrite wp_ret. apply HQ.
    rewrite (si_rec _ _ _ Hinv). split; [intros ?; by exists p, d|].
    intros (p' & d' & Hp' & Hd' & ?). by simplify_eq.
  - rewrite wp_ret. apply HQ. rewrite (si_rec _ _ _ Hinv). split; [by intros [? ?]|].
    intros (p' & d' & Hp' & _). by rewrite Hp in Hp'.
Qed.

(** The entry of a unit, made if there is none. *)
Lemma wp_uv_pad old s R u (Q : Store W → UvPtr → Prop) :
  stage_inv old s R →
  (∀ s' p d, stage_inv old s' R → t_data (t_unit (st_stage s')) !! u = Some p →
     st_uvs s' !! p = Some d → st_heap s' = st_heap s → st_ja s' = st_ja s →
     t_id (st_stage s') = t_id (st_stage s) → Q s' p) →
  wp (JobUnitTable.get_mut_uv_pad Stage u) s Q.
Proof.
  intros Hinv HQ. unfold JobUnitTable.get_mut_uv_pad. rewrite wp_bind, wp_ut_get. simpl.
  destruct (t_data (t_unit (st_stage s)) !! u) as [p|] eqn:Hp.
  { destruct (si_uv _ _ _ Hinv u p Hp) as (_ & d & Hd & _). rewrite wp_ret. by eapply HQ. }
  rewrite wp_bind, wp_uv_new, wp_bind, wp_ut_modify, wp_ret.
  set (p := st_next_uv s). destruct Hinv as [[Hf1 Hf2 Hf3 Hf4] [Ha1 Ha2 Ha3] Ht Hnew Hfr Hu Hr].
  assert (st_uvs s !! p = None) as Hnone.
  { apply eq_None_not_Some. intros Hs%Hfr. unfold p in Hs. lia. }
  assert (∀ v q d, t_data (t_unit (st_stage s)) !! v = Some q → st_uvs s !! q = Some d → v ≠ u ∧ q ≠ p)
    as Hold.
  { intros v q d Hv Hq. split; [by intros ->; rewrite Hp in Hv|by intros ->; rewrite Hnone in Hq]. }
  eapply (HQ _ _ (JobUnitData_new u)); simpl; try done; try apply lookup_insert_eq.
  split; simpl; try done.
  - split; simpl; try done; [|lia]. intros q Hq. rewrite lookup_insert_ne; [by apply Hf2|].
    unfold p. lia.
  - intros q. rewrite lookup_insert_is_Some. intros [<-|[_ Hq%Hfr]]; unfold p in *; lia.
  - intros v q [[<- <-]|[Hne Hv]]%lookup_insert_Some.
    + split; [unfold p; lia|]. eexists. split; [apply lookup_insert_eq|]. split; try done.
    + destruct (Hu v q Hv) as (? & d & Hd & ?). split; [done|]. exists d.
      destruct (Hold v q d Hv Hd). by rewrite lookup_insert_ne.
  - intros v k. rewrite Hr. unfold recorded. simpl. split.
    + intros (q & d & Hv & Hq & Hk). destruct (Hold v q d Hv Hq). exists q, d.
      by rewrite !lookup_insert_ne.
    + intros (q & d & [[<- <-]|[Hne Hv]]%lookup_insert_Some & Hq & Hk).
      { rewrite lookup_insert_eq in Hq. simplify_eq. simpl in Hk. rewrite lookup_empty in Hk.
        by destruct Hk. }
      destruct (Hu v q Hv) as (_ & d' & Hd & _). destruct (Hold v q d' Hv Hd).
      rewrite lookup_insert_ne in Hq by done. by exists q, d.
Qed.

(** More jobs in the heap. *)
Lemma stage_inv_heap old s R ja h : stage_inv old s R →
  (∀ id j, st_heap s !! id = Some j → h !! id = Some j) →
  alloc_ok (set_st_ja ja (set_st_heap h s)) → stage_inv old (set_st_ja ja (set_st_heap h s)) R.
Proof.
  intros [[Hf1 Hf2 Hf3 Hf4] Ha Ht Hnew Hfr Hu Hr] Hh Hok. split; try done; simpl.
  - split; simpl; auto.
  - intros id Hid. destruct (Ht id Hid) as [j Hj]. eauto.
  - intros u p Hp. destruct (Hu u p Hp) as (? & d & Hd & [? ? ? Hs]).
    split; [done|]. exists d. split; [done|]. split; try done. intros k id Hk.
    destruct (Hs k id Hk) as (j & Hj & ?). eauto.
Qed.

Lemma wp_init_attr id j mode s (Q : Store W → unit → Prop) :
  st_heap s !! id = Some j → j_stage j = Init →
  (∀ a, Q (set_st_heap (<[id:=set_j_attr a j]> (st_heap s)) s) tt) →
  wp (Job.init_attr id mode) s Q.
Proof.
  intros Hj Hst HQ. unfold Job.init_attr. rewrite wp_bind. eapply wp_job_get_at; [done|].
  rewrite wp_bind, wp_massert. split; [by apply bool_decide_eq_true|].
  assert (∀ a s Q', st_heap s !! id = Some (set_j_attr a j) →
    (∀ a', Q' (set_st_heap (<[id:=set_j_attr a' j]> (st_heap s)) s) tt) →
    wp (mwhen (bool_decide (mode = ModeReplaceIrreversible))
      (job_modify id (λ j, set_j_attr (attr_set_irreversible true (j_attr j)) j))) s Q') as Hirr.
  { intros a s1 Q' Hs1 HQ'. rewrite wp_mwhen. case_bool_decide.
    { eapply wp_job_modify_at; [exact Hs1|]. apply (HQ' (attr_set_irreversible true a)). }
    specialize (HQ' a). by rewrite insert_id, set_heap_id in HQ'. }
  assert (set_j_attr (j_attr j) j = j) as Heq by by destruct j.
  rewrite wp_bind, wp_mwhen.
  destruct (bool_decide (mode = ModeIgnoreDependencies) || bool_decide (j_kind j = Nop)).
  - eapply wp_job_modify_at; [done|]. eapply Hirr; [apply lookup_insert_eq|]. intros a'. simpl.
    rewrite insert_insert_eq. apply HQ.
  - apply (Hirr (j_attr j)); [by rewrite Heq|exact HQ].
Qed.

(** The job-unit's insertion of a job. *)
Definition inserted id k d : JobUnitData :=
  norm (set_dirty true (set_order false (set_suspends (<[k:=id]> (suspends d)) d))).

Lemma wp_insert_suspend id j p d (op : bool) s (Q : Store W → option JobPtr → Prop) :
  st_uvs s !! p = Some d → st_heap s !! id = Some j → job_is_basic_op (j_kind j) = true →
  trigger d ≠ Some id → suspends d !! j_kind j = None →
  wp (mwhen op (Job.wait id)) (upd_uv p (inserted id (j_kind j) d) s) (λ s' _, Q s' None) →
  wp (JobUnitData.insert_suspend p id op) s Q.
Proof.
  intros Hd Hj Hb Ht Hk HQ. unfold JobUnitData.insert_suspend.
  rewrite wp_bind. eapply wp_job_get_at; [done|]. rewrite wp_bind, wp_massert. split; [done|].
  rewrite wp_bind. eapply wp_uv_get_at; [done|]. rewrite wp_bind, wp_massert.
  split; [unfold JobUnitData.is_trigger; by rewrite bool_decide_false|]. cbv zeta.
  rewrite wp_bind. eapply wp_uv_modify_at; [done|]. rewrite wp_bind, wp_massert.
  split; [by apply bool_decide_eq_true|].
  rewrite wp_bind. eapply wp_uv_modify_at; [apply lookup_upd_uv|]. rewrite upd_uv_upd, wp_bind.
  eapply wp_make_dirty; [apply lookup_upd_uv|by intros [=]|]. rewrite upd_uv_upd.
  rewrite wp_bind. eapply wp_mono; [exact HQ|]. intros s' [] HQ'. by rewrite wp_ret, Hk.
Qed.

Lemma wp_stage_insert old s R id j (Q : Store W → Result unit Error → Prop) :
  stage_inv old s R → st_heap s !! id = Some j → t_id (st_stage s) !! id = None →
  j_stage j = Init → job_is_basic_op (j_kind j) = true → job_ok j → st_heap old !! id = None →
  (j_unit j, j_kind j) ∉ R →
  (∀ s', stage_inv old s' ({[(j_unit j, j_kind j)]} ∪ R) → st_ja s' = st_ja s → Q s' (Ok tt)) →
  wp (JobTable.insert_suspend Stage id) s Q.
Proof.
  intros Hinv Hj Htid Hst Hb Hok Hold HR HQ. unfold JobTable.insert_suspend. rewrite wp_bind, wp_tid_get.
  simpl get_table. rewrite Htid, is_some_None, wp_bind.
  unfold JobUnitTable.insert_suspend. rewrite wp_bind. eapply wp_job_get_at; [done|].
  rewrite wp_bind. eapply wp_uv_pad; [done|]. clear Hinv. intros s1 p d Hinv Hp Hd Hh1 Hja Htid1.
  destruct (si_uv _ _ _ Hinv _ _ Hp) as (Hge & d' & Hd' & Hstg). simplify_eq.
  assert (suspends d !! j_kind j = None) as Hk.
  { apply eq_None_not_Some. intros Hk. apply HR, (si_rec _ _ _ Hinv). by exists p, d. }
  rewrite wp_bind. eapply wp_insert_suspend; [done|by rewrite Hh1|done|by destruct Hstg as [_ -> _ _]|done|].
  cbn [mwhen]. rewrite wp_ret, wp_bind. eapply wp_uv_get_at; [apply lookup_upd_uv|].
  rewrite wp_bind, wp_massert. split; [done|]. rewrite wp_bind, wp_ut_modify, wp_ret.
  rewrite is_some_None, wp_bind, wp_tid_modify, wp_ret. apply HQ; [|done].
  set (dn := inserted id (j_kind j) d).
  destruct Hinv as [[Hf1 Hf2 Hf3 Hf4] [Ha1 Ha2 Ha3] Ht Hnew Hfr Hu Hr]. split; simpl; try done.
  - split; simpl; try done. intros q Hq. rewrite lookup_insert_ne; [by apply Hf2|]. lia.
  - intros i. rewrite Htid1, lookup_insert_is_Some. intros [<-|[_ Hi]]; [rewrite Hh1; eauto|].
    apply Ht. by rewrite Htid1.
  - intros i. rewrite Htid1, lookup_insert_is_Some. intros [<-|[_ Hi]]; [done|].
    apply Hnew. by rewrite Htid1.
  - intros q. rewrite lookup_insert_is_Some. intros [<-|[_ Hq]]; apply Hfr; eauto.
  - intros v q Hq. destruct (Hu v q Hq) as (? & dq & Hdq & [Hu1 Hu2 Hu3 Hu4]). split; [done|].
    destruct (decide (q = p)) as [->|Hne].
    + exists dn. rewrite lookup_insert_eq. split; [done|]. simplify_eq.
      split; try done. simpl. intros k i [[<- <-]|[_ Hi]]%lookup_insert_Some; [|by apply Hu4].
      exists j. rewrite Hh1. split_and!; try done. by destruct Hstg.
    + exists dq. by rewrite lookup_insert_ne.
  - intros v k. rewrite elem_of_union, elem_of_singleton, Hr. unfold recorded. simpl. split.
    + intros [[= -> ->]|(q & dq & Hq & Hdq & Hkq)].
      * exists p, dn. rewrite lookup_insert_eq. split_and!; [done..|]. simpl.
        rewrite lookup_insert_eq. eauto.
      * destruct (decide (q = p)) as [->|]; [|by exists q, dq; rewrite lookup_insert_ne].
        simplify_eq. exists p, dn. rewrite lookup_insert_eq. split_and!; [done..|]. simpl.
        rewrite lookup_insert_is_Some. destruct (decide (j_kind j = k)); eauto.
    + intros (q & dq & Hq & Hdq & Hkq). destruct (decide (q = p)) as [->|].
      * rewrite lookup_insert_eq in Hdq. simplify_eq. simpl in Hkq.
        apply lookup_insert_is_Some in Hkq as [<-|[_ Hkq]].
        -- left. f_equal. destruct (Hu _ _ Hq) as (_ & d2 & Hd2 & [Hu1 _ _ _]). simplify_eq.
           destruct Hstg as [Hu1' _ _ _]. congruence.
        -- right. by exists p, d.
      * rewrite lookup_insert_ne in Hdq by done. right. by exists q, dq.
Qed.
End stage.

(** ** The expansion *)

Definition basic_kinds : list JobKind := [Start; Stop; Reload; Restart; Verify; Nop].
(** Every job that can be staged for the units [U]. *)
Definition all_keys (U : gset UnitId) : gset Key :=
  list_to_set (k ← basic_kinds; (λ u, (u, k)) <$> elements U).

Lemma elem_of_all_keys U u k : u ∈ U → job_is_basic_op k = true → (u, k) ∈ all_keys U.
Proof.
  intros Hu Hk. unfold all_keys. apply elem_of_list_to_set, list_elem_of_bind. exists k.
  split; [|by destruct k; (done || set_solver)].
  apply list_elem_of_fmap. exists u. split; [done|by apply elem_of_elements].
Qed.
Lemma size_all_keys U : size (all_keys U) ≤ 6 * size U.
Proof.
  assert (∀ l : list Key, size (list_to_set (C := gset Key) l) ≤ length l) as Hl.
  { intros l. induction l as [|x l IH]; [by rewrite list_to_set_nil, size_empty|].
    rewrite list_to_set_cons, size_union_alt, size_singleton. simpl. apply le_n_S.
    etrans; [apply subseteq_size|exact IH]. set_solver. }
  etrans; [apply Hl|]. simpl. rewrite !length_app, !length_fmap. simpl.
  unfold size, set_size. simpl. lia.
Qed.

Section expand.
Context `{HI : !HashIter} `{HC : !CondEnv} {W : Type} `{HS : !SubUnits W} `{HD : !UnitDb}.
Context (U : gset UnitId) (HU : ∀ u a v, u ∈ U → v ∈ dep_gets_atom u a → v ∈ U).
Context (old : Store W) (mode : JobMode).
Implicit Types (s : Store W) (R : gset Key) (u : UnitId).

(** The jobs left to record, which bound the recursion and the ids needed. *)
Definition left_to_record R : nat := size (all_keys U ∖ R).
Record expandable s R : Prop := {
  ep_inv : stage_inv old s R;
  ep_ids : (Z.of_nat (size (ids (st_ja s)) + left_to_record R) <= 2 ^ 32)%Z;
}.

Lemma left_to_record_lt u k R : u ∈ U → job_is_basic_op k = true → (u, k) ∉ R →
  S (left_to_record ({[(u, k)]} ∪ R)) ≤ left_to_record R.
Proof.
  intros Hu Hk HR. unfold left_to_record. apply subset_size. split; [set_solver|].
  intros Hsub. specialize (Hsub (u, k)). pose proof (elem_of_all_keys U u k Hu Hk). set_solver.
Qed.
Lemma left_to_record_le R R' : R ⊆ R' → left_to_record R' ≤ left_to_record R.
Proof. intros HR. unfold left_to_record. apply subseteq_size. set_solver. Qed.

Lemma wp_record_suspend s R c (Q : Store W → bool → Prop) :
  expandable s R → jc_unit c ∈ U → job_is_basic_op (jc_kind c) = true →
  (key c ∈ R → Q s false) →
  (∀ s', key c ∉ R → expandable s' ({[key c]} ∪ R) → Q s' true) →
  wp (JobTable.record_suspend Stage c mode) s Q.
Proof.
  intros [Hinv Hids] Hu Hk Hold Hnew. unfold JobTable.record_suspend. rewrite wp_bind.
  eapply wp_get_suspend; [done|]. intros o Ho. destruct o as [o|].
  { rewrite is_some_Some. cbn [negb]. rewrite wp_ret. apply Hold, Ho. eauto. }
  assert (key c ∉ R) as HR. { intros HR%Ho. by destruct HR. }
  rewrite is_some_None. cbn [negb]. rewrite wp_bind.
  pose proof (left_to_record_lt _ _ _ Hu Hk HR) as Hlt.
  eapply wp_job_alloc; [apply Hinv|unfold alloc_left; lia|]. intros id t s1 Hid Hnone Hrange Hok1.
  rewrite wp_bind. set (j := set_j_timer t (Job.new (jc_unit c) (jc_kind c))).
  eapply (wp_init_attr id j); [apply lookup_insert_eq|done|]. intros a. simpl.
  rewrite insert_insert_eq. set (j' := set_j_attr a j). set (s2 := set_st_heap _ _).
  set (ja := {| ids := {[id]} ∪ ids (st_ja s); last_id := id |}).
  assert (s2 = set_st_ja ja (set_st_heap (<[id:=j']> (st_heap s)) s)) as -> by done.
  rewrite wp_bind.
  eapply (wp_stage_insert old _ R id j').
  - apply stage_inv_heap; [done| |].
    + intros i ji Hi. rewrite lookup_insert_ne; [done|]. intros ->. by rewrite Hnone in Hi.
    + destruct Hok1 as [H1 H2 H3]. split; simpl in *; try done. intros i.
      rewrite lookup_insert_is_Some. intros [->|[_ Hi]]; [set_solver|].
      apply H3. rewrite lookup_insert_is_Some. destruct (decide (id = i)); eauto.
  - apply lookup_insert_eq.
  - simpl. apply eq_None_not_Some. intros Hi%(si_tid _ _ _ Hinv). rewrite Hnone in Hi. by destruct Hi.
  - done.
  - done.
  - apply (proj1 (job_new_ok (jc_unit c) (jc_kind c))).
  - destruct (st_heap old !! id) as [ji|] eqn:Hi; [|done].
    apply (sf_heap _ _ (si_frame _ _ _ Hinv)) in Hi. by rewrite Hnone in Hi.
  - done.
  - intros s' Hinv' Hja'. rewrite wp_bind, wp_massert. split; [done|]. rewrite wp_ret.
    apply Hnew; [done|]. split; [done|]. rewrite Hja'. simpl.
    rewrite size_union by set_solver. rewrite size_singleton. unfold key in *. lia.
Qed.

(** ** The loops of one expansion, given its recursive calls *)
Section calls.
Context (n : nat) (rec : JobConf → J W (Result unit Error)).
Abbreviation pl := (pulls (st_units old) mode).
(** A call on a unit of [U] succeeds and explores its job. *)
Hypothesis rec_ok : ∀ c s R, jc_unit c ∈ U → expandable s R → left_to_record R < n →
  wp (rec c) s (λ s' r, r = Ok tt ∧ ∃ R', expandable s' R' ∧
    explored pl [settled (st_units old) c] R R').

Definition explores {A} (m : J W A) (P : A → Prop) (l : list JobConf) : Prop :=
  ∀ s R, expandable s R → left_to_record R < n →
  wp m s (λ s' r, P r ∧ ∃ R', expandable s' R' ∧
    explored pl (settled (st_units old) <$> l) R R').

Lemma explores_bind {A B} (m : J W A) (k : A → J W B) P P' l1 l2 :
  explores m P l1 → (∀ a, P a → explores (k a) P' l2) → explores (m ≫= k) P' (l1 ++ l2).
Proof.
  intros Hm Hk s R Hs Hn. rewrite wp_bind. eapply wp_mono; [by apply Hm|].
  intros s1 a (Ha & R1 & Hs1 & He1). eapply wp_mono; [apply (Hk a Ha s1 R1 Hs1)|].
  { pose proof (left_to_record_le _ _ (ex_sub _ _ _ _ He1)). lia. }
  intros s2 b (Hb & R2 & Hs2 & He2). split; [done|]. exists R2. split; [done|].
  rewrite fmap_app. by eapply explored_app.
Qed.
Lemma explores_ret {A} (a : A) (P : A → Prop) : P a → explores (mret a) P [].
Proof. intros Ha s R Hs Hn. rewrite wp_ret. split; [done|]. exists R. split; [done|apply explored_nil]. Qed.
Lemma explores_rec c : jc_unit c ∈ U → explores (rec c) (λ r, r = Ok tt) [c].
Proof. intros Hc s R Hs Hn. by apply rec_ok. Qed.

Lemma explores_foreach_ignoring kind l : (∀ u, u ∈ l → u ∈ U) →
  explores (foreach_ignoring (expand_kind rec kind) l) (λ _, True) (confs kind l).
Proof.
  unfold foreach_ignoring. intros Hl. induction l as [|u l IH]; simpl; [by apply explores_ret|].
  apply (explores_bind _ _ (λ _, True) _ [{| jc_unit := u; jc_kind := kind |}]).
  - rewrite <-(app_nil_r [_]). eapply explores_bind; [apply explores_rec, Hl; by left|].
    intros r _. by apply explores_ret.
  - intros _ _. apply IH. intros v Hv. apply Hl. by right.
Qed.
Lemma explores_foreach_bad_request kind l : (∀ u, u ∈ l → u ∈ U) →
  explores (foreach_bad_request (expand_kind rec kind) l) (λ r, r = Ok tt) (confs kind l).
Proof.
  intros Hl. induction l as [|u l IH]; simpl; [by apply explores_ret|].
  apply (explores_bind _ _ (λ r, r = Ok tt) _ [{| jc_unit := u; jc_kind := kind |}]).
  - apply explores_rec, Hl. by left.
  - intros r ->. apply IH. intros v Hv. apply Hl. by right.
Qed.
Lemma explores_and_then m k l1 l2 : explores m (λ r, r = Ok tt) l1 → explores k (λ r, r = Ok tt) l2 →
  explores (and_then m k) (λ r, r = Ok tt) (l1 ++ l2).
Proof. intros Hm Hk. eapply explores_bind; [done|]. by intros r ->. Qed.

Lemma explores_start u : u ∈ U →
  explores (trans_expand_start rec u) (λ r, r = Ok tt) (asks_start u).
Proof.
  intros Hu. pose proof (λ a v, HU u a v Hu) as Hin.
  unfold trans_expand_start, asks_start.
  eapply explores_bind; [by apply explores_foreach_ignoring, Hin|]. intros _ _.
  eapply explores_bind; [by apply explores_foreach_ignoring, Hin|]. intros _ _.
  eapply explores_and_then; [by apply explores_foreach_bad_request, Hin|].
  eapply explores_and_then; [by apply explores_foreach_bad_request, Hin|].
  rewrite <-(app_nil_r (confs Stop _)).
  eapply explores_bind; [by apply explores_foreach_ignoring, Hin|]. intros _ _.
  by apply explores_ret.
Qed.

Lemma explores_conf c : jc_unit c ∈ U → job_is_basic_op (jc_kind c) = true →
  explores (trans_expand_conf rec c) (λ r, r = Ok tt) (asks (key c)).
Proof.
  intros Hu Hk. pose proof (λ a v, HU _ a v Hu) as Hin.
  unfold trans_expand_conf, trans_expand_stop, trans_expand_reload, asks, key. simpl.
  destruct (jc_kind c); try done.
  - by apply explores_start.
  - apply explores_foreach_bad_request, Hin.
  - rewrite <-(app_nil_r (confs TryReload _)).
    eapply explores_bind; [by apply explores_foreach_ignoring, Hin|]. intros _ _.
    by apply explores_ret.
  - eapply explores_and_then; [by apply explores_start|].
    apply explores_foreach_bad_request, Hin.
  - by apply explores_ret.
  - by apply explores_ret.
Qed.
End calls.

Lemma expandable_units s R : expandable s R → st_units s = st_units old.
Proof. intros [[[_ _ _ Hf] _ _ _ _ _ _] _]. by simplify_eq. Qed.

Lemma wp_job_trans_expand n c s R : jc_unit c ∈ U → expandable s R → left_to_record R < n →
  wp (job_trans_expand n Stage c mode) s (λ s' r, r = Ok tt ∧ ∃ R', expandable s' R' ∧
    explored (pulls (st_units old) mode) [settled (st_units old) c] R R').
Proof.
  revert c s R. induction n as [|n IH]; intros c s R Hu Hs Hn; [lia|]. simpl.
  unfold JobConf_map, job_merge_unit, active_state.
  rewrite !wp_bind, wp_mgets, wp_ret, wp_ret, (expandable_units _ _ Hs). rewrite wp_bind.
  set (conf := {| jc_unit := jc_unit c; jc_kind := _ |}).
  assert (key conf = settled (st_units old) c) as Hkey by done.
  assert (job_is_basic_op (jc_kind conf) = true) as Hb by apply settled_basic.
  assert (jc_unit conf ∈ U) as Hu1 by done. clearbody conf. clear Hu. rename Hu1 into Hu.
  eapply (wp_record_suspend s R conf); [done|done|done| |]; rewrite <-Hkey.
  { intros Hin. assert (trans_is_expand conf false mode = false) as ->.
    { unfold trans_is_expand. by case_decide. }
    rewrite wp_ret. split; [done|]. exists R. split; [done|by apply explored_seen]. }
  intros s1 HR Hs1. set (R1 := {[key conf]} ∪ R).
  assert (left_to_record R1 < n) as Hn1.
  { pose proof (left_to_record_lt _ _ _ Hu Hb HR) as Hlt. eapply Nat.lt_le_trans; [exact Hlt|]. lia. }
  assert (∀ s' (r : Result unit Error) R', r = Ok tt → expandable s' R' →
    explored (pulls (st_units old) mode) (pulled (st_units old) mode (key conf)) R1 R' →
    r = Ok tt ∧ ∃ R', expandable s' R' ∧ explored (pulls (st_units old) mode) [key conf] R R') as Hend.
  { intros s' r R' -> Hs' He. split; [done|]. exists R'. split; [done|].
    by eapply explored_node; [|exact He]. }
  assert (trans_is_expand conf true mode = true ∧ follows mode = true ∨
          trans_is_expand conf true mode = false ∧ pulled (st_units old) mode (key conf) = [])
    as [[-> Hf]|[-> Hp]].
  { unfold trans_is_expand, pulled, follows. simpl. case_decide as Hnop; simpl.
    - right. split; [done|]. unfold asks, key. rewrite Hnop. by case_match.
    - destruct (bool_decide (mode = ModeIgnoreDependencies)
        || bool_decide (mode = ModeIgnoreRequirements)); [right|left]; done. }
  - eapply wp_mono.
    + eapply (explores_conf n (λ c, job_trans_expand n Stage c mode)); [|done..].
      intros c' s' R' Hu' Hs' Hn'. by apply IH.
    + intros s' r [Hr (R' & Hs' & He)]. eapply Hend; [done|done|]. unfold pulled. by rewrite Hf.
  - rewrite wp_ret. eapply Hend; [done|done|]. rewrite Hp. apply explored_nil.
Qed.
End expand.

(** ** Properties *)
Section properties.
Context `{HI : !HashIter} `{HC : !CondEnv} {W : Type} `{HS : !SubUnits W} `{HD : !UnitDb}.
Implicit Types (s : Store W) (u : UnitId).

(** Handles of job-units are not reused. *)
Definition uvs_fresh s : Prop := ∀ p, is_Some (st_uvs s !! p) → (p < st_next_uv s)%N.

Lemma stage_inv_new s : alloc_ok s → uvs_fresh s → st_stage s = JobTable_new → stage_inv s s ∅.
Proof.
  intros Ha Hfr Hst. split; try done.
  - intros id. rewrite Hst. simpl. by intros [? ?].
  - intros id. rewrite Hst. simpl. by intros [? ?].
  - intros u p. by rewrite Hst.
  - intros u k. split; [by intros ?%elem_of_empty|]. intros (p & d & Hp & _). by rewrite Hst in Hp.
Qed.

(** C2: expanding a request.  Let [U] hold the requested unit and whatever its
    members depend on.  From an empty stage, with fuel for each pair of a unit of
    [U] and one of the six basic kinds, and as many ids left, [job_trans_expand]
    ends without an error, never panics, and leaves staged {e exactly} the
    closure of the requested job under what jobs pull in (dependencies ignored
    in the two ignoring modes), however the dependencies are cyclic.  Nothing
    but new jobs, new job-units and the stage table changes. *)
Theorem job_trans_expand_closure (U : gset UnitId) fuel config mode s :
  (∀ u a v, u ∈ U → v ∈ dep_gets_atom u a → v ∈ U) → jc_unit config ∈ U →
  alloc_ok s → uvs_fresh s → st_stage s = JobTable_new →
  (Z.of_nat (size (ids (st_ja s)) + 6 * size U) <= 2 ^ 32)%Z → 6 * size U < fuel →
  wp (job_trans_expand fuel Stage config mode) s (λ s' r,
    r = Ok tt ∧ stage_frame s s' ∧ alloc_ok s' ∧
    ∀ u k, recorded s' u k ↔
      rtc (pulls (st_units s) mode) (settled (st_units s) config) (u, k)).
Proof.
  intros HU Hu Ha Hfr Hst Hids Hfuel.
  assert (left_to_record U ∅ ≤ 6 * size U) as Hle.
  { etrans; [|apply size_all_keys]. unfold left_to_record. apply subseteq_size. set_solver. }
  eapply wp_mono.
  - apply (wp_job_trans_expand U HU s mode fuel config s ∅); [done| |lia].
    split; [by apply stage_inv_new|lia].
  - intros s' r (-> & R & [Hinv _] & He). split_and!; [done|apply Hinv|apply Hinv|].
    intros u k. rewrite <-(si_rec _ _ _ Hinv). by apply explored_closure.
Qed.
End properties.

(** ** A concrete expansion: two units that pull each other in *)
#[local] Existing Instance hash_iter_canonical.
#[local] Existing Instance cond_env_sample.

Definition cycle_edges : list (UnitId * UnitRelationAtom * UnitId) :=
  [("a.target", UnitAtomPullInStart, "b.target"); ("b.target", UnitAtomPullInStart, "a.target")].
Definition cycle_db : UnitDb := edges_UnitDb ["a.target"; "b.target"] cycle_edges.
Definition cycle_units : gset UnitId := {["a.target"; "b.target"]}.

Lemma cycle_closed u a v : u ∈ cycle_units → v ∈ edges_gets cycle_edges u a → v ∈ cycle_units.
Proof.
  intros _ Hv. unfold edges_gets in Hv. apply list_elem_of_fmap in Hv as (e & -> & He).
  apply list_elem_of_filter in He as [_ He]. unfold cycle_edges in He. unfold cycle_units. set_solver.
Qed.

Lemma job_trans_expand_closure_witness :
  wp (job_trans_expand (HD := cycle_db) 13 Stage {| jc_unit := "a.target"; jc_kind := Start |}
        ModeReplace) sample_store
    (λ s' r, r = Ok tt ∧ recorded s' "b.target" Start).
Proof.
  eapply wp_mono.
  - apply (job_trans_expand_closure (HD := cycle_db) cycle_units).
    + exact cycle_closed.
    + set_solver.
    + apply alloc_ok_sample.
    + intros p [d Hd]. change ((∅ : gmap UvPtr JobUnitData) !! p = Some d) in Hd.
      by rewrite lookup_empty in Hd.
    + reflexivity.
    + apply Z.leb_le. by vm_compute.
    + apply Nat.ltb_lt. by vm_compute.
  - intros s' r (Hr & _ & _ & Hrec). split; [exact Hr|]. apply Hrec. apply rtc_once.
    unfold pulls. apply (bool_decide_eq_true_1 _). by vm_compute.
Defined.
