(* ===== verification/JobVerifyFacts.v ===== *)
(** * Facts about the verification of a transaction

    When a staged transaction is refused ([job_trans_verify]), and what that
    means for a request: a refused request changes nothing but the stage
    ([JobTrans.v], [JobManager.v]). *)
From S2P Require Import Prelude UnitTypes ReDb UnitDb RateLimit Condition UnitEntry Target.
From S2P Require Import JobRentry JobData JobStat JobStore JobEntry JobUnit JobTable JobTrans.
From S2P Require Import JobNotify JobManager JobSample JobEntryFacts JobUnitFacts JobTransFacts.

(** The kinds a stop conflicts with. *)
Definition other_kind (k : JobKind) : Prop := k ≠ Stop ∧ k ≠ Nop.

Lemma stop_len d : (0 <? JobUnitData.suspends_kind_len d Stop) = is_some (suspends d !! Stop).
Proof. unfold JobUnitData.suspends_kind_len. by destruct (suspends d !! Stop). Qed.
Lemma others_len d :
  (0 <? JobUnitData.num_others d) = true ↔ ∃ k, is_Some (suspends d !! k) ∧ other_kind k.
Proof.
  rewrite Nat.ltb_lt, num_others_delete, <-Nat.neq_0_lt_0, map_size_ne_0_lookup.
  apply exist_proper. intros k. unfold other_kind. split.
  - intros [i Hi]. apply lookup_delete_Some in Hi as [? Hi].
    apply lookup_delete_Some in Hi as [? Hi]. eauto.
  - intros ([i Hi] & ? & ?). exists i. by rewrite !lookup_delete_ne.
Qed.
Lemma no_conflict_iff d : JobUnitData.is_suspends_conflict d = true ↔
  is_Some (suspends d !! Stop) ∧ ∃ k, is_Some (suspends d !! k) ∧ other_kind k.
Proof.
  unfold JobUnitData.is_suspends_conflict. rewrite andb_true_iff, others_len.
  fold (JobUnitData.suspends_kind_len d Stop). rewrite stop_len, bool_decide_eq_true. done.
Qed.

(** One side's stop against the other side's jobs. *)
Definition clashing (d o : JobUnitData) : Prop :=
  (is_Some (suspends o !! Stop) ∧ ∃ k, is_Some (suspends d !! k) ∧ other_kind k)
  ∨ (is_Some (suspends d !! Stop) ∧ ∃ k, is_Some (suspends o !! k) ∧ other_kind k).

Lemma add_pos n m : (0 <? n + m) = (0 <? n) || (0 <? m).
Proof. by destruct n, m. Qed.

Lemma conflict_with_iff d o :
  JobUnitData.is_suspends_conflict d = false → JobUnitData.is_suspends_conflict o = false →
  JobUnitData.is_suspends_conflict_with d o = true ↔ clashing d o.
Proof.
  intros Hd%not_true_iff_false Ho%not_true_iff_false. rewrite no_conflict_iff in Hd, Ho.
  unfold JobUnitData.is_suspends_conflict_with, clashing.
  rewrite andb_true_iff, !add_pos, !orb_true_iff, !stop_len, !others_len, !bool_decide_eq_true.
  tauto.
Qed.

Section verify.
Context `{HI : !HashIter} `{HC : !CondEnv} {W : Type} `{HS : !SubUnits W} `{HD : !UnitDb}.
Implicit Types (s old : Store W) (R : gset Key) (P : Key → Prop) (u : UnitId) (p : UvPtr).
Implicit Types (d : JobUnitData) (mode : JobMode).

(** ** The jobs already accepted *)

(** A job of kind [k] of the unit waits in the jobs table. *)
Definition waiting s u (k : JobKind) : Prop := ∃ p d,
  t_data (t_unit (st_jobs s)) !! u = Some p ∧ st_uvs s !! p = Some d ∧ is_Some (suspends d !! k).
(** One of the unit's waiting jobs must not be replaced. *)
Definition irreplaceable s u : Prop := ∃ p d k id j,
  t_data (t_unit (st_jobs s)) !! u = Some p ∧ st_uvs s !! p = Some d
  ∧ suspends d !! k = Some id ∧ st_heap s !! id = Some j ∧ irreversible (j_attr j) = true.

(** The entries of the jobs table can be read, and none conflicts in itself. *)
Definition jobs_readable s : Prop := ∀ u p, t_data (t_unit (st_jobs s)) !! u = Some p →
  ∃ d, st_uvs s !! p = Some d ∧ JobUnitData.is_suspends_conflict d = false
       ∧ ∀ k id, suspends d !! k = Some id → is_Some (st_heap s !! id).

(** The jobs [P] to accept conflict among themselves. *)
Definition conflicting P : Prop := ∃ u k, P (u, Stop) ∧ P (u, k) ∧ other_kind k.
(** Those of the unit conflict with its waiting ones. *)
Definition clash s P u : Prop :=
  (P (u, Stop) ∧ ∃ k, waiting s u k ∧ other_kind k)
  ∨ (waiting s u Stop ∧ ∃ k, P (u, k) ∧ other_kind k).

(** [clash], on the two entries of the unit. *)
Lemma clash_entry old s R u p d q o : stage_inv old s R →
  t_data (t_unit (st_jobs s)) !! u = Some p → st_uvs s !! p = Some d →
  t_data (t_unit (st_stage s)) !! u = Some q → st_uvs s !! q = Some o →
  clash s (.∈ R) u ↔ clashing d o.
Proof.
  intros Hinv Hp Hd Hq Ho. unfold clash, clashing.
  assert (∀ k, waiting s u k ↔ is_Some (suspends d !! k)) as Hw.
  { intros k. split; [intros (p' & d' & ? & ? & ?); by simplify_eq|by exists p, d]. }
  assert (∀ k, (u, k) ∈ R ↔ is_Some (suspends o !! k)) as Hr.
  { intros k. rewrite (si_rec _ _ _ Hinv).
    split; [intros (q' & o' & ? & ? & ?); by simplify_eq|by exists q, o]. }
  setoid_rewrite Hw. setoid_rewrite Hr. done.
Qed.

(** A clash is on a unit with an entry in both tables. *)
Lemma clash_entries old s R u : stage_inv old s R → jobs_readable s → clash s (.∈ R) u →
  ∃ p d q o, t_data (t_unit (st_jobs s)) !! u = Some p ∧ st_uvs s !! p = Some d
    ∧ t_data (t_unit (st_stage s)) !! u = Some q ∧ st_uvs s !! q = Some o.
Proof.
  intros Hinv Hj [[HR (k & (p & d & ? & ? & _) & _)]|[(p & d & ? & ? & _) (k & HR & _)]];
    apply (si_rec _ _ _ Hinv) in HR as (q & o & ? & ? & _); by exists p, d, q, o.
Qed.

Lemma wp_stage_conflict old s R (Q : Store W → bool → Prop) : stage_inv old s R →
  (∀ b, b = true ↔ conflicting (.∈ R) → Q s b) → wp (JobUnitTable.is_suspends_conflict Stage) s Q.
Proof.
  intros Hinv HQ. unfold JobUnitTable.is_suspends_conflict. rewrite wp_bind, wp_ut_get. simpl.
  set (g p := match st_uvs s !! p with Some d => JobUnitData.is_suspends_conflict d | _ => false end).
  apply (wp_mexistsb g).
  - intros p [u Hu]%elem_of_hm_values.
    destruct (si_uv _ _ _ Hinv u p Hu) as (_ & d & Hd & _).
    rewrite wp_bind. eapply wp_uv_get_at; [done|]. rewrite wp_ret. unfold g. by rewrite Hd.
  - apply HQ. rewrite existsb_exists. split.
    + intros (p & Hp & Hg). rewrite <-list_elem_of_In in Hp. apply elem_of_hm_values in Hp as [u Hu].
      destruct (si_uv _ _ _ Hinv u p Hu) as (_ & d & Hd & _). unfold g in Hg. rewrite Hd in Hg.
      apply no_conflict_iff in Hg as [Hs (k & Hk & Hok)]. exists u, k.
      rewrite !(si_rec _ _ _ Hinv). split_and!; [by exists p, d..|done].
    + intros (u & k & Hs & Hk & Hok). apply (si_rec _ _ _ Hinv) in Hs as (p & d & Hp & Hd & Hs).
      apply (si_rec _ _ _ Hinv) in Hk as (p' & d' & Hp' & Hd' & Hk). simplify_eq.
      exists p. rewrite <-list_elem_of_In, elem_of_hm_values. split; [by exists u|].
      unfold g. rewrite Hd. apply no_conflict_iff. eauto.
Qed.

Lemma wp_jobs_conflict s (Q : Store W → bool → Prop) : jobs_readable s → Q s false →
  wp (JobUnitTable.is_suspends_conflict Jobs) s Q.
Proof.
  intros Hj HQ. unfold JobUnitTable.is_suspends_conflict. rewrite wp_bind, wp_ut_get. simpl.
  apply (wp_mexistsb (λ _, false)).
  - intros p [u Hu]%elem_of_hm_values. destruct (Hj u p Hu) as (d & Hd & Hc & _).
    rewrite wp_bind. eapply wp_uv_get_at; [done|]. by rewrite wp_ret.
  - induction (hm_values _); done.
Qed.

Lemma stage_no_conflict old s R u q o : stage_inv old s R → ¬ conflicting (.∈ R) →
  t_data (t_unit (st_stage s)) !! u = Some q → st_uvs s !! q = Some o →
  JobUnitData.is_suspends_conflict o = false.
Proof.
  intros Hinv Hnc Hq Ho. apply not_true_iff_false. rewrite no_conflict_iff.
  intros [Hs (k & Hk & Hok)]. apply Hnc. exists u, k.
  rewrite !(si_rec _ _ _ Hinv). split_and!; [by exists q, o..|done].
Qed.

(** The loops over the jobs table that look at the two entries of a unit. *)
Definition both_entries (g : JobUnitData → JobUnitData → bool) (dflt : bool) s
    (uuv : UnitId * UvPtr) : bool :=
  match t_data (t_unit (st_stage s)) !! uuv.1 with
  | Some q =>
    match st_uvs s !! uuv.2, st_uvs s !! q with Some d, Some o => g d o | _, _ => dflt end
  | None => dflt
  end.

Lemma wp_both_entries old s R g dflt (f : JobUnitData → JobUnitData → J W bool) u p :
  stage_inv old s R → jobs_readable s → t_data (t_unit (st_jobs s)) !! u = Some p →
  (∀ d o q, st_uvs s !! p = Some d → t_data (t_unit (st_stage s)) !! u = Some q →
     st_uvs s !! q = Some o → wp (f d o) s (λ s' b, s' = s ∧ b = g d o)) →
  wp (match t_data (t_unit (st_stage s)) !! u with
      | Some o_uv => d ← uv_get p; od ← uv_get o_uv; f d od
      | None => mret dflt
      end) s (λ s' b, s' = s ∧ b = both_entries g dflt s (u, p)).
Proof.
  intros Hinv Hj Hp Hf. unfold both_entries. simpl.
  destruct (t_data (t_unit (st_stage s)) !! u) as [q|] eqn:Hq; [|by rewrite wp_ret].
  destruct (Hj u p Hp) as (d & Hd & _). destruct (si_uv _ _ _ Hinv u q Hq) as (_ & o & Ho & _).
  rewrite wp_bind. eapply wp_uv_get_at; [done|]. rewrite wp_bind. eapply wp_uv_get_at; [done|].
  rewrite Hd, Ho. by eapply Hf.
Qed.

Lemma wp_conflict_with old s R (Q : Store W → bool → Prop) :
  stage_inv old s R → jobs_readable s → ¬ conflicting (.∈ R) →
  (∀ b, b = true ↔ (∃ u, clash s (.∈ R) u) → Q s b) →
  wp (JobUnitTable.is_suspends_conflict_with Jobs Stage) s Q.
Proof.
  intros Hinv Hj Hnc HQ. unfold JobUnitTable.is_suspends_conflict_with.
  rewrite wp_bind, wp_ut_get, wp_bind, wp_ut_get. cbn [get_table].
  apply (wp_mexistsb (both_entries JobUnitData.is_suspends_conflict_with false s)).
  - intros [u p] Hp%elem_of_hm_iter. cbn [fst snd].
    eapply (wp_both_entries _ _ _ _ _ (λ d o, mret (JobUnitData.is_suspends_conflict_with d o)));
      [done..|]. intros d o q _ _ _. by rewrite wp_ret.
  - apply HQ. rewrite existsb_exists. split.
    + intros ([u p] & Hp & Hg). rewrite <-list_elem_of_In in Hp. apply elem_of_hm_iter in Hp.
      destruct (Hj u p Hp) as (d & Hd & Hcd & _). unfold both_entries in Hg. simpl in Hg.
      destruct (t_data (t_unit (st_stage s)) !! u) as [q|] eqn:Hq; [|done].
      destruct (si_uv _ _ _ Hinv u q Hq) as (_ & o & Ho & _). rewrite Hd, Ho in Hg.
      exists u. eapply clash_entry; [done..|]. apply conflict_with_iff; [done| |done].
      by eapply stage_no_conflict.
    + intros [u Hc].
      destruct (clash_entries _ _ _ _ Hinv Hj Hc) as (p & d & q & o & Hp & Hd & Hq & Ho).
      exists (u, p). rewrite <-list_elem_of_In, elem_of_hm_iter. split; [done|].
      unfold both_entries. simpl. rewrite Hq, Hd, Ho.
      destruct (Hj u p Hp) as (d' & Hd' & Hcd & _). simplify_eq.
      apply conflict_with_iff; [done|by eapply stage_no_conflict|]. by eapply clash_entry in Hc.
Qed.

(** Whether the waiting jobs of an entry may be replaced by the staged ones. *)
Definition held (h : gmap JobPtr Job) d : bool :=
  existsb (λ id, match h !! id with Some j => irreversible (j_attr j) | None => false end)
    (hm_values (suspends d)).
Definition replaceable (h : gmap JobPtr Job) d (o : JobUnitData) : bool :=
  if JobUnitData.is_suspends_conflict_with d o then negb (held h d) else true.

Lemma wp_irreversible s d (Q : Store W → bool → Prop) :
  (∀ k id, suspends d !! k = Some id → is_Some (st_heap s !! id)) →
  Q s (held (st_heap s) d) → wp (JobUnitData.is_suspends_irreversible d) s Q.
Proof.
  intros Hh HQ. unfold JobUnitData.is_suspends_irreversible. eapply wp_mexistsb; [|exact HQ].
  intros id [k Hk]%elem_of_hm_values. destruct (Hh k id Hk) as [j Hj].
  rewrite wp_bind. eapply wp_job_get_at; [done|]. by rewrite wp_ret, Hj.
Qed.

Lemma wp_replace_entry s d o :
  JobUnitData.is_suspends_conflict d = false → JobUnitData.is_suspends_conflict o = false →
  (∀ k id, suspends d !! k = Some id → is_Some (st_heap s !! id)) →
  wp (JobUnitData.is_suspends_replace_with d o) s
    (λ s' b, s' = s ∧ b = replaceable (st_heap s) d o).
Proof.
  intros Hd Ho Hh. unfold JobUnitData.is_suspends_replace_with.
  rewrite wp_bind, wp_massert, Hd, Ho. split; [done|]. unfold replaceable.
  assert (∀ Q, Q s (negb (held (st_heap s) d)) →
    wp (irr ← JobUnitData.is_suspends_irreversible d; mret (negb irr)) s Q) as Hirr.
  { intros Q HQ. rewrite wp_bind. apply wp_irreversible; [done|]. by rewrite wp_ret. }
  unfold JobUnitData.is_suspends_conflict, JobUnitData.is_suspends_conflict_with in *.
  rewrite !add_pos.
  destruct (0 <? JobUnitData.num_others d), (0 <? JobUnitData.num_others o),
    (0 <? JobUnitData.suspends_kind_len d Stop), (0 <? JobUnitData.suspends_kind_len o Stop);
    try done; cbn [orb andb]; first [by apply Hirr | by rewrite wp_ret].
Qed.

Lemma held_iff s u p d : t_data (t_unit (st_jobs s)) !! u = Some p → st_uvs s !! p = Some d →
  held (st_heap s) d = true ↔ irreplaceable s u.
Proof.
  intros Hp Hd. unfold held, irreplaceable. rewrite existsb_exists. split.
  - intros (id & Hid & Hj). rewrite <-list_elem_of_In in Hid. apply elem_of_hm_values in Hid as [k Hk].
    destruct (st_heap s !! id) as [j|] eqn:Hjd; [|done]. by exists p, d, k, id, j.
  - intros (p' & d' & k & id & j & Hp' & Hd' & Hk & Hj & Hirr). simplify_eq.
    exists id. rewrite <-list_elem_of_In, elem_of_hm_values, Hj. eauto.
Qed.

Lemma wp_replace_with old s R (Q : Store W → bool → Prop) :
  stage_inv old s R → jobs_readable s → ¬ conflicting (.∈ R) →
  ((∀ u, clash s (.∈ R) u → ¬ irreplaceable s u) → Q s true) →
  (∀ u, clash s (.∈ R) u → irreplaceable s u → Q s false) →
  wp (JobUnitTable.is_suspends_replace_with Jobs Stage) s Q.
Proof.
  intros Hinv Hj Hnc HQt HQf. unfold JobUnitTable.is_suspends_replace_with.
  rewrite wp_bind, wp_ut_get, wp_bind, wp_ut_get. cbn [get_table].
  apply (wp_mforallb (both_entries (replaceable (st_heap s)) true s)).
  - intros [u p] Hp%elem_of_hm_iter. cbn [fst snd].
    eapply (wp_both_entries _ _ _ _ _ JobUnitData.is_suspends_replace_with); [done..|].
    intros d o q Hd Hq Ho. destruct (Hj u p Hp) as (d' & Hd' & Hcd & Hh). simplify_eq.
    apply wp_replace_entry; [done|by eapply stage_no_conflict|done].
  - set (l := hm_iter _). destruct (forallb _ l) eqn:Hall.
    + apply HQt. rewrite forallb_forall in Hall. intros u Hc Hirr.
      destruct (clash_entries _ _ _ _ Hinv Hj Hc) as (p & d & q & o & Hp & Hd & Hq & Ho).
      specialize (Hall (u, p)). rewrite <-list_elem_of_In in Hall. unfold l in Hall.
      rewrite elem_of_hm_iter in Hall.
      specialize (Hall Hp). unfold both_entries, replaceable in Hall. simpl in Hall.
      rewrite Hq, Hd, Ho in Hall. destruct (Hj u p Hp) as (d' & Hd' & Hcd & _). simplify_eq.
      eapply clash_entry in Hc; [|done..].
      apply conflict_with_iff in Hc; [|done|by eapply stage_no_conflict]. rewrite Hc in Hall.
      eapply held_iff in Hirr; [|done..]. by rewrite Hirr in Hall.
    + apply forallb_false in Hall as ([u p] & Hp%elem_of_hm_iter & Hg).
      destruct (Hj u p Hp) as (d & Hd & Hcd & _). unfold both_entries, replaceable in Hg. simpl in Hg.
      destruct (t_data (t_unit (st_stage s)) !! u) as [q|] eqn:Hq; [|done].
      destruct (si_uv _ _ _ Hinv u q Hq) as (_ & o & Ho & _). rewrite Hd, Ho in Hg.
      destruct (JobUnitData.is_suspends_conflict_with d o) eqn:Hc; [|done].
      apply conflict_with_iff in Hc; [|done|by eapply stage_no_conflict].
      destruct (held (st_heap s) d) eqn:Hh; [|done].
      apply (HQf u); [by eapply clash_entry|by eapply held_iff].
Qed.

(** ** The verdict *)
Definition refused s P mode : Prop :=
  conflicting P ∨ ∃ u, clash s P u ∧ (mode = ModeFail ∨ irreplaceable s u).

Lemma wp_job_trans_verify old s R mode : stage_inv old s R → jobs_readable s →
  wp (job_trans_verify Stage Jobs mode) s (λ s' r, s' = s
    ∧ (r = Err ErrConflict ∧ refused s (.∈ R) mode ∨ r = Ok tt ∧ ¬ refused s (.∈ R) mode)).
Proof.
  intros Hinv Hj. unfold job_trans_verify, and_then, trans_verify_is_conflict, refused.
  rewrite !wp_bind. eapply wp_stage_conflict; [done|]. intros [] Hb.
  { rewrite !wp_ret. split; [done|]. left. split; [done|]. left. by apply Hb. }
  assert (¬ conflicting (.∈ R)) as Hnc by (intros ?%Hb; done). rewrite wp_ret.
  unfold trans_verify_is_destructive. rewrite wp_bind. apply wp_jobs_conflict; [done|].
  rewrite wp_bind, wp_massert. split; [done|]. rewrite wp_bind.
  eapply wp_conflict_with; [done..|]. intros [] Hc; cbn [negb]; last first.
  { rewrite wp_ret. split; [done|]. right. split; [done|]. intros [?|(u & Hu & _)]; [done|].
    assert (false = true) by (apply Hc; eauto). done. }
  destruct (proj1 Hc eq_refl) as [u Hu]. case_decide as Hm; last first.
  { rewrite wp_ret. split; [done|]. left. split; [done|]. right. exists u. split; [done|].
    left. by destruct (decide (mode = ModeFail)). }
  rewrite wp_bind. eapply wp_replace_with; [done..| |].
  - intros Hr. rewrite wp_ret. split; [done|]. right. split; [done|].
    intros [?|(v & Hv & [?|Hi])]; [done..|]. by apply (Hr v).
  - intros v Hv Hi. rewrite wp_ret. split; [done|]. left. split; [done|]. right. eauto.
Qed.

Lemma refused_ext s s' P P' mode :
  (∀ c, P c ↔ P' c) → (∀ u k, waiting s u k ↔ waiting s' u k) →
  (∀ u, irreplaceable s u ↔ irreplaceable s' u) → refused s P mode ↔ refused s' P' mode.
Proof.
  intros HP Hw Hi. unfold refused, conflicting, clash.
  setoid_rewrite HP. setoid_rewrite Hw. setoid_rewrite Hi. done.
Qed.

(** Staging does not change the jobs already accepted. *)
Lemma frame_jobs s s' : uvs_fresh s → jobs_readable s → stage_frame s s' →
  jobs_readable s' ∧ (∀ u k, waiting s u k ↔ waiting s' u k)
  ∧ ∀ u, irreplaceable s u ↔ irreplaceable s' u.
Proof.
  intros Hfr Hj [Hh Hu _ Hrest].
  assert (st_jobs s' = st_jobs s) as Hjobs by by simplify_eq. clear Hrest.
  assert (∀ u p, t_data (t_unit (st_jobs s)) !! u = Some p → st_uvs s' !! p = st_uvs s !! p) as Hp.
  { intros u p Hp. apply Hu, Hfr. destruct (Hj u p Hp) as (d & Hd & _). eauto. }
  assert (∀ u p d k id, t_data (t_unit (st_jobs s)) !! u = Some p → st_uvs s !! p = Some d →
    suspends d !! k = Some id → st_heap s' !! id = st_heap s !! id) as Hid.
  { intros u p d k id Hup Hd Hk. destruct (Hj u p Hup) as (d' & Hd' & _ & Hs). simplify_eq.
    destruct (Hs k id Hk) as [j Hjd]. rewrite Hjd. by apply Hh. }
  split_and!.
  - intros u p Hup. rewrite Hjobs in Hup. rewrite (Hp u p Hup).
    destruct (Hj u p Hup) as (d & Hd & Hc & Hs). exists d. split_and!; [done..|].
    intros k id Hk. rewrite (Hid u p d k id Hup Hd Hk). by eapply Hs.
  - intros u k. unfold waiting. rewrite Hjobs. split; intros (p & d & Hup & Hd & Hk); exists p, d.
    + by rewrite (Hp u p Hup).
    + by rewrite (Hp u p Hup) in Hd.
  - intros u. unfold irreplaceable. rewrite Hjobs.
    split; intros (p & d & k & id & j & Hup & Hd & Hk & Hjd & Hirr); exists p, d, k, id, j.
    + rewrite (Hp u p Hup), (Hid u p d k id Hup Hd Hk). done.
    + rewrite (Hp u p Hup) in Hd. rewrite (Hid u p d k id Hup Hd Hk) in Hjd. done.
Qed.
End verify.

(** ** Requests *)
Section request.
Context `{HI : !HashIter} `{HC : !CondEnv} {W : Type} `{HS : !SubUnits W} `{HD : !UnitDb}.
Implicit Types (s : Store W) (U : gset UnitId) (u : UnitId) (mode : JobMode).

Definition cleared s : Store W := set_st_stage JobTable_new s.

(** What a request finds: a consistent allocator and readable tables, a set [U]
    of units closed under dependencies, and room for a job of each basic kind on
    each of them, in ids and in fuel. *)
Record request_ok U fuel (config : JobConf) s : Prop := {
  rq_alloc : alloc_ok s;
  rq_fresh : uvs_fresh s;
  rq_jobs : jobs_readable s;
  rq_closed : ∀ u a v, u ∈ U → v ∈ dep_gets_atom u a → v ∈ U;
  rq_unit : jc_unit config ∈ U;
  rq_ids : (Z.of_nat (size (ids (st_ja s)) + 6 * size U) <= 2 ^ 32)%Z;
  rq_fuel : 6 * size U < fuel;
}.

(** The jobs a request asks for, with what they pull in. *)
Definition requested s (config : JobConf) mode : Key → Prop :=
  rtc (pulls (st_units s) mode) (settled (st_units s) config).

Lemma request_expandable U fuel config s : request_ok U fuel config s →
  expandable U (cleared s) (cleared s) ∅ ∧ left_to_record U ∅ < fuel.
Proof.
  intros [Ha Hfr Hj HU Hu Hids Hfuel].
  assert (left_to_record U ∅ ≤ 6 * size U) as Hle.
  { etrans; [|apply size_all_keys]. unfold left_to_record. apply subseteq_size. set_solver. }
  split; [|lia]. split; [|simpl; lia]. apply stage_inv_new; [|done|done].
  by destruct Ha.
Qed.

(** The request up to the verification of the staged jobs. *)
Lemma wp_exec_stage U fuel config mode s (k : J W (Result JobAffect Error))
    (Q : Store W → Result JobAffect Error → Prop) : request_ok U fuel config s →
  (∀ s' R, expandable U (cleared s) s' R → key config ∈ R ∨ jc_kind config ≠ Start →
     (∀ c, c ∈ R ↔ requested s config mode c) → wp k s' Q) →
  wp (JobTable.clear Stage;; mtry (job_trans_expand fuel Stage config mode) (λ _, k)) s Q.
Proof.
  intros Hrq Hk. destruct (request_expandable _ _ _ _ Hrq) as [Hexp Hleft].
  destruct Hrq as [Ha Hfr Hj HU Hu Hids Hfuel].
  unfold JobTable.clear, JobUnitTable.clear.
  rewrite wp_bind, wp_bind, wp_tid_modify, wp_ut_modify. cbn [set_table get_table].
  change (wp (mtry (job_trans_expand fuel Stage config mode) (λ _, k)) (cleared s) Q).
  unfold mtry. rewrite wp_bind. eapply wp_mono.
  { apply (wp_job_trans_expand U HU (cleared s) mode fuel config (cleared s) ∅ Hu Hexp Hleft). }
  intros s' r (-> & R & Hs' & He). eapply Hk; [done| |by apply explored_closure].
  destruct (decide (jc_kind config = Start)) as [Hst|]; [left|by right].
  apply (ex_roots _ _ _ _ He). apply list_elem_of_singleton. unfold key, settled. by rewrite Hst.
Qed.

(** ** Properties *)


(** The stop added by the isolation for a unit that was just recorded. *)
Lemma wp_isolate_affect U fuel s old R u l (Q : Store W → unit → Prop) :
  (∀ u a v, u ∈ U → v ∈ dep_gets_atom u a → v ∈ U) → (∀ v, v ∈ l → v ∈ U) →
  expandable U old s R → left_to_record U R < fuel → (u, Start) ∈ R → u ∈ l →
  ignore_on_isolate u (st_units old) = false →
  (∀ s' R', expandable U old s' R' → (u, Start) ∈ R' → (u, Stop) ∈ R' → Q s' tt) →
  wp (mforeach (λ other,
    us ← mgets st_units;
    if ignore_on_isolate other us then mret tt else
    empty ← JobUnitTable.is_unit_empty Stage other;
    if negb empty then mret tt else
    job_trans_expand fuel Stage {| jc_unit := other; jc_kind := Stop |} ModeIsolate;;
    mret tt) l) s Q.
Proof.
  intros HU Hl Hexp Hn Hst Hul Hig HQ.
  apply (wp_mforeach (λ dn s', ∃ R', expandable U old s' R' ∧ R ⊆ R' ∧ (u ∈ dn → (u, Stop) ∈ R'))).
  - exists R. split_and!; [done|done|]. intros Hin. by inversion Hin.
  - intros dn v rest s1 Heq (R1 & He1 & Hsub & Hstop).
    assert (v ∈ U) as Hv. { apply Hl. rewrite Heq, elem_of_app. right. by left. }
    pose proof (left_to_record_le U HU R R1 Hsub) as Hle.
    rewrite wp_bind, wp_mgets, (expandable_units U old _ _ He1).
    assert (v ≠ u → ∃ R', expandable U old s1 R' ∧ R ⊆ R' ∧ (u ∈ dn ++ [v] → (u, Stop) ∈ R')) as Hne.
    { intros Hvu. exists R1. split_and!; [done..|]. rewrite elem_of_app, list_elem_of_singleton.
      intros [?|<-]; [by apply Hstop|done]. }
    destruct (ignore_on_isolate v (st_units old)) eqn:Hiv.
    { rewrite wp_ret. apply Hne. intros ->. congruence. }
    unfold JobUnitTable.is_unit_empty. rewrite wp_bind, wp_bind, wp_ut_get, wp_ret. simpl.
    case_bool_decide as Hentry; cbn [negb].
    + rewrite wp_bind. eapply wp_mono.
      { apply (wp_job_trans_expand U HU old ModeIsolate fuel); [exact Hv|exact He1|lia]. }
      intros s2 r (-> & R2 & He2 & Hx). rewrite wp_ret. exists R2.
      pose proof (ex_sub _ _ _ _ Hx) as Hsub2. split_and!; [done|set_solver|].
      rewrite elem_of_app, list_elem_of_singleton. intros [Hd|<-]; [by apply Hsub2, Hstop|].
      apply (ex_roots _ _ _ _ Hx). by left.
    + rewrite wp_ret. apply Hne. intros ->. apply Hentry.
      assert ((u, Start) ∈ R1) as Hin by by apply Hsub.
      apply (si_rec _ _ _ (ep_inv _ _ _ _ He1)) in Hin as (p & d & Hp & _). eauto.
  - intros s1 (R1 & He1 & Hsub & Hstop). eapply HQ; [done|by apply Hsub|by apply Hstop].
Qed.

(** Isolating a unit.  [is_unit_empty] answers the opposite of its name, so
    the isolation adds a stop to every unit that has just been given a job,
    the isolated unit included: unless that unit is itself exempt from isolation,
    every isolate request ends with the error [Conflict], and no job is accepted. *)
Theorem isolate_always_conflicts U fuel config affect s :
  request_ok U fuel config s → jc_kind config = Start →
  (∀ v, v ∈ units_get_all → v ∈ U) → jc_unit config ∈ units_get_all →
  ignore_on_isolate (jc_unit config) (st_units s) = false →
  wp (JobManagerData.exec fuel config ModeIsolate affect) s (λ s' r,
    r = Err ErrConflict ∧ stage_frame (cleared s) s').
Proof.
  intros Hrq Hst Hall Hin Hig. unfold JobManagerData.exec, job_trans_check_input.
  rewrite Hst. cbn [bool_decide andb negb].
  rewrite (bool_decide_true (Start = Start)), (bool_decide_false (ModeIsolate = ModeTrigger)) by done.
  rewrite andb_false_r. cbn [andb]. eapply wp_exec_stage; [done|]. intros s1 R Hexp [Hk|] HR; [|done].
  unfold mtry. rewrite wp_bind. cbn [job_trans_affect]. unfold trans_affect_isolate.
  rewrite wp_bind, wp_massert. split; [done|]. rewrite wp_bind.
  unfold key in Hk. rewrite Hst in Hk. destruct (request_expandable _ _ _ _ Hrq) as [_ Hleft].
  pose proof (left_to_record_le U (rq_closed _ _ _ _ Hrq) ∅ R ltac:(set_solver)) as Hle.
  eapply (wp_isolate_affect U fuel s1 (cleared s) R (jc_unit config));
    [apply Hrq|done|done|lia|done|done|done|].
  intros s2 R2 [Hinv _] H1 H2. rewrite wp_ret, wp_bind.
  destruct (frame_jobs (cleared s) s2) as (Hj2 & _ & _); [apply Hrq|apply Hrq|apply Hinv|].
  eapply wp_mono; [by eapply wp_job_trans_verify|].
  intros s3 r [-> [[-> _]|[-> Hn]]].
  - rewrite wp_ret. split; [done|apply Hinv].
  - destruct Hn. left. exists (jc_unit config), Start. by split_and!.
Qed.
End request.

(** ** Concrete requests *)
#[local] Existing Instance hash_iter_canonical.
#[local] Existing Instance cond_env_sample.

Lemma sample_request_ok (db : UnitDb) config :
  (∀ u a v, u ∈ cycle_units → v ∈ dep_gets_atom u a → v ∈ cycle_units) →
  jc_unit config ∈ cycle_units → request_ok cycle_units 13 config sample_store.
Proof.
  intros Hc Hu. split; [apply alloc_ok_sample| | |done|done| |].
  - intros p [d Hd]. change ((∅ : gmap UvPtr JobUnitData) !! p = Some d) in Hd.
    by rewrite lookup_empty in Hd.
  - intros u p Hp. change ((∅ : gmap UnitId UvPtr) !! u = Some p) in Hp. by rewrite lookup_empty in Hp.
  - apply Z.leb_le. by vm_compute.
  - apply Nat.ltb_lt. by vm_compute.
Qed.

(** [a] pulls in both a start and a stop of [b]. *)
Definition torn_edges : list (UnitId * UnitRelationAtom * UnitId) :=
  [("a.target", UnitAtomPullInStart, "b.target"); ("a.target", UnitAtomPullInStop, "b.target")].
Definition torn_db : UnitDb := edges_UnitDb ["a.target"; "b.target"] torn_edges.
Definition start_a : JobConf := {| jc_unit := "a.target"; jc_kind := Start |}.

Lemma torn_closed u a v : u ∈ cycle_units → v ∈ edges_gets torn_edges u a → v ∈ cycle_units.
Proof.
  intros _ Hv. unfold edges_gets in Hv. apply list_elem_of_fmap in Hv as (e & -> & He).
  apply list_elem_of_filter in He as [_ He]. unfold torn_edges in He. unfold cycle_units. set_solver.
Qed.


Lemma isolate_always_conflicts_witness :
  wp (JobManagerData.exec (HD := cycle_db) 13 start_a ModeIsolate (JobAffect_new false)) sample_store
    (λ s' r, r = Err ErrConflict).
Proof.
  eapply wp_mono.
  - apply (isolate_always_conflicts (HD := cycle_db) cycle_units 13 start_a (JobAffect_new false)
      sample_store).
    + apply (sample_request_ok cycle_db); [exact cycle_closed|set_solver].
    + done.
    + intros v Hv. change (v ∈ ["a.target"; "b.target"]) in Hv. set_solver.
    + change ("a.target" ∈ ["a.target"; "b.target"]). set_solver.
    + done.
  - intros s' r [-> _]. done.
Defined.
