(* ===== verification/JobCommitFacts.v ===== *)
(** * Facts about committing a transaction

    What [JobUnitData.merge_suspends] does: a unit's waiting jobs are the merge of
    those it had and the staged ones ([JobUnit.v]). *)
From S2P Require Import Prelude UnitTypes ReDb UnitDb RateLimit Condition UnitEntry Target.
From S2P Require Import JobRentry JobData JobStat JobStore JobEntry JobUnit JobTable JobTrans.
From S2P Require Import JobNotify JobManager JobSample JobEntryFacts JobUnitFacts JobTransFacts.
From S2P Require Import JobVerifyFacts.

Section merge.
Context `{HI : !HashIter} `{HC : !CondEnv} {W : Type} `{HS : !SubUnits W}.
Implicit Types (s : Store W) (u : UnitId) (p q : UvPtr) (d o : JobUnitData) (id : JobPtr).
Implicit Types (h : gmap JobPtr Job).

(** ** The entry of a unit between two operations of a commit *)

(** [dirty] marks the entries whose queue is stale. *)
Record entry h u d : Prop := {
  en_unit : ju_unit d = u;
  en_inv : junit_inv h d;
  en_conflict : JobUnitData.is_suspends_conflict d = false;
  en_interrupt : interrupt d = true → suspends d ≠ ∅;
  en_dirty : dirty d = negb (order d);
  en_sync : dirty d = false → up_ready d = ready d;
  en_one : order d = true → suspends d !! Stop = None → one_mutop (suspends d);
}.

(** What the operations on one unit leave of the heap: the same handles, and
    the jobs of the other units. *)
Record unit_frame u h h' : Prop := {
  uf_dom : ∀ id, is_Some (h' !! id) ↔ is_Some (h !! id);
  uf_other : ∀ id j, h !! id = Some j → j_unit j ≠ u → h' !! id = Some j;
}.
Lemma unit_frame_refl u h : unit_frame u h h.
Proof. done. Qed.
Lemma unit_frame_trans u h1 h2 h3 : unit_frame u h1 h2 → unit_frame u h2 h3 → unit_frame u h1 h3.
Proof. intros [Hd1 Ho1] [Hd2 Ho2]. split; [intros id; by rewrite Hd2|auto]. Qed.
Lemma unit_frame_insert u h id j j' : h !! id = Some j → j_unit j = u → unit_frame u h (<[id:=j']> h).
Proof.
  intros Hj Hu. split.
  - intros i. rewrite lookup_insert_is_Some. destruct (decide (id = i)) as [<-|]; [|naive_solver].
    rewrite Hj. naive_solver.
  - intros i ji Hi Hne. rewrite lookup_insert_ne; [done|]. intros ->. congruence.
Qed.
Lemma unit_frame_ends u h h' (X : list JobPtr) r :
  (∀ id, id ∈ X → ∃ j, h !! id = Some j ∧ j_unit j = u) →
  (∀ id, h' !! id = if decide (id ∈ X) then set_j_stage (EndWith r) <$> h !! id else h !! id) →
  unit_frame u h h'.
Proof.
  intros HX Hh. split.
  - intros id. rewrite Hh. case_decide; [|done]. apply fmap_is_Some.
  - intros id j Hj Hne. rewrite Hh, decide_False; [done|]. intros (j' & Hj' & ?)%HX. congruence.
Qed.

Lemma entry_frame u w h h' d : u ≠ w → unit_frame w h h' → entry h u d → entry h' u d.
Proof.
  intros Hne [_ Ho] [Hu Hinv ? ? ? ? ?]. split; try done.
  apply (junit_inv_heap h); [done| |].
  - intros k id Hk. apply (ji_susp _ _ Hinv) in Hk as (j & (Hj & Hju & _) & _).
    rewrite Hj. apply Ho; [done|]. by rewrite Hju, Hu.
  - intros id Hk. apply (ji_trig _ _ Hinv) in Hk as (j & Hj & Hju & _).
    rewrite Hj. apply Ho; [done|]. by rewrite Hju, Hu.
Qed.
Lemma staged_frame u w h h' d : u ≠ w → unit_frame w h h' → staged h u d → staged h' u d.
Proof.
  intros Hne [_ Ho] [Hu Ht Hi Hs]. split; try done.
  intros k id Hk. destruct (Hs k id Hk) as (j & Hj & Hju & ?). exists j.
  split; [|done]. apply Ho; [done|]. congruence.
Qed.

(** ** One staged job more *)

Lemma junit_inv_attr h d id j a : junit_inv h d → h !! id = Some j →
  junit_inv (<[id:=set_j_attr a j]> h) d.
Proof.
  intros Hinv Hj.
  assert (∀ u st i x, job_at h u st i x → ∃ x', job_at (<[id:=set_j_attr a j]> h) u st i x'
    ∧ j_kind x' = j_kind x) as Hat.
  { intros u st i x (Hx & Hrest). destruct (decide (id = i)) as [<-|].
    - rewrite Hj in Hx. injection Hx as <-. exists (set_j_attr a j). unfold job_at.
      by rewrite lookup_insert_eq.
    - exists x. unfold job_at. by rewrite lookup_insert_ne. }
  destruct Hinv as [Hs Ht ? ? ? ? ?]. split; try done.
  - intros k i Hk. destruct (Hs k i Hk) as (x & Hx & <-). apply Hat in Hx as (x' & ? & ?). eauto.
  - intros i Hi. destruct (Ht i Hi) as (x & Hx). apply Hat in Hx as (x' & ? & ?). eauto.
Qed.

(** A job in its initial state belongs to no consistent entry yet. *)
Lemma init_not_held h d id j : junit_inv h d → h !! id = Some j → j_stage j = Init →
  (∀ k, suspends d !! k ≠ Some id) ∧ trigger d ≠ Some id.
Proof.
  intros Hinv Hj Hst. split.
  - intros k Hk. apply (ji_susp _ _ Hinv) in Hk as (x & (Hx & _ & Hw & _) & _). congruence.
  - intros Ht. apply (ji_trig _ _ Hinv) in Ht as (x & Hx & _ & Hw & _). congruence.
Qed.

Lemma junit_inv_inserted h d id j : junit_inv h d → h !! id = Some j → j_stage j = Init →
  j_unit j = ju_unit d → job_is_basic_op (j_kind j) = true → job_ok j →
  junit_inv (<[id:=set_j_stage Wait j]> h) (inserted id (j_kind j) d).
Proof.
  intros Hinv Hj Hst Hu Hb Hok. destruct (init_not_held _ _ _ _ Hinv Hj Hst) as [Hns Hnt].
  destruct Hinv as [Hs Ht ? ? ? ? ?]. split; try done; simpl.
  - intros k i [[<- <-]|[Hne Hk]]%lookup_insert_Some.
    + exists (set_j_stage Wait j). unfold job_at. rewrite lookup_insert_eq. by rewrite <-Hu.
    + destruct (Hs k i Hk) as (x & Hx & ?). exists x. unfold job_at in *.
      rewrite lookup_insert_ne; [done|]. intros ->. by apply (Hns k).
  - intros i Hi. destruct (Ht i Hi) as (x & Hx). exists x. unfold job_at in *.
    rewrite lookup_insert_ne; [done|]. intros ->. done.
Qed.

Lemma wp_job_wait id j s (Q : Store W → unit → Prop) :
  st_heap s !! id = Some j → j_stage j = Init → job_is_basic_op (j_kind j) = true →
  (∀ re, Q (set_st_re re (set_st_heap (<[id:=set_j_stage Wait j]> (st_heap s)) s)) tt) →
  wp (Job.wait id) s Q.
Proof.
  intros Hj Hst Hb HQ. unfold Job.wait. rewrite wp_bind. eapply wp_job_get_at; [done|].
  rewrite wp_bind, wp_massert. split; [by apply bool_decide_eq_true|].
  rewrite wp_bind. eapply wp_job_modify_at; [done|].
  eapply wp_suspends_insert; [apply lookup_insert_eq|done|]. apply HQ.
Qed.

(** The waiting jobs after the staged jobs [dn] of [o] were merged in. *)
Definition merged_upto (m0 m : gmap JobKind JobPtr) (dn : list JobPtr) (k : JobKind) : option JobPtr :=
  match m0 !! k with
  | Some x => Some x
  | None => match m !! k with Some id => if decide (id ∈ dn) then Some id else None | None => None end
  end.

Record merging u h0 d0 o (dn : list JobPtr) h d : Prop := {
  mg_same : (ju_unit d, trigger d, interrupt d, up_ready d)
            = (ju_unit d0, trigger d0, interrupt d0, up_ready d0);
  mg_inv : junit_inv h d;
  mg_change : d = d0 ∨ dirty d = true ∧ order d = false;
  mg_susp : ∀ k, suspends d !! k = merged_upto (suspends d0) (suspends o) dn k;
  mg_frame : unit_frame u h0 h;
  mg_todo : ∀ k id, suspends o !! k = Some id → id ∉ dn → h !! id = h0 !! id;
}.

(** The body of the loop of [merge_suspends]. *)
Definition merge_one p (au : list JobPtr * list JobPtr) (o_job : JobPtr)
    : J W (list JobPtr * list JobPtr) :=
  oj ← job_get o_job;
  d ← uv_get p;
  match suspends d !! j_kind oj with
  | Some job => Job.merge_attr job o_job;; mret (au.1, au.2 ++ [job])
  | None => JobUnitData.insert_suspend p o_job true;; mret (au.1 ++ [o_job], au.2)
  end.

Lemma staged_inj h u o k k' id : staged h u o → suspends o !! k = Some id →
  suspends o !! k' = Some id → k = k'.
Proof.
  intros [_ _ _ Hs] Hk Hk'. apply Hs in Hk as (j & Hj & _ & <- & _), Hk' as (j' & Hj' & _ & <- & _).
  congruence.
Qed.

Lemma wp_merge_one p u d0 o dn x k s d au (Q : Store W → list JobPtr * list JobPtr → Prop) h0 :
  staged h0 u o → ju_unit d0 = u → st_uvs s !! p = Some d →
  suspends o !! k = Some x → x ∉ dn → merging u h0 d0 o dn (st_heap s) d →
  (∀ re h d' au', merging u h0 d0 o (dn ++ [x]) h d' →
     Q (set_st_re re (set_st_heap h (upd_uv p d' s))) au') →
  wp (merge_one p au x) s Q.
Proof.
  intros Hstg Hu0 Hd Hk Hx Hm HQ.
  destruct (sd_susp _ _ _ Hstg k x Hk) as (j & Hj0 & Hju & Hjk & Hst & Hb & Hok).
  assert (st_heap s !! x = Some j) as Hj by by rewrite (mg_todo _ _ _ _ _ _ _ Hm k x).
  destruct Hm as [Hsame Hinv Hchange Hsusp Hframe Htodo].
  destruct (init_not_held _ _ _ _ Hinv Hj Hst) as [Hns Hnt].
  assert (ju_unit d = u) as Hdu by (injection Hsame; congruence).
  (* the kinds other than [k] do not notice that [x] was done *)
  assert (∀ k', k' ≠ k → merged_upto (suspends d0) (suspends o) (dn ++ [x]) k'
    = merged_upto (suspends d0) (suspends o) dn k') as Hne.
  { intros k' Hne. unfold merged_upto. destruct (suspends d0 !! k'); [done|].
    destruct (suspends o !! k') as [i|] eqn:Hi; [|done]. apply decide_ext.
    rewrite elem_of_app, list_elem_of_singleton. split; [|by left]. intros [?| ->]; [done|].
    by destruct Hne; eapply staged_inj. }
  assert (∀ i, i ∉ dn ++ [x] → i ∉ dn ∧ i ≠ x) as Hnin.
  { intros i. rewrite elem_of_app, list_elem_of_singleton. tauto. }
  unfold merge_one. rewrite wp_bind. eapply wp_job_get_at; [done|]. rewrite wp_bind.
  eapply wp_uv_get_at; [done|]. rewrite Hjk. specialize (Hsusp k) as Hsk.
  unfold merged_upto in Hsk. rewrite Hk, (decide_False (P := x ∈ dn)) in Hsk by done.
  destruct (suspends d0 !! k) as [y|] eqn:Hy; rewrite Hsk.
  - destruct (ji_susp _ _ Hinv _ _ Hsk) as (jy & (Hjy & Hjyu & Hw & Hyb & _) & Hjyk).
    rewrite wp_bind. eapply (wp_merge_attr y x jy j); [done..|by rewrite Hjyk, Hjk|done|].
    intros a re. rewrite wp_ret.
    assert (s = upd_uv p d s) as Heq by by rewrite upd_uv_id.
    rewrite Heq at 2. apply HQ. split; try done.
    + by apply junit_inv_attr.
    + intros k'. rewrite Hsusp. destruct (decide (k' = k)) as [->|]; [|by rewrite Hne].
      unfold merged_upto. by rewrite Hy.
    + eapply unit_frame_trans; [done|]. eapply unit_frame_insert; [done|congruence].
    + intros k' i Hi [Hi1 Hi2]%Hnin. rewrite lookup_insert_ne; [by eapply Htodo|].
      intros <-. rewrite (Htodo k' y) in Hjy by done.
      destruct (sd_susp _ _ _ Hstg k' y Hi) as (? & ? & _ & _ & ? & _). congruence.
  - rewrite wp_bind. eapply wp_insert_suspend; [done|done|by rewrite Hjk|done|by rewrite Hjk|].
    rewrite Hjk. cbn [mwhen].
    eapply wp_job_wait; [done|done|by rewrite Hjk|]. intros re. rewrite wp_ret. apply HQ. split; try done.
    + rewrite <-Hjk. apply junit_inv_inserted; try done; [congruence|by rewrite Hjk].
    + by right.
    + intros k'. simpl. rewrite lookup_insert. case_decide as Hkk.
      * subst k'. unfold merged_upto. rewrite Hy, Hk, decide_True; [done|].
        apply elem_of_app. right. by left.
      * by rewrite Hne, Hsusp.
    + eapply unit_frame_trans; [done|]. eapply unit_frame_insert; [done|congruence].
    + intros k' i Hi [Hi1 Hi2]%Hnin. rewrite lookup_insert_ne by done. by eapply Htodo.
Qed.

(** ** All the staged jobs of a unit *)

(** The staged jobs replace the waiting ones they clash with, and join them
    otherwise (a kind that already waits is kept). *)
Definition merged_in d o : gmap JobKind JobPtr :=
  if JobUnitData.is_suspends_conflict_with d o then suspends o else suspends d ∪ suspends o.

Lemma merged_upto_all m0 m l k : (∀ id, id ∈ l ↔ ∃ k, m !! k = Some id) →
  merged_upto m0 m l k = (m0 ∪ m) !! k.
Proof.
  intros Hl. unfold merged_upto. rewrite lookup_union.
  destruct (m0 !! k), (m !! k) as [id|] eqn:Hk; simpl; try done.
  rewrite decide_True; [done|]. apply Hl. eauto.
Qed.

Lemma merged_in_no_conflict d o d' :
  JobUnitData.is_suspends_conflict d = false → JobUnitData.is_suspends_conflict o = false →
  suspends d' = merged_in d o → JobUnitData.is_suspends_conflict d' = false.
Proof.
  intros Hd Ho Hm. apply not_true_iff_false. rewrite no_conflict_iff, Hm. unfold merged_in.
  pose proof (conflict_with_iff d o Hd Ho) as Hc.
  apply not_true_iff_false in Hd, Ho. rewrite no_conflict_iff in Hd, Ho.
  destruct (JobUnitData.is_suspends_conflict_with d o); [done|].
  intros [Hs (k & Hk & Hok)]. rewrite lookup_union in Hs, Hk.
  assert (∀ k', is_Some (union (suspends d !! k') (suspends o !! k')) →
    is_Some (suspends d !! k') ∨ is_Some (suspends o !! k')) as Hun.
  { intros k' Hx. destruct (suspends d !! k'); [eauto|]. rewrite (left_id_L None _) in Hx. eauto. }
  assert (false = true); [apply Hc|done]. apply Hun in Hs, Hk. unfold clashing. naive_solver.
Qed.

Lemma staged_ext h h' u o : staged h u o →
  (∀ k id, suspends o !! k = Some id → h' !! id = h !! id) → staged h' u o.
Proof.
  intros [Hu Ht Hi Hs] Hh. split; try done. intros k id Hk. rewrite (Hh k id Hk). by apply Hs.
Qed.

Lemma flushed_inv h h' d : junit_inv h d → (∀ id, trigger d = Some id → h' !! id = h !! id) →
  junit_inv h' (flushed d).
Proof.
  intros [? Ht ? ? ? ? ?] Hh. split; try done.
  intros id Hid. unfold job_at. rewrite (Hh id Hid). by apply Ht.
Qed.

(** The loop, from an entry [d0] (that may have been flushed). *)
Lemma wp_merge_loop p u d0 o s (Q : Store W → list JobPtr * list JobPtr → Prop) :
  st_uvs s !! p = Some d0 → junit_inv (st_heap s) d0 → ju_unit d0 = u → staged (st_heap s) u o →
  (∀ re h d' au, merging u (st_heap s) d0 o (hm_values (suspends o)) h d' →
     Q (set_st_re re (set_st_heap h (upd_uv p d' s))) au) →
  wp (mfold (merge_one p) ([], []) (hm_values (suspends o))) s Q.
Proof.
  intros Hd Hinv Hu Hstg HQ.
  assert (NoDup (hm_values (suspends o))) as Hnd.
  { unfold hm_values. rewrite hm_iter_perm.
    apply NoDup_fmap_2_strong; [|apply NoDup_map_to_list].
    intros [k1 i1] [k2 i2] H1%elem_of_map_to_list H2%elem_of_map_to_list ?; simplify_eq/=.
    by rewrite (staged_inj _ _ _ _ _ _ Hstg H1 H2). }
  apply (wp_mfold (λ dn s' (_ : list JobPtr * list JobPtr), ∃ re h d',
    s' = set_st_re re (set_st_heap h (upd_uv p d' s)) ∧ merging u (st_heap s) d0 o dn h d')).
  - exists (st_re s), (st_heap s), d0. rewrite upd_uv_id by done. split; [by destruct s|].
    split; try done; [by left|]. intros k. unfold merged_upto.
    destruct (suspends d0 !! k), (suspends o !! k); done.
  - intros dn x rest s1 au Heq (re & h & d1 & -> & Hm).
    assert (x ∈ hm_values (suspends o)) as [k Hk]%elem_of_hm_values.
    { rewrite Heq, elem_of_app. right. by left. }
    rewrite Heq in Hnd. apply NoDup_app in Hnd as (_ & Hnd & _).
    eapply (wp_merge_one p u d0 o dn x k); [done|done|apply lookup_upd_uv|done| |done|].
    + intros Hx. apply (Hnd x Hx). by left.
    + intros re' h' d' au' Hm'. exists re', h', d'. split; [|done].
      simpl. unfold upd_uv. simpl. by rewrite insert_insert_eq.
  - intros s1 au (re & h & d' & -> & Hm). by apply HQ.
Qed.

Lemma wp_merge_suspends p q u d o s (Q : Store W → JobChanges → Prop) :
  p ≠ q → st_uvs s !! p = Some d → st_uvs s !! q = Some o → entry (st_heap s) u d →
  staged (st_heap s) u o → JobUnitData.is_suspends_conflict o = false →
  (∀ re h d' c, entry h u d' → suspends d' = merged_in d o →
     (d' = d ∨ dirty d' = true) → trigger d' = trigger d → up_ready d' = up_ready d →
     unit_frame u (st_heap s) h → Forall (λ id, id ∈ hm_values (suspends d)) c.1.2 →
     Q (set_st_re re (set_st_heap h (upd_uv p d' s))) c) →
  wp (JobUnitData.merge_suspends p q) s Q.
Proof.
  intros Hpq Hd Ho He Hstg Hoc HQ. destruct He as [Hu Hinv Hdc Hint Hdirty Hsync Hone].
  unfold JobUnitData.merge_suspends. rewrite wp_bind. eapply wp_uv_get_at; [done|].
  rewrite wp_bind. eapply wp_uv_get_at; [done|]. rewrite wp_bind.
  destruct (JobUnitData.is_suspends_conflict_with d o) eqn:Hc.
  - assert (merged_in d o = suspends o) as Hmi by (unfold merged_in; by rewrite Hc).
    eapply wp_flush_suspends; [done..|]. intros h re Hh.
    assert (∀ k id, suspends o !! k = Some id → h !! id = st_heap s !! id) as Hho.
    { intros k id Hk. destruct (sd_susp _ _ _ Hstg k id Hk) as (j & Hj & _ & _ & Hst & _).
      rewrite Hh, decide_False; [done|]. intros [k' Hk']%elem_of_hm_values.
      by apply (init_not_held _ _ _ _ Hinv Hj Hst) in Hk'. }
    assert (unit_frame u (st_heap s) h) as Hf.
    { eapply (unit_frame_ends u _ _ (hm_values (suspends d))); [|exact Hh].
      intros id [k Hk]%elem_of_hm_values. apply (ji_susp _ _ Hinv) in Hk as (j & (? & ? & _) & _).
      exists j. split; [done|congruence]. }
    rewrite wp_bind. eapply (wp_merge_loop p u (flushed d) o);
      [apply lookup_upd_uv| |done|by eapply staged_ext|].
    { eapply flushed_inv; [done|]. intros id Hid. simpl. rewrite Hh, decide_False; [done|].
      intros [k Hk]%elem_of_hm_values. by eapply junit_susp_trig. }
    intros re' h' d' au Hm. rewrite wp_ret.
    assert (suspends d' = suspends o) as Hsd.
    { apply map_eq. intros k. rewrite (mg_susp _ _ _ _ _ _ _ Hm).
      rewrite merged_upto_all by (intros id; apply elem_of_hm_values). simpl. by rewrite (left_id_L ∅ _). }
    destruct Hm as [[= Hu' Ht' Hi' Hup'] Hinv' Hch _ Hf' _].
    assert (dirty d' = true ∧ order d' = false) as [Hd1 Ho1] by (destruct Hch as [-> |]; done).
    unfold upd_uv. simpl. rewrite insert_insert_eq. apply HQ.
    + split; rewrite ?Hd1, ?Ho1, ?Hsd; try done; try congruence.
      * eapply (merged_in_no_conflict d o); [done..|]. congruence.
      * intros _ Hnil. apply conflict_with_iff in Hc; [|done..].
        unfold clashing in Hc. rewrite Hnil in Hc.
        destruct Hc as [[[? Hx] _]|[_ (k & [? Hx] & _)]]; by rewrite lookup_empty in Hx.
    + congruence.
    + by right.
    + done.
    + done.
    + by eapply unit_frame_trans.
    + apply Forall_forall. done.
  - assert (merged_in d o = suspends d ∪ suspends o) as Hmi by (unfold merged_in; by rewrite Hc).
    rewrite wp_ret, wp_bind. eapply (wp_merge_loop p u d o); [done..|].
    intros re' h' d' au Hm. rewrite wp_ret.
    assert (suspends d' = merged_in d o) as Hsd.
    { rewrite Hmi. apply map_eq. intros k. rewrite (mg_susp _ _ _ _ _ _ _ Hm).
      by rewrite merged_upto_all by (intros id; apply elem_of_hm_values). }
    destruct Hm as [[= Hu' Ht' Hi' Hup'] Hinv' Hch _ Hf' _].
    apply HQ; try done; [|by destruct Hch as [-> |[-> _]]; auto].
    split; try done; try congruence.
    + by apply (merged_in_no_conflict d o).
    + rewrite Hi', Hsd, Hmi. intros Hx%Hint Hnil. apply Hx, map_eq. intros k.
      apply (f_equal (lookup k)) in Hnil. rewrite lookup_union, lookup_empty in *.
      by destruct (suspends d !! k), (suspends o !! k).
    + destruct Hch as [-> |[-> ->]]; done.
    + destruct Hch as [-> |[-> _]]; done.
    + destruct Hch as [-> |[_ ->]]; done.
Qed.
End merge.
