(* ===== verification/JobTableFacts.v ===== *)
(** * Committing a transaction, against its specification

    What [JobTable.commit] promises, as a function on the sets of kinds that wait
    on each unit, and the proof that the tables, the heap of jobs and the
    job-units implement it ([JobUnit.v], [JobTable.v]). *)
From S2P Require Import Prelude UnitTypes ReDb UnitDb RateLimit Condition UnitEntry Target.
From S2P Require Import JobRentry JobData JobStat JobStore JobEntry JobUnit JobTable JobTrans.
From S2P Require Import JobNotify JobManager JobSample JobEntryFacts JobUnitFacts JobTransFacts.
From S2P Require Import JobVerifyFacts JobCommitFacts.

(** ** The specification *)
Module CommitSpec.
Implicit Types (K O : gset JobKind).

(** The kinds a stop does not tolerate beside it. *)
Definition works K : gset JobKind := K ∖ {[Stop; Nop]}.
(** A stop on one side, work on the other. *)
Definition clash K O : bool :=
  bool_decide (Stop ∈ O ∧ works K ≠ ∅ ∨ Stop ∈ K ∧ works O ≠ ∅).
(** The staged kinds replace the waiting ones they clash with, or join them. *)
Definition merge K O : gset JobKind := if clash K O then O else K ∪ O.
(** A restart absorbs a start and a reload; of a start and a reload, the state of
    the unit keeps one. *)
Definition absorb (active : bool) K : gset JobKind :=
  if bool_decide (Stop ∈ K) then K else
  if bool_decide (Restart ∈ K) then K ∖ {[Start; Reload]} else
  if bool_decide (Start ∈ K ∧ Reload ∈ K) then K ∖ {[if active then Start else Reload]} else K.
Definition commit (active : bool) K O : gset JobKind := absorb active (merge K O).

Lemma absorb_empty active : absorb active ∅ = ∅.
Proof. by destruct active. Qed.
Lemma merge_nil K : merge K ∅ = K.
Proof.
  unfold merge, clash. rewrite bool_decide_false; [set_solver|]. unfold works. set_solver.
Qed.
End CommitSpec.

(** The abstraction: the kinds that wait in an entry. *)
Definition kinds (d : JobUnitData) : gset JobKind := dom (suspends d).

Lemma elem_of_kinds d k : k ∈ kinds d ↔ is_Some (suspends d !! k).
Proof. apply elem_of_dom. Qed.
Lemma elem_of_works d k : k ∈ CommitSpec.works (kinds d) ↔ is_Some (suspends d !! k) ∧ other_kind k.
Proof. unfold CommitSpec.works, other_kind. rewrite <-elem_of_kinds. set_solver. Qed.
Lemma works_nonempty d :
  CommitSpec.works (kinds d) ≠ ∅ ↔ ∃ k, is_Some (suspends d !! k) ∧ other_kind k.
Proof.
  setoid_rewrite <-elem_of_works. split; [|intros [k Hk]; set_solver].
  intros Hne. by apply set_choose_L in Hne.
Qed.

Lemma kinds_clash d o :
  JobUnitData.is_suspends_conflict d = false → JobUnitData.is_suspends_conflict o = false →
  JobUnitData.is_suspends_conflict_with d o = CommitSpec.clash (kinds d) (kinds o).
Proof.
  intros Hd Ho. apply eq_true_iff_eq. rewrite conflict_with_iff by done.
  unfold CommitSpec.clash, clashing. rewrite bool_decide_eq_true, !works_nonempty, !elem_of_kinds.
  done.
Qed.
Lemma kinds_merged d o d' :
  JobUnitData.is_suspends_conflict d = false → JobUnitData.is_suspends_conflict o = false →
  suspends d' = merged_in d o → kinds d' = CommitSpec.merge (kinds d) (kinds o).
Proof.
  intros Hd Ho Hm. unfold kinds at 1, CommitSpec.merge. rewrite Hm. unfold merged_in.
  rewrite kinds_clash by done. destruct (CommitSpec.clash _ _); [done|]. apply dom_union_L.
Qed.
Lemma kinds_absorbed active m : dom (merged_suspends active m) = CommitSpec.absorb active (dom m).
Proof.
  unfold merged_suspends, CommitSpec.absorb.
  assert (∀ k, is_some (m !! k) = bool_decide (k ∈ dom m)) as Hk.
  { intros k. apply bool_decide_ext. by rewrite elem_of_dom. }
  rewrite !Hk. destruct (bool_decide (Stop ∈ dom m)); [done|].
  destruct (bool_decide (Restart ∈ dom m)); [rewrite !dom_delete_L; set_solver|].
  rewrite <-bool_decide_and. case_bool_decide; [|done].
  destruct active; by rewrite dom_delete_L.
Qed.
(** A queue in order has nothing left to absorb. *)
Lemma absorbed_already active d :
  (suspends d !! Stop = None → one_mutop (suspends d)) →
  CommitSpec.absorb active (kinds d) = kinds d.
Proof.
  intros Hone. unfold CommitSpec.absorb. rewrite !bool_decide_decide.
  destruct (decide (Stop ∈ kinds d)) as [|Hs]; [done|]. rewrite elem_of_kinds in Hs.
  apply eq_None_not_Some in Hs. specialize (Hone Hs). unfold one_mutop in Hone.
  rewrite !length_app in Hone.
  assert (∀ k, k ∈ kinds d → length (option_list (suspends d !! k)) = 1) as Hlen.
  { intros k [id ->]%elem_of_kinds. done. }
  destruct (decide (Restart ∈ kinds d)) as [Hr|].
  - apply Hlen in Hr.
    assert (∀ k, k = Start ∨ k = Reload → k ∉ kinds d).
    { intros k Hk Hin. apply Hlen in Hin. destruct Hk as [-> | ->]; lia. }
    set_solver.
  - destruct (decide (Start ∈ kinds d ∧ Reload ∈ kinds d)) as [[Ha Hb]|]; [|done].
    apply Hlen in Ha, Hb. lia.
Qed.

Section table.
Context `{HI : !HashIter} `{HC : !CondEnv} {W : Type} `{HS : !SubUnits W} `{HD : !UnitDb}.
Implicit Types (s : Store W) (u w : UnitId) (p q : UvPtr) (d o : JobUnitData).

(** ** The tables between two operations of a commit *)
Definition jobs_at s u : option UvPtr := t_data (t_unit (st_jobs s)) !! u.
Definition stage_at s u : option UvPtr := t_data (t_unit (st_stage s)) !! u.
(** The kinds that wait on [u], and those staged for it. *)
Definition kinds_at s (o : option UvPtr) : gset JobKind :=
  match o ≫= (st_uvs s !!.) with Some d => kinds d | None => ∅ end.
Definition waiting_of s u : gset JobKind := kinds_at s (jobs_at s u).
Definition staged_of s u : gset JobKind := kinds_at s (stage_at s u).
Definition active_of s u : bool := is_active_or_reloading (current_active_state u (st_units s)).

Record jobs_ok s : Prop := {
  jo_entry : ∀ u p, jobs_at s u = Some p → ∃ d, st_uvs s !! p = Some d ∧ entry (st_heap s) u d;
  jo_fresh : uvs_fresh s;
  jo_readys : ∀ p, p ∈ readys (t_unit (st_jobs s)) → is_Some (st_uvs s !! p);
}.
(** The staged entries of the units in [T]; none is an entry of the jobs table. *)
Record stage_ok s (T : UnitId → Prop) : Prop := {
  so_entry : ∀ u q, stage_at s u = Some q → ∃ o, st_uvs s !! q = Some o
    ∧ (T u → staged (st_heap s) u o) ∧ JobUnitData.is_suspends_conflict o = false;
  so_apart : ∀ u q w p, stage_at s u = Some q → jobs_at s w = Some p → p ≠ q;
}.

Lemma waiting_at s u p d : jobs_at s u = Some p → st_uvs s !! p = Some d → waiting_of s u = kinds d.
Proof. intros Hp Hd. unfold waiting_of, kinds_at. rewrite Hp. simpl. by rewrite Hd. Qed.
Lemma staged_at s u p d : stage_at s u = Some p → st_uvs s !! p = Some d → staged_of s u = kinds d.
Proof. intros Hp Hd. unfold staged_of, kinds_at. rewrite Hp. simpl. by rewrite Hd. Qed.

Lemma entry_new h u : entry h u (JobUnitData_new u).
Proof.
  split; try done.
  - split; try done; simpl.
    + intros _. split; [constructor|]. intros id Hid. by inversion Hid.
  - intros _ _. unfold one_mutop. simpl. rewrite !lookup_empty. simpl. lia.
Qed.

(** Two units do not share an entry. *)
Lemma jobs_at_inj s u w p : jobs_ok s → jobs_at s u = Some p → jobs_at s w = Some p → u = w.
Proof.
  intros Hok Hu Hw. destruct (jo_entry _ Hok u p Hu) as (d & Hd & He).
  destruct (jo_entry _ Hok w p Hw) as (d' & Hd' & He'). simplify_eq.
  by rewrite <-(en_unit _ _ _ He), <-(en_unit _ _ _ He').
Qed.

(** One entry changes, with the jobs of its unit. *)
Record entry_step s u p s' : Prop := {
  es_jobs : ∀ w, jobs_at s' w = jobs_at s w;
  es_stage : st_stage s' = st_stage s;
  es_units : st_units s' = st_units s;
  es_next : st_next_uv s' = st_next_uv s;
  es_readys : ∀ p, p ∈ readys (t_unit (st_jobs s')) → p ∈ readys (t_unit (st_jobs s));
  es_uvs : ∀ p', p' ≠ p → st_uvs s' !! p' = st_uvs s !! p';
  es_heap : unit_frame u (st_heap s) (st_heap s');
  es_entry : ∃ d, st_uvs s' !! p = Some d ∧ entry (st_heap s') u d;
}.
Lemma entry_step_jobs s u p s' : jobs_ok s → jobs_at s u = Some p → entry_step s u p s' → jobs_ok s'.
Proof.
  intros Hok Hp [Hj Hst Hun Hnx Hrd Huv Hh (d' & Hd' & He')].
  assert (∀ q, is_Some (st_uvs s' !! q) ↔ is_Some (st_uvs s !! q)) as Hdom.
  { intros q. destruct (decide (q = p)) as [->|]; [|by rewrite Huv].
    destruct (jo_entry _ Hok u p Hp) as (d & Hd & _). rewrite Hd, Hd'. split; eauto. }
  split.
  - intros w q Hq. rewrite Hj in Hq. destruct (decide (w = u)) as [->|Hne].
    + assert (q = p) as -> by congruence. eauto.
    + destruct (jo_entry _ Hok w q Hq) as (d & Hd & He). exists d.
      rewrite Huv; [|intros ->; apply Hne; by eapply jobs_at_inj]. split; [done|].
      by eapply entry_frame.
  - intros q Hq. rewrite Hnx. apply (jo_fresh _ Hok). by apply Hdom.
  - intros q Hq. apply Hdom. by apply (jo_readys _ Hok), Hrd.
Qed.
Lemma entry_step_stage s u p s' T : stage_ok s T → jobs_at s u = Some p → entry_step s u p s' →
  stage_ok s' (λ w, T w ∧ w ≠ u).
Proof.
  intros [He Ha] Hp [Hj Hst Hun Hnx Hrd Huv Hh _].
  unfold stage_at in *. split; unfold stage_at; rewrite Hst.
  - intros w q Hq. destruct (He w q Hq) as (o & Ho & Hs & Hc). exists o.
    rewrite Huv by (intros ->; by apply (Ha w p u p)). split_and!; [done| |done].
    intros [HT Hne]. eapply (staged_frame w u); [done|done|by apply Hs].
  - intros w q v p' Hq. rewrite Hj. intros Hp'. by eapply Ha.
Qed.
Lemma entry_step_waiting s u p s' w : jobs_ok s → jobs_at s u = Some p → entry_step s u p s' →
  w ≠ u → waiting_of s' w = waiting_of s w.
Proof.
  intros Hok Hp [Hj _ _ _ _ Huv _ _] Hne. unfold waiting_of, kinds_at. rewrite Hj.
  destruct (jobs_at s w) as [q|] eqn:Hq; [|done]. simpl. rewrite Huv; [done|].
  intros ->. apply Hne. by eapply jobs_at_inj.
Qed.
Lemma entry_step_staged s u p s' w T : stage_ok s T → jobs_at s u = Some p → entry_step s u p s' →
  staged_of s' w = staged_of s w.
Proof.
  intros Hok Hp [_ Hst _ _ _ Huv _ _]. unfold staged_of, kinds_at, stage_at in *. rewrite Hst.
  destruct (t_data (t_unit (st_stage s)) !! w) as [q|] eqn:Hq; [|done]. simpl.
  rewrite Huv; [done|]. intros ->. by apply (so_apart _ _ Hok w p u p).
Qed.

(** No job appears or disappears. *)
Definition same_ids s s' : Prop := ∀ id, is_Some (st_heap s' !! id) ↔ is_Some (st_heap s !! id).
Lemma entry_step_ids s u p s' : entry_step s u p s' → same_ids s s'.
Proof. intros Hstep id. apply (uf_dom _ _ _ (es_heap _ _ _ _ Hstep)). Qed.

(** ** Merging *)
Lemma wp_pad s u T (Q : Store W → UvPtr → Prop) :
  jobs_ok s → stage_ok s T →
  (∀ s' p, jobs_ok s' → stage_ok s' T → jobs_at s' u = Some p → st_stage s' = st_stage s →
     st_units s' = st_units s → st_heap s' = st_heap s → (∀ w, waiting_of s' w = waiting_of s w) →
     (∀ w, staged_of s' w = staged_of s w) → Q s' p) →
  wp (JobUnitTable.get_mut_uv_pad Jobs u) s Q.
Proof.
  intros Hok Hst HQ. unfold JobUnitTable.get_mut_uv_pad. rewrite wp_bind, wp_ut_get. cbn [get_table].
  fold (jobs_at s u). destruct (jobs_at s u) as [p|] eqn:Hp; [rewrite wp_ret; by apply HQ|].
  rewrite wp_bind, wp_uv_new, wp_bind, wp_ut_modify, wp_ret. cbn [get_table set_table].
  set (p := st_next_uv s).
  assert (∀ q d, st_uvs s !! q = Some d → q ≠ p) as Hold.
  { intros q d Hq ->. assert (p < st_next_uv s)%N; [apply (jo_fresh _ Hok); eauto|unfold p in *; lia]. }
  assert (∀ w q, jobs_at s w = Some q → w ≠ u ∧ q ≠ p) as Hjobs.
  { intros w q Hq. split; [congruence|]. destruct (jo_entry _ Hok w q Hq) as (d & Hd & _). by eapply Hold. }
  assert (∀ w q, stage_at s w = Some q → q ≠ p) as Hstage.
  { intros w q Hq. destruct (so_entry _ _ Hst w q Hq) as (o & Ho & _). by eapply Hold. }
  apply HQ; try done; unfold waiting_of, staged_of, kinds_at; simpl.
  - split; unfold jobs_at; simpl.
    + intros w q [[<- <-]|[Hne Hq]]%lookup_insert_Some.
      * eexists. split; [apply lookup_insert_eq|apply entry_new].
      * destruct (jo_entry _ Hok w q Hq) as (d & Hd & He). exists d.
        rewrite lookup_insert_ne; [done|]. intros <-. by apply (Hold p d).
    + intros q. simpl. rewrite lookup_insert_is_Some. unfold p.
      intros [<-|[_ Hq%(jo_fresh _ Hok)]]; lia.
    + intros q Hq. apply lookup_insert_is_Some. destruct (decide (p = q)); [by left|right].
      split; [done|]. by apply (jo_readys _ Hok).
  - split; unfold jobs_at, stage_at; simpl.
    + intros w q Hq. destruct (so_entry _ _ Hst w q Hq) as (o & Ho & ?). exists o.
      rewrite lookup_insert_ne; [done|]. intros <-. by apply (Hold p o).
    + intros w q v p' Hq [[<- <-]|[Hne Hp']]%lookup_insert_Some;
        [intros Heq; by apply (Hstage w q)|by eapply (so_apart _ _ Hst)].
  - apply lookup_insert_eq.
  - intros w. unfold jobs_at at 1. simpl. rewrite lookup_insert. case_decide as Hw.
    + subst w. rewrite Hp. simpl. by rewrite lookup_insert_eq.
    + fold (jobs_at s w). destruct (jobs_at s w) as [q|] eqn:Hq; [|done]. simpl.
      rewrite lookup_insert_ne; [done|]. intros <-. by apply (Hjobs w p).
  - intros w. change (stage_at _ w) with (stage_at s w) at 1.
    destruct (stage_at s w) as [q|] eqn:Hq; [|done]. simpl. rewrite lookup_insert_ne; [done|].
    intros <-. by apply (Hstage w p).
Qed.

(** The merge of one unit. *)
Lemma wp_merge_unit s u q T (Q : Store W → JobChanges → Prop) :
  jobs_ok s → stage_ok s T → T u → stage_at s u = Some q →
  (∀ s' c, jobs_ok s' → stage_ok s' (λ w, T w ∧ w ≠ u) → st_stage s' = st_stage s →
     st_units s' = st_units s → same_ids s s' → (∀ id, id ∈ c.1.2 → is_Some (st_heap s !! id)) →
     (∀ w, staged_of s' w = staged_of s w) →
     waiting_of s' u = CommitSpec.merge (waiting_of s u) (staged_of s u) →
     (∀ w, w ≠ u → waiting_of s' w = waiting_of s w) → Q s' c) →
  wp (uv ← JobUnitTable.get_mut_uv_pad Jobs u; JobUnitData.merge_suspends uv q) s Q.
Proof.
  intros Hok Hst HT Hq HQ. rewrite wp_bind. eapply wp_pad; [done..|].
  intros s1 p Hok1 Hst1 Hp Hstage Hunits Hheap Hw1 Hs1.
  assert (stage_at s1 u = Some q) as Hq1 by (unfold stage_at in *; by rewrite Hstage).
  destruct (jo_entry _ Hok1 u p Hp) as (d & Hd & He).
  destruct (so_entry _ _ Hst1 u q Hq1) as (o & Ho & Hstg & Hoc). specialize (Hstg HT).
  assert (p ≠ q) as Hpq by by eapply (so_apart _ _ Hst1).
  eapply (wp_merge_suspends p q u d o); [done..|]. intros re h d' c He' Hsusp _ _ _ Hf Hdel.
  match goal with |- Q ?x c => set (s2 := x) end.
  assert (entry_step s1 u p s2) as Hstep.
  { split; try done; simpl; [|exists d'; split; [apply lookup_insert_eq|done]].
    intros p' Hne. by rewrite lookup_insert_ne. }
  apply HQ.
  - by eapply entry_step_jobs.
  - by eapply entry_step_stage.
  - done.
  - done.
  - intros id. rewrite <-Hheap. by apply (entry_step_ids _ _ _ _ Hstep).
  - intros id Hid. rewrite Forall_forall in Hdel. apply Hdel, elem_of_hm_values in Hid as [k Hk].
    apply (ji_susp _ _ (en_inv _ _ _ He)) in Hk as (j & (Hj & _) & _). rewrite <-Hheap. eauto.
  - intros w. rewrite <-Hs1. by eapply entry_step_staged.
  - rewrite <-Hw1, <-Hs1, (waiting_at s1 u p d), (staged_at s1 u q o) by done.
    rewrite (waiting_at s2 u p d'); [|done|apply lookup_insert_eq].
    apply kinds_merged; [apply He|done|done].
  - intros w Hne. rewrite <-Hw1. by eapply entry_step_waiting.
Qed.

(** All the staged units. *)
Lemma wp_merge_table s (Q : Store W → JobChanges → Prop) :
  jobs_ok s → stage_ok s (λ _, True) →
  (∀ s' c, jobs_ok s' → st_stage s' = st_stage s → st_units s' = st_units s → same_ids s s' →
     (∀ id, id ∈ c.1.2 → is_Some (st_heap s !! id)) →
     (∀ w, waiting_of s' w = CommitSpec.merge (waiting_of s w) (staged_of s w)) → Q s' c) →
  wp (JobUnitTable.merge_suspends Jobs Stage) s Q.
Proof.
  intros Hok Hst HQ. unfold JobUnitTable.merge_suspends. rewrite wp_bind, wp_ut_get. cbn [get_table].
  rewrite wp_bind. set (l := hm_iter (t_data (t_unit (st_stage s)))).
  apply (wp_mfold (λ dn s' (c : JobChanges), jobs_ok s' ∧ stage_ok s' (λ w, w ∉ dn.*1)
    ∧ same_ids s s' ∧ (∀ id, id ∈ c.1.2 → is_Some (st_heap s !! id))
    ∧ st_stage s' = st_stage s ∧ st_units s' = st_units s
    ∧ (∀ w, staged_of s' w = staged_of s w)
    ∧ (∀ w, waiting_of s' w = if decide (w ∈ dn.*1)
         then CommitSpec.merge (waiting_of s w) (staged_of s w) else waiting_of s w))).
  - split_and!; try done; [|intros id Hid; by inversion Hid].
    destruct Hst as [He Ha]. split; [|done]. intros u q Hq.
    destruct (He u q Hq) as (o & ? & ? & ?). eauto 10.
  - intros dn [u q] rest s1 c Hl (Hok1 & Hst1 & Hids1 & Hdel1 & Hstage & Hunits & Hs1 & Hw1). cbn [fst snd].
    assert (stage_at s u = Some q) as Hq.
    { apply elem_of_hm_iter. fold l. rewrite Hl. apply elem_of_app. right. by left. }
    assert (u ∉ dn.*1) as Hu.
    { pose proof (NoDup_hm_keys (t_data (t_unit (st_stage s)))) as Hnd. unfold hm_keys in Hnd.
      fold l in Hnd. rewrite Hl, fmap_app in Hnd. apply NoDup_app in Hnd as (_ & Hnd & _).
      intros Hin. apply (Hnd u Hin). by left. }
    apply wp_bind_assoc. 
    assert (stage_at s1 u = Some q) as Hq1 by (unfold stage_at in *; by rewrite Hstage).
    apply (wp_merge_unit s1 u q (λ w, w ∉ dn.*1)); [done..|].
    intros s2 c2 Hok2 Hst2 Hstage2 Hunits2 Hids2 Hdel2 Hs2 Hu2 Hw2. rewrite wp_ret.
    assert (∀ w, w ∈ (dn ++ [(u, q)]).*1 ↔ w ∈ dn.*1 ∨ w = u) as Hdn.
    { intros w. rewrite fmap_app, elem_of_app. simpl. by rewrite list_elem_of_singleton. }
    split_and!; [done| |intros id; by rewrite (Hids2 id)| |congruence|congruence|intros w; by rewrite Hs2, Hs1|].
    + destruct Hst2 as [He2 Ha2]. split; [|done]. intros w q' Hq'.
      destruct (He2 w q' Hq') as (o & ? & Ho & ?). exists o. rewrite Hdn. split_and!; [done| |done].
      intros Hn. apply Ho. tauto.
    + simpl. intros id [Hid|Hid]%elem_of_app; [by apply Hdel1|]. apply Hids1. by apply Hdel2.
    + intros w. destruct (decide (w = u)) as [->|Hne].
      * rewrite Hu2, Hs1, Hw1, decide_False, decide_True by (done || apply Hdn; by right). done.
      * rewrite Hw2, Hw1 by done. apply decide_ext. rewrite Hdn. tauto.
  - intros s1 c (Hok1 & _ & Hids1 & Hdel1 & Hstage & Hunits & Hs1 & Hw1). rewrite wp_bind, wp_ut_modify, wp_ret.
    apply HQ; try done.
    + by destruct Hok1.
    + intros w. change (waiting_of (set_table Jobs (set_t_unit (set_sync false (t_unit (get_table Jobs s1)))
        (get_table Jobs s1)) s1) w) with (waiting_of s1 w). rewrite Hw1.
      case_decide as Hin; [done|].
      assert (staged_of s w = ∅) as ->; [|by rewrite CommitSpec.merge_nil].
      unfold staged_of, kinds_at. destruct (stage_at s w) as [q|] eqn:Hq; [|done]. destruct Hin.
      apply list_elem_of_fmap. exists (w, q). split; [done|]. unfold l. by apply elem_of_hm_iter.
Qed.

(** ** Reshuffling *)

(** What the operations on one entry leave alone. *)
Definition same_tables s s' : Prop :=
  (st_jobs s', st_stage s', st_units s', st_next_uv s')
  = (st_jobs s, st_stage s, st_units s, st_next_uv s).
#[local] Instance same_tables_preorder : PreOrder same_tables.
Proof. split; [done|]. unfold same_tables. intros ? ? ? ? ?. congruence. Qed.

Lemma keeps_job_get id : keeps same_tables (job_get id : J W _).
Proof. unfold job_get. frame. Qed.
Lemma keeps_uv_get p : keeps same_tables (uv_get p : J W _).
Proof. unfold uv_get. frame. Qed.
Lemma keeps_mmodify f : (∀ s, same_tables s (f s)) → keeps same_tables (mmodify f : J W unit).
Proof. apply keeps_modify. Qed.
#[local] Hint Resolve keeps_job_get keeps_uv_get : frames.
#[local] Hint Extern 1 (keeps same_tables (mmodify _)) => apply keeps_mmodify; done : frames.
Lemma keeps_uv_modify p f : keeps same_tables (uv_modify p f : J W unit).
Proof. unfold uv_modify, uv_put. frame. Qed.
Lemma keeps_job_modify id f : keeps same_tables (job_modify id f : J W unit).
Proof. unfold job_modify, job_put. frame. Qed.
Lemma keeps_in_re {A} (m : M JobRe A) : (∀ r, wtp m r (λ _ _, True)) →
  keeps same_tables (in_re m : J W A).
Proof.
  intros Hm s. specialize (Hm (st_re s)). unfold wtp, in_re, mzoom in *.
  by destruct (m (st_re s)) as [[]| |].
Qed.
Lemma keeps_active_state u : keeps same_tables (active_state u : J W _).
Proof. unfold active_state. frame. Qed.
#[local] Hint Resolve keeps_uv_modify keeps_job_modify keeps_active_state : frames.
#[local] Hint Extern 1 (keeps same_tables (in_re _)) => apply keeps_in_re; done : frames.
Lemma keeps_job_finish id r : keeps same_tables (Job.finish id r : J W _).
Proof.
  unfold Job.finish, Job.update_runkind, Job.rentry_suspends_remove, Job.rentry_trigger_remove. frame.
Qed.
Lemma keeps_update_ready p : keeps same_tables (JobUnitData.update_ready p : J W unit).
Proof.
  unfold JobUnitData.update_ready, JobUnitData.calc_ready, JobUnitData.calc_natural_ready,
    JobUnitData.calc_natural_ready_t, JobUnitData.calc_natural_ready_s. frame.
Qed.
#[local] Hint Resolve keeps_job_finish keeps_update_ready : frames.
Lemma keeps_suspends_remove p k l :
  keeps same_tables (JobUnitData.jobs_suspends_remove p k l : J W _).
Proof. unfold JobUnitData.jobs_suspends_remove. frame. Qed.
Lemma keeps_sq_pushback p k : keeps same_tables (JobUnitData.sq_order_pushback p k : J W unit).
Proof. unfold JobUnitData.sq_order_pushback. frame. Qed.
#[local] Hint Resolve keeps_suspends_remove keeps_sq_pushback : frames.
Lemma keeps_reshuffle p : keeps same_tables (JobUnitData.reshuffle p : J W _).
Proof.
  unfold JobUnitData.reshuffle, JobUnitData.jobs_merge_suspend, JobUnitData.jobs_ms_start_and_reload,
    JobUnitData.jobs_ms_start_or_reload, JobUnitData.sq_order, JobUnitData.jobs_merge_trigger_prepare.
  frame.
Qed.
Lemma keeps_resume p : keeps same_tables (JobUnitData.resume p : J W unit).
Proof. unfold JobUnitData.resume. frame. Qed.

(** The ready queue of the jobs table replaced. *)
Definition queue_upd (tr : gmap UnitId UvPtr) (rs : list UvPtr) s : Store W :=
  set_st_jobs (set_t_unit (set_t_ready tr (set_readys rs (t_unit (st_jobs s)))) (st_jobs s)) s.
Lemma queue_upd_id s : queue_upd (t_ready (t_unit (st_jobs s))) (readys (t_unit (st_jobs s))) s = s.
Proof. unfold queue_upd. destruct s as [???????? [? []] ?????]. done. Qed.

Lemma wp_backfill s (Q : Store W → unit → Prop) :
  (∀ p, p ∈ readys (t_unit (st_jobs s)) → is_Some (st_uvs s !! p)) →
  (∀ tr, Q (queue_upd tr [] s) tt) → wp (JobUnitTable.readys_backfill Jobs) s Q.
Proof.
  intros Hrd HQ. unfold JobUnitTable.readys_backfill. rewrite wp_bind, wp_ut_get. cbn [get_table].
  case_bool_decide as Hnil.
  { rewrite wp_ret. specialize (HQ (t_ready (t_unit (st_jobs s)))). rewrite <-Hnil in HQ at 1.
    by rewrite queue_upd_id in HQ. }
  rewrite wp_bind, wp_ut_modify.
  apply (wp_mforeach (λ _ s', ∃ tr, s' = queue_upd tr [] s)).
  - by exists (t_ready (t_unit (st_jobs s))).
  - intros dn p rest s' Hl [tr ->]. destruct (Hrd p) as [d Hd].
    { rewrite Hl. apply elem_of_app. right. by left. }
    rewrite wp_bind. eapply wp_uv_get_at; [done|]. rewrite wp_ut_modify. by eexists.
  - intros s' [tr ->]. apply HQ.
Qed.

Lemma wp_ready_sync s u p d (Q : Store W → unit → Prop) :
  st_uvs s !! p = Some d → (∀ p, p ∈ readys (t_unit (st_jobs s)) → is_Some (st_uvs s !! p)) →
  (∀ tr rs, (∀ p, p ∈ rs → p ∈ readys (t_unit (st_jobs s))) →
     Q (queue_upd tr rs (upd_uv p (set_up_ready (ready d) d) s)) tt) →
  wp (JobUnitTable.ready_sync Jobs u p) s Q.
Proof.
  intros Hd Hrd HQ. unfold JobUnitTable.ready_sync. rewrite wp_bind. eapply wp_uv_get_at; [done|].
  assert (∀ b, up_ready d = b → ready d = b → Q s tt) as Hsame.
  { intros b Hb Hr. specialize (HQ (t_ready (t_unit (st_jobs s))) (readys (t_unit (st_jobs s))) ltac:(auto)).
    assert (set_up_ready (ready d) d = d) as Heq by (rewrite Hr, <-Hb; by destruct d).
    rewrite Heq, upd_uv_id in HQ by done. by rewrite queue_upd_id in HQ. }
  assert (∀ (f : gmap UnitId UvPtr → gmap UnitId UvPtr) b, ready d = b →
    wp (JobUnitTable.readys_backfill Jobs;;
        ut_modify Jobs (λ t, set_t_ready (f (t_ready t)) t);; uv_modify p (set_up_ready b)) s Q) as Hch.
  { intros g b Hr. rewrite wp_bind. apply wp_backfill; [done|]. intros tr.
    rewrite wp_bind, wp_ut_modify. eapply wp_uv_modify_at; [done|]. rewrite <-Hr.
    apply (HQ (g tr) []). intros p' Hp'. by inversion Hp'. }
  destruct (ready d) eqn:Hr; unfold JobUnitTable.ready_insert, JobUnitTable.ready_remove;
    rewrite wp_bind; (eapply wp_uv_get_at; [done|]).
  - destruct (up_ready d) eqn:Hu; [rewrite wp_ret; by eapply Hsame|].
    by apply (Hch (<[u:=p]>) true).
  - destruct (up_ready d) eqn:Hu; cbn [negb]; [by apply (Hch (delete u) false)|].
    rewrite wp_ret. by eapply Hsame.
Qed.

(** The invariant does not look at these marks. *)
Lemma junit_inv_marks h d b c : junit_inv h d → junit_inv h (set_dirty b (set_up_ready c d)).
Proof. intros [? ? ? ? ? ? ?]. by split. Qed.

Lemma reshuffled_entry active h h' u d : entry h u d → order d = false →
  junit_inv h' (reshuffled active h d) →
  (suspends (reshuffled active h d) !! Stop = None → one_mutop (suspends (reshuffled active h d))) →
  entry h' u (set_dirty false (set_up_ready (ready (reshuffled active h d)) (reshuffled active h d))).
Proof.
  intros He Ho Hinv Hone. split; try done.
  - apply He.
  - by apply junit_inv_marks.
  - pose proof (en_conflict _ _ _ He) as Hc. apply not_true_iff_false in Hc. apply not_true_iff_false.
    rewrite no_conflict_iff in *. simpl. intros [[x Hs] (k & [y Hk] & Hok)]. apply Hc.
    apply merged_lookup in Hs, Hk. eauto.
  - intros Hint Hnil. simpl in Hnil. destruct (sq (reshuffled active h d)) as [|x l] eqn:Hsq.
    + by apply (ji_int_sq _ _ Hinv).
    + destruct (ji_sq _ _ Hinv) as [_ Hin]; [done|]. destruct (Hin x) as [k Hk]; [rewrite Hsq; by left|].
      simpl in Hk. by rewrite Hnil, lookup_empty in Hk.
Qed.

Lemma entry_step_refl s u p d : st_uvs s !! p = Some d → entry (st_heap s) u d → entry_step s u p s.
Proof. intros Hd He. split; try done. by exists d. Qed.

Definition clean_at s u : Prop :=
  ∀ p d, jobs_at s u = Some p → st_uvs s !! p = Some d → dirty d = false ∧ up_ready d = ready d.

Lemma wp_reshuffle_unit s u p (Q : Store W → list JobPtr → Prop) :
  jobs_ok s → jobs_at s u = Some p →
  (∀ s' l, entry_step s u p s' → clean_at s' u →
     waiting_of s' u = CommitSpec.absorb (active_of s u) (waiting_of s u) → Q s' l) →
  wp (JobUnitTable.reshuffle_entry Jobs u p) s Q.
Proof.
  intros Hok Hp HQ. destruct (jo_entry _ Hok u p Hp) as (d & Hd & He).
  unfold JobUnitTable.reshuffle_entry. rewrite wp_bind. eapply wp_uv_get_at; [done|].
  pose proof (en_dirty _ _ _ He) as Hdirty. destruct (dirty d) eqn:Hdd; last first.
  { rewrite wp_ret. apply HQ; [by eapply entry_step_refl| |].
    - intros p' d' Hp' Hd'. simplify_eq. split; [done|]. by apply (en_sync _ _ _ He).
    - rewrite (waiting_at s u p d) by done. symmetry. apply absorbed_already, (en_one _ _ _ He).
      by destruct (order d). }
  assert (order d = false) as Ho by by destruct (order d).
  rewrite wp_bind. eapply wp_mono.
  { apply wp_and_wtp; [apply (wp_reshuffle p d s)|apply keeps_reshuffle]; try done; apply He. }
  rewrite (en_unit _ _ _ He). fold (active_of s u).
  intros s1 merged [(Huv & Hinv & Hone & Hmerged & Hheap) [= Hj1 Hst1 Hun1 Hnx1]].
  set (d' := reshuffled (active_of s u) (st_heap s) d) in *.
  assert (st_uvs s1 !! p = Some d') as Hd1 by by rewrite Huv, lookup_insert_eq.
  rewrite wp_bind. eapply wp_ready_sync; [done| |].
  { rewrite Hj1. intros q Hq. rewrite Huv. apply lookup_insert_is_Some.
    destruct (decide (p = q)); [by left|right]. split; [done|]. by apply (jo_readys _ Hok). }
  intros tr rs Hrs. rewrite wp_bind. eapply wp_uv_modify_at; [apply lookup_insert_eq|]. rewrite wp_ret.
  match goal with |- Q ?x merged => set (s2 := x) end.
  set (d2 := set_dirty false (set_up_ready (ready d') d')).
  assert (st_uvs s2 = <[p:=d2]> (st_uvs s)) as Huv2.
  { simpl. by rewrite Huv, !insert_insert_eq. }
  assert (st_uvs s2 !! p = Some d2) as Hd2 by by rewrite Huv2, lookup_insert_eq.
  assert (jobs_at s2 u = Some p) as Hp2 by (unfold jobs_at; simpl; by rewrite Hj1).
  apply HQ.
  - split; try done.
    + intros w. unfold jobs_at. simpl. by rewrite Hj1.
    + intros q Hq. rewrite <-Hj1. by apply Hrs.
    + intros q Hne. rewrite Huv2. by rewrite lookup_insert_ne.
    + apply (unit_frame_ends u _ _ merged Merged); [|exact Hheap].
      intros id (k & Hk & _)%Hmerged. apply (ji_susp _ _ (en_inv _ _ _ He)) in Hk as (j & (Hj & Hju & _) & _).
      exists j. by rewrite <-(en_unit _ _ _ He).
    + exists d2. split; [done|]. by apply reshuffled_entry.
  - intros p' d0 Hp' Hd0. simplify_eq. done.
  - rewrite (waiting_at s2 u p d2), (waiting_at s u p d) by done. apply kinds_absorbed.
Qed.

(** An entry with nothing left is dropped. *)
Lemma wp_gc_unit s u p (Q : Store W → unit → Prop) :
  jobs_ok s → jobs_at s u = Some p → clean_at s u →
  (∀ s', jobs_ok s' → st_stage s' = st_stage s → st_units s' = st_units s → clean_at s' u →
     (∀ w, w ≠ u → jobs_at s' w = jobs_at s w) → st_uvs s' = st_uvs s → st_heap s' = st_heap s →
     (∀ w, waiting_of s' w = waiting_of s w) → Q s' tt) →
  wp (JobUnitTable.try_gc_empty_unit Jobs u p) s Q.
Proof.
  intros Hok Hp Hcl HQ. destruct (jo_entry _ Hok u p Hp) as (d & Hd & He).
  unfold JobUnitTable.try_gc_empty_unit. rewrite wp_bind. eapply wp_uv_get_at; [done|].
  destruct (JobUnitData.is_empty d) eqn:Hemp; [|rewrite wp_ret; by apply HQ].
  unfold JobUnitData.is_empty in Hemp. apply andb_true_iff in Hemp as [Ht Hs].
  apply bool_decide_eq_true in Hs. destruct (Hcl p d Hp Hd) as [_ Hup].
  assert (ready d = false) as Hr.
  { rewrite (ji_ready _ _ (en_inv _ _ _ He)). unfold ready_of, ready_val.
    destruct (order d) eqn:Ho; [|done]. destruct (trigger d); [done|].
    destruct (sq d) as [|x l] eqn:Hsq; [by destruct (pause d)|].
    destruct (ji_sq _ _ (en_inv _ _ _ He) Ho) as [_ Hin]. destruct (Hin x) as [k Hk]; [rewrite Hsq; by left|].
    by rewrite Hs, lookup_empty in Hk. }
  rewrite wp_bind, wp_massert, Hr. split; [done|]. rewrite wp_bind, wp_massert, Hup, Hr.
  split; [done|]. rewrite wp_ut_modify. cbn [get_table set_table].
  apply HQ; try done.
  - split; simpl; [|apply Hok|apply Hok]. intros w q. unfold jobs_at. simpl.
    intros [_ Hq]%lookup_delete_Some. by apply (jo_entry _ Hok).
  - intros p' d'. unfold jobs_at. simpl. by rewrite lookup_delete_eq.
  - intros w Hne. unfold jobs_at. simpl. by rewrite lookup_delete_ne.
  - intros w. unfold waiting_of, kinds_at, jobs_at. simpl. destruct (decide (w = u)) as [->|Hne].
    + rewrite lookup_delete_eq. fold (jobs_at s u). rewrite Hp. simpl. rewrite Hd. unfold kinds.
      by rewrite Hs, dom_empty_L.
    + by rewrite lookup_delete_ne.
Qed.

(** The clean entries of other units stay clean. *)
Lemma entry_step_clean s u p s' w : jobs_ok s → jobs_at s u = Some p → entry_step s u p s' →
  w ≠ u → clean_at s w → clean_at s' w.
Proof.
  intros Hok Hp [Hj _ _ _ _ Huv _ _] Hne Hcl q d Hq Hd. rewrite Hj in Hq.
  apply (Hcl q); [done|]. rewrite <-Huv; [done|]. intros ->. apply Hne. by eapply jobs_at_inj.
Qed.

(** All the units of the jobs table. *)
Lemma wp_reshuffle_table s (Q : Store W → list JobPtr → Prop) :
  jobs_ok s →
  (∀ s' l, jobs_ok s' → st_units s' = st_units s → same_ids s s' → (∀ w, clean_at s' w) →
     (∀ w, waiting_of s' w = CommitSpec.absorb (active_of s w) (waiting_of s w)) →
     sync (t_unit (st_jobs s')) = true → Q s' l) →
  wp (JobUnitTable.reshuffle Jobs) s Q.
Proof.
  intros Hok HQ. unfold JobUnitTable.reshuffle. rewrite wp_bind, wp_ut_get. cbn [get_table].
  rewrite wp_bind. set (l := hm_iter (t_data (t_unit (st_jobs s)))).
  apply (wp_mfold (λ dn s' (_ : list JobPtr), jobs_ok s' ∧ st_units s' = st_units s ∧ same_ids s s'
    ∧ (∀ w, w ∈ dn.*1 → clean_at s' w
         ∧ waiting_of s' w = CommitSpec.absorb (active_of s w) (waiting_of s w))
    ∧ (∀ w, w ∉ dn.*1 → jobs_at s' w = jobs_at s w ∧ waiting_of s' w = waiting_of s w))).
  - split_and!; try done. intros w Hw. by inversion Hw.
  - intros dn [u p] rest s1 ms Hl (Hok1 & Hun1 & Hids1 & Hdone & Htodo). cbn [fst snd].
    assert (jobs_at s u = Some p) as Hp.
    { apply elem_of_hm_iter. fold l. rewrite Hl. apply elem_of_app. right. by left. }
    assert (u ∉ dn.*1) as Hu.
    { pose proof (NoDup_hm_keys (t_data (t_unit (st_jobs s)))) as Hnd. unfold hm_keys in Hnd.
      fold l in Hnd. rewrite Hl, fmap_app in Hnd. apply NoDup_app in Hnd as (_ & Hnd & _).
      intros Hin. apply (Hnd u Hin). by left. }
    destruct (Htodo u Hu) as [Hj1 Hw1]. rewrite Hp in Hj1.
    rewrite wp_bind. eapply wp_reshuffle_unit; [done..|]. intros s2 ms2 Hstep Hcl2 Hw2.
    assert (jobs_ok s2) as Hok2 by by eapply entry_step_jobs.
    assert (jobs_at s2 u = Some p) as Hp2 by by rewrite (es_jobs _ _ _ _ Hstep).
    rewrite wp_bind. eapply wp_gc_unit; [done..|]. intros s3 Hok3 Hst3 Hun3 Hcl3 Hj3 Huv3 Hh3 Hw3.
    rewrite wp_ret.
    assert (active_of s1 u = active_of s u) as Hact by (unfold active_of; by rewrite Hun1).
    assert (∀ w, w ≠ u → waiting_of s3 w = waiting_of s1 w) as Hother.
    { intros w Hne. rewrite Hw3. by eapply entry_step_waiting. }
    assert (∀ w, w ∈ (dn ++ [(u, p)]).*1 ↔ w ∈ dn.*1 ∨ w = u) as Hdn.
    { intros w. rewrite fmap_app, elem_of_app. simpl. by rewrite list_elem_of_singleton. }
    split_and!; [done|rewrite Hun3, (es_units _ _ _ _ Hstep); congruence| | |].
    { intros id. rewrite Hh3, (entry_step_ids _ _ _ _ Hstep id). apply Hids1. }
    + intros w [Hw| ->]%Hdn; [|split; [done|]; by rewrite Hw3, Hw2, Hact, Hw1].
      assert (w ≠ u) as Hne by (intros ->; done). destruct (Hdone w Hw) as [Hcl Hwt].
      split; [|by rewrite Hother].
      pose proof (entry_step_clean _ _ _ _ _ Hok1 Hj1 Hstep Hne Hcl) as Hcl2'.
      intros q d Hq Hd. rewrite Hj3 in Hq by done. rewrite Huv3 in Hd. by eapply Hcl2'.
    + intros w Hn. rewrite Hdn in Hn. assert (w ∉ dn.*1 ∧ w ≠ u) as [Hw Hne] by tauto. destruct (Htodo w Hw) as [Hj Hwt].
      split; [|by rewrite Hother]. rewrite Hj3, (es_jobs _ _ _ _ Hstep) by done. done.
  - intros s1 ms (Hok1 & Hun1 & Hids1 & Hdone & Htodo). rewrite wp_bind, wp_ut_modify, wp_ret.
    assert (∀ w, w ∉ l.*1 → jobs_at s w = None) as Hnone.
    { intros w Hw. apply eq_None_not_Some. intros [q Hq]. apply Hw, list_elem_of_fmap.
      exists (w, q). split; [done|]. by apply elem_of_hm_iter. }
    apply HQ; try done.
    + by destruct Hok1.
    + intros w. destruct (decide (w ∈ l.*1)) as [Hw|Hw]; [by apply (Hdone w Hw)|].
      intros q d Hq. destruct (Htodo w Hw) as [Hj _]. rewrite Hnone in Hj by done.
      unfold jobs_at in Hj, Hq. simpl in Hq. congruence.
    + intros w. change (waiting_of s1 w = CommitSpec.absorb (active_of s w) (waiting_of s w)).
      destruct (decide (w ∈ l.*1)) as [Hw|Hw]; [by apply (Hdone w Hw)|].
      destruct (Htodo w Hw) as [_ ->]. unfold waiting_of, kinds_at. rewrite Hnone by done. simpl.
      by rewrite CommitSpec.absorb_empty.
Qed.

(** ** Resuming the units around the flushed ones *)

(** The table is settled: every entry is in order and its readiness published. *)
Record settled_ok s : Prop := {
  se_jobs : jobs_ok s;
  se_clean : ∀ w, clean_at s w;
}.

Lemma wp_resume_unit s u (Q : Store W → unit → Prop) :
  settled_ok s →
  (∀ s', settled_ok s' → st_units s' = st_units s → (∀ w, waiting_of s' w = waiting_of s w) →
     sync (t_unit (st_jobs s')) = sync (t_unit (st_jobs s)) → st_heap s' = st_heap s → Q s' tt) →
  wp (JobUnitTable.resume_unit Jobs u) s Q.
Proof.
  intros [Hok Hcl] HQ. unfold JobUnitTable.resume_unit. rewrite wp_bind, wp_ut_get. cbn [get_table].
  fold (jobs_at s u). destruct (jobs_at s u) as [p|] eqn:Hp; [|rewrite wp_ret; by apply HQ].
  destruct (jo_entry _ Hok u p Hp) as (d & Hd & He). destruct (Hcl u p d Hp Hd) as [Hdirty Hup].
  unfold JobUnitTable.resume_entry. rewrite wp_bind. eapply wp_uv_get_at; [done|].
  rewrite wp_bind, wp_massert, Hdirty. split; [done|].
  destruct (pause d); [|rewrite wp_ret; by apply HQ].
  assert (order d = true) as Ho.
  { pose proof (en_dirty _ _ _ He) as Hb. rewrite Hdirty in Hb. by destruct (order d). }
  set (d1 := norm (set_pause false (set_dirty true d))).
  assert (junit_inv (st_heap s) d1) as Hinv1.
  { apply (junit_inv_norm _ d); try done; [apply He|]. apply (ji_retr _ _ (en_inv _ _ _ He)). }
  rewrite wp_bind. unfold JobUnitData.resume. rewrite wp_bind. eapply wp_uv_get_at; [done|].
  rewrite wp_bind, wp_massert. split; [done|]. rewrite wp_bind. eapply wp_uv_modify_at; [done|].
  rewrite wp_bind. eapply wp_uv_modify_at; [apply lookup_upd_uv|]. rewrite upd_uv_upd.
  eapply wp_update_ready; [apply lookup_upd_uv|by apply (junit_inv_safe (st_heap s) d1)|].
  rewrite upd_uv_upd. fold d1. rewrite wp_bind. eapply wp_ready_sync; [apply lookup_upd_uv| |].
  { intros q Hq. apply lookup_insert_is_Some. destruct (decide (p = q)); [by left|right].
    split; [done|]. by apply (jo_readys _ Hok). }
  intros tr rs Hrs. eapply wp_uv_modify_at; [apply lookup_insert_eq|].
  match goal with |- Q ?x tt => set (s2 := x) end.
  set (d2 := set_dirty false (set_up_ready (ready d1) d1)).
  assert (st_uvs s2 = <[p:=d2]> (st_uvs s)) as Huv2 by (simpl; by rewrite !insert_insert_eq).
  assert (entry (st_heap s) u d2) as He2.
  { destruct He as [? ? ? ? ? ? ?]. split; try done; [by apply junit_inv_marks|].
    simpl. by rewrite Ho. }
  assert (entry_step s u p s2) as Hstep.
  { split; try done.
    - intros q Hne. rewrite Huv2. by rewrite lookup_insert_ne.
    - exists d2. split; [|done]. by rewrite Huv2, lookup_insert_eq. }
  apply HQ; try done; [split|].
  - by eapply entry_step_jobs.
  - intros w. destruct (decide (w = u)) as [->|Hne];
      [|exact (entry_step_clean _ _ _ _ _ Hok Hp Hstep Hne (Hcl w))].
    intros q d' Hq Hd'. rewrite (es_jobs _ _ _ _ Hstep), Hp in Hq. simplify_eq.
    rewrite Huv2, lookup_insert_eq in Hd'. by simplify_eq.
  - intros w. destruct (decide (w = u)) as [->|Hne]; [|by eapply entry_step_waiting].
    rewrite (waiting_at s2 u p d2), (waiting_at s u p d);
      [done..|by rewrite (es_jobs _ _ _ _ Hstep)|by rewrite Huv2, lookup_insert_eq].
Qed.

(** ** The commit *)
Lemma wp_mforeach_same {B} (R : Store W → Store W → Prop) `{!PreOrder R} (f : B → J W unit) l s
    (I : Store W → Prop) (Q : Store W → unit → Prop) :
  (∀ x s, I s → wp (f x) s (λ s' _, I s' ∧ R s s')) → I s → (∀ s', I s' → R s s' → Q s' tt) →
  wp (mforeach f l) s Q.
Proof.
  intros Hf Hs HQ. apply (wp_mforeach (λ _ s', I s' ∧ R s s')); [done| |naive_solver].
  intros dn x rest s' _ [HI' HR]. eapply wp_mono; [by apply Hf|]. intros s2 [] [HI2 HR2].
  split; [done|]. by trans s'.
Qed.

(** What the units around see of the resumption. *)
Definition same_waiting s s' : Prop := (∀ w, waiting_of s' w = waiting_of s w)
  ∧ st_units s' = st_units s ∧ sync (t_unit (st_jobs s')) = sync (t_unit (st_jobs s))
  ∧ st_heap s' = st_heap s.
#[local] Instance same_waiting_preorder : PreOrder same_waiting.
Proof.
  split; [done|]. intros s1 s2 s3 (Hw1 & ? & ? & ?) (Hw2 & ? & ? & ?). split_and!; [|congruence..].
  intros w. by rewrite Hw2.
Qed.

Lemma wp_process_relation s u (Q : Store W → unit → Prop) : settled_ok s →
  (∀ s', settled_ok s' → same_waiting s s' → Q s' tt) → wp (JobTable.process_relation Jobs u) s Q.
Proof.
  intros Hok HQ. unfold JobTable.process_relation.
  assert (∀ w s, settled_ok s → wp (JobTable.resume_unit Jobs w) s (λ s' _, settled_ok s' ∧ same_waiting s s'))
    as Hres.
  { intros w s1 Hok1. apply wp_resume_unit; [done|]. intros s2 ? ? ? ? ?. by split_and!. }
  rewrite wp_bind. apply (wp_mforeach_same same_waiting _ _ _ settled_ok); [|done|].
  { intros w s1 Hok1. by apply wp_ret. }
  intros s1 Hok1 H1. rewrite wp_bind. apply (wp_mforeach_same same_waiting _ _ _ settled_ok); [done..|].
  intros s2 Hok2 H2. apply (wp_mforeach_same same_waiting _ _ _ settled_ok); [done..|].
  intros s3 Hok3 H3. apply HQ; [done|]. trans s1; [done|]. by trans s2.
Qed.

Lemma wp_jobs_2_units s l (Q : Store W → list UnitId → Prop) :
  (∀ id, id ∈ l → is_Some (st_heap s !! id)) → (∀ us, Q s us) → wp (jobs_2_units l) s Q.
Proof.
  intros Hl HQ. unfold jobs_2_units. rewrite wp_bind.
  apply (wp_mfold (λ _ s' (_ : gset UnitId), s' = s)); [done| |].
  - intros dn id rest s' us Heq ->. destruct (Hl id) as [j Hj].
    { rewrite Heq. apply elem_of_app. right. by left. }
    rewrite wp_bind. eapply wp_job_get_at; [done|]. by rewrite wp_ret.
  - intros s' us ->. by rewrite wp_ret.
Qed.

(** The index by id is not part of the entries. *)
Lemma settled_tid s t : settled_ok s → settled_ok (set_st_jobs (set_t_id t (st_jobs s)) s).
Proof. intros [[] Hcl]. by split. Qed.
Lemma jobs_tid s t : jobs_ok s → jobs_ok (set_st_jobs (set_t_id t (st_jobs s)) s).
Proof. by intros []. Qed.
Lemma wp_tid_loop s (f : JobPtr → gmap JobPtr JobPtr → gmap JobPtr JobPtr) l
    (Q : Store W → unit → Prop) :
  (∀ t, Q (set_st_jobs (set_t_id t (st_jobs s)) s) tt) →
  wp (mforeach (λ job, tid_modify Jobs (f job)) l) s Q.
Proof.
  intros HQ. apply (wp_mforeach (λ _ s', ∃ t, s' = set_st_jobs (set_t_id t (st_jobs s)) s)).
  - exists (t_id (st_jobs s)). by destruct s as [???????? [? ?] ?????].
  - intros dn id rest s' _ [t ->]. rewrite wp_tid_modify. by eexists.
  - intros s' [t ->]. apply HQ.
Qed.

(** Merging and reshuffling, with the index by id. *)
Lemma wp_commit_tables s (Q : Store W → JobChanges → list JobPtr → Prop) :
  jobs_ok s → stage_ok s (λ _, True) →
  (∀ s' c ms, settled_ok s' → st_units s' = st_units s → sync (t_unit (st_jobs s')) = true →
     (∀ id, id ∈ c.1.2 → is_Some (st_heap s' !! id)) →
     (∀ u, waiting_of s' u = CommitSpec.commit (active_of s u) (waiting_of s u) (staged_of s u)) →
     Q s' c ms) →
  wp (JobTable.merge_suspends Jobs Stage) s (λ s1 c,
    wp (JobTable.reshuffle Jobs) s1 (λ s2 ms, Q s2 c ms)).
Proof.
  intros Hok Hst HQ. unfold JobTable.merge_suspends. rewrite wp_bind.
  eapply wp_merge_table; [done..|]. intros s1 [[add del] upd] Hok1 Hst1 Hun1 Hids1 Hdel1 Hw1.
  rewrite wp_bind. apply wp_tid_loop. intros t1. rewrite wp_bind. apply wp_tid_loop. intros t2.
  rewrite wp_ret. unfold JobTable.reshuffle. rewrite wp_bind.
  eapply wp_reshuffle_table; [by repeat apply jobs_tid|].
  intros s2 ms Hok2 Hun2 Hids2 Hcl2 Hw2 Hsync. rewrite wp_bind. apply wp_tid_loop. intros t3.
  rewrite wp_ret. apply HQ.
  - apply settled_tid. by split.
  - simpl in *. congruence.
  - done.
  - simpl. intros id Hid. apply Hids2. simpl. apply Hids1. by apply Hdel1.
  - intros u. change (waiting_of s2 u = CommitSpec.commit (active_of s u) (waiting_of s u) (staged_of s u)).
    rewrite Hw2. unfold CommitSpec.commit. rewrite <-Hw1.
    change (waiting_of (set_st_jobs _ _) u) with (waiting_of s1 u).
    unfold active_of. simpl. by rewrite Hun1.
Qed.

(** C1: a commit implements its specification.  From consistent tables whose jobs
    are distinct, [commit] (in the modes that isolate nothing) returns the changes,
    and then on every unit exactly the kinds [CommitSpec.commit] computes are
    waiting: the staged kinds replace the waiting ones they clash with or join
    them, and the mergeable ones are absorbed as the state of the unit says.  The
    tables are consistent again, every entry is in order and its readiness is
    published. *)
Theorem commit_refines s mode : mode ≠ ModeIsolate → mode ≠ ModeFlush →
  jobs_ok s → stage_ok s (λ _, True) →
  (∀ id, is_Some (t_id (st_stage s) !! id) → t_id (st_jobs s) !! id = None) →
  wp (JobTable.commit Jobs Stage mode) s (λ s' r, is_ok r = true ∧ settled_ok s'
    ∧ sync (t_unit (st_jobs s')) = true
    ∧ ∀ u, waiting_of s' u = CommitSpec.commit (active_of s u) (waiting_of s u) (staged_of s u)).
Proof.
  intros Hi Hf Hok Hst Hids. unfold JobTable.commit.
  rewrite wp_bind, wp_tid_get, wp_bind, wp_tid_get. cbn [get_table].
  destruct (existsb _ _) eqn:Hex.
  { apply existsb_exists in Hex as (id & Hid & Hs). rewrite <-list_elem_of_In in Hid.
    unfold hm_keys in Hid. apply list_elem_of_fmap in Hid as ([id' x] & -> & Hin%elem_of_hm_iter).
    simpl in Hs. rewrite Hids in Hs by eauto. done. }
  assert (wp (JobTable.isolate_suspends Jobs Stage mode) s (λ s' r, s' = s ∧ r = [])) as Hiso.
  { unfold JobTable.isolate_suspends. rewrite wp_bind. destruct mode; try done. }
  rewrite wp_bind. eapply wp_mono; [exact Hiso|]. intros s0 r [-> ->].
  rewrite wp_bind. eapply wp_mono.
  { apply (wp_commit_tables s (λ s2 c ms, settled_ok s2 ∧ sync (t_unit (st_jobs s2)) = true
      ∧ (∀ id, id ∈ c.1.2 → is_Some (st_heap s2 !! id))
      ∧ ∀ u, waiting_of s2 u = CommitSpec.commit (active_of s u) (waiting_of s u) (staged_of s u)));
      [done..|]. by intros. }
  intros s1 [[add del] upd] Hre. rewrite wp_bind. eapply wp_mono; [exact Hre|]. simpl.
  intros s2 ms (Hok2 & Hsync2 & Hdel & Hw2). rewrite wp_bind, wp_mwhen.
  destruct (bool_decide (del = [])); simpl; [by rewrite wp_ret|].
  rewrite wp_bind. apply wp_jobs_2_units; [intros id Hid; by inversion Hid|]. intros us1.
  rewrite wp_bind. apply (wp_mforeach_same same_waiting _ _ _ settled_ok);
    [by intros; apply wp_process_relation|done|]. intros s3 Hok3 (Hw3 & Hun3 & Hsync3 & Hh3).
  rewrite wp_bind. apply wp_jobs_2_units; [by rewrite Hh3|]. intros us2.
  apply (wp_mforeach_same same_waiting _ _ _ settled_ok);
    [by intros; apply wp_process_relation|done|]. intros s4 Hok4 (Hw4 & Hun4 & Hsync4 & _).
  rewrite wp_ret. split_and!; [done|done|congruence|]. intros u. by rewrite Hw4, Hw3.
Qed.
End table.

#[local] Existing Instance hash_iter_canonical.

(** A start and a reload of a unit that is down, staged over an empty table. *)
Definition staged_store : Store Targets := Eval vm_compute in run_state
  (JobTable.record_suspend Stage {| jc_unit := "a.target"; jc_kind := Start |} ModeReplace;;
   JobTable.record_suspend Stage {| jc_unit := "a.target"; jc_kind := Reload |} ModeReplace) sample_store.

Lemma staged_store_at u :
  stage_at staged_store u = if decide ("a.target" = u) then Some 0%N else None.
Proof.
  unfold stage_at. replace (t_data (t_unit (st_stage staged_store))) with ({["a.target" := 0%N]} : gmap UnitId UvPtr)
    by by vm_compute. case_decide as Hu; [subst; apply lookup_singleton_eq|by apply lookup_singleton_ne].
Qed.

Lemma staged_store_ok : stage_ok staged_store (λ _, True).
Proof.
  split.
  - intros u q. rewrite staged_store_at. case_decide as Hu; [|done]. intros [= <-]. subst u.
    eexists. split; [by vm_compute|]. split; [|by vm_compute]. intros _.
    split; [by vm_compute..|]. intros k id. destruct k; vm_compute; try done; intros [= <-];
      eexists; (split; [reflexivity|]); split_and!; try done; by repeat constructor.
  - intros u q w p _ Hp. by vm_compute in Hp.
Qed.

Lemma commit_refines_witness : wp (JobTable.commit (HD := edges_UnitDb [] []) Jobs Stage ModeReplace)
  staged_store (λ s' r, is_ok r = true ∧ waiting_of s' "a.target" = {[Start]}).
Proof.
  eapply wp_mono.
  - apply (commit_refines (HD := edges_UnitDb [] []) staged_store ModeReplace); [done|done| | |].
    + split; [intros u p Hp; by vm_compute in Hp| |intros p Hp; by inversion Hp].
      intros p [d Hd]. destruct (decide (p = 0%N)) as [->|Hne]; [by vm_compute|].
      exfalso. revert Hd. replace (st_uvs staged_store) with
        (<[0%N:=default (JobUnitData_new "") (st_uvs staged_store !! 0%N)]> (∅ : gmap UvPtr JobUnitData))
        by by vm_compute. by rewrite lookup_insert_ne by done.
    + apply staged_store_ok.
    + intros id _. change (t_id (st_jobs staged_store)) with (∅ : gmap JobPtr JobPtr). apply lookup_empty.
  - intros s' r (Hr & _ & _ & Hw). split; [done|]. rewrite Hw. apply set_eq. by vm_compute.
Defined.
