(* ===== verification/JobManagerFacts.v ===== *)
(** * Facts about the job manager

    Runs of the whole engine over target units, and the arming of its event
    source ([JobManager.v]). *)
From S2P Require Import Prelude UnitTypes Relation ReDb UnitDb UnitDbFacts RateLimit Condition.
From S2P Require Import UnitEntry Target JobRentry JobData JobStat JobStore JobEntry JobUnit JobTable.
From S2P Require Import JobTrans JobNotify JobManager JobSample JobEntryFacts JobUnitFacts.

(** ** Concrete engines *)
#[local] Existing Instance hash_iter_canonical.
#[local] Existing Instance cond_env_sample.

(** Two targets, both active. *)
Definition both_active : Units Targets := {|
  us_unit := λ _, sample_unit;
  us_sub := {| tg_state := {["a.target" := Active; "b.target" := Active]}; tg_rentry := ReDb_new |};
  us_states := []; us_limits := [] |}.

(** The store of dependencies in which [a.target] requires [b.target], as
    [UnitDep::insert] builds it. *)
Definition requires_sample : UnitDepData := run_state
  (UnitDepData.insert "a.target" UnitRequires "b.target" true 0%Z) {|
  dep_units := {["a.target"; "b.target"]};
  dep_rentry := {|
    re_base := {| redb_ignore := false; redb_add := ∅; redb_del := ∅;
      redb_cache := {["a.target" := UnitTarget; "b.target" := UnitTarget]} |};
    re_dep := ReDb_new |};
  dep_t := ∅ |}.
Definition requires_db : UnitDb := UnitDepData_UnitDb requires_sample.

(** Restarting a unit that an active unit requires.  The restart of [b]
    restarts [a], whose start pulls in a start of [b]: the request brings both a
    restart and a start of [b], the merge drops the start it has just added, and
    the census subtracts it before counting it.  The request ends in a panic of
    the manager. *)
Theorem restart_of_required_panics :
  panics (JobManagerData.exec (HD := requires_db) 13 {| jc_unit := "b.target"; jc_kind := Restart |}
            ModeReplace (JobAffect_new false)) (store_new both_active).
Proof. by vm_compute. Qed.

(** The kinds still waiting on a unit. *)
Definition waiting_kinds (s : Store Targets) (u : UnitId) : list JobKind :=
  match t_data (t_unit (st_jobs s)) !! u with
  | Some p => match st_uvs s !! p with Some d => hm_keys (suspends d) | None => [] end
  | None => []
  end.

(** A stop and a try-restart of a target that is down, and two turns of the event
    loop. *)
Definition stop_then_try_restart : J Targets unit :=
  JobManager.exec (HD := requires_db) 13 {| jc_unit := "b.target"; jc_kind := Stop |}
    ModeReplace (JobAffect_new false);;
  JobManager.exec (HD := requires_db) 13 {| jc_unit := "b.target"; jc_kind := TryRestart |}
    ModeReplace (JobAffect_new false);;
  JobManagerData.dispatch (HD := requires_db) 10 13;;
  JobManagerData.dispatch (HD := requires_db) 10 13.

(** A job left behind by a stop.  A try-restart of a unit that is down is a
    [Nop]; accepted while a stop waits, it is not put in the queue, which then
    holds the stop alone, and nothing rebuilds the queue once the stop has run:
    the job stays waiting, and the engine has nothing ready to run. *)
Theorem nop_stranded :
  wp stop_then_try_restart (store_new sample_units) (λ s _,
    waiting_kinds s "b.target" = [Nop] ∧ JobUnitTable.calc_ready (t_unit (st_jobs s)) = false
    ∧ st_enabled s = false).
Proof. vm_compute. done. Qed.

(** ** The event source *)
Section enable.
Context `{HI : !HashIter} {W : Type}.
Implicit Types (s : Store W).

(** While the table is known to be ready, the source is armed. *)
Definition armed s : Prop := ut_up_ready (t_unit (st_jobs s)) = true → st_enabled s = true.

(** No wake-up is lost.  If the source was armed whenever the table was known
    to be ready, then after [try_enable] (the end of every request) it is armed
    whenever the table {e is} ready, the table's mark is exact, and nothing else
    has changed. *)
Theorem try_enable_arms s : armed s →
  wp try_enable s (λ s' _,
    (JobUnitTable.calc_ready (t_unit (st_jobs s')) = true → st_enabled s' = true) ∧ armed s'
    ∧ ut_up_ready (t_unit (st_jobs s')) = JobUnitTable.calc_ready (t_unit (st_jobs s))
    ∧ ∃ up en, s' = set_st_jobs (set_t_unit (set_ut_up_ready up (t_unit (st_jobs s))) (st_jobs s))
                      (set_st_enabled en s)).
Proof.
  intros Harm. unfold armed, try_enable, enable, JobTable.calc_ready, JobTable.up_ready in *.
  rewrite wp_bind, wp_bind, wp_ut_get, wp_ret, wp_bind, wp_bind, wp_ut_get, wp_ret. simpl.
  set (r := JobUnitTable.calc_ready (t_unit (st_jobs s))).
  assert (∀ en, (r = true → en = true) →
    wp (JobTable.update_up_ready Jobs) (set_st_enabled en s) (λ s' _,
      (JobUnitTable.calc_ready (t_unit (st_jobs s')) = true → st_enabled s' = true)
      ∧ (ut_up_ready (t_unit (st_jobs s')) = true → st_enabled s' = true)
      ∧ ut_up_ready (t_unit (st_jobs s')) = r
      ∧ ∃ up en, s' = set_st_jobs (set_t_unit (set_ut_up_ready up (t_unit (st_jobs s))) (st_jobs s))
                        (set_st_enabled en s))) as Hup.
  { intros en Hen. unfold JobTable.update_up_ready, JobUnitTable.update_up_ready.
    rewrite wp_ut_modify. simpl. split_and!; [done..|]. by exists r, en. }
  rewrite wp_bind, wp_mwhen. destruct r eqn:Hr; simpl.
  - destruct (ut_up_ready (t_unit (st_jobs s))); simpl.
    + specialize (Hup (st_enabled s)). assert (set_st_enabled (st_enabled s) s = s) as Hid by by destruct s.
      rewrite Hid in Hup. apply Hup. auto.
    + by apply Hup.
  - specialize (Hup (st_enabled s)). assert (set_st_enabled (st_enabled s) s = s) as Hid by by destruct s.
    rewrite Hid in Hup. by apply Hup.
Qed.
End enable.

(** A table with a ready unit, not yet known to be ready. *)
Definition ready_store : Store Targets :=
  set_st_jobs (set_t_unit (set_t_ready {["a.target" := 0%N]} JobUnitTable_new) JobTable_new)
    (store_new sample_units).

Lemma try_enable_arms_witness : wp try_enable ready_store (λ s' _, st_enabled s' = true).
Proof.
  eapply wp_mono; [apply (try_enable_arms ready_store); done|].
  intros s' [] (Hen & _ & Hup & up & en & ->). apply Hen. by vm_compute.
Defined.
