(* ===== verification/StdString.v ===== *)
(** * The string functions of Rust's standard library the program calls

    [str::trim], [str::parse] for the machine integers, [u32::from_str_radix],
    [str::split_terminator] and [Path::ancestors], on the ASCII strings of the
    unit files and of the notification messages. *)
From Stdlib Require Import Ascii.
From S2P Require Import Prelude Condition.
Local Open Scope Z_scope.

Abbreviation chars := String.list_ascii_of_string.
Abbreviation of_chars := String.string_of_list_ascii.

(** [str::trim] *)
Fixpoint trim_start (cs : list Ascii.ascii) : list Ascii.ascii :=
  match cs with
  | [] => []
  | c :: cs' => if is_space c then trim_start cs' else cs
  end.
Definition trim (s : string) : string :=
  of_chars (rev (trim_start (rev (trim_start (chars s))))).

(** The value of a string of digits in the radix, [None] at the first character
    that is not a digit of it. *)
Definition digit_value (radix : Z) (c : Ascii.ascii) : option Z :=
  let v := Z.of_nat (Ascii.nat_of_ascii c) - 48 in
  if (0 <=? v) && (v <? 10) && (v <? radix) then Some v else None.
Fixpoint digits (radix acc : Z) (cs : list Ascii.ascii) : option Z :=
  match cs with
  | [] => Some acc
  | c :: cs' => v ← digit_value radix c; digits radix (acc * radix + v) cs'
  end.

(** [from_str_radix] of the unsigned types (at most decimal here): an optional
    plus sign, at least one digit, and the value fits. *)
Definition parse_unsigned (radix max : Z) (s : string) : option Z :=
  let cs := match chars s with "+"%char :: cs => cs | cs => cs end in
  match cs with
  | [] => None
  | _ => v ← digits radix 0 cs; if v <=? max then Some v else None
  end.
Definition parse_u8 : string → option Z := parse_unsigned 10 255.
Definition parse_u32 : string → option Z := parse_unsigned 10 u32_max.
Definition parse_u64 : string → option Z := parse_unsigned 10 u64_max.
(** [parse::<i32>] *)
Definition parse_i32 (s : string) : option Z :=
  match chars s with
  | "-"%char :: [] => None
  | "-"%char :: cs => v ← digits 10 0 cs; if v <=? 2 ^ 31 then Some (- v) else None
  | _ => parse_unsigned 10 (2 ^ 31 - 1) s
  end.

(** [format!("{n}")] of a number that is not negative. *)
Fixpoint show_digits (fuel : nat) (n : Z) (acc : list Ascii.ascii) : list Ascii.ascii :=
  match fuel with
  | O => acc
  | S fuel' =>
    let acc' := Ascii.ascii_of_nat (Z.to_nat (n mod 10) + 48) :: acc in
    if n <? 10 then acc' else show_digits fuel' (n / 10) acc'
  end.
(** Twenty digits hold every [u64]. *)
Definition show_uint (n : Z) : string := of_chars (show_digits 20 n []).
Definition show_int (n : Z) : string :=
  if n <? 0 then of_chars ("-"%char :: chars (show_uint (- n))) else show_uint n.

(** [str::split] at one character, and [split_terminator]. *)
Definition split_char (c : Ascii.ascii) (s : string) : list string :=
  of_chars <$> split_on (Ascii.eqb c) [] (chars s).

(** [Path::ancestors]: the path, then each of its parents; redundant separators
    and [.] components, which name the same file, are dropped from the parents. *)
Definition join_path (root : bool) (comps : list string) : string :=
  let body := foldl (λ acc c, if decide (acc = "") then c else (acc ++ "/" ++ c))%string
                ""%string comps in
  if root then ("/" ++ body)%string else body.
Fixpoint prefixes_down {A} (l : list A) (n : nat) : list (list A) :=
  match n with
  | O => []
  | S n' => take n' l :: prefixes_down l n'
  end.
Definition path_ancestors (path : string) : list string :=
  let root := match chars path with "/"%char :: _ => true | _ => false end in
  let comps := filter (λ c, c ≠ "" ∧ c ≠ ".")%string (split_char "/"%char path) in
  path :: (join_path root <$> prefixes_down comps (length comps)).

Example ancestors_abs : path_ancestors "/run/a/b" = ["/run/a/b"; "/run/a"; "/run"; "/"]%string.
Proof. reflexivity. Qed.
Example ancestors_rel : path_ancestors "a/b" = ["a/b"; "a"; ""]%string.
Proof. reflexivity. Qed.
Example parse_examples :
  parse_i32 "-12" = Some (-12) ∧ parse_i32 "+7" = Some 7 ∧ parse_i32 "2147483648" = None
  ∧ parse_i32 "" = None ∧ parse_u8 "256" = None ∧ parse_unsigned 8 u32_max "0022" = Some 18.
Proof. by vm_compute. Qed.

(** [String::from_utf8]: whether the bytes are UTF-8. *)
Definition byte_in (lo hi : nat) (c : Ascii.ascii) : bool :=
  let n := Ascii.nat_of_ascii c in (lo <=? n)%nat && (n <=? hi)%nat.
Definition is_cont : Ascii.ascii → bool := byte_in 128 191.
Fixpoint utf8 (cs : list Ascii.ascii) : bool :=
  match cs with
  | [] => true
  | a :: cs1 =>
    if byte_in 0 127 a then utf8 cs1 else
    match cs1 with
    | [] => false
    | b :: cs2 =>
      if byte_in 194 223 a then is_cont b && utf8 cs2 else
      match cs2 with
      | [] => false
      | c :: cs3 =>
        if byte_in 224 239 a then
          (if byte_in 224 224 a then byte_in 160 191 b
           else if byte_in 237 237 a then byte_in 128 159 b else is_cont b)
          && is_cont c && utf8 cs3
        else
          match cs3 with
          | [] => false
          | d :: cs4 =>
            byte_in 240 244 a
            && (if byte_in 240 240 a then byte_in 144 191 b
                else if byte_in 244 244 a then byte_in 128 143 b else is_cont b)
            && is_cont c && is_cont d && utf8 cs4
          end
      end
    end
  end.
(** [s.split(pat)]'s first part, when [s] contains [pat]. *)
Fixpoint before_pattern (pat s : list Ascii.ascii) : option (list Ascii.ascii) :=
  if decide (take (length pat) s = pat) then Some [] else
  match s with
  | [] => None
  | c :: s' => (c ::.) <$> before_pattern pat s'
  end.
(** [str::starts_with], [strip_prefix] and [contains] of a string, [replace] of one
    character by another. *)
Definition str_strip_prefix (pat s : string) : option string :=
  if decide (take (length (chars pat)) (chars s) = chars pat) then Some (of_chars (drop (length (chars pat)) (chars s))) else None.
Definition str_starts_with (pat s : string) : bool := is_some (str_strip_prefix pat s).
Definition str_contains (pat s : string) : bool := is_some (before_pattern (chars pat) (chars s)).
Definition str_replace (c d : Ascii.ascii) (s : string) : string :=
  of_chars ((λ x, if Ascii.eqb x c then d else x) <$> chars s).
(** [Path::starts_with]: by components. *)
Definition path_parts (path : string) : bool * list string :=
  (match chars path with "/"%char :: _ => true | _ => false end, filter (λ c, c ≠ "" ∧ c ≠ ".")%string (split_char "/"%char path)).
Definition path_starts_with (base path : string) : bool :=
  bool_decide ((path_parts base).1 = (path_parts path).1
    ∧ take (length (path_parts base).2) (path_parts path).2 = (path_parts base).2).

(** ** Printing and parsing a number *)
Lemma digit_value_show n : 0 ≤ n < 10 →
  digit_value 10 (Ascii.ascii_of_nat (Z.to_nat n + 48)) = Some n.
Proof.
  intros Hn. unfold digit_value. rewrite Ascii.nat_ascii_embedding by lia.
  replace (Z.of_nat (Z.to_nat n + 48) - 48) with n by lia.
  by rewrite (proj2 (Z.leb_le 0 n)), (proj2 (Z.ltb_lt n 10)) by lia.
Qed.

Lemma show_digits_app fuel n acc : show_digits fuel n acc = show_digits fuel n [] ++ acc.
Proof.
  revert n acc. induction fuel as [|fuel IH]; intros n acc; simpl; [done|].
  destruct (n <? 10); [done|]. rewrite IH, (IH _ [_]), <-app_assoc. done.
Qed.

Lemma digits_app radix acc cs cs' :
  digits radix acc (cs ++ cs') = (v ← digits radix acc cs; digits radix v cs').
Proof.
  revert acc. induction cs as [|c cs IH]; intros acc; simpl; [done|].
  destruct (digit_value radix c); simpl; [apply IH|done].
Qed.

Lemma digits_show fuel n : 0 ≤ n < 10 ^ Z.of_nat fuel → (0 < fuel)%nat →
  digits 10 0 (show_digits fuel n []) = Some n.
Proof.
  revert n. induction fuel as [|fuel IH]; intros n Hn Hf; [lia|]. simpl.
  destruct (Z.ltb_spec n 10).
  - simpl. rewrite digit_value_show by (pose proof (Z.mod_pos_bound n 10); lia).
    simpl. by rewrite Z.mod_small by lia.
  - rewrite show_digits_app, digits_app.
    rewrite Nat2Z.inj_succ, Z.pow_succ_r in Hn by lia.
    assert (0 < fuel)%nat. { destruct fuel; [|lia]. simpl in Hn. lia. }
    rewrite IH; [|split; [apply Z.div_pos; lia|apply Z.div_lt_upper_bound; lia]|done]. simpl.
    rewrite digit_value_show by (pose proof (Z.mod_pos_bound n 10); lia). simpl.
    f_equal. pose proof (Z.div_mod n 10). lia.
Qed.

Lemma show_digits_head fuel n acc : 0 ≤ n → (0 < fuel)%nat →
  ∃ c cs, show_digits fuel n acc = c :: cs ∧ is_Some (digit_value 10 c).
Proof.
  revert n acc. induction fuel as [|fuel IH]; intros n acc Hn Hf; [lia|]. simpl.
  assert (is_Some (digit_value 10 (Ascii.ascii_of_nat (Z.to_nat (n mod 10) + 48)))).
  { rewrite digit_value_show by (pose proof (Z.mod_pos_bound n 10); lia). by eexists. }
  destruct (Z.ltb_spec n 10); [by eauto|].
  destruct fuel as [|fuel]; [simpl; by eauto|]. apply IH; [apply Z.div_pos; lia|lia].
Qed.

Lemma chars_of_chars cs : chars (of_chars cs) = cs.
Proof. apply String.list_ascii_of_string_of_list_ascii. Qed.

(** A printed [u64] parses back to itself. *)
Lemma parse_show max n : 0 ≤ n ≤ max → max < 10 ^ 20 →
  parse_unsigned 10 max (show_uint n) = Some n.
Proof.
  intros Hn Hm. unfold parse_unsigned, show_uint. rewrite chars_of_chars.
  destruct (show_digits_head 20 n [] ltac:(lia) ltac:(lia)) as (c & cs & Hs & [v Hv]).
  pose proof (digits_show 20 n ltac:(lia) ltac:(lia)) as Hd. rewrite Hs in Hd |- *.
  assert (c ≠ "+"%char) as Hc by (intros ->; vm_compute in Hv; done).
  replace (match c :: cs with "+"%char :: cs0 => cs0 | cs0 => cs0 end) with (c :: cs).
  - rewrite Hd. simpl. by rewrite (proj2 (Z.leb_le n max)) by lia.
  - destruct c as [[] [] [] [] [] [] [] []]; done.
Qed.

(** Splitting at a character. *)
Lemma split_on_last p (s : list Ascii.ascii) cur : (∀ c, c ∈ s → p c = false) → split_on p cur s = [rev cur ++ s].
Proof.
  revert cur. induction s as [|c s IH]; intros cur Hs; simpl; [by rewrite app_nil_r|].
  rewrite Hs by by left. rewrite IH; [|intros c' Hc'; apply Hs; by right]. simpl. by rewrite <- app_assoc.
Qed.
Lemma split_on_sep p (s : list Ascii.ascii) c s' cur : (∀ c, c ∈ s → p c = false) → p c = true →
  split_on p cur (s ++ c :: s') = (rev cur ++ s) :: split_on p [] s'.
Proof.
  revert cur. induction s as [|d s IH]; intros cur Hs Hc; simpl.
  - rewrite Hc. by rewrite app_nil_r.
  - rewrite Hs by by left. rewrite IH; [|intros c' Hc'; apply Hs; by right|done]. simpl. by rewrite <- app_assoc.
Qed.
(** A printed number holds nothing but digits. *)
Lemma show_digits_chars fuel n acc c : c ∈ show_digits fuel n acc → c ∈ acc ∨ is_Some (digit_value 10 c).
Proof.
  revert n acc. induction fuel as [|fuel IH]; intros n acc; simpl; [by left|].
  assert (is_Some (digit_value 10 (Ascii.ascii_of_nat (Z.to_nat (n mod 10) + 48)))) as Hd.
  { rewrite digit_value_show by (pose proof (Z.mod_pos_bound n 10); lia). by eexists. }
  destruct (n <? 10).
  - intros [->|Hc]%elem_of_cons; [by right|by left].
  - intros [[->|Hc]%elem_of_cons|Hc]%IH; [by right|by left|by right].
Qed.
Lemma show_uint_chars n c : c ∈ chars (show_uint n) → is_Some (digit_value 10 c).
Proof. unfold show_uint. rewrite chars_of_chars. intros [Hc|?]%show_digits_chars; [by apply elem_of_nil in Hc|done]. Qed.

(** ** UTF-8 *)
Definition cont_bytes (k : list Ascii.ascii) : Prop := Forall (λ c, byte_in 128 255 c = true) (tail k).
Lemma byte_in_weaken lo hi lo' hi' c : byte_in lo hi c = true → (lo' ≤ lo)%nat → (hi ≤ hi')%nat → byte_in lo' hi' c = true.
Proof. unfold byte_in. rewrite !andb_true_iff, !Nat.leb_le. lia. Qed.
Lemma utf8_step a cs : utf8 (a :: cs) = true →
  ∃ k rest, a :: cs = (a :: k) ++ rest ∧ cont_bytes (a :: k) ∧ utf8 rest = true ∧ ∀ ds, utf8 ((a :: k) ++ ds) = utf8 ds.
Proof.
  assert (∀ b, is_cont b = true → byte_in 128 255 b = true) as Hcont by (intros b Hb; by eapply byte_in_weaken; [exact Hb|lia..]).
  cbn [utf8]. destruct (byte_in 0 127 a) eqn:Ha.
  { intros Hr. exists [], cs. split_and!; [done|constructor|done|]. intros ds. cbn [app utf8]. by rewrite Ha. }
  destruct cs as [|b cs]; [done|]. destruct (byte_in 194 223 a) eqn:Ha2.
  { intros [Hb Hr]%andb_true_iff. exists [b], cs. split_and!; [done|constructor; [auto|constructor]|done|].
    intros ds. cbn [app utf8]. by rewrite Ha, Ha2, Hb. }
  destruct cs as [|c cs]; [done|]. destruct (byte_in 224 239 a) eqn:Ha3.
  { intros [Hbc Hr]%andb_true_iff. exists [b; c], cs. split_and!; [done| |done|].
    - apply andb_true_iff in Hbc as [Hb Hc]. repeat constructor; [|by auto].
      repeat case_match; (eapply byte_in_weaken; [exact Hb|lia..]).
    - intros ds. cbn [app utf8]. by rewrite Ha, Ha2, Ha3, Hbc. }
  destruct cs as [|d cs]; [done|].
  intros [Hbcd Hr]%andb_true_iff. exists [b; c; d], cs. split_and!; [done| |done|].
  - apply andb_true_iff in Hbcd as [[[_ Hb]%andb_true_iff Hc]%andb_true_iff Hd]. repeat constructor; [|by auto..].
    repeat case_match; (eapply byte_in_weaken; [exact Hb|lia..]).
  - intros ds. cbn [app utf8]. by rewrite Ha, Ha2, Ha3, Hbcd.
Qed.
Lemma utf8_induct (P : list Ascii.ascii → Prop) : P [] →
  (∀ a k rest, cont_bytes (a :: k) → utf8 rest = true → (∀ ds, utf8 ((a :: k) ++ ds) = utf8 ds) → P rest → P ((a :: k) ++ rest)) →
  ∀ cs, utf8 cs = true → P cs.
Proof.
  intros H0 Hs cs. remember (length cs) as n eqn:Hn. revert cs Hn.
  induction n as [n IH] using lt_wf_ind. intros [|a cs] -> Hc; [done|].
  destruct (utf8_step _ _ Hc) as (k & rest & Heq & Hk & Hr & Hstep). rewrite Heq. apply Hs; [done..|].
  apply (IH (length rest)); [|done|done]. apply (f_equal length) in Heq. rewrite length_app in Heq. simpl in *. lia.
Qed.
Lemma utf8_app cs ds : utf8 cs = true → utf8 ds = true → utf8 (cs ++ ds) = true.
Proof. intros Hc Hd. revert cs Hc. apply utf8_induct; [done|]. intros a k rest _ _ Hs IH. by rewrite <- app_assoc, Hs. Qed.
(** A text can be cut at an ASCII character. *)
Lemma utf8_split cs c ds : byte_in 0 127 c = true → utf8 (cs ++ c :: ds) = true → utf8 cs = true ∧ utf8 ds = true.
Proof.
  intros Hc Hu. remember (cs ++ c :: ds) as all eqn:Heq. revert all Hu cs Heq.
  apply (utf8_induct (λ all, ∀ cs, all = cs ++ c :: ds → utf8 cs = true ∧ utf8 ds = true)); [by intros []|].
  intros a k rest Hk Hr Hs IH cs Heq.
  destruct (decide (length (a :: k) ≤ length cs)%nat) as [Hle|Hgt].
  - assert (cs = (a :: k) ++ drop (length (a :: k)) cs) as Hcs.
    { rewrite <- (take_drop (length (a :: k)) cs) at 1. f_equal.
      apply (f_equal (take (length (a :: k)))) in Heq. rewrite take_app_length, take_app_le in Heq by done. done. }
    rewrite Hcs, Hs. apply IH. rewrite Hcs, <- app_assoc in Heq. by apply app_inv_head in Heq.
  - destruct cs as [|a' cs].
    + split; [done|]. assert (utf8 (c :: ds) = true) as Hu by (change (c :: ds) with ([] ++ c :: ds); by rewrite <- Heq, Hs).
      cbn [utf8] in Hu. by rewrite Hc in Hu.
    + exfalso. assert (k !! length cs = Some c) as Hk'.
      { apply (f_equal (λ l, l !! S (length cs))) in Heq. simpl in Heq, Hgt.
        rewrite lookup_app_l in Heq by lia. by rewrite Heq, list_lookup_middle. }
      eapply Forall_lookup_1 in Hk; [|exact Hk']. unfold byte_in in Hk, Hc. rewrite andb_true_iff, !Nat.leb_le in Hk, Hc. lia.
Qed.
Lemma utf8_split_on p cs cur : (∀ c, p c = true → byte_in 0 127 c = true) → utf8 (rev cur ++ cs) = true →
  Forall (λ w, utf8 w = true) (split_on p cur cs).
Proof.
  intros Hp. revert cur. induction cs as [|c cs IH]; intros cur Hu; simpl.
  { constructor; [by rewrite app_nil_r in Hu|constructor]. }
  destruct (p c) eqn:Hc.
  - apply utf8_split in Hu as [? ?]; [|by apply Hp]. constructor; [done|by apply IH].
  - apply IH. simpl. by rewrite <- app_assoc.
Qed.
Lemma elem_of_rev {A} (x : A) l : x ∈ rev l → x ∈ l.
Proof. intros H. rewrite rev_alt in H. by apply elem_of_reverse. Qed.
(** The parts hold no separator, and nothing that the text does not hold. *)
Lemma split_on_parts p cs cur : (∀ c, c ∈ cur → p c = false) →
  Forall (λ w, ∀ c, c ∈ w → p c = false ∧ (c ∈ cs ∨ c ∈ cur)) (split_on p cur cs).
Proof.
  revert cur. induction cs as [|c cs IH]; intros cur Hcur; simpl.
  { constructor; [|constructor]. intros c Hc. apply elem_of_rev in Hc. auto. }
  destruct (p c) eqn:Hc.
  - constructor.
    + intros d Hd. apply elem_of_rev in Hd. auto.
    + eapply Forall_impl; [apply (IH []); by intros d ?%elem_of_nil|]. simpl. intros w Hw d Hd.
      destruct (Hw d Hd) as [? [?|?%elem_of_nil]]; [|done]. rewrite elem_of_cons. auto.
  - eapply Forall_impl; [apply (IH (c :: cur))|].
    + intros d [->|Hd]%elem_of_cons; auto.
    + simpl. intros w Hw d Hd. destruct (Hw d Hd) as [? H]. rewrite !elem_of_cons in *. tauto.
Qed.
Lemma utf8_ascii cs : (∀ c, c ∈ cs → byte_in 0 127 c = true) → utf8 cs = true.
Proof.
  induction cs as [|c cs IH]; intros Hc; [done|]. cbn [utf8]. rewrite Hc by by left. apply IH. intros d Hd. apply Hc. by right.
Qed.
(** A parsed number is in its range. *)
Lemma digits_nonneg radix acc cs v : 0 ≤ radix → 0 ≤ acc → digits radix acc cs = Some v → 0 ≤ v.
Proof.
  intros Hr. revert acc. induction cs as [|c cs IH]; intros acc Ha; simpl; [intros [= <-]; done|].
  destruct (digit_value radix c) as [d|] eqn:Hd; [|done]. simpl. apply IH.
  unfold digit_value in Hd. case_match eqn:Hb; [|done]. injection Hd as <-. rewrite !andb_true_iff in Hb. nia.
Qed.
Lemma parse_unsigned_range radix max s v : 0 ≤ radix → parse_unsigned radix max s = Some v → 0 ≤ v ≤ max.
Proof.
  intros Hr. unfold parse_unsigned. set (cs := match chars s with "+"%char :: cs => cs | cs => cs end).
  destruct cs as [|c cs']; [done|]. destruct (digits radix 0 (c :: cs')) as [w|] eqn:Hd; [|done]. simpl.
  case_match eqn:Hle; [|done]. intros [= <-]. apply Z.leb_le in Hle. apply digits_nonneg in Hd; lia.
Qed.
Lemma chars_app a b : chars (a ++ b)%string = chars a ++ chars b.
Proof. induction a as [|c a IH]; [done|]. simpl. by rewrite IH. Qed.
Lemma of_chars_chars s : of_chars (chars s) = s.
Proof. apply String.string_of_list_ascii_of_string. Qed.
Lemma strip_prefix_app a b : str_strip_prefix a (a ++ b) = Some b.
Proof.
  unfold str_strip_prefix. rewrite chars_app, take_app_length, decide_True by done. by rewrite drop_app_length, of_chars_chars.
Qed.
Lemma starts_with_app a p b : str_starts_with (a ++ p) (a ++ b) = str_starts_with p b.
Proof.
  unfold str_starts_with, str_strip_prefix. apply bool_decide_ext.
  rewrite !chars_app, length_app, take_app_add. split; intros H; case_decide as Heq; try (by destruct H).
  - apply app_inv_head in Heq. rewrite decide_True by done. by eexists.
  - rewrite decide_True by by rewrite Heq. by eexists.
Qed.

(** ** The ancestors of a path are different paths *)
Definition text_size : list string → nat := sum_list_with (λ w, S (length (chars w))).
Lemma split_size p cs cur : sum_list_with (λ w, S (length w)) (split_on p cur cs) = S (length cs + length cur).
Proof.
  revert cur. induction cs as [|c cs IH]; intros cur; cbn [split_on sum_list_with]; [rewrite length_rev; simpl; lia|].
  destruct (p c); cbn [sum_list_with]; rewrite IH; simpl; [rewrite length_rev|]; lia.
Qed.
Lemma split_char_size c s : text_size (split_char c s) = S (length (chars s)).
Proof.
  unfold text_size, split_char. trans (sum_list_with (λ w, S (length w)) (split_on (Ascii.eqb c) [] (chars s))); [|rewrite split_size; simpl; lia].
  induction (split_on _ _ _) as [|w l IH]; [done|]. cbn [fmap list_fmap sum_list_with]. rewrite chars_of_chars. f_equal. f_equal. apply IH.
Qed.
Lemma filter_size (P : string → Prop) `{!∀ x, Decision (P x)} l : (text_size (filter P l) ≤ text_size l)%nat.
Proof. induction l as [|w l IH]; [done|]. rewrite filter_cons. case_decide; simpl in *; lia. Qed.
Definition join_body (comps : list string) : string :=
  foldl (λ acc c, if decide (acc = "") then c else (acc ++ "/" ++ c))%string ""%string comps.
Lemma join_body_snoc l c : c ≠ ""%string →
  (length (chars (join_body l)) < length (chars (join_body (l ++ [c]))) ≤ length (chars (join_body l)) + S (length (chars c)))%nat.
Proof.
  intros Hc. unfold join_body. rewrite foldl_app. cbn [foldl]. set (b := foldl _ _ l). case_decide as Hb.
  - rewrite Hb. destruct c; [done|]. simpl. lia.
  - rewrite !chars_app, !length_app. simpl. lia.
Qed.
Lemma join_body_take l i j : Forall (λ c, c ≠ ""%string) l → (i < j ≤ length l)%nat →
  (length (chars (join_body (take i l))) < length (chars (join_body (take j l))))%nat.
Proof.
  intros Hl. induction j as [|j IH]; intros Hij; [lia|].
  destruct (lookup_lt_is_Some_2 l j) as [c Hc]; [lia|]. rewrite (take_S_r _ _ _ Hc).
  destruct (join_body_snoc (take j l) c) as [Hlt _]; [by eapply Forall_lookup_1 in Hl|].
  destruct (decide (i = j)) as [->|Hne]; [done|]. specialize (IH ltac:(lia)). lia.
Qed.
Lemma join_body_size l : Forall (λ c, c ≠ ""%string) l → l ≠ [] → (length (chars (join_body l)) < text_size l)%nat.
Proof.
  induction l as [|c l IH] using rev_ind; intros Hl Hne; [done|]. apply Forall_app in Hl as [Hl Hc]. apply Forall_cons in Hc as [Hc _].
  destruct (decide (l = [])) as [->|Hl0].
  { change (join_body ([] ++ [c])) with c. unfold text_size. cbn [app sum_list_with]. lia. }
  destruct (join_body_snoc l c Hc) as [_ Hle]. specialize (IH Hl Hl0). unfold text_size in *. rewrite sum_list_with_app. simpl. lia.
Qed.
Lemma prefixes_down_lookup {A} (l : list A) n i x : prefixes_down l n !! i = Some x → x = take (n - 1 - i) l ∧ (i < n)%nat.
Proof.
  revert i. induction n as [|n IH]; intros i; [done|]. cbn [prefixes_down]. destruct i as [|i].
  - intros [= <-]. split; [f_equal; lia|lia].
  - intros [-> ?]%IH. split; [f_equal; lia|lia].
Qed.
Lemma path_ancestors_NoDup path : NoDup (path_ancestors path).
Proof.
  unfold path_ancestors. set (root := match chars path with "/"%char :: _ => true | _ => false end).
  set (comps := filter _ _).
  assert (Forall (λ c, c ≠ ""%string) comps) as Hne.
  { apply Forall_forall. by intros c [[? _] _]%list_elem_of_filter. }
  assert (∀ l, length (chars (join_path root l)) = (if root then 1 else 0) + length (chars (join_body l)))%nat as Hjoin.
  { intros l. unfold join_path. fold (join_body l). destruct root; [by rewrite chars_app|done]. }
  assert ((if root then 1 else 0) + text_size comps ≤ S (length (chars path)))%nat as Hsize.
  { rewrite <- (split_char_size "/"%char path). unfold comps, root, split_char.
    destruct (chars path) as [|c cs] eqn:Hp; [apply filter_size|].
    destruct (decide (c = "/"%char)) as [->|Hc]; cycle 1.
    { assert (match c :: cs with "/"%char :: _ => true | _ => false end = false) as -> by (destruct c as [[] [] [] [] [] [] [] []]; done).
      apply filter_size. }
    cbn [split_on]. change (Ascii.eqb "/" "/") with true. cbv iota. cbn [rev fmap list_fmap]. rewrite filter_cons, decide_False by (by intros []).
    pose proof (filter_size (λ c : string, c ≠ "" ∧ c ≠ ".") (of_chars <$> split_on (Ascii.eqb "/"%char) [] cs))%string as Hf.
    unfold text_size in *. cbn [sum_list_with String.list_ascii_of_string String.string_of_list_ascii length]. lia. }
  constructor.
  - intros (l & Hl & Hin)%list_elem_of_fmap. apply list_elem_of_lookup in Hin as [i Hi].
    apply prefixes_down_lookup in Hi as [-> Hi]. apply (f_equal (λ s, length (chars s))) in Hl. rewrite Hjoin in Hl.
    pose proof (join_body_take comps (length comps - 1 - i) (length comps) Hne ltac:(lia)) as Hlt.
    rewrite (take_ge comps (length comps)) in Hlt by done. pose proof (join_body_size comps Hne ltac:(by intros Hc0; rewrite Hc0 in Hi; simpl in Hi; lia)). lia.
  - apply NoDup_alt. intros i j x Hi Hj. rewrite list_lookup_fmap in Hi, Hj.
    destruct (prefixes_down comps (length comps) !! i) as [y|] eqn:Ey; simplify_eq/=.
    destruct (prefixes_down comps (length comps) !! j) as [z|] eqn:Ez; simplify_eq/=.
    apply prefixes_down_lookup in Ey as [-> Hi1], Ez as [-> Hj1]. apply (f_equal (λ s, length (chars s))) in Hj. rewrite !Hjoin in Hj.
    destruct (Nat.lt_trichotomy i j) as [Hlt|[?|Hlt]]; [exfalso|done|exfalso].
    + pose proof (join_body_take comps (length comps - 1 - j) (length comps - 1 - i) Hne ltac:(lia)). lia.
    + pose proof (join_body_take comps (length comps - 1 - i) (length comps - 1 - j) Hne ltac:(lia)). lia.
Qed.
