(* ===== verification/StdNet.v ===== *)
(** * Parsing socket addresses

    [SocketAddr::from_str] of Rust's standard library, by its own recursive
    descent: a reader takes characters off the front of the text, or fails and
    takes none.  And [str::ends_with], [Path::file_stem] and [Path::parent], which
    the same callers use. *)
From Stdlib Require Import Ascii.
From S2P Require Import Prelude Condition StdString.
Local Open Scope Z_scope.

Definition u16_max : Z := 65535.

(** A reader: the value and the text that is left. *)
Definition Reader (A : Type) : Type := list Ascii.ascii → option (A * list Ascii.ascii).
#[export] Instance Reader_ret : MRet Reader := λ A a cs, Some (a, cs).
#[export] Instance Reader_bind : MBind Reader := λ A B k m cs, '(a, cs') ← m cs; k a cs'.

(** [char::to_digit] *)
Definition to_digit (radix : Z) (c : Ascii.ascii) : option Z :=
  let n := Z.of_nat (Ascii.nat_of_ascii c) in
  let v := if (48 <=? n) && (n <=? 57) then n - 48
           else if (97 <=? n) && (n <=? 122) then n - 87
           else if (65 <=? n) && (n <=? 90) then n - 55 else radix in
  if v <? radix then Some v else None.

(** The digits of a number; [None] when the value does not fit or there are too
    many. *)
Fixpoint read_digits (radix max : Z) (max_digits : option nat) (acc : Z) (count : nat)
    (cs : list Ascii.ascii) : option (Z * nat * list Ascii.ascii) :=
  match cs with
  | [] => Some (acc, count, cs)
  | c :: cs' =>
    match to_digit radix c with
    | Some d =>
      let acc' := acc * radix + d in
      let count' := S count in
      if (max <? acc') || (match max_digits with Some m => (m <? count')%nat | None => false end)
      then None else read_digits radix max max_digits acc' count' cs'
    | None => Some (acc, count, cs)
    end
  end.
Definition read_number (radix max : Z) (max_digits : option nat) (allow_zero_prefix : bool)
    : Reader Z := λ cs,
  let has_leading_zero := bool_decide (head cs = Some "0"%char) in
  '(v, count, cs') ← read_digits radix max max_digits 0 0 cs;
  if (count =? 0)%nat then None
  else if negb allow_zero_prefix && has_leading_zero && (1 <? count)%nat then None
  else Some (v, cs').

Definition read_given_char (c : Ascii.ascii) : Reader unit := λ cs,
  match cs with
  | c' :: cs' => if Ascii.eqb c c' then Some (tt, cs') else None
  | [] => None
  end.
Definition read_separator {A} (sep : Ascii.ascii) (index : nat) (inner : Reader A) : Reader A :=
  match index with O => inner | S _ => read_given_char sep;; inner end.

(** The four octets, the first the most significant. *)
Definition read_octet (i : nat) : Reader Z :=
  read_separator "."%char i (read_number 10 255 (Some 3%nat) false).
Definition read_ipv4_addr : Reader (list Z) :=
  a ← read_octet 0; b ← read_octet 1; c ← read_octet 2; d ← read_octet 3; mret [a; b; c; d].

(** [read_groups] from group [i] on, up to [limit] groups: the groups, whether
    they end with an IPv4 address, and what is left. *)
Fixpoint read_groups (n limit i : nat) (acc : list Z) (cs : list Ascii.ascii)
    : list Z * bool * list Ascii.ascii :=
  match n with
  | O => (acc, false, cs)
  | S n' =>
    let v4 := if (i <? limit - 1)%nat then read_separator ":"%char i read_ipv4_addr cs else None in
    match v4 with
    | Some ([a; b; c; d], cs') => (acc ++ [a * 256 + b; c * 256 + d], true, cs')
    | _ =>
      match read_separator ":"%char i (read_number 16 u16_max (Some 4%nat) true) cs with
      | Some (g, cs') => read_groups n' limit (S i) (acc ++ [g]) cs'
      | None => (acc, false, cs)
      end
    end
  end.
Definition read_ipv6_addr : Reader (list Z) := λ cs,
  let '(head, head_ipv4, cs) := read_groups 8 8 0 [] cs in
  if (length head =? 8)%nat then Some (head, cs)
  else if (head_ipv4 : bool) then None
  else
    '(_, cs) ← read_given_char ":"%char cs;
    '(_, cs) ← read_given_char ":"%char cs;
    let limit := (8 - (length head + 1))%nat in
    let '(tail, _, cs) := read_groups limit limit 0 [] cs in
    Some (head ++ replicate (8 - length head - length tail) 0 ++ tail, cs).

Definition read_port : Reader Z := read_given_char ":"%char;; read_number 10 u16_max None true.

(** [SocketAddrV4]; [SocketAddrV6], whose flow information is 0. *)
Inductive SocketAddr :=
| SocketAddrV4 (ip : list Z) (port : Z)
| SocketAddrV6 (ip : list Z) (port scope_id : Z).
#[export] Instance SocketAddr_eq_dec : EqDecision SocketAddr.
Proof. solve_decision. Defined.

Definition read_socket_addr_v4 : Reader SocketAddr :=
  ip ← read_ipv4_addr; port ← read_port; mret (SocketAddrV4 ip port).
Definition read_scope_id : Reader Z := read_given_char "%"%char;; read_number 10 u32_max None true.
Definition read_socket_addr_v6 : Reader SocketAddr :=
  read_given_char "["%char;;
  ip ← read_ipv6_addr;
  scope_id ← (λ cs, match read_scope_id cs with Some r => Some r | None => Some (0, cs) end);
  read_given_char "]"%char;;
  port ← read_port;
  mret (SocketAddrV6 ip port scope_id).
Definition parse_socket_addr (s : string) : option SocketAddr :=
  let r := match read_socket_addr_v4 (chars s) with
           | Some r => Some r
           | None => read_socket_addr_v6 (chars s)
           end in
  '(a, cs) ← r; if bool_decide (cs = []) then Some a else None.

Example parse_v4 : parse_socket_addr "127.0.0.1:8080" = Some (SocketAddrV4 [127; 0; 0; 1] 8080).
Proof. by vm_compute. Qed.
Example parse_v6 :
  parse_socket_addr "[::1]:80" = Some (SocketAddrV6 [0; 0; 0; 0; 0; 0; 0; 1] 80 0)
  ∧ parse_socket_addr "[fe80::1.2.3.4%7]:1" = Some (SocketAddrV6 [65152; 0; 0; 0; 0; 0; 258; 772] 1 7)
  ∧ parse_socket_addr "[::]:65535" = Some (SocketAddrV6 [0; 0; 0; 0; 0; 0; 0; 0] 65535 0).
Proof. by vm_compute. Qed.
Example parse_refused :
  parse_socket_addr "127.0.0.1" = None ∧ parse_socket_addr "01.0.0.1:1" = None
  ∧ parse_socket_addr "256.0.0.1:1" = None ∧ parse_socket_addr "1.0.0.1:65536" = None
  ∧ parse_socket_addr "::1:80" = None ∧ parse_socket_addr "[1:2:3:4:5:6:7:8:9]:1" = None.
Proof. by vm_compute. Qed.

(** [str::ends_with] and [str::starts_with] of one character. *)
Definition ends_with (suffix s : string) : bool :=
  bool_decide (drop (length (chars s) - length (chars suffix)) (chars s) = chars suffix).
Definition starts_with_char (c : Ascii.ascii) (s : string) : bool :=
  bool_decide (head (chars s) = Some c).

(** [Path::file_name]: the last component, unless the path ends in [..] or has
    none. *)
Definition path_components (path : string) : list string :=
  filter (λ c, c ≠ "" ∧ c ≠ ".")%string (split_char "/"%char path).
Definition file_name (path : string) : option string :=
  c ← last (path_components path); if decide (c = ".."%string) then None else Some c.
(** The text before the last character [c], [None] if there is none. *)
Fixpoint before_last (c : Ascii.ascii) (cs : list Ascii.ascii) : option (list Ascii.ascii) :=
  match cs with
  | [] => None
  | c' :: cs' =>
    match before_last c cs' with
    | Some l => Some (c' :: l)
    | None => if Ascii.eqb c c' then Some [] else None
    end
  end.
(** [Path::file_stem] *)
Definition file_stem (path : string) : option string :=
  f ← file_name path;
  Some (match before_last "."%char (chars f) with
        | Some [] | None => f
        | Some l => of_chars l
        end).
(** [Path::parent]: [None] for the root and for the empty path. *)
Definition path_parent (path : string) : option string := path_ancestors path !! 1%nat.

Example file_stems : file_stem "a.socket" = Some "a" ∧ file_stem "a.b.socket" = Some "a.b"
  ∧ file_stem ".hidden" = Some ".hidden" ∧ file_stem "/run/x.y" = Some "x" ∧ file_stem ".." = None.
Proof. by vm_compute. Qed.
