(* ===== verification/ShowTable.v ===== *)
(** * Tables of text

    [libs/basic/src/show_table.rs]: the tables that sctl prints.  A string is the
    list of its bytes, and a slice panics inside a character. *)
From Stdlib Require Import Ascii.
From S2P Require Import Prelude StdString.
Local Open Scope nat_scope.

Abbreviation text := (list ascii).
Inductive CellAlign := Left | Right.
#[export] Instance CellAlign_eq_dec : EqDecision CellAlign.
Proof. solve_decision. Defined.

Record ShowTable := {
  row_length : nat;
  column_length : nat;
  cell_width : list nat;
  cell_align : list CellAlign;
  original_contents : list (list text);
  show_contents : list (list text);
}.
Definition ShowTable_new : ShowTable := {|
  row_length := 0; column_length := 0; cell_width := []; cell_align := [];
  original_contents := []; show_contents := [] |}.
Definition set_show (v : list (list text)) (t : ShowTable) : ShowTable := {|
  row_length := row_length t; column_length := column_length t; cell_width := cell_width t;
  cell_align := cell_align t; original_contents := original_contents t; show_contents := v |}.
Definition set_align (v : list CellAlign) (t : ShowTable) : ShowTable := {|
  row_length := row_length t; column_length := column_length t; cell_width := cell_width t;
  cell_align := v; original_contents := original_contents t; show_contents := show_contents t |}.

Definition grow (w : nat) (cell : text) : nat := w `max` (length cell + 2).
(** The first line gives the number of columns; a longer line is cut, a shorter
    one is filled up. *)
Definition add_line (line_content : list text) : M ShowTable unit := mmodify (λ t,
  let content_length := length line_content in
  let first := bool_decide (row_length t = 0) in
  let columns := if first then content_length else column_length t in
  let width := if first then repeat 0 columns else cell_width t in
  let align := if first then repeat Left columns else cell_align t in
  let new_line := take columns line_content ++ repeat [] (columns - content_length) in
  {| row_length := row_length t + 1; column_length := columns;
     cell_width := zip_with grow width new_line;
     cell_align := align; original_contents := original_contents t ++ [new_line];
     show_contents := show_contents t |}).

(** [cell[0..length]] *)
Definition is_continuation (c : ascii) : bool :=
  let n := nat_of_ascii c in (128 <=? n) && (n <? 192).
Definition slice_to (n : nat) (cell : text) : option text :=
  if (n <=? length cell) && negb (default false (is_continuation <$> cell !! n))
  then Some (take n cell) else None.
Definition spaces (n : nat) : text := repeat " "%char n.
Definition cell_align_left (cell : text) (len : nat) : option text :=
  let cell := " "%char :: cell in
  if length cell <? len then Some (cell ++ spaces (len - length cell)) else slice_to len cell.
Definition cell_align_right (cell : text) (len : nat) : option text :=
  let cell := cell ++ [" "%char] in
  if length cell <? len then Some (spaces (len - length cell) ++ cell) else slice_to len cell.

(** The cells, [column_length] of each line, aligned by [f]. *)
Definition align_cells (f : nat → text → nat → option text) (t : ShowTable) : option (list (list text)) :=
  mapM (λ line, mapM (λ i,
    cell ← line !! i; w ← cell_width t !! i; f i cell w) (seq 0 (column_length t)))
    (original_contents t).
Definition align_by (f : ShowTable → nat → text → nat → option text) : M ShowTable unit :=
  t ← mget; rows ← munwrap (align_cells (f t) t); mmodify (set_show rows).
Definition align_left : M ShowTable unit := align_by (λ _ _, cell_align_left).
Definition align_right : M ShowTable unit := align_by (λ _ _, cell_align_right).
Definition align_define : M ShowTable unit := align_by (λ t i cell w,
  a ← cell_align t !! i;
  match a with Left => cell_align_left cell w | Right => cell_align_right cell w end).

Definition set_cell_align (a : CellAlign) : M ShowTable unit :=
  mmodify (λ t, set_align (repeat a (column_length t)) t).
Definition set_cell_align_left : M ShowTable unit := set_cell_align Left.
Definition set_cell_align_right : M ShowTable unit := set_cell_align Right.
(** [cell_align[i] = a] *)
Definition write_align (i : nat) (a : CellAlign) : M ShowTable unit :=
  t ← mget;
  massert (bool_decide (i < length (cell_align t)));;
  mmodify (set_align (<[i:=a]> (cell_align t))).
Definition set_one_cell_align (a : CellAlign) (column : nat) : M ShowTable unit :=
  t ← mget;
  if column_length t <=? column
  then massert (0 <? column_length t);; write_align (column_length t - 1) a
  else write_align column a.
Definition set_one_cell_align_left : nat → M ShowTable unit := set_one_cell_align Left.
Definition set_one_cell_align_right : nat → M ShowTable unit := set_one_cell_align Right.
Definition set_all_cell_align_define (l : list CellAlign) : M ShowTable unit :=
  mmodify (set_align l).

(** [Display]: the lines, without the white space at the end. *)
Definition trim_end (cs : text) : text := rev (trim_start (rev cs)).
Definition ShowTable_fmt (t : ShowTable) : text :=
  trim_end (concat ((λ line, concat line ++ ["010"%char]) <$> show_contents t)).

(** ** A table is well formed: its lines have the columns of the first one, and
    each column is two bytes wider than its longest cell. *)
Definition fits (cell : text) (w : nat) : Prop := length cell + 2 ≤ w.
Record table_wf (t : ShowTable) : Prop := {
  tw_width : length (cell_width t) = column_length t;
  tw_align : length (cell_align t) = column_length t;
  tw_rows : row_length t = length (original_contents t);
  tw_cells : ∀ line, line ∈ original_contents t → Forall2 fits line (cell_width t);
}.

Lemma fits_max ws line : length ws = length line →
  Forall2 fits line (zip_with grow ws line).
Proof. revert ws. induction line as [|c line IH]; intros [|w ws] [=]; constructor; [unfold fits, grow; lia|auto]. Qed.
Lemma fits_grow line ws new : length ws = length new → Forall2 fits line ws →
  Forall2 fits line (zip_with grow ws new).
Proof.
  intros Hl Hf. revert new Hl. induction Hf as [|c w line ws Hc Hf IH]; intros [|n new] [=]; constructor;
    [unfold fits, grow in *; lia|auto].
Qed.
Lemma ShowTable_new_wf : table_wf ShowTable_new.
Proof. split; try done. intros line []%elem_of_nil. Qed.
Lemma wp_add_line_wf line t : table_wf t → wp (add_line line) t (λ t' _, table_wf t'
  ∧ column_length t' = if bool_decide (row_length t = 0) then length line else column_length t).
Proof.
  intros [Hw Ha Hr Hc]. unfold add_line. apply wp_mmodify. split; [|done].
  set (columns := if bool_decide _ then _ else _). set (width := if bool_decide _ then repeat 0 _ else _).
  set (new_line := take columns line ++ _).
  assert (length new_line = columns) as Hn.
  { unfold new_line. rewrite length_app, length_take, repeat_length. lia. }
  assert (length width = columns) as Hwl.
  { unfold width, columns. case_bool_decide; [apply repeat_length|done]. }
  split; simpl.
  - rewrite length_zip_with. lia.
  - unfold columns. case_bool_decide; [apply repeat_length|done].
  - rewrite length_app. simpl. lia.
  - intros l [Hl|Hl%list_elem_of_singleton]%elem_of_app; [|subst l; apply fits_max; lia].
    apply fits_grow; [lia|]. unfold width. case_bool_decide as Hz; [|by apply Hc].
    rewrite Hr in Hz. destruct (original_contents t); [by apply elem_of_nil in Hl|done].
Qed.

(** One cell, aligned: its text is whole, and it has the width of its column. *)
Definition shown (cell : text) (w : nat) (out : text) : Prop :=
  length out = w ∧ ∃ a b, out = spaces a ++ cell ++ spaces b ∧ 0 < a + b.
Lemma length_spaces n : length (spaces n) = n.
Proof. apply repeat_length. Qed.
Lemma cell_align_left_spec cell w : fits cell w → ∃ out, cell_align_left cell w = Some out ∧ shown cell w out.
Proof.
  intros Hf. unfold cell_align_left, fits in *. simpl length. rewrite (proj2 (Nat.ltb_lt _ _)) by lia.
  eexists. split; [done|]. split; [simpl; rewrite length_app, length_spaces; lia|].
  exists 1, (w - S (length cell)). split; [done|lia].
Qed.
Lemma cell_align_right_spec cell w : fits cell w → ∃ out, cell_align_right cell w = Some out ∧ shown cell w out.
Proof.
  intros Hf. unfold cell_align_right, fits in *. rewrite length_app. simpl length.
  rewrite (proj2 (Nat.ltb_lt _ _)) by lia. eexists. split; [done|].
  split; [rewrite !length_app, length_spaces; simpl; lia|].
  exists (w - (length cell + 1)), 1. split; [done|lia].
Qed.
Lemma drop_cons {A} k (l : list A) x l' : drop k l = x :: l' → l !! k = Some x ∧ drop (S k) l = l'.
Proof.
  intros Hd. split; [by rewrite <- (Nat.add_0_r k), <- lookup_drop, Hd|].
  by rewrite <- Nat.add_1_r, <- drop_drop, Hd.
Qed.
(** A row from its column [k] on. *)
Lemma align_row (g : nat → text → nat → option text) (W : list nat) (full line : list text) k ws :
  Forall2 fits line ws → drop k W = ws → drop k full = line →
  (∀ i cell w, i < length W → fits cell w → ∃ out, g i cell w = Some out ∧ shown cell w out) →
  ∃ out, mapM (λ i, cell ← full !! i; w ← W !! i; g i cell w) (seq k (length ws)) = Some out
    ∧ Forall3 shown line ws out.
Proof.
  intros Hl HW Hfull Hg. revert k HW Hfull. induction Hl as [|c w line ws Hcw Hl IH]; intros k HW Hfull; simpl.
  { eexists. split; [done|constructor]. }
  destruct (drop_cons _ _ _ _ HW) as [Hw0 HW']. destruct (drop_cons _ _ _ _ Hfull) as [Hf0 Hfull'].
  destruct (Hg k c w (lookup_lt_Some _ _ _ Hw0) Hcw) as (out & Ho & Hs).
  destruct (IH (S k) HW' Hfull') as (outs & Hos & Hss).
  exists (out :: outs). rewrite Hf0. simpl. rewrite Hw0. simpl. rewrite Ho. simpl. rewrite Hos.
  split; [done|by constructor].
Qed.
Lemma align_by_spec f t (Q : ShowTable → unit → Prop) : table_wf t →
  (∀ i cell w, i < column_length t → fits cell w → ∃ out, f t i cell w = Some out ∧ shown cell w out) →
  (∀ rows, Forall2 (λ line shown_line, Forall3 shown line (cell_width t) shown_line)
             (original_contents t) rows → Q (set_show rows t) tt) →
  wp (align_by f) t Q.
Proof.
  intros [Hw Ha Hr Hc] Hf HQ. unfold align_by. apply wp_bind, wp_mget, wp_bind, wp_munwrap.
  assert (∃ rows, align_cells (f t) t = Some rows ∧
    Forall2 (λ line out, Forall3 shown line (cell_width t) out) (original_contents t) rows) as (rows & Hrows & Hall).
  { unfold align_cells. rewrite <- Hw in Hf |- *. clear HQ Hr.
    induction (original_contents t) as [|line ls IH]; [by exists []|].
    destruct (align_row (f t) (cell_width t) line line 0 (cell_width t)) as (out & Ho & Hs);
      [apply Hc; by left|done..|].
    destruct IH as (rows & Hr & Hall); [intros l Hl; apply Hc; by right|].
    exists (out :: rows). simpl. rewrite Ho. simpl. rewrite Hr. split; [done|by constructor]. }
  exists rows. split; [done|]. apply wp_mmodify. by apply HQ.
Qed.

(** The three ways of aligning. *)
Inductive Alignment := ToLeft | ToRight | Defined.
Definition align (a : Alignment) : M ShowTable unit :=
  match a with ToLeft => align_left | ToRight => align_right | Defined => align_define end.

(** Aligning a well-formed table does not panic, and every line that is shown
    has in each column a cell of the width of the column, which holds the whole
    text of the line, with white space before or after it: the columns are
    straight, and no text is cut. *)
Theorem align_shows_all a t : table_wf t → wp (align a) t (λ t' _, table_wf t'
  ∧ original_contents t' = original_contents t
  ∧ Forall2 (λ line shown_line, Forall3 shown line (cell_width t) shown_line)
      (original_contents t) (show_contents t')).
Proof.
  intros Hwf. destruct a; (apply align_by_spec; [done| |intros rows Hall; split; [|done];
    destruct Hwf as [H1 H2 H3 H4]; by split]); intros i cell w Hi Hf.
  - by apply cell_align_left_spec.
  - by apply cell_align_right_spec.
  - destruct (lookup_lt_is_Some_2 (cell_align t) i) as [al ->]; [by rewrite (tw_align _ Hwf)|]. simpl.
    destruct al; [by apply cell_align_left_spec|by apply cell_align_right_spec].
Qed.

(** The other calls keep a table well formed, [set_all_cell_align_define] when it
    is given an alignment for each column. *)
Lemma set_align_wf t l : table_wf t → length l = column_length t → table_wf (set_align l t).
Proof. intros [H1 H2 H3 H4] Hl. by split. Qed.
Lemma set_one_cell_align_wf a n t : table_wf t → 0 < column_length t →
  wp (set_one_cell_align a n) t (λ t' _, table_wf t').
Proof.
  intros Hwf Hc. unfold set_one_cell_align. apply wp_bind, wp_mget.
  assert (∀ i, i < column_length t → wp (write_align i a) t (λ t' _, table_wf t')) as Hw.
  { intros i Hi. apply wp_bind, wp_mget, wp_bind, wp_massert. split; [apply bool_decide_eq_true; by rewrite (tw_align _ Hwf)|].
    apply wp_mmodify, set_align_wf; [done|]. rewrite length_insert. apply Hwf. }
  destruct (Nat.leb_spec (column_length t) n); [|by apply Hw].
  apply wp_bind, wp_massert. split; [by apply Nat.ltb_lt|]. apply Hw. lia.
Qed.

Definition sample_table : ShowTable :=
  run_state (add_line (chars <$> ["AAA"; "BBBB"; "CCCCCCCCCC"]%string);;
             add_line (chars <$> ["12345"; "123"; "123"]%string)) ShowTable_new.
(** The tables of the repository's test. *)
Example show_table_test : of_chars (ShowTable_fmt (run_state align_left sample_table))
    = of_chars (chars " AAA    BBBB  CCCCCCCCCC " ++ ["010"%char] ++ chars " 12345  123   123")
  ∧ of_chars (ShowTable_fmt (run_state (set_one_cell_align_right 0;; align_define) sample_table))
    = of_chars (chars "   AAA  BBBB  CCCCCCCCCC " ++ ["010"%char] ++ chars " 12345  123   123").
Proof. split; vm_compute; reflexivity. Qed.
Lemma sample_table_wf : table_wf sample_table.
Proof.
  unfold sample_table. apply (wp_run_state _ _ table_wf), wp_bind.
  eapply wp_mono; [apply wp_add_line_wf, ShowTable_new_wf|]. intros t [] [Hwf _].
  eapply wp_mono; [by apply wp_add_line_wf|]. by intros t' [] [? _].
Qed.
Lemma align_shows_all_witness : table_wf sample_table
  ∧ wp (align ToLeft) sample_table (λ t' _, original_contents t' = original_contents sample_table).
Proof.
  split; [exact sample_table_wf|]. eapply wp_mono; [exact (align_shows_all ToLeft sample_table sample_table_wf)|].
  intros t' [] (_ & H & _). exact H.
Defined.
