(* ===== verification/Reli.v ===== *)
(** * Reliability: what survives a crash of the manager

    [core/lib/rel]: the enable flag ([enable.rs]), the last words ([last.rs]), the
    history tables ([history.rs]), the descriptors in transit ([pending.rs]), the
    stations that recover ([station.rs]) and [Reliability] over them ([api.rs]),
    with the directory they live in ([base.rs]) and the close-on-exec flag
    ([core/lib/utils/fd.rs]).

    The environments of the [heed] crate are the [Disk]; a transaction that is
    committed replaces it at once.  Every durable step - a commit, a change of a
    descriptor of the process - is noted in [rl_trace], so that a crash leaves the
    manager with one of the states noted there. *)
From S2P Require Import Prelude UnitTypes ReDb StdString.
Local Open Scope Z_scope.

(** ** The outside *)

(** The tables of [heed], for every type of keys and values. *)
Class Heed : Type := {
  heed_db : ∀ (K V : Type) `{Countable K}, Type;
  heed_ops :: ∀ (K V : Type) `{Countable K}, HeedDb K V (heed_db K V);
  heed_new : ∀ (K V : Type) `{Countable K}, heed_db K V;
}.
Definition db_get {K V DB} `{HeedDb K V DB} (d : DB) (k : K) : option V := db_view d !! k.

(** The kernel: the flags of a descriptor, closing one, and the files of the
    debug switches. *)
Class FdSys (E : Type) : Type := {
  os_getfd : Z → E → Result Z Z;
  os_setfd : Z → Z → E → E * Result unit Z;
  os_close : Z → E → E;
  fs_exists : string → E → bool;
  fs_create : string → E → E;
  fs_create_dir_all : string → E → E * bool;
}.

(** ** The data *)
Abbreviation ReliFrame := (Z * option Z * option Z)%type.
Inductive ReliPState := Retaining | Retained | Removing | Removed.
#[export] Instance ReliPState_eq_dec : EqDecision ReliPState.
Proof. solve_decision. Defined.
Inductive ReStationKind := Level1 | Level2.
#[export] Instance ReStationKind_eq_dec : EqDecision ReStationKind.
Proof. solve_decision. Defined.
Inductive ReliLastFrame :=
| FrameQueue | FrameJobManager | FrameSigChld | FrameCgEvent | FrameNotify
| FrameSubManager | FrameManagerOp | FrameCmdOp | FrameOtherEvent.
Definition ReliLastFrame_to_u32 (f : ReliLastFrame) : Z :=
  match f with
  | FrameQueue => 0 | FrameJobManager => 1 | FrameSigChld => 2 | FrameCgEvent => 3
  | FrameNotify => 4 | FrameSubManager => 5 | FrameManagerOp => 6 | FrameCmdOp => 7
  | FrameOtherEvent => 8
  end.
Definition ReliLastFrame_try_from (value : Z) : option ReliLastFrame :=
  match value with
  | 0 => Some FrameQueue | 1 => Some FrameJobManager | 2 => Some FrameSigChld
  | 3 => Some FrameCgEvent | 4 => Some FrameNotify | 5 => Some FrameSubManager
  | 6 => Some FrameManagerOp | 7 => Some FrameCmdOp | 8 => Some FrameOtherEvent
  | _ => None
  end.
Definition RELI_LAST_KEY : Z := 0.
Definition RELI_ENABLE_KEY : Z := 0.

(** The trait [ReDbTable], for the tables [T] over the databases [D]; [None] is a
    [heed] error. *)
Class ReDbTable (T D : Type) : Type := {
  tb_new : D;
  tb_clear : T → D → option (T * D);
  tb_export : T → D → option (T * D);
  tb_import : T → D → T;
  tb_ignore_set : bool → T → T;
}.

(** [impl ReDbTable for ReDb<K, V>]. *)
#[export] Instance redb_table `{!HashIter} `{!Heed} {K V} `{Countable K} :
    ReDbTable (ReDb K V) (heed_db K V) := {|
  tb_new := heed_new K V;
  tb_clear := redb_do_clear;
  tb_export := cache_2_db;
  tb_import := db_2_cache;
  tb_ignore_set := redb_set_ignore;
|}.

Section reli.
Context `{HI : !HashIter} `{HH : !Heed} {T D St E : Type}.
Context `{HT : !ReDbTable T D} `{HS : !FdSys E}.

(** The four environments. *)
Record Disk := {
  dk_enable : heed_db Z bool;
  dk_unit : heed_db Z string;
  dk_frame : heed_db Z (list ReliFrame);
  dk_fd : heed_db Z ReliPState;
  dk_tables : gmap string D;
}.
Definition set_dk_enable v (d : Disk) : Disk := {| dk_enable := v; dk_unit := dk_unit d;
  dk_frame := dk_frame d; dk_fd := dk_fd d; dk_tables := dk_tables d |}.
Definition set_dk_unit v (d : Disk) : Disk := {| dk_enable := dk_enable d; dk_unit := v;
  dk_frame := dk_frame d; dk_fd := dk_fd d; dk_tables := dk_tables d |}.
Definition set_dk_frame v (d : Disk) : Disk := {| dk_enable := dk_enable d; dk_unit := dk_unit d;
  dk_frame := v; dk_fd := dk_fd d; dk_tables := dk_tables d |}.
Definition set_dk_fd v (d : Disk) : Disk := {| dk_enable := dk_enable d; dk_unit := dk_unit d;
  dk_frame := dk_frame d; dk_fd := v; dk_tables := dk_tables d |}.
Definition set_dk_tables v (d : Disk) : Disk := {| dk_enable := dk_enable d; dk_unit := dk_unit d;
  dk_frame := dk_frame d; dk_fd := dk_fd d; dk_tables := v |}.

(** [Reliability] with the process around it.  A station is the object [St] that
    was registered under a name; [rl_kind] are the names of each kind with the
    object they had when they were registered. *)
Record Reliability := {
  rl_disk : Disk;
  rl_last_ignore : bool;
  rl_hist_ignore : bool;
  rl_dbs : gmap string T;
  rl_name : gmap string St;
  rl_kind : ReStationKind → gmap string St;
  rl_env : E;
  rl_trace : list (Disk * E);
}.
Definition set_rl_last_ignore v (s : Reliability) : Reliability := {| rl_disk := rl_disk s;
  rl_last_ignore := v; rl_hist_ignore := rl_hist_ignore s; rl_dbs := rl_dbs s; rl_name := rl_name s;
  rl_kind := rl_kind s; rl_env := rl_env s; rl_trace := rl_trace s |}.
Definition set_rl_hist_ignore v (s : Reliability) : Reliability := {| rl_disk := rl_disk s;
  rl_last_ignore := rl_last_ignore s; rl_hist_ignore := v; rl_dbs := rl_dbs s; rl_name := rl_name s;
  rl_kind := rl_kind s; rl_env := rl_env s; rl_trace := rl_trace s |}.
Definition set_rl_dbs v (s : Reliability) : Reliability := {| rl_disk := rl_disk s;
  rl_last_ignore := rl_last_ignore s; rl_hist_ignore := rl_hist_ignore s; rl_dbs := v;
  rl_name := rl_name s; rl_kind := rl_kind s; rl_env := rl_env s; rl_trace := rl_trace s |}.
Definition set_rl_stations n k (s : Reliability) : Reliability := {| rl_disk := rl_disk s;
  rl_last_ignore := rl_last_ignore s; rl_hist_ignore := rl_hist_ignore s; rl_dbs := rl_dbs s;
  rl_name := n; rl_kind := k; rl_env := rl_env s; rl_trace := rl_trace s |}.
(** A durable step: it is noted. *)
Definition set_durable d e (s : Reliability) : Reliability := {| rl_disk := d;
  rl_last_ignore := rl_last_ignore s; rl_hist_ignore := rl_hist_ignore s; rl_dbs := rl_dbs s;
  rl_name := rl_name s; rl_kind := rl_kind s; rl_env := e; rl_trace := (d, e) :: rl_trace s |}.

Notation R := (M Reliability).

(** A write transaction: [f] works on the disk, and a failure is unwrapped. *)
Definition txn (f : Disk → option Disk) : R unit :=
  s ← mget;
  d ← munwrap (f (rl_disk s));
  mmodify (set_durable d (rl_env s)).
Definition sys_do {A} (f : E → E * A) : R A := λ s,
  let r := f (rl_env s) in Returned (set_durable (rl_disk s) r.1 s, r.2).
Definition sys_ask {A} (f : E → A) : R A := mgets (λ s, f (rl_env s)).

(** ** The enable flag *)
Definition enable_data_clear : R unit := txn (λ d, v ← db_clear (dk_enable d); Some (set_dk_enable v d)).
Definition set_enable (enable : bool) : R unit :=
  txn (λ d, v ← db_put (dk_enable d) RELI_ENABLE_KEY enable; Some (set_dk_enable v d)).
Definition enable_of (d : Disk) : bool := default false (db_get (dk_enable d) RELI_ENABLE_KEY).
Definition enable : R bool := mgets (λ s, enable_of (rl_disk s)).

(** ** The last words *)
Definition last_data_clear : R unit := txn (λ d,
  u ← db_clear (dk_unit d); f ← db_clear (dk_frame d); Some (set_dk_frame f (set_dk_unit u d))).
Definition unless_ignored (m : R unit) : R unit :=
  s ← mget; if rl_last_ignore s then mret tt else m.
Definition set_unit (unit_id : string) : R unit := unless_ignored (txn (λ d,
  v ← db_put (dk_unit d) RELI_LAST_KEY unit_id; Some (set_dk_unit v d))).
Definition clear_unit : R unit := unless_ignored (txn (λ d,
  v ← db_delete (dk_unit d) RELI_LAST_KEY; Some (set_dk_unit v d))).
Definition frames_of (d : Disk) : list ReliFrame := default [] (db_get (dk_frame d) RELI_LAST_KEY).
Definition put_frames (l : list ReliFrame) (d : Disk) : option Disk :=
  v ← db_put (dk_frame d) RELI_LAST_KEY l; Some (set_dk_frame v d).
(** [Vec::pop] drops the last element. *)
Definition vec_pop {A} (l : list A) : list A := take (length l - 1) l.
Definition set_frame (f1 : Z) (f2 f3 : option Z) : R unit :=
  unless_ignored (txn (λ d, put_frames (frames_of d ++ [(f1, f2, f3)]) d)).
Definition clear_frame : R unit := unless_ignored (txn (λ d, put_frames (vec_pop (frames_of d)) d)).
Definition last_unit_of (d : Disk) : option string := db_get (dk_unit d) RELI_LAST_KEY.
Definition last_frame_of (d : Disk) : option ReliFrame := last (frames_of d).

(** ** The history *)

(** The database of a table; creating one that exists changes nothing. *)
Definition disk_table (name : string) (tabs : gmap string D) : D := default tb_new (tabs !! name).
Definition create_database (name : string) : R unit :=
  txn (λ d, Some (set_dk_tables (<[name:=disk_table name (dk_tables d)]> (dk_tables d)) d)).
Fixpoint on_tables (f : T → D → option (T * D)) (l : list (string * T)) (dbs : gmap string T)
    (tabs : gmap string D) : option (gmap string T * gmap string D) :=
  match l with
  | [] => Some (dbs, tabs)
  | (name, t) :: l' =>
    '(t', d') ← f t (disk_table name tabs);
    on_tables f l' (<[name:=t']> dbs) (<[name:=d']> tabs)
  end.
(** One transaction for all the tables. *)
Definition history_txn (f : T → D → option (T * D)) : R unit :=
  s ← mget;
  '(dbs, tabs) ← munwrap (on_tables f (hm_iter (rl_dbs s)) (rl_dbs s) (dk_tables (rl_disk s)));
  mmodify (set_rl_dbs dbs);;
  mmodify (set_durable (set_dk_tables tabs (rl_disk s)) (rl_env s)).
Definition history_data_clear : R unit := history_txn tb_clear.
Definition history_commit : R unit := history_txn tb_export.
Definition history_import : R unit := mmodify (λ s,
  set_rl_dbs (map_imap (λ name t, Some (tb_import t (disk_table name (dk_tables (rl_disk s)))))
    (rl_dbs s)) s).
Definition history_ignore_set (ignore : bool) : R unit :=
  mmodify (set_rl_hist_ignore ignore);;
  mmodify (λ s, set_rl_dbs (tb_ignore_set ignore <$> rl_dbs s) s).
Definition history_db_register (name : string) (db : T) : R unit :=
  mmodify (λ s, set_rl_dbs (<[name:=db]> (rl_dbs s)) s).
Definition history_clear : R unit := mmodify (set_rl_dbs ∅).

(** ** The descriptors in transit *)
Definition FD_CLOEXEC : Z := 1.
Definition fd_cloexec_flag (fd : Z) (cloexec : bool) : R (Result unit Z) :=
  massert (0 <=? fd);;
  r ← sys_ask (os_getfd fd);
  match r with
  | Err e => mret (Err e)
  | Ok flags => sys_do (os_setfd fd (if cloexec then Z.lor flags FD_CLOEXEC else Z.ldiff flags FD_CLOEXEC))
  end.
Definition fd_is_cloexec (fd : Z) : R bool :=
  massert (0 <=? fd);;
  r ← sys_ask (os_getfd fd);
  let flags := match r with Ok flags => flags | Err _ => 0 end in
  massert (Z.ldiff flags FD_CLOEXEC =? 0);;
  mret (Z.testbit flags 0).
Definition fd_close (fd : Z) : R unit := sys_do (λ e, (os_close fd e, tt)).

Definition fd_add (fd : Z) (state : ReliPState) : R unit :=
  txn (λ d, v ← db_put (dk_fd d) fd state; Some (set_dk_fd v d)).
Definition fd_del (fd : Z) : R unit := txn (λ d, v ← db_delete (dk_fd d) fd; Some (set_dk_fd v d)).
Definition fd_contains (fd : Z) : R bool := mgets (λ s, is_some (db_get (dk_fd (rl_disk s)) fd)).
Definition pending_data_clear : R unit := txn (λ d, v ← db_clear (dk_fd d); Some (set_dk_fd v d)).
Definition pending_make_consistent : R unit :=
  s ← mget;
  mforeach (λ '(fd, _), fd_close fd) (db_iter (dk_fd (rl_disk s)));;
  pending_data_clear.
Definition errno_error (e : Z) : Error := ErrOther ("errno " +:+ show_int e).
Definition EBADR : Z := 53.
Definition fd_retain (fd : Z) : R (Result unit Error) :=
  b ← fd_contains fd;
  if (b : bool) then mret (Err (errno_error EBADR)) else
  fd_add fd Retaining;;
  r ← fd_cloexec_flag fd false;
  match r with
  | Err e => fd_del fd;; mret (Err (errno_error e))
  | Ok _ => fd_add fd Retained;; mret (Ok tt)
  end.
Definition fd_remove (fd : Z) : R (Result unit Error) :=
  b ← fd_is_cloexec fd;
  if (b : bool) then fd_del fd;; mret (Ok tt) else
  fd_add fd Removing;;
  r ← fd_cloexec_flag fd true;
  match r with
  | Err e => fd_del fd;; mret (Err (errno_error e))
  | Ok _ => fd_del fd;; mret (Ok tt)
  end.
Definition fd_cloexec (fd : Z) (cloexec : bool) : R (Result unit Error) :=
  if cloexec then fd_remove fd else fd_retain fd.
Definition fd_take (fd : Z) : R Z := fd_del fd;; mret fd.

(** ** The stations *)

(** The trait [ReStation]. *)
Class ReStation : Type := {
  st_input_rebuild : St → R unit;
  st_db_compensate_last : St → ReliFrame → option string → R unit;
  st_db_compensate_history : St → R unit;
  st_do_compensate_last : St → ReliFrame → option string → R unit;
  st_do_compensate_others : St → option string → R unit;
  st_db_map : St → R unit;
}.
Context `{HR : !ReStation}.

Definition station_register (name : string) (kind : ReStationKind) (station : St) : R unit :=
  s ← mget;
  let names := <[name:=station]> (rl_name s) in
  if is_some (rl_name s !! name) then mmodify (set_rl_stations names (rl_kind s)) else
  mmodify (set_rl_stations names
    (λ k, if decide (k = kind) then <[name:=station]> (rl_kind s k) else rl_kind s k)).
Definition for_stations (f : St → R unit) : R unit := s ← mget; mforeach f (hm_values (rl_name s)).
Definition station_input_rebuild : R unit := for_stations st_input_rebuild.
Definition station_db_compensate (lframe : option ReliFrame) (lunit : option string) : R unit :=
  for_stations st_db_compensate_history;;
  match lframe with
  | Some lf => for_stations (λ st, st_db_compensate_last st lf lunit)
  | None => mret tt
  end.
Definition get_kind (kind : ReStationKind) : R (list St) := mgets (λ s, hm_values (rl_kind s kind)).
Definition station_db_map : R unit :=
  l1 ← get_kind Level1; mforeach st_db_map l1;;
  l2 ← get_kind Level2; mforeach st_db_map l2.
Definition station_make_consistent (lframe : option ReliFrame) (lunit : option string) : R unit :=
  match lframe with
  | Some lf => for_stations (λ st, st_do_compensate_last st lf lunit)
  | None => mret tt
  end;;
  for_stations (λ st, st_do_compensate_others st lunit).
Definition station_clear : R unit := mmodify (set_rl_stations ∅ (λ _, ∅)).

(** ** [Reliability] *)
Definition set_last_unit (unit_id : string) : R unit := set_unit unit_id.
Definition clear_last_unit : R unit := history_commit;; clear_unit.
Definition set_last_frame (f1 : Z) (f2 f3 : option Z) : R unit := set_frame f1 f2 f3.
Definition set_last_frame1 (f1 : Z) : R unit := set_frame f1 None None.
Definition set_last_frame2 (f1 f2 : Z) : R unit := set_frame f1 (Some f2) None.
Definition clear_last_frame : R unit := history_commit;; clear_frame.
Definition last_unit : R (option string) := mgets (λ s, last_unit_of (rl_disk s)).
Definition last_frame : R (option ReliFrame) := mgets (λ s, last_frame_of (rl_disk s)).
Definition data_clear : R unit :=
  enable_data_clear;; last_data_clear;; history_data_clear;; pending_data_clear.
Definition reli_clear : R unit := history_clear;; station_clear.
Definition last_ignore_set (ignore : bool) : R unit := mmodify (set_rl_last_ignore ignore).

Definition input_rebuild : R unit :=
  history_ignore_set true;; station_input_rebuild;; history_ignore_set false.
Definition db_compensate : R unit :=
  lframe ← last_frame; lunit ← last_unit;
  station_db_compensate lframe lunit;; history_commit.
Definition db_map : R unit :=
  history_ignore_set true;; station_db_map;; history_ignore_set false.
Definition make_consistent : R unit :=
  lframe ← last_frame; lunit ← last_unit;
  pending_make_consistent;; station_make_consistent lframe lunit;; history_commit.
Definition recover : R unit :=
  last_ignore_set true;;
  history_import;;
  input_rebuild;;
  db_compensate;;
  db_map;;
  make_consistent;;
  last_ignore_set false;;
  clear_unit;;
  clear_frame.

(** *** The debug switches: empty files in the directory *)
Definition debug_file (dir file : string) : R bool := sys_ask (fs_exists (dir +:+ "/" +:+ file)).
Definition create_file (dir file : string) : R unit := sys_do (λ e, (fs_create (dir +:+ "/" +:+ file) e, tt)).
Definition debug_enable (dir : string) : R unit :=
  b ← debug_file dir "enable.debug"; mwhen b (set_enable true).
Definition debug_clear (dir : string) : R unit :=
  b ← debug_file dir "clear.debug";
  mwhen b (first ← debug_file dir "clear_first.debug";
    mwhen (negb first) (create_file dir "clear_first.debug";;
      en ← enable; data_clear;; set_enable en)).
Definition debug_panic (dir : string) : R unit :=
  b ← debug_file dir "panic.debug";
  mwhen b (first ← debug_file dir "panic_first.debug";
    mwhen (negb first) (create_file dir "panic_first.debug";; mpanic)).

(** [Reliability::new], over what the directory holds. *)
Definition Reliability_start (disk : Disk) (env : E) : Reliability := {|
  rl_disk := disk; rl_last_ignore := false; rl_hist_ignore := false; rl_dbs := ∅;
  rl_name := ∅; rl_kind := λ _, ∅; rl_env := env; rl_trace := [] |}.
Definition Reliability_new (dir : string) (disk : Disk) (env : E) : Outcome (Reliability * unit) :=
  debug_enable dir (Reliability_start disk env).
End reli.
Arguments Disk {_} D.
Arguments Reliability {_} T D St E.
Arguments ReStation {_} T D St E.

(** ** The directory *)
Section dir.
Context {E : Type} `{HS : !FdSys E}.
(** The environment of the process, and of the compiler that built it. *)
Class EnvVars : Type := { env_var : string → option string; env_compiled_out_dir : option string }.
Context `{HV : !EnvVars}.
Definition RELI_PATH_DIR : string := "/run/sysmaster/reliability".

Definition out_dir_string_get : option string :=
  let run := match env_var "OUT_DIR" with Some d => Some d | None => env_compiled_out_dir end in
  (λ dir_string,
    match before_pattern (chars "build") (chars dir_string) with
    | Some b => of_chars b +:+ "reliability"
    | None => dir_string +:+ "reliability"
    end) <$> run.
Definition prepare_dir (dir : string) (e : E) : E * Result unit Error :=
  if fs_exists dir e then (e, Ok tt) else
  let r := fs_create_dir_all dir e in (r.1, if r.2 then Ok tt else Err (ErrOther "io")).
Definition prepare_opt (dir : option string) (e : E) : E * Result unit Error :=
  match dir with Some d => prepare_dir d e | None => (e, Err ErrNotExisted) end.
Definition reli_dir_prepare_run : E → E * Result unit Error := prepare_dir RELI_PATH_DIR.
Definition reli_dir_prepare_out : E → E * Result unit Error := prepare_opt out_dir_string_get.
Definition reli_dir_prepare_customize : E → E * Result unit Error :=
  prepare_opt (env_var "PROCESS_LIB_LOAD_PATH").
Definition get_dir (dir : option string) (e : E) : Result string Error :=
  match dir with
  | Some d => if fs_exists d e then Ok d else Err ErrNotExisted
  | None => Err ErrNotExisted
  end.
Definition reli_dir_get_run : E → Result string Error := get_dir (Some RELI_PATH_DIR).
Definition reli_dir_get_out : E → Result string Error := get_dir out_dir_string_get.
Definition reli_dir_get_customize : E → Result string Error := get_dir (env_var "PROCESS_LIB_LOAD_PATH").
Definition reli_dir_get (e : E) : Result string Error :=
  match reli_dir_get_run e with Ok d => Ok d | Err _ =>
  match reli_dir_get_out e with Ok d => Ok d | Err _ =>
  match reli_dir_get_customize e with Ok d => Ok d | Err _ => Err ErrNotExisted end end end.
Definition reli_dir_prepare (e : E) : E * Result unit Error :=
  match reli_dir_prepare_run e with
  | (e1, Ok _) => (e1, Ok tt)
  | (e1, Err err_run) =>
    match reli_dir_prepare_out e1 with
    | (e2, Ok _) => (e2, Ok tt)
    | (e2, Err err_out) =>
      match reli_dir_prepare_customize e2 with
      | (e3, Ok _) => (e3, Ok tt)
      | (e3, Err err) => (e3, Err (if decide (err = ErrNotExisted) then err else
          if decide (err_out = ErrNotExisted) then err_out else err_run))
      end
    end
  end.

(** [reli_prepare]: the directory, and one below it for each environment. *)
Definition prepare_env (dir sub : string) : E → E * Result unit Error := prepare_dir (dir +:+ "/" +:+ sub).
Fixpoint prepare_envs (dir : string) (subs : list string) (e : E) : E * Result unit Error :=
  match subs with
  | [] => (e, Ok tt)
  | sub :: subs' =>
    match prepare_env dir sub e with
    | (e1, Ok _) => prepare_envs dir subs' e1
    | (e1, Err err) => (e1, Err err)
    end
  end.
Definition reli_prepare : M E (Result string Error) := λ e,
  match reli_dir_prepare e with
  | (e1, Err err) => Returned (e1, Err err)
  | (e1, Ok _) =>
    match reli_dir_get e1 with
    | Err _ => Panicked
    | Ok dir =>
      match prepare_envs dir ["enable.mdb"; "last.mdb"; "history.mdb"; "pending.mdb"] e1 with
      | (e2, Ok _) => Returned (e2, Ok dir)
      | (e2, Err err) => Returned (e2, Err err)
      end
    end
  end.
End dir.
