(* ===== verification/ReliFacts.v ===== *)
(** * Facts about reliability

    What a crash can leave behind, and what a recovery makes of it: the last words
    stay until the recovery is done, an operation reaches the history whole or not
    at all, a committed history is read back, and no descriptor is left open
    ([Reli.v]). *)
From S2P Require Import Prelude UnitTypes ReDb StdString Reli.
Local Open Scope Z_scope.

Section facts.
Context `{HI : !HashIter} `{HH : !Heed} {T D St E : Type}.
Context `{HT : !ReDbTable T D} `{HS : !FdSys E}.
Implicit Types (s : Reliability T D St E) (d : Disk D).
Notation R := (M (Reliability T D St E)).

(** ** Rules for the durable steps *)
Lemma wtp_txn f s Q : wtp (txn f) s Q ↔ ∀ d, f (rl_disk s) = Some d → Q (set_durable d (rl_env s) s) tt.
Proof.
  unfold txn. split.
  - intros H d Hd. apply wtp_bind, wtp_mget, wtp_bind in H.
    apply wtp_munwrap with (a := d) in H; [|done]. by apply wtp_mmodify in H.
  - intros H. apply wtp_bind, wtp_mget, wtp_bind, wtp_munwrap. intros d Hd. by apply wtp_mmodify, H.
Qed.
Lemma wtp_unless_txn f s Q : rl_last_ignore s = false →
  wtp (unless_ignored (txn f)) s Q ↔ ∀ d, f (rl_disk s) = Some d → Q (set_durable d (rl_env s) s) tt.
Proof. intros Hi. unfold unless_ignored. rewrite wtp_bind, wtp_mget, Hi. apply wtp_txn. Qed.
Lemma wtp_history_txn f s Q : wtp (history_txn f) s Q ↔
  ∀ dbs tabs, on_tables f (hm_iter (rl_dbs s)) (rl_dbs s) (dk_tables (rl_disk s)) = Some (dbs, tabs) →
    Q (set_durable (set_dk_tables tabs (rl_disk s)) (rl_env s) (set_rl_dbs dbs s)) tt.
Proof.
  unfold history_txn, wtp, mbind, M_bind, mget, munwrap, mmodify. simpl.
  destruct (on_tables _ _ _ _) as [[dbs tabs]|]; simpl; [|naive_solver].
  split; [by intros H ?? [= -> ->]|by intros H; apply H].
Qed.

(** The steps that were noted since. *)
Definition noted (P : Disk D * E → Prop) s s' : Prop :=
  ∃ new, rl_trace s' = new ++ rl_trace s ∧ Forall P new.
Lemma noted_refl P s s' : rl_trace s' = rl_trace s → noted P s s'.
Proof. exists []. by rewrite H. Qed.
Lemma noted_one (P : Disk D * E → Prop) s s' p : rl_trace s' = p :: rl_trace s → P p → noted P s s'.
Proof. intros Ht Hp. exists [p]. by rewrite Ht, Forall_singleton. Qed.
Lemma noted_trans P s1 s2 s3 : noted P s1 s2 → noted P s2 s3 → noted P s1 s3.
Proof.
  intros (n1 & Ht1 & H1) (n2 & Ht2 & H2). exists (n2 ++ n1).
  by rewrite Ht2, Ht1, app_assoc, Forall_app.
Qed.
Lemma noted_mono (P Q : Disk D * E → Prop) s s' : (∀ p, P p → Q p) → noted P s s' → noted Q s s'.
Proof. intros H (n & Ht & Hn). exists n. split; [done|]. eapply Forall_impl; eauto. Qed.

(** ** The last words during a recovery *)
Definition words d := (dk_unit d, dk_frame d).
(** While the last words are ignored, nothing changes them. *)
Definition last_held s s' : Prop := rl_last_ignore s = true →
  rl_last_ignore s' = true ∧ words (rl_disk s') = words (rl_disk s)
  ∧ noted (λ p, words p.1 = words (rl_disk s)) s s'.
#[export] Instance last_held_preorder : PreOrder last_held.
Proof.
  split.
  - intros s Hi. split_and!; [done..|by apply noted_refl].
  - intros s1 s2 s3 H12 H23 Hi. destruct (H12 Hi) as (Hi2 & Hw2 & Hn2).
    destruct (H23 Hi2) as (Hi3 & Hw3 & Hn3). split_and!; [done|congruence|].
    rewrite Hw2 in Hn3. by eapply noted_trans.
Qed.
(** What a method of the stations may do: anything, through the calls of
    [Reliability]. *)
Abbreviation held := (keeps last_held).

Lemma held_txn f : (∀ d d', f d = Some d' → words d' = words d) → held (txn f).
Proof.
  intros Hf s. apply wtp_txn. intros d Hd Hi. pose proof (Hf _ _ Hd) as Hw.
  split_and!; [done..|]. eapply noted_one; [done|exact Hw].
Qed.
Lemma held_unless f : held (unless_ignored (txn f)).
Proof.
  unfold unless_ignored. apply keeps_mget. intros s.
  destruct (rl_last_ignore s) eqn:Hi; [by apply wtp_ret|].
  apply wtp_txn. intros d _ Hi'. congruence.
Qed.
Lemma held_history_txn f : held (history_txn f).
Proof.
  intros s. apply wtp_history_txn. intros dbs tabs _ Hi. split_and!; [done..|].
  by eapply noted_one.
Qed.
Lemma held_modify (f : Reliability T D St E → Reliability T D St E) :
  (∀ s, rl_last_ignore (f s) = rl_last_ignore s ∧ rl_disk (f s) = rl_disk s ∧ rl_trace (f s) = rl_trace s) →
  held (mmodify f).
Proof.
  intros Hf. apply keeps_modify. intros s Hi. destruct (Hf s) as (H1 & -> & H3).
  split_and!; [congruence|done|by apply noted_refl].
Qed.
Lemma held_sys_do {A} (f : E → E * A) : held (sys_do f).
Proof. intros s Hi. split_and!; [done..|]. by eapply noted_one. Qed.
Lemma held_sys_ask {A} (f : E → A) : held (sys_ask f).
Proof. apply keeps_gets, _. Qed.
#[local] Hint Resolve held_unless held_history_txn held_sys_do held_sys_ask : frames.

Lemma held_set_unit u : held (set_unit u).
Proof. apply held_unless. Qed.
Lemma held_clear_unit : held clear_unit.
Proof. apply held_unless. Qed.
Lemma held_set_frame f1 f2 f3 : held (set_frame f1 f2 f3).
Proof. apply held_unless. Qed.
Lemma held_clear_frame : held clear_frame.
Proof. apply held_unless. Qed.
Lemma held_commit : held history_commit.
Proof. apply held_history_txn. Qed.
#[local] Hint Resolve held_set_unit held_clear_unit held_set_frame held_clear_frame held_commit : frames.
Lemma held_clear_last_unit : held clear_last_unit.
Proof. unfold clear_last_unit. frame. Qed.
Lemma held_clear_last_frame : held clear_last_frame.
Proof. unfold clear_last_frame. frame. Qed.
Lemma held_fd_add fd st : held (fd_add fd st).
Proof. apply held_txn. intros d d'. destruct (db_put _ _ _); simpl; naive_solver. Qed.
Lemma held_fd_del fd : held (fd_del fd).
Proof. apply held_txn. intros d d'. destruct (db_delete _ _); simpl; naive_solver. Qed.
Lemma held_pending_clear : held pending_data_clear.
Proof. apply held_txn. intros d d'. destruct (db_clear _); simpl; naive_solver. Qed.
Lemma held_set_enable b : held (set_enable b).
Proof. apply held_txn. intros d d'. destruct (db_put _ _ _); simpl; naive_solver. Qed.
Lemma held_fd_contains fd : held (fd_contains fd).
Proof. apply keeps_gets, _. Qed.
#[local] Hint Resolve held_fd_add held_fd_del held_pending_clear held_fd_contains : frames.
Lemma held_fd_cloexec_flag fd b : held (fd_cloexec_flag fd b).
Proof. unfold fd_cloexec_flag. frame. Qed.
Lemma held_fd_is_cloexec fd : held (fd_is_cloexec fd).
Proof. unfold fd_is_cloexec. frame. Qed.
#[local] Hint Resolve held_fd_cloexec_flag held_fd_is_cloexec : frames.
Lemma held_fd_cloexec fd b : held (fd_cloexec fd b).
Proof. unfold fd_cloexec, fd_retain, fd_remove. frame. Qed.
Lemma held_fd_take fd : held (fd_take fd).
Proof. unfold fd_take. frame. Qed.
Lemma held_history_ignore b : held (history_ignore_set b).
Proof. unfold history_ignore_set. apply keeps_bind; [apply _|..]; intros; by apply held_modify. Qed.
#[local] Hint Resolve held_history_ignore held_fd_cloexec held_fd_take : frames.
Lemma held_make_consistent : held pending_make_consistent.
Proof.
  unfold pending_make_consistent, fd_close. apply keeps_bind; [apply _|frame|]. intros s0.
  apply keeps_bind; [apply _| |frame]. apply keeps_mforeach; [apply _|]. intros [fd st]. frame.
Qed.
#[local] Hint Resolve held_make_consistent : frames.

(** ** What the stations promise: they act through the calls above. *)
Section stations.
Context `{HR : !ReStation T D St E}.
Class StationsHeld : Prop := {
  sh_input_rebuild st : held (st_input_rebuild st);
  sh_db_compensate_last st f u : held (st_db_compensate_last st f u);
  sh_db_compensate_history st : held (st_db_compensate_history st);
  sh_do_compensate_last st f u : held (st_do_compensate_last st f u);
  sh_do_compensate_others st u : held (st_do_compensate_others st u);
  sh_db_map st : held (st_db_map st);
}.
Context `{HSH : !StationsHeld}.
#[local] Hint Resolve sh_input_rebuild sh_db_compensate_last sh_db_compensate_history
  sh_do_compensate_last sh_do_compensate_others sh_db_map : frames.

Lemma held_for_stations f : (∀ st, held (f st)) → held (for_stations f).
Proof. intros Hf. unfold for_stations. frame. Qed.
Lemma held_last_frame : held last_frame.
Proof. apply keeps_gets, _. Qed.
Lemma held_last_unit : held last_unit.
Proof. apply keeps_gets, _. Qed.
Lemma held_get_kind k : held (get_kind k).
Proof. apply keeps_gets, _. Qed.
#[local] Hint Resolve held_for_stations held_last_frame held_last_unit held_get_kind : frames.
Lemma held_import : held history_import.
Proof. by apply held_modify. Qed.
Lemma held_input_rebuild : held input_rebuild.
Proof. unfold input_rebuild, station_input_rebuild. frame. Qed.
Lemma held_db_compensate : held db_compensate.
Proof. unfold db_compensate, station_db_compensate. frame. Qed.
Lemma held_db_map : held db_map.
Proof. unfold db_map, station_db_map. frame. Qed.
Lemma held_make_all_consistent : held make_consistent.
Proof. unfold make_consistent, station_make_consistent. frame. Qed.

(** C7: a recovery can be interrupted.  At every point where a crash can stop it,
    either the last words are still those it started from, so that the next
    recovery compensates the same operation again, or the history and the
    descriptors are already what the finished recovery leaves.  It ends with no
    last unit, and with one frame less. *)
Theorem recover_reentrant s : rl_last_ignore s = false →
  wtp recover s (λ s' _,
    noted (λ p, words p.1 = words (rl_disk s)
      ∨ dk_tables p.1 = dk_tables (rl_disk s') ∧ dk_fd p.1 = dk_fd (rl_disk s')) s s'
    ∧ last_unit_of (rl_disk s') = None ∧ frames_of (rl_disk s') = vec_pop (frames_of (rl_disk s))).
Proof.
  intros Hs. unfold recover, last_ignore_set. apply wtp_bind, wtp_mmodify.
  set (s1 := set_rl_last_ignore true s).
  do 5 (apply (keeps_then last_held _ s1); [auto using held_import, held_input_rebuild, held_db_compensate,
    held_db_map, held_make_all_consistent|done|intros ? [] ?]).
  destruct H3 as (_ & Hw & Hn); [done|]. apply wtp_bind, wtp_mmodify, wtp_bind.
  apply wtp_unless_txn; [done|]. simpl. intros d1 Hd1. apply bind_Some in Hd1 as (v1 & Hv1 & [= <-]).
  apply wtp_unless_txn; [done|]. simpl. intros d2 Hd2. apply bind_Some in Hd2 as (v2 & Hv2 & [= <-]).
  assert (frames_of (rl_disk s'3) = frames_of (rl_disk s)) as Hf.
  { unfold frames_of. by injection Hw as _ ->. }
  split_and!.
  - eapply noted_trans.
    + eapply noted_mono; [|exact Hn]. intros p Hp. left. exact Hp.
    + eexists [_; _]. split; [done|]. repeat constructor; by right.
  - unfold last_unit_of, db_get. simpl. by rewrite (db_delete_view _ _ _ Hv1), lookup_delete_eq.
  - change (default [] (db_get v2 RELI_LAST_KEY) = vec_pop (frames_of (rl_disk s))). unfold db_get.
    rewrite (db_put_view _ _ _ _ Hv2), lookup_insert_eq. simpl. by rewrite <-Hf.
Qed.
End stations.

(** ** An operation between two frames *)

(** What an operation may ask of [Reliability] before it ends. *)
Inductive reli_op :=
| OpTable (name : string) (change : T → T)
| OpSetUnit (unit_id : string)
| OpSetEnable (b : bool)
| OpCloexec (fd : Z) (cloexec : bool)
| OpTake (fd : Z).
Definition reli_call (o : reli_op) : R unit :=
  match o with
  | OpTable name change => mmodify (λ s, set_rl_dbs (alter change name (rl_dbs s)) s)
  | OpSetUnit u => set_last_unit u
  | OpSetEnable b => set_enable b
  | OpCloexec fd b => fd_cloexec fd b;; mret tt
  | OpTake fd => fd_take fd;; mret tt
  end.

(** The frames and the history on disk stay. *)
Definition record d := (dk_frame d, dk_tables d).
Definition unrecorded s s' : Prop :=
  rl_last_ignore s' = rl_last_ignore s ∧ record (rl_disk s') = record (rl_disk s)
  ∧ noted (λ p, record p.1 = record (rl_disk s)) s s'.
#[export] Instance unrecorded_preorder : PreOrder unrecorded.
Proof.
  split.
  - intros s. split_and!; [done..|by apply noted_refl].
  - intros s1 s2 s3 (Hi2 & Hw2 & Hn2) (Hi3 & Hw3 & Hn3). split_and!; [congruence..|].
    rewrite Hw2 in Hn3. by eapply noted_trans.
Qed.
Lemma unrecorded_txn f : (∀ d d', f d = Some d' → record d' = record d) → keeps unrecorded (txn f).
Proof.
  intros Hf s. apply wtp_txn. intros d Hd. pose proof (Hf _ _ Hd) as Hw.
  split_and!; [done..|]. eapply noted_one; [done|exact Hw].
Qed.
Lemma unrecorded_sys_do {A} (f : E → E * A) : keeps unrecorded (sys_do f).
Proof. intros s. split_and!; [done..|]. by eapply noted_one. Qed.
Lemma unrecorded_fd_add fd st : keeps unrecorded (fd_add fd st).
Proof. apply unrecorded_txn. intros d d'. destruct (db_put _ _ _); simpl; naive_solver. Qed.
Lemma unrecorded_fd_del fd : keeps unrecorded (fd_del fd).
Proof. apply unrecorded_txn. intros d d'. destruct (db_delete _ _); simpl; naive_solver. Qed.
#[local] Hint Resolve unrecorded_sys_do unrecorded_fd_add unrecorded_fd_del : frames.
Lemma unrecorded_fd_cloexec fd b : keeps unrecorded (fd_cloexec fd b).
Proof.
  unfold fd_cloexec, fd_retain, fd_remove, fd_cloexec_flag, fd_is_cloexec, fd_contains, sys_ask. frame.
Qed.
Lemma unrecorded_call o : keeps unrecorded (reli_call o).
Proof.
  destruct o as [name change|u|b|fd b|fd]; simpl.
  - apply keeps_modify. intros s. split_and!; [done..|by apply noted_refl].
  - apply keeps_mget. intros s. destruct (rl_last_ignore s); [by apply wtp_ret|].
    apply unrecorded_txn. intros d d'. destruct (db_put _ _ _); simpl; naive_solver.
  - apply unrecorded_txn. intros d d'. destruct (db_put _ _ _); simpl; naive_solver.
  - apply keeps_bind; [apply _|apply unrecorded_fd_cloexec|intros; apply keeps_ret, _].
  - unfold fd_take. frame.
Qed.
Lemma unrecorded_calls ops : keeps unrecorded (mforeach reli_call ops).
Proof. apply keeps_mforeach; [apply _|]. apply unrecorded_call. Qed.

Lemma wtp_set_frame f1 f2 f3 s Q : rl_last_ignore s = false →
  (∀ d, dk_tables d = dk_tables (rl_disk s) → dk_fd d = dk_fd (rl_disk s) →
    frames_of d = frames_of (rl_disk s) ++ [(f1, f2, f3)] → Q (set_durable d (rl_env s) s) tt) →
  wtp (set_last_frame f1 f2 f3) s Q.
Proof.
  intros Hi HQ. apply wtp_unless_txn; [done|]. unfold put_frames. intros d Hd.
  apply bind_Some in Hd as (v & Hv & [= <-]). apply HQ; [done..|].
  unfold frames_of at 1, db_get. simpl. by rewrite (db_put_view _ _ _ _ Hv), lookup_insert_eq.
Qed.
Lemma vec_pop_app {A} (l : list A) x : vec_pop (l ++ [x]) = l.
Proof. unfold vec_pop. rewrite length_app, Nat.add_sub. by rewrite take_app_length. Qed.
Lemma last_frame_app d l f : frames_of d = l ++ [f] → last_frame_of d = Some f.
Proof. unfold last_frame_of. intros ->. apply last_snoc. Qed.


(** ** What comes back *)

(** The tables as maps [C]: [tb_inv t d] says that the cache [t] is the database
    [d] with its pending changes, [tb_closed t] that the table ignores changes. *)
Class TableLaws (C : Type) : Type := {
  tb_content : T → C;
  tb_stored : D → C;
  tb_inv : T → D → Prop;
  tb_closed : T → bool;
  tb_export_law t (d : D) t' (d' : D) : tb_inv t d → tb_export t d = Some (t', d') →
    tb_inv t' d' ∧ tb_content t' = tb_content t ∧ tb_stored d' = tb_content t;
  tb_import_law t (d : D) : tb_inv (tb_import t d) d ∧ tb_content (tb_import t d) = tb_stored d;
  tb_ignore_law b t (d : D) : tb_content (tb_ignore_set b t) = tb_content t
    ∧ tb_closed (tb_ignore_set b t) = b ∧ (tb_inv t d → tb_inv (tb_ignore_set b t) d);
}.
Section content.
Context {C : Type} `{HL : !TableLaws C}.

Definition contents s : gmap string C := tb_content <$> rl_dbs s.
Definition coherent s : Prop := ∀ name t, rl_dbs s !! name = Some t →
  tb_inv t (disk_table name (dk_tables (rl_disk s))).
(** Every table is on disk as it is in memory. *)
Definition stored_in (tabs : gmap string D) (m : gmap string C) : Prop :=
  ∀ name c, m !! name = Some c → tb_stored (disk_table name tabs) = c.

Lemma disk_table_insert name (d : D) tabs : disk_table name (<[name:=d]> tabs) = d.
Proof. unfold disk_table. by rewrite lookup_insert_eq. Qed.
Lemma disk_table_other name name' (d : D) tabs : name ≠ name' →
  disk_table name (<[name':=d]> tabs) = disk_table name tabs.
Proof. intros H. unfold disk_table. by rewrite lookup_insert_ne. Qed.

Lemma on_tables_spec f l dbs tabs dbs' tabs' : NoDup l.*1 →
  on_tables f l dbs tabs = Some (dbs', tabs') →
  (∀ name t, (name, t) ∈ l → ∃ t', f t (disk_table name tabs) = Some (t', disk_table name tabs')
     ∧ dbs' !! name = Some t')
  ∧ (∀ name, name ∉ l.*1 → dbs' !! name = dbs !! name ∧ disk_table name tabs' = disk_table name tabs).
Proof.
  revert dbs tabs. induction l as [|[name t] l IH]; intros dbs tabs Hnd Hon; simpl in *.
  { simplify_eq. split; [by intros ?? ?%elem_of_nil|done]. }
  apply NoDup_cons in Hnd as [Hname Hnd]. apply bind_Some in Hon as ([t' d'] & Hf & Hon).
  destruct (IH _ _ Hnd Hon) as [Hin Hout]. split.
  - intros n' t0 [[= -> ->]|Hl]%elem_of_cons.
    + destruct (Hout name Hname) as [Hd Ht]. rewrite lookup_insert_eq in Hd.
      rewrite disk_table_insert in Ht. rewrite Ht. eauto.
    + destruct (Hin _ _ Hl) as (t1 & Hf1 & Hd1). exists t1. split; [|done].
      rewrite <-Hf1. f_equal. rewrite disk_table_other; [done|]. intros ->.
      apply Hname. apply list_elem_of_fmap. by exists (name, t0).
  - intros n' [Hn' Hl]%not_elem_of_cons. destruct (Hout n' Hl) as [-> ->].
    by rewrite lookup_insert_ne, disk_table_other.
Qed.

Lemma wtp_commit s Q : coherent s →
  (∀ dbs d, let s' := set_durable d (rl_env s) (set_rl_dbs dbs s) in
    dk_frame d = dk_frame (rl_disk s) → dk_unit d = dk_unit (rl_disk s) →
    coherent s' → contents s' = contents s → stored_in (dk_tables d) (contents s) → Q s' tt) →
  wtp history_commit s Q.
Proof.
  intros Hco HQ. apply wtp_history_txn. intros dbs tabs Hon.
  destruct (on_tables_spec _ _ _ _ _ _ (NoDup_hm_keys _) Hon) as [Hin Hout].
  assert (∀ name t, rl_dbs s !! name = Some t → ∃ t', dbs !! name = Some t'
    ∧ tb_inv t' (disk_table name tabs) ∧ tb_content t' = tb_content t
    ∧ tb_stored (disk_table name tabs) = tb_content t) as Hall.
  { intros name t Ht. destruct (Hin name t) as (t' & Hf & Hd); [by apply elem_of_hm_iter|].
    destruct (tb_export_law _ _ _ _ (Hco _ _ Ht) Hf) as (? & ? & ?). eauto. }
  assert (∀ name t', dbs !! name = Some t' → is_Some (rl_dbs s !! name)) as Hdom.
  { intros name t' Ht'. destruct (rl_dbs s !! name) eqn:Hn; [done|].
    destruct (Hout name) as [Hd _]; [|congruence]. intros Hk%elem_of_hm_keys. rewrite Hn in Hk. by destruct Hk. }
  apply HQ; [done..| | |].
  - intros name t' Ht'. destruct (Hdom _ _ Ht') as [t Ht]. destruct (Hall _ _ Ht) as (t1 & Ht1 & Hi & _).
    simpl in *. congruence.
  - apply map_eq. intros name. unfold contents. rewrite !lookup_fmap. simpl.
    destruct (rl_dbs s !! name) as [t|] eqn:Ht.
    + destruct (Hall _ _ Ht) as (t1 & -> & _ & Hc & _). simpl. by rewrite Hc.
    + destruct (dbs !! name) eqn:Hd; [|done]. apply Hdom in Hd as [? ?]. congruence.
  - intros name c Hc. unfold contents in Hc. rewrite lookup_fmap_Some in Hc.
    destruct Hc as (t & <- & Ht). by destruct (Hall _ _ Ht) as (_ & _ & _ & _ & ?).
Qed.
Lemma import_contents s m : stored_in (dk_tables (rl_disk s)) m → dom (rl_dbs s) = dom m →
  wtp history_import s (λ s' _, rl_disk s' = rl_disk s ∧ coherent s' ∧ contents s' = m).
Proof.
  intros Hst Hdom. apply wtp_mmodify. split; [done|]. split.
  - intros name t. simpl. rewrite map_lookup_imap. intros (t0 & _ & [= <-])%bind_Some.
    apply tb_import_law.
  - apply map_eq. intros name. unfold contents. simpl. rewrite lookup_fmap, map_lookup_imap.
    destruct (rl_dbs s !! name) as [t|] eqn:Ht; simpl.
    + assert (is_Some (m !! name)) as [c Hc] by (apply elem_of_dom; rewrite <-Hdom; by apply elem_of_dom_2 in Ht).
      rewrite Hc. f_equal. rewrite <-(Hst _ _ Hc). apply tb_import_law.
    + symmetry. apply not_elem_of_dom. rewrite <-Hdom. by apply not_elem_of_dom.
Qed.

(** While the tables ignore changes, a station changes neither what they hold nor
    what is stored. *)
Definition closed s : Prop := ∀ name t, rl_dbs s !! name = Some t → tb_closed t = true.
Definition shielded s s' : Prop := closed s → coherent s →
  closed s' ∧ coherent s' ∧ contents s' = contents s
  ∧ (stored_in (dk_tables (rl_disk s)) (contents s) → stored_in (dk_tables (rl_disk s')) (contents s)).
#[export] Instance shielded_preorder : PreOrder shielded.
Proof.
  split; [by intros s|]. intros s1 s2 s3 H12 H23 Hc Hi. destruct (H12 Hc Hi) as (Hc2 & Hi2 & He2 & Hs2).
  destruct (H23 Hc2 Hi2) as (Hc3 & Hi3 & He3 & Hs3). split_and!; [done..|congruence|].
  intros Hs. rewrite <-He2. apply Hs3. rewrite He2. auto.
Qed.
Section mapping.
Context `{HR : !ReStation T D St E}.
Class StationsShielded : Prop := {
  ss_input_rebuild st : keeps shielded (st_input_rebuild st);
  ss_db_map st : keeps shielded (st_db_map st);
}.
Context `{HSH : !StationsShielded}.
#[local] Hint Resolve ss_input_rebuild ss_db_map : frames.
Lemma wtp_ignore_set b s Q : coherent s →
  (∀ dbs, let s' := set_rl_dbs dbs (set_rl_hist_ignore b s) in
    coherent s' → contents s' = contents s → (b = true → closed s') → Q s' tt) →
  wtp (history_ignore_set b) s Q.
Proof.
  intros Hco HQ. apply wtp_bind, wtp_mmodify, wtp_mmodify. simpl. apply HQ.
  - intros name t'. simpl. rewrite lookup_fmap_Some. intros (t & <- & Ht).
    apply tb_ignore_law. by apply Hco.
  - apply map_eq. intros name. unfold contents. simpl. rewrite !lookup_fmap.
    destruct (rl_dbs s !! name); simpl; [|done]. f_equal. apply tb_ignore_law with (1 := tb_new).
  - intros -> name t'. simpl. rewrite lookup_fmap_Some. intros (t & <- & Ht).
    apply tb_ignore_law with (1 := tb_new).
Qed.
(** A step of the stations between [ignore_set(true)] and [ignore_set(false)]. *)
Lemma wtp_shielded (m : R unit) s Q : keeps shielded m → coherent s →
  (∀ s', coherent s' → contents s' = contents s →
    (stored_in (dk_tables (rl_disk s)) (contents s) → stored_in (dk_tables (rl_disk s')) (contents s)) →
    Q s' tt) →
  wtp (history_ignore_set true;; m;; history_ignore_set false) s Q.
Proof.
  intros Hm Hco HQ. apply wtp_bind, wtp_ignore_set; [done|]. intros dbs s1 Hco1 He1 Hc1.
  apply wtp_bind. eapply wtp_mono; [apply Hm|]. intros s2 [] H2.
  destruct (H2 (Hc1 eq_refl) Hco1) as (_ & Hco2 & He2 & Hs2).
  apply wtp_ignore_set; [done|]. intros dbs3 s3 Hco3 He3 _. apply HQ; [done|congruence|].
  intros Hs. simpl. rewrite <-He1. apply Hs2. by rewrite He1.
Qed.

End mapping.
End content.

(** ** Descriptors *)

(** What the kernel says of the flag of a descriptor that is open. *)
Class FdLaws : Prop := {
  fd_flags fd fl e : os_getfd fd e = Ok fl → fl = 0 ∨ fl = FD_CLOEXEC;
  fd_set_ok fd fl fl0 e : os_getfd fd e = Ok fl0 → fl = 0 ∨ fl = FD_CLOEXEC →
    (os_setfd fd fl e).2 = Ok tt ∧ os_getfd fd (os_setfd fd fl e).1 = Ok fl;
  fd_set_other fd fd' fl fl0 e : fd' ≠ fd → os_getfd fd e = Ok fl0 →
    os_getfd fd' (os_setfd fd fl e).1 = os_getfd fd' e;
  fd_close_law fd fd' fl e : os_getfd fd' (os_close fd e) = Ok fl → fd' ≠ fd ∧ os_getfd fd' e = Ok fl;
}.
Section descriptors.
Context `{HF : !FdLaws}.

(** The next program of the process inherits the descriptor. *)
Definition survives fd (e : E) : Prop := os_getfd fd e = Ok 0.
Definition pending fd d : Prop := is_Some (db_view (dk_fd d) !! fd).
(** Every descriptor that survives is pending, or is one of [base]. *)
Definition covered (base : Z → Prop) (p : Disk D * E) : Prop :=
  ∀ fd, survives fd p.2 → pending fd p.1 ∨ base fd.
Definition now s := (rl_disk s, rl_env s).
Definition stays_covered base s s' : Prop :=
  covered base (now s) → covered base (now s') ∧ noted (covered base) s s'.
#[export] Instance stays_covered_preorder base : PreOrder (stays_covered base).
Proof.
  split.
  - intros s Hc. split; [done|]. by apply noted_refl.
  - intros s1 s2 s3 H12 H23 Hc. destruct (H12 Hc) as [Hc2 Hn2]. destruct (H23 Hc2) as [Hc3 Hn3].
    split; [done|]. by eapply noted_trans.
Qed.
Lemma covered_step base s d e : covered base (d, e) → stays_covered base s (set_durable d e s).
Proof. intros Hc _. split; [done|]. by eapply noted_one. Qed.

Lemma wtp_fd_add fd st s Q :
  (∀ d, (∀ fd', pending fd' d ↔ fd' = fd ∨ pending fd' (rl_disk s)) → Q (set_durable d (rl_env s) s) tt) →
  wtp (fd_add fd st) s Q.
Proof.
  intros HQ. apply wtp_txn. intros d (v & Hv & [= <-])%bind_Some. apply HQ. intros fd'.
  unfold pending. simpl. rewrite (db_put_view _ _ _ _ Hv), lookup_insert.
  case_decide; [subst; naive_solver|]. naive_solver.
Qed.
Lemma wtp_fd_del fd s Q :
  (∀ d, (∀ fd', pending fd' d ↔ fd' ≠ fd ∧ pending fd' (rl_disk s)) → Q (set_durable d (rl_env s) s) tt) →
  wtp (fd_del fd) s Q.
Proof.
  intros HQ. apply wtp_txn. intros d (v & Hv & [= <-])%bind_Some. apply HQ. intros fd'.
  unfold pending. simpl. rewrite (db_delete_view _ _ _ Hv), lookup_delete.
  case_decide; [subst; split; [by intros []%is_Some_None|naive_solver]|]. naive_solver.
Qed.
(** A note can go when the descriptor is not inherited. *)
Lemma covered_del base fd s : (¬ survives fd (rl_env s) ∨ base fd) → ∀ {A} (a : A) s0,
  stays_covered base s0 s → wtp (fd_del fd;; mret a) s (λ s' _, stays_covered base s0 s').
Proof.
  intros Hfd A a s0 H0. apply wtp_bind, wtp_fd_del. intros d Hd. apply wtp_ret.
  intros Hc0. destruct (H0 Hc0) as [Hc Hn].
  assert (covered base (d, rl_env s)) as Hcd.
  { intros fd' Hs. destruct (Hc fd' Hs) as [Hp|]; [|by right]. destruct (decide (fd' = fd)) as [->|Hne].
    - right. simpl in Hs. naive_solver.
    - left. by apply Hd. }
  split; [done|]. eapply noted_trans; [exact Hn|]. by eapply noted_one.
Qed.

Lemma covered_retain base fd : keeps (stays_covered base) (fd_retain fd).
Proof.
  unfold fd_retain, fd_contains. intros s. apply wtp_bind, wtp_mgets. case_match; [by apply wtp_ret|].
  apply wtp_bind, wtp_fd_add. intros d Hd. set (s1 := set_durable d (rl_env s) s).
  assert (stays_covered base s s1) as H1.
  { intros Hc. apply covered_step; [|done]. intros fd' Hs. destruct (Hc fd' Hs); [|by right].
    left. apply Hd. by right. }
  unfold fd_cloexec_flag, massert, sys_ask. apply wtp_bind, wtp_bind. case_match; [|done].
  apply wtp_ret, wtp_bind, wtp_mgets. destruct (os_getfd fd (rl_env s1)) as [fl|err] eqn:Hget.
  - unfold sys_do. unfold wtp at 1. destruct (fd_set_ok fd (Z.ldiff fl FD_CLOEXEC) fl _ Hget) as [-> _].
    { left. by destruct (fd_flags _ _ _ Hget) as [-> | ->]. }
    set (s2 := set_durable _ _ s1).
    assert (stays_covered base s s2) as H2.
    { intros Hc. destruct (H1 Hc) as [Hc1 Hn1]. apply (transitivity (y := s1) H1); [|done].
      apply covered_step. intros fd' Hs. destruct (decide (fd' = fd)) as [->|Hne].
      - left. apply Hd. by left.
      - apply Hc1. unfold survives in *. simpl in *. by rewrite (fd_set_other _ _ _ _ _ Hne Hget) in Hs. }
    apply wtp_bind, wtp_fd_add. intros d3 Hd3. apply wtp_ret.
    intros Hc. destruct (H2 Hc) as [Hc2 _]. apply (transitivity (y := s2) H2); [|done].
    apply covered_step. intros fd' Hs. destruct (Hc2 fd' Hs) as [Hp|]; [|by right].
    left. apply Hd3. by right.
  - apply wtp_ret, covered_del; [|done]. left. unfold survives. by rewrite Hget.
Qed.
Lemma covered_remove base fd : keeps (stays_covered base) (fd_remove fd).
Proof.
  unfold fd_remove, fd_is_cloexec, fd_cloexec_flag, sys_ask, massert. intros s.
  apply wtp_bind, wtp_bind. case_match; [|done]. apply wtp_ret, wtp_bind, wtp_mgets.
  apply wtp_bind. case_match; [|done]. apply wtp_ret, wtp_ret.
  destruct (os_getfd fd (rl_env s)) as [fl|err] eqn:Hget.
  - destruct (fd_flags _ _ _ Hget) as [-> | ->]; simpl.
    2:{ apply covered_del; [|done]. left. unfold survives. by rewrite Hget. }
    apply wtp_bind, wtp_fd_add. intros d Hd. set (s1 := set_durable d (rl_env s) s).
    assert (stays_covered base s s1) as H1.
    { intros Hc. apply covered_step; [|done]. intros fd' Hs. destruct (Hc fd' Hs); [|by right].
      left. apply Hd. by right. }
    apply wtp_bind, wtp_bind, wtp_ret, wtp_bind, wtp_mgets. simpl. rewrite Hget.
    unfold sys_do. unfold wtp at 1. simpl.
    destruct (fd_set_ok fd (Z.lor 0 FD_CLOEXEC) _ _ Hget) as [-> Hset]; [by right|]. apply covered_del.
    { left. unfold survives. simpl. by rewrite Hset. }
    trans s1; [done|]. intros Hc. apply covered_step; [|done]. intros fd' Hs.
    apply Hc. unfold survives in *. simpl in *. destruct (decide (fd' = fd)) as [->|Hne]; [by rewrite Hset in Hs|].
    by rewrite (fd_set_other _ _ _ _ _ Hne Hget) in Hs.
  - simpl. apply wtp_bind, wtp_fd_add. intros d Hd. apply wtp_bind, wtp_bind, wtp_ret, wtp_bind, wtp_mgets.
    simpl. rewrite Hget. apply wtp_ret, covered_del.
    { left. unfold survives. simpl. by rewrite Hget. }
    intros Hc. apply covered_step; [|done]. intros fd' Hs. destruct (Hc fd' Hs); [|by right].
    left. apply Hd. by right.
Qed.
Lemma covered_call base o : (∀ fd, o = OpTake fd → base fd) → keeps (stays_covered base) (reli_call o).
Proof.
  intros Htake s. destruct o as [name change|u|b|fd b|fd]; simpl.
  - apply wtp_mmodify. intros Hc. split; [done|by apply noted_refl].
  - unfold set_last_unit, set_unit, unless_ignored. apply wtp_bind, wtp_mget. case_match; [by apply wtp_ret|].
    apply wtp_txn. intros d (v & _ & [= <-])%bind_Some Hc. by apply covered_step.
  - apply wtp_txn. intros d (v & _ & [= <-])%bind_Some Hc. by apply covered_step.
  - apply wtp_bind, wtp_mono with (λ s' (_ : Result unit Error), stays_covered base s s');
      [|by intros s' r H; apply wtp_ret].
    destruct b; [apply covered_remove|apply covered_retain].
  - unfold fd_take. apply wtp_bind, wtp_mono with (λ s' (_ : Z), stays_covered base s s');
      [|by intros s' r H; apply wtp_ret]. apply covered_del; [|done]. right. by apply Htake.
Qed.

Lemma wtp_close_all (l : list (Z * ReliPState)) s :
  wtp (mforeach (λ '(fd, _), fd_close fd) l) s (λ s' _, rl_disk s' = rl_disk s
    ∧ ∀ fd, survives fd (rl_env s') → survives fd (rl_env s) ∧ fd ∉ l.*1).
Proof.
  apply (wtp_mforeach (λ dn s', rl_disk s' = rl_disk s
    ∧ ∀ fd, survives fd (rl_env s') → survives fd (rl_env s) ∧ fd ∉ dn.*1)).
  - split; [done|]. intros fd H. split; [done|]. apply not_elem_of_nil.
  - intros dn [fd st] rest s1 _ [Hd Hs]. unfold fd_close, sys_do. unfold wtp. simpl. split; [done|].
    intros fd' H'. destruct (fd_close_law _ _ _ _ H') as [Hne Hget].
    destruct (Hs fd' Hget) as [Ha Hb]. split; [done|]. rewrite fmap_app. simpl. set_solver.
  - done.
Qed.
(** C27: no descriptor is lost.  While the calls of [Reliability] make descriptors
    survive a restart, take that back, and hand them over to their owners - the
    descriptors [base], which others answer for - a crash can come at any point:
    once the next manager has made the pending ones consistent, the only open
    descriptors it inherits are those of [base]. *)
Theorem no_descriptor_lost base ops s : (∀ fd, OpTake fd ∈ ops → base fd) → covered base (now s) →
  wtp (mforeach reli_call ops) s (λ s' _, noted (λ p,
    ∀ r : Reliability T D St E, rl_disk r = p.1 → rl_env r = p.2 →
      wtp pending_make_consistent r (λ r' _,
        ∀ fd, survives fd (rl_env r') → base fd)) s s').
Proof.
  intros Htake Hc. apply wtp_mono with (λ s' (_ : unit), stays_covered base s s').
  - apply (wtp_mforeach (λ _ s', stays_covered base s s')); [done| |done].
    intros dn o rest s1 -> H1. eapply wtp_mono; [apply covered_call|].
    + intros fd ->. apply Htake. set_solver.
    + intros s2 [] H2. by trans s1.
  - intros s' [] H. destruct (H Hc) as [_ Hn]. eapply noted_mono; [|exact Hn].
    intros [d e] Hp r Hrd Hre. simpl in Hrd, Hre. unfold pending_make_consistent.
    apply wtp_bind, wtp_mget, wtp_bind. eapply wtp_mono; [apply wtp_close_all|].
    intros r1 [] [_ Hs]. apply wtp_txn. intros d' _ fd Hfd. simpl in Hfd.
    destruct (Hs fd Hfd) as [Hfd0 Hnot]. rewrite Hre in Hfd0. destruct (Hp fd Hfd0) as [[v Hv]|]; [|done].
    exfalso. apply Hnot. rewrite Hrd, db_iter_view. apply list_elem_of_fmap.
    exists (fd, v). split; [done|]. by apply elem_of_map_to_list.
Qed.
End descriptors.

(** ** The directory *)
Section dir.
Context `{HV : !EnvVars}.
Class FsLaws : Prop := {
  fs_created dir dir' e : fs_exists dir' e = true → fs_exists dir' (fs_create_dir_all dir e).1 = true;
  fs_create_ok dir e : (fs_create_dir_all dir e).2 = true → fs_exists dir (fs_create_dir_all dir e).1 = true;
}.
Context `{HFS : !FsLaws}.
Lemma prepare_dir_spec dir (e : E) : let r := prepare_dir dir e in
  (r.2 = Ok tt → fs_exists dir r.1 = true) ∧ ∀ dir', fs_exists dir' e = true → fs_exists dir' r.1 = true.
Proof.
  unfold prepare_dir. destruct (fs_exists dir e) eqn:He; simpl; [done|]. split; [|intros; by apply fs_created].
  destruct (fs_create_dir_all dir e).2 eqn:Hc; [|done]. intros _. by apply fs_create_ok.
Qed.
Lemma prepare_opt_spec dir (e : E) : let r := prepare_opt dir e in
  (r.2 = Ok tt → is_ok (get_dir dir r.1) = true) ∧ ∀ dir', fs_exists dir' e = true → fs_exists dir' r.1 = true.
Proof.
  destruct dir as [dir|]; simpl; [|done]. destruct (prepare_dir_spec dir e) as [H1 H2].
  split; [|done]. intros Hr. by rewrite H1.
Qed.
(** The directory that was prepared is found: the [unwrap] of [reli_prepare] does
    not panic. *)
Lemma reli_prepare_calm : calm (reli_prepare : M E _).
Proof.
  intros e. unfold reli_prepare, reli_dir_prepare.
  assert (∀ e1 : E, is_ok (reli_dir_get_run e1) = true ∨ is_ok (reli_dir_get_out e1) = true
    ∨ is_ok (reli_dir_get_customize e1) = true → ∃ d : string, reli_dir_get e1 = Ok d) as Hget.
  { intros e1. unfold reli_dir_get. destruct (reli_dir_get_run e1); [by eexists|].
    destruct (reli_dir_get_out e1); [by eexists|]. destruct (reli_dir_get_customize e1); [by eexists|]. simpl. naive_solver. }
  assert (∀ (e1 : E) (d : string), (match prepare_envs d ["enable.mdb"; "last.mdb"; "history.mdb"; "pending.mdb"] e1 with
      | (e2, Ok _) => Returned (e2, Ok d) | (e2, Err err) => Returned (e2, Err err) end
    : Outcome (E * Result string Error)) ≠ Panicked) as Hend by (intros e1 d; by destruct (prepare_envs _ _ e1) as [? []]).
  destruct (prepare_opt_spec (Some RELI_PATH_DIR) e) as [H1 _].
  change (prepare_opt (Some RELI_PATH_DIR) e) with (reli_dir_prepare_run e) in H1.
  destruct (reli_dir_prepare_run e) as [e1 [[]|err1]]; simpl in H1.
  { destruct (Hget e1) as [d ->]; [left; by apply H1|]. apply Hend. }
  destruct (prepare_opt_spec out_dir_string_get e1) as [H2 _].
  change (prepare_opt out_dir_string_get e1) with (reli_dir_prepare_out e1) in H2.
  destruct (reli_dir_prepare_out e1) as [e2 [[]|err2]]; simpl in H2.
  { destruct (Hget e2) as [d ->]; [right; left; by apply H2|]. apply Hend. }
  destruct (prepare_opt_spec (env_var "PROCESS_LIB_LOAD_PATH") e2) as [H3 _].
  change (prepare_opt (env_var "PROCESS_LIB_LOAD_PATH") e2) with (reli_dir_prepare_customize e2) in H3.
  destruct (reli_dir_prepare_customize e2) as [e3 [[]|err3]]; simpl in H3; [|done].
  destruct (Hget e3) as [d ->]; [right; right; by apply H3|]. apply Hend.
Qed.
End dir.
End facts.

(** A [ReDb] keeps the promises of a table. *)
#[export, refine] Instance redb_laws `{HI : !HashIter} `{HH : !Heed} {K V} `{Countable K} :
    TableLaws (T := ReDb K V) (D := heed_db K V) (gmap K V) := {|
  tb_content := redb_cache;
  tb_stored := db_view;
  tb_inv := redb_inv;
  tb_closed := redb_ignore;
|}.
Proof.
  - intros t d t' d' Hinv Hexp. pose proof (cache_2_db_view _ _ _ _ Hinv Hexp) as Hv. simpl in Hexp.
    unfold cache_2_db in Hexp. apply bind_Some in Hexp as (d1 & _ & Hexp).
    apply bind_Some in Hexp as (d2 & _ & Hexp). simplify_eq. split_and!; [|done|done].
    split; simpl; try set_solver. intros k _ _. by rewrite Hv.
  - intros t d. pose proof (db_2_cache_view t d) as Hv. split; [|done].
    split; try (simpl; set_solver). intros k _ _. simpl. by rewrite <-Hv.
  - intros b t d. split_and!; [done..|]. by intros [H1 H2 H3 H4].
Defined.
(** An insertion or a removal does not change a table that is closed. *)
Lemma redb_insert_closed `{Countable K} {V} k v (r : ReDb K V) : redb_ignore r = true → redb_insert k v r = r.
Proof. unfold redb_insert. by intros ->. Qed.
Lemma redb_remove_closed `{Countable K} {V} k (r : ReDb K V) : redb_ignore r = true → redb_remove k r = r.
Proof. unfold redb_remove. by intros ->. Qed.
