(* ===== verification/ReliSample.v ===== *)
(** * Reliability, on a small system

    Databases that never fail, a process with the flags of its descriptors, one
    table and one station: what the theorems of [ReliFacts.v] say of them, and the
    runs that end where the code does not mean them to. *)
From S2P Require Import Prelude UnitTypes ReDb StdString Reli ReliFacts.
Local Open Scope Z_scope.

#[local] Existing Instance hash_iter_canonical.
#[local] Instance gmap_heed : Heed := {|
  heed_db K V Heq Hc := @gmap K Heq Hc V;
  heed_ops K V Heq Hc := @gmap_HeedDb K V Heq Hc;
  heed_new K V Heq Hc := ∅ |}.

(** The open descriptors, those that are closed on exec, and the files. *)
Record Proc := { pr_flags : gmap Z bool; pr_files : gset string }.
#[local] Instance proc_sys : FdSys Proc := {|
  os_getfd fd e := match (pr_flags e !! fd : option bool) with Some b => Ok (if b then 1 else 0) | None => Err 9 end;
  os_setfd fd fl e := match pr_flags e !! fd with
    | Some _ => ({| pr_flags := <[fd:=Z.testbit fl 0]> (pr_flags e); pr_files := pr_files e |}, Ok tt)
    | None => (e, Err 9)
    end;
  os_close fd e := {| pr_flags := delete fd (pr_flags e); pr_files := pr_files e |};
  fs_exists f e := bool_decide (f ∈ pr_files e);
  fs_create f e := {| pr_flags := pr_flags e; pr_files := {[f]} ∪ pr_files e |};
  fs_create_dir_all f e := ({| pr_flags := pr_flags e; pr_files := {[f]} ∪ pr_files e |}, true);
|}.

(** One kind of station.  Its objects keep the units they compensated, and it maps
    its table by inserting what it finds, as the modules of the program do. *)
Abbreviation Tab := (ReDb string string).
Abbreviation TabDb := (heed_db string string).
Abbreviation Rl := (Reliability Tab TabDb string Proc).
Definition sample_insert (k v : string) : M Rl unit := reli_call (OpTable "jtrigger" (redb_insert k v)).
#[local] Instance sample_stations : ReStation Tab TabDb string Proc := {|
  st_input_rebuild _ := mret tt;
  st_db_compensate_last st _ lunit := match lunit with Some u => sample_insert u "merged" | None => mret tt end;
  st_db_compensate_history _ := mret tt;
  st_do_compensate_last _ _ _ := mret tt;
  st_do_compensate_others _ _ := mret tt;
  st_db_map st := sample_insert st "mapped";
|}.

Lemma sample_insert_held k v : keeps last_held (sample_insert k v).
Proof. by apply held_modify. Qed.
#[local] Instance sample_held : StationsHeld (T := Tab) (D := TabDb) (St := string) (E := Proc).
Proof.
  split; intros; simpl; repeat case_match; first [apply keeps_ret, _ | apply sample_insert_held].
Qed.
Lemma sample_insert_shielded k v : keeps shielded (sample_insert k v).
Proof.
  apply keeps_modify. intros s Hc Hi.
  assert (set_rl_dbs (alter (redb_insert k v) "jtrigger"%string (rl_dbs s)) s = s) as Hs; [|by rewrite Hs].
  destruct s as [d li hi dbs na ki e tr]. unfold set_rl_dbs. simpl. f_equal. apply map_eq. intros name.
  destruct (decide (name = "jtrigger"%string)) as [->|Hne]; [rewrite lookup_alter_eq|by rewrite lookup_alter_ne].
  destruct (dbs !! "jtrigger"%string) as [t|] eqn:Ht; [|done]. simpl. f_equal.
  apply redb_insert_closed. apply (Hc "jtrigger"%string t Ht).
Qed.
#[local] Instance sample_shielded :
  StationsShielded (T := Tab) (D := TabDb) (St := string) (E := Proc) (C := gmap string string).
Proof. split; intros; simpl; [apply keeps_ret, _|apply sample_insert_shielded]. Qed.
#[local] Instance proc_laws : FdLaws (E := Proc).
Proof.
  split; simpl.
  - intros fd fl e. case_match; [|done]. case_match; intros [= <-]; auto.
  - intros fd fl fl0 e. case_match; [|done]. intros _ Hfl. simpl. rewrite lookup_insert_eq.
    by destruct Hfl as [-> | ->].
  - intros fd fd' fl fl0 e Hne. case_match; [|done]. intros _. simpl. by rewrite lookup_insert_ne.
  - intros fd fd' fl e. simpl. rewrite lookup_delete. case_decide; [done|]. intros H'. split; [congruence|done].
Qed.

(** A manager that runs: one table, one station, one descriptor of its own. *)
Definition disk0 : Disk TabDb :=
  {| dk_enable := ∅; dk_unit := ∅; dk_frame := ∅; dk_fd := ∅; dk_tables := ∅ |}.
Definition sample_register : M Rl unit :=
  create_database "jtrigger";; history_db_register "jtrigger" ReDb_new;;
  station_register "UnitManager" Level2 "a.service"%string.
Definition reli_sample : Rl :=
  run_state (sample_register;; sample_insert "a.service" "start")
    (Reliability_start disk0 {| pr_flags := {[0 := false; 7 := true]}; pr_files := ∅ |}).
(** It crashes in the middle of an operation of the job manager. *)
Definition reli_crashed : Rl :=
  run_state (history_commit;; set_last_frame1 1;; set_last_unit "a.service";;
    sample_insert "a.service" "stop";; sample_insert "b.service" "start") reli_sample.
Definition reli_again : Rl :=
  run_state sample_register (Reliability_start (rl_disk reli_crashed) (rl_env reli_crashed)).

Lemma sample_coherent : coherent reli_sample.
Proof.
  intros name t. change (rl_dbs reli_sample) with
    ({["jtrigger"%string := redb_insert "a.service"%string "start"%string (ReDb_new : Tab)]} : gmap string Tab).
  intros [<- <-]%lookup_singleton_Some. apply redb_insert_inv. split; simpl; set_solver.
Qed.

Lemma recover_reentrant_witness :
  wtp recover reli_again (λ s' _,
    noted (λ p, words p.1 = words (rl_disk reli_again)
      ∨ dk_tables p.1 = dk_tables (rl_disk s') ∧ dk_fd p.1 = dk_fd (rl_disk s')) reli_again s'
    ∧ last_unit_of (rl_disk s') = None ∧ frames_of (rl_disk s') = vec_pop (frames_of (rl_disk reli_again))).
Proof. apply (recover_reentrant reli_again). reflexivity. Defined.



Lemma no_descriptor_lost_witness :
  wtp (mforeach reli_call [OpCloexec 7 false; OpCloexec 7 true]) reli_sample (λ s' _, noted (λ p,
    ∀ r : Rl, rl_disk r = p.1 → rl_env r = p.2 →
      wtp pending_make_consistent r (λ r' _, ∀ fd, survives fd (rl_env r') → fd = 0)) reli_sample s').
Proof.
  apply (no_descriptor_lost (λ fd, fd = 0)).
  - intros fd H. exfalso. do 2 (apply elem_of_cons in H as [H|H]; [discriminate H|]). by apply elem_of_nil in H.
  - intros fd H. right. unfold survives in H. simpl in H.
    change (rl_env reli_sample) with {| pr_flags := {[0 := false; 7 := true]}; pr_files := (∅ : gset string) |} in H.
    simpl in H. destruct (decide (fd = 0)) as [|H0]; [done|]. rewrite lookup_insert_ne in H by done.
    destruct (decide (fd = 7)) as [->|H7]; [done|]. by rewrite lookup_singleton_ne in H.
Defined.

(** The whole way: what the crash left, what the recovery makes of it. *)
Example recovery_run :
  let r := run_state recover reli_again in
  (last_unit_of (rl_disk reli_crashed), frames_of (rl_disk reli_crashed)) = (Some "a.service"%string, [(1, None, None)])
  ∧ (redb_cache <$> rl_dbs r !! "jtrigger"%string) = Some {["a.service" := "merged"]}%string
  ∧ (last_unit_of (rl_disk r), frames_of (rl_disk r)) = (None, []).
Proof. vm_compute. split_and!; reflexivity. Qed.
(** A name that is registered again keeps its old object among its kind, so the
    recovery maps an object that was replaced. *)
Example stale_station :
  let r := run_state (station_register "UnitManager" Level2 "b.service"%string) reli_sample in
  (rl_name r !! "UnitManager"%string, rl_kind r Level2 !! "UnitManager"%string)
  = (Some "b.service", Some "a.service")%string.
Proof. vm_compute. reflexivity. Qed.
