(* ===== verification/UnitFile.v ===== *)
(** * Unit files

    Where the files of a unit are: the directories that are searched
    ([libs/basic/src/path_lookup.rs]) and the maps of the fragments and the
    symbolic links of each unit ([core/bin/unit/util/unit_file.rs]).  The file
    system and the hash of the [siphasher] crate are parameters. *)
From Stdlib Require Import Ascii.
From S2P Require Import Prelude UnitTypes StdString Reli.
Local Open Scope string_scope.

(** The file system, as the lookups see it; [uf_read_dir] are the paths of the
    entries, [None] an error, and [uf_modified] is the time of a directory when
    both [metadata] and [modified] succeed. *)
Class UnitFs (E : Type) : Type := {
  uf_metadata : string → E → bool;
  uf_is_dir : string → E → bool;
  uf_is_file : string → E → bool;
  uf_is_symlink : string → E → bool;
  uf_exists : string → E → bool;
  uf_read_dir : string → E → option (list string);
  uf_canonicalize : string → E → option string;
  uf_copy : string → string → E → E;
  uf_modified : string → E → option Z;
  uf_siphash : list Z → Z;
}.

(** [Path::file_name], of a path without [..]. *)
Definition path_file_name (p : string) : option string :=
  last (filter (λ c, c ≠ "" ∧ c ≠ ".") (split_char "/"%char p)).
Definition ends_with (suffix s : string) : bool :=
  bool_decide (drop (length (chars s) - length (chars suffix)) (chars s) = chars suffix).

(** [Path::join] *)
Definition path_join (a b : string) : string :=
  if String.prefix "/" b then b else if decide (a = "") then b
  else if ends_with "/" a then a ++ b else a ++ "/" ++ b.

(** ** [LookupPaths] *)
Definition ETC_SYSTEM_PATH : string := "/etc/sysmaster".
Definition RUN_SYSTEM_PATH : string := "/run/sysmaster".
Definition LIB_SYSTEM_PATH : string := "/usr/lib/sysmaster".
Record LookupPaths := { search_path : list string; preset_path : list string; persistent_path : string }.
Definition LookupPaths_new : LookupPaths :=
  {| search_path := []; preset_path := []; persistent_path := "" |}.
Section lookup.
Context `{HV : !EnvVars}.
(** [s.split(pat)]'s first part. *)
Definition split_first (pat s : string) : string :=
  match before_pattern (chars pat) (chars s) with Some b => of_chars b | None => s end.
Definition devel_path : string :=
  let out_dir := match env_var "OUT_DIR" with
                 | Some d => d | None => default "" env_compiled_out_dir end in
  if decide (out_dir = "") then
    match env_var "LD_LIBRARY_PATH" with
    | None => ""
    | Some v => split_first "target" (split_first ":" v)
    end
  else out_dir.
Definition init_lookup_paths (l : LookupPaths) : LookupPaths :=
  let out_dir := devel_path in
  let l1 := match before_pattern (chars "build") (chars out_dir) with
            | Some b => [of_chars b] | None => [] end in
  {| search_path := search_path l ++ l1 ++ [LIB_SYSTEM_PATH; RUN_SYSTEM_PATH; ETC_SYSTEM_PATH];
     preset_path := preset_path l ++ l1 ++ [ETC_SYSTEM_PATH ++ "/" ++ "system-preset";
       LIB_SYSTEM_PATH ++ "/" ++ "system-preset"];
     persistent_path := ETC_SYSTEM_PATH |}.
End lookup.

(** ** [UnitFileData] *)
Record UnitFileData := {
  unit_id_fragment : gmap string (list string);
  unit_wants_symlink_units : gmap string (list string);
  unit_requires_symlink_units : gmap string (list string);
  last_updated_timestamp_hash : Z;
  lookup_path : LookupPaths;
}.
Definition UnitFileData_new (l : LookupPaths) : UnitFileData :=
  {| unit_id_fragment := ∅; unit_wants_symlink_units := ∅; unit_requires_symlink_units := ∅;
     last_updated_timestamp_hash := 0; lookup_path := l |}.
Definition set_fragment v (d : UnitFileData) : UnitFileData :=
  {| unit_id_fragment := v; unit_wants_symlink_units := unit_wants_symlink_units d;
     unit_requires_symlink_units := unit_requires_symlink_units d;
     last_updated_timestamp_hash := last_updated_timestamp_hash d; lookup_path := lookup_path d |}.
Definition set_wants v (d : UnitFileData) : UnitFileData :=
  {| unit_id_fragment := unit_id_fragment d; unit_wants_symlink_units := v;
     unit_requires_symlink_units := unit_requires_symlink_units d;
     last_updated_timestamp_hash := last_updated_timestamp_hash d; lookup_path := lookup_path d |}.
Definition set_requires v (d : UnitFileData) : UnitFileData :=
  {| unit_id_fragment := unit_id_fragment d; unit_wants_symlink_units := unit_wants_symlink_units d;
     unit_requires_symlink_units := v;
     last_updated_timestamp_hash := last_updated_timestamp_hash d; lookup_path := lookup_path d |}.
Definition set_timestamp v (d : UnitFileData) : UnitFileData :=
  {| unit_id_fragment := unit_id_fragment d; unit_wants_symlink_units := unit_wants_symlink_units d;
     unit_requires_symlink_units := unit_requires_symlink_units d;
     last_updated_timestamp_hash := v; lookup_path := lookup_path d |}.

Definition get_unit_id_fragment_pathbuf (name : string) (d : UnitFileData) : list string :=
  default [] (unit_id_fragment d !! name).
Definition get_unit_wants_symlink_units (name : string) (d : UnitFileData) : list string :=
  default [] (unit_wants_symlink_units d !! name).
Definition get_unit_requires_symlink_units (name : string) (d : UnitFileData) : list string :=
  default [] (unit_requires_symlink_units d !! name).

Section unit_file.
Context {E : Type} `{HF : !UnitFs E}.
Abbreviation F := (M (UnitFileData * E)).
Definition fs_ask {A} (f : E → A) : F A := mgets (λ s, f s.2).
Definition fs_do (f : E → E) : F unit := mmodify (λ s, (s.1, f s.2)).
Definition uf_modify (f : UnitFileData → UnitFileData) : F unit := mmodify (λ s, (f s.1, s.2)).

(** The entries of a directory, when it is one. *)
Definition dir_entries (dir : string) : F (list string) :=
  b ← fs_ask (uf_is_dir dir);
  if (b : bool) then l ← fs_ask (uf_read_dir dir); munwrap l else mret [].

(** One entry of [<v>/<name>.d]: it is copied beside itself, as a toml file. *)
Definition drop_in (acc : list string) (fragment : string) : F (list string) :=
  b ← fs_ask (uf_is_file fragment);
  if negb b then mret acc else
  file_name ← munwrap (path_file_name fragment);
  if String.prefix "." file_name || ends_with ".toml" file_name then mret acc else
  fs_do (uf_copy fragment (fragment ++ ".toml"));;
  mret (acc ++ [(fragment ++ ".toml")%string])%list.
Definition search_dir (name : string) (acc : list string) (v : string) : F (list string) :=
  b ← fs_ask (uf_metadata v);
  if negb b then mret acc else
  l ← dir_entries (v ++ "/" ++ name ++ ".d");
  acc ← mfold drop_in acc l;
  let path := if ends_with "/" v then v ++ name else v ++ "/" ++ name in
  ex ← fs_ask (uf_exists path);
  sl ← fs_ask (uf_is_symlink path);
  if ex && negb sl then
    fs_do (uf_copy path (path ++ ".toml"));; mret (acc ++ [(path ++ ".toml")%string])%list
  else mret acc.
Definition build_id_fragment (name : string) : F unit :=
  s ← mget;
  l ← mfold (search_dir name) [] (search_path (lookup_path s.1));
  uf_modify (λ d, set_fragment (<[name:=l]> (unit_id_fragment d)) d).

(** One entry of [<v>/<name>.<suffix>]: the file a symbolic link leads to. *)
Definition symlink_unit (acc : list string) (link : string) : F (list string) :=
  b ← fs_ask (uf_is_symlink link);
  if negb b then mret acc else
  c ← fs_ask (uf_canonicalize link);
  match c with
  | None => mret acc
  | Some abs_path => file_name ← munwrap (path_file_name abs_path); mret (acc ++ [file_name])%list
  end.
Definition symlink_units (name suffix : string) : F (list string) :=
  s ← mget;
  mfold (λ acc v, l ← dir_entries (v ++ "/" ++ name ++ "." ++ suffix); mfold symlink_unit acc l)
    [] (search_path (lookup_path s.1)).
Definition build_id_dropin (name suffix : string) : F unit :=
  l ← symlink_units name suffix;
  if decide (suffix = "wants") then
    uf_modify (λ d, set_wants (<[name:=l]> (unit_wants_symlink_units d)) d)
  else if decide (suffix = "requires") then
    uf_modify (λ d, set_requires (<[name:=l]> (unit_requires_symlink_units d)) d)
  else mpanic.

Definition lookup_paths_updated : F bool :=
  s ← mget;
  let updated := uf_siphash (omap (λ dir, uf_modified dir s.2) (search_path (lookup_path s.1))) in
  uf_modify (set_timestamp updated);;
  mret (negb (updated =? last_updated_timestamp_hash s.1)%Z).
Definition build_id_map (name : string) (has_loaded : bool) : F bool :=
  upd ← (if negb has_loaded then mret true else lookup_paths_updated);
  mwhen upd (build_id_fragment name;; build_id_dropin name "wants";;
             build_id_dropin name "requires");;
  mret false.
End unit_file.
