(* ===== verification/ExecParams.v ===== *)
(** * What a command is started with

    [core/lib/exec]: the command ([cmd.rs]), the context of the unit file and
    the parameters of one start ([base.rs]); [core/lib/unit/kill.rs]: how the
    processes of a unit are signalled; and [parse_gid] of
    [libs/basic/src/user_group_util.rs]. *)
From Stdlib Require Import Ascii.
From S2P Require Import Prelude UnitTypes Condition StdString.
Local Open Scope Z_scope.

(** ** [core/lib/exec/cmd.rs] *)
Record ExecCommand := { ec_path : string; ec_argv : list string }.

#[export] Instance ExecCommand_eq_dec : EqDecision ExecCommand.
Proof. solve_decision. Defined.

(** ** [core/lib/unit/kill.rs] *)
Inductive KillOperation :=
| KillTerminate | KillTerminateAndLog | KillRestart | KillKill | KillWatchdog | KillInvalid.
Inductive KillMode := ControlGroup | Process | Mixed.

#[export] Instance KillOperation_eq_dec : EqDecision KillOperation.
Proof. solve_decision. Defined.
#[export] Instance KillMode_eq_dec : EqDecision KillMode.
Proof. solve_decision. Defined.

(** [nix::sys::signal::Signal] as its number. *)
Abbreviation Signal := Z.
Definition SIGABRT : Signal := 6.
Definition SIGKILL : Signal := 9.
Definition SIGTERM : Signal := 15.
Definition SIGCONT : Signal := 18.

Record KillContext := { kill_mode : KillMode; kill_signal : Signal }.
Definition KillContext_default : KillContext :=
  {| kill_mode := ControlGroup; kill_signal := SIGTERM |}.

Definition to_signal (ko : KillOperation) (k : KillContext) : Signal :=
  match ko with
  | KillTerminate | KillTerminateAndLog | KillRestart => kill_signal k
  | KillKill => SIGKILL
  | KillWatchdog => SIGABRT
  | KillInvalid => SIGTERM
  end.

(** [KillMode::deserialize_with] *)
Definition KillMode_of_string (s : string) : KillMode :=
  if decide (s = "control-group") then ControlGroup
  else if decide (s = "process") then Process
  else if decide (s = "mixed") then Mixed
  else ControlGroup.

(** ** [core/lib/exec/base.rs] *)

(** What the operating system answers. A user is its uid and primary gid, a
    group its gid; an error and a missing entry are both [None], which every
    caller treats alike.  Root exists on every system. *)
Record User := { us_uid : Z; us_gid : Z }.
Class ExecEnv : Type := {
  ex_user_by_uid : Z → option User;
  ex_user_by_name : string → option User;
  ex_group_by_gid : Z → option Z;
  ex_group_by_name : string → option Z;
  ex_var : string → option string;    (* the environment of the process *)
  ex_is_dir : string → bool;
  ex_root : is_Some (ex_user_by_uid 0);
  ex_root_group : is_Some (ex_group_by_gid 0);
}.

Record ExecContext := { cx_envs : gmap string string; cx_env_files : list string }.
Definition ExecContext_new : ExecContext := {| cx_envs := ∅; cx_env_files := [] |}.
Definition insert_env (key value : string) (c : ExecContext) : ExecContext :=
  {| cx_envs := <[key:=value]> (cx_envs c); cx_env_files := cx_env_files c |}.
Definition insert_envs_files (paths : list string) (c : ExecContext) : ExecContext :=
  {| cx_envs := cx_envs c; cx_env_files := cx_env_files c ++ paths |}.

(** [bitflags! ExecFlags: u16] *)
Abbreviation ExecFlags := Z.
Definition EXEC_CONTROL : ExecFlags := Z.shiftl 1 1.
Definition EXEC_PASS_FDS : ExecFlags := Z.shiftl 1 2.
Definition EXEC_SOFT_WATCHDOG : ExecFlags := Z.shiftl 1 3.
Definition flags_contains (a b : ExecFlags) : bool := Z.land a b =? b.

Record ExecParameters := {
  ep_env : gmap string string;
  ep_fds : list Z;
  ep_notify_sock : option string;
  ep_working_directory : option string;
  ep_user : option User;
  ep_group : option Z;
  ep_umask : option Z;
  ep_watchdog_usec : Z;
  ep_flags : ExecFlags;
}.
Definition ExecParameters_new : ExecParameters := {|
  ep_env := ∅; ep_fds := []; ep_notify_sock := None; ep_working_directory := None;
  ep_user := None; ep_group := None; ep_umask := None; ep_watchdog_usec := 0;
  ep_flags := EXEC_CONTROL |}.

Definition ep_upd (p : ExecParameters) env fds sock wd user group umask usec flags
    : ExecParameters :=
  {| ep_env := default (ep_env p) env; ep_fds := default (ep_fds p) fds;
     ep_notify_sock := default (ep_notify_sock p) sock;
     ep_working_directory := default (ep_working_directory p) wd;
     ep_user := default (ep_user p) user; ep_group := default (ep_group p) group;
     ep_umask := default (ep_umask p) umask;
     ep_watchdog_usec := default (ep_watchdog_usec p) usec;
     ep_flags := default (ep_flags p) flags |}.

Definition add_env (key value : string) (p : ExecParameters) : ExecParameters :=
  ep_upd p (Some (<[key:=value]> (ep_env p))) None None None None None None None None.
Definition insert_fds (fds : list Z) (p : ExecParameters) : ExecParameters :=
  ep_upd p None (Some fds) None None None None None None None.
Definition set_notify_sock (sock : string) (p : ExecParameters) : ExecParameters :=
  ep_upd p None None (Some (Some sock)) None None None None None None.
Definition set_watchdog_usec (usec : Z) (p : ExecParameters) : ExecParameters :=
  ep_upd p None None None None None None None (Some usec) None.
Definition set_exec_flags (flags : ExecFlags) (p : ExecParameters) : ExecParameters :=
  ep_upd p None None None None None None None None (Some flags).
Definition set_user (u : option User) (p : ExecParameters) : ExecParameters :=
  ep_upd p None None None None (Some u) None None None None.
Definition set_group (g : option Z) (p : ExecParameters) : ExecParameters :=
  ep_upd p None None None None None (Some g) None None None.
Definition set_umask (m : option Z) (p : ExecParameters) : ExecParameters :=
  ep_upd p None None None None None None (Some m) None None.
Definition set_working_directory (d : string) (p : ExecParameters) : ExecParameters :=
  ep_upd p None None None (Some (Some d)) None None None None None.

(** The error of the [add_*] functions. *)
Definition InvalidData : Error := ErrOther "InvalidData".

(** The numeric ids: [parse_uid] and [parse_gid] are this function over the
    user and over the group database. *)
Definition parse_id {A} (lookup : Z → option A) (id_str : string) : option A :=
  match chars id_str with
  | [] => None
  | c :: cs =>
    if decide (id_str = "0") then lookup 0
    else if is_digit c && negb (Ascii.eqb c "0"%char) && forallb is_digit cs then
      let id := digits_value (c :: cs) in
      if u32_max <? id then None else lookup id
    else None
  end.

Lemma parse_uid_id `{!CondEnv} s : parse_uid s = parse_id env_user_by_uid s.
Proof. done. Qed.

Section params.
Context `{HE : !ExecEnv}.
Implicit Types (p : ExecParameters).

Definition parse_gid (gid_str : string) : option Z := parse_id ex_group_by_gid gid_str.

Definition add_user (user_str : string) p : ExecParameters * Result unit Error :=
  if decide (user_str = "") then (set_user (ex_user_by_uid 0) p, Ok tt) else
  match parse_id ex_user_by_uid user_str with
  | Some user => (set_user (Some user) p, Ok tt)
  | None =>
    match ex_user_by_name user_str with
    | Some user => (set_user (Some user) p, Ok tt)
    | None => (p, Err InvalidData)
    end
  end.

(** [None] is the [assert!] that the user was added first. *)
Definition add_group (group_str : string) p : option (ExecParameters * Result unit Error) :=
  user ← ep_user p;
  Some (if decide (group_str = "") then (set_group (ex_group_by_gid (us_gid user)) p, Ok tt) else
  match parse_gid group_str with
  | Some group => (set_group (Some group) p, Ok tt)
  | None =>
    match ex_group_by_name group_str with
    | Some group => (set_group (Some group) p, Ok tt)
    | None => (p, Err InvalidData)
    end
  end).

(** [Mode::from_bits]: nothing if a bit is not a permission bit. *)
Definition Mode_from_bits (m : Z) : option Z := if Z.land m (Z.lnot 4095) =? 0 then Some m else None.
Definition octal_char (c : Ascii.ascii) : bool :=
  let n := Ascii.nat_of_ascii c in (48 <=? n)%nat && (n <? 56)%nat.

Definition add_umask (umask_str : string) p : ExecParameters * Result unit Error :=
  let umask_str := if decide (umask_str = "") then "0022"%string else umask_str in
  if negb (forallb octal_char (chars umask_str)) then (p, Err InvalidData) else
  match parse_unsigned 8 u32_max umask_str with
  | None => (p, Err InvalidData)
  | Some v => (set_umask (Mode_from_bits v) p, Ok tt)
  end.

Fixpoint trim_dashes (cs : list Ascii.ascii) : list Ascii.ascii :=
  match cs with "-"%char :: cs' => trim_dashes cs' | _ => cs end.

Definition add_working_directory (dir : string) p : ExecParameters * Result unit Error :=
  if decide (dir = "") then (p, Ok tt) else
  let miss_ok := match chars dir with "-"%char :: _ => true | _ => false end in
  let dir := of_chars (trim_dashes (chars dir)) in
  match (if decide (dir = "~"%string) then ex_var "HOME" else Some dir) with
  | None => (p, Err (ErrOther "VarError"))
  | Some dir =>
    if negb (ex_is_dir dir) then (if miss_ok then (p, Ok tt) else (p, Err InvalidData))
    else (set_working_directory dir p, Ok tt)
  end.
End params.
