(* ===== verification/Spawn.v ===== *)
(** * Starting a process

    [core/bin/unit/execute/spawn.rs], with [ExecContext::load_env_from_file] of
    [core/lib/exec/base.rs] and the functions on descriptors of
    [libs/basic/src/fd_util.rs]: the fork, what the child does before it becomes the
    command, and the descriptors it hands over.  The kernel and the regular expression
    of the variables (the regex crate) are parameters; a C string is a string without
    a NUL.  The environment of the parameters is shared ([Rc<EnvData>]), so it is part
    of the state of the child. *)
From Stdlib Require Import Ascii.
From S2P Require Import Prelude UnitTypes Condition StdString StdNet ExecParams.
Local Open Scope Z_scope.

(** ** What the kernel is asked for

    A descriptor call answers [None] or [false] for an error; [fo_walk] are the entries
    of a walk below a directory, with their paths and names, [None] an error. *)
Class FdOs (E : Type) : Type := {
  fo_dupfd : Z → Z → E → E * option Z;
  fo_close : Z → E → E * bool;
  fo_getfl : Z → E → option Z;
  fo_setfl : Z → Z → E → E * bool;
  fo_getfd : Z → E → option Z;
  fo_setfd : Z → Z → E → E * bool;
  fo_walk : string → E → list (option (string * string));
  fo_read_link : string → E → option string;
  fo_getpid : E → Z;
}.
(** The other calls: [true] is success. *)
Class ProcOs (E : Type) : Type := {
  po_fork : E → E * option (option Z);                       (* [Some None]: the child *)
  po_cg_attach : Z → string → E → E * bool;
  po_sigmask_empty : E → E * bool;
  po_setresgid : Z → E → E * bool;
  po_setresuid : Z → E → E * bool;
  po_chdir : string → E → E * bool;
  po_umask : Z → E → E;
  po_exists : string → E → bool;
  po_lines : string → E → option (list (option string));
  po_user_name : User → string;
  po_execve : string → list string → list string → E → bool;  (* [false]: it returns *)
}.
Class VarRegex : Type := {
  vr_captures : string → option (option string * option string);
  vr_replace : string → string → string;
}.

(** ** [fd_util] *)
Definition O_NONBLOCK : Z := 2048.
Definition FD_CLOEXEC : Z := 1.
Section fds.
Context {E : Type} `{HF : !FdOs E}.
Abbreviation X := (M E).
Definition os_ask {A} (f : E → A) : X A := mgets f.
Definition os_call {A} (f : E → E * A) : X A := s ← mget; let x := f s in mmodify (λ _, x.1);; mret x.2.
Definition ok_or_err (b : bool) : Result unit unit := if b then Ok tt else Err tt.
Definition fd_nonblock (fd : Z) (nonblock : bool) : X (Result unit unit) :=
  massert (0 <=? fd);;
  flags ← os_ask (fo_getfl fd);
  match flags with
  | None => mret (Err tt)
  | Some flags =>
    let n_block := if nonblock then O_NONBLOCK else Z.lnot O_NONBLOCK in
    b ← os_call (fo_setfl fd (Z.land flags n_block)); mret (ok_or_err b)
  end.
Definition fd_cloexec (fd : Z) (cloexec : bool) : X (Result unit unit) :=
  massert (0 <=? fd);;
  flags ← os_ask (fo_getfd fd);
  match flags with
  | None => mret (Err tt)
  | Some flags =>
    let nflag := if cloexec then Z.lor flags FD_CLOEXEC else Z.land flags (Z.lnot FD_CLOEXEC) in
    b ← os_call (fo_setfd fd nflag); mret (ok_or_err b)
  end.
(** A failure is logged. *)
Definition close (fd : Z) : X unit := os_call (fo_close fd);; mret tt.

(** ** The descriptors of the child *)

(** [is_valid_fd] answers true for what is {e not} a descriptor to close. *)
Definition is_valid_fd (file_name : string) : bool :=
  match parse_i32 file_name with None => true | Some fd => fd <? 3 end.
Definition close_entry (fds : list Z) (opend_dir : string) (entry : option (string * string)) : X unit :=
  match entry with
  | None => mret tt
  | Some (path, file_name) =>
    if is_valid_fd file_name then mret tt else
    fd ← munwrap (parse_i32 file_name);
    if decide (fd ∈ fds) then mret tt else
    link_name ← os_ask (fo_read_link path);
    if decide (path_parts (default "" link_name) = path_parts opend_dir)%string then mret tt else close fd
  end.
Definition close_all_fds (fds : list Z) : X bool :=
  pid ← os_ask fo_getpid;
  l ← os_ask (fo_walk "/proc/self/fd");
  mforeach (close_entry fds ("/proc/" ++ show_int pid ++ "/fd")%string) l;;
  mret true.

(** One place: the descriptors, and the first place that has to be tried again;
    [None] is [return false]. *)
Definition shift_one (i : nat) (st : list Z * option nat) : X (option (list Z * option nat)) :=
  let '(fds, restart) := st in
  fd ← munwrap (fds !! i);
  if decide (fd = Z.of_nat i + 3) then mret (Some (fds, restart)) else
  nfd ← os_call (fo_dupfd fd (Z.of_nat i + 3));
  match nfd with
  | None => mret None
  | Some nfd =>
    close fd;;
    let again := negb (bool_decide (nfd = Z.of_nat i + 3)) && negb (is_some restart) in
    mret (Some (<[i:=nfd]> fds, if again then Some i else restart))
  end.
(** [for i in start..len], for [k] places. *)
Fixpoint shift_pass (k i : nat) (st : list Z * option nat) : X (option (list Z * option nat)) :=
  match k with
  | O => mret (Some st)
  | S k' =>
    r ← shift_one i st;
    match r with None => mret None | Some st => shift_pass k' (S i) st end
  end.
Fixpoint shift_from (fuel start : nat) (fds : list Z) : X (bool * list Z) :=
  match fuel with
  | O => mnofuel
  | S fuel' =>
    r ← shift_pass (length fds - start) start (fds, None);
    match r with
    | None => mret (false, fds)
    | Some (fds, None) => mret (true, fds)
    | Some (fds, Some start) => shift_from fuel' start fds
    end
  end.
Definition shift_fds (fds : list Z) : X (bool * list Z) := shift_from (length fds + 2) 0 fds.
Fixpoint flags_fds (fds : list Z) : X bool :=
  match fds with
  | [] => mret true
  | fd :: fds' =>
    a ← fd_nonblock fd false;
    if is_err a then mret false else
    b ← fd_cloexec fd false;
    if is_err b then mret false else flags_fds fds'
  end.
(** The three steps of [exec_child]: whether they succeed. *)
Definition hand_over (fds : list Z) : X bool :=
  ret ← close_all_fds fds;
  if negb ret then mret false else
  r ← shift_fds fds;
  if negb r.1 then mret false else
  flags_fds r.2.
End fds.

(** ** The child *)

(** What becomes of it: it is the command, or it exits. *)
Inductive ChildEnd := Execve (cmd : string) (args envs : list string) | Exit (code : Z).
Record ChildSt (E : Type) := { ch_os : E; ch_ctx : ExecContext; ch_params : ExecParameters }.
Arguments ch_os {E}. Arguments ch_ctx {E}. Arguments ch_params {E}. Arguments Build_ChildSt {E}.

Section child.
Context `{HI : !HashIter} {E : Type} `{HF : !FdOs E} `{HP : !ProcOs E} `{HV : !VarRegex}.
Abbreviation C := (M (ChildSt E)).
Definition child_os {A} (m : M E A) : C A :=
  mzoom ch_os (λ e s, {| ch_os := e; ch_ctx := ch_ctx s; ch_params := ch_params s |}) m.
Definition child_call {A} (f : E → E * A) : C A := child_os (os_call f).
Definition params_modify (f : ExecParameters → ExecParameters) : C unit :=
  mmodify (λ s, {| ch_os := ch_os s; ch_ctx := ch_ctx s; ch_params := f (ch_params s) |}).
Definition ctx_modify (f : ExecContext → ExecContext) : C unit :=
  mmodify (λ s, {| ch_os := ch_os s; ch_ctx := f (ch_ctx s); ch_params := ch_params s |}).

Definition apply_user_and_group (user : option User) (group : option Z) : C bool :=
  match user, group with
  | None, _ | _, None => mret false
  | Some user, Some group =>
    if (us_uid user =? 0) && (group =? 0) then mret true else
    g ← child_call (po_setresgid group);
    if negb (g : bool) then mret false else
    params_modify (add_env "LOGNAME" (po_user_name user));;
    params_modify (add_env "USER" (po_user_name user));;
    child_call (po_setresuid (us_uid user))
  end.
Definition apply_working_directory (working_directory : option string) : C bool :=
  match working_directory with None => mret true | Some d => child_call (po_chdir d) end.
Definition apply_umask (umask : option Z) : C bool :=
  match umask with
  | None => mret false
  | Some m => child_os (mmodify (po_umask m));; mret true
  end.

(** [ExecContext::load_env_from_file] *)
Definition env_line (line : string) : C unit :=
  if str_starts_with "#" (trim line) then mret tt else
  match trim <$> split_char "="%char line with
  | [key; value] => ctx_modify (insert_env key value)
  | _ => mret tt
  end.
Fixpoint env_files (paths : list string) : C bool :=
  match paths with
  | [] => mret true
  | path :: paths' =>
    s ← mget;
    if path_starts_with "-" path then env_files paths' else
    if negb (po_exists path (ch_os s)) || negb (String.prefix "/" path) then env_files paths' else
    match po_lines path (ch_os s) with
    | None => mret false
    | Some l => mforeach env_line (omap id l);; env_files paths'
    end
  end.
Definition load_env_from_file : C bool := s ← mget; env_files (cx_env_files (ch_ctx s)).

(** [CString::new(s).unwrap()] *)
Definition cstring (s : string) : C string := massert (negb (bool_decide ("000"%char ∈ chars s)));; mret s.
Fixpoint trim_left_char (c : ascii) (cs : list ascii) : list ascii :=
  match cs with [] => [] | x :: cs' => if Ascii.eqb c x then trim_left_char c cs' else cs end.
Definition trim_matches (c : ascii) (s : string) : string :=
  of_chars (rev (trim_left_char c (rev (trim_left_char c (chars s))))).
Definition var_name (val : string) : string := trim_matches "}" (trim_matches "{" (trim_matches "$" val)).
(** One argument: with a variable it is replaced, and dropped where the variable has no
    value. *)
Definition build_arg (args : list string) (arg : string) : C (list string) :=
  match vr_captures arg with
  | Some (g1, g2) =>
    match (match g1 with Some m => Some m | None => g2 end) with
    | None => mret args
    | Some val =>
      s ← mget;
      match ep_env (ch_params s) !! var_name val with
      | Some target => a ← cstring (vr_replace arg target); mret (args ++ [a])
      | None => mret args
      end
    end
  | None => a ← cstring arg; mret (args ++ [a])
  end.
Definition build_run_args (cmdline : ExecCommand) : C (string * list string) :=
  cmd ← cstring (ec_path cmdline);
  exec_name ← cstring (ec_path cmdline);
  args ← mfold build_arg [exec_name] (ec_argv cmdline);
  mret (cmd, args).
Definition build_environment : C (list string) :=
  s ← mget;
  let ep := ch_params s in
  let pid := show_int (fo_getpid (ch_os s)) in
  let fds := length (ep_fds ep) in
  let listen := if (0 <? fds)%nat then ["LISTEN_PID=" ++ pid; "LISTEN_FDS=" ++ show_uint (Z.of_nat fds)]%string else [] in
  let watchdog := if flags_contains (ep_flags ep) EXEC_SOFT_WATCHDOG && (0 <? ep_watchdog_usec ep)
                  then ["WATCHDOG_PID=" ++ pid; "WATCHDOG_USEC=" ++ show_uint (ep_watchdog_usec ep)]%string else [] in
  mret (listen ++ watchdog).
Definition params_envs : C (list string) :=
  s ← mget;
  mfold (λ envs kv, e ← cstring (kv.1 ++ "=" ++ kv.2)%string; mret (envs ++ [e])) [] (hm_iter (ep_env (ch_params s))).

(** The steps in front of the command: a step that fails ends the child, as a success. *)
Definition then_child (m : C bool) (k : C ChildEnd) : C ChildEnd := b ← m; if (b : bool) then k else mret (Exit 0).
Definition exec_child (cmdline : ExecCommand) : C ChildEnd :=
  s ← mget;
  let p := ch_params s in
  then_child (apply_user_and_group (ep_user p) (ep_group p)) (
  then_child (apply_working_directory (ep_working_directory p)) (
  then_child (apply_umask (ep_umask p)) (
  then_child load_env_from_file (
  s ← mget;
  mforeach (λ kv, params_modify (add_env kv.1 kv.2)) (hm_iter (cx_envs (ch_ctx s)));;
  x ← build_run_args cmdline;
  envs ← build_environment;
  more ← params_envs;
  then_child (child_os (hand_over (ep_fds p))) (
  taken ← child_os (os_ask (po_execve x.1 x.2 (envs ++ more)));
  mret (if (taken : bool) then Execve x.1 x.2 (envs ++ more) else Exit 1)))))).
(** The child of a fork. *)
Definition child_main (cmdline : ExecCommand) : C ChildEnd :=
  child_call po_sigmask_empty;;
  exec_child cmdline.
(** [ExecSpawn::spawn] in the manager; the end of the child is the other branch. *)
Inductive Spawned := SpawnParent (r : Result Z unit) | SpawnChild (e : ChildEnd).
Definition spawn (cg_path : string) (cmdline : ExecCommand) : C Spawned :=
  r ← child_call po_fork;
  match r with
  | Some (Some child) =>
    ok ← child_call (po_cg_attach child cg_path);
    mret (SpawnParent (if (ok : bool) then Ok child else Err tt))
  | Some None => e ← child_main cmdline; mret (SpawnChild e)
  | None => mret (SpawnParent (Err tt))
  end.
End child.

(** * Starting a process: what is shown

    Over a kernel that keeps the documented behaviour of descriptors ([FdLaws]): the
    command finds its descriptors at 3, 4, .. in their order and nothing else above 2. *)

(** The open descriptors with what they refer to ([fd_table]), the flags of a descriptor
    and the status flags of a file.  [F_DUPFD] takes the lowest free descriptor from its
    argument on; the walk of /proc/self/fd names every open descriptor, besides the one
    of the walk itself. *)
Class FdLaws (E : Type) `{HF : !FdOs E} : Type := {
  fd_table : E → gmap Z nat;
  fd_flags : E → Z → Z;
  fd_status : E → nat → Z;
  fd_dup_some fd low e n : (fo_dupfd fd low e).2 = Some n → ∃ f, fd_table e !! fd = Some f ∧ low ≤ n
    ∧ fd_table e !! n = None ∧ (∀ m, low ≤ m < n → is_Some (fd_table e !! m))
    ∧ fd_table (fo_dupfd fd low e).1 = <[n:=f]> (fd_table e);
  fd_dup_none fd low e : (fo_dupfd fd low e).2 = None → (fo_dupfd fd low e).1 = e;
  fd_close_table fd e : fd_table (fo_close fd e).1 = delete fd (fd_table e);
  fd_getfl_status fd f e : fd_table e !! fd = Some f → fo_getfl fd e = Some (fd_status e f);
  fd_setfl_fail fd v e : (fo_setfl fd v e).2 = false → (fo_setfl fd v e).1 = e;
  fd_setfd_fail fd v e : (fo_setfd fd v e).2 = false → (fo_setfd fd v e).1 = e;
  fd_setfl_table fd v e : fd_table (fo_setfl fd v e).1 = fd_table e ∧ ∀ d, fd_flags (fo_setfl fd v e).1 d = fd_flags e d;
  fd_setfl_status fd f v e : fd_table e !! fd = Some f → (fo_setfl fd v e).2 = true →
    ∀ g, fd_status (fo_setfl fd v e).1 g = if decide (g = f) then v else fd_status e g;
  fd_getfd_flags fd f e : fd_table e !! fd = Some f → fo_getfd fd e = Some (fd_flags e fd);
  fd_setfd_table fd v e : fd_table (fo_setfd fd v e).1 = fd_table e ∧ ∀ g, fd_status (fo_setfd fd v e).1 g = fd_status e g;
  fd_setfd_flags fd v e : (fo_setfd fd v e).2 = true → ∀ d, fd_flags (fo_setfd fd v e).1 d = if decide (d = fd) then v else fd_flags e d;
  fd_walk_all e fd : 3 ≤ fd → is_Some (fd_table e !! fd) → ∃ path name, Some (path, name) ∈ fo_walk "/proc/self/fd" e ∧ parse_i32 name = Some fd;
  fd_walk_link e path name fd l : Some (path, name) ∈ fo_walk "/proc/self/fd" e → parse_i32 name = Some fd → is_Some (fd_table e !! fd) →
    fo_read_link path e = Some l → path_parts l ≠ path_parts ("/proc/" ++ show_int (fo_getpid e) ++ "/fd");
  fd_close_read fd e path : fo_read_link path (fo_close fd e).1 = fo_read_link path e ∨ fo_read_link path (fo_close fd e).1 = None;
}.

Section facts.
Context {E : Type} `{HF : !FdOs E} `{HL : !FdLaws E}.
Implicit Types (e : E) (fds l : list Z).

Lemma wp_os_ask {A} (f : E → A) e Q : wp (os_ask f) e Q ↔ Q e (f e).
Proof. done. Qed.
Lemma wp_os_call {A} (f : E → E * A) e Q : wp (os_call f) e Q ↔ Q (f e).1 (f e).2.
Proof. done. Qed.
(** No call on an open descriptor fails. *)
Record no_failure : Prop := {
  nf_dup fd low e : is_Some (fd_table e !! fd) → (fo_dupfd fd low e).2 ≠ None;
  nf_setfl fd v e : is_Some (fd_table e !! fd) → (fo_setfl fd v e).2 = true;
  nf_setfd fd v e : is_Some (fd_table e !! fd) → (fo_setfd fd v e).2 = true;
}.

(** ** Closing *)
Definition kept (fds : list Z) (d : Z) : Prop := d < 3 ∨ d ∈ fds.
Record closing (fds : list Z) (e : E) (dn : list (option (string * string))) (e' : E) : Prop := {
  cl_sub d : fd_table e' !! d = None ∨ fd_table e' !! d = fd_table e !! d;
  cl_kept d : kept fds d → fd_table e' !! d = fd_table e !! d;
  cl_read path : fo_read_link path e' = fo_read_link path e ∨ fo_read_link path e' = None;
  cl_done path name d : Some (path, name) ∈ dn → parse_i32 name = Some d → ¬ kept fds d → fd_table e' !! d = None;
}.
Lemma closing_skip fds e dn x e' : closing fds e dn e' →
  (∀ path name d, x = Some (path, name) → parse_i32 name = Some d → ¬ kept fds d → fd_table e' !! d = None) →
  closing fds e (dn ++ [x]) e'.
Proof.
  intros [H1 H2 H3 H4] Hx. split; [done..|]. intros path name d [Hin|Hin%list_elem_of_singleton]%elem_of_app; [by eapply H4|by eapply Hx].
Qed.
Lemma wp_close_entry fds e dn x e' : x ∈ fo_walk "/proc/self/fd" e → closing fds e dn e' →
  wp (close_entry fds ("/proc/" ++ show_int (fo_getpid e) ++ "/fd") x) e' (λ e2 _, closing fds e (dn ++ [x]) e2).
Proof.
  intros Hin Hc. unfold close_entry. destruct x as [[path name]|]; [|by apply wp_ret, closing_skip].
  unfold is_valid_fd. destruct (parse_i32 name) as [fd|] eqn:Hp; [|apply wp_ret, closing_skip; [done|]; intros ? ? ? [= <- <-]; congruence].
  destruct (fd <? 3) eqn:H3; [apply wp_ret, closing_skip; [done|]; intros ? ? ? [= <- <-] ? Hk; simplify_eq; destruct Hk; left; lia|].
  apply wp_bind, wp_munwrap. exists fd. split; [done|]. case_decide as Hfd.
  { apply wp_ret, closing_skip; [done|]. intros ? ? ? [= <- <-] ? Hk. simplify_eq. destruct Hk. by right. }
  apply wp_bind, wp_os_ask. case_decide as Hl.
  - apply wp_ret, closing_skip; [done|]. intros ? ? d [= <- <-] Hd _. assert (d = fd) as -> by congruence.
    destruct (cl_sub _ _ _ _ Hc fd) as [?|He]; [done|]. rewrite He. apply eq_None_not_Some. intros Hs.
    destruct (cl_read _ _ _ _ Hc path) as [Hr|Hr]; rewrite Hr in Hl; [|done].
    destruct (fo_read_link path e) as [lk|] eqn:Hlk; [|done].
     by eapply (fd_walk_link e path name fd lk).
  - unfold close. apply wp_bind, wp_os_call, wp_ret. destruct Hc as [C1 C2 C3 C4]. split.
    + intros d. rewrite fd_close_table. destruct (decide (fd = d)) as [<-|Hne]; [left; apply lookup_delete_eq|]. rewrite lookup_delete_ne by done. apply C1.
    + intros d Hk. rewrite fd_close_table, lookup_delete_ne; [by apply C2|]. intros <-. destruct Hk; [lia|done].
    + intros q. destruct (fd_close_read fd e' q) as [-> | ->]; [apply C3|by right].
    + intros q nm d [Hq|Hq%list_elem_of_singleton]%elem_of_app Hd Hk; rewrite fd_close_table.
      * rewrite lookup_delete_None. right. by eapply C4.
      * simplify_eq. apply lookup_delete_eq.
Qed.
Lemma wp_close_all fds e : wp (close_all_fds fds) e (λ e' b, b = true
  ∧ (∀ d, kept fds d → fd_table e' !! d = fd_table e !! d) ∧ ∀ d, ¬ kept fds d → fd_table e' !! d = None).
Proof.
  unfold close_all_fds. apply wp_bind, wp_os_ask, wp_bind, wp_os_ask, wp_bind.
  apply (wp_mforeach (closing fds e)).
  - split; [by right|done|by left|]. intros ? ? ? Hx. by apply elem_of_nil in Hx.
  - intros dn x rest e' Hl Hc. apply wp_close_entry; [|done]. rewrite Hl. apply elem_of_app. right. by left.
  - intros e' [H1 H2 H3 H4]. apply wp_ret. split_and!; [done..|]. intros d Hd.
    destruct (fd_table e !! d) as [f|] eqn:Hf; [|destruct (H1 d); [done|congruence]].
    destruct (fd_walk_all e d) as (path & name & Hin & Hp); [|by eexists|by eapply H4].
    destruct (decide (3 ≤ d)); [done|]. destruct Hd. left. lia.
Qed.

(** ** Shifting *)

(** The descriptors [l] refer to what those of [fds] referred to in [e0]; above 2 nothing
    else is open. *)
Record shifted (e0 : E) (fds l : list Z) (e : E) : Prop := {
  sh_length : length l = length fds;
  sh_place i d d0 : l !! i = Some d → fds !! i = Some d0 → 3 ≤ d ∧ is_Some (fd_table e !! d) ∧ fd_table e !! d = fd_table e0 !! d0;
  sh_nodup : NoDup l;
  sh_only d : 3 ≤ d → is_Some (fd_table e !! d) → d ∈ l;
  sh_low d : d < 3 → fd_table e !! d = fd_table e0 !! d;
}.
Abbreviation at_place i := (Z.of_nat i + 3).
Lemma elem_lookup_ne l i j d : NoDup l → l !! i = Some d → l !! j = Some d → i = j.
Proof. apply NoDup_lookup. Qed.
(** A descriptor moves to a new place. *)
Lemma shifted_move e0 fds l e e2 i d n f : shifted e0 fds l e → l !! i = Some d → fd_table e !! d = Some f → n ∉ l → 3 ≤ n →
  (∀ x, fd_table e2 !! x = if decide (x = d) then None else if decide (x = n) then Some f else fd_table e !! x) →
  shifted e0 fds (<[i:=n]> l) e2.
Proof.
  intros [S1 S2 S3 S4 S5] Hd Hf Hnl Hn3 Ht. assert (i < length l)%nat as Hi by by eapply lookup_lt_Some.
  assert (n ≠ d) as Hnd by (intros ->; apply Hnl; by eapply list_elem_of_lookup_2). 
  assert (∃ d0, fds !! i = Some d0) as [d0 Hd0] by (apply lookup_lt_is_Some_2; by rewrite <- S1).
  destruct (S2 i d d0 Hd Hd0) as (Hd3 & _ & Hfile).
  split.
  - by rewrite length_insert.
  - intros j x x0 Hj Hx0. rewrite Ht. destruct (decide (j = i)) as [->|Hji].
    + rewrite list_lookup_insert_eq in Hj by done. simplify_eq. rewrite decide_False, decide_True by done. split_and!; [done|by eexists|congruence].
    + rewrite list_lookup_insert_ne in Hj by done. destruct (S2 j x x0 Hj Hx0) as (? & ? & ?).
      rewrite !decide_False; [done| |]; [intros ->; apply Hnl; by eapply list_elem_of_lookup_2|].
      intros ->. apply Hji. by eapply elem_lookup_ne.
  - apply NoDup_alt. intros j k x Hj Hk. destruct (decide (j = i)) as [->|Hji], (decide (k = i)) as [->|Hki]; [done|..].
    + rewrite list_lookup_insert_eq in Hj by done. rewrite list_lookup_insert_ne in Hk by done. simplify_eq. destruct Hnl. by eapply list_elem_of_lookup_2.
    + rewrite list_lookup_insert_eq in Hk by done. rewrite list_lookup_insert_ne in Hj by done. simplify_eq. destruct Hnl. by eapply list_elem_of_lookup_2.
    + rewrite list_lookup_insert_ne in Hj, Hk by done. by eapply elem_lookup_ne.
  - intros x Hx. rewrite Ht. case_decide as H1; [by intros []|]. case_decide as H2.
    + intros _. subst x. apply list_elem_of_lookup. exists i. by apply list_lookup_insert_eq.
    + intros Hso. apply S4 in Hso; [|done]. apply list_elem_of_lookup in Hso as [j Hj]. apply list_elem_of_lookup. exists j.
      rewrite list_lookup_insert_ne; [done|]. intros <-. congruence.
  - intros x Hx. rewrite Ht, !decide_False by lia. by apply S5.
Qed.
(** One place: it is right afterwards if it was free, and otherwise goes above. *)
Lemma wp_shift_one e0 fds l rs i e : shifted e0 fds l e → (i < length l)%nat →
  wp (shift_one i (l, rs)) e (λ e' r,
    match r with
    | None => ¬ no_failure
    | Some (l', rs') => shifted e0 fds l' e' ∧ (∀ j, j ≠ i → l' !! j = l !! j)
      ∧ ∃ d, l' !! i = Some d ∧ at_place i ≤ d ∧ (at_place i ∉ l → d = at_place i)
         ∧ rs' = (if decide (d = at_place i) then rs else match rs with Some x => Some x | None => Some i end)
    end).
Proof.
  intros Hs Hi. unfold shift_one. destruct (lookup_lt_is_Some_2 l i Hi) as [d Hd]. apply wp_bind, wp_munwrap. exists d. split; [done|].
  case_decide as Heq.
  { apply wp_ret. split_and!; [done..|]. exists d. split_and!; [done|lia|done|]. by rewrite decide_True. }
  assert (∃ d0, fds !! i = Some d0) as [d0 Hd0] by (apply lookup_lt_is_Some_2; by rewrite <- (sh_length _ _ _ _ Hs)).
  destruct (sh_place _ _ _ _ Hs i d d0 Hd Hd0) as (Hd3 & Hop & Hfile).
  apply wp_bind, wp_os_call. destruct (fo_dupfd d (at_place i) e).2 as [n|] eqn:Hn;
    [|apply wp_ret; intros Hnf; by apply (nf_dup Hnf d (at_place i) e Hop)].
  destruct (fd_dup_some _ _ _ _ Hn) as (f & Hf & Hlow & Hfree & Hfirst & Htab).
  apply wp_bind. unfold close. apply wp_bind, wp_os_call, wp_ret, wp_ret. set (e1 := (fo_dupfd _ _ e).1) in *.
  assert (n ∉ l) as Hnl.
  { intros [j Hj]%list_elem_of_lookup. assert (∃ dj, fds !! j = Some dj) as [dj Hdj]
      by (apply lookup_lt_is_Some_2; rewrite <- (sh_length _ _ _ _ Hs); by eapply lookup_lt_Some).
    destruct (sh_place _ _ _ _ Hs j n dj Hj Hdj) as (_ & [g Hg] & _). congruence. }
  split_and!; [|intros j Hj; by apply list_lookup_insert_ne|].
  - apply (shifted_move e0 fds l e _ i d n f); [done..|lia|]. intros x. rewrite fd_close_table, Htab.
    destruct (decide (x = d)) as [->|Hx]; [apply lookup_delete_eq|]. rewrite lookup_delete_ne by done.
    destruct (decide (x = n)) as [->|?]; [apply lookup_insert_eq|by rewrite lookup_insert_ne].
  - exists n. split_and!; [by apply list_lookup_insert_eq|done| |].
    + intros Hni. destruct (decide (n = at_place i)) as [?|Hne]; [done|]. destruct Hni. apply (sh_only _ _ _ _ Hs); [lia|]. apply Hfirst. lia.
    + destruct (decide (n = at_place i)) as [->|Hne]; [by rewrite bool_decide_true|]. rewrite bool_decide_false by done. by destruct rs.
Qed.
(** A pass: the places in front of the one to try again are right, and it is free. *)
Definition settled_to (l : list Z) (k : nat) : Prop := ∀ j, (j < k)%nat → l !! j = Some (at_place j).
Definition passed (lo i : nat) (l : list Z) (rs : option nat) : Prop :=
  match rs with
  | None => settled_to l i
  | Some k => (lo ≤ k < i)%nat ∧ settled_to l k ∧ ∀ j, (j < i)%nat → l !! j ≠ Some (at_place k)
  end.
Lemma passed_step lo i l l' rs d : (lo ≤ i)%nat → passed lo i l rs → (∀ j, j ≠ i → l' !! j = l !! j) → l' !! i = Some d → at_place i ≤ d →
  passed lo (S i) l' (if decide (d = at_place i) then rs else match rs with Some x => Some x | None => Some i end).
Proof.
  intros Hlo Hp Hne Hd Hle. destruct rs as [k|]; cbn in Hp.
  - destruct Hp as (Hk & Hset & Hfree). replace (if decide (d = at_place i) then Some k else Some k) with (Some k) by by case_decide.
    split; [lia|]. split; [intros j Hj; rewrite Hne by lia; by apply Hset|]. intros j Hj.
    destruct (decide (j = i)) as [->|Hji]; [rewrite Hd; intros [= ?]; lia|]. rewrite Hne by done. apply Hfree. lia.
  - case_decide as Hdi; cbn.
    + intros j Hj. destruct (decide (j = i)) as [->|Hji]; [congruence|]. rewrite Hne by done. apply Hp. lia.
    + split; [lia|]. split; [intros j Hj; rewrite Hne by lia; by apply Hp|]. intros j Hj.
      destruct (decide (j = i)) as [->|Hji]; [congruence|]. rewrite Hne, Hp by lia. intros [= ?]. lia.
Qed.
Lemma wp_shift_pass e0 fds lo k i l rs e : shifted e0 fds l e → length l = (i + k)%nat → (lo ≤ i)%nat → passed lo i l rs →
  wp (shift_pass k i (l, rs)) e (λ e' r,
    match r with
    | None => ¬ no_failure
    | Some (l', rs') => shifted e0 fds l' e' ∧ passed lo (length l') l' rs'
    end).
Proof.
  revert i l rs e. induction k as [|k IH]; intros i l rs e Hs Hlen Hlo Hp; cbn [shift_pass].
  { apply wp_ret. split; [done|]. by rewrite Hlen, Nat.add_0_r. }
  apply wp_bind. eapply wp_mono; [apply (wp_shift_one e0 fds); [done|lia]|]. intros e1 [[l1 rs1]|] Hone; [|by apply wp_ret].
  destruct Hone as (Hs1 & Hne & d & Hd & Hle & _ & ->). apply IH; [done| |lia|by eapply passed_step].
  rewrite (sh_length _ _ _ _ Hs1), <- (sh_length _ _ _ _ Hs). lia.
Qed.

Lemma passed_free lo l k : passed lo (length l) l (Some k) → at_place k ∉ l.
Proof. intros (_ & _ & Hf) [j Hj]%list_elem_of_lookup. apply (Hf j); [by eapply lookup_lt_Some|done]. Qed.
(** Started at a free place, a pass stops only further on. *)
Lemma wp_shift_pass_free e0 fds start l e : shifted e0 fds l e → (start < length l)%nat → settled_to l start → at_place start ∉ l →
  wp (shift_pass (length l - start) start (l, None)) e (λ e' r,
    match r with
    | None => ¬ no_failure
    | Some (l', rs') => shifted e0 fds l' e' ∧ passed (S start) (length l') l' rs'
    end).
Proof.
  intros Hs Hlt Hset Hfree. replace (length l - start)%nat with (S (length l - S start)) by lia. cbn [shift_pass].
  apply wp_bind. eapply wp_mono; [by apply (wp_shift_one e0 fds)|]. intros e1 [[l1 rs1]|] Hone; [|by apply wp_ret].
  destruct Hone as (Hs1 & Hne & d & Hd & Hle & Hfr & ->). rewrite decide_True by by apply Hfr.
  apply (wp_shift_pass e0 fds (S start)); [done| |done|].
  - rewrite (sh_length _ _ _ _ Hs1), <- (sh_length _ _ _ _ Hs). lia.
  - intros j Hj. destruct (decide (j = start)) as [->|Hji]; [by rewrite Hd, Hfr|]. rewrite Hne by done. apply Hset. lia.
Qed.
(** What the shift ends with. *)
Definition in_place (e0 : E) (fds : list Z) (e' : E) (r : bool * list Z) : Prop :=
  (no_failure → r.1 = true) ∧ (r.1 = true → shifted e0 fds r.2 e' ∧ settled_to r.2 (length r.2)).
Lemma wp_shift_from e0 fds fuel start l e : shifted e0 fds l e → (start < length l)%nat → (length l - start < fuel)%nat →
  settled_to l start → at_place start ∉ l → wp (shift_from fuel start l) e (in_place e0 fds).
Proof.
  revert start l e. induction fuel as [|fuel IH]; intros start l e Hs Hlt Hf Hset Hfree; [lia|]. cbn [shift_from].
  apply wp_bind. eapply wp_mono; [by apply (wp_shift_pass_free e0 fds)|]. intros e1 [[l1 [k|]]|]; [|intros [Hs1 Hp]|intros Hno].
  - intros [Hs1 Hp]. pose proof (passed_free _ _ _ Hp) as Hfr. destruct Hp as (Hk & Hse & _).
    assert (length l1 = length l) as Hlen by by rewrite (sh_length _ _ _ _ Hs1), (sh_length _ _ _ _ Hs).
    apply IH; [done|lia|lia|done|done].
  - apply wp_ret. by split.
  - apply wp_ret. split; [done|]. done.
Qed.
Lemma wp_shift_fds e0 fds e : shifted e0 fds fds e → wp (shift_fds fds) e (in_place e0 fds).
Proof.
  intros Hs. unfold shift_fds. replace (length fds + 2)%nat with (S (S (length fds))) by lia. set (n := S (length fds)). cbn [shift_from].
  apply wp_bind. eapply wp_mono; [apply (wp_shift_pass e0 fds 0); [done|lia|done|]|].
  { intros j Hj. lia. }
  intros e1 [[l1 [k|]]|]; [|intros [Hs1 Hp]|intros Hno].
  - intros [Hs1 Hp]. pose proof (passed_free _ _ _ Hp) as Hfr. destruct Hp as (Hk & Hse & _).
    pose proof (sh_length _ _ _ _ Hs1). apply wp_shift_from; [done|lia|lia|done|done].
  - apply wp_ret. by split.
  - apply wp_ret. by split.
Qed.

(** ** Flags *)
Definition cleared_fd (e : E) (d : Z) : Prop := Z.testbit (fd_flags e d) 0 = false.
Definition cleared_file (e : E) (f : nat) : Prop := Z.testbit (fd_status e f) 11 = false.
(** Nothing that is cleared is set again, and the descriptors stay. *)
Record clearing (e e' : E) : Prop := {
  cr_table : fd_table e' = fd_table e;
  cr_fd d : cleared_fd e d → cleared_fd e' d;
  cr_file f : cleared_file e f → cleared_file e' f;
}.
#[global] Instance clearing_preorder : PreOrder clearing.
Proof. split; [by split|]. intros e1 e2 e3 [A1 A2 A3] [B1 B2 B3]. split; [congruence|auto..]. Qed.
Lemma wp_fd_nonblock d f e : 0 ≤ d → fd_table e !! d = Some f →
  wp (fd_nonblock d false) e (λ e' r, clearing e e' ∧ (no_failure → r = Ok tt) ∧ (r = Ok tt → cleared_file e' f)).
Proof.
  intros Hd Hf. unfold fd_nonblock. apply wp_bind, wp_massert. split; [lia|]. apply wp_bind, wp_os_ask. rewrite (fd_getfl_status _ _ _ Hf).
  apply wp_bind, wp_os_call, wp_ret. set (v := Z.land _ _). destruct (fd_setfl_table d v e) as [Ht Hfl].
  assert (Z.testbit v 11 = false) as Hv by (unfold v; rewrite Z.land_spec; by rewrite andb_false_r).
  destruct (fo_setfl d v e).2 eqn:Hok.
  - pose proof (fd_setfl_status _ _ _ _ Hf Hok) as Hst. split_and!; [|done|].
    + split; [done|intros x; unfold cleared_fd; by rewrite Hfl|]. intros g. unfold cleared_file. rewrite Hst. by case_decide.
    + intros _. unfold cleared_file. by rewrite Hst, decide_True.
  - rewrite (fd_setfl_fail _ _ _ Hok). split_and!; [done| |done]. intros Hnf. rewrite (nf_setfl Hnf) in Hok; [done|by eexists].
Qed.
Lemma wp_fd_cloexec d f e : 0 ≤ d → fd_table e !! d = Some f →
  wp (fd_cloexec d false) e (λ e' r, clearing e e' ∧ (no_failure → r = Ok tt) ∧ (r = Ok tt → cleared_fd e' d)).
Proof.
  intros Hd Hf. unfold fd_cloexec. apply wp_bind, wp_massert. split; [lia|]. apply wp_bind, wp_os_ask. rewrite (fd_getfd_flags _ _ _ Hf).
  apply wp_bind, wp_os_call, wp_ret. set (v := Z.land _ _). destruct (fd_setfd_table d v e) as [Ht Hst].
  assert (Z.testbit v 0 = false) as Hv by (unfold v; rewrite Z.land_spec; by rewrite andb_false_r).
  destruct (fo_setfd d v e).2 eqn:Hok.
  - pose proof (fd_setfd_flags _ _ _ Hok) as Hfl. split_and!; [|done|].
    + split; [done| |intros g; unfold cleared_file; by rewrite Hst]. intros x. unfold cleared_fd. rewrite Hfl. by case_decide.
    + intros _. unfold cleared_fd. by rewrite Hfl, decide_True.
  - rewrite (fd_setfd_fail _ _ _ Hok). split_and!; [done| |done]. intros Hnf. rewrite (nf_setfd Hnf) in Hok; [done|by eexists].
Qed.
Lemma wp_flags_fds l e : (∀ d, d ∈ l → 0 ≤ d ∧ is_Some (fd_table e !! d)) →
  wp (flags_fds l) e (λ e' ok, clearing e e' ∧ (no_failure → ok = true)
    ∧ (ok = true → ∀ d f, d ∈ l → fd_table e !! d = Some f → cleared_fd e' d ∧ cleared_file e' f)).
Proof.
  revert e. induction l as [|d l IH]; intros e Hl; cbn [flags_fds].
  { apply wp_ret. split_and!; [done..|]. intros _ d f Hd. by apply elem_of_nil in Hd. }
  destruct (Hl d) as [Hd [f Hf]]; [by left|]. apply wp_bind. eapply wp_mono; [by apply (wp_fd_nonblock d f)|].
  intros e1 r1 (C1 & N1 & F1). destruct r1 as [[]|[]]; cbn [is_err]; [|apply wp_ret; split_and!; [done| |done]; intros Hnf; by apply N1 in Hnf].
  apply wp_bind. eapply wp_mono; [apply (wp_fd_cloexec d f); [done|by rewrite (cr_table _ _ C1)]|].
  intros e2 r2 (C2 & N2 & F2). assert (clearing e e2) as C12 by by trans e1.
  destruct r2 as [[]|[]]; cbn [is_err]; [|apply wp_ret; split_and!; [done| |done]; intros Hnf; by apply N2 in Hnf].
  eapply wp_mono; [apply IH; intros x Hx; rewrite (cr_table _ _ C12); apply Hl; by right|].
  intros e3 ok (C3 & N3 & F3). split_and!; [by trans e2|done|]. intros Hok x g [->|Hx]%elem_of_cons Hg.
  - simplify_eq. split; [by apply C3, F2|by apply C3, C2, F1].
  - apply F3; [done..|]. by rewrite (cr_table _ _ C12).
Qed.
End facts.

(** C20: the descriptors are handed over.  Given open descriptors above 2 that are all
    different, the preparation of the child ends, without a panic; it succeeds where no
    call fails; and when it succeeds, the descriptor at place [i] of the list is open as
    [i + 3], neither closed on exec nor non-blocking, no other one above 2 is open, and
    0, 1 and 2 are what they were. *)
Theorem descriptors_handed_over {E} `{HF : !FdOs E} `{HL : !FdLaws E} (fds : list Z) (e : E) :
  NoDup fds → (∀ d, d ∈ fds → 3 ≤ d ∧ is_Some (fd_table e !! d)) →
  wp (hand_over fds) e (λ e' ok, (no_failure → ok = true) ∧ (ok = true →
    (∀ i d f, fds !! i = Some d → fd_table e !! d = Some f →
       let d' := Z.of_nat i + 3 in fd_table e' !! d' = Some f ∧ Z.testbit (fd_flags e' d') 0 = false ∧ Z.testbit (fd_status e' f) 11 = false)
    ∧ (∀ d, Z.of_nat (length fds) + 3 ≤ d → fd_table e' !! d = None)
    ∧ ∀ d, d < 3 → fd_table e' !! d = fd_table e !! d)).
Proof.
  intros Hnd Hopen. unfold hand_over. apply wp_bind. eapply wp_mono; [apply wp_close_all|]. intros e1 ? (-> & Hk & Hc). cbn [negb].
  assert (shifted e fds fds e1) as Hs.
  { split; [done| |done| |intros d Hd; apply Hk; by left].
    - intros i d d0 Hd Hd0. assert (d0 = d) as -> by congruence. assert (d ∈ fds) as Hin by by eapply list_elem_of_lookup_2. destruct (Hopen d Hin).
      rewrite Hk by by right. done.
    - intros d Hd Hso. destruct (decide (d ∈ fds)) as [|Hn]; [done|]. rewrite Hc in Hso; [by destruct Hso|]. intros [|]; [lia|done]. }
  apply wp_bind. eapply wp_mono; [by apply (wp_shift_fds e fds)|]. intros e2 [ok l] [Hn Hok]. cbn [fst snd] in *.
  destruct ok; cbn [negb]; [|apply wp_ret; split; [done|]; done]. destruct Hok as [[S1 S2 S3 S4 S5] Hset]; [done|].
  eapply wp_mono; [apply wp_flags_fds|].
  { intros d [i Hi]%list_elem_of_lookup. assert (∃ d0, fds !! i = Some d0) as [d0 Hd0]
      by (apply lookup_lt_is_Some_2; rewrite <- S1; by eapply lookup_lt_Some). destruct (S2 i d d0 Hi Hd0) as (? & ? & _). split; [lia|done]. }
  intros e3 ok (C & N & F). split; [done|]. intros ->. rewrite (cr_table _ _ C). split_and!; [|intros d Hd|done].
  - intros i d f Hi Hf. set (d' := Z.of_nat i + 3). assert (l !! i = Some d') as Hl by (apply Hset; rewrite S1; by eapply lookup_lt_Some).
    destruct (S2 i d' d Hl Hi) as (_ & _ & Ht). rewrite Hf in Ht. split; [done|]. apply F; [done|by eapply list_elem_of_lookup_2|done].
  - apply eq_None_not_Some. intros Hso. apply S4 in Hso as [i Hi]%list_elem_of_lookup; [|lia].
    pose proof (lookup_lt_Some _ _ _ Hi) as Hlt. rewrite Hset in Hi by done. simplify_eq. lia.
Qed.

(** A child that cannot become the user of the service ends as a success. *)
Lemma failed_setup_is_success `{HI : !HashIter} {E} `{HF : !FdOs E} `{HP : !ProcOs E} `{HV : !VarRegex} cmdline (s : ChildSt E) :
  ep_user (ch_params s) = None → wp (exec_child cmdline) s (λ _ x, x = Exit 0).
Proof. intros Hu. unfold exec_child. apply wp_bind, wp_mget. rewrite Hu. done. Qed.

(** ** A sample kernel *)
Record Kernel := { kn_table : gmap Z nat; kn_flags : gmap Z Z; kn_status : gmap nat Z }.
Definition set_table t (k : Kernel) : Kernel := {| kn_table := t; kn_flags := kn_flags k; kn_status := kn_status k |}.
(** A descriptor is a number of 32 bits. *)
Definition is_fd (d : Z) : Prop := parse_i32 (show_int d) = Some d.
Definition fds_of (k : Kernel) : gmap Z nat := filter (λ x, is_fd x.1) (kn_table k).
Fixpoint first_free (fuel : nat) (low : Z) (t : gmap Z nat) : option Z :=
  match fuel with
  | O => None
  | S fuel' => match t !! low with None => Some low | Some _ => first_free fuel' (low + 1) t end
  end.
Lemma first_free_spec fuel low t n : first_free fuel low t = Some n → low ≤ n ∧ t !! n = None ∧ ∀ m, low ≤ m < n → is_Some (t !! m).
Proof.
  revert low. induction fuel as [|fuel IH]; intros low; [done|]. cbn. destruct (t !! low) as [f|] eqn:Hl.
  - intros (? & ? & Hm)%IH. split_and!; [lia|done|]. intros m Hlm. destruct (decide (m = low)) as [->|]; [by eexists|]. apply Hm. lia.
  - intros [= <-]. split_and!; [lia|done|]. intros m ?. lia.
Qed.
#[local] Instance fd_sample : FdOs Kernel := {|
  fo_dupfd fd low k :=
    match fds_of k !! fd, first_free 20 low (fds_of k) with
    | Some f, Some n => if decide (is_fd n) then (set_table (<[n:=f]> (kn_table k)) k, Some n) else (k, None)
    | _, _ => (k, None)
    end;
  fo_close fd k := (set_table (delete fd (kn_table k)) k, bool_decide (is_Some (fds_of k !! fd)));
  fo_getfl fd k := f ← fds_of k !! fd; Some (default 0 (kn_status k !! f));
  fo_setfl fd v k := match fds_of k !! fd with
                     | Some f => ({| kn_table := kn_table k; kn_flags := kn_flags k; kn_status := <[f:=v]> (kn_status k) |}, true)
                     | None => (k, false) end;
  fo_getfd fd k := match fds_of k !! fd with Some _ => Some (default 0 (kn_flags k !! fd)) | None => None end;
  fo_setfd fd v k := match fds_of k !! fd with
                     | Some _ => ({| kn_table := kn_table k; kn_flags := <[fd:=v]> (kn_flags k); kn_status := kn_status k |}, true)
                     | None => (k, false) end;
  fo_walk d k := (λ x : Z * nat, Some ("/proc/self/fd/" ++ show_int x.1, show_int x.1)%string) <$> map_to_list (fds_of k);
  fo_read_link p k := Some "/dev/null"%string;
  fo_getpid k := 7 |}.
#[local] Instance fd_sample_laws : FdLaws Kernel.
Proof.
  refine {| fd_table := fds_of; fd_flags k d := default 0 (kn_flags k !! d); fd_status k f := default 0 (kn_status k !! f) |}; cbn [fo_dupfd fd_sample].
  - intros fd low k n. destruct (fds_of k !! fd) as [f|] eqn:Hf; [|done]. destruct (first_free 20 low (fds_of k)) as [m|] eqn:Hm; [|done].
    case_decide as Hd; [|done]. intros [= <-]. exists f. destruct (first_free_spec _ _ _ _ Hm) as (? & ? & ?). split_and!; [done..|].
    cbn. unfold fds_of. cbn. by rewrite map_filter_insert_True.
  - intros fd low k. repeat case_match; done.
  - intros fd k. cbn. unfold fds_of. cbn. apply map_filter_delete.
  - intros fd f k Hf. cbn. by rewrite Hf.
  - intros fd v k. cbn. by destruct (fds_of k !! fd).
  - intros fd v k. cbn. by destruct (fds_of k !! fd).
  - intros fd v k. cbn. by destruct (fds_of k !! fd).
  - intros fd f v k Hf. cbn. rewrite Hf. intros _ g. cbn. case_decide as Hd; [subst; by rewrite lookup_insert_eq|by rewrite lookup_insert_ne].
  - intros fd f k Hf. cbn. by rewrite Hf.
  - intros fd v k. cbn. by destruct (fds_of k !! fd).
  - intros fd v k. cbn. destruct (fds_of k !! fd); [|done]. intros _ d. cbn. case_decide as Hd; [subst; by rewrite lookup_insert_eq|by rewrite lookup_insert_ne].
  - intros k fd _ [f Hf]. exists ("/proc/self/fd/" ++ show_int fd)%string, (show_int fd). split.
    + cbn. apply list_elem_of_fmap. exists (fd, f). split; [done|]. by apply elem_of_map_to_list.
    + by apply map_lookup_filter_Some in Hf as [_ ?].
  - intros k path name fd l _ _ _ [= <-]. cbn [fo_getpid fd_sample]. by vm_compute.
  - by left.
Defined.
Definition kn_before : Kernel := {|
  kn_table := {[0 := 0%nat; 1 := 0%nat; 2 := 0%nat; 3 := 10%nat; 4 := 11%nat; 5 := 12%nat; 9 := 13%nat]};
  kn_flags := {[3 := 1; 4 := 1; 5 := 1; 9 := 1]}; kn_status := {[10%nat := 2050]} |}.
(** Three ports in another order than their descriptors, and a descriptor that nobody
    closed. *)
Lemma descriptors_handed_over_witness :
  run_state (hand_over [5; 3; 4]) kn_before = {|
    kn_table := {[0 := 0%nat; 1 := 0%nat; 2 := 0%nat; 3 := 12%nat; 4 := 10%nat; 5 := 11%nat]};
    kn_flags := {[3 := 0; 4 := 0; 5 := 0; 9 := 1]}; kn_status := {[10%nat := 2; 11%nat := 0; 12%nat := 0]} |}
  ∧ wp (hand_over [5; 3; 4]) kn_before (λ e' ok, (no_failure → ok = true) ∧ (ok = true →
    (∀ i d f, [5; 3; 4] !! i = Some d → fd_table kn_before !! d = Some f →
       let d' := Z.of_nat i + 3 in fd_table e' !! d' = Some f ∧ Z.testbit (fd_flags e' d') 0 = false ∧ Z.testbit (fd_status e' f) 11 = false)
    ∧ (∀ d, Z.of_nat (length [5; 3; 4]) + 3 ≤ d → fd_table e' !! d = None)
    ∧ ∀ d, d < 3 → fd_table e' !! d = fd_table kn_before !! d)).
Proof.
  split; [by vm_compute|]. apply (descriptors_handed_over [5; 3; 4] kn_before); [by apply (bool_decide_eq_true_1 _); vm_compute|].
  intros d Hd. rewrite !elem_of_cons, elem_of_nil in Hd. destruct Hd as [->|[->|[->|[]]]]; (split; [lia|]); eexists; by vm_compute.
Defined.
