(* ===== verification/UnitIf.v ===== *)
(** * What a kind of unit may ask of the manager

    The traits between the manager and the unit plugins: [UmIf]
    ([core/lib/unit/umif.rs], the unit manager) and [UnitBase]
    ([core/lib/unit/base.rs], the entry of the unit), and the event loop
    ([libs/event/src/lib.rs], [source.rs]).  Each is a class over the rest of
    the system [E]; a plugin is modelled against them. *)
From S2P Require Import Prelude UnitTypes UnitEntry ExecParams.

(** Names of the special units ([libs/basic/src/special.rs]). *)
Definition BASIC_TARGET : UnitId := "basic.target".
Definition SHUTDOWN_TARGET : UnitId := "shutdown.target".
Definition SYSINIT_TARGET : UnitId := "sysinit.target".
Definition SOCKETS_TARGET : UnitId := "sockets.target".

(** [core/lib/unit/deps.rs] *)
Inductive UnitDependencyMask := MaskFile | MaskImplicit | MaskDefault.

(** [nix::unistd::Pid] *)
Abbreviation Pid := Z.

(** The calls that return nothing or cannot fail give the new [E]; a query
    leaves it as it is. *)
Class UmIf (E : Type) : Type := {
  um_get_dependency_list : UnitId → UnitRelationAtom → E → list UnitId;
  um_unit_add_dependency : UnitId → UnitRelations → UnitId → bool → UnitDependencyMask → E →
    E * Result unit Error;
  um_unit_add_two_dependency : UnitId → UnitRelations → UnitRelations → UnitId → bool →
    UnitDependencyMask → E → E * Result unit Error;
  um_load_unit_success : UnitId → E → E * bool;
  um_unit_enabled : UnitId → E → Result unit Error;
  um_has_stop_job : UnitId → E → bool;
  um_relation_active_or_pending : UnitId → E → bool;
  um_start_unit : UnitId → E → E * Result unit Error;
  um_restart_unit : UnitId → E → E * Result unit Error;
  um_child_watch_pid : UnitId → Pid → E → E;
  um_child_unwatch_pid : UnitId → Pid → E → E;
  um_child_watch_all_pids : UnitId → E → E;
  um_exec_spawn : UnitId → ExecCommand → ExecParameters → ExecContext → E → E * Result Pid Error;
  um_notify_socket : E → option string;
  um_same_unit_with_pid : UnitId → Pid → E → bool;
  um_collect_socket_fds : UnitId → E → list Z;
  um_rentry_trigger_merge : UnitId → bool → E → E;
  um_trigger_unit : UnitId → E → E;
}.

(** [UnitBase]; [notify] is not among them, a plugin model keeps the list of
    what it published.  [unit_cg_is_empty] is
    [cgroup::cg_is_empty_recursive(&u.cg_path())]. *)
Class UnitBase (E : Type) : Type := {
  unit_test_start_limit : UnitId → E → E * bool;
  unit_kill_context : UnitId → KillContext → option Pid → option Pid → KillOperation → E →
    E * Result unit Error;
  unit_prepare_exec : UnitId → E → E * Result unit Error;
  unit_default_dependencies : UnitId → E → bool;
  unit_guess_main_pid : UnitId → E → Result Pid Error;
  unit_cg_is_empty : UnitId → E → Result bool Error;
}.

(** [Reliability] ([core/lib/rel/api.rs]), as far as its callers see it. *)
Class Reli (E : Type) : Type := {
  reli_fd_cloexec : Z → bool → E → E * Result unit Error;
  reli_fd_take : Z → E → E * Z;
  reli_set_last_frame1 : Z → E → E;
  reli_set_last_frame2 : Z → Z → E → E;
  reli_clear_last_frame : E → E;
  reli_set_last_unit : UnitId → E → E;
  reli_clear_last_unit : E → E;
}.

Inductive EventState := On | Off | OneShot.

#[export] Instance EventState_eq_dec : EqDecision EventState.
Proof. solve_decision. Defined.

(** The event loop, for event sources of the type [Src]. *)
Class EventLoop (Src E : Type) : Type := {
  ev_add_source : Src → E → E * Result unit Error;
  ev_del_source : Src → E → E * Result unit Error;
  ev_set_enabled : Src → EventState → E → E * Result unit Error;
}.

(** What the event loop promises to the owner of a source: the calls that
    succeed set the state of that source, and leave the others alone.  A source
    is known by its key. *)
Class EventLaws (Src E K : Type) `{HL : !EventLoop Src E} (key : Src → K) : Type := {
  ev_state_of : K → E → option EventState;
  ev_add_law x e : (ev_add_source x e).2 = Ok tt →
    ev_state_of (key x) (ev_add_source x e).1 = Some Off
    ∧ ∀ k, k ≠ key x → ev_state_of k (ev_add_source x e).1 = ev_state_of k e;
  ev_enable_law x st e : (ev_set_enabled x st e).2 = Ok tt →
    ev_state_of (key x) (ev_set_enabled x st e).1 = Some st
    ∧ ∀ k, k ≠ key x → ev_state_of k (ev_set_enabled x st e).1 = ev_state_of k e;
  ev_del_law x e : (ev_del_source x e).2 = Ok tt →
    ev_state_of (key x) (ev_del_source x e).1 = None
    ∧ ∀ k, k ≠ key x → ev_state_of k (ev_del_source x e).1 = ev_state_of k e;
}.

(** The processes and the signals: [process_util::alive], [getpid] and the
    names of [nix]'s signals. *)
Class Processes (E : Type) : Type := {
  os_alive : Pid → E → bool;
  os_getpid : E → Pid;
  sig_as_str : Signal → string;
  sig_from_str : string → option Signal;
}.

(** [nix::sys::wait::WaitStatus] *)
Inductive WaitStatus :=
| Exited (pid : Pid) (status : Z)
| Signaled (pid : Pid) (sig : Signal) (core_dump : bool)
| Stopped (pid : Pid) (sig : Signal)
| PtraceEvent (pid : Pid) (sig : Signal) (event : Z)
| PtraceSyscall (pid : Pid)
| Continued (pid : Pid)
| StillAlive.

Definition wait_pid (w : WaitStatus) : option Pid :=
  match w with
  | Exited p _ | Signaled p _ _ | Stopped p _ | PtraceEvent p _ _ | PtraceSyscall p
  | Continued p => Some p
  | StillAlive => None
  end.
