(* ===== verification/Cgroup.v ===== *)
(** * Control groups

    [libs/cgroup/src/cgroup.rs] (the feature [linux], which is the default): the type of
    the mounted hierarchy, creating, attaching, reading and killing a cgroup, and the
    controller of the manager.  The file system, the signals and the walk of a directory
    (the walkdir crate) are parameters; a path of a cgroup is relative to the mount. *)
From Stdlib Require Import Ascii.
From S2P Require Import Prelude UnitTypes Condition StdString StdNet ExecParams UnitIf UnitFile.
Local Open Scope Z_scope.

Inductive CgType := CgNone | Legacy | UnifiedV1 | UnifiedV2.
#[export] Instance CgType_eq_dec : EqDecision CgType.
Proof. solve_decision. Defined.
(** [CgFlags], a word of three bits. *)
Definition CG_SIGCONT : Z := 1.
Definition CG_IGNORE_SELF : Z := 2.
Definition CG_REMOVE : Z := 4.
Definition cg_contains (flags flag : Z) : bool := Z.land flags flag =? flag.
Inductive CgError :=
| CgIo | CgNix | CgManagerStart | CgNotSupported | CgNotFound | CgReadLine | CgDataFormat | CgKillControlService | CgNotADirectory | CgParseInt.

Definition CG_BASE_DIR : string := "/sys/fs/cgroup".
Definition CGROUP_PROCS : string := "cgroup.procs".
Definition CG_UNIFIED_DIR : string := "/sys/fs/cgroup/unified".
Definition CG_V1_DIR : string := "/sys/fs/cgroup/sysmaster".
Definition CGROUP2_SUPER_MAGIC : Z := 1667723888.
Definition CGROUP_SUPER_MAGIC : Z := 2613483.
Definition TMPFS_MAGIC : Z := 16914836.
Definition INIT_SCOPE : string := "init.scope".
Definition SYSMASTER_SLICE : string := "system.slice".
Definition CGROUP_SYSMASTER : string := "sysmaster".

(** The calls: [None] and [false] are errors; the lines of a file end at a line that
    cannot be read ([None]); [cf_subdirs] is the walk of the directories one level below,
    [cf_read_dir] the paths of the entries and [cf_is_real_dir] tells the type of an
    entry itself. *)
Class CgFs (E : Type) : Type := {
  cf_statfs : string → E → option Z;
  cf_exists : string → E → bool;
  cf_is_dir : string → E → bool;
  cf_lines : string → E → option (list (option string));
  cf_write : string → string → E → E * bool;
  cf_create_dir_all : string → E → E * bool;
  cf_remove_dir_all : string → E → E * bool;
  cf_remove_file : string → E → E * bool;
  cf_subdirs : string → E → list (option string);
  cf_read_dir : string → E → option (list (option string));
  cf_is_real_dir : string → E → option bool;
  cf_kill : Pid → Signal → E → E * bool;
  cf_getpid : E → Pid;
}.

(** [PathBuf::join], also of an empty path, which leaves a slash at the end. *)
Definition buf_join (a b : string) : string :=
  if String.prefix "/" b then b else if decide (a = ""%string) then b
  else if ends_with "/" a then (a ++ b)%string else (a ++ "/" ++ b)%string.
Definition str_strip_suffix (suffix s : string) : option string :=
  if ends_with suffix s then Some (of_chars (take (length (chars s) - length (chars suffix)) (chars s))) else None.
Fixpoint trim_non_digits (cs : list ascii) : list ascii :=
  match cs with [] => [] | c :: cs' => if is_digit c then cs else trim_non_digits cs' end.
(** [line.trim_matches(|c| !c.is_numeric()).parse::<i32>()] *)
Definition parse_pid_line (line : string) : option Pid :=
  parse_i32 (of_chars (rev (trim_non_digits (rev (trim_non_digits (chars line)))))).

Section cgroup.
Context {E : Type} `{HF : !CgFs E}.
Abbreviation G := (M E).
Abbreviation RG A := (M E (Result A CgError)).
Definition cg_ask {A} (f : E → A) : G A := mgets f.
Definition cg_call {A} (f : E → E * A) : G A := s ← mget; let x := f s in mmodify (λ _, x.1);; mret x.2.
Definition or_io (b : bool) : Result unit CgError := if b then Ok tt else Err CgIo.

Definition cg_type_of (e : E) : Result CgType CgError :=
  match cf_statfs CG_BASE_DIR e with
  | None => Err CgNotSupported
  | Some t =>
    if t =? CGROUP2_SUPER_MAGIC then Ok UnifiedV2
    else if negb (t =? TMPFS_MAGIC) then Err CgNotSupported
    else if bool_decide (cf_statfs CG_UNIFIED_DIR e = Some CGROUP2_SUPER_MAGIC) then Ok UnifiedV1
    else match cf_statfs CG_V1_DIR e with
         | Some fy => Ok (if fy =? CGROUP2_SUPER_MAGIC then UnifiedV1 else if fy =? CGROUP_SUPER_MAGIC then Legacy else CgNone)
         | None => Err CgNotSupported
         end
  end.
Definition cg_type : RG CgType := cg_ask cg_type_of.
Definition cgtype_to_path (t : CgType) : string :=
  match t with CgNone => "" | UnifiedV1 => CG_UNIFIED_DIR | UnifiedV2 => CG_BASE_DIR | Legacy => CG_V1_DIR end.
Definition cg_abs_path (cg_path suffix : string) : RG string :=
  mtry cg_type (λ t, mret (Ok (buf_join (buf_join (cgtype_to_path t) cg_path) suffix))).

Definition cg_attach (pid : Pid) (cg_path : string) : RG unit :=
  mtry (cg_abs_path cg_path CGROUP_PROCS) (λ cg_procs,
  ex ← cg_ask (cf_exists cg_procs);
  if negb ex then mret (Err CgNotFound) else
  self ← cg_ask cf_getpid;
  let p := if pid =? 0 then self else pid in
  ok ← cg_call (cf_write cg_procs (show_int p ++ String "010"%char ""));
  mret (or_io ok)).
Definition cg_create (cg_path : string) : RG unit :=
  mtry (cg_abs_path cg_path "") (λ p, ok ← cg_call (cf_create_dir_all p); mret (or_io ok)).
Definition cg_create_and_attach (cg_path : string) (pid : Pid) : RG bool :=
  mtry (cg_create cg_path) (λ _, mtry (cg_attach pid cg_path) (λ _, mret (Ok true))).
Definition cg_escape (id : string) : string := id.

Fixpoint read_pids (acc : list Pid) (lines : list (option string)) : Result (list Pid) CgError :=
  match lines with
  | [] => Ok acc
  | None :: _ => Err CgIo
  | Some line :: lines' =>
    match parse_pid_line line with None => Err CgParseInt | Some pid => read_pids (acc ++ [pid]) lines' end
  end.
Definition get_pids (cg_path item : string) : RG (list Pid) :=
  mtry (cg_abs_path cg_path item) (λ path,
  l ← cg_ask (cf_lines path);
  mret (match l with None => Err CgIo | Some l => read_pids [] l end)).
Definition cg_get_pids (cg_path : string) : G (list Pid) :=
  r ← get_pids cg_path CGROUP_PROCS; mret (match r with Ok pids => pids | Err _ => [] end).

(** A failure is logged. *)
Definition remove_dir (cg_path : string) : RG unit :=
  mtry (cg_abs_path cg_path "") (λ p, cg_call (cf_remove_dir_all p);; mret (Ok tt)).
Fixpoint kill_lines (signal : Signal) (flags : Z) (spared : gset Pid) (self : Pid) (lines : list (option string)) : RG unit :=
  match lines with
  | [] => mret (Ok tt)
  | None :: _ => mret (Err CgIo)
  | Some line :: lines' =>
    match parse_pid_line line with
    | None => mret (Err CgParseInt)
    | Some pid =>
      if cg_contains flags CG_IGNORE_SELF && (self =? pid) then kill_lines signal flags spared self lines' else
      if decide (pid ∈ spared) then kill_lines signal flags spared self lines' else
      ok ← cg_call (cf_kill pid signal);
      if negb (ok : bool) then mret (Err CgKillControlService) else
      mwhen (cg_contains flags CG_SIGCONT) (cg_call (cf_kill pid SIGCONT);; mret tt);;
      kill_lines signal flags spared self lines'
    end
  end.
Definition cg_kill_process (cg_path : string) (signal : Signal) (flags : Z) (pids : gset Pid) (item : string) : RG unit :=
  let flags := if (signal =? SIGCONT) || (signal =? SIGKILL) then Z.land flags (Z.lnot CG_SIGCONT) else flags in
  mtry (cg_abs_path cg_path item) (λ path,
  l ← cg_ask (cf_lines path);
  match l with
  | None => mret (Err CgIo)
  | Some l => cur_pid ← cg_ask cf_getpid; kill_lines signal flags pids cur_pid l
  end).
Definition cg_kill (cg_path : string) (signal : Signal) (flags : Z) (pids : gset Pid) : RG unit :=
  cg_kill_process cg_path signal flags pids CGROUP_PROCS.
Definition cg_kill_recursive (cg_path : string) (signal : Signal) (flags : Z) (pids : gset Pid) : RG unit :=
  mtry (cg_kill cg_path signal flags pids) (λ _,
  if cg_contains flags CG_REMOVE then remove_dir cg_path else mret (Ok tt)).

Definition words (line : string) : list string := of_chars <$> split_whitespace line.
Definition controller_line (line : string) : option string :=
  if str_starts_with "#" line then None else
  match words line with
  | [name; _; _; enabled] => if decide (enabled = "1"%string) then Some name else None
  | _ => None
  end.
Definition cg_controllers : RG (list string) :=
  l ← cg_ask (cf_lines "/proc/cgroups");
  mret (match l with None => Err CgIo | Some l => Ok (omap controller_line (omap id l)) end).
Fixpoint event_value (event : string) (lines : list (option string)) : Result string CgError :=
  match lines with
  | [] => Ok ""%string
  | None :: _ => Err CgIo
  | Some line :: lines' =>
    match words line with
    | [key; value] => if decide (trim key = event) then Ok (trim value) else event_value event lines'
    | _ => event_value event lines'
    end
  end.
Definition cg_read_event (cg_path event : string) : RG string :=
  mtry (cg_abs_path cg_path "cgroup.events") (λ p,
  l ← cg_ask (cf_lines p);
  mret (match l with None => Err CgIo | Some l => event_value event l end)).
Definition cg_is_empty (cg_path : string) : G bool :=
  procs_path ← cg_abs_path cg_path CGROUP_PROCS;
  match procs_path with
  | Err _ => mret true
  | Ok p =>
    ex ← cg_ask (cf_exists p);
    if negb ex then mret true else
    r ← get_pids cg_path CGROUP_PROCS;
    mret (match r with Ok [] => true | _ => false end)
  end.
(** The walk of the legacy hierarchy stops at the first cgroup below that {e is} empty. *)
Fixpoint cg_is_empty_recursive (fuel : nat) (cg_path : string) : RG bool :=
  match fuel with
  | O => mnofuel
  | S fuel' =>
    if bool_decide (path_parts cg_path = path_parts "" ∨ path_parts cg_path = path_parts "/") then mret (Ok true) else
    b ← cg_is_empty cg_path;
    if negb (b : bool) then mret (Ok false) else
    mtry cg_type (λ t,
    match t with
    | UnifiedV1 | UnifiedV2 =>
      v ← cg_read_event cg_path "populated";
      mret (match v with
            | Ok v => Ok (bool_decide (v = "0"%string))
            | Err CgNotFound => Ok true
            | Err e => Err e
            end)
    | Legacy =>
      mtry (cg_abs_path cg_path "") (λ cgroup_path,
      l ← cg_ask (cf_subdirs cgroup_path);
      (fix subs (l : list (option string)) : RG bool :=
         match l with
         | [] => mret (Ok true)
         | None :: l' => subs l'
         | Some p :: l' =>
           mtry (cg_is_empty_recursive fuel' (buf_join cg_path p)) (λ empty,
           if (empty : bool) then mret (Ok false) else subs l')
         end) l)
    | CgNone => mret (Ok false)
    end)
  end.

(** ** [CgController] *)
Record CgController := { cc_pid : Pid; cc_controller : string }.
Definition get_procfs_path (c : CgController) : string :=
  if cc_pid c =? 0 then "/proc/self/cgroup" else ("/proc/" ++ show_int (cc_pid c) ++ "/cgroup")%string.
Fixpoint find_controller (controller : string) (lines : list (option string)) : Result string CgError :=
  match lines with
  | [] => Err CgNotFound
  | None :: _ => Err CgReadLine
  | Some line :: lines' =>
    match split_char ":"%char line with
    | [_; ctrls; path] =>
      if existsb (str_contains controller) (split_char ","%char ctrls) then Ok path else find_controller controller lines'
    | _ => Err CgDataFormat
    end
  end.
Definition cg_get_path (c : CgController) (path : string) : RG string :=
  l ← cg_ask (cf_lines path);
  mret (match l with None => Err CgIo | Some l => find_controller (cc_controller c) l end).
Definition cg_pid_get_path (c : CgController) : RG string := cg_get_path c (get_procfs_path c).
Definition valid (c : CgController) : RG unit := mtry (cg_pid_get_path c) (λ _, mret (Ok tt)).
Definition CgController_new (controller : string) (pid : Pid) : RG CgController :=
  let s := {| cc_pid := pid; cc_controller := default controller (str_strip_prefix "name=" controller) |} in
  mtry (valid s) (λ _, mret (Ok s)).
Definition cg_strip_suffix (s : string) : string :=
  match str_strip_suffix ("/" ++ INIT_SCOPE) s with
  | Some r => r
  | None =>
    match str_strip_suffix ("/" ++ SYSMASTER_SLICE) s with
    | Some r => r
    | None => default s (str_strip_suffix ("/" ++ CGROUP_SYSMASTER) s)
    end
  end.
Definition cg_get_root_path (c : CgController) : RG string :=
  mtry (cg_pid_get_path c) (λ path, mret (Ok (cg_strip_suffix path))).
Definition get_abs_path_by_cgtype (c : CgController) (path : string) (t : CgType) : Result string CgError :=
  match t with
  | UnifiedV2 => Ok (CG_BASE_DIR ++ "/" ++ path)%string
  | UnifiedV1 => Ok (CG_UNIFIED_DIR ++ "/" ++ path)%string
  | Legacy => Ok (CG_BASE_DIR ++ "/" ++ cc_controller c ++ "/" ++ path)%string
  | CgNone => Err CgNotSupported
  end.
Fixpoint cg_remove_dir (fuel : nat) (path : string) (delete_root : bool) : RG unit :=
  match fuel with
  | O => mnofuel
  | S fuel' =>
    ex ← cg_ask (cf_exists path);
    if negb ex then mret (Ok tt) else
    d ← cg_ask (cf_is_dir path);
    if negb d then mret (Err CgNotADirectory) else
    if delete_root then ok ← cg_call (cf_remove_dir_all path); mret (or_io ok) else
    l ← cg_ask (cf_read_dir path);
    match l with
    | None => mret (Err CgIo)
    | Some l =>
      (fix entries (l : list string) : RG unit :=
         match l with
         | [] => mret (Ok tt)
         | p :: l' =>
           t ← cg_ask (cf_is_real_dir p);
           match t with
           | None => mret (Err CgIo)
           | Some true => mtry (cg_remove_dir fuel' p true) (λ _, entries l')
           | Some false => ok ← cg_call (cf_remove_file p); mtry (mret (or_io ok)) (λ _, entries l')
           end
         end) (omap id l)
    end
  end.
(** Below the root of the removal everything is removed at once, so two units do. *)
Definition cgc_trim (c : CgController) (delete_root : bool) : RG unit :=
  mtry (cg_get_root_path c) (λ path,
  mtry cg_type (λ t,
  match get_abs_path_by_cgtype c path t with
  | Err e => mret (Err e)
  | Ok path => cg_remove_dir 2 path delete_root
  end)).
(** [Manager::setup_cgroup] *)
Definition setup_cgroup : RG unit :=
  r ← cg_create_and_attach CGROUP_SYSMASTER 0;
  massert (negb (is_err r));;
  cg_kill_recursive CGROUP_SYSMASTER SIGKILL CG_IGNORE_SELF ∅.
End cgroup.

(** * Control groups: what is shown

    Killing a cgroup signals the processes that its file lists and no other; the pids that
    were written are read back.  Runs show what the legacy hierarchy and the controllers
    with a common prefix lead to. *)

(** A system that remembers the signals. *)
Class CgLog (E : Type) `{HF : !CgFs E} : Type := {
  cf_log : E → list (Pid * Signal);
  cf_log_kill p s e : cf_log (cf_kill p s e).1 = cf_log e ++ [(p, s)];
  cf_log_remove p e : cf_log (cf_remove_dir_all p e).1 = cf_log e;
}.

Section facts.
Context {E : Type} `{HF : !CgFs E} `{HL : !CgLog E}.
Implicit Types (e : E).

Lemma wp_cg_ask {A} (f : E → A) e Q : wp (cg_ask f) e Q ↔ Q e (f e).
Proof. done. Qed.
Lemma wp_cg_call {A} (f : E → E * A) e Q : wp (cg_call f) e Q ↔ Q (f e).1 (f e).2.
Proof. done. Qed.
(** The path of a file of a cgroup, an error where no hierarchy is mounted. *)
Definition cg_path_of (cg_path item : string) (e : E) : Result string CgError :=
  match cg_type_of e with Ok t => Ok (buf_join (buf_join (cgtype_to_path t) cg_path) item) | Err x => Err x end.
Lemma wp_cg_abs_path cg_path item e Q : wp (cg_abs_path cg_path item) e Q ↔ Q e (cg_path_of cg_path item e).
Proof. unfold cg_abs_path, cg_path_of. rewrite wp_mtry. unfold cg_type. rewrite wp_cg_ask. by destruct (cg_type_of e). Qed.

(** ** Killing *)

(** The processes that get the signal, and what each of them gets. *)
Definition hit (flags : Z) (spared : gset Pid) (self p : Pid) : Prop :=
  p ∉ spared ∧ ¬ (cg_contains flags CG_IGNORE_SELF = true ∧ self = p).
#[global] Instance hit_dec flags spared self p : Decision (hit flags spared self p).
Proof. unfold hit. apply _. Defined.
Definition with_cont (signal : Signal) (flags : Z) (p : Pid) : list (Pid * Signal) :=
  (p, signal) :: if cg_contains flags CG_SIGCONT then [(p, SIGCONT)] else [].
Lemma wp_kill_lines signal flags spared self lines pids e : omap id lines ≫= (λ l, option_list (parse_pid_line l)) = pids →
  Forall (λ l, is_Some (l ≫= parse_pid_line)) lines →
  wp (kill_lines signal flags spared self lines) e (λ e' r,
    let victims := filter (hit flags spared self) pids in
    match r with
    | Ok _ => cf_log e' = cf_log e ++ (victims ≫= with_cont signal flags)
    | Err x => x = CgKillControlService ∧ ∃ done p rest, victims = done ++ p :: rest
        ∧ cf_log e' = cf_log e ++ (done ≫= with_cont signal flags) ++ [(p, signal)]
    end).
Proof.
  revert pids e. induction lines as [|l lines IH]; intros pids e <- Hl; cbn [kill_lines].
  { apply wp_ret. cbn. by rewrite app_nil_r. }
  apply Forall_cons in Hl as [[p Hp] Hl]. destruct l as [line|]; [|done]. cbn [mbind option_bind] in Hp. rewrite Hp.
  cbn [omap list_omap id]. rewrite bind_cons, Hp.
  change (option_list (Some p) ++ ?x) with (p :: x).
  destruct (cg_contains flags CG_IGNORE_SELF && (self =? p)) eqn:Hself.
  { apply andb_true_iff in Hself as [? ?%Z.eqb_eq]. rewrite filter_cons_False by (intros [_ []]; done). by apply IH. }
  case_decide as Hsp; [rewrite filter_cons_False by (intros []; done); by apply IH|].
  rewrite filter_cons_True by (split; [done|]; intros [H1 ->]; by rewrite H1, Z.eqb_refl in Hself).
  apply wp_bind, wp_cg_call. pose proof (cf_log_kill p signal e) as Hlog. destruct (cf_kill p signal e) as [e1 ok]. cbn [fst snd] in *.
  destruct ok; cbn [negb]; [|apply wp_ret; split; [done|]; eexists [], p, _; split; [done|]; by rewrite Hlog].
  assert (∃ e2, (∀ Q, Q e2 tt → wp (mwhen (cg_contains flags CG_SIGCONT) (cg_call (cf_kill p SIGCONT);; mret tt)) e1 Q)
    ∧ cf_log e2 = cf_log e ++ with_cont signal flags p) as (e2 & Hstep & Hlog2).
  { unfold with_cont. destruct (cg_contains flags CG_SIGCONT); cbn [mwhen].
    - exists (cf_kill p SIGCONT e1).1. split; [done|]. rewrite cf_log_kill, Hlog, <- app_assoc. done.
    - exists e1. done. }
  apply wp_bind, Hstep. eapply wp_mono; [by apply IH|]. intros e3 [[]|x]; cbv zeta; rewrite Hlog2.
  - intros ->. rewrite bind_cons. by rewrite app_assoc.
  - intros (-> & dn & q & rest & Hv & ->). split; [done|]. exists (p :: dn), q, rest. rewrite Hv. split; [done|].
    rewrite bind_cons. by rewrite !app_assoc.
Qed.

(** A spared process gets nothing. *)
Lemma victims_not_spared signal flags spared self pids p s : (p, s) ∈ (filter (hit flags spared self) pids ≫= with_cont signal flags) → p ∉ spared.
Proof.
  intros (q & Hq & [[Hs _] _]%list_elem_of_filter)%list_elem_of_bind. unfold with_cont in Hq.
  apply elem_of_cons in Hq as [[= -> _]|Hq]; [done|]. case_match; [|by apply elem_of_nil in Hq].
  apply list_elem_of_singleton in Hq as [= -> _]. done.
Qed.

End facts.

(** ** Reading the pids *)
Lemma trim_digits_id cs : (∀ c, c ∈ cs → is_digit c = true) → trim_non_digits cs = cs.
Proof. intros H. destruct cs as [|c cs]; [done|]. cbn. by rewrite H by by left. Qed.
Lemma digit_is_digit c : is_Some (digit_value 10 c) → is_digit c = true.
Proof.
  unfold digit_value, is_digit. intros [v Hv]. case_match eqn:H; [|done]. apply andb_true_iff in H as [H _]. apply andb_true_iff in H as [H1 H2].
  apply Z.leb_le in H1. apply Z.ltb_lt in H2. apply andb_true_iff. rewrite !Nat.leb_le. lia.
Qed.
(** A line of cgroup.procs is the pid that the kernel prints. *)
Lemma parse_pid_shown p : 0 ≤ p < 2 ^ 31 → parse_pid_line (show_int p) = Some p.
Proof.
  intros Hp. assert (show_int p = show_uint p) as -> by (unfold show_int; by rewrite (proj2 (Z.ltb_ge p 0)) by lia).
  assert (∀ c, c ∈ chars (show_uint p) → is_digit c = true) as Hd by (intros c Hc; apply digit_is_digit; by eapply show_uint_chars).
  unfold parse_pid_line. rewrite (trim_digits_id (chars _)) by done.
  rewrite (trim_digits_id (rev _)) by (intros c Hc; apply Hd; by apply in_rev, list_elem_of_In in Hc || (apply list_elem_of_In, in_rev, list_elem_of_In; done)). rewrite rev_involutive.
  unfold of_chars, chars. rewrite String.string_of_list_ascii_of_string. unfold parse_i32.
  pose proof (parse_show (2 ^ 31 - 1) p ltac:(lia) ltac:(lia)) as H.
  destruct (chars (show_uint p)) as [|c cs] eqn:Hc; [done|]. pose proof (Hd c ltac:(by left)) as Hdc.
  destruct c as [[] [] [] [] [] [] [] []]; done.
Qed.
Lemma pids_read_back acc ps : Forall (λ p, 0 ≤ p < 2 ^ 31) ps → read_pids acc ((λ p, Some (show_int p)) <$> ps) = Ok (acc ++ ps).
Proof.
  revert acc. induction ps as [|p ps IH]; intros acc; [by rewrite app_nil_r|]. intros [Hp Hps]%Forall_cons.
  cbn [fmap list_fmap read_pids]. rewrite parse_pid_shown by done. rewrite IH by done. by rewrite <- app_assoc.
Qed.

(** ** A sample system *)
Record CgSys := { cy_type : string → option Z; cy_files : gmap string (list string); cy_subs : gmap string (list string); cy_log : list (Pid * Signal) }.
#[local] Instance cg_sample : CgFs CgSys := {|
  cf_statfs p y := cy_type y p;
  cf_exists p y := bool_decide (is_Some (cy_files y !! p));
  cf_is_dir p y := bool_decide (is_Some (cy_subs y !! p));
  cf_lines p y := match cy_files y !! p with Some l => Some (map Some l) | None => None end;
  cf_write p c y := (y, true);
  cf_create_dir_all p y := (y, true);
  cf_remove_dir_all p y := (y, true);
  cf_remove_file p y := (y, true);
  cf_subdirs p y := map Some (default [] (cy_subs y !! p));
  cf_read_dir p y := match cy_subs y !! p with Some l => Some (map Some l) | None => None end;
  cf_is_real_dir p y := Some (bool_decide (is_Some (cy_subs y !! p)));
  cf_kill p s y := ({| cy_type := cy_type y; cy_files := cy_files y; cy_subs := cy_subs y; cy_log := cy_log y ++ [(p, s)] |}, negb (p =? 13));
  cf_getpid y := 1 |}.
#[local] Instance cg_sample_log : CgLog CgSys.
Proof. refine {| cf_log := cy_log |}; done. Defined.
Definition unified (p : string) : option Z := if decide (p = CG_BASE_DIR) then Some CGROUP2_SUPER_MAGIC else None.
Definition legacy (p : string) : option Z :=
  if decide (p = CG_BASE_DIR) then Some TMPFS_MAGIC else if decide (p = CG_V1_DIR) then Some CGROUP_SUPER_MAGIC else None.
Definition slice_procs : string := "/sys/fs/cgroup/system.slice/a.service/cgroup.procs".
Definition sys_with (pids : list Pid) : CgSys := {| cy_type := unified; cy_files := {[slice_procs := show_int <$> pids]}; cy_subs := ∅; cy_log := [] |}.
Definition answer {A} (m : M CgSys A) (y : CgSys) : option A := match m y with Returned (_, a) => Some a | _ => None end.

(** A process that cannot be signalled keeps the ones behind it alive. *)
Example kill_stops_at_error : let r := cg_kill_recursive "system.slice/a.service" SIGKILL 0 ∅ in
  answer r (sys_with [12; 13; 14]) = Some (Err CgKillControlService)
  ∧ cf_log (run_state r (sys_with [12; 13; 14])) = [(12, SIGKILL); (13, SIGKILL)].
Proof. by vm_compute. Qed.
(** A process of another pid namespace is shown as 0, which is the group of the caller. *)
Example kill_own_group : cf_log (run_state (cg_kill_recursive "system.slice/a.service" SIGKILL CG_IGNORE_SELF ∅) (sys_with [0])) = [(0, SIGKILL)].
Proof. by vm_compute. Qed.
(** In the legacy hierarchy a cgroup with an empty child is not empty, and one with a busy
    child is. *)
Definition a_child : string := "/sys/fs/cgroup/sysmaster/a/child".
Definition legacy_with (child : list Pid) : CgSys := {|
  cy_type := legacy;
  cy_files := {["/sys/fs/cgroup/sysmaster/a/cgroup.procs" := []; "/sys/fs/cgroup/sysmaster/a/child/cgroup.procs" := show_int <$> child]}%string;
  cy_subs := {["/sys/fs/cgroup/sysmaster/a/" := [a_child]]}%string; cy_log := [] |}.
Example legacy_empty_inverted :
  answer (cg_is_empty_recursive 3 "a") (legacy_with []) = Some (Ok false)
  ∧ answer (cg_is_empty_recursive 3 "a") (legacy_with [7]) = Some (Ok true).
Proof. by vm_compute. Qed.
(** The controller [cpu] is found in the line of [cpuset]. *)
Example controller_by_part : find_controller "cpu" [Some "9:cpuset:/one"; Some "4:cpu,cpuacct:/two"]%string = Ok "/one"%string.
Proof. by vm_compute. Qed.
