(* ===== verification/ProcessUtil.v ===== *)
(** * Processes

    [libs/basic/src/process_util.rs]: whether a process is alive, from its line of
    [/proc], and the end of all processes before a reboot.  The kernel is [ProcFs];
    the time is in microseconds. *)
From Stdlib Require Import Ascii.
From S2P Require Import Prelude UnitTypes Relation Condition StdString UnitEntry ExecParams UnitIf.
Local Open Scope Z_scope.

(** [/proc/<pid>/stat]'s first line, the entries of [/proc] (with whether they are
    plain files), [kill] with its [errno] (zero when it succeeds) and [waitpid] of
    any child with [WNOHANG]. *)
Class ProcFs (E : Type) : Type := {
  pf_getpid : E → Pid;
  pf_stat_line : Pid → E → option string;
  pf_entries : E → list (bool * string);
  pf_kill : Pid → Z → E → E * Z;
  pf_waitpid : E → E * Result (option Pid) unit;
  pf_now : E → Z;
  pf_sleep : Z → E → E;
}.
Definition ESRCH : Z := 3.

Section process.
Context `{HI : !HashIter} {E : Type} `{HP : !ProcFs E}.
Implicit Types (pid : Pid) (e : E).

(** The state of a process is the fourth word of the line; the words are checked
    to be three. *)
Definition process_state pid : M E (Result ascii unit) :=
  e ← mget;
  if decide (pid = 0 ∨ pid = pf_getpid e) then mret (Ok "R"%char) else
  match pf_stat_line pid e with
  | None => mret (Err tt)
  | Some first_line =>
    let stat := split_whitespace first_line in
    if (length stat <? 3)%nat then mret (Err tt) else
    w ← munwrap (stat !! 3%nat);
    match chars (trim (of_chars w)) with [] => mret (Err tt) | c :: _ => mret (Ok c) end
  end.
Definition alive pid : M E bool :=
  e ← mget;
  if pid <? 0 then mret false else
  if pid <=? 1 then mret true else
  if decide (pid = pf_getpid e) then mret true else
  ret ← process_state pid;
  match ret with
  | Err _ => mret false
  | Ok c => mret (negb (bool_decide (c = "Z"%char)))
  end.

(** Every process of [/proc] is sent the signal. *)
Definition proc_pid (entry : bool * string) : option Pid :=
  if entry.1 then None else parse_i32 entry.2.
Definition kill_all_pids (signal : Z) : M E (gset Pid) :=
  e ← mget;
  mfold (λ pids entry,
    match proc_pid entry with
    | None => mret pids
    | Some pid => mmodify (λ e, (pf_kill pid signal e).1);; mret ({[pid]} ∪ pids)
    end) ∅ (pf_entries e).

(** Reaping, until no child is left that has ended. *)
Fixpoint drain (fuel : nat) (pids : gset Pid) : M E (gset Pid) :=
  match fuel with
  | O => mnofuel
  | S fuel' =>
    e ← mget;
    let r := pf_waitpid e in
    mmodify (λ _, r.1);;
    match r.2 with
    | Ok (Some pid) => drain fuel' (pids ∖ {[pid]})
    | _ => mret pids
    end
  end.
Definition probe (pids : gset Pid) : M E (gset Pid) :=
  mfold (λ removed pid,
    e ← mget;
    let r := pf_kill pid 0 e in
    mmodify (λ _, r.1);;
    mret (if (r.2 =? 0) || negb (r.2 =? ESRCH) then removed else {[pid]} ∪ removed))
    ∅ (hs_iter pids).
Fixpoint wait_loop (fuel : nat) (until : Z) (pids : gset Pid) : M E (gset Pid) :=
  match fuel with
  | O => mnofuel
  | S fuel' =>
    pids ← drain fuel pids;
    removed ← probe pids;
    let pids := pids ∖ removed in
    mmodify (pf_sleep 1000000);;
    e ← mget;
    if decide (pids = ∅) then mret pids else
    if until <=? pf_now e then mret pids else
    wait_loop fuel' until pids
  end.
Definition wait_pids (fuel : nat) (pids : gset Pid) (timeout : Z) : M E (gset Pid) :=
  e ← mget; wait_loop fuel (pf_now e + timeout) (pids ∖ {[1]}).
End process.

(** ** What the kernel does *)

(** The clock does not go back, a sleep lasts; the children of the manager are
    finitely many, and it does not fork while it waits. *)
Class ProcLaws (E : Type) `{HP : !ProcFs E} : Type := {
  pf_children : E → nat;
  pf_kill_law pid sig e : pf_now e ≤ pf_now (pf_kill pid sig e).1
    ∧ (pf_children (pf_kill pid sig e).1 ≤ pf_children e)%nat;
  pf_waitpid_law e : pf_now e ≤ pf_now (pf_waitpid e).1
    ∧ (pf_children (pf_waitpid e).1 ≤ pf_children e)%nat
    ∧ (∀ pid, (pf_waitpid e).2 = Ok (Some pid) → (pf_children (pf_waitpid e).1 < pf_children e)%nat);
  pf_sleep_law d e : pf_now e + d ≤ pf_now (pf_sleep d e)
    ∧ (pf_children (pf_sleep d e) ≤ pf_children e)%nat;
}.

Section facts.
Context `{HI : !HashIter} {E : Type} `{HP : !ProcFs E} `{HW : !ProcLaws E}.
Implicit Types (pid : Pid) (e : E) (pids : gset Pid).

(** Time passes, and children end. *)
Definition later e e' : Prop := pf_now e ≤ pf_now e' ∧ (pf_children e' ≤ pf_children e)%nat.
#[local] Instance later_preorder : PreOrder later.
Proof. split; [by split|]. intros e1 e2 e3 [] []. split; lia. Qed.

Lemma wp_reap_drain fuel pids e (Q : E → gset Pid → Prop) : (pf_children e < fuel)%nat →
  (∀ e' pids', later e e' → pids' ⊆ pids → Q e' pids') → wp (drain fuel pids) e Q.
Proof.
  revert pids e. induction fuel as [|fuel IH]; intros pids e Hf HQ; [lia|]. simpl.
  destruct (pf_waitpid_law e) as (H1 & H2 & H3). apply wp_bind, wp_mget, wp_bind, wp_mmodify.
  destruct (pf_waitpid e).2 as [[pid|]|] eqn:Hw; [|apply wp_ret, HQ; [by split|done]..].
  specialize (H3 pid eq_refl). apply IH; [lia|]. intros e' pids' Hl Hs. apply HQ; [etrans; [by split|done]|set_solver].
Qed.
Lemma wp_probe pids e (Q : E → gset Pid → Prop) : (∀ e' removed, later e e' → Q e' removed) →
  wp (probe pids) e Q.
Proof.
  unfold probe. generalize (∅ : gset Pid). revert e. induction (hs_iter pids) as [|pid l IH];
    intros e removed HQ; simpl; [by apply wp_ret, HQ|].
  do 2 apply wp_bind. apply wp_mget, wp_bind, wp_mmodify, wp_ret, IH. intros e' removed' Hl.
  apply HQ. etrans; [apply pf_kill_law|done].
Qed.

(** The seconds that are left. *)
Definition left_to (until : Z) e : nat := Z.to_nat ((until - pf_now e) / 1000000 + 1).
Lemma wp_wait_loop fuel until pids e (Q : E → gset Pid → Prop) :
  (pf_children e + left_to until e < fuel)%nat →
  (∀ e' pids', pids' ⊆ pids → pids' = ∅ ∨ until ≤ pf_now e' → Q e' pids') →
  wp (wait_loop fuel until pids) e Q.
Proof.
  revert pids e. induction fuel as [|fuel IH]; intros pids e Hf HQ; [lia|]. simpl wait_loop.
  apply wp_bind, (wp_reap_drain (S fuel)); [lia|]. intros e1 pids1 Hl1 Hs1.
  apply wp_bind, wp_probe. intros e2 removed Hl2. apply wp_bind, wp_mmodify, wp_bind, wp_mget.
  destruct (pf_sleep_law 1000000 e2) as [Hs2 Hc2].
  case_decide as Hempty; [apply wp_ret, HQ; [set_solver|by left]|].
  destruct (Z.leb_spec until (pf_now (pf_sleep 1000000 e2))) as [Hu|Hu];
    [apply wp_ret, HQ; [set_solver|by right]|].
  destruct Hl1 as [T1 C1], Hl2 as [T2 C2]. apply IH.
  - unfold left_to in *.
    assert ((until - pf_now (pf_sleep 1000000 e2)) / 1000000 + 1 ≤ (until - pf_now e) / 1000000) as Hd.
    { rewrite <- (Z.div_add _ 1) by lia. apply Z.div_le_mono; lia. }
    assert (0 ≤ (until - pf_now (pf_sleep 1000000 e2)) / 1000000) by (apply Z.div_pos; lia). lia.
  - intros e' pids' Hs' Hend. apply HQ; [set_solver|done].
Qed.
End facts.


(** [alive] takes a zombie for a living process: [process_state] reads the
    fourth word of [/proc/<pid>/stat], the parent, for the third, the state. *)
Theorem zombie_is_alive {E} `{!ProcFs E} (pid : Pid) (e : E) line p comm c cs rest :
  1 < pid → pid ≠ pf_getpid e → pf_stat_line pid e = Some line →
  split_whitespace line = p :: comm :: ["Z"%char] :: (c :: cs) :: rest →
  is_space c = false → c ≠ "Z"%char →
  alive pid e = Returned (e, true).
Proof.
  intros Hp Hme Hline Hw Hc HZ.
  assert (∃ cs', chars (trim (of_chars (c :: cs))) = c :: cs') as [cs' Ht].
  { unfold trim. rewrite !chars_of_chars. simpl. rewrite Hc. simpl.
    assert (∀ l, ∃ l', trim_start (l ++ [c]) = l' ++ [c]) as Hts.
    { induction l as [|x l [l' IH]]; simpl; [rewrite Hc; by exists []|]. destruct (is_space x); [by exists l'|].
      by exists (x :: l). }
    destruct (Hts (rev cs)) as [l' ->]. exists (rev l'). by rewrite rev_app_distr. }
  unfold alive, process_state, mbind, M_bind, mget, mret, M_ret.
  rewrite (proj2 (Z.ltb_ge _ _)), (proj2 (Z.leb_gt _ _)) by lia.
  rewrite decide_False by done. rewrite decide_False by (intros [?|?]; [lia|done]).
  rewrite Hline, Hw. change (of_chars (c :: cs)) with (String c (of_chars cs)) in Ht. cbn -[String.list_ascii_of_string trim]. rewrite Ht. simpl. by rewrite bool_decide_false.
Qed.

(** *** On a small kernel: a clock, zombies of the manager, and others *)
Record SmallProc := { sp_time : Z; sp_zombies : list Pid; sp_others : gset Pid }.
#[local] Instance small_proc : ProcFs SmallProc := {|
  pf_getpid _ := 1;
  pf_stat_line pid e := if decide (pid ∈ sp_zombies e) then Some "12 (sh) Z 7 7 7"%string else None;
  pf_entries e := (λ pid, (false, show_uint pid)) <$> (sp_zombies e ++ elements (sp_others e));
  pf_kill pid _ e := (e, if decide (pid ∈ sp_zombies e ∨ pid ∈ sp_others e) then 0 else ESRCH);
  pf_waitpid e := match sp_zombies e with
    | [] => (e, Ok None)
    | pid :: l => ({| sp_time := sp_time e; sp_zombies := l; sp_others := sp_others e |}, Ok (Some pid))
    end;
  pf_now e := sp_time e;
  pf_sleep d e := {| sp_time := sp_time e + d; sp_zombies := sp_zombies e; sp_others := sp_others e |};
|}.
#[local] Program Instance small_laws : ProcLaws SmallProc := {| pf_children e := length (sp_zombies e) |}.
Next Obligation. intros. simpl. lia. Qed.
Next Obligation. intros e. simpl. destruct (sp_zombies e) eqn:He; simpl; rewrite ?He; simpl; (split_and!; [lia..|]); [done|lia]. Qed.
Next Obligation. intros. simpl. lia. Qed.
Definition small : SmallProc := {| sp_time := 0; sp_zombies := [12; 13]; sp_others := {[40]} |}.

Lemma zombie_is_alive_witness : 12 ∈ sp_zombies small ∧ alive 12 small = Returned (small, true).
Proof.
  split; [apply list_elem_of_here|].
  apply (zombie_is_alive 12 small "12 (sh) Z 7 7 7" ["1"; "2"]%char ["("; "s"; "h"; ")"]%char "7"%char [] [["7"]; ["7"]]%char);
    try reflexivity; intros [=].
Defined.
(** The processes the manager cannot reap keep it waiting for the whole time. *)
Example wait_pids_run : (λ o, match o with Returned (e, r) => Some (pf_now e, elements r) | _ => None end)
  (@wait_pids hash_iter_canonical _ _ 20 {[1; 12; 13; 40]} 10000000 small) = Some (10000000, [40]).
Proof. vm_compute. reflexivity. Qed.
