(* ===== verification/UmStore.v ===== *)
(** * The store of the unit manager

    What the unit manager keeps in memory, and its tables: the set of the units
    ([core/bin/unit/datastore/sets.rs]), their entries ([entry/base.rs], [load.rs],
    [config.rs], [child.rs], [cgroup.rs], [uentry.rs], [unitx.rs]), the child
    processes ([datastore/child.rs]), the facade [UnitDb] ([datastore/mod.rs]) and
    the tables of [UnitRe] ([rentry.rs]).

    An [Rc<UnitX>] is the name of a unit of [um_units].  The dependency graph is
    that of [UnitDb]: [dep_run] runs its operations on this store. *)
From Stdlib Require Import Ascii.
From S2P Require Import Prelude UnitTypes Relation ReDb UnitDb RateLimit Condition UnitEntry StdString Reli UnitFile ExecParams UnitIf.
Local Open Scope Z_scope.

(** The states of the manager ([core/bin/manager/mod.rs]). *)
Module State.
Inductive t := Init | Ok | Exit | ReLoad | ReExecute | Reboot | PowerOff | Halt | KExec | Suspend | SwitchRoot.
#[global] Instance t_eq_dec : EqDecision t.
Proof. solve_decision. Defined.
End State.
Abbreviation State := State.t.

(** One unit: [ue_unit] are the fields [UnitEntry] works with. *)
Record UeUnit := {
  ue_type : UnitType;
  ue_unit : Unit;
  ue_install : UeConfigInstall;
  ue_in_load : bool;
  ue_in_target : bool;
  ue_pids : gset Pid;
  ue_cg_path : string;
}.
Definition set_ue_type (v : UnitType) (s : UeUnit) : UeUnit :=
  {| ue_type := v; ue_unit := ue_unit s; ue_install := ue_install s;
     ue_in_load := ue_in_load s; ue_in_target := ue_in_target s; ue_pids := ue_pids s;
     ue_cg_path := ue_cg_path s |}.
Definition set_ue_unit (v : Unit) (s : UeUnit) : UeUnit :=
  {| ue_type := ue_type s; ue_unit := v; ue_install := ue_install s;
     ue_in_load := ue_in_load s; ue_in_target := ue_in_target s; ue_pids := ue_pids s;
     ue_cg_path := ue_cg_path s |}.
Definition set_ue_install (v : UeConfigInstall) (s : UeUnit) : UeUnit :=
  {| ue_type := ue_type s; ue_unit := ue_unit s; ue_install := v; ue_in_load := ue_in_load s;
     ue_in_target := ue_in_target s; ue_pids := ue_pids s; ue_cg_path := ue_cg_path s |}.
Definition set_ue_in_load (v : bool) (s : UeUnit) : UeUnit :=
  {| ue_type := ue_type s; ue_unit := ue_unit s; ue_install := ue_install s; ue_in_load := v;
     ue_in_target := ue_in_target s; ue_pids := ue_pids s; ue_cg_path := ue_cg_path s |}.
Definition set_ue_in_target (v : bool) (s : UeUnit) : UeUnit :=
  {| ue_type := ue_type s; ue_unit := ue_unit s; ue_install := ue_install s;
     ue_in_load := ue_in_load s; ue_in_target := v; ue_pids := ue_pids s;
     ue_cg_path := ue_cg_path s |}.
Definition set_ue_pids (v : gset Pid) (s : UeUnit) : UeUnit :=
  {| ue_type := ue_type s; ue_unit := ue_unit s; ue_install := ue_install s;
     ue_in_load := ue_in_load s; ue_in_target := ue_in_target s; ue_pids := v;
     ue_cg_path := ue_cg_path s |}.
Definition set_ue_cg_path (v : string) (s : UeUnit) : UeUnit :=
  {| ue_type := ue_type s; ue_unit := ue_unit s; ue_install := ue_install s;
     ue_in_load := ue_in_load s; ue_in_target := ue_in_target s; ue_pids := ue_pids s;
     ue_cg_path := v |}.

(** The tables of [UnitRe] next to those of the dependencies. *)
Record UnitReX := {
  rx_load : ReDb UnitId UnitLoadState;
  rx_conf : ReDb UnitId (UeConfigUnit * UeConfigInstall);
  rx_cgroup : ReDb UnitId string;
  rx_child : ReDb UnitId (list Pid);
  rx_pps : ReDb UnitId Z;
  rx_notify : ReDb Z Z;
}.
Definition set_rx_load (v : ReDb UnitId UnitLoadState) (s : UnitReX) : UnitReX :=
  {| rx_load := v; rx_conf := rx_conf s; rx_cgroup := rx_cgroup s; rx_child := rx_child s;
     rx_pps := rx_pps s; rx_notify := rx_notify s |}.
Definition set_rx_conf (v : ReDb UnitId (UeConfigUnit * UeConfigInstall)) (s : UnitReX) : UnitReX :=
  {| rx_load := rx_load s; rx_conf := v; rx_cgroup := rx_cgroup s; rx_child := rx_child s;
     rx_pps := rx_pps s; rx_notify := rx_notify s |}.
Definition set_rx_cgroup (v : ReDb UnitId string) (s : UnitReX) : UnitReX :=
  {| rx_load := rx_load s; rx_conf := rx_conf s; rx_cgroup := v; rx_child := rx_child s;
     rx_pps := rx_pps s; rx_notify := rx_notify s |}.
Definition set_rx_child (v : ReDb UnitId (list Pid)) (s : UnitReX) : UnitReX :=
  {| rx_load := rx_load s; rx_conf := rx_conf s; rx_cgroup := rx_cgroup s; rx_child := v;
     rx_pps := rx_pps s; rx_notify := rx_notify s |}.
Definition set_rx_pps (v : ReDb UnitId Z) (s : UnitReX) : UnitReX :=
  {| rx_load := rx_load s; rx_conf := rx_conf s; rx_cgroup := rx_cgroup s;
     rx_child := rx_child s; rx_pps := v; rx_notify := rx_notify s |}.
Definition set_rx_notify (v : ReDb Z Z) (s : UnitReX) : UnitReX :=
  {| rx_load := rx_load s; rx_conf := rx_conf s; rx_cgroup := rx_cgroup s;
     rx_child := rx_child s; rx_pps := rx_pps s; rx_notify := v |}.

(** The unit manager, over the rest of the system [E]: the sub-units, the job
    engine, [Reliability], the event loop and the kernel.  [um_borrowed] are the
    tables of the [DataManager] whose [RefCell] is borrowed, because one of its
    subscribers is being notified. *)
Record UM (E : Type) := {
  um_units : gmap UnitId UeUnit;
  um_t : DepTable;
  um_re : UnitRe;
  um_rex : UnitReX;
  um_load_queue : list UnitId;
  um_target_dep_queue : list UnitId;
  um_watch : gmap Pid UnitId;
  um_file : UnitFileData;
  um_notify_fd : Z;
  um_state : State;
  um_borrowed : gset Z;
  um_rest : E;
}.
Arguments um_units {E}. Arguments um_t {E}. Arguments um_re {E}. Arguments um_rex {E}.
Arguments um_load_queue {E}. Arguments um_target_dep_queue {E}. Arguments um_watch {E}.
Arguments um_file {E}. Arguments um_notify_fd {E}. Arguments um_state {E}.
Arguments um_borrowed {E}. Arguments um_rest {E}.
Definition set_um_units {E : Type} (v : gmap UnitId UeUnit) (s : (UM E)) : (UM E) :=
  {| um_units := v; um_t := um_t s; um_re := um_re s; um_rex := um_rex s;
     um_load_queue := um_load_queue s; um_target_dep_queue := um_target_dep_queue s;
     um_watch := um_watch s; um_file := um_file s; um_notify_fd := um_notify_fd s;
     um_state := um_state s; um_borrowed := um_borrowed s; um_rest := um_rest s |}.
Definition set_um_t {E : Type} (v : DepTable) (s : (UM E)) : (UM E) :=
  {| um_units := um_units s; um_t := v; um_re := um_re s; um_rex := um_rex s;
     um_load_queue := um_load_queue s; um_target_dep_queue := um_target_dep_queue s;
     um_watch := um_watch s; um_file := um_file s; um_notify_fd := um_notify_fd s;
     um_state := um_state s; um_borrowed := um_borrowed s; um_rest := um_rest s |}.
Definition set_um_re {E : Type} (v : UnitRe) (s : (UM E)) : (UM E) :=
  {| um_units := um_units s; um_t := um_t s; um_re := v; um_rex := um_rex s;
     um_load_queue := um_load_queue s; um_target_dep_queue := um_target_dep_queue s;
     um_watch := um_watch s; um_file := um_file s; um_notify_fd := um_notify_fd s;
     um_state := um_state s; um_borrowed := um_borrowed s; um_rest := um_rest s |}.
Definition set_um_rex {E : Type} (v : UnitReX) (s : (UM E)) : (UM E) :=
  {| um_units := um_units s; um_t := um_t s; um_re := um_re s; um_rex := v;
     um_load_queue := um_load_queue s; um_target_dep_queue := um_target_dep_queue s;
     um_watch := um_watch s; um_file := um_file s; um_notify_fd := um_notify_fd s;
     um_state := um_state s; um_borrowed := um_borrowed s; um_rest := um_rest s |}.
Definition set_um_load_queue {E : Type} (v : list UnitId) (s : (UM E)) : (UM E) :=
  {| um_units := um_units s; um_t := um_t s; um_re := um_re s; um_rex := um_rex s;
     um_load_queue := v; um_target_dep_queue := um_target_dep_queue s; um_watch := um_watch s;
     um_file := um_file s; um_notify_fd := um_notify_fd s; um_state := um_state s;
     um_borrowed := um_borrowed s; um_rest := um_rest s |}.
Definition set_um_target_dep_queue {E : Type} (v : list UnitId) (s : (UM E)) : (UM E) :=
  {| um_units := um_units s; um_t := um_t s; um_re := um_re s; um_rex := um_rex s;
     um_load_queue := um_load_queue s; um_target_dep_queue := v; um_watch := um_watch s;
     um_file := um_file s; um_notify_fd := um_notify_fd s; um_state := um_state s;
     um_borrowed := um_borrowed s; um_rest := um_rest s |}.
Definition set_um_watch {E : Type} (v : gmap Pid UnitId) (s : (UM E)) : (UM E) :=
  {| um_units := um_units s; um_t := um_t s; um_re := um_re s; um_rex := um_rex s;
     um_load_queue := um_load_queue s; um_target_dep_queue := um_target_dep_queue s;
     um_watch := v; um_file := um_file s; um_notify_fd := um_notify_fd s;
     um_state := um_state s; um_borrowed := um_borrowed s; um_rest := um_rest s |}.
Definition set_um_file {E : Type} (v : UnitFileData) (s : (UM E)) : (UM E) :=
  {| um_units := um_units s; um_t := um_t s; um_re := um_re s; um_rex := um_rex s;
     um_load_queue := um_load_queue s; um_target_dep_queue := um_target_dep_queue s;
     um_watch := um_watch s; um_file := v; um_notify_fd := um_notify_fd s;
     um_state := um_state s; um_borrowed := um_borrowed s; um_rest := um_rest s |}.
Definition set_um_notify_fd {E : Type} (v : Z) (s : (UM E)) : (UM E) :=
  {| um_units := um_units s; um_t := um_t s; um_re := um_re s; um_rex := um_rex s;
     um_load_queue := um_load_queue s; um_target_dep_queue := um_target_dep_queue s;
     um_watch := um_watch s; um_file := um_file s; um_notify_fd := v; um_state := um_state s;
     um_borrowed := um_borrowed s; um_rest := um_rest s |}.
Definition set_um_state {E : Type} (v : State) (s : (UM E)) : (UM E) :=
  {| um_units := um_units s; um_t := um_t s; um_re := um_re s; um_rex := um_rex s;
     um_load_queue := um_load_queue s; um_target_dep_queue := um_target_dep_queue s;
     um_watch := um_watch s; um_file := um_file s; um_notify_fd := um_notify_fd s;
     um_state := v; um_borrowed := um_borrowed s; um_rest := um_rest s |}.
Definition set_um_borrowed {E : Type} (v : gset Z) (s : (UM E)) : (UM E) :=
  {| um_units := um_units s; um_t := um_t s; um_re := um_re s; um_rex := um_rex s;
     um_load_queue := um_load_queue s; um_target_dep_queue := um_target_dep_queue s;
     um_watch := um_watch s; um_file := um_file s; um_notify_fd := um_notify_fd s;
     um_state := um_state s; um_borrowed := v; um_rest := um_rest s |}.
Definition set_um_rest {E : Type} (v : E) (s : (UM E)) : (UM E) :=
  {| um_units := um_units s; um_t := um_t s; um_re := um_re s; um_rex := um_rex s;
     um_load_queue := um_load_queue s; um_target_dep_queue := um_target_dep_queue s;
     um_watch := um_watch s; um_file := um_file s; um_notify_fd := um_notify_fd s;
     um_state := um_state s; um_borrowed := um_borrowed s; um_rest := v |}.

(** What the entries of the units ask of the system: the plugins, the confique
    crate ([cfg_load] reads the files of a unit), the cgroups and the processes. *)
Class UmSys (E : Type) : Type := {
  sub_create : UnitType → UnitId → E → E * bool;
  cfg_load : list string → E → option (UeConfigUnit * UeConfigInstall);
  cg_get_pids : string → E → list Pid;
  cg_create : string → E → E * bool;
  cg_kill_recursive : string → Signal → gset Pid → E → E * bool;
  sys_kill : Pid → Signal → E → E * bool;
  sys_ppid_of : Pid → E → option Pid;
  sys_getpid : E → Pid;
  sys_getppid : E → Pid;
  sys_now : E → Z;
}.

(** *** Names ([unit_name_to_type], [UnitType::from_str]) *)
Definition lower_char (c : ascii) : ascii :=
  let n := nat_of_ascii c in
  if (65 <=? n)%nat && (n <=? 90)%nat then ascii_of_nat (n + 32) else c.
Definition to_lowercase (s : string) : string := of_chars (lower_char <$> chars s).
Definition UnitType_from_str (s : string) : UnitType :=
  let l := to_lowercase s in
  if decide (l = "service"%string) then UnitService
  else if decide (l = "target"%string) then UnitTarget
  else if decide (l = "socket"%string) then UnitSocket
  else if decide (l = "mount"%string) then UnitMount
  else UnitTypeInvalid.
Definition unit_name_to_type (unit_name : string) : UnitType :=
  UnitType_from_str (default ""%string (last (split_char "."%char unit_name))).

(** *** [UnitRePps] *)
Definition QUEUE_LOAD : Z := 8.
Definition QUEUE_TARGET_DEPS : Z := 16.
Definition pps_union (a b : Z) : Z := Z.lor a b.
Definition pps_minus (a b : Z) : Z := Z.ldiff a b.
Definition pps_has (a b : Z) : bool := Z.land a b =? b.

Section store.
Context `{HI : !HashIter} {E : Type}.
Abbreviation U := (M (UM E)).

(** ** The rest of the system *)
Definition rest_do (f : E → E) : U unit := mmodify (λ s, set_um_rest (f (um_rest s)) s).
Definition rest_ask {A} (f : E → A) : U A := mgets (λ s, f (um_rest s)).
Definition rest_call {A} (f : E → E * A) : U A := λ s,
  let r := f (um_rest s) in Returned (set_um_rest r.1 s, r.2).

(** ** [UnitSets] *)
Definition units_get (name : string) : U (option UnitId) :=
  mgets (λ s, if is_some (um_units s !! name) then Some name else None).
Definition units_insert (name : string) (x : UeUnit) : U unit :=
  mmodify (λ s, set_um_units (<[name:=x]> (um_units s)) s).
Definition units_all (s : UM E) : list UnitId := hm_keys (um_units s).
Definition units_get_all (unit_type : option UnitType) : U (list UnitId) := mgets (λ s,
  match unit_type with
  | None => units_all s
  | Some ut => filter (λ u, ue_type <$> um_units s !! u = Some ut) (units_all s)
  end).
(** The object behind a handle, and a change of it. *)
Definition ue_get (u : UnitId) : U UeUnit := s ← mget; munwrap (um_units s !! u).
Definition ue_modify (u : UnitId) (f : UeUnit → UeUnit) : U unit :=
  mmodify (λ s, set_um_units (alter f u (um_units s)) s).

(** ** The dependencies *)
Definition um_dep (s : UM E) : UnitDepData :=
  {| dep_units := dom (um_units s); dep_rentry := um_re s; dep_t := um_t s |}.
Definition set_um_dep (d : UnitDepData) (s : UM E) : UM E :=
  set_um_re (dep_rentry d) (set_um_t (dep_t d) s).
Definition dep_run {A} : M UnitDepData A → U A := mzoom um_dep set_um_dep.
Definition dep_insert (source : UnitId) (relation : UnitRelations) (dest : UnitId)
    (reference : bool) (source_mask : Z) : U unit :=
  dep_run (UnitDepData.insert source relation dest reference source_mask).
Definition dep_gets (name : string) (relation : UnitRelations) : U (list UnitId) := mgets (λ s,
  if is_some (um_units s !! name) then UnitDepData.gets (um_t s) name relation else []).

(** ** [UnitRe] *)
Definition base_contains (u : UnitId) : U unit :=
  s ← mget; massert (redb_contains_key u (re_base (um_re s))).
Definition rx_modify (f : UnitReX → UnitReX) : U unit := mmodify (λ s, set_um_rex (f (um_rex s)) s).
Definition base_insert (u : UnitId) (ut : UnitType) : U unit := mmodify (λ s,
  set_um_re {| re_base := redb_insert u ut (re_base (um_re s)); re_dep := re_dep (um_re s) |} s).
Definition base_get (u : UnitId) : U (option UnitType) := mgets (λ s, redb_get u (re_base (um_re s))).
Definition base_keys : U (list UnitId) := mgets (λ s, redb_keys (re_base (um_re s))).
Definition load_insert (u : UnitId) (st : UnitLoadState) : U unit :=
  base_contains u;; rx_modify (λ r, set_rx_load (redb_insert u st (rx_load r)) r).
Definition conf_insert (u : UnitId) (c : UeConfigUnit) (i : UeConfigInstall) : U unit :=
  base_contains u;; rx_modify (λ r, set_rx_conf (redb_insert u (c, i) (rx_conf r)) r).
Definition cgroup_insert (u : UnitId) (path : string) : U unit :=
  base_contains u;; rx_modify (λ r, set_rx_cgroup (redb_insert u path (rx_cgroup r)) r).
Definition child_insert (u : UnitId) (pids : list Pid) : U unit :=
  base_contains u;; rx_modify (λ r, set_rx_child (redb_insert u pids (rx_child r)) r).
Definition child_get (u : UnitId) : U (list Pid) :=
  mgets (λ s, default [] (redb_get u (rx_child (um_rex s)))).
Definition child_keys : U (list UnitId) := mgets (λ s, redb_keys (rx_child (um_rex s))).
Definition pps_get (r : UnitReX) (u : UnitId) : Z := default 0 (redb_get u (rx_pps r)).
Definition pps_insert (u : UnitId) : U unit :=
  base_contains u;; rx_modify (λ r, set_rx_pps (redb_insert u 0 (rx_pps r)) r).
Definition pps_set (u : UnitId) (mask : Z) : U unit :=
  base_contains u;;
  rx_modify (λ r, set_rx_pps (redb_insert u (pps_union (pps_get r u) mask) (rx_pps r)) r).
Definition pps_clear (u : UnitId) (mask : Z) : U unit :=
  base_contains u;;
  rx_modify (λ r, set_rx_pps (redb_insert u (pps_minus (pps_get r u) mask) (rx_pps r)) r).
Definition pps_contains (u : UnitId) (mask : Z) : U bool :=
  mgets (λ s, pps_has (pps_get (um_rex s) u) mask).
Definition pps_keys : U (list UnitId) := mgets (λ s, redb_keys (rx_pps (um_rex s))).
Definition RELI_LAST_KEY : Z := 0.
Definition notify_insert (fd : Z) : U unit :=
  rx_modify (λ r, set_rx_notify (redb_insert RELI_LAST_KEY fd (rx_notify r)) r).
Definition notify_get : U (option Z) := mgets (λ s, redb_get RELI_LAST_KEY (rx_notify (um_rex s))).

(** ** The entry of a unit *)
Definition ue_config (x : UeUnit) : UeConfigUnit := u_config (ue_unit x).
Definition ue_load_state (x : UeUnit) : UnitLoadState := u_load_state (ue_unit x).
Definition set_ue_config (c : UeConfigUnit) (x : UeUnit) : UeUnit :=
  set_ue_unit {| u_config := c; u_load_state := u_load_state (ue_unit x);
                 u_conditions := u_conditions (ue_unit x); u_start_limit := u_start_limit (ue_unit x) |} x.
Definition set_ue_load_state (st : UnitLoadState) (x : UeUnit) : UeUnit :=
  set_ue_unit {| u_config := u_config (ue_unit x); u_load_state := st;
                 u_conditions := u_conditions (ue_unit x); u_start_limit := u_start_limit (ue_unit x) |} x.
Definition set_ue_start_limit (l : StartLimit) (x : UeUnit) : UeUnit :=
  set_ue_unit (set_start_limit l (ue_unit x)) x.

(** [Unit::new]: each part puts its first value in its table.  The derived
    [Default] of [UeConfigData] is the empty value of each field. *)
Definition UeConfigUnit_empty : UeConfigUnit := {|
  Description := ""; Documentation := ""; IgnoreOnIsolate := false; DefaultDependencies := false;
  RefuseManualStart := false; RefuseManualStop := false;
  OnFailureJobMode := ModeReplace; OnSuccessJobMode := ModeReplace;
  Wants := []; Requires := []; BindsTo := []; Requisite := []; PartOf := [];
  OnFailure := []; OnSuccess := []; Before := []; After := []; Conflicts := [];
  ConditionFileNotEmpty := ""; ConditionNeedsUpdate := ""; ConditionPathExists := "";
  ConditionUser := ""; ConditionFirstBoot := ""; AssertPathExists := "";
  StartLimitInterval := 0; StartLimitBurst := 0;
  SuccessAction := ActionNone; FailureAction := ActionNone; StartLimitAction := ActionNone;
  JobTimeoutSec := 0; JobTimeoutAction := ActionNone |}.
Definition UeUnit_new (ut : UnitType) : UeUnit := {|
  ue_type := ut;
  ue_unit := {| u_config := UeConfigUnit_empty; u_load_state := UnitStub;
                u_conditions := UeCondition_new; u_start_limit := StartLimit_new |};
  ue_install := UeConfigInstall_default;
  ue_in_load := false; ue_in_target := false; ue_pids := ∅; ue_cg_path := "" |}.
Definition Unit_new (ut : UnitType) (name : string) : U UeUnit :=
  let x := UeUnit_new ut in
  base_insert name ut;;
  pps_insert name;;
  conf_insert name (ue_config x) (ue_install x);;
  load_insert name (ue_load_state x);;
  pps_clear name (pps_union QUEUE_LOAD QUEUE_TARGET_DEPS);;
  child_insert name (elements (ue_pids x));;
  cgroup_insert name (ue_cg_path x);;
  mret x.

(** [Unit::db_map] of a unit that is not in the set yet. *)
Definition Unit_db_map (sub_db_map : UnitId → E → E) (name : string) (x : UeUnit) : U UeUnit :=
  ut ← base_get name;
  ut ← munwrap ut;
  massert (bool_decide (ue_type x = ut));;
  r ← mgets um_rex;
  let x := match redb_get name (rx_conf r) with
           | Some (c, i) => set_ue_install i (set_ue_config c x) | None => x end in
  let x := match redb_get name (rx_cgroup r) with Some p => set_ue_cg_path p x | None => x end in
  let x := match redb_get name (rx_load r) with Some st => set_ue_load_state st x | None => x end in
  let x := set_ue_pids (ue_pids x ∪ list_to_set (default [] (redb_get name (rx_child r)))) x in
  rest_do (sub_db_map name);;
  mret x.

(** *** [UeLoad] *)
Definition set_load_state (u : UnitId) (st : UnitLoadState) : U unit :=
  ue_modify u (set_ue_load_state st);; load_insert u st.
Definition load_state (u : UnitId) : U UnitLoadState := x ← ue_get u; mret (ue_load_state x).
Definition set_in_load_queue (u : UnitId) (t : bool) : U unit :=
  ue_modify u (set_ue_in_load t);;
  if t then pps_set u QUEUE_LOAD else pps_clear u QUEUE_LOAD.
Definition set_in_target_dep_queue (u : UnitId) (t : bool) : U unit :=
  ue_modify u (set_ue_in_target t);;
  if t then pps_set u QUEUE_TARGET_DEPS else pps_clear u QUEUE_TARGET_DEPS.
Definition get_description (x : UeUnit) : option string :=
  if decide (Description (ue_config x) = ""%string) then None else Some (Description (ue_config x)).

(** *** [UeChild] *)
Definition child_add_pids (u : UnitId) (pid : Pid) : U unit :=
  ue_modify u (λ x, set_ue_pids ({[pid]} ∪ ue_pids x) x);;
  x ← ue_get u; child_insert u (hs_iter (ue_pids x)).
Definition child_remove_pids (u : UnitId) (pid : Pid) : U unit :=
  ue_modify u (λ x, set_ue_pids (ue_pids x ∖ {[pid]}) x);;
  x ← ue_get u; child_insert u (hs_iter (ue_pids x)).

(** ** [UnitChild] *)
Definition watch_insert (pid : Pid) (u : UnitId) : U unit :=
  mmodify (λ s, set_um_watch (<[pid:=u]> (um_watch s)) s).
Definition add_watch_pid (id : UnitId) (pid : Pid) : U unit :=
  ue_get id;; watch_insert pid id;; child_add_pids id pid.
Definition unwatch_pid (id : UnitId) (pid : Pid) : U unit :=
  ue_get id;;
  mmodify (λ s, set_um_watch (delete pid (um_watch s)) s);;
  child_remove_pids id pid.
Definition get_unit_by_pid (pid : Pid) : U (option UnitId) := mgets (λ s, um_watch s !! pid).
Definition child_db_map : U unit :=
  l ← child_keys;
  mforeach (λ u, ue_get u;; pids ← child_get u; mforeach (λ pid, watch_insert pid u) pids) l.

Context `{HS : !UmSys E} `{HF : !UnitFs E} `{HP : !Processes E}.

Definition child_watch_all_pids (id : UnitId) : U unit :=
  x ← ue_get id;
  if decide (ue_cg_path x = ""%string) then mret tt else
  pids ← rest_ask (cg_get_pids (ue_cg_path x));
  mforeach (add_watch_pid id) pids.

(** *** [UeCgroup] and the processes of a unit *)
Definition cg_escape (id : string) : string := id.
Definition setup_cg_path (u : UnitId) : U unit :=
  x ← ue_get u;
  mwhen (bool_decide (ue_cg_path x = ""%string)) (ue_modify u (set_ue_cg_path (cg_escape u)));;
  x ← ue_get u; cgroup_insert u (ue_cg_path x).
Definition prepare_exec (u : UnitId) : U (Result unit Error) :=
  setup_cg_path u;;
  x ← ue_get u;
  b ← rest_call (cg_create (ue_cg_path x));
  mret (if (b : bool) then Ok tt else Err (ErrOther "ConvertToSysmaster")).
Definition kill_pid (pid : option Pid) (sig : Signal) : U unit :=
  match pid with
  | None => mret tt
  | Some p =>
    b ← rest_call (sys_kill p sig);
    mwhen (b && negb (bool_decide (sig = SIGCONT)) && negb (bool_decide (sig = SIGKILL)))
      (rest_call (sys_kill p SIGCONT);; mret tt)
  end.
Definition pids_set (m_pid c_pid : option Pid) : gset Pid :=
  match m_pid with Some p => {[p]} | None => ∅ end ∪ match c_pid with Some p => {[p]} | None => ∅ end.
Definition kill_context (u : UnitId) (k : KillContext) (m_pid c_pid : option Pid) (ko : KillOperation)
    : U (Result unit Error) :=
  let sig := to_signal ko k in
  kill_pid m_pid sig;;
  kill_pid c_pid sig;;
  x ← ue_get u;
  mwhen (negb (bool_decide (ue_cg_path x = ""%string))
         && (bool_decide (kill_mode k = ControlGroup)
             || (bool_decide (kill_mode k = Mixed) && bool_decide (ko = KillKill))))
    (rest_call (cg_kill_recursive (ue_cg_path x) sig (pids_set m_pid c_pid));; mret tt);;
  mret (Ok tt).

(** [process_util::my_child]: it compares the parent of the process with the
    parent of the manager. *)
Definition get_ppid (pid : Pid) (e : E) : option Pid :=
  if decide (pid = 0 ∨ pid = sys_getpid e) then Some (sys_getppid e) else sys_ppid_of pid e.
Definition my_child (pid : Pid) (e : E) : bool :=
  if pid <=? 1 then false else
  match get_ppid pid e with Some p => bool_decide (p = sys_getppid e) | None => false end.
Definition guess_main_pid (u : UnitId) : U (Result Pid Error) :=
  x ← ue_get u;
  if decide (ue_cg_path x = ""%string)
  then mret (Err (ErrOther "cgroup path is empty, can not guess main pid from cgroup path")) else
  e ← mgets um_rest;
  mret (Ok (default 0 (head (filter (λ pid, pid ≠ 0 ∧ my_child pid e)
    (cg_get_pids (ue_cg_path x) e))))).

Definition with_ignore_on_isolate (b : bool) (c : UeConfigUnit) : UeConfigUnit := {|
    Description := Description c; Documentation := Documentation c; IgnoreOnIsolate := b;
    DefaultDependencies := DefaultDependencies c; RefuseManualStart := RefuseManualStart c;
    RefuseManualStop := RefuseManualStop c; OnFailureJobMode := OnFailureJobMode c;
    OnSuccessJobMode := OnSuccessJobMode c; Wants := Wants c; Requires := Requires c;
    BindsTo := BindsTo c; Requisite := Requisite c; PartOf := PartOf c; OnFailure := OnFailure c;
    OnSuccess := OnSuccess c; Before := Before c; After := After c; Conflicts := Conflicts c;
    ConditionFileNotEmpty := ConditionFileNotEmpty c; ConditionNeedsUpdate := ConditionNeedsUpdate c;
    ConditionPathExists := ConditionPathExists c; ConditionUser := ConditionUser c;
    ConditionFirstBoot := ConditionFirstBoot c; AssertPathExists := AssertPathExists c;
    StartLimitInterval := StartLimitInterval c; StartLimitBurst := StartLimitBurst c;
    SuccessAction := SuccessAction c; FailureAction := FailureAction c;
    StartLimitAction := StartLimitAction c; JobTimeoutSec := JobTimeoutSec c;
    JobTimeoutAction := JobTimeoutAction c |}.

(** ** Reading the files of a unit ([load_fragment_and_dropin]) *)
Definition file_run {A} : M (UnitFileData * E) A → U A :=
  mzoom (λ s, (um_file s, um_rest s)) (λ p s, set_um_rest p.2 (set_um_file p.1 s)).
Definition with_deps (w r a : list string) (c : UeConfigUnit) : UeConfigUnit := {|
  Description := Description c; Documentation := Documentation c;
  IgnoreOnIsolate := IgnoreOnIsolate c; DefaultDependencies := DefaultDependencies c;
  RefuseManualStart := RefuseManualStart c; RefuseManualStop := RefuseManualStop c;
  OnFailureJobMode := OnFailureJobMode c; OnSuccessJobMode := OnSuccessJobMode c;
  Wants := w; Requires := r; BindsTo := BindsTo c; Requisite := Requisite c; PartOf := PartOf c;
  OnFailure := OnFailure c; OnSuccess := OnSuccess c; Before := Before c; After := a;
  Conflicts := Conflicts c; ConditionFileNotEmpty := ConditionFileNotEmpty c;
  ConditionNeedsUpdate := ConditionNeedsUpdate c; ConditionPathExists := ConditionPathExists c;
  ConditionUser := ConditionUser c; ConditionFirstBoot := ConditionFirstBoot c;
  AssertPathExists := AssertPathExists c; StartLimitInterval := StartLimitInterval c;
  StartLimitBurst := StartLimitBurst c; SuccessAction := SuccessAction c;
  FailureAction := FailureAction c; StartLimitAction := StartLimitAction c;
  JobTimeoutSec := JobTimeoutSec c; JobTimeoutAction := JobTimeoutAction c |}.
(** The unit waits for whatever is linked below its name. *)
Definition add_dropins (wants requires : list string) (c : UeConfigUnit) : UeConfigUnit :=
  with_deps (Wants c ++ wants) (Requires c ++ requires) (After c ++ wants ++ requires) c.
Definition load_fragment_and_dropin (u : UnitId) : U (Result unit Error) :=
  file ← mgets um_file;
  let frags := get_unit_id_fragment_pathbuf u file in
  if decide (frags = []) then mret (Err (ErrOther ("config file for " +:+ u +:+ " is not exist"))) else
  e ← mgets um_rest;
  if negb (forallb (λ v, uf_exists v e) frags)
  then mret (Err (ErrOther ("config file is not exist " +:+ u))) else
  match cfg_load frags e with
  | None => mret (Err (ErrOther "confique"))
  | Some (c, i) =>
    let c' := add_dropins (get_unit_wants_symlink_units u file)
                (get_unit_requires_symlink_units u file) c in
    ue_modify u (λ x, set_ue_install i (set_ue_config c' x));;
    conf_insert u c' i;;
    mret (Ok tt)
  end.
End store.
