(* ===== verification/UmLoad.v ===== *)
(** * The unit manager: loading, and what the units may ask

    The queues of the units to load ([core/bin/unit/runtime.rs]), the creation of
    units ([uload.rs]), the load of one unit ([entry/load.rs], [uentry.rs]) and the
    calls of [UmIf] and [UnitBase] ([manager.rs]), with the notifications of the
    [DataManager] ([data/table.rs]).

    Loading a unit runs the [load] of its kind, which may ask the manager to load
    other units.  What a kind of unit does is a program [Prog] of calls to the
    manager; [load_queue_loop] ties the knot, with fuel for the units that are
    loaded inside one another. *)
From S2P Require Import Prelude UnitTypes Relation ReDb UnitDb RateLimit UnitEntry UnitFile ExecParams UnitIf JobRentry JobData UmStore.
Local Open Scope Z_scope.

(** ** The calls a unit makes *)
Inductive UmCall (E : Type) : Type → Type :=
| CUnitHasDependency (s_name : string) (atom : UnitRelationAtom) (t_name : string) : UmCall E bool
| CUnitAddDependency (u : string) (r : UnitRelations) (t : string) (add_ref : bool)
    (mask : UnitDependencyMask) : UmCall E (Result unit Error)
| CUnitAddTwoDependency (u : string) (ra rb : UnitRelations) (t : string) (add_ref : bool)
    (mask : UnitDependencyMask) : UmCall E (Result unit Error)
| CLoadUnitSuccess (name : string) : UmCall E bool
| CUnitEnabled (name : string) : UmCall E (Result unit Error)
| CHasStopJob (name : string) : UmCall E bool
| CRelationActiveOrPending (name : string) : UmCall E bool
| CStartUnit (name : string) : UmCall E (Result unit Error)
| CRestartUnit (name : string) : UmCall E (Result unit Error)
| CChildWatchPid (id : string) (pid : Pid) : UmCall E unit
| CChildUnwatchPid (id : string) (pid : Pid) : UmCall E unit
| CChildWatchAllPids (id : string) : UmCall E unit
| CSameUnitWithPid (u : string) (pid : Pid) : UmCall E bool
| CCollectSocketFds (name : string) : UmCall E (list Z)
| CGetDependencyList (u : string) (atom : UnitRelationAtom) : UmCall E (list string)
| CUnitHasDefaultDependency (u : string) : UmCall E bool
| CUnitsGetAll (ut : option UnitType) : UmCall E (list string)
| CCurrentActiveState (u : string) : UmCall E UnitActiveState
| CGetSubunitState (u : string) : UmCall E string
| CExecSpawn (u : string) (cmd : ExecCommand) (params : ExecParameters) (ctx : ExecContext) :
    UmCall E (Result Pid Error)
| CNotifySocket : UmCall E (option string)
| CRentryTriggerMerge (u : string) (force : bool) : UmCall E unit
| CTestStartLimit (u : string) : UmCall E bool
| CNotify (u : string) (st : UnitState) : UmCall E unit
| CPrepareExec (u : string) : UmCall E (Result unit Error)
| CKillContext (u : string) (k : KillContext) (m_pid c_pid : option Pid) (ko : KillOperation) :
    UmCall E (Result unit Error)
| CGuessMainPid (u : string) : UmCall E (Result Pid Error)
| CIgnoreOnIsolate (u : string) : UmCall E bool
| CSetIgnoreOnIsolate (u : string) (b : bool) : UmCall E unit
| CRest {A : Type} (f : E → E * A) : UmCall E A.
Arguments CUnitHasDependency {E}. Arguments CUnitAddDependency {E}. Arguments CUnitAddTwoDependency {E}.
Arguments CLoadUnitSuccess {E}. Arguments CUnitEnabled {E}. Arguments CHasStopJob {E}.
Arguments CRelationActiveOrPending {E}. Arguments CStartUnit {E}. Arguments CRestartUnit {E}.
Arguments CChildWatchPid {E}. Arguments CChildUnwatchPid {E}. Arguments CChildWatchAllPids {E}.
Arguments CSameUnitWithPid {E}. Arguments CCollectSocketFds {E}. Arguments CGetDependencyList {E}.
Arguments CUnitHasDefaultDependency {E}. Arguments CUnitsGetAll {E}. Arguments CCurrentActiveState {E}.
Arguments CGetSubunitState {E}. Arguments CExecSpawn {E}. Arguments CNotifySocket {E}.
Arguments CRentryTriggerMerge {E}. Arguments CTestStartLimit {E}. Arguments CNotify {E}.
Arguments CPrepareExec {E}. Arguments CKillContext {E}. Arguments CGuessMainPid {E}.
Arguments CIgnoreOnIsolate {E}. Arguments CSetIgnoreOnIsolate {E}. Arguments CRest {E A}.

(** A program of calls, that ends with an [A]. *)
Inductive Prog (E A : Type) : Type :=
| PRet (a : A)
| PCall {X : Type} (c : UmCall E X) (k : X → Prog E A).
Arguments PRet {E A}. Arguments PCall {E A X}.

(** *** The other parts of the manager *)

(** The sub-units, behind the trait [SubUnit] ([core/lib/unit/base.rs]). *)
Class SubUnitProgs (E : Type) : Type := {
  sp_current_active_state : UnitId → E → UnitActiveState;
  sp_get_subunit_state : UnitId → E → string;
  sp_collect_fds : UnitId → E → list Z;
  sp_load : UnitId → list string → Prog E (Result unit Error);
  sp_sigchld_events : UnitId → WaitStatus → Prog E unit;
  sp_notify_message : UnitId → Pid → gmap string string → list Z → Prog E (Result unit Error);
  sp_entry_coldplug : UnitId → Prog E unit;
  sp_entry_clear : UnitId → E → E;
  sp_db_map : UnitId → E → E;
}.

(** The job manager, which reads the units; [jm_trigger_unit] and the
    compensations run jobs, that is programs of the units. *)
Class JobEngine (E : Type) : Type := {
  jm_exec : UnitId → JobKind → JobMode → UM E → E * Result unit Error;
  jm_has_stop_job : UnitId → E → bool;
  jm_has_start_like_job : UnitId → E → bool;
  jm_try_finish : UnitId → UnitState → UM E → E * Result unit Error;
  jm_rentry_trigger_merge : UnitId → bool → E → E;
  jm_trigger_unit : UnitId → Prog E unit;
  jm_db_compensate_last : option UnitId → E → E;
  jm_db_compensate_history : UM E → E;
  jm_do_compensate_last : option UnitId → Prog E unit;
  jm_do_compensate_others : option UnitId → Prog E unit;
  jm_db_map : UM E → E;
  jm_coldplug_unit : UnitId → UM E → E;
  jm_entry_clear : E → E;
}.

(** [ExecSpawn::spawn], which forks, and [nix::sys::reboot]. *)
Class Spawner (E : Type) : Type := {
  exec_spawn : UnitId → ExecCommand → ExecParameters → ExecContext → UM E → E * Result Pid Error;
  sys_reboot : State → E → E;
}.

(** The numbers of the frames and of the queues ([core/bin/manager/rentry.rs]). *)
Definition LAST_QUEUE : Z := 0.
Definition LAST_QUEUE_LOAD : Z := 0.
Definition LAST_QUEUE_TARGET_DEPS : Z := 1.
Definition MASK_DEFAULT : Z := 4.

(** [UeLoad::parse]'s table of the configured dependencies. *)
Definition ud_conf_insert_table (c : UeConfigUnit) : list (UnitRelations * list string) :=
  [(UnitWants, Wants c); (UnitAfter, After c); (UnitBefore, Before c); (UnitRequires, Requires c);
   (UnitBindsTo, BindsTo c); (UnitRequisite, Requisite c); (UnitOnFailure, OnFailure c);
   (UnitOnSuccess, OnSuccess c); (UnitPartOf, PartOf c); (UnitConflicts, Conflicts c)].
Definition UnitDepConf_of (c : UeConfigUnit) : gmap UnitRelations (list string) :=
  foldl (λ m rl, <[rl.1:=rl.2]> m) ∅ (ud_conf_insert_table c).

Section um.
Context `{HI : !HashIter} {E : Type}.
Context `{HS : !UmSys E} `{HF : !UnitFs E} `{HP : !Processes E} `{HL : !Reli E}.
Context `{HU : !SubUnitProgs E} `{HJ : !JobEngine E} `{HX : !Spawner E}.
Abbreviation U := (M (UM E)).

(** A call of another part that reads the manager and changes the rest. *)
Definition um_outside {A} (f : UM E → E * A) : U A := λ s,
  let r := f s in Returned (set_um_rest r.1 s, r.2).

(** [Table::insert] of a table of the [DataManager]: the table is borrowed while
    the subscriber is notified, so that a second insertion panics. *)
Definition dm_insert (table : Z) (notify : U unit) : U unit :=
  s ← mget;
  massert (bool_decide (table ∉ um_borrowed s));;
  mmodify (λ s, set_um_borrowed ({[table]} ∪ um_borrowed s) s);;
  notify;;
  mmodify (λ s, set_um_borrowed (um_borrowed s ∖ {[table]}) s).

(** ** Creating units ([UnitLoadData]) *)
Definition push_load_queue (u : UnitId) : U unit :=
  x ← ue_get u;
  if ue_in_load x then mret tt else
  set_in_load_queue u true;;
  mmodify (λ s, set_um_load_queue (um_load_queue s ++ [u]) s).
Definition push_target_dep_queue (u : UnitId) : U unit :=
  x ← ue_get u;
  if ue_in_target x then mret tt else
  set_in_target_dep_queue u true;;
  mmodify (λ s, set_um_target_dep_queue (um_target_dep_queue s ++ [u]) s).
Definition try_new_unit (name : string) : U (option UeUnit) :=
  let unit_type := unit_name_to_type name in
  if decide (unit_type = UnitTypeInvalid) then mret None else
  b ← rest_call (sub_create unit_type name);
  if negb b then mret None else
  x ← Unit_new unit_type name; mret (Some x).
Definition prepare_unit (name : string) : U (option UnitId) :=
  x ← try_new_unit name;
  match x with
  | Some x => units_insert name x;; push_load_queue name;; mret (Some name)
  | None => mret None
  end.
Definition push_dep_unit_into_load_queue (name : string) : U (option UnitId) :=
  o ← units_get name;
  match o with Some u => mret (Some u) | None => prepare_unit name end.

(** [insert_udconf]: it gives up at the first name that is not a unit. *)
Fixpoint insert_names (u : UnitId) (r : UnitRelations) (l : list string) : U bool :=
  match l with
  | [] => mret true
  | o_name :: l' =>
    o ← push_dep_unit_into_load_queue o_name;
    match o with
    | None => mret false
    | Some tmp_unit => dep_insert u r tmp_unit true 0;; insert_names u r l'
    end
  end.
Fixpoint insert_relations (u : UnitId) (l : list (UnitRelations * list string)) : U unit :=
  match l with
  | [] => mret tt
  | (r, names) :: l' =>
    b ← insert_names u r names;
    if (b : bool) then insert_relations u l' else mret tt
  end.
Definition insert_udconf (name : string) (deps : gmap UnitRelations (list string)) : U unit :=
  o ← units_get name;
  match o with None => mret tt | Some u => insert_relations u (hm_iter deps) end.

(** [UeLoad::parse] and [load_unit_confs] *)
Definition parse (u : UnitId) : U unit :=
  x ← ue_get u;
  dm_insert 0 (insert_udconf u (UnitDepConf_of (ue_config x))).
Definition load_unit_confs (u : UnitId) : U (Result unit Error) :=
  x ← ue_get u;
  file_run (build_id_map u (bool_decide (ue_load_state x = UnitLoaded)));;
  r ← load_fragment_and_dropin u;
  match r with Err e => mret (Err e) | Ok _ => parse u;; mret (Ok tt) end.

(** ** The default dependencies of targets *)

(** Every early exit leaves the loop over the targets. *)
Fixpoint target_deps (u : UnitId) (targets : list UnitId) : U unit :=
  match targets with
  | [] => mret tt
  | dep_target :: l =>
    t ← ue_get dep_target;
    x ← ue_get u;
    s ← mget;
    if negb (bool_decide (ue_type t = UnitTarget)) then mret tt else
    if negb (bool_decide (ue_load_state x = UnitLoaded))
       || negb (bool_decide (ue_load_state t = UnitLoaded)) then mret tt else
    if negb (DefaultDependencies (ue_config x)) || negb (DefaultDependencies (ue_config t))
    then mret tt else
    if is_dep_atom_with (um_t s) dep_target UnitAtomBefore u then mret tt else
    dep_insert dep_target UnitAfter u true MASK_DEFAULT;;
    target_deps u l
  end.
Definition dispatch_target_dep_unit (u : UnitId) : U unit :=
  set_in_target_dep_queue u false;;
  s ← mget;
  target_deps u (gets_atom (um_t s) u UnitAtomDefaultTargetDependencies).
Fixpoint target_queue_loop (fuel : nat) : U unit :=
  match fuel with
  | O => mnofuel
  | S fuel' =>
    s ← mget;
    match um_target_dep_queue s with
    | [] => mret tt
    | u :: q =>
      mmodify (set_um_target_dep_queue q);;
      rest_do (reli_set_last_unit u);;
      dispatch_target_dep_unit u;;
      rest_do reli_clear_last_unit;;
      target_queue_loop fuel'
    end
  end.
Definition dispatch_target_dep_queue : U unit :=
  s ← mget; target_queue_loop (S (length (um_target_dep_queue s))).

(** ** The calls, for a manager that loads with [load] *)
Section calls.
Context (load : string → U (option UnitId)).

Definition load_unit_success (name : string) : U bool :=
  o ← load name;
  match o with
  | Some u => st ← load_state u; mret (bool_decide (st = UnitLoaded))
  | None => mret false
  end.
Definition unit_add_dependency (u : string) (r : UnitRelations) (t : string) (add_ref : bool)
    (mask : UnitDependencyMask) : U (Result unit Error) :=
  s_unit ← load u;
  match s_unit with
  | None => mret (Err UnitActionENoent)
  | Some s_unit =>
    t_unit ← load t;
    match t_unit with
    | None => mret (Err UnitActionENoent)
    | Some t_unit => dep_insert s_unit r t_unit add_ref (Z.shiftl 1 2);; mret (Ok tt)
    end
  end.
Definition exec_job (name : string) (kind : JobKind) (missing : Error)
    (refuse : UeConfigUnit → option Error) : U (Result unit Error) :=
  o ← load name;
  match o with
  | None => mret (Err missing)
  | Some u =>
    x ← ue_get u;
    match refuse (ue_config x) with
    | Some e => mret (Err e)
    | None => um_outside (jm_exec u kind ModeReplace)
    end
  end.
Definition start_unit (name : string) := exec_job name Start UnitActionENoent (λ _, None).
Definition start_unit_manual (name : string) := exec_job name Start UnitActionENoent
  (λ c, if RefuseManualStart c then Some UnitActionERefuseManualStart else None).
Definition stop_unit (name : string) := exec_job name Stop UnitActionENoent (λ _, None).
Definition stop_unit_manual (name : string) := exec_job name Stop UnitActionENoent
  (λ c, if RefuseManualStop c then Some UnitActionERefuseManualStop else None).
Definition reload (name : string) := exec_job name Reload ErrInternal (λ _, None).
Definition restart_unit (name : string) := exec_job name Restart ErrInternal (λ _, None).

Definition active_of (u : UnitId) (s : UM E) : UnitActiveState := sp_current_active_state u (um_rest s).

(** *** The emergency actions *)
Definition is_graceful (a : UnitEmergencyAction) : bool :=
  match a with Reboot | Poweroff | Exit => true | _ => false end.
(** A shutdown that is under way. *)
Definition shutting_down (s : UM E) : bool :=
  is_some (um_units s !! SHUTDOWN_TARGET)
  && (is_active_or_activating (active_of SHUTDOWN_TARGET s)
      || jm_has_start_like_job SHUTDOWN_TARGET (um_rest s)).
Definition set_state (st : State) : U unit := mmodify (set_um_state st).
Definition start_quietly (name : string) : U unit := start_unit name;; mret tt.
Definition unit_emergency_action (action : UnitEmergencyAction) : U unit :=
  if decide (action = ActionNone) then mret tt else
  s ← mget;
  if is_graceful action && shutting_down s then mret tt else
  match action with
  | Reboot => start_quietly "reboot.target"
  | RebootForce => set_state State.Reboot
  | RebootImmediate => rest_do (sys_reboot State.Reboot)
  | Poweroff => start_quietly "poweroff.target"
  | PoweroffForce => set_state State.PowerOff
  | PoweroffImmediate => rest_do (sys_reboot State.PowerOff)
  | Exit => start_quietly "exit.target"
  | ExitForce => set_state State.Exit
  | ActionNone => mret tt
  end.

(** *** The subscriptions of the manager *)
Definition insert_states (source : string) (st : UnitState) : U unit :=
  o ← units_get source;
  match o with
  | None => mret tt
  | Some u =>
    x ← ue_get u;
    mwhen (negb (bool_decide (st_os st = UnitFailed)) && bool_decide (st_ns st = UnitFailed))
      (unit_emergency_action (FailureAction (ue_config x)));;
    x ← ue_get u;
    mwhen (negb (is_inactive_or_failed (st_os st)) && bool_decide (st_ns st = UnitInActive))
      (unit_emergency_action (SuccessAction (ue_config x)));;
    um_outside (jm_try_finish u st);; mret tt
  end.
Definition insert_start_limit_res (source : string) (r : StartLimitResult) : U unit :=
  if match r with StartLimitNotHit => true | StartLimitHit => false end then mret tt else
  o ← units_get source;
  match o with
  | None => mret tt
  | Some u => x ← ue_get u; unit_emergency_action (StartLimitAction (ue_config x))
  end.
Definition insert_job_result (source : string) (timeout : bool) : U unit :=
  if negb timeout then mret tt else
  o ← units_get source;
  match o with
  | None => mret tt
  | Some u => x ← ue_get u; unit_emergency_action (JobTimeoutAction (ue_config x))
  end.
Definition notify (u : UnitId) (st : UnitState) : U unit := dm_insert 1 (insert_states u st).
Definition test_start_limit (u : UnitId) : U bool :=
  x ← ue_get u;
  e ← mgets um_rest;
  let c := ue_config x in
  let l := if (0 <? StartLimitInterval c) && (0 <? StartLimitBurst c)
           then StartLimit_init_from_config (StartLimitInterval c) (StartLimitBurst c)
                  (u_start_limit (ue_unit x))
           else u_start_limit (ue_unit x) in
  let lb := StartLimit_ratelimit_below (sys_now e) l in
  if lb.2 then
    ue_modify u (set_ue_start_limit (set_hit false lb.1));;
    dm_insert 2 (insert_start_limit_res u StartLimitNotHit);; mret true
  else
    ue_modify u (set_ue_start_limit (set_hit true lb.1));;
    dm_insert 2 (insert_start_limit_res u StartLimitHit);; mret false.

(** *** [UmIf] *)
Definition unit_has_dependecy (s_name : string) (atom : UnitRelationAtom) (t_name : string) : U bool :=
  mgets (λ s, is_some (um_units s !! s_name) && is_some (um_units s !! t_name)
              && is_dep_atom_with (um_t s) s_name atom t_name).
Definition get_dependency_list (u : string) (atom : UnitRelationAtom) : U (list string) :=
  mgets (λ s, if is_some (um_units s !! u) then gets_atom (um_t s) u atom else []).
Definition activated (st : UnitActiveState) : bool :=
  match st with UnitInActive | UnitFailed | UnitActivating => false | _ => true end.
Definition unit_enabled (name : string) : U (Result unit Error) := mgets (λ s,
  match um_units s !! name with
  | None => Err UnitActionENoent
  | Some x =>
    if negb (bool_decide (ue_load_state x = UnitLoaded)) then Err UnitActionENoent
    else if activated (active_of name s) then Err UnitActionEBusy else Ok tt
  end).
Definition has_stop_job (name : string) : U bool := mgets (λ s,
  is_some (um_units s !! name) && jm_has_stop_job name (um_rest s)).
Definition relation_active_or_pending (name : string) : U bool :=
  deps ← dep_gets name UnitTriggers;
  mgets (λ s, existsb (λ dep, is_active_or_activating (active_of dep s)) deps).
Definition valid_pid (pid : Pid) : bool := 0 <? pid.
Definition same_unit_with_pid (u : string) (pid : Pid) : U bool := mgets (λ s,
  valid_pid pid && bool_decide (um_watch s !! pid = Some u)).
Definition collect_socket_fds (name : string) : U (list Z) :=
  deps ← dep_gets name UnitTriggeredBy;
  mgets (λ s, deps ≫= (λ dep,
    if decide (ue_type <$> um_units s !! dep = Some UnitSocket)
    then sp_collect_fds dep (um_rest s) else [])).
Definition unit_has_default_dependecy (name : string) : U bool := mgets (λ s,
  match um_units s !! name with Some x => DefaultDependencies (ue_config x) | None => false end).
Definition um_current_active_state (name : string) : U UnitActiveState := mgets (λ s,
  if is_some (um_units s !! name) then active_of name s else UnitFailed).
Definition um_get_subunit_state (name : string) : U string := mgets (λ s,
  if is_some (um_units s !! name) then sp_get_subunit_state name (um_rest s) else ""%string).
Definition um_exec_spawn (u : string) (cmd : ExecCommand) (params : ExecParameters)
    (ctx : ExecContext) : U (Result Pid Error) :=
  o ← units_get u;
  match o with
  | Some u => um_outside (exec_spawn u cmd params ctx)
  | None => mret (Err (ErrOther "SpawnError"))
  end.
Definition NOTIFY_SOCKET : string := "/run/sysmaster/notify".
Definition set_ignore_on_isolate (b : bool) (x : UeUnit) : UeUnit :=
  set_ue_config (with_ignore_on_isolate b (ue_config x)) x.

Definition um_call {X} (c : UmCall E X) : U X :=
  match c in UmCall _ X return U X with
  | CUnitHasDependency s a t => unit_has_dependecy s a t
  | CUnitAddDependency u r t add_ref mask => unit_add_dependency u r t add_ref mask
  | CUnitAddTwoDependency u ra rb t add_ref mask =>
    r ← unit_add_dependency u ra t add_ref mask;
    match r with Err e => mret (Err e) | Ok _ => unit_add_dependency u rb t add_ref mask end
  | CLoadUnitSuccess name => load_unit_success name
  | CUnitEnabled name => unit_enabled name
  | CHasStopJob name => has_stop_job name
  | CRelationActiveOrPending name => relation_active_or_pending name
  | CStartUnit name => start_unit name
  | CRestartUnit name => restart_unit name
  | CChildWatchPid id pid => add_watch_pid id pid
  | CChildUnwatchPid id pid => unwatch_pid id pid
  | CChildWatchAllPids id => child_watch_all_pids id
  | CSameUnitWithPid u pid => same_unit_with_pid u pid
  | CCollectSocketFds name => collect_socket_fds name
  | CGetDependencyList u a => get_dependency_list u a
  | CUnitHasDefaultDependency u => unit_has_default_dependecy u
  | CUnitsGetAll ut => units_get_all ut
  | CCurrentActiveState u => um_current_active_state u
  | CGetSubunitState u => um_get_subunit_state u
  | CExecSpawn u cmd params ctx => um_exec_spawn u cmd params ctx
  | CNotifySocket => mret (Some NOTIFY_SOCKET)
  | CRentryTriggerMerge u force => rest_do (jm_rentry_trigger_merge u force)
  | CTestStartLimit u => test_start_limit u
  | CNotify u st => notify u st
  | CPrepareExec u => prepare_exec u
  | CKillContext u k m_pid c_pid ko => kill_context u k m_pid c_pid ko
  | CGuessMainPid u => guess_main_pid u
  | CIgnoreOnIsolate u => x ← ue_get u; mret (IgnoreOnIsolate (ue_config x))
  | CSetIgnoreOnIsolate u b => ue_modify u (set_ignore_on_isolate b)
  | CRest f => rest_call f
  end.
Fixpoint run_prog {A} (p : Prog E A) : U A :=
  match p with
  | PRet a => mret a
  | PCall c k => x ← um_call c; run_prog (k x)
  end.

(** [Unit::load_unit] *)
Definition Unit_load (u : UnitId) : U (Result unit Error) :=
  set_in_load_queue u false;;
  x ← ue_get u;
  if decide (ue_type x = UnitMount) then set_load_state u UnitLoaded;; mret (Ok tt) else
  r ← load_unit_confs u;
  match r with
  | Err e => set_load_state u UnitNotFound;; mret (Err e)
  | Ok _ =>
    file ← mgets um_file;
    r ← run_prog (sp_load u (get_unit_id_fragment_pathbuf u file));
    match r with
    | Err e => mret (Err e)
    | Ok _ => set_load_state u UnitLoaded;; mret (Ok tt)
    end
  end.
End calls.

(** ** The load queue *)

(** [UnitRTData::dispatch_load_queue], around the loop over its queue. *)
Definition dispatch_frames (loop : U unit) : U unit :=
  rest_do (reli_set_last_frame2 LAST_QUEUE LAST_QUEUE_LOAD);;
  loop;;
  rest_do reli_clear_last_frame;;
  rest_do (reli_set_last_frame2 LAST_QUEUE LAST_QUEUE_TARGET_DEPS);;
  dispatch_target_dep_queue;;
  rest_do reli_clear_last_frame.
(** [UnitLoadData::load_unit] *)
Definition load_unit_by (loop : U unit) (name : string) : U (option UnitId) :=
  o ← units_get name;
  match o with
  | Some u => mret (Some u)
  | None =>
    p ← prepare_unit name;
    match p with
    | None => mret None
    | Some u => dispatch_frames loop;; mret (Some u)
    end
  end.
Fixpoint load_queue_loop (fuel : nat) : U unit :=
  match fuel with
  | O => mnofuel
  | S fuel' =>
    s ← mget;
    match um_load_queue s with
    | [] => mret tt
    | u :: q =>
      mmodify (set_um_load_queue q);;
      rest_do (reli_set_last_unit u);;
      r ← Unit_load (load_unit_by (load_queue_loop fuel')) u;
      match r with
      | Ok _ =>
        st ← load_state u;
        mwhen (bool_decide (st = UnitLoaded)) (push_target_dep_queue u)
      | Err _ => mret tt
      end;;
      rest_do reli_clear_last_unit;;
      load_queue_loop fuel'
    end
  end.
Definition dispatch_load_queue (fuel : nat) : U unit := dispatch_frames (load_queue_loop fuel).
Definition load_unit (fuel : nat) : string → U (option UnitId) := load_unit_by (load_queue_loop fuel).
End um.
