(* ===== verification/UmManager.v ===== *)
(** * The unit manager: recovery, child processes and notifications

    The rest of [core/bin/unit]: the recovery of the queues ([runtime.rs]) and of the
    units ([manager.rs], [ReStation for UnitManager]), the managers of the kinds of
    units ([unit_submanager]), the reaping of children ([sigchld.rs]), the notify
    socket ([notify.rs]) and what the status commands show ([manager.rs]). *)
From Stdlib Require Import Ascii.
From S2P Require Import Prelude UnitTypes Relation ReDb UnitDb RateLimit Condition UnitEntry StdString ShowTable Reli UnitFile ExecParams UnitIf JobRentry JobData UmStore UmLoad.
Local Open Scope Z_scope.

(** The event sources of the manager. *)
Inductive UmSource := SrcSigchld | SrcNotify | SrcCommands | SrcSignals | SrcAliveTimer.
#[export] Instance UmSource_eq_dec : EqDecision UmSource.
Proof. solve_decision. Defined.

(** [waitid(All, WNOWAIT)] and [waitid(Pid)]. *)
Class ChildWait (E : Type) : Type := {
  wt_peek : E → Result WaitStatus Z;
  wt_reap : Pid → E → E * bool;
}.
(** The notify socket.  A datagram is what [recvmsg] leaves in the 4096 bytes of the
    buffer, with the process of its credentials and the descriptors that come with it. *)
Class NotifySock (E : Type) : Type := {
  nk_peek : Z → E → E * Result (option Pid * list Z) Z;
  nk_recv : Z → E → E * Result (list ascii * option Pid * list Z) Z;
  nk_close : Z → E → E;
  nk_socket : E → E * Result Z Z;
  nk_create_dir_all : string → E → E * bool;
  nk_unix_addr : string → bool;
  nk_unlink : string → E → E;
  nk_bind : Z → string → E → E * Result unit Z;
  nk_pass_cred : Z → E → E * Result unit Z;
}.
(** The managers of the kinds of units ([UnitManagerObj]), those that the plugins
    have: their stations, and [enumerate], which sets their events up. *)
Class SubManagers (E : Type) : Type := {
  sm_has : UnitType → bool;
  sm_enumerate : UnitType → E → E;
  sm_input_rebuild : UnitType → E → E;
  sm_db_map : UnitType → E → E;
  sm_db_compensate_last : UnitType → ReliFrame → option UnitId → E → E;
  sm_do_compensate_last : UnitType → ReliFrame → option UnitId → Prog E unit;
}.
(** [/proc/<pid>/cmdline], for the status of a unit. *)
Class ProcCmdline (E : Type) : Type := { proc_cmdline : Pid → E → string }.

(** [ReliLastQue] *)
Inductive ReliLastQue :=
| QueLoad | QueTargetDeps | QueGcJob | QueGcUnit | QueClean | QueCgRealize | QueStartWhenUpheld
| QueStopWhenBound | QueStopWhenUnneeded | QueDbus.
Definition ReliLastQue_try_from (value : Z) : option ReliLastQue :=
  match value with
  | 0 => Some QueLoad | 1 => Some QueTargetDeps | 2 => Some QueGcJob | 3 => Some QueGcUnit
  | 4 => Some QueClean | 5 => Some QueCgRealize | 6 => Some QueStartWhenUpheld
  | 7 => Some QueStopWhenBound | 8 => Some QueStopWhenUnneeded | 9 => Some QueDbus
  | _ => None
  end.
Definition UnitType_try_from (value : Z) : option UnitType :=
  match value with
  | 0 => Some UnitService | 1 => Some UnitTarget | 2 => Some UnitSocket | 3 => Some UnitMount
  | _ => None
  end.
Definition UnitType_to_u32 (ut : UnitType) : Z :=
  match ut with
  | UnitService => 0 | UnitTarget => 1 | UnitSocket => 2 | UnitMount => 3
  | UnitTypeMax => 4 | UnitTypeInvalid => 5 | UnitTypeErrnoMax => 6
  end.

(** ** What a notification says *)

(** [str::lines]: a line ends with a line feed, which a carriage return may precede. *)
Definition strip_cr (cs : list ascii) : list ascii :=
  match last cs with Some c => if decide (c = "013"%char) then take (length cs - 1) cs else cs | None => cs end.
Definition lines (cs : list ascii) : list (list ascii) :=
  let parts := split_on (Ascii.eqb "010"%char) [] cs in
  let full := (λ l, strip_cr l) <$> take (length parts - 1) parts in
  match last parts with Some [] | None => full | Some l => full ++ [l] end.
(** [trim_end_matches('\0')] *)
Fixpoint drop_zeros (cs : list ascii) : list ascii :=
  match cs with c :: cs' => if decide (c = "000"%char) then drop_zeros cs' else cs | [] => [] end.
Definition trim_zeros (cs : list ascii) : list ascii := rev (drop_zeros (rev cs)).
(** One line: a key and a value, when it has exactly one equals sign. *)
Definition notify_line (m : gmap string string) (line : list ascii) : gmap string string :=
  match trim_zeros <$> split_on (Ascii.eqb "="%char) [] line with
  | [k; v] => <[of_chars k := of_chars (trim_end v)]> m
  | _ => m
  end.
Definition notify_messages (contents : list ascii) : gmap string string :=
  foldl notify_line ∅ (lines contents).

Section manager.
Context `{HI : !HashIter} {E : Type}.
Context `{HS : !UmSys E} `{HF : !UnitFs E} `{HP : !Processes E} `{HL : !Reli E}.
Context `{HU : !SubUnitProgs E} `{HJ : !JobEngine E} `{HX : !Spawner E}.
Context `{HC : !ChildWait E} `{HN : !NotifySock E} `{HM : !SubManagers E} `{HE : !EventLoop UmSource E}.
Abbreviation U := (M (UM E)).
Context (load : string → U (option UnitId)).
Abbreviation run := (run_prog load).

(** [events.set_enabled(..)] and [add_source(..)], as their callers take the result. *)
Definition set_enabled (x : UmSource) (st : EventState) : U (Result unit Error) :=
  rest_call (ev_set_enabled x st).
Definition result_code (r : Result unit Error) : Z := match r with Ok _ => 0 | Err _ => -1 end.
Definition must (m : U (Result unit Error)) : U unit := r ← m; massert (negb (is_err r)).

(** ** [UnitRTData]: the queues, after a restart *)
Definition clear_mark (mask : Z) (lunit : UnitId) : U unit :=
  b ← pps_contains lunit mask; mwhen b (pps_clear lunit mask).
Definition rc_last_queue_load : UnitId → U unit := clear_mark QUEUE_LOAD.
Definition rc_last_queue_targetdeps : UnitId → U unit := clear_mark QUEUE_TARGET_DEPS.
Definition dc_last_queue_load (lunit : UnitId) : U unit :=
  o ← units_get lunit;
  match o with Some u => Unit_load load u;; mret tt | None => mret tt end.
Definition dc_last_queue_targetdeps (lunit : UnitId) : U unit :=
  o ← units_get lunit;
  match o with Some u => dispatch_target_dep_unit u | None => mret tt end.
(** What both compensations of the queues look at. *)
Definition last_queue (lframe : ReliFrame) (lunit : option UnitId) : option (ReliLastQue * UnitId) :=
  u ← lunit; queue ← lframe.1.2; que ← ReliLastQue_try_from queue; Some (que, u).
Definition rt_db_compensate_last (lframe : ReliFrame) (lunit : option UnitId) : U unit :=
  match last_queue lframe lunit with
  | None => mret tt
  | Some (QueLoad, u) => rc_last_queue_load u
  | Some (QueTargetDeps, u) => rc_last_queue_targetdeps u
  | Some _ => mpanic
  end.
Definition rt_do_compensate_last (lframe : ReliFrame) (lunit : option UnitId) : U unit :=
  match last_queue lframe lunit with
  | None => mret tt
  | Some (QueLoad, u) => dc_last_queue_load u
  | Some (QueTargetDeps, u) => dc_last_queue_targetdeps u
  | Some _ => mpanic
  end.
Definition rt_entry_clear : U unit :=
  mmodify (set_um_load_queue []);; mmodify (set_um_target_dep_queue []).
Definition rt_map_queue (mask : Z) (push : UnitId → U unit) (u : UnitId) : U unit :=
  b ← pps_contains u mask;
  if (b : bool) then (o ← units_get u; u ← munwrap o; push u) else mret tt.
Definition rt_db_map : U unit :=
  l ← pps_keys;
  mforeach (λ u, rt_map_queue QUEUE_LOAD push_load_queue u;;
                 rt_map_queue QUEUE_TARGET_DEPS push_target_dep_queue u) l.

(** ** [Sigchld] *)
Definition sigchld_enable (enable : bool) : U Z :=
  r ← set_enabled SrcSigchld (if enable then On else Off); mret (result_code r).
(** The unit of a process that has ended is told, and forgets the process. *)
Definition sigchld_unit (u : UnitId) (pid : Pid) (ws : WaitStatus) : U unit :=
  rest_do (reli_set_last_unit u);;
  run (sp_sigchld_events u ws);;
  unwatch_pid u pid;;
  rest_do reli_clear_last_unit.
Definition sigchld_dispatch : U bool :=
  r ← rest_ask wt_peek;
  match r with
  | Err _ => mret false
  | Ok ws =>
    match ws with
    | Exited pid _ | Signaled pid _ _ =>
      if pid <=? 0 then mret false else
      o ← get_unit_by_pid pid;
      match o with Some u => sigchld_unit u pid ws | None => mret tt end;;
      rest_call (wt_reap pid);;
      mret true
    | StillAlive => mret false
    | _ => mret true
    end
  end.
Definition sigchld_source_dispatch : U Z :=
  rest_do (reli_set_last_frame1 (ReliLastFrame_to_u32 FrameSigChld));;
  enable ← sigchld_dispatch;
  rest_do reli_clear_last_frame;;
  mwhen (negb enable) (sigchld_enable false;; mret tt);;
  mret 0.

(** ** [Notify] *)
Definition NOTIFY_INVALID_FD : Z := -1.
Definition NOTIFY_INVALID_PID : Z := -1.
Definition nix_error : Error := ErrOther "Nix".
Definition notify_db_map : U unit :=
  fd ← notify_get;
  match fd with
  | Some fd => fd ← rest_call (reli_fd_take fd); mmodify (set_um_notify_fd fd)
  | None => mret tt
  end.
Definition notify_db_insert : U unit := s ← mget; notify_insert (um_notify_fd s).
(** The steps that set the socket up; what was opened is not closed when a later
    step fails. *)
Definition open_steps (fd : Z) : U (Result unit Error) :=
  b ← rest_call (nk_create_dir_all "/run/sysmaster");
  if negb b then mret (Err nix_error) else
  if negb (nk_unix_addr NOTIFY_SOCKET) then mret (Err nix_error) else
  rest_do (nk_unlink NOTIFY_SOCKET);;
  r ← rest_call (nk_bind fd NOTIFY_SOCKET);
  if is_err r then mret (Err nix_error) else
  r ← rest_call (nk_pass_cred fd);
  if is_err r then mret (Err nix_error) else
  r ← rest_call (reli_fd_cloexec fd false);
  if is_err r then mret (Err nix_error) else
  mmodify (set_um_notify_fd fd);; mret (Ok tt).
Definition open_socket : U (Result unit Error) :=
  s ← mget;
  if 0 <=? um_notify_fd s then mret (Ok tt) else
  fd ← rest_call nk_socket;
  match fd with Err _ => mret (Err nix_error) | Ok fd => open_steps fd end.
Definition notify_register_ex : U unit :=
  must open_socket;;
  notify_db_insert;;
  must (rest_call (ev_add_source SrcNotify));;
  must (set_enabled SrcNotify On).

Definition pid_of_cred (c : option Pid) : Pid := default NOTIFY_INVALID_PID c.
Definition notify_peek_pid : U (Result Pid Error) :=
  s ← mget;
  r ← rest_call (nk_peek (um_notify_fd s));
  match r with
  | Err _ => mret (Err nix_error)
  | Ok (cred, fds) =>
    mforeach (λ fd, rest_do (nk_close fd)) fds;;
    let pid := pid_of_cred cred in
    mret (if pid <? 0 then Err (ErrOther "no credentials in the received notify message") else Ok pid)
  end.
Definition notify_recv_dispatch (pid : Pid) (u : option UnitId) : U (Result Z Error) :=
  s ← mget;
  r ← rest_call (nk_recv (um_notify_fd s));
  match r with
  | Err _ => mret (Err nix_error)
  | Ok (buffer, cred, fds) =>
    if negb (bool_decide (pid_of_cred cred = pid))
    then mret (Err (ErrOther "the received notify message has been destroyed")) else
    ucred ← munwrap cred;
    massert (utf8 buffer);;
    let messages := notify_messages buffer in
    match u with
    | Some u => run (sp_notify_message u ucred messages fds);; mret tt
    | None => mret tt
    end;;
    mret (Ok 0)
  end.
Definition notify_dispatch : U (Result Z Error) :=
  r ← notify_peek_pid;
  match r with
  | Err e => mret (Err e)
  | Ok pid =>
    o ← get_unit_by_pid pid;
    match o with
    | Some u =>
      rest_do (reli_set_last_unit u);;
      ret ← notify_recv_dispatch pid (Some u);
      rest_do reli_clear_last_unit;;
      mret ret
    | None => notify_recv_dispatch pid None
    end
  end.
Definition notify_source_dispatch : U Z :=
  rest_do (reli_set_last_frame1 (ReliLastFrame_to_u32 FrameNotify));;
  ret ← notify_dispatch;
  rest_do reli_clear_last_frame;;
  mret (match ret with Ok n => n | Err _ => -1 end).

(** ** [UnitSubManagers] *)

(** The kinds that have a manager, in the order of the map. *)
Definition sub_types : list UnitType :=
  hs_iter (list_to_set (filter (λ t, sm_has t = true) (omap UnitType_try_from [0; 1; 2; 3])) : gset UnitType).
Definition sub_all (f : UnitType → E → E) : U unit := mforeach (λ t, rest_do (f t)) sub_types.
(** The bound lets [UnitTypeMax] itself through, which is not a kind. *)
Definition last_unittype (lframe : ReliFrame) : U (option UnitType) :=
  match lframe.1.2 with
  | None => mret None
  | Some ut => if UnitType_to_u32 UnitTypeMax <? ut then mret None
               else t ← munwrap (UnitType_try_from ut); mret (Some t)
  end.
Definition sub_compensate (f : UnitType → UnitId → U unit) (lframe : ReliFrame) (lunit : option UnitId) : U unit :=
  utype ← last_unittype lframe;
  match utype, lunit with
  | Some t, Some u => if sm_has t then f t u else mret tt
  | _, _ => mret tt
  end.
Definition sub_db_compensate_last (lframe : ReliFrame) (lunit : option UnitId) : U unit :=
  sub_compensate (λ t _, rest_do (sm_db_compensate_last t lframe lunit)) lframe lunit.
Definition sub_do_compensate_last (lframe : ReliFrame) (lunit : option UnitId) : U unit :=
  sub_compensate (λ t _, run (sm_do_compensate_last t lframe lunit)) lframe lunit.

(** ** [ReStation for UnitManager] *)
Definition um_input_rebuild : U unit := sigchld_enable true;; sub_all sm_input_rebuild.

(** The compensation of a child or of a notification: the unit is triggered. *)
Definition trigger_merge (lunit : option UnitId) : U unit :=
  match lunit with Some u => rest_do (jm_rentry_trigger_merge u true) | None => mret tt end.
Definition trigger_unit (lunit : option UnitId) : U unit :=
  match lunit with Some u => run (jm_trigger_unit u) | None => mret tt end.
Definition um_db_compensate_last (lframe : ReliFrame) (lunit : option UnitId) : U unit :=
  match ReliLastFrame_try_from lframe.1.1 with
  | Some FrameQueue => rt_db_compensate_last lframe lunit
  | Some FrameJobManager => rest_do (jm_db_compensate_last lunit)
  | Some FrameSigChld | Some FrameNotify => trigger_merge lunit
  | Some FrameCgEvent => mpanic
  | Some FrameSubManager => sub_db_compensate_last lframe lunit
  | _ => mret tt
  end.
Definition um_do_compensate_last (lframe : ReliFrame) (lunit : option UnitId) : U unit :=
  match ReliLastFrame_try_from lframe.1.1 with
  | Some FrameQueue => rt_do_compensate_last lframe lunit
  | Some FrameJobManager => run (jm_do_compensate_last lunit)
  | Some FrameSigChld | Some FrameNotify => trigger_unit lunit
  | Some FrameCgEvent => mpanic
  | Some FrameSubManager => sub_do_compensate_last lframe lunit
  | _ => mret tt
  end.
Definition um_db_compensate_history : U unit :=
  mmodify (λ s, set_um_rest (jm_db_compensate_history s) s).
Definition um_do_compensate_others (lunit : option UnitId) : U unit := run (jm_do_compensate_others lunit).

(** One unit, created again and filled from its tables. *)
Definition map_unit (u : UnitId) : U unit :=
  o ← try_new_unit u; x ← munwrap o;
  x ← Unit_db_map sp_db_map u x;
  units_insert u x.
Definition dep_db_map : U unit := dep_run UnitDepData.db_map.
Definition um_db_map : U unit :=
  l ← base_keys;
  mforeach map_unit l;;
  dep_db_map;;
  child_db_map;;
  rt_db_map;;
  mmodify (λ s, set_um_rest (jm_db_map s) s);;
  notify_db_map;;
  sub_all sm_db_map.
Definition um_register_ex : U unit := notify_register_ex;; sub_all sm_enumerate.
Definition um_entry_coldplug : U unit :=
  l ← mgets units_all;
  mforeach (λ u, run (sp_entry_coldplug u);; mmodify (λ s, set_um_rest (jm_coldplug_unit u s) s)) l.
(** [UnitDb::entry_clear]: the processes, the dependencies, the units. *)
Definition db_entry_clear : U unit :=
  mmodify (set_um_watch ∅);;
  mmodify (set_um_t ∅);;
  l ← mgets units_all;
  mforeach (λ u, rest_do (sp_entry_clear u)) l;;
  mmodify (set_um_units ∅).
Definition um_entry_clear : U unit := rest_do jm_entry_clear;; rt_entry_clear;; db_entry_clear.

(** ** The status of the units *)
Context `{HQ : !ProcCmdline E}.
Definition get_unit_cgroup_path (x : UeUnit) : string :=
  if decide (ue_cg_path x = ""%string) then "Empty cgroup path" else ue_cg_path x.
Definition get_unit_status_pids (x : UeUnit) (e : E) : string :=
  match hs_iter (ue_pids x) with
  | [] => "No process"
  | pids => foldl (λ res pid, (if decide (res = "") then "" else res ++ of_chars ["010"%char])
                     ++ show_int pid ++ " " ++ proc_cmdline pid e)%string ""%string pids
  end.
Record UnitStatus := {
  us_name : string;
  us_description : option string;
  us_load_state : string;
  us_sub_state : string;
  us_active_state : string;
  us_cgroup_path : string;
  us_pid : string;
  us_error_code : Z;
}.
Definition show_active_state (st : UnitActiveState) : string :=
  match st with
  | UnitActive => "active" | UnitReloading => "reloading" | UnitInActive => "inactive"
  | UnitFailed => "failed" | UnitActivating => "activating" | UnitDeActivating => "deactivating"
  | UnitMaintenance => "maintenance"
  end.
Definition show_bool (b : bool) : string := if b then "true" else "false".
Definition get_unit_status (name : string) : U (Result UnitStatus Error) :=
  o ← units_get name;
  match o with
  | None => mret (Err ErrNotExisted)
  | Some u =>
    x ← ue_get u;
    active ← um_current_active_state name;
    loaded ← load_unit_success load name;
    sub ← um_get_subunit_state name;
    e ← mgets um_rest;
    mret (Ok {| us_name := name; us_description := get_description x;
                us_load_state := show_bool loaded; us_sub_state := sub;
                us_active_state := show_active_state active;
                us_cgroup_path := get_unit_cgroup_path x; us_pid := get_unit_status_pids x e;
                us_error_code := if is_inactive_or_failed active then 3 else 0 |})
  end.
(** [Display for UnitStatus]; the bullet has three bytes. *)
Definition bullet : text := ascii_of_nat <$> [226; 151; 143; 32]%nat.
Definition UnitStatus_fmt (st : UnitStatus) : Outcome text :=
  let fields := [("Loaded:", us_load_state st);
    ("Active:", us_active_state st ++ "(" ++ us_sub_state st ++ ")");
    ("CGroup:", us_cgroup_path st); ("PID:", us_pid st)]%string in
  match (mforeach (λ f, add_line [chars f.1; chars f.2]) fields;;
         set_one_cell_align_right 0;; align_define) ShowTable_new with
  | Returned (t, _) =>
    let first_line := (bullet ++ chars (us_name st) ++ match us_description st with
      | None => [] | Some d => chars " - " ++ chars d end ++ ["010"%char])%list in
    Returned (first_line ++ ShowTable_fmt t)%list
  | Panicked => Panicked
  | OutOfFuel => OutOfFuel
  end.
(** The table of all units, a kind after the other. *)
Definition unit_line (u : UnitId) : U (list text) :=
  x ← ue_get u;
  loaded ← load_unit_success load u;
  active ← um_current_active_state u;
  sub ← um_get_subunit_state u;
  mret (chars <$> [u; show_bool loaded; show_active_state active; sub;
                   default u (get_description x)]).
Definition all_unit_types : list UnitType := [UnitService; UnitTarget; UnitSocket; UnitMount].
Definition get_all_units : U text :=
  rows ← mfold (λ acc ut,
    l ← units_get_all (Some ut);
    mfold (λ acc u, line ← unit_line u; mret (acc ++ [line])%list) acc l)
    [chars <$> ["UNIT"; "LOAD"; "ACTIVE"; "SUB"; "DESCRIPTION"]%string] all_unit_types;
  match (mforeach add_line rows;; align_left) ShowTable_new with
  | Returned (t, _) => mret (ShowTable_fmt t)
  | _ => mpanic
  end.
End manager.
