(* ===== verification/CmdProto.v ===== *)
(** * The commands

    The commands of [sctl] and what the manager does with them:
    [libs/cmdproto/src/proto] (the messages, [execute.rs], [frame.rs]) and
    [exts/sctl/src/main.rs].  The encoding of the messages is that of the prost
    crate, a parameter; the socket is a [Stream]. *)
From Stdlib Require Import Ascii.
From S2P Require Import Prelude UnitTypes Condition StdString UmStore.
Local Open Scope Z_scope.

(** ** The messages.  An action is a number on the wire. *)
Record UnitComm := { uc_action : Z; uc_units : list string }.
Record UnitFileComm := { uf_action : Z; uf_unitname : list string }.
Record JobComm := { jcm_action : Z; jcm_job_id : string }.
Record MngrComm := { mc_action : Z }.
Record SysComm := { sc_action : Z; sc_force : bool }.
Inductive RequestData :=
| Ucomm (c : UnitComm) | Ufile (c : UnitFileComm) | Jcomm (c : JobComm) | Mcomm (c : MngrComm)
| Syscomm (c : SysComm).
Record CommandRequest := { request_data : option RequestData }.
Record CommandResponse := { cr_status : Z; cr_error_code : Z; cr_message : string }.
Definition CommandResponse_default : CommandResponse :=
  {| cr_status := 0; cr_error_code := 0; cr_message := "" |}.

Module UnitAction.
Inductive t := Status | Start | Stop | Restart | Reload | Kill.
End UnitAction.
Module FileAction.
Inductive t := Cat | Enable | Disable | Mask | Unmask | Getdef | Setdef.
End FileAction.
Module MngrAction.
Inductive t := Reload | Reexec | Listunits.
End MngrAction.
Module SysAction.
Inductive t := Reboot | Shutdown | Halt | Suspend | Poweroff | Hibernate.
End SysAction.
(** The accessors of prost: a number that is not an action stands for the first. *)
Definition unit_action (z : Z) : UnitAction.t :=
  match z with
  | 1 => UnitAction.Start | 2 => UnitAction.Stop | 3 => UnitAction.Restart
  | 4 => UnitAction.Reload | 5 => UnitAction.Kill | _ => UnitAction.Status
  end.
Definition file_action (z : Z) : FileAction.t :=
  match z with
  | 1 => FileAction.Enable | 2 => FileAction.Disable | 3 => FileAction.Mask | 4 => FileAction.Unmask
  | 5 => FileAction.Getdef | 6 => FileAction.Setdef | _ => FileAction.Cat
  end.
Definition mngr_action (z : Z) : MngrAction.t :=
  match z with 1 => MngrAction.Reexec | 2 => MngrAction.Listunits | _ => MngrAction.Reload end.
Definition sys_action (z : Z) : SysAction.t :=
  match z with
  | 1 => SysAction.Shutdown | 2 => SysAction.Halt | 3 => SysAction.Suspend
  | 4 => SysAction.Poweroff | 5 => SysAction.Hibernate | _ => SysAction.Reboot
  end.
(** [Display for sys_comm::Action]: the name of the action, in lower case. *)
Definition show_sys_action (a : SysAction.t) : string :=
  match a with
  | SysAction.Reboot => "reboot" | SysAction.Shutdown => "shutdown" | SysAction.Halt => "halt"
  | SysAction.Suspend => "suspend" | SysAction.Poweroff => "poweroff"
  | SysAction.Hibernate => "hibernate"
  end.
Definition new_unitcomm (action : Z) (units : list string) : CommandRequest :=
  {| request_data := Some (Ucomm {| uc_action := action; uc_units := units |}) |}.
Definition new_mngrcomm (action : Z) : CommandRequest :=
  {| request_data := Some (Mcomm {| mc_action := action |}) |}.
Definition new_syscomm (action : Z) (force : bool) : CommandRequest :=
  {| request_data := Some (Syscomm {| sc_action := action; sc_force := force |}) |}.
Definition new_unitfile (action : Z) (unitfile : list string) : CommandRequest :=
  {| request_data := Some (Ufile {| uf_action := action; uf_unitname := unitfile |}) |}.

(** ** [ExecuterAction]: what the manager does *)

(** The operations, and the message and the code ([Into<nix::Error>]) of an error
    and of a status. *)
Class ExecuterAction (S St : Type) : Type := {
  ea_start : string → M S (Result unit Error);
  ea_stop : string → M S (Result unit Error);
  ea_restart : string → M S (Result unit Error);
  ea_reload : string → M S (Result unit Error);
  ea_status : string → M S (Result St Error);
  ea_list_units : M S (Result string Error);
  ea_suspend : M S (Result Z Error);
  ea_poweroff : M S (Result Z Error);
  ea_reboot : M S (Result Z Error);
  ea_halt : M S (Result Z Error);
  ea_disable : string → M S (Result unit Error);
  ea_enable : string → M S (Result unit Error);
  ea_mask : string → M S (Result unit Error);
  ea_unmask : string → M S (Result unit Error);
  ea_daemon_reload : M S unit;
  ea_daemon_reexec : M S unit;
  ea_err_show : Error → string;
  ea_err_code : Error → Z;
  ea_status_show : St → string;
  ea_status_code : St → Z;
}.

Definition STATUS_OK : Z := 200.
Definition STATUS_INTERNAL_SERVER_ERROR : Z := 500.
Definition reply_ok (code : Z) (message : string) : CommandResponse :=
  {| cr_status := STATUS_OK; cr_error_code := code; cr_message := message |}.
Definition reply_err (code : Z) (message : string) : CommandResponse :=
  {| cr_status := STATUS_INTERNAL_SERVER_ERROR; cr_error_code := code; cr_message := message |}.
(** A name without a dot is that of a service. *)
Definition call_back (unit_name : string) : string :=
  if existsb (Ascii.eqb "."%char) (chars unit_name) then unit_name else (unit_name ++ ".service")%string.
Definition newline : string := of_chars ["010"%char].
Definition new_line_break (s : string) : string := if decide (s = ""%string) then s else (s ++ newline)%string.

Section execute.
Context {S St : Type} `{HA : !ExecuterAction S St}.

(** One unit after the other: the reply collects the messages, and the code is that
    of the last error. *)
Definition each (f : string → M S (Result unit Error)) (failed : string) (units : list string)
    : M S CommandResponse :=
  r ← mfold (λ rc unit,
    r ← f unit;
    mret match r with
    | Ok _ => rc
    | Err e => ((new_line_break rc.1 ++ failed ++ unit ++ ": " ++ ea_err_show e)%string, ea_err_code e)
    end) (""%string, 0) units;
  mret (reply_ok r.2 r.1).
Definition each_status (units : list string) : M S CommandResponse :=
  r ← mfold (λ rc unit,
    r ← ea_status unit;
    mret match r with
    | Ok st => ((new_line_break rc.1 ++ ea_status_show st)%string, ea_status_code st)
    | Err e => ((new_line_break rc.1 ++ "Failed to show the status of " ++ unit ++ ": "
                 ++ ea_err_show e)%string, ea_err_code e)
    end) (""%string, 0) units;
  mret (reply_ok r.2 r.1).
Definition execute_unit (c : UnitComm) : M S CommandResponse :=
  let units := call_back <$> uc_units c in
  match unit_action (uc_action c) with
  | UnitAction.Status => each_status units
  | UnitAction.Start => each ea_start "Failed to start " units
  | UnitAction.Stop => each ea_stop "Failed to stop " units
  | UnitAction.Restart => each ea_restart "Failed to restart " units
  | UnitAction.Reload => each ea_reload "Failed to reload " units
  | UnitAction.Kill => mpanic
  end.
Definition execute_mngr (c : MngrComm) : M S CommandResponse :=
  match mngr_action (mc_action c) with
  | MngrAction.Reexec => ea_daemon_reexec;; mret (reply_ok 0 "")
  | MngrAction.Reload => ea_daemon_reload;; mret (reply_ok 0 "")
  | MngrAction.Listunits =>
    r ← ea_list_units;
    mret match r with
    | Ok m => reply_ok 0 m
    | Err e => reply_err (ea_err_code e) ("Failed to list all units:" ++ ea_err_show e)%string
    end
  end.
Definition execute_sys (c : SysComm) : M S CommandResponse :=
  ret ← (if sc_force c then
    r ← ea_start (show_sys_action (sys_action (sc_action c)) ++ ".target")%string;
    mret (match r with Ok _ => Ok 0 | Err e => Err e end)
  else match sys_action (sc_action c) with
  | SysAction.Hibernate | SysAction.Suspend => ea_suspend
  | SysAction.Halt => ea_halt
  | SysAction.Poweroff | SysAction.Shutdown => ea_poweroff
  | SysAction.Reboot => ea_reboot
  end);
  mret match ret with
  | Ok _ => reply_ok 0 ""
  | Err e => reply_err (ea_err_code e) "error."
  end.
Definition execute_file (c : UnitFileComm) : M S CommandResponse :=
  let units := call_back <$> uf_unitname c in
  match file_action (uf_action c) with
  | FileAction.Enable => each ea_enable " Failed to enable " units
  | FileAction.Disable => each ea_disable " Failed to disable " units
  | FileAction.Mask => each ea_mask " Failed to mask " units
  | FileAction.Unmask => each ea_unmask " Failed to unmask " units
  | _ => mpanic
  end.
Definition dispatch (cmd : CommandRequest) : M S CommandResponse :=
  match request_data cmd with
  | Some (Ucomm c) => execute_unit c
  | Some (Mcomm c) => execute_mngr c
  | Some (Syscomm c) => execute_sys c
  | Some (Ufile c) => execute_file c
  | _ => mret CommandResponse_default
  end.
End execute.

(** ** The frames *)

(** The encoding of prost, and a stream: [None] is an error of the socket. *)
Class Prost : Type := {
  enc_request : CommandRequest → list Z;
  dec_request : list Z → option CommandRequest;
  enc_response : CommandResponse → list Z;
  dec_response : list Z → option CommandResponse;
}.
Class Stream (E : Type) : Type := {
  sk_read_exact : nat → E → E * option (list Z);
  sk_read : nat → E → E * option (list Z);
  sk_write_all : list Z → E → E * bool;
  sk_flush : E → E * bool;
}.
Inductive CmdError := CmdIo | CmdDecode | CmdReadStream.
Definition show_cmd_error (e : CmdError) : string :=
  match e with CmdIo => "IoError" | CmdDecode => "DecodeError" | CmdReadStream => "ReadStreamFailed" end.
Definition MAX_FRAME : nat := 1024.
Definition USIZE_TO_U8_LENGTH : nat := 8.
(** [usize::to_le_bytes] and [from_le_bytes]. *)
Fixpoint to_le (n : nat) (v : Z) : list Z :=
  match n with O => [] | S n' => v mod 256 :: to_le n' (v / 256) end.
Fixpoint from_le (l : list Z) : Z :=
  match l with [] => 0 | b :: l' => b + 256 * from_le l' end.
Definition msg_len_vec (len : nat) : list Z := to_le USIZE_TO_U8_LENGTH (Z.of_nat len).
Definition get_msg_len (message : list Z) : Z := from_le message.

Section frame.
Context {E : Type} `{HK : !Stream E} `{HQ : !Prost}.
Definition call {A} (f : E → E * A) : M E A := λ e, let r := f e in Returned (r.1, r.2).

(** A read that is not full ends the frame, whatever the length says. *)
Fixpoint read_loop (fuel : nat) (msg_len cur_len : Z) (buf : list Z) : M E (Result (list Z) CmdError) :=
  match fuel with
  | O => mnofuel
  | S fuel' =>
    r ← call (sk_read MAX_FRAME);
    match r with
    | None => mret (Err CmdReadStream)
    | Some tmp =>
      let cur_len := cur_len + Z.of_nat (length tmp) in
      if (length tmp <? MAX_FRAME)%nat || (msg_len <=? cur_len) then mret (Ok (buf ++ tmp))
      else read_loop fuel' msg_len cur_len (buf ++ tmp)
    end
  end.
Definition read_frame (fuel : nat) : M E (Result (list Z) CmdError) :=
  r ← call (sk_read_exact USIZE_TO_U8_LENGTH);
  match r with
  | None => mret (Err CmdIo)
  | Some msg_len => read_loop fuel (get_msg_len msg_len) 0 []
  end.
Definition send_frame (encoded : list Z) : M E (Result unit CmdError) :=
  b ← call (sk_write_all (msg_len_vec (length encoded)));
  if negb b then mret (Err CmdIo) else
  b ← call (sk_write_all encoded);
  if negb b then mret (Err CmdIo) else
  b ← call sk_flush;
  mret (if (b : bool) then Ok tt else Err CmdIo).
Definition recv {A} (decode : list Z → option A) (fuel : nat) : M E (Result A CmdError) :=
  r ← read_frame fuel;
  mret match r with
  | Err e => Err e
  | Ok buf => match decode buf with Some a => Ok a | None => Err CmdDecode end
  end.
(** [ProstClientStream::execute] *)
Definition client_execute (fuel : nat) (cmd : CommandRequest) : M E (Result CommandResponse CmdError) :=
  r ← send_frame (enc_request cmd);
  match r with Err e => mret (Err e) | Ok _ => recv dec_response fuel end.
(** [ProstServerStream::process], for a manager whose state [W] holds the stream: what
    cannot be read is dropped, what cannot be sent is an error. *)
Definition process {W St} `{!ExecuterAction W St} (on_stream : ∀ A, M E A → M W A) (fuel : nat)
    : M W (Result unit CmdError) :=
  r ← on_stream _ (recv dec_request fuel);
  match r with
  | Err _ => mret (Ok tt)
  | Ok cmd => res ← dispatch cmd; on_stream _ (send_frame (enc_response res))
  end.
End frame.

(** ** sctl *)
Module SubCmd.
Inductive t :=
| Start (units : list string) | Stop (units : list string) | Restart (units : list string)
| Status (units : list string) | Reload (units : list string) | ListUnits
| Shutdown (force : bool) | Reboot (force : bool) | Halt (force : bool) | Poweroff (force : bool)
| DaemonReload | DaemonReexec
| Enable (unit_file : list string) | Disable (unit_file : list string)
| Mask (unit_file : list string) | Unmask (unit_file : list string).
End SubCmd.
(** The four ways of stopping the system ask for the same action. *)
Definition generate_command_request (c : SubCmd.t) : option CommandRequest :=
  Some match c with
  | SubCmd.Start units => new_unitcomm 1 units
  | SubCmd.Stop units => new_unitcomm 2 units
  | SubCmd.Restart units => new_unitcomm 3 units
  | SubCmd.Status units => new_unitcomm 0 units
  | SubCmd.Reload units => new_unitcomm 4 units
  | SubCmd.Mask unit_file => new_unitfile 3 unit_file
  | SubCmd.Unmask unit_file => new_unitfile 4 unit_file
  | SubCmd.Enable unit_file => new_unitfile 1 unit_file
  | SubCmd.Disable unit_file => new_unitfile 2 unit_file
  | SubCmd.Shutdown force | SubCmd.Reboot force | SubCmd.Halt force | SubCmd.Poweroff force =>
    new_syscomm 1 force
  | SubCmd.DaemonReload => new_mngrcomm 0
  | SubCmd.DaemonReexec => new_mngrcomm 1
  | SubCmd.ListUnits => new_mngrcomm 2
  end.
Inductive SctlResult := SctlOK | SctlFailure (s : string) (error_code : Z).
(** The exit code. *)
Definition report (r : SctlResult) : Z :=
  match r with
  | SctlOK => 0
  | SctlFailure _ error_code => if 255 <? error_code then 1 else error_code
  end.
(** [main], after the arguments are parsed: whether the connection is made, with the
    system's error when it is not. *)
Definition sctl_main {E} `{!Stream E} `{!Prost} (connect : E → E * option (string * Z)) (fuel : nat) (c : SubCmd.t)
    : M E SctlResult :=
  match generate_command_request c with
  | None => mret (SctlFailure "This command is currently not supported" 95)
  | Some command_request =>
    r ← call connect;
    match r with
    | Some (e, errno) => mret (SctlFailure ("Failed to connect to sysmaster: " ++ e)%string errno)
    | None =>
      r ← client_execute fuel command_request;
      mret match r with
      | Err e => SctlFailure ("Failed to execute the given command: " ++ show_cmd_error e)%string 1
      | Ok data =>
        if decide (cr_message data = ""%string) then SctlOK
        else if cr_error_code data =? 0 then SctlOK
        else SctlFailure (cr_message data) (cr_error_code data)
      end
    end
  end.

(** ** Frames on a stream that delivers everything *)

(** What is left to read; a read takes as much as it asks for, if there is as much. *)
Class FullReads (E : Type) `{HK : !Stream E} : Type := {
  sk_input : E → list Z;
  sk_read_exact_law n e : (n ≤ length (sk_input e))%nat →
    (sk_read_exact n e).2 = Some (take n (sk_input e)) ∧ sk_input (sk_read_exact n e).1 = drop n (sk_input e);
  sk_read_law n e :
    (sk_read n e).2 = Some (take n (sk_input e)) ∧ sk_input (sk_read n e).1 = drop n (sk_input e);
}.
Lemma from_to_le n v : 0 ≤ v < 256 ^ Z.of_nat n → from_le (to_le n v) = v.
Proof.
  revert v. induction n as [|n IH]; intros v Hv; simpl.
  { change (256 ^ Z.of_nat 0) with 1 in Hv. lia. }
  rewrite Nat2Z.inj_succ, Z.pow_succ_r in Hv by lia. rewrite IH.
  - pose proof (Z.div_mod v 256). lia.
  - split; [apply Z.div_pos; lia|apply Z.div_lt_upper_bound; lia].
Qed.
Lemma length_to_le n v : length (to_le n v) = n.
Proof. revert v. induction n as [|n IH]; intros v; simpl; [done|by rewrite IH]. Qed.
Lemma get_msg_len_vec n : Z.of_nat n < 2 ^ 64 → get_msg_len (msg_len_vec n) = Z.of_nat n.
Proof. intros Hn. apply from_to_le. unfold USIZE_TO_U8_LENGTH. simpl. lia. Qed.

Section facts.
Context {E : Type} `{HK : !Stream E} `{HF : !FullReads E}.
Implicit Types (e : E).
Lemma wp_call {A} (f : E → E * A) e (Q : E → A → Prop) : wp (call f) e Q ↔ Q (f e).1 (f e).2.
Proof. done. Qed.
Lemma wp_read_loop fuel len cur buf e (Q : E → Result (list Z) CmdError → Prop) :
  (length (sk_input e) < fuel * MAX_FRAME)%nat → len = cur + Z.of_nat (length (sk_input e)) →
  (∀ e', Q e' (Ok (buf ++ sk_input e))) → wp (read_loop fuel len cur buf) e Q.
Proof.
  revert cur buf e. induction fuel as [|fuel IH]; intros cur buf e Hf Hlen HQ; [lia|].
  cbn [read_loop]. apply wp_bind, wp_call. destruct (sk_read_law MAX_FRAME e) as [H1 H2]. rewrite H1.
  set (e1 := (sk_read MAX_FRAME e).1) in *.
  destruct (Nat.ltb_spec (length (take MAX_FRAME (sk_input e))) MAX_FRAME) as [Hs|Hs];
    rewrite length_take in Hs.
  - simpl. apply wp_ret. rewrite take_ge by lia. apply HQ.
  - simpl orb. rewrite length_take. replace (MAX_FRAME `min` length (sk_input e))%nat with MAX_FRAME by lia.
    destruct (Z.leb_spec len (cur + Z.of_nat MAX_FRAME)) as [Hd|Hd].
    + apply wp_ret. rewrite take_ge by lia. apply HQ.
    + apply IH; [rewrite H2, length_drop; lia..|]. intros e'. by rewrite H2, <- app_assoc, take_drop.
Qed.
(** A stream that holds a whole frame. *)
Lemma wp_read_frame fuel encoded e (Q : E → Result (list Z) CmdError → Prop) :
  Z.of_nat (length encoded) < 2 ^ 64 → (length encoded < fuel * MAX_FRAME)%nat →
  sk_input e = msg_len_vec (length encoded) ++ encoded → (∀ e', Q e' (Ok encoded)) → wp (read_frame fuel) e Q.
Proof.
  intros Hlen Hf Hin HQ. unfold read_frame. apply wp_bind, wp_call.
  assert (length (msg_len_vec (length encoded)) = USIZE_TO_U8_LENGTH) as Hl by apply length_to_le.
  destruct (sk_read_exact_law USIZE_TO_U8_LENGTH e) as [H1 H2]; [rewrite Hin, length_app; lia|].
  rewrite H1, Hin in *. rewrite take_app_length' by done. rewrite drop_app_length' in H2 by done.
  rewrite get_msg_len_vec by done. apply wp_read_loop; rewrite H2; [done|lia|done].
Qed.
End facts.

(** What was written, when nothing fails. *)
Class FullWrites (E : Type) `{HK : !Stream E} : Type := {
  sk_output : E → list Z;
  sk_write_law l e : (sk_write_all l e).2 = true → sk_output (sk_write_all l e).1 = sk_output e ++ l;
  sk_flush_law e : sk_output (sk_flush e).1 = sk_output e;
}.
Lemma wp_send_frame_output {E} `{HK : !Stream E} `{!FullWrites E} (encoded : list Z) (e : E) :
  wp (send_frame encoded) e (λ e' r, r = Ok tt →
    sk_output e' = sk_output e ++ msg_len_vec (length encoded) ++ encoded).
Proof.
  unfold send_frame. apply wp_bind, wp_call.
  destruct (sk_write_all (msg_len_vec (length encoded)) e).2 eqn:H1; [|by apply wp_ret].
  apply wp_bind, wp_call. destruct (sk_write_all encoded _).2 eqn:H2; [|by apply wp_ret].
  apply wp_bind, wp_call, wp_ret. intros _. rewrite sk_flush_law, sk_write_law, sk_write_law by done.
  by rewrite app_assoc.
Qed.

(** C35: a frame round trip.  When [send_frame] succeeds, a stream that holds what it
    has written, and nothing else, and whose reads are full, gives [read_frame] the
    message back: the length in front, eight bytes, and the message in pieces of
    1024 bytes. *)
Theorem frame_roundtrip {E1 E2} `{!Stream E1} `{!FullWrites E1} `{!Stream E2} `{!FullReads E2}
    (fuel : nat) (encoded : list Z) (e : E1) :
  Z.of_nat (length encoded) < 2 ^ 64 → (length encoded < fuel * MAX_FRAME)%nat →
  wp (send_frame encoded) e (λ e' sent, sent = Ok tt →
    ∀ r : E2, sk_output e' = sk_output e ++ sk_input r → wp (read_frame fuel) r (λ _ got, got = Ok encoded)).
Proof.
  intros Hlen Hf. eapply wp_mono; [apply wp_send_frame_output|]. intros e' sent Hout Hs r Hr.
  apply (wp_read_frame fuel encoded); [done..| |done]. apply (app_inv_head (sk_output e)). by rewrite <- Hr, Hout.
Qed.

(** A frame ends with the first read that is not full: when the first piece of a
    message is shorter than 1024 bytes, [read_frame] returns this piece as the whole
    message, however long the message was said to be. *)
Theorem short_read_cuts {E} `{!Stream E} (fuel : nat) (e e1 e2 : E) head piece :
  sk_read_exact USIZE_TO_U8_LENGTH e = (e1, Some head) → sk_read MAX_FRAME e1 = (e2, Some piece) →
  (length piece < MAX_FRAME)%nat → read_frame (S fuel) e = Returned (e2, Ok piece).
Proof.
  intros H1 H2 Hp. unfold read_frame, call, mbind, M_bind. rewrite H1. cbn [fst snd read_loop].
  unfold call, mbind, M_bind. rewrite H2. cbn [fst snd].
  by rewrite (proj2 (Nat.ltb_lt _ _) Hp).
Qed.

(** *** A stream of pieces: a read takes at most one of them. *)
#[local] Instance pieces_stream : Stream (list (list Z)) := {|
  sk_read_exact n e := match e with
    | p :: e' => if (n <=? length p)%nat then (drop n p :: e', Some (take n p)) else (e', None)
    | [] => ([], None)
    end;
  sk_read n e := match e with
    | [] => ([], Some [])
    | p :: e' => ((if (n <? length p)%nat then drop n p :: e' else e'), Some (take n p))
    end;
  sk_write_all _ e := (e, true);
  sk_flush e := (e, true);
|}.
(** One piece holds everything. *)
Record Whole := { wh_bytes : list Z; wh_out : list Z }.
#[local] Instance whole_stream : Stream Whole := {|
  sk_read_exact n e := let l := wh_bytes e in
    if (n <=? length l)%nat then ({| wh_bytes := drop n l; wh_out := wh_out e |}, Some (take n l)) else (e, None);
  sk_read n e := ({| wh_bytes := drop n (wh_bytes e); wh_out := wh_out e |}, Some (take n (wh_bytes e)));
  sk_write_all l e := ({| wh_bytes := wh_bytes e; wh_out := wh_out e ++ l |}, true);
  sk_flush e := (e, true);
|}.
#[local] Program Instance whole_full : FullReads Whole := {| sk_input := wh_bytes |}.
Next Obligation. intros n e Hn. simpl. by rewrite (proj2 (Nat.leb_le _ _) Hn). Qed.
Next Obligation. done. Qed.
#[local] Program Instance whole_writes : FullWrites Whole := {| sk_output := wh_out |}.
Solve All Obligations with done.
Definition sample_msg : list Z := repeat 7 1500.
Lemma frame_roundtrip_witness :
  let e := {| wh_bytes := []; wh_out := [] |} in
  wp (send_frame sample_msg) e (λ e' sent, sent = Ok tt →
    ∀ r : Whole, sk_output e' = sk_output e ++ sk_input r → wp (read_frame 2) r (λ _ got, got = Ok sample_msg)).
Proof.
  intros e. apply (frame_roundtrip (E1:=Whole) (E2:=Whole) 2 sample_msg e);
    [reflexivity|apply Nat.ltb_lt; reflexivity].
Defined.
Lemma short_read_cuts_witness :
  read_frame 5 [msg_len_vec 1500 ++ take 1000 sample_msg; drop 1000 sample_msg]
  = Returned ([drop 1000 sample_msg], Ok (take 1000 sample_msg)).
Proof.
  apply (short_read_cuts 4 _ [take 1000 sample_msg; drop 1000 sample_msg] _ (msg_len_vec 1500));
    [reflexivity|reflexivity|apply Nat.ltb_lt; reflexivity].
Defined.
