(* ===== verification/Manager.v ===== *)
(** * The manager's process

    [core/bin/manager]: what the commands and the signals do ([mod.rs],
    [commands.rs], [signals.rs]), the start-up, the loops, the reload and the reboot
    ([mod.rs]) and the keep-alive timer ([alive_timer.rs]).  The state is that of the
    unit manager ([UmStore.v]), whose [um_state] the commands set.

    The event loop ([Event.v]) and the recovery ([Reli.v]) run over states of their
    own: here they are the parameters [run_events] and [recover], that call back into
    the units as [UmManager.v] describes. *)
From Stdlib Require Import Ascii.
From S2P Require Import Prelude UnitTypes Relation ReDb UnitDb RateLimit Condition UnitEntry StdString ShowTable Reli UnitFile ExecParams UnitIf ProcessUtil JobRentry JobData UmStore UmLoad UmManager CmdProto.
Local Open Scope Z_scope.

(** What the manager asks of the system: the presets and the symbolic links of the
    unit files ([pre_install.rs]), the files behind [mask], the cgroups, the signals
    that wait, the keep-alive socket, the switches of [Reliability] and the commands
    that arrive.  [ms_accept] is [None] when accepting fails. *)
Class ManagerSys (E : Type) : Type := {
  ms_preset_all : E → E * bool;
  ms_unit_enable_files : string → E → E * Result unit Error;
  ms_unit_disable_files : string → E → E * Result unit Error;
  ms_symlinkat : string → string → E → E * Result unit Error;
  ms_exists : string → E → bool;
  ms_read_link : string → E → option string;
  ms_unlinkat : string → E → E * Result unit Error;
  ms_trim : E → E;
  ms_read_signals : E → E * Result (option Signal) unit;
  ms_send_alive : E → E * Result unit Z;
  ms_reli_enable : E → bool;
  ms_reli_set_enable : bool → E → E;
  ms_reli_debug_clear : E → E;
  ms_cg_create_and_attach : E → E * bool;
  ms_cg_kill_all : E → E * bool;
  ms_accept : E → E * bool;
}.
(** What the errors say, and the numbers of those the model only has by name. *)
Class ErrorShow : Type := { err_show : Error → string; other_errno : string → Z }.
(** [From<Error> for nix::Error] *)
Definition errno_of `{!ErrorShow} (e : Error) : Z :=
  match e with
  | ErrInput | ErrInternal | UnitActionEFailed => 5
  | ErrConflict | ErrBadRequest | UnitActionEBadR => 53
  | ErrNotExisted | UnitActionENoent => 2
  | ErrNotSupported | UnitActionEOpNotSupp => 95
  | UnitActionEAgain => 11
  | UnitActionEAlready => 114
  | UnitActionEComm => 70
  | UnitActionENoExec => 8
  | UnitActionEProto => 71
  | UnitActionENolink => 67
  | UnitActionEStale => 116
  | UnitActionEInval | UnitActionERefuseManualStart | UnitActionERefuseManualStop => 22
  | UnitActionEBusy => 16
  | UnitActionECanceled => 125
  | ErrOther msg => other_errno msg
  end.
Inductive Mode := System | User.
#[export] Instance Mode_eq_dec : EqDecision Mode.
Proof. solve_decision. Defined.
Definition SIGHUP : Signal := 1.
Definition SIGINT : Signal := 2.
Definition SIGSEGV : Signal := 11.
Definition SIGCHLD : Signal := 17.
Definition BASIC_TARGET : string := "basic.target".
Definition EINTR : Z := 4.
Definition EAGAIN_ERRNO : Z := 11.

Section manager.
Context `{HI : !HashIter} {E : Type}.
Context `{HS : !UmSys E} `{HF : !UnitFs E} `{HP : !Processes E} `{HL : !Reli E}.
Context `{HU : !SubUnitProgs E} `{HJ : !JobEngine E} `{HX : !Spawner E}.
Context `{HC : !ChildWait E} `{HN : !NotifySock E} `{HM : !SubManagers E} `{HE : !EventLoop UmSource E}.
Context `{HQ : !ProcCmdline E} `{HPF : !ProcFs E} `{HMS : !ManagerSys E} `{HES : !ErrorShow}.
Abbreviation U := (M (UM E)).
Context (load : string → U (option UnitId)).
Definition rest_run {A} : M E A → U A := mzoom um_rest set_um_rest.

(** ** Masking unit files *)
Definition mask_unit (unit_file : string) : U (Result unit Error) :=
  rest_call (ms_symlinkat "/dev/null" (path_join ETC_SYSTEM_PATH unit_file)).
(** [Path::ends_with], for the path of two components. *)
Definition path_ends_with_dev_null (p : string) : bool :=
  let comps := filter (λ c, c ≠ "" ∧ c ≠ ".")%string (split_char "/"%char p) in
  String.prefix "/" p && bool_decide (comps = ["dev"; "null"]%string).
Definition unmask_unit (unit_file : string) : U (Result unit Error) :=
  let link_name_path := path_join ETC_SYSTEM_PATH unit_file in
  e ← mgets um_rest;
  if negb (ms_exists link_name_path e) then mret (Ok tt) else
  match ms_read_link link_name_path e with
  | None => mret (Ok tt)
  | Some target =>
    if negb (path_ends_with_dev_null target) then mret (Ok tt)
    else rest_call (ms_unlinkat link_name_path)
  end.

(** ** [CommandActionMgr] *)
Definition cam_set_state (st : State) : U unit :=
  s ← mget; mwhen (negb (bool_decide (um_state s = st))) (set_state st).
Definition request_state (st : State) : U (Result Z Error) := cam_set_state st;; mret (Ok 0).
#[export] Instance CommandActionMgr : ExecuterAction (UM E) UnitStatus := {|
  ea_start := start_unit_manual load;
  ea_stop := stop_unit_manual load;
  ea_restart := restart_unit load;
  ea_reload := reload load;
  ea_status := get_unit_status load;
  ea_list_units := (t ← get_all_units load; mret (Ok (of_chars t)));
  ea_suspend := request_state State.Suspend;
  ea_poweroff := request_state State.PowerOff;
  ea_reboot := request_state State.Reboot;
  ea_halt := request_state State.Halt;
  ea_disable u := rest_call (ms_unit_disable_files u);
  ea_enable u := rest_call (ms_unit_enable_files u);
  ea_mask := mask_unit;
  ea_unmask := unmask_unit;
  ea_daemon_reload := cam_set_state State.ReLoad;
  ea_daemon_reexec := cam_set_state State.ReExecute;
  ea_err_show := err_show;
  ea_err_code := errno_of;
  ea_status_show st := match UnitStatus_fmt st with Returned t => of_chars t | _ => ""%string end;
  ea_status_code := us_error_code;
|}.
(** [Commands::dispatch]: a connection that cannot be accepted, and an answer that
    cannot be sent, are panics. *)
Definition commands_dispatch `{!Stream E} `{!Prost} (fuel : nat) : U Z :=
  rest_do (reli_set_last_frame1 (ReliLastFrame_to_u32 FrameCmdOp));;
  b ← rest_call ms_accept;
  massert b;;
  r ← process (@rest_run) fuel;
  massert (negb (is_err r));;
  rest_do reli_clear_last_frame;;
  mret 0.

(** ** [SignalMgr] and [Signals] *)
Definition dispatch_signal (signal : Signal) : U (Result Z Error) :=
  if decide (signal = SIGHUP ∨ signal = SIGSEGV) then mret (Ok 1)
  else if decide (signal = SIGCHLD) then r ← sigchld_enable true; mret (Ok r)
  else mpanic.
Definition signals : list Signal := [SIGCHLD; SIGTERM; SIGINT].
Definition signals_dispatch : U Z :=
  rest_do (reli_set_last_frame1 (ReliLastFrame_to_u32 FrameManagerOp));;
  r ← rest_call ms_read_signals;
  match r with
  | Ok (Some signal) => dispatch_signal signal;; mret tt
  | _ => mret tt
  end;;
  rest_do reli_clear_last_frame;;
  mret 0.

(** ** [AliveTimer] *)

(** Interrupted sends are tried again as long as they are; a full socket three times. *)
Fixpoint keep_alive (fuel count : nat) : U unit :=
  match fuel with
  | O => mnofuel
  | S fuel' =>
    r ← rest_call ms_send_alive;
    match r with
    | Ok _ => mret tt
    | Err err =>
      if err =? EINTR then keep_alive fuel' count
      else if (err =? EAGAIN_ERRNO) && (count <? 3)%nat then keep_alive fuel' (count + 1)
      else mret tt
    end
  end.
Definition alive_timer_enable (enable : bool) : U Z :=
  r ← set_enabled SrcAliveTimer (if enable then OneShot else Off); mret (result_code r).
Definition alive_timer_dispatch (fuel : nat) : U Z := keep_alive fuel 0;; alive_timer_enable true.

(** ** [Manager] *)
Context (mode : Mode) (run_events : U bool) (recover : U unit).

Definition add_default_job : U (Result Z Error) :=
  rest_do (reli_set_last_frame1 (ReliLastFrame_to_u32 FrameManagerOp));;
  start_unit load BASIC_TARGET;;
  rest_do reli_clear_last_frame;;
  mret (Ok 0).
Definition preset_all : U unit :=
  if decide (mode = System) then b ← rest_call ms_preset_all; massert b else mret tt.
Definition register_ex : U unit :=
  um_register_ex;;
  must (rest_call (ev_add_source SrcCommands));; must (set_enabled SrcCommands On);;
  must (rest_call (ev_add_source SrcSignals));; must (set_enabled SrcSignals On);;
  alive_timer_enable true;; mret tt.
Definition startup : U (Result Z Error) :=
  rest_do ms_reli_debug_clear;;
  restore ← rest_ask ms_reli_enable;
  mwhen restore recover;;
  preset_all;;
  register_ex;;
  mwhen restore (um_entry_coldplug load);;
  mwhen (negb restore) (add_default_job;; rest_do (ms_reli_set_enable true));;
  set_state State.Ok;;
  rest_do reli_clear_last_frame;;
  mret (Ok 0).

(** One round of [rloop]: the load queue, then the events. *)
Definition rloop_round (load_queue : U unit) : U unit :=
  load_queue;;
  rest_do (reli_set_last_frame1 (ReliLastFrame_to_u32 FrameOtherEvent));;
  run_events;;
  rest_do reli_clear_last_frame.
Fixpoint rloop (load_queue : U unit) (fuel : nat) : U State :=
  s ← mget;
  if negb (bool_decide (um_state s = State.Ok)) then mret (um_state s) else
  match fuel with
  | O => mnofuel
  | S fuel' => rloop_round load_queue;; rloop load_queue fuel'
  end.

Definition WAIT_TIMEOUT : Z := 10000000.
(** [reboot]: the processes that are left after the first signal are killed; when
    none is left, it returns. *)
Definition reboot (fuel : nat) (reboot_mode : State) : U unit :=
  rest_do ms_trim;;
  pids ← rest_run (kill_all_pids SIGTERM);
  pids ← rest_run (wait_pids fuel pids WAIT_TIMEOUT);
  if decide (pids = ∅) then mret tt else
  pids ← rest_run (kill_all_pids SIGKILL);
  rest_run (wait_pids fuel pids WAIT_TIMEOUT);;
  rest_do (sys_reboot reboot_mode).
Definition manager_reload : U unit :=
  um_entry_clear;;
  recover;;
  um_entry_coldplug load;;
  set_state State.Ok;;
  rest_do reli_clear_last_frame.
Definition reexec : U bool := set_state State.ReExecute;; mret true.
Fixpoint main_loop (load_queue : U unit) (fuel : nat) : U bool :=
  match fuel with
  | O => mnofuel
  | S fuel' =>
    state ← rloop load_queue fuel';
    match state with
    | State.ReExecute => reexec
    | State.ReLoad => manager_reload;; main_loop load_queue fuel'
    | State.Reboot | State.PowerOff | State.Halt | State.KExec | State.Suspend =>
      reboot fuel' state;; main_loop load_queue fuel'
    | _ => mpanic
    end
  end.
Definition setup_cgroup : U (Result unit Error) :=
  b ← rest_call ms_cg_create_and_attach;
  massert b;;
  b ← rest_call ms_cg_kill_all;
  mret (if (b : bool) then Ok tt else Err (ErrOther "failed to kill cgroup")).
End manager.
