(* ===== verification/Init.v ===== *)
(** * Process 1: the supervisor of the manager

    [exts/init]: the process that starts the manager and watches it.  [main.rs] and
    [param.rs] read the command line, [runtime/mod.rs] is the state machine, [alive.rs]
    the socket and the timer of the manager's signs of life, [signals.rs] the signals
    and the zombies, [epoll.rs] the waiting.  The other end of the socket
    ([core/bin/keep_alive/mod.rs] and the handlers of [core/bin/main.rs]) is below.  The
    kernel is a parameter; a call that is interrupted is repeated, which takes fuel. *)
From Stdlib Require Import Ascii.
From S2P Require Import Prelude UnitTypes StdString.
Local Open Scope Z_scope.
Local Open Scope try_scope.

Definition EPERM : Z := 1.
Definition EINTR : Z := 4.
Definition EIO : Z := 5.
Definition EAGAIN : Z := 11.
Definition EINVAL : Z := 22.
Definition SIGKILL : Z := 9.
Definition SIGCHLD : Z := 17.
Definition INVALID_FD : Z := -1.
Definition INVALID_PID : Z := -1.
Definition MANAGER_SIG_OFFSET : Z := 7.
Definition RUN_UNRECOVER_SIG_OFFSET : Z := 8.
Definition RESTART_MANAGER_SIG_OFFSET : Z := 9.
Definition SYSMASTER_PATH : string := "/usr/lib/sysmaster/sysmaster".
Definition SYSTEMD_PATH : string := "/usr/lib/systemd/systemd".
Definition LISTEN_BACKLOG : Z := 10.
Definition SOCKET_TIMEOUT : Z := 10.
Definition ACCEPT_COUNT : Z := 3.
Definition INIT_SOCKET : string := "/run/sysmaster/init".
Definition EPOLLIN : Z := 1.
Definition EPOLLERR : Z := 8.
Definition EPOLLHUP : Z := 16.
(** [fd as u64], and the sum of an [i64] in a release build. *)
Definition as_u64 (fd : Z) : Z := fd mod 2 ^ 64.
Definition i64_max : Z := 2 ^ 63 - 1.
Definition i64_succ (n : Z) : Z := (n + 1 + 2 ^ 63) mod 2 ^ 64 - 2 ^ 63.
(** [parse::<i64>] *)
Definition parse_i64 (s : string) : option Z :=
  match chars s with
  | "-"%char :: [] => None
  | "-"%char :: cs => v ← digits 10 0 cs; if v <=? 2 ^ 63 then Some (- v) else None
  | _ => parse_unsigned 10 i64_max s
  end.

(** ** The command line *)
Definition TIME_OUT : Z := 5.
Definition TIME_WAIT : Z := 10.
Record Param := { pm_init_args : list string; pm_manager_args : list string; pm_time_out : Z; pm_time_wait : Z }.
Definition Param_new : Param := {| pm_init_args := []; pm_manager_args := []; pm_time_out := TIME_OUT; pm_time_wait := TIME_WAIT |}.
(** What follows the first occurrence of the option. *)
Definition option_value (opt param : string) : option string :=
  pre ← before_pattern (chars opt) (chars param);
  Some (of_chars (drop (length pre + length (chars opt)) (chars param))).
Definition opt_of (opt : string) (dflt old : Z) (param : string) : Z :=
  match option_value opt param with Some v => default dflt (parse_i64 v) | None => old end.
Definition get_opt (p : Param) : Param := {|
  pm_init_args := pm_init_args p; pm_manager_args := pm_manager_args p;
  pm_time_out := foldl (opt_of "--timeout=" TIME_OUT) (pm_time_out p) (pm_init_args p);
  pm_time_wait := foldl (opt_of "--timewait=" TIME_WAIT) (pm_time_wait p) (pm_init_args p) |}.
Fixpoint split_args (is_manager : bool) (args : list string) : list string * list string :=
  match args with
  | [] => ([], [])
  | arg :: args' =>
    let is_manager := is_manager || str_contains "sysmaster" arg in
    let r := split_args is_manager args' in
    if is_manager then (r.1, arg :: r.2) else (arg :: r.1, r.2)
  end.
Definition get_command (args : list string) : Param :=
  let r := split_args false args in
  {| pm_init_args := r.1; pm_manager_args := r.2; pm_time_out := TIME_OUT; pm_time_wait := TIME_WAIT |}.
Definition push_manager_arg (a : string) (p : Param) : Param := {|
  pm_init_args := pm_init_args p; pm_manager_args := pm_manager_args p ++ [a];
  pm_time_out := pm_time_out p; pm_time_wait := pm_time_wait p |}.

(** ** The state *)
Module InitState.
Inductive t := Reexec | RunRecover | RunUnRecover.
#[global] Instance t_eq_dec : EqDecision t.
Proof. solve_decision. Defined.
End InitState.
Abbreviation InitState := InitState.t.
(** The timer is its descriptor [al_timer]; [al_time_fd] is set when it is armed. *)
Record Alive := {
  al_alive_fd : Z; al_connect_fd : Z; al_time_fd : Z; al_timer : Z;
  al_manager_time_count : Z; al_alive_time_count : Z; al_time_out : Z; al_time_wait : Z;
}.
Record RunTime := {
  rt_cmd : Param; rt_sysmaster_pid : Z; rt_state : InitState; rt_epoll_fd : Z; rt_n_sources : Z;
  rt_alive : Alive; rt_signal_fd : Z; rt_need_reexec : bool;
}.
Record InitSt (E : Type) := { is_os : E; is_rt : RunTime }.
Arguments is_os {E}. Arguments is_rt {E}. Arguments Build_InitSt {E}.
Definition set_al_alive_fd x (a : Alive) := {| al_alive_fd := x; al_connect_fd := al_connect_fd a; al_time_fd := al_time_fd a; al_timer := al_timer a;
  al_manager_time_count := al_manager_time_count a; al_alive_time_count := al_alive_time_count a; al_time_out := al_time_out a; al_time_wait := al_time_wait a |}.
Definition set_al_connect_fd x (a : Alive) := {| al_alive_fd := al_alive_fd a; al_connect_fd := x; al_time_fd := al_time_fd a; al_timer := al_timer a;
  al_manager_time_count := al_manager_time_count a; al_alive_time_count := al_alive_time_count a; al_time_out := al_time_out a; al_time_wait := al_time_wait a |}.
Definition set_al_time_fd x (a : Alive) := {| al_alive_fd := al_alive_fd a; al_connect_fd := al_connect_fd a; al_time_fd := x; al_timer := al_timer a;
  al_manager_time_count := al_manager_time_count a; al_alive_time_count := al_alive_time_count a; al_time_out := al_time_out a; al_time_wait := al_time_wait a |}.
Definition set_al_counts m n (a : Alive) := {| al_alive_fd := al_alive_fd a; al_connect_fd := al_connect_fd a; al_time_fd := al_time_fd a; al_timer := al_timer a;
  al_manager_time_count := m; al_alive_time_count := n; al_time_out := al_time_out a; al_time_wait := al_time_wait a |}.
Definition set_rt_sysmaster_pid x (r : RunTime) := {| rt_cmd := rt_cmd r; rt_sysmaster_pid := x; rt_state := rt_state r; rt_epoll_fd := rt_epoll_fd r;
  rt_n_sources := rt_n_sources r; rt_alive := rt_alive r; rt_signal_fd := rt_signal_fd r; rt_need_reexec := rt_need_reexec r |}.
Definition set_rt_state x (r : RunTime) := {| rt_cmd := rt_cmd r; rt_sysmaster_pid := rt_sysmaster_pid r; rt_state := x; rt_epoll_fd := rt_epoll_fd r;
  rt_n_sources := rt_n_sources r; rt_alive := rt_alive r; rt_signal_fd := rt_signal_fd r; rt_need_reexec := rt_need_reexec r |}.
Definition set_rt_n_sources x (r : RunTime) := {| rt_cmd := rt_cmd r; rt_sysmaster_pid := rt_sysmaster_pid r; rt_state := rt_state r; rt_epoll_fd := rt_epoll_fd r;
  rt_n_sources := x; rt_alive := rt_alive r; rt_signal_fd := rt_signal_fd r; rt_need_reexec := rt_need_reexec r |}.
Definition set_rt_alive x (r : RunTime) := {| rt_cmd := rt_cmd r; rt_sysmaster_pid := rt_sysmaster_pid r; rt_state := rt_state r; rt_epoll_fd := rt_epoll_fd r;
  rt_n_sources := rt_n_sources r; rt_alive := x; rt_signal_fd := rt_signal_fd r; rt_need_reexec := rt_need_reexec r |}.
Definition set_rt_signal_fd x (r : RunTime) := {| rt_cmd := rt_cmd r; rt_sysmaster_pid := rt_sysmaster_pid r; rt_state := rt_state r; rt_epoll_fd := rt_epoll_fd r;
  rt_n_sources := rt_n_sources r; rt_alive := rt_alive r; rt_signal_fd := x; rt_need_reexec := rt_need_reexec r |}.
Definition set_rt_need_reexec x (r : RunTime) := {| rt_cmd := rt_cmd r; rt_sysmaster_pid := rt_sysmaster_pid r; rt_state := rt_state r; rt_epoll_fd := rt_epoll_fd r;
  rt_n_sources := rt_n_sources r; rt_alive := rt_alive r; rt_signal_fd := rt_signal_fd r; rt_need_reexec := x |}.

(** ** The kernel

    The errors are numbers; [io_epoll_wait] gives the flags and the data of the events,
    [io_read_siginfo] what [read] answers and the signal it read, [io_exec] the code that
    the child exits with where [exec] returns (the command finds the process in the variable
    MANAGER), [io_waitid] looks at a child that ended and leaves it. *)
Inductive WaitStatus := Exited (pid code : Z) | Signaled (pid signal : Z) | StillAlive | OtherStatus.
Class InitOs (E : Type) : Type := {
  io_exists : string → E → bool;
  io_epoll_create : E → E * Result Z Z;
  io_timer_create : E → E * Result Z Z;
  io_timer_set : Z → Z → E → E * Result unit Z;
  io_epoll_add : Z → Z → E → E * Result unit Z;
  io_epoll_del : Z → Z → E → E * Result unit Z;
  io_epoll_wait : Z → Z → E → E * Result (list (Z * Z)) Z;
  io_close : Z → E → E * Result unit Z;
  io_recv : Z → E → E * Result (list ascii) Z;
  io_read : Z → E → E * Result unit Z;
  io_socket : E → E * Result Z Z;
  io_create_dir_all : string → E → E * Result unit Z;
  io_unlink : string → E → E * Result unit Z;
  io_bind : Z → string → E → E * Result unit Z;
  io_listen : Z → Z → E → E * Result unit Z;
  io_recv_timeout : Z → Z → E → E * Result unit Z;
  io_accept : Z → E → E * Result Z Z;
  io_block_signals : list Z → E → E;
  io_signalfd : list Z → E → E * Z;
  io_read_siginfo : Z → E → E * (Z * Z);
  io_kill : Z → Z → E → E * Result unit Z;
  io_fork : E → E * Result (option Z) Z;
  io_exec : string → list string → E → option Z;
  io_waitid : E → E * Result WaitStatus Z;
  io_reap : Z → E → E * Result unit Z;
}.
(** [libc::SIGRTMIN()], and the fuel of the loops that repeat a call. *)
Class SigRt : Type := sigrtmin : Z.
Class InitFuel (E : Type) : Type := init_fuel : E → nat.

Section runtime.
Context {E : Type} `{HO : !InitOs E} `{HS : !SigRt} `{HF : !InitFuel E}.
(** What ends an operation early: an error, or that this is the child, which becomes the
    manager or exits. *)
Inductive Halt := Errno (e : Z) | Becomes (path : string) (argv : list string) | Exits (code : Z).
Abbreviation I := (M (InitSt E)).
Abbreviation IR A := (M (InitSt E) (Result A Halt)).
Definition rt_get {A} (f : RunTime → A) : I A := mgets (λ s, f (is_rt s)).
Definition rt_mod (f : RunTime → RunTime) : I unit := mmodify (λ s, {| is_os := is_os s; is_rt := f (is_rt s) |}).
Definition alive_mod (f : Alive → Alive) : I unit := rt_mod (λ r, set_rt_alive (f (rt_alive r)) r).
Definition sys {A} (f : E → E * A) : I A :=
  s ← mget; let x := f (is_os s) in mmodify (λ s, {| is_os := x.1; is_rt := is_rt s |});; mret x.2.
Definition sys_try {A} (f : E → E * Result A Z) : IR A :=
  r ← sys f; mret (match r with Ok a => Ok a | Err e => Err (Errno e) end).
(** Started with the fuel that the state of the kernel asks for. *)
Definition with_fuel {A} (f : nat → I A) : I A := s ← mget; f (init_fuel (is_os s)).

(** ** [Epoll] *)
Definition safe_close (fd : Z) : I unit := if fd <? 0 then mret tt else sys (io_close fd);; mret tt.
Definition wait : IR (list (Z * Z)) :=
  n ← rt_get rt_n_sources;
  ep ← rt_get rt_epoll_fd;
  r ← sys (io_epoll_wait ep (Z.max n 1));
  mret (match r with Ok l => Ok l | Err e => if e =? EINTR then Ok [] else Err (Errno e) end).
Definition register (fd : Z) : IR unit :=
  rt_mod (λ r, set_rt_n_sources ((rt_n_sources r + 1) mod 2 ^ 64) r);;
  ep ← rt_get rt_epoll_fd;
  sys_try (io_epoll_add ep fd).
Definition unregister (fd : Z) : IR unit :=
  rt_mod (λ r, set_rt_n_sources ((rt_n_sources r - 1) mod 2 ^ 64) r);;
  ep ← rt_get rt_epoll_fd;
  (sys_try (io_epoll_del ep fd) ;;? safe_close fd;; mret (Ok tt)).
Fixpoint recv_loop (fuel : nat) (fd count : Z) : IR string :=
  match fuel with
  | O => mnofuel
  | S fuel' =>
    r ← sys (io_recv fd);
    match r with
    | Ok bytes => mret (if utf8 bytes then Ok (of_chars bytes) else Err (Errno EINVAL))
    | Err e =>
      if e =? EINTR then recv_loop fuel' fd count
      else if (e =? EAGAIN) && (count <? 3) then recv_loop fuel' fd (count + 1)
      else mret (Err (Errno e))
    end
  end.
Definition recv_nowait (fd : Z) : IR string := with_fuel (λ n, recv_loop n fd 0).
Definition read (fd : Z) : IR unit :=
  r ← sys (io_read fd);
  mret (match r with Err e => if (e =? EAGAIN) || (e =? EINTR) then Ok tt else Err (Errno e) | Ok _ => Ok tt end).
Definition event_is_err (flags : Z) : bool :=
  (Z.land flags EPOLLERR =? EPOLLERR) || (Z.land flags EPOLLHUP =? EPOLLHUP).
Definition epoll_clear : I unit := ep ← rt_get rt_epoll_fd; safe_close ep.

(** ** [Alive] *)
Definition alive_init : IR unit :=
  a ← rt_get rt_alive;
  (sys_try (io_timer_set (al_timer a) (al_time_wait a)) ;;?
   alive_mod (set_al_time_fd (al_timer a));;
   (register (al_timer a) ;;?
    fd ←? sys_try io_socket;
    alive_mod (set_al_alive_fd fd);;
    (sys_try (io_create_dir_all "/run/sysmaster") ;;?
     sys (io_unlink INIT_SOCKET);;
     (sys_try (io_bind fd INIT_SOCKET) ;;?
      sys_try (io_listen fd LISTEN_BACKLOG))))).
Definition del_connect_epoll : IR unit :=
  fd ← rt_get (λ r, al_connect_fd (rt_alive r));
  (unregister fd ;;? alive_mod (set_al_connect_fd INVALID_FD);; mret (Ok tt)).
Fixpoint accept_loop (fuel : nat) (fd count : Z) : IR unit :=
  match fuel with
  | O => mnofuel
  | S fuel' =>
    r ← sys (io_accept fd);
    match r with
    | Ok c => alive_mod (set_al_connect_fd c);; mret (Ok tt)
    | Err e =>
      if e =? EINTR then accept_loop fuel' fd count
      else if (count <? ACCEPT_COUNT) && (e =? EAGAIN) then accept_loop fuel' fd (count + 1)
      else mret (Err (Errno e))
    end
  end.
Definition wait_alive : IR unit :=
  fd ← rt_get (λ r, al_alive_fd (rt_alive r));
  (sys_try (io_recv_timeout fd SOCKET_TIMEOUT) ;;? with_fuel (λ n, accept_loop n fd 0)).
Definition wait_connect : IR unit :=
  c ← rt_get (λ r, al_connect_fd (rt_alive r));
  ((if 0 <=? c then del_connect_epoll else mret (Ok tt)) ;;?
   wait_alive ;;?
   c ← rt_get (λ r, al_connect_fd (rt_alive r));
   register c).
Definition recv_buf : IR string := fd ← rt_get (λ r, al_connect_fd (rt_alive r)); recv_nowait fd.
Definition is_manageable (buf : string) : bool := bool_decide (buf = "MANAGEABLE"%string).
Definition is_alive (buf : string) : bool := bool_decide (buf = "ALIVE"%string).
Definition is_unmanageable (buf : string) : bool := bool_decide (buf = "UNMANAGEABLE"%string).
(** [self.alive.manager_time_count = 0; self.alive.alive_time_count = 0] and the ticks. *)
Definition reset_counts : I unit := alive_mod (set_al_counts 0 0).
Definition reset_manager_count : I unit := alive_mod (λ a, set_al_counts 0 (al_alive_time_count a) a).
Definition reset_alive_count : I unit := alive_mod (λ a, set_al_counts (al_manager_time_count a) 0 a).
Definition tick_manager : I unit := alive_mod (λ a, set_al_counts (i64_succ (al_manager_time_count a)) (al_alive_time_count a) a).
Definition tick_alive : I unit := alive_mod (λ a, set_al_counts (al_manager_time_count a) (i64_succ (al_alive_time_count a)) a).

(** ** [Signals] *)
Definition zombie_signal : Z := SIGCHLD.
Definition unrecover_signal : Z := sigrtmin + RUN_UNRECOVER_SIG_OFFSET.
Definition restart_signal : Z := sigrtmin + RESTART_MANAGER_SIG_OFFSET.
Definition signals : list Z := [unrecover_signal; restart_signal; zombie_signal].
Definition reset_sigset : I unit :=
  mmodify (λ s, {| is_os := io_block_signals signals (is_os s); is_rt := is_rt s |});;
  fd ← sys (io_signalfd signals);
  rt_mod (set_rt_signal_fd fd).
Definition create_signals_epoll : IR unit :=
  reset_sigset;; fd ← rt_get rt_signal_fd; register fd.
(** The size of [siginfo_t] is 128; an error of [read] is taken for its number. *)
Definition read_signals : IR (option Z) :=
  fd ← rt_get rt_signal_fd;
  x ← sys (io_read_siginfo fd);
  mret (if x.1 =? 128 then Ok (Some x.2) else if 0 <=? x.1 then Ok None else Err (Errno (- x.1))).
Fixpoint recycle_loop (fuel : nat) : I unit :=
  match fuel with
  | O => mnofuel
  | S fuel' =>
    st ← sys io_waitid;
    match st with
    | Ok (Exited pid _) | Ok (Signaled pid _) =>
      if pid <=? 0 then mret tt else sys (io_reap pid);; recycle_loop fuel'
    | _ => mret tt
    end
  end.
Definition recycle_zombie : IR unit := with_fuel recycle_loop;; mret (Ok tt).

(** ** [RunTime] *)
Definition create_sysmaster : IR unit :=
  cmd ← rt_get (λ r, pm_manager_args (rt_cmd r));
  match cmd with
  | [] => mret (Err (Errno EINVAL))
  | path :: argv =>
    res ← sys io_fork;
    match res with
    | Err e => mret (Err (Errno e))
    | Ok (Some child) => rt_mod (set_rt_sysmaster_pid child);; (wait_connect ;;? mret (Ok tt))
    | Ok None =>
      s ← mget;
      mret (Err (match io_exec path argv (is_os s) with None => Becomes path argv | Some e => Exits e end))
    end
  end.
Definition rt_init : IR unit :=
  create_signals_epoll ;;?
  alive_init ;;?
  create_sysmaster ;;?
  rt_mod (set_rt_state InitState.Reexec);; mret (Ok tt).
Definition reexec_manager : IR InitState :=
  rt_mod (set_rt_need_reexec false);;
  reset_counts;;
  c ← rt_get (λ r, al_connect_fd (rt_alive r));
  ((if 0 <=? c then del_connect_epoll else mret (Ok tt)) ;;?
   pid ← rt_get rt_sysmaster_pid;
   res ← sys (io_kill pid (sigrtmin + MANAGER_SIG_OFFSET));
   match res with
   | Err _ => rt_mod (set_rt_state InitState.RunUnRecover);; st ← rt_get rt_state; mret (Ok st)
   | Ok _ =>
     w ← wait_connect;
     mwhen (is_err w) (rt_mod (set_rt_state InitState.RunUnRecover));;
     st ← rt_get rt_state; mret (Ok st)
   end).
Definition ep_event_err_proc (flags data : Z) : IR bool :=
  if event_is_err flags then
    c ← rt_get (λ r, al_connect_fd (rt_alive r));
    if as_u64 c =? data then
      del_connect_epoll ;;? rt_mod (set_rt_state InitState.RunUnRecover);; mret (Ok true)
    else mret (Err (Errno EIO))
  else mret (Ok false).
Definition do_restart : IR unit :=
  rt_mod (set_rt_state InitState.Reexec);; rt_mod (set_rt_need_reexec true);; mret (Ok tt).
Definition run_to_unrecover : IR unit := rt_mod (set_rt_state InitState.RunUnRecover);; mret (Ok tt).
Definition run_dispatch_signal (signal : Z) : IR unit :=
  if signal =? zombie_signal then recycle_zombie
  else if signal =? restart_signal then do_restart
  else if signal =? unrecover_signal then run_to_unrecover
  else mret (Ok tt).
Definition unrecover_dispatch_signal (signal : Z) : IR unit :=
  if signal =? zombie_signal then recycle_zombie
  else if signal =? restart_signal then
    pid ← rt_get rt_sysmaster_pid;
    sys (io_kill pid SIGKILL);;
    create_sysmaster
  else mret (Ok tt).

(** One event: which descriptor it is for, and what the three states do with it; [true]
    ends the loop over the events. *)
Definition on_event (on_buf : string → I unit) (on_tick : I unit) (on_signal : Z → IR unit) (ev : Z * Z) : IR bool :=
  err ←? ep_event_err_proc ev.1 ev.2;
  if (err : bool) then mret (Ok true) else
  r ← rt_get id;
  if as_u64 (al_connect_fd (rt_alive r)) =? ev.2 then buf ←? recv_buf; on_buf buf;; mret (Ok false)
  else if as_u64 (al_time_fd (rt_alive r)) =? ev.2 then read (al_time_fd (rt_alive r)) ;;? on_tick;; mret (Ok false)
  else if as_u64 (rt_signal_fd r) =? ev.2 then
    res ←? read_signals;
    ((match res with Some signal => on_signal signal | None => mret (Ok tt) end) ;;? mret (Ok false))
  else mret (Ok false).
Fixpoint for_events (body : Z * Z → IR bool) (evs : list (Z * Z)) : IR unit :=
  match evs with
  | [] => mret (Ok tt)
  | ev :: evs' => stop ←? body ev; if (stop : bool) then mret (Ok tt) else for_events body evs'
  end.
Definition reexec_buf (buf : string) : I unit :=
  need ← rt_get rt_need_reexec;
  if is_unmanageable buf then rt_mod (set_rt_need_reexec true)
  else if is_manageable buf && negb need then rt_mod (set_rt_state InitState.RunRecover);; reset_counts
  else mret tt.
Definition reexec_tick : I unit :=
  tick_manager;;
  a ← rt_get rt_alive;
  mwhen (al_time_out a <=? al_manager_time_count a) (rt_mod (set_rt_need_reexec true)).
Definition reexec_events : IR unit := evs ←? wait; for_events (on_event reexec_buf reexec_tick run_dispatch_signal) evs.
Definition reexec : IR unit :=
  need ← rt_get rt_need_reexec;
  if (need : bool) then
    st ←? reexec_manager;
    if decide (st = InitState.Reexec) then reexec_events else mret (Ok tt)
  else reexec_events.
Definition run_buf (buf : string) : I unit :=
  if is_unmanageable buf then
    reset_manager_count;; rt_mod (set_rt_state InitState.Reexec);; rt_mod (set_rt_need_reexec true)
  else if is_alive buf then reset_alive_count
  else mret tt.
Definition run_tick : I unit :=
  tick_alive;;
  a ← rt_get rt_alive;
  mwhen (al_time_out a <=? al_alive_time_count a)
    (rt_mod (set_rt_state InitState.Reexec);; rt_mod (set_rt_need_reexec true)).
Definition run : IR unit := evs ←? wait; for_events (on_event run_buf run_tick run_dispatch_signal) evs.
Definition unrecover_buf (buf : string) : I unit := mwhen (is_alive buf) reset_counts.
Definition unrecover_tick : I unit :=
  tick_alive;;
  a ← rt_get rt_alive;
  mwhen (al_time_out a <=? al_alive_time_count a) reset_alive_count.
Definition unrecover_run : IR unit := evs ←? wait; for_events (on_event unrecover_buf unrecover_tick unrecover_dispatch_signal) evs.
Definition clear : I unit :=
  a ← rt_get rt_alive;
  safe_close (al_alive_fd a);;
  alive_mod (set_al_alive_fd INVALID_FD);;
  safe_close (al_connect_fd a);;
  alive_mod (set_al_connect_fd INVALID_FD);;
  fd ← rt_get rt_signal_fd;
  safe_close fd;;
  rt_mod (set_rt_signal_fd INVALID_FD);;
  epoll_clear.

(** ** [main]: it goes on for ever ([Running] after the rounds asked for), stands still
    ([freeze]), or is the child. *)
Inductive Outcome := Running | Frozen | Child (h : Halt).
Definition step : IR unit :=
  st ← rt_get rt_state;
  match st with
  | InitState.Reexec => reexec
  | InitState.RunRecover => run
  | InitState.RunUnRecover => unrecover_run
  end.
(** What an operation that failed leads to. *)
Definition or_freeze (m : IR unit) (k : I Outcome) : I Outcome :=
  r ← m;
  match r with
  | Ok _ => k
  | Err (Errno _) => clear;; mret Frozen
  | Err h => mret (Child h)
  end.
Fixpoint main_loop (rounds : nat) : I Outcome :=
  match rounds with O => mret Running | S n => or_freeze step (main_loop n) end.
Definition RunTime_new (cmd : Param) : M E (Result RunTime Z) :=
  let cmd := get_opt cmd in
  mtry (λ e, Returned (io_epoll_create e)) (λ ep,
  mtry (λ e, Returned (io_timer_create e)) (λ timer,
  mret (Ok {|
    rt_cmd := cmd; rt_sysmaster_pid := INVALID_PID; rt_state := InitState.Reexec; rt_epoll_fd := ep; rt_n_sources := 0;
    rt_alive := {| al_alive_fd := INVALID_FD; al_connect_fd := INVALID_FD; al_time_fd := INVALID_FD; al_timer := timer;
      al_manager_time_count := 0; al_alive_time_count := 0; al_time_out := pm_time_out cmd; al_time_wait := pm_time_wait cmd |};
    rt_signal_fd := INVALID_FD; rt_need_reexec := false |}))).
Definition detect_init (e : E) : string :=
  if io_exists SYSMASTER_PATH e then SYSMASTER_PATH else if io_exists SYSTEMD_PATH e then SYSTEMD_PATH else "".
Definition with_runtime {A} (rt : RunTime) (m : I A) : M E A := λ e,
  match m {| is_os := e; is_rt := rt |} with
  | Returned (s, a) => Returned (is_os s, a)
  | Panicked => Panicked
  | OutOfFuel => OutOfFuel
  end.
Definition main (rounds : nat) (args : list string) : M E Outcome :=
  e ← mget;
  let cmd := get_command args in
  let argument := detect_init e in
  if bool_decide (pm_manager_args cmd = []) && bool_decide (argument = ""%string) then mret Frozen else
  let cmd := if decide (pm_manager_args cmd = []) then push_manager_arg argument cmd else cmd in
  r ← RunTime_new cmd;
  match r with
  | Err _ => mret Frozen
  | Ok rt => with_runtime rt (or_freeze rt_init (main_loop rounds))
  end.
End runtime.

(** ** The manager's side: [KeepAlive] and the handlers of [main.rs] *)
Class KeepOs (E : Type) : Type := {
  ka_socket : E → E * Result Z Z;
  ka_connect : Z → string → E → E * Result unit Z;
  ka_send : Z → string → E → E * Result unit Z;
  ka_close : Z → E → E * Result unit Z;
  ka_getppid : E → Z;
  ka_args : E → list string;
  ka_current_exe : E → option string;
  ka_exec : string → list string → E → option Z;
}.
Definition MANAGER_ARGS_SIZE_MAX : nat := 5.
Section keep_alive.
Context {E : Type} `{HK : !KeepOs E} `{HF : !InitFuel E}.
Abbreviation K := (M E).
Definition ka_call {A} (f : E → E * A) : K A := λ e, Returned (f e).
(** [close(fd)?; return Err(err)] *)
Definition close_err {A} (fd err : Z) : K (Result A Z) := mtry (ka_call (ka_close fd)) (λ _, mret (Err err)).
Fixpoint send_loop (fuel : nat) (fd : Z) (msg : string) : K (Result unit Z) :=
  match fuel with
  | O => mnofuel
  | S fuel' =>
    r ← ka_call (ka_send fd msg);
    match r with
    | Err err => if err =? EINTR then send_loop fuel' fd msg else close_err fd err
    | Ok _ => mret (Ok tt)
    end
  end.
Definition send_msg (fd : Z) (msg : string) : K (Result unit Z) := e ← mget; send_loop (init_fuel e) fd msg.
(** The descriptor that it holds. *)
Definition KeepAlive_new : K (Result Z Z) :=
  connect_fd ←? ka_call ka_socket;
  r ← ka_call (ka_connect connect_fd INIT_SOCKET);
  match r with
  | Err err => close_err connect_fd err
  | Ok _ => send_msg connect_fd "MANAGEABLE" ;;? mret (Ok connect_fd)
  end.
Definition send_unmanageable (connect_fd : Z) : K (Result unit Z) := send_msg connect_fd "UNMANAGEABLE".
(** The handler of a crash; it returns, and the signal comes again. *)
Definition crash (instance : Result Z Z) : K unit :=
  match instance with Ok fd => send_unmanageable fd;; mret tt | Err _ => mret tt end.
Definition execarg_build_default (e : E) : option (string * list string) :=
  p ← ka_current_exe e; Some (p, drop 1 (ka_args e)).
Definition do_reexecute (args : list string) : K Halt :=
  e ← mget;
  x ← match args with [] => munwrap (execarg_build_default e) | path :: argv => mret (path, argv) end;
  massert (length x.2 <=? Nat.max (length args) MANAGER_ARGS_SIZE_MAX)%nat;;
  mret (match ka_exec x.1 x.2 e with None => Becomes x.1 x.2 | Some c => Exits c end).
(** [None]: the handler returns. *)
Definition crash_reexec (si_pid : Z) : K (option Halt) :=
  e ← mget;
  if si_pid =? ka_getppid e then h ← do_reexecute (ka_args e); mret (Some h) else mret None.
End keep_alive.

(** * What is shown

    The kernel remembers the signals that were sent ([il_kills]).  What it has pending
    ([il_pending]: interruptions of a call, children that ended) runs out, and the fuel is
    enough for it. *)
Class InitLaws (E : Type) `{HO : !InitOs E} `{HF : !InitFuel E} : Type := {
  il_kills : E → list (Z * Z);
  il_pending : E → nat;
  il_fuel e : (il_pending e + 4 ≤ init_fuel e)%nat;
  il_recv_le fd e : (il_pending (io_recv fd e).1 ≤ il_pending e)%nat;
  il_recv_intr fd e : (io_recv fd e).2 = Err EINTR → (il_pending (io_recv fd e).1 < il_pending e)%nat;
  il_accept_le fd e : (il_pending (io_accept fd e).1 ≤ il_pending e)%nat;
  il_accept_intr fd e : (io_accept fd e).2 = Err EINTR → (il_pending (io_accept fd e).1 < il_pending e)%nat;
  il_reap_lt pid e : (∃ x, (io_waitid e).2 = Ok (Exited pid x) ∨ (io_waitid e).2 = Ok (Signaled pid x)) →
    (il_pending (io_reap pid (io_waitid e).1).1 < il_pending e)%nat;
  il_kills_kill pid sig e : il_kills (io_kill pid sig e).1 = il_kills e ++ [(pid, sig)];
  il_kills_wait ep n e : il_kills (io_epoll_wait ep n e).1 = il_kills e;
  il_kills_add ep fd e : il_kills (io_epoll_add ep fd e).1 = il_kills e;
  il_kills_del ep fd e : il_kills (io_epoll_del ep fd e).1 = il_kills e;
  il_kills_close fd e : il_kills (io_close fd e).1 = il_kills e;
  il_kills_recv fd e : il_kills (io_recv fd e).1 = il_kills e;
  il_kills_read fd e : il_kills (io_read fd e).1 = il_kills e;
  il_kills_timeout fd t e : il_kills (io_recv_timeout fd t e).1 = il_kills e;
  il_kills_accept fd e : il_kills (io_accept fd e).1 = il_kills e;
  il_kills_siginfo fd e : il_kills (io_read_siginfo fd e).1 = il_kills e;
  il_kills_fork e : il_kills (io_fork e).1 = il_kills e;
  il_kills_waitid e : il_kills (io_waitid e).1 = il_kills e;
  il_kills_reap pid e : il_kills (io_reap pid e).1 = il_kills e;
}.

Abbreviation state_of s := (rt_state (is_rt s)).
Abbreviation kills_of s := (il_kills (is_os s)).

Section facts.
Context {E : Type} `{HO : !InitOs E} `{HS : !SigRt} `{HF : !InitFuel E} `{HL : !InitLaws E}.
Implicit Types (s : InitSt E) (e : E) (fd : Z).
Abbreviation I := (M (InitSt E)).

Lemma wp_sys {A} (f : E → E * A) s Q :
  wp (sys f) s Q ↔ Q {| is_os := (f (is_os s)).1; is_rt := is_rt s |} (f (is_os s)).2.
Proof. done. Qed.
Lemma wp_rt_get {A} (f : RunTime → A) s Q : wp (rt_get f) s Q ↔ Q s (f (is_rt s)).
Proof. done. Qed.
Lemma wp_rt_mod (f : RunTime → RunTime) s Q : wp (rt_mod f) s Q ↔ Q {| is_os := is_os s; is_rt := f (is_rt s) |} tt.
Proof. done. Qed.
Lemma wp_sys_try {A} (f : E → E * Result A Z) s Q :
  wp (sys_try f) s Q ↔ Q {| is_os := (f (is_os s)).1; is_rt := is_rt s |}
    (match (f (is_os s)).2 with Ok a => Ok a | Err e => Err (Errno e) end).
Proof. done. Qed.

(** ** Without the manager *)

(** The operations that keep the state and send no signal but SIGKILL, from a state that is
    given up. *)
Definition only_kills s s' : Prop :=
  state_of s' = state_of s ∧ ∃ ks, kills_of s' = kills_of s ++ ks ∧ Forall (λ k, k.2 = SIGKILL) ks.
#[global] Instance only_kills_preorder : PreOrder only_kills.
Proof.
  split; [intros s; split; [done|]; exists []; by rewrite app_nil_r|].
  intros s1 s2 s3 [S1 (k1 & H1 & F1)] [S2 (k2 & H2 & F2)]. split; [congruence|]. exists (k1 ++ k2). by rewrite H2, H1, app_assoc, Forall_app.
Qed.
Definition given_up {A} (m : I A) : Prop :=
  ∀ s, state_of s = InitState.RunUnRecover → wp m s (λ s' _, only_kills s s').
Lemma given_up_ret {A} (a : A) : given_up (mret a).
Proof. intros s _. by apply wp_ret. Qed.
Lemma given_up_bind {A B} (m : I A) (k : A → I B) : given_up m → (∀ a, given_up (k a)) → given_up (m ≫= k).
Proof.
  intros Hm Hk s Hs. apply wp_bind. eapply wp_mono; [by apply Hm|]. intros s1 a H1.
  eapply wp_mono; [apply Hk; destruct H1 as [-> _]; done|]. intros s2 b H2. by trans s1.
Qed.
Lemma given_up_mtry {A B} (m : I (Result A Halt)) (k : A → I (Result B Halt)) : given_up m → (∀ a, given_up (k a)) → given_up (mtry m k).
Proof. intros Hm Hk. apply given_up_bind; [done|]. intros [a|x]; [done|apply given_up_ret]. Qed.
Lemma given_up_mget : given_up mget.
Proof. intros s _. by apply wp_mget. Qed.
Lemma given_up_get {A} (f : RunTime → A) : given_up (rt_get f).
Proof. intros s _. by apply wp_rt_get. Qed.
Lemma given_up_mod (f : RunTime → RunTime) : (∀ r, rt_state r = InitState.RunUnRecover → rt_state (f r) = rt_state r) → given_up (rt_mod f).
Proof. intros Hf s Hs. apply wp_rt_mod. split; [by apply Hf|]. exists []. by rewrite app_nil_r. Qed.
Lemma given_up_sys {A} (f : E → E * A) : (∀ e, il_kills (f e).1 = il_kills e) → given_up (sys f).
Proof. intros Hf s Hs. apply wp_sys. split; [done|]. exists []. cbn. by rewrite Hf, app_nil_r. Qed.
Lemma given_up_kill pid : given_up (sys (io_kill pid SIGKILL)).
Proof. intros s Hs. apply wp_sys. split; [done|]. exists [(pid, SIGKILL)]. cbn. rewrite il_kills_kill. split; [done|]. by constructor. Qed.
Lemma given_up_mwhen b (m : I unit) : given_up m → given_up (mwhen b m).
Proof. destruct b; [done|]. intros _. apply given_up_ret. Qed.
Lemma given_up_with_fuel {A} (f : nat → I A) :
  (∀ n s, state_of s = InitState.RunUnRecover → (il_pending (is_os s) + 4 ≤ n)%nat → wp (f n) s (λ s' _, only_kills s s')) → given_up (with_fuel f).
Proof. intros Hf s Hs. unfold with_fuel. apply wp_bind, wp_mget, Hf; [done|]. apply il_fuel. Qed.
End facts.

Create HintDb given_up.
#[export] Hint Resolve given_up_ret given_up_mget given_up_get given_up_kill : given_up.
#[export] Hint Resolve il_kills_wait il_kills_add il_kills_del il_kills_close il_kills_recv il_kills_read il_kills_timeout
  il_kills_accept il_kills_siginfo il_kills_fork il_kills_waitid il_kills_reap : given_up.
Ltac given_up_step :=
  match goal with
  | |- given_up (mtry _ _) => apply given_up_mtry; [|intros ?]
  | |- given_up (_ ≫= _) => apply given_up_bind; [|intros ?]
  | |- given_up (mwhen _ _) => apply given_up_mwhen
  | |- given_up (sys_try _) => unfold sys_try
  | |- given_up (alive_mod _) => unfold alive_mod
  | |- given_up (rt_mod _) => apply given_up_mod; intros ? ?; solve [done | by symmetry]
  | |- given_up (match _ with _ => _ end) => case_match
  | |- given_up _ => solve [eauto 3 with given_up nocore]
  | |- given_up (sys _) => apply given_up_sys; intros ?; solve [eauto 2 with given_up nocore]
  end.
Ltac given_up := repeat given_up_step.

Section unrecover.
Context {E : Type} `{HO : !InitOs E} `{HS : !SigRt} `{HF : !InitFuel E} `{HL : !InitLaws E}.
Implicit Types (s : InitSt E) (e : E) (fd : Z).
Lemma given_up_safe_close fd : given_up (safe_close fd).
Proof. unfold safe_close. given_up. Qed.
Lemma given_up_wait : given_up wait.
Proof. unfold wait. given_up. Qed.
Lemma given_up_register fd : given_up (register fd).
Proof. unfold register. given_up. Qed.
#[local] Hint Resolve given_up_safe_close given_up_wait given_up_register : given_up.
Lemma given_up_del_connect : given_up del_connect_epoll.
Proof. unfold del_connect_epoll, unregister. given_up. Qed.
Lemma given_up_read fd : given_up (read fd).
Proof. unfold read. given_up. Qed.
Lemma given_up_read_signals : given_up read_signals.
Proof. unfold read_signals. given_up. Qed.
(** The loops end, by what is pending and the retries that are left. *)
Lemma only_kills_sys {A} (f : E → E * A) s : (∀ e, il_kills (f e).1 = il_kills e) →
  only_kills s {| is_os := (f (is_os s)).1; is_rt := is_rt s |}.
Proof. intros Hf. split; [done|]. exists []. cbn. by rewrite Hf, app_nil_r. Qed.
Lemma given_up_recv_loop fuel fd count s : state_of s = InitState.RunUnRecover → 0 ≤ count ≤ 3 →
  (il_pending (is_os s) + Z.to_nat (4 - count) ≤ fuel)%nat → wp (recv_loop fuel fd count) s (λ s' _, only_kills s s').
Proof.
  revert count s. induction fuel as [|fuel IH]; intros count s Hs Hc Hf; [lia|]. cbn [recv_loop]. apply wp_bind, wp_sys.
  pose proof (il_recv_le fd (is_os s)) as Hle. pose proof (il_recv_intr fd (is_os s)) as Hintr.
  assert (only_kills s {| is_os := (io_recv fd (is_os s)).1; is_rt := is_rt s |}) as Ho by (apply only_kills_sys; apply il_kills_recv).
  destruct (io_recv fd (is_os s)) as [e' [bytes|err]]; cbn [fst snd] in *; [by apply wp_ret|].
  destruct (Z.eqb_spec err EINTR) as [->|_].
  - specialize (Hintr eq_refl). eapply wp_mono; [apply IH; [done|lia|cbn [is_os]; lia]|]. intros s' x H. by etrans.
  - destruct ((err =? EAGAIN) && (count <? 3)) eqn:Hag; [|by apply wp_ret]. apply andb_true_iff in Hag as [_ Hlt%Z.ltb_lt].
    eapply wp_mono; [apply IH; [done|lia|cbn [is_os]; lia]|]. intros s' x H. by etrans.
Qed.
(** Waiting for the manager ends: it is there, with a descriptor that was accepted, or
    nothing has changed. *)
Definition set_connect (c : Z) (r : RunTime) : RunTime := set_rt_alive (set_al_connect_fd c (rt_alive r)) r.
Lemma wp_accept_loop fuel fd count s : 0 ≤ count ≤ 3 → (il_pending (is_os s) + Z.to_nat (4 - count) ≤ fuel)%nat →
  wp (accept_loop fuel fd count) s (λ s' r, kills_of s' = kills_of s
    ∧ match r with Ok _ => ∃ c e, (io_accept fd e).2 = Ok c ∧ is_rt s' = set_connect c (is_rt s) | Err _ => is_rt s' = is_rt s end).
Proof.
  revert count s. induction fuel as [|fuel IH]; intros count s Hc Hf; [lia|]. cbn [accept_loop]. apply wp_bind, wp_sys.
  pose proof (il_accept_le fd (is_os s)) as Hle. pose proof (il_accept_intr fd (is_os s)) as Hintr. pose proof (il_kills_accept fd (is_os s)) as Hk.
  destruct (io_accept fd (is_os s)) as [e' [c|err]] eqn:Ha; cbn [fst snd] in *.
  { apply wp_bind, wp_rt_mod, wp_ret. split; [done|]. exists c, (is_os s). by rewrite Ha. }
  assert (∀ n, 0 ≤ n ≤ 3 → (il_pending e' + Z.to_nat (4 - n) ≤ fuel)%nat → wp (accept_loop fuel fd n) {| is_os := e'; is_rt := is_rt s |}
    (λ s' r, kills_of s' = kills_of s
      ∧ match r with Ok _ => ∃ c e, (io_accept fd e).2 = Ok c ∧ is_rt s' = set_connect c (is_rt s) | Err _ => is_rt s' = is_rt s end)) as Hrec.
  { intros n Hn Hfn. eapply wp_mono; [by apply IH|]. intros s' r [-> H]. done. }
  destruct (Z.eqb_spec err EINTR) as [->|_]; [specialize (Hintr eq_refl); apply Hrec; [done|lia]|].
  destruct ((count <? ACCEPT_COUNT) && (err =? EAGAIN)) eqn:Hag; [|by apply wp_ret]. apply andb_true_iff in Hag as [Hlt%Z.ltb_lt _].
  unfold ACCEPT_COUNT in Hlt. apply Hrec; lia.
Qed.
Lemma wp_wait_alive s : wp wait_alive s (λ s' r, kills_of s' = kills_of s
  ∧ match r with Ok _ => ∃ c fd e, (io_accept fd e).2 = Ok c ∧ is_rt s' = set_connect c (is_rt s) | Err _ => is_rt s' = is_rt s end).
Proof.
  unfold wait_alive. apply wp_bind, wp_rt_get. set (fd := al_alive_fd _). apply wp_mtry, wp_sys_try.
  pose proof (il_kills_timeout fd SOCKET_TIMEOUT (is_os s)) as Hk.
  destruct (io_recv_timeout fd SOCKET_TIMEOUT (is_os s)) as [e' [[]|err]]; cbn [fst snd] in *; [|done].
  unfold with_fuel. apply wp_bind, wp_mget. cbn [is_os]. eapply wp_mono; [apply wp_accept_loop; [lia|]|].
  { change (Z.to_nat (4 - 0)) with 4%nat. apply il_fuel. }
  intros s' r [-> H]. split; [done|]. destruct r; [|done]. destruct H as (c & e & H1 & H2). by exists c, fd, e.
Qed.
Lemma given_up_recycle_loop fuel s : state_of s = InitState.RunUnRecover → (il_pending (is_os s) < fuel)%nat →
  wp (recycle_loop fuel) s (λ s' _, only_kills s s').
Proof.
  revert s. induction fuel as [|fuel IH]; intros s Hs Hf; [lia|]. cbn [recycle_loop]. apply wp_bind, wp_sys.
  assert (only_kills s {| is_os := (io_waitid (is_os s)).1; is_rt := is_rt s |}) as Ho by (apply only_kills_sys; apply il_kills_waitid).
  assert (∀ pid, (∃ x, (io_waitid (is_os s)).2 = Ok (Exited pid x) ∨ (io_waitid (is_os s)).2 = Ok (Signaled pid x)) →
    wp (if pid <=? 0 then mret tt else sys (io_reap pid);; recycle_loop fuel) {| is_os := (io_waitid (is_os s)).1; is_rt := is_rt s |} (λ s' _, only_kills s s')) as Hreap.
  { intros pid Hpid. destruct (pid <=? 0); [by apply wp_ret|]. apply wp_bind, wp_sys. cbn [is_os is_rt]. pose proof (il_reap_lt pid _ Hpid) as Hlt.
    eapply wp_mono; [apply IH; [done|cbn [is_os]; lia]|]. intros s' x H. etrans; [exact Ho|]. etrans; [|exact H].
    exact (only_kills_sys (io_reap pid) {| is_os := (io_waitid (is_os s)).1; is_rt := is_rt s |} (il_kills_reap pid)). }
  destruct (io_waitid (is_os s)).2 as [[pid x|pid x| |]|err] eqn:Hw; [apply Hreap; eauto..| | |]; by apply wp_ret.
Qed.
Lemma given_up_recv_buf : given_up recv_buf.
Proof.
  unfold recv_buf, recv_nowait. given_up_step; [given_up|]. apply given_up_with_fuel. intros n s Hs Hn.
  apply given_up_recv_loop; [done|lia|]. change (Z.to_nat (4 - 0)) with 4%nat. done.
Qed.
Lemma given_up_wait_alive : given_up wait_alive.
Proof.
  intros s Hs. eapply wp_mono; [apply wp_wait_alive|]. intros s' r [Hk Hr]. split; [|exists []; by rewrite Hk, app_nil_r].
  destruct r; [destruct Hr as (c & fd & e & _ & ->)|rewrite Hr]; done.
Qed.
#[local] Hint Resolve given_up_del_connect given_up_read given_up_read_signals given_up_recv_buf given_up_wait_alive : given_up.
Lemma given_up_recycle_zombie : given_up recycle_zombie.
Proof.
  unfold recycle_zombie. given_up_step; [|given_up]. apply given_up_with_fuel. intros n s Hs Hn. apply given_up_recycle_loop; [done|lia].
Qed.
Lemma given_up_wait_connect : given_up wait_connect.
Proof. unfold wait_connect. given_up. Qed.
#[local] Hint Resolve given_up_recycle_zombie given_up_wait_connect : given_up.
Lemma given_up_create_sysmaster : given_up create_sysmaster.
Proof. unfold create_sysmaster. given_up. Qed.
Lemma given_up_err_proc flags data : given_up (ep_event_err_proc flags data).
Proof. unfold ep_event_err_proc. given_up. Qed.
#[local] Hint Resolve given_up_create_sysmaster given_up_err_proc : given_up.
Lemma given_up_event ev : given_up (on_event unrecover_buf unrecover_tick unrecover_dispatch_signal ev).
Proof.
  unfold on_event, unrecover_buf, unrecover_tick, unrecover_dispatch_signal, reset_counts, reset_alive_count, tick_alive. given_up.
Qed.
Lemma given_up_for_events body evs : (∀ ev, given_up (body ev)) → given_up (for_events body evs).
Proof. intros Hb. induction evs as [|ev evs IH]; cbn [for_events]; given_up. Qed.
Lemma given_up_clear : given_up clear.
Proof. unfold clear, epoll_clear. given_up. Qed.
End unrecover.


(** ** Silence *)

(** The timer is all that happens: its descriptor is the only one that is ready, the calls
    on it and the signals succeed, and no connection gets its number. *)
Record timer_only {E} `{HO : !InitOs E} (fd : Z) : Prop := {
  to_wait ep n e : (io_epoll_wait ep n e).2 = Ok [(EPOLLIN, as_u64 fd)];
  to_read e : (io_read fd e).2 = Ok tt;
  to_del ep c e : (io_epoll_del ep c e).2 = Ok tt;
  to_kill pid sig e : (io_kill pid sig e).2 = Ok tt;
  to_accept l e c : (io_accept l e).2 = Ok c → 0 ≤ c < 2 ^ 31 ∧ c ≠ fd;
}.
(** The ticks since the last sign of life, where it is waited for. *)
Definition silent_ticks (r : RunTime) : option Z :=
  match rt_state r with
  | InitState.Reexec => Some (al_manager_time_count (rt_alive r))
  | InitState.RunRecover => Some (al_alive_time_count (rt_alive r))
  | InitState.RunUnRecover => None
  end.
Record timed (fd : Z) (r : RunTime) : Prop := {
  td_fd : al_time_fd (rt_alive r) = fd;
  td_range : 0 ≤ fd < 2 ^ 31;
  td_connect : -1 ≤ al_connect_fd (rt_alive r) < 2 ^ 31;
  td_other : al_connect_fd (rt_alive r) ≠ fd;
}.

Section silence.
Context {E : Type} `{HO : !InitOs E} `{HS : !SigRt} `{HF : !InitFuel E} `{HL : !InitLaws E}.
Context (fd : Z) (Honly : timer_only fd).
Implicit Types (s : InitSt E).
Definition same_manager s s' : Prop :=
  rt_sysmaster_pid (is_rt s') = rt_sysmaster_pid (is_rt s) ∧ al_time_out (rt_alive (is_rt s')) = al_time_out (rt_alive (is_rt s)).

Lemma i64_succ_small n : 0 ≤ n < i64_max → i64_succ n = n + 1.
Proof. unfold i64_succ, i64_max. intros Hn. rewrite Z.mod_small; lia. Qed.
Lemma connect_not_timer r : timed fd r → as_u64 (al_connect_fd (rt_alive r)) =? as_u64 fd = false.
Proof.
  intros [H1 H2 H3 H4]. apply Z.eqb_neq. unfold as_u64. rewrite (Z.mod_small fd) by lia.
  destruct (decide (al_connect_fd (rt_alive r) = -1)) as [->|]; [|rewrite Z.mod_small; lia].
  replace (-1 mod 2 ^ 64) with (2 ^ 64 - 1) by done. lia.
Qed.
(** A round in which the timer is read, whatever a tick leads to. *)
Lemma wp_tick_round on_buf on_tick on_signal s (Q : InitSt E → Result unit Halt → Prop) : timed fd (is_rt s) →
  (∀ e, il_kills e = kills_of s → wp on_tick {| is_os := e; is_rt := is_rt s |} (λ s' _, Q s' (Ok tt))) →
  wp (evs ←? wait; for_events (on_event on_buf on_tick on_signal) evs) s Q.
Proof.
  intros Ht HQ. apply wp_mtry. unfold wait. apply wp_bind, wp_rt_get, wp_bind, wp_rt_get, wp_bind, wp_sys.
  set (ep := rt_epoll_fd _). set (n := Z.max _ _). rewrite (to_wait _ Honly). apply wp_ret. cbn [for_events]. apply wp_mtry. unfold on_event.
  apply wp_mtry. unfold ep_event_err_proc. cbn [fst snd]. change (event_is_err EPOLLIN) with false. apply wp_ret. cbv iota.
  apply wp_bind, wp_rt_get. cbn [is_rt id]. rewrite (connect_not_timer _ Ht), (td_fd _ _ Ht), Z.eqb_refl. apply wp_mtry. unfold read.
  apply wp_bind, wp_sys. cbn [is_os is_rt]. rewrite (to_read _ Honly). apply wp_ret, wp_bind. eapply wp_mono.
  { apply HQ. by rewrite il_kills_read, il_kills_wait. }
  intros s' [] H. by apply wp_ret.
Qed.
(** The signal is due. *)
Definition due (r : RunTime) : Prop := rt_state r = InitState.Reexec ∧ rt_need_reexec r = true ∧ timed fd r.
Lemma tick_round c s : timed fd (is_rt s) → rt_need_reexec (is_rt s) = false → silent_ticks (is_rt s) = Some c → 0 ≤ c < i64_max →
  wp step s (λ s' r, r = Ok tt ∧ kills_of s' = kills_of s ∧ same_manager s s' ∧
    if al_time_out (rt_alive (is_rt s)) <=? c + 1 then due (is_rt s')
    else timed fd (is_rt s') ∧ rt_need_reexec (is_rt s') = false ∧ silent_ticks (is_rt s') = Some (c + 1)).
Proof.
  intros Ht Hn Hc Hr. unfold step. apply wp_bind, wp_rt_get. destruct Ht as [H1 H2 H3 H4] eqn:Heq. clear Heq.
  unfold silent_ticks in Hc. destruct (state_of s) eqn:Hst; [| |done]; simplify_eq.
  - unfold reexec. apply wp_bind, wp_rt_get. rewrite Hn. apply wp_tick_round; [done|]. intros e He. unfold reexec_tick, tick_manager.
    apply wp_bind, wp_rt_mod, wp_bind, wp_rt_get. cbn. rewrite i64_succ_small by done.
    destruct (al_time_out (rt_alive (is_rt s)) <=? _); cbn [mwhen]; [apply wp_rt_mod|apply wp_ret];
      (split; [done|split; [done|split; [done|]]]); repeat split; unfold silent_ticks; cbn; rewrite ?Hst; done || lia.
  - unfold run. apply wp_tick_round; [done|]. intros e He. unfold run_tick, tick_alive.
    apply wp_bind, wp_rt_mod, wp_bind, wp_rt_get. cbn. rewrite i64_succ_small by done.
    destruct (al_time_out (rt_alive (is_rt s)) <=? _); cbn [mwhen]; [apply wp_bind, wp_rt_mod, wp_rt_mod|apply wp_ret];
      (split; [done|split; [done|split; [done|]]]); repeat split; unfold silent_ticks; cbn; rewrite ?Hst; done || lia.
Qed.
(** Asking the manager to execute itself again. *)
Lemma wp_del_connect s : wp del_connect_epoll s (λ s' r, r = Ok tt ∧ kills_of s' = kills_of s
  ∧ ∃ n, is_rt s' = set_connect INVALID_FD (set_rt_n_sources n (is_rt s))).
Proof.
  unfold del_connect_epoll. apply wp_bind, wp_rt_get, wp_mtry. unfold unregister. set (c := al_connect_fd _).
  apply wp_bind, wp_rt_mod, wp_bind, wp_rt_get, wp_mtry, wp_sys_try. cbn [is_os is_rt]. rewrite (to_del _ Honly). apply wp_bind.
  assert (∀ ep, il_kills (io_epoll_del ep c (is_os s)).1 = kills_of s) as Hk by (intros ep; apply il_kills_del).
  unfold safe_close. destruct (c <? 0).
  - apply wp_ret, wp_ret, wp_bind, wp_rt_mod, wp_ret. split; [done|]. split; [by apply Hk|]. by eexists.
  - apply wp_bind, wp_sys, wp_ret, wp_ret, wp_bind, wp_rt_mod, wp_ret. cbn [is_os is_rt]. rewrite il_kills_close. split; [done|]. split; [by apply Hk|]. by eexists.
Qed.
Lemma wp_wait_connect s : al_connect_fd (rt_alive (is_rt s)) = INVALID_FD →
  wp wait_connect s (λ s' _, kills_of s' = kills_of s
    ∧ ∃ n c, is_rt s' = set_rt_n_sources n (set_connect c (is_rt s)) ∧ (c = INVALID_FD ∨ 0 ≤ c < 2 ^ 31 ∧ c ≠ fd)).
Proof.
  intros Hc. assert (∀ r, al_connect_fd (rt_alive r) = INVALID_FD → set_rt_n_sources (rt_n_sources r) (set_connect INVALID_FD r) = r) as Hid.
  { intros [] Hr. cbn in *. unfold set_connect, set_rt_n_sources, set_rt_alive, set_al_connect_fd. cbn. rewrite <- Hr. by destruct rt_alive0. }
  unfold wait_connect. apply wp_bind, wp_rt_get. rewrite Hc. cbn [Z.leb INVALID_FD Z.compare]. apply wp_mtry, wp_ret, wp_mtry.
  eapply wp_mono; [apply wp_wait_alive|]. intros s1 r [Hk Hr]. destruct r as [u|err].
  - destruct Hr as (c & l & e & Ha & Hrt). apply (to_accept _ Honly) in Ha. apply wp_bind, wp_rt_get. unfold register.
    apply wp_bind, wp_rt_mod, wp_bind, wp_rt_get, wp_sys_try. cbn [is_os is_rt]. rewrite il_kills_add, Hrt. split; [done|].
    eexists _, c. split; [done|]. by right.
  - rewrite Hk, Hr. split; [done|]. eexists _, INVALID_FD. split; [by rewrite Hid|]. by left.
Qed.
Definition asked s s' : Prop :=
  kills_of s' = kills_of s ++ [(rt_sysmaster_pid (is_rt s), sigrtmin + MANAGER_SIG_OFFSET)] ∧ state_of s' ≠ InitState.RunRecover.
Lemma wp_reexec_manager s : due (is_rt s) → wp reexec_manager s (λ s' r, asked s s' ∧ timed fd (is_rt s') ∧ r = Ok (state_of s')).
Proof.
  intros (Hst & Hn & Ht). destruct Ht as [T1 T2 T3 T4] eqn:He. clear He. unfold reexec_manager. apply wp_bind, wp_rt_mod, wp_bind, wp_rt_mod, wp_bind, wp_rt_get, wp_mtry.
  set (s0 := {| is_os := _; is_rt := _ |}).
  assert (wp (if 0 <=? al_connect_fd (rt_alive (is_rt s0)) then del_connect_epoll else mret (Ok tt)) s0 (λ s1 r, r = Ok tt ∧ kills_of s1 = kills_of s
    ∧ al_connect_fd (rt_alive (is_rt s1)) = INVALID_FD ∧ al_time_fd (rt_alive (is_rt s1)) = fd
    ∧ state_of s1 = InitState.Reexec ∧ rt_sysmaster_pid (is_rt s1) = rt_sysmaster_pid (is_rt s))) as Hdel.
  { case_match eqn:Hc.
    - eapply wp_mono; [apply wp_del_connect|]. intros s1 r (-> & -> & n & ->). done.
    - apply wp_ret. apply Z.leb_gt in Hc. cbn in Hc. split_and!; try done. cbn. unfold INVALID_FD. lia. }
  eapply wp_mono; [exact Hdel|]. clear Hdel. intros s1 r (-> & Hk & Hc & Hf & Hs1 & Hp). apply wp_bind, wp_rt_get, wp_bind, wp_sys.
  rewrite (to_kill _ Honly), Hp. set (s2 := {| is_os := _; is_rt := is_rt s1 |}).
  assert (kills_of s2 = kills_of s ++ [(rt_sysmaster_pid (is_rt s), sigrtmin + MANAGER_SIG_OFFSET)]) as Hk2 by (cbn; by rewrite il_kills_kill, Hk).
  apply wp_bind. eapply wp_mono; [by apply wp_wait_connect|]. cbn [is_rt s2]. intros s3 w (Hk3 & n & c & Hrt & Hor).
  assert (timed fd (is_rt s3) ∧ state_of s3 = InitState.Reexec) as [Ht3 Hs3].
  { rewrite Hrt. split; [|done]. split; cbn; [done|done|..]; destruct Hor as [->|]; unfold INVALID_FD; lia. }
  apply wp_bind. destruct (is_err w); cbn [mwhen].
  - apply wp_rt_mod, wp_bind, wp_rt_get, wp_ret. split_and!; [split; [by rewrite <- Hk2, <- Hk3|done]| |done]. by destruct Ht3; split.
  - apply wp_ret, wp_bind, wp_rt_get, wp_ret. split_and!; [split; [by rewrite Hk3|by rewrite Hs3]|done|done].
Qed.
Lemma signal_round s : due (is_rt s) → wp step s (λ s' r, r = Ok tt ∧ asked s s').
Proof.
  intros Hd. unfold step. apply wp_bind, wp_rt_get. pose proof Hd as (-> & Hn & _). unfold reexec. apply wp_bind, wp_rt_get. rewrite Hn.
  apply wp_mtry. eapply wp_mono; [by apply wp_reexec_manager|]. intros s1 r ([Hk Hs] & Ht & ->). case_decide; [|by apply wp_ret].
  apply wp_tick_round; [done|]. intros e He. unfold reexec_tick, tick_manager. apply wp_bind, wp_rt_mod, wp_bind, wp_rt_get.
  destruct (_ <=? _); cbn [mwhen]; [apply wp_rt_mod|apply wp_ret]; (split; [done|]); split; cbn; congruence.
Qed.
Lemma wp_main_step m s (Q : InitSt E → Outcome → Prop) :
  wp step s (λ s' r, r = Ok tt ∧ wp (main_loop m) s' Q) → wp (main_loop (S m)) s Q.
Proof. intros H. cbn [main_loop]. unfold or_freeze. apply wp_bind. eapply wp_mono; [exact H|]. by intros s' r [-> ?]. Qed.
(** The rounds until the signal is due, and whatever comes then. *)
Lemma silent_rounds n m c s (Q : InitSt E → Outcome → Prop) :
  timed fd (is_rt s) → rt_need_reexec (is_rt s) = false → silent_ticks (is_rt s) = Some c →
  0 ≤ c < i64_max → al_time_out (rt_alive (is_rt s)) ≤ i64_max →
  Z.of_nat (S n) = Z.max 1 (al_time_out (rt_alive (is_rt s)) - c) →
  (∀ s', due (is_rt s') → kills_of s' = kills_of s → rt_sysmaster_pid (is_rt s') = rt_sysmaster_pid (is_rt s) → wp (main_loop m) s' Q) →
  wp (main_loop (S n + m)) s Q.
Proof.
  revert c s. induction n as [|n IH]; intros c s Ht Hn Hc Hr Hout Hrounds HQ; cbn [Nat.add]; apply wp_main_step;
    (eapply wp_mono; [by apply (tick_round c)|]); intros s' r (-> & Hk & [Hp Ho] & Hnext); (split; [done|]).
  - rewrite (proj2 (Z.leb_le _ _)) in Hnext by lia. by apply HQ.
  - rewrite (proj2 (Z.leb_gt _ _)) in Hnext by lia. destruct Hnext as (Ht' & Hn' & Hc').
    apply (IH (c + 1)); [done..|lia|lia|rewrite Ho; lia|]. intros s2 Hd Hk2 Hp2. apply HQ; [done|congruence..].
Qed.
End silence.

(** C18: silence is answered.  While process 1 waits for a sign of life and only its timer
    ticks, each of its rounds ends; when the ticks since the last sign of life have come to
    the timeout, the next round sends the manager the signal to execute itself again, once
    and not before, and the manager is no longer taken to be alive. *)
Theorem silence_is_answered {E} `{HO : !InitOs E} `{HS : !SigRt} `{HF : !InitFuel E} `{HL : !InitLaws E} (fd c : Z) (s : InitSt E) :
  timer_only fd → timed fd (is_rt s) → rt_need_reexec (is_rt s) = false → silent_ticks (is_rt s) = Some c →
  0 ≤ c → c < i64_max → al_time_out (rt_alive (is_rt s)) ≤ i64_max →
  let rounds := Z.to_nat (Z.max 1 (al_time_out (rt_alive (is_rt s)) - c)) in
  wp (main_loop rounds) s (λ s' o, o = Running ∧ il_kills (is_os s') = il_kills (is_os s))
  ∧ wp (main_loop (S rounds)) s (λ s' o, o = Running ∧ rt_state (is_rt s') ≠ InitState.RunRecover
      ∧ il_kills (is_os s') = il_kills (is_os s) ++ [(rt_sysmaster_pid (is_rt s), sigrtmin + MANAGER_SIG_OFFSET)]).
Proof.
  intros Honly Ht Hn Hc H0 Hmax Hout rounds. destruct rounds as [|n] eqn:Hr; [lia|].
  assert (Z.of_nat (S n) = Z.max 1 (al_time_out (rt_alive (is_rt s)) - c)) as Hrounds by lia. split.
  - rewrite <- (Nat.add_0_r (S n)). apply (silent_rounds fd Honly n 0 c); [done..|]. intros s' _ Hk _. by apply wp_ret.
  - rewrite <- (Nat.add_1_r (S n)). apply (silent_rounds fd Honly n 1 c); [done..|]. intros s' Hd Hk Hp. apply wp_main_step.
    eapply wp_mono; [by apply (signal_round fd Honly)|]. intros s2 r (-> & Hk2 & Hs2). split; [done|]. apply wp_ret. by rewrite Hk2, Hk, Hp.
Qed.

(** ** A sample kernel: the descriptors are 3 (signals), 4 (timer) and 5 (the manager) *)
Record Kern := { ke_batches : list (list (Z * Z)); ke_msgs : list (list ascii); ke_signals : list Z; ke_zombies : list Z; ke_next : Z; ke_kills : list (Z * Z) }.
Definition pop_batch k := {| ke_batches := tail (ke_batches k); ke_msgs := ke_msgs k; ke_signals := ke_signals k; ke_zombies := ke_zombies k; ke_next := ke_next k; ke_kills := ke_kills k |}.
Definition pop_msg k := {| ke_batches := ke_batches k; ke_msgs := tail (ke_msgs k); ke_signals := ke_signals k; ke_zombies := ke_zombies k; ke_next := ke_next k; ke_kills := ke_kills k |}.
Definition pop_signal k := {| ke_batches := ke_batches k; ke_msgs := ke_msgs k; ke_signals := tail (ke_signals k); ke_zombies := ke_zombies k; ke_next := ke_next k; ke_kills := ke_kills k |}.
Definition pop_zombie k := {| ke_batches := ke_batches k; ke_msgs := ke_msgs k; ke_signals := ke_signals k; ke_zombies := tail (ke_zombies k); ke_next := ke_next k; ke_kills := ke_kills k |}.
Definition next_pid k := {| ke_batches := ke_batches k; ke_msgs := ke_msgs k; ke_signals := ke_signals k; ke_zombies := ke_zombies k; ke_next := ke_next k + 1; ke_kills := ke_kills k |}.
Definition add_kill x k := {| ke_batches := ke_batches k; ke_msgs := ke_msgs k; ke_signals := ke_signals k; ke_zombies := ke_zombies k; ke_next := ke_next k; ke_kills := ke_kills k ++ [x] |}.
(** With [always] only that descriptor is ready, and always. *)
Definition kern_os (always : option Z) : InitOs Kern := {|
  io_exists _ _ := true;
  io_epoll_create k := (k, Ok 2);
  io_timer_create k := (k, Ok 4);
  io_timer_set _ _ k := (k, Ok tt);
  io_epoll_add _ _ k := (k, Ok tt);
  io_epoll_del _ _ k := (k, Ok tt);
  io_epoll_wait _ _ k := match always with
                         | Some fd => (k, Ok [(EPOLLIN, as_u64 fd)])
                         | None => (pop_batch k, Ok (default [] (head (ke_batches k)))) end;
  io_close _ k := (k, Ok tt);
  io_recv _ k := (pop_msg k, match ke_msgs k with m :: _ => Ok m | [] => Err EAGAIN end);
  io_read _ k := (k, Ok tt);
  io_socket k := (k, Ok 6);
  io_create_dir_all _ k := (k, Ok tt);
  io_unlink _ k := (k, Ok tt);
  io_bind _ _ k := (k, Ok tt);
  io_listen _ _ k := (k, Ok tt);
  io_recv_timeout _ _ k := (k, Ok tt);
  io_accept _ k := (k, Ok 5);
  io_block_signals _ k := k;
  io_signalfd _ k := (k, 3);
  io_read_siginfo _ k := (pop_signal k, match ke_signals k with s :: _ => (128, s) | [] => (-1, 0) end);
  io_kill p s k := (add_kill (p, s) k, Ok tt);
  io_fork k := (next_pid k, Ok (Some (ke_next k)));
  io_exec _ _ _ := None;
  io_waitid k := (k, match ke_zombies k with p :: _ => Ok (Exited p 0) | [] => Ok StillAlive end);
  io_reap _ k := (pop_zombie k, Ok tt) |}.
#[local] Instance kern_rt : SigRt := 34.
#[local] Instance kern_fuel : InitFuel Kern := λ k, (length (ke_zombies k) + 4)%nat.
Definition kern_laws (always : option Z) : @InitLaws Kern (kern_os always) kern_fuel.
Proof.
  refine {| il_kills := ke_kills; il_pending k := length (ke_zombies k) |}; intros; cbn in *; try done.
  - by destruct (ke_msgs e).
  - destruct H as (x & H). destruct (ke_zombies e); [by destruct H|]. cbn. lia.
  - by destruct always.
Defined.
Definition kern_alive (connect manager_count alive_count : Z) : Alive := {|
  al_alive_fd := 6; al_connect_fd := connect; al_time_fd := 4; al_timer := 4;
  al_manager_time_count := manager_count; al_alive_time_count := alive_count; al_time_out := TIME_OUT; al_time_wait := TIME_WAIT |}.
Definition kern_runtime (st : InitState) (a : Alive) : RunTime := {|
  rt_cmd := get_command ["/sbin/init"; SYSMASTER_PATH]; rt_sysmaster_pid := 100; rt_state := st; rt_epoll_fd := 2; rt_n_sources := 3;
  rt_alive := a; rt_signal_fd := 3; rt_need_reexec := false |}.
Definition kern (batches : list (list (Z * Z))) (msgs : list string) (signals zombies : list Z) : Kern := {|
  ke_batches := batches; ke_msgs := chars <$> msgs; ke_signals := signals; ke_zombies := zombies; ke_next := 101; ke_kills := [] |}.
Definition seen (rounds : nat) (s : InitSt Kern) : option (InitState * Z * Outcome * list (Z * Z)) :=
  match @main_loop Kern (kern_os None) kern_rt kern_fuel rounds s with
  | Returned (s', o) => Some (rt_state (is_rt s'), rt_sysmaster_pid (is_rt s'), o, ke_kills (is_os s'))
  | _ => None
  end.
Definition running st k : InitSt Kern := {| is_os := k; is_rt := kern_runtime st (kern_alive 5 0 0) |}.

(** Five ticks are the timeout: the signal (34 + 7) is sent in the sixth round. *)
Lemma silence_is_answered_witness :
  let s := running InitState.RunRecover (kern [] [] [] []) in
  wp (@main_loop Kern (kern_os (Some 4)) kern_rt kern_fuel 5) s (λ s' o, o = Running ∧ ke_kills (is_os s') = [])
  ∧ wp (@main_loop Kern (kern_os (Some 4)) kern_rt kern_fuel 6) s (λ s' o, o = Running ∧ rt_state (is_rt s') ≠ InitState.RunRecover
      ∧ ke_kills (is_os s') = [(100, 41)]).
Proof.
  apply (@silence_is_answered Kern (kern_os (Some 4)) kern_rt kern_fuel (kern_laws (Some 4)) 4 0 (running InitState.RunRecover (kern [] [] [] [])));
    [|by split|done|done|done|done|done].
  split; [done..|]. intros l k c [= <-]. done.
Defined.
(** A manager that says so is watched again. *)
Example manageable_is_watched :
  seen 1 (running InitState.Reexec (kern [[(EPOLLIN, 5)]] ["MANAGEABLE"%string] [] [])) = Some (InitState.RunRecover, 100, Running, []).
Proof. by vm_compute. Qed.
(** Two messages that arrive together are neither. *)
Example messages_run_together :
  seen 1 (running InitState.Reexec (kern [[(EPOLLIN, 5)]] ["MANAGEABLEALIVE"%string] [] [])) = Some (InitState.Reexec, 100, Running, [])
  ∧ seen 1 (running InitState.RunRecover (kern [[(EPOLLIN, 5)]] ["UNMANAGEABLEUNMANAGEABLE"%string] [] [])) = Some (InitState.RunRecover, 100, Running, []).
Proof. by vm_compute. Qed.
(** The manager crashed (its connection hangs up), its process was reaped: the restart
    kills whatever process has its number now. *)
Example restart_kills_reaped :
  seen 3 (running InitState.RunRecover (kern [[(EPOLLHUP, 5)]; [(EPOLLIN, 3)]; [(EPOLLIN, 3)]] [] [SIGCHLD; 34 + 9] [100]))
    = Some (InitState.RunUnRecover, 101, Running, [(100, SIGKILL)]).
Proof. by vm_compute. Qed.
(** A message that is no text ends process 1's work. *)
Example no_text_freezes :
  seen 1 (running InitState.RunRecover (kern [[(EPOLLIN, 5)]] [String "255"%char ""] [] [])) = Some (InitState.RunRecover, 100, Frozen, []).
Proof. by vm_compute. Qed.
(** Called by the path it is installed at, it takes itself for the manager. *)
Example own_path_is_manager : pm_manager_args (get_command ["/usr/lib/sysmaster/init"]) = ["/usr/lib/sysmaster/init"]%string.
Proof. by vm_compute. Qed.
