(* ===== verification/Install.v ===== *)
(** * Enabling, disabling and presetting units

    [core/bin/manager/pre_install.rs]: the units that are asked for, and those their
    files name in [Also], are discovered in the search path; enabling one creates the
    symbolic links its files ask for below the persistent path, disabling one removes
    every link of its name.  [Rc<UnitInstall>] is shared between the tables of a
    context and the search, so units are places of a heap.  The file system, the walk
    of a directory (the walkdir crate), the reading of the files (confique) and the
    globs are parameters. *)
From Stdlib Require Import Ascii.
From S2P Require Import Prelude UnitTypes Condition StdString StdNet UnitFile UmStore.
Local Open Scope Z_scope.

Module PresetMode.
Inductive t := Enable | Disable.
#[global] Instance t_eq_dec : EqDecision t.
Proof. solve_decision. Defined.
End PresetMode.
Abbreviation PresetMode := PresetMode.t.

(** ** Preset rules *)
Module PresetAction.
Inductive t := Enable | Disable | Unknown.
#[global] Instance t_eq_dec : EqDecision t.
Proof. solve_decision. Defined.
Definition from_str (s : string) : t :=
  if decide (s = "enable"%string) then Enable else if decide (s = "disable"%string) then Disable else Unknown.
End PresetAction.
Abbreviation PresetAction := PresetAction.t.
Record PresetRule := { pr_action : PresetAction; pr_unit : string }.
Record Presets := { rules : list PresetRule }.
Definition Presets_new : Presets := {| rules := [] |}.
Definition add_rule (rule : PresetRule) (p : Presets) : Presets := {| rules := rules p ++ [rule] |}.
Fixpoint first_rule `{!Patterns} (l : list PresetRule) (unit : string) : PresetAction :=
  match l with
  | [] => PresetAction.Disable
  | rule :: l' => if decide (glob_match (pr_unit rule) unit = Some true) then pr_action rule else first_rule l' unit
  end.
Definition unit_preset_action `{!Patterns} (p : Presets) (unit : string) : PresetAction := first_rule (rules p) unit.

(** ** [UnitInstall] *)
Module UnitFileType.
Inductive t := Regular | Symlink | Masked | Invalid.
#[global] Instance t_eq_dec : EqDecision t.
Proof. solve_decision. Defined.
End UnitFileType.
Abbreviation UnitFileType := UnitFileType.t.
Record UnitInstall := {
  ui_name : string;
  ui_path : string;
  ui_aliases : list string;
  ui_wanted_by : list string;
  ui_required_by : list string;
  ui_also : list string;
  ui_type : UnitFileType;
}.
Definition UnitInstall_new (unit : string) : UnitInstall := {|
  ui_name := unit; ui_path := ""; ui_aliases := []; ui_wanted_by := []; ui_required_by := []; ui_also := [];
  ui_type := UnitFileType.Invalid |}.
Definition set_u_type (t : UnitFileType) (u : UnitInstall) : UnitInstall := {|
  ui_name := ui_name u; ui_path := ui_path u; ui_aliases := ui_aliases u; ui_wanted_by := ui_wanted_by u;
  ui_required_by := ui_required_by u; ui_also := ui_also u; ui_type := t |}.
Definition set_path (path : string) (u : UnitInstall) : UnitInstall := {|
  ui_name := ui_name u; ui_path := path; ui_aliases := ui_aliases u; ui_wanted_by := ui_wanted_by u;
  ui_required_by := ui_required_by u; ui_also := ui_also u; ui_type := ui_type u |}.
Definition fill_struct (c : UeConfigInstall) (u : UnitInstall) : UnitInstall := {|
  ui_name := ui_name u; ui_path := ui_path u; ui_aliases := ui_aliases u ++ Alias c;
  ui_wanted_by := ui_wanted_by u ++ WantedBy c; ui_required_by := ui_required_by u ++ RequiredBy c;
  ui_also := ui_also u ++ Also c; ui_type := ui_type u |}.

(** ** [InstallContext] *)

(** A place of a unit ([Rc<UnitInstall>]). *)
Definition IRef := nat.
Record InstallContext := { processed : gmap string IRef; will_process : gmap string IRef }.
Definition InstallContext_new : InstallContext := {| processed := ∅; will_process := ∅ |}.
Definition set_will_process v (c : InstallContext) : InstallContext := {| processed := processed c; will_process := v |}.
Definition set_processed v (c : InstallContext) : InstallContext := {| processed := v; will_process := will_process c |}.
Definition unit_install (name : string) (c : InstallContext) : option IRef :=
  match processed c !! name with Some r => Some r | None => will_process c !! name end.
Definition ctx_installed_unit (unit : string) (c : InstallContext) : bool :=
  bool_decide (is_Some (processed c !! unit)) || bool_decide (is_Some (will_process c !! unit)).
Definition add_unit_install (unit : string) (r : IRef) (c : InstallContext) : InstallContext :=
  set_will_process (<[unit:=r]> (will_process c)) c.

(** ** The system *)
Inductive InstallError := IoError | ConfiqueError.
(** What [Path::metadata] tells; it follows symbolic links. *)
Record Metadata := { md_is_file : bool; md_is_symlink : bool; md_len : Z }.
(** An entry of a walk: its path, its name, and the type of the entry itself. *)
Record WalkEntry := { we_path : string; we_name : string; we_is_file : bool; we_is_symlink : bool }.
(** [None] and [false] are errors; [in_read_dir] are the paths of the entries, [in_walk]
    the entries of [WalkDir::new(dir).min_depth(1)] with [filter_entry], [in_lines] the
    lines of a file, and the error of [in_create_dir_all] tells [AlreadyExists]. *)
Class InstallFs (E : Type) : Type := {
  in_is_dir : string → E → bool;
  in_is_file : string → E → bool;
  in_is_symlink : string → E → bool;
  in_exists : string → E → bool;
  in_read_dir : string → E → option (list (option string));
  in_metadata : string → E → option Metadata;
  in_canonicalize : string → E → option string;
  in_copy : string → string → E → E * bool;
  in_load : list string → E → option UeConfigInstall;
  in_create_dir_all : string → E → E * option bool;
  in_symlink : string → string → E → E * bool;
  in_walk : (WalkEntry → bool) → string → E → list (option WalkEntry);
  in_read_link : string → E → option string;
  in_unlink : string → E → E * bool;
  in_lines : string → E → option (list (option string));
}.
(** [Install] with its two contexts, the units, and the system. *)
Record InstallSt (E : Type) := {
  in_mode : PresetMode;
  in_enable_ctx : InstallContext;
  in_disable_ctx : InstallContext;
  in_lookup_path : LookupPaths;
  in_heap : gmap IRef UnitInstall;
  in_sys : E;
}.
Arguments in_mode {E}. Arguments in_enable_ctx {E}. Arguments in_disable_ctx {E}.
Arguments in_lookup_path {E}. Arguments in_heap {E}. Arguments in_sys {E}. Arguments Build_InstallSt {E}.
Definition Install_new {E} (p_mode : PresetMode) (lookup_path : LookupPaths) (e : E) : InstallSt E := {|
  in_mode := p_mode; in_enable_ctx := InstallContext_new; in_disable_ctx := InstallContext_new;
  in_lookup_path := lookup_path; in_heap := ∅; in_sys := e |}.
Definition set_in_heap {E} v (s : InstallSt E) : InstallSt E := {|
  in_mode := in_mode s; in_enable_ctx := in_enable_ctx s; in_disable_ctx := in_disable_ctx s;
  in_lookup_path := in_lookup_path s; in_heap := v; in_sys := in_sys s |}.
Definition set_in_sys {E} v (s : InstallSt E) : InstallSt E := {|
  in_mode := in_mode s; in_enable_ctx := in_enable_ctx s; in_disable_ctx := in_disable_ctx s;
  in_lookup_path := in_lookup_path s; in_heap := in_heap s; in_sys := v |}.
(** Which of the two contexts is passed around ([Rc<InstallContext>]). *)
Inductive Ctx := EnableCtx | DisableCtx.
Definition ctx_of {E} (c : Ctx) (s : InstallSt E) : InstallContext :=
  match c with EnableCtx => in_enable_ctx s | DisableCtx => in_disable_ctx s end.
Definition set_ctx {E} (c : Ctx) v (s : InstallSt E) : InstallSt E := {|
  in_mode := in_mode s;
  in_enable_ctx := match c with EnableCtx => v | DisableCtx => in_enable_ctx s end;
  in_disable_ctx := match c with EnableCtx => in_disable_ctx s | DisableCtx => v end;
  in_lookup_path := in_lookup_path s; in_heap := in_heap s; in_sys := in_sys s |}.

Section install.
Context `{HI : !HashIter} `{HP : !Patterns} `{HS : !SliceSort} {E : Type} `{HF : !InstallFs E}.
Abbreviation N := (M (InstallSt E)).
Abbreviation RN A := (M (InstallSt E) (Result A InstallError)).
Implicit Types (r : IRef).

Definition in_ask {A} (f : E → A) : N A := mgets (λ s, f (in_sys s)).
Definition in_call {A} (f : E → E * A) : N A :=
  s ← mget; let x := f (in_sys s) in mmodify (set_in_sys x.1);; mret x.2.
Definition ctx_get (c : Ctx) : N InstallContext := mgets (ctx_of c).
Definition ctx_modify (c : Ctx) (f : InstallContext → InstallContext) : N unit := mmodify (λ s, set_ctx c (f (ctx_of c s)) s).
Definition ui_get (r : IRef) : N UnitInstall := s ← mget; munwrap (in_heap s !! r).
Definition ui_modify (r : IRef) (f : UnitInstall → UnitInstall) : N unit := mmodify (λ s, set_in_heap (alter f r (in_heap s)) s).
Definition ui_new (unit : string) : N IRef :=
  s ← mget;
  let r := fresh (dom (in_heap s)) in
  mmodify (set_in_heap (<[r:=UnitInstall_new unit]> (in_heap s)));; mret r.

(** ** Creating links *)

(** One link, counted if it could be made. *)
Definition make_link (source target : string) (n : Z) : N Z :=
  ok ← in_call (in_symlink source target);
  mret (if (ok : bool) then n + 1 else n).
Definition install_symlinks_alias (r : IRef) (target_path : string) (symlinks : list string) : RN Z :=
  if decide (symlinks = []) then mret (Ok 0) else
  u ← ui_get r;
  n ← mfold (λ n symlink, make_link (ui_path u) (target_path ++ "/" ++ symlink) n) 0 symlinks;
  mret (Ok n).
Definition wants_path (target_path symlink suffix name : string) : string :=
  (target_path ++ "/" ++ symlink ++ "." ++ suffix ++ "/" ++ name)%string.
Fixpoint wants_links (u : UnitInstall) (target_path suffix : string) (n : Z) (symlinks : list string) : RN Z :=
  match symlinks with
  | [] => mret (Ok n)
  | symlink :: symlinks' =>
    let target := wants_path target_path symlink suffix (ui_name u) in
    parent_path ← munwrap (path_parent target);
    e ← in_call (in_create_dir_all parent_path);
    match e with
    | Some false => mret (Err IoError)
    | Some true | None =>
      n ← make_link (ui_path u) target n;
      wants_links u target_path suffix n symlinks'
    end
  end.
Definition install_symlinks_wants (r : IRef) (target_path suffix : string) (symlinks : list string) : RN Z :=
  if decide (symlinks = []) then mret (Ok 0) else
  u ← ui_get r; wants_links u target_path suffix 0 symlinks.
(** [InstallContext::install_symlinks]: an error is logged. *)
Definition ctx_install_symlinks (r : IRef) (target_path : string) : N unit :=
  u ← ui_get r;
  install_symlinks_alias r target_path (ui_aliases u);;
  install_symlinks_wants r target_path "wants" (ui_wanted_by u);;
  install_symlinks_wants r target_path "requires" (ui_required_by u);;
  mret tt.
Definition finish_unit (c : Ctx) (key : string) (r : IRef) : N unit :=
  ctx_modify c (λ x, set_processed (<[key:=r]> (processed x)) x);;
  ctx_modify c (λ x, set_will_process (delete key (will_process x)) x).
Definition apply_enable_key (c : Ctx) (target_path : string) (key : string) : N unit :=
  x ← ctx_get c;
  match will_process x !! key with
  | None => mret tt
  | Some r =>
    u ← ui_get r;
    if negb (bool_decide (ui_type u = UnitFileType.Regular)) then mret tt else
    ctx_install_symlinks r target_path;;
    finish_unit c key r
  end.
Definition apply_enable_unit_install (c : Ctx) (target_path : string) : N unit :=
  x ← ctx_get c;
  if decide (will_process x = ∅) then mret tt else
  mforeach (apply_enable_key c target_path) (hm_keys (will_process x)).
Definition collect_disable_key (c : Ctx) (removal_symlinks : gset string) (key : string) : N (gset string) :=
  x ← ctx_get c;
  match will_process x !! key with
  | None => mret removal_symlinks
  | Some r =>
    u ← ui_get r;
    finish_unit c key r;;
    mret ({[ui_name u]} ∪ removal_symlinks)
  end.
Definition collect_disable_install (c : Ctx) (removal_symlinks : gset string) : N (gset string) :=
  x ← ctx_get c;
  mfold (collect_disable_key c) removal_symlinks (hm_keys (will_process x)).

(** ** Discovering units *)
Definition prepare_unit_install (unit : string) (c : Ctx) : N IRef :=
  x ← ctx_get c;
  match unit_install unit x with
  | Some r => mret r
  | None =>
    r ← ui_new unit;
    ctx_modify c (add_unit_install unit r);;
    mret r
  end.
Definition type_of_metadata (m : Metadata) (old : UnitFileType) : UnitFileType :=
  if md_is_file m && (md_len m =? 0) then UnitFileType.Masked
  else if md_is_file m then UnitFileType.Regular
  else if md_is_symlink m then UnitFileType.Symlink
  else old.
(** The entries of a drop-in directory that are read. *)
Fixpoint dropin_entries (acc : list string) (entries : list (option string)) : RN (list string) :=
  match entries with
  | [] => mret (Ok acc)
  | None :: _ => mret (Err IoError)
  | Some fragment :: entries' =>
    b ← in_ask (in_is_file fragment);
    if negb b then dropin_entries acc entries' else
    f ← munwrap (file_name fragment);
    massert (utf8 (chars f));;
    if str_starts_with "." f || negb (ends_with ".toml" f) then dropin_entries acc entries'
    else dropin_entries (acc ++ [fragment]) entries'
  end.
Fixpoint dropin_files (dropin_dir_name : string) (acc : list string) (search : list string) : RN (list string) :=
  match search with
  | [] => mret (Ok acc)
  | v :: search' =>
    let dropin_dir := path_join v dropin_dir_name in
    b ← in_ask (in_exists dropin_dir);
    if negb b then dropin_files dropin_dir_name acc search' else
    dirs ← in_ask (in_read_dir dropin_dir);
    match dirs with
    | None => mret (Err IoError)
    | Some dirs => mtry (dropin_entries acc dirs) (λ acc, dropin_files dropin_dir_name acc search')
    end
  end.
Fixpoint discover_also (discover : string → RN unit) (also : list string) : RN unit :=
  match also with
  | [] => mret (Ok tt)
  | a :: also' => mtry (discover a) (λ _, discover_also discover also')
  end.
(** The file as it is read: copied beside itself, then with its drop-ins. *)
Definition read_config (r : IRef) (path : string) : RN UeConfigInstall :=
  canon_path ← in_ask (in_canonicalize path);
  match canon_path with
  | None => mret (Err IoError)
  | Some canon_path =>
    let tmp := (canon_path ++ ".toml")%string in
    ok ← in_call (in_copy canon_path tmp);
    if negb (ok : bool) then mret (Err IoError) else
    u ← ui_get r;
    s ← mget;
    mtry (dropin_files (ui_name u ++ ".d")%string [] (search_path (in_lookup_path s))) (λ files,
    c ← in_ask (in_load (tmp :: files));
    match c with None => mret (Err ConfiqueError) | Some c => mret (Ok c) end)
  end.
Definition unit_file_load (discover : string → RN unit) (path : string) (r : IRef) : RN unit :=
  meta ← in_ask (in_metadata path);
  match meta with
  | None => mret (Err IoError)
  | Some m =>
    ui_modify r (λ u, set_u_type (type_of_metadata m (ui_type u)) u);;
    mtry (read_config r path) (λ configer,
    ui_modify r (fill_struct configer);;
    discover_also discover (Also configer))
  end.
(** One directory: a file that cannot be loaded is passed over. *)
Definition search_one (discover : string → RN unit) (r : IRef) (v : string) : N unit :=
  u ← ui_get r;
  let unit := path_join v (ui_name u) in
  b ← in_ask (in_exists unit);
  if negb b then mret tt else
  massert (utf8 (chars unit));;
  x ← unit_file_load discover unit r;
  match x with
  | Err _ => mret tt
  | Ok _ => ui_modify r (set_path unit)
  end.
Definition unit_file_search (discover : string → RN unit) (r : IRef) : RN unit :=
  u ← ui_get r;
  if negb (bool_decide (ui_type u = UnitFileType.Invalid)) then mret (Ok tt) else
  mtry (if decide (ui_path u = ""%string) then mret (Ok tt) else unit_file_load discover (ui_path u) r) (λ _,
  s ← mget;
  mforeach (search_one discover r) (search_path (in_lookup_path s));;
  mret (Ok tt)).
(** Discovering follows [Also]; each step takes one unit of the fuel. *)
Fixpoint unit_install_discover (fuel : nat) (c : Ctx) (name : string) : RN unit :=
  match fuel with
  | O => mnofuel
  | S fuel' =>
    r ← prepare_unit_install name c;
    unit_file_search (unit_install_discover fuel' c) r
  end.

(** ** Removing links *)
Definition remove_symlink (removal_symlinks : gset string) (entry : option WalkEntry) : N unit :=
  match entry with
  | None => mret tt
  | Some w =>
    if negb (we_is_symlink w) then mret tt else
    link_path ← in_ask (in_read_link (we_path w));
    match link_path ≫= file_name with
    | None => mret tt
    | Some link_name =>
      massert (utf8 (chars link_name));;
      hit ← (if decide (link_name ∈ removal_symlinks) then mret true
             else massert (utf8 (chars (we_name w)));; mret (bool_decide (we_name w ∈ removal_symlinks)));
      mwhen hit (in_call (in_unlink (we_path w));; mret tt)
    end
  end.
Definition remove_symlinks (removal_symlinks : gset string) (target_path : string) : N unit :=
  l ← in_ask (in_walk (λ _, true) target_path);
  mforeach (remove_symlink removal_symlinks) l.

(** ** [Install] *)
Definition install_symlinks (target_path : string) : N unit := apply_enable_unit_install EnableCtx target_path.
Definition disable_symlinks (target_path : string) : N unit :=
  removal_symlinks ← collect_disable_install DisableCtx ∅;
  remove_symlinks removal_symlinks target_path.
Definition unit_enable_files (fuel : nat) (file : string) : RN unit :=
  s ← mget;
  mtry (unit_install_discover fuel EnableCtx file) (λ _,
  install_symlinks (persistent_path (in_lookup_path s));;
  mret (Ok tt)).
Definition unit_disable_files (fuel : nat) (file : string) : RN unit :=
  s ← mget;
  mtry (unit_install_discover fuel DisableCtx file) (λ _,
  disable_symlinks (persistent_path (in_lookup_path s));;
  mret (Ok tt)).

Definition installed_unit (unit : string) : N bool :=
  s ← mget; mret (ctx_installed_unit unit (in_enable_ctx s) || ctx_installed_unit unit (in_disable_ctx s)).
Definition preset_one_file (fuel : nat) (name : string) (presets : Presets) : RN unit :=
  b ← installed_unit name;
  if (b : bool) then mret (Ok tt) else
  match unit_preset_action presets name with
  | PresetAction.Enable | PresetAction.Unknown => unit_install_discover fuel EnableCtx name
  | PresetAction.Disable => unit_install_discover fuel DisableCtx name
  end.
Definition execute_preset (target_path : string) : N unit :=
  s ← mget;
  mwhen (negb (bool_decide (in_mode s = PresetMode.Enable))) (disable_symlinks target_path);;
  mwhen (negb (bool_decide (in_mode s = PresetMode.Disable))) (install_symlinks target_path).

(** *** The preset files *)
Inductive Component := RootDir | CurDir | ParentDir | Normal (s : string).
Definition components (path : string) : list Component :=
  (if String.prefix "/" path then [RootDir]
   else if decide (head (split_char "/"%char path) = Some "."%string) then [CurDir] else [])
  ++ ((λ c, if decide (c = ".."%string) then ParentDir else Normal c) <$> path_components path).
Definition component_rank (c : Component) : nat :=
  match c with RootDir => 1 | CurDir => 2 | ParentDir => 3 | Normal _ => 4 end.
Definition component_compare (a b : Component) : comparison :=
  match a, b with
  | Normal x, Normal y => String.compare x y
  | _, _ => Nat.compare (component_rank a) (component_rank b)
  end.
Fixpoint components_compare (a b : list Component) : comparison :=
  match a, b with
  | [], [] => Eq
  | [], _ :: _ => Lt
  | _ :: _, [] => Gt
  | x :: a', y :: b' => match component_compare x y with Eq => components_compare a' b' | c => c end
  end.
(** The order of paths. *)
Definition path_compare (a b : string) : comparison := components_compare (components a) (components b).
Definition valid_preset_file (w : WalkEntry) : bool :=
  we_is_file w && utf8 (chars (we_name w)) && ends_with ".preset" (we_name w).
Definition add_preset_entry (dir : string) (files : gmap string string) (entry : option WalkEntry) : gmap string string :=
  match entry with
  | None => files
  | Some w => match files !! we_name w with Some _ => files | None => <[we_name w:=path_join dir (we_name w)]> files end
  end.
Definition add_preset_file (files : gmap string string) (dir : string) : N (gmap string string) :=
  l ← in_ask (in_walk valid_preset_file dir);
  mret (foldl (add_preset_entry dir) files l).
Definition preset_config_files : N (list string) :=
  s ← mget;
  files_hash ← mfold add_preset_file ∅ (preset_path (in_lookup_path s));
  mret (sort_by path_compare (hm_values files_hash)).
Definition split_whitespace (s : string) : list string :=
  filter (λ w, w ≠ ""%string) (of_chars <$> split_on is_space [] (chars s)).
Definition preset_line (presets : Presets) (line : string) : Presets :=
  if str_starts_with "#" (trim line) then presets else
  match split_whitespace line with
  | [action; unit] => add_rule {| pr_action := PresetAction.from_str action; pr_unit := unit |} presets
  | _ => presets
  end.
Definition read_preset_file (presets : Presets) (file : string) : N Presets :=
  l ← in_ask (in_lines file);
  mret (match l with None => presets | Some l => foldl preset_line presets (omap id l) end).
Definition read_presets : N Presets :=
  preset_files ← preset_config_files;
  mfold read_preset_file Presets_new preset_files.

(** *** All unit files *)
Definition preset_entry (fuel : nat) (presets : Presets) (entry : option string) : RN unit :=
  match entry with
  | None => mret (Ok tt)
  | Some u_path =>
    f ← in_ask (in_is_file u_path);
    l ← in_ask (in_is_symlink u_path);
    if negb f && negb l then mret (Ok tt) else
    name ← munwrap (file_name u_path);
    massert (utf8 (chars name));;
    if decide (unit_name_to_type name = UnitTypeInvalid) then mret (Ok tt) else
    preset_one_file fuel name presets
  end.
Fixpoint preset_entries (fuel : nat) (presets : Presets) (entries : list (option string)) : RN unit :=
  match entries with
  | [] => mret (Ok tt)
  | entry :: entries' => mtry (preset_entry fuel presets entry) (λ _, preset_entries fuel presets entries')
  end.
Fixpoint preset_dirs (fuel : nat) (presets : Presets) (search : list string) : RN unit :=
  match search with
  | [] => mret (Ok tt)
  | v :: search' =>
    b ← in_ask (in_is_dir v);
    if negb b then preset_dirs fuel presets search' else
    dir ← in_ask (in_read_dir v);
    match dir with
    | None => mret (Err IoError)
    | Some entries => mtry (preset_entries fuel presets entries) (λ _, preset_dirs fuel presets search')
    end
  end.
Definition preset_all (fuel : nat) : RN unit :=
  s ← mget;
  presets ← read_presets;
  mtry (preset_dirs fuel presets (search_path (in_lookup_path s))) (λ _,
  execute_preset (persistent_path (in_lookup_path s));;
  mret (Ok tt)).

(** ** The unit manager ([enable_unit], [disable_unit]) and the manager ([preset_all]) *)
Definition with_install {A} (p_mode : PresetMode) (lookup_path : LookupPaths) (m : N A) : M E A := λ e,
  match m (Install_new p_mode lookup_path e) with
  | Returned (s, a) => Returned (in_sys s, a)
  | Panicked => Panicked
  | OutOfFuel => OutOfFuel
  end.
Definition enable_unit (fuel : nat) (l : LookupPaths) (unit_file : string) : M E (Result unit InstallError) :=
  with_install PresetMode.Disable l (unit_enable_files fuel unit_file).
Definition disable_unit (fuel : nat) (l : LookupPaths) (unit_file : string) : M E (Result unit InstallError) :=
  with_install PresetMode.Disable l (unit_disable_files fuel unit_file).
Definition preset_units (fuel : nat) (l : LookupPaths) : M E unit :=
  r ← with_install PresetMode.Enable l (preset_all fuel);
  massert (negb (is_err r)).
End install.
