(* ===== verification/InstallFacts.v ===== *)
(** * Enabling and disabling units: what is shown

    Over a file system whose persistent path can be written ([InstallLaws]): discovery
    ends and finds the unit; enabling creates exactly the links its files ask for;
    disabling removes exactly the links of the units it finds, so that it undoes an
    enabling. *)
From Stdlib Require Import Ascii.
From S2P Require Import Prelude UnitTypes Condition StdString StdNet UnitFile UmStore Install.
Local Open Scope Z_scope.

(** ** Paths *)

(** A name: one component of a path, in UTF-8. *)
Definition plain (c : string) : Prop := c ≠ ""%string ∧ c ≠ "."%string ∧ c ≠ ".."%string ∧ "/"%char ∉ chars c ∧ utf8 (chars c) = true.
#[global] Instance plain_dec c : Decision (plain c).
Proof. unfold plain. apply _. Defined.
Fixpoint abs (cs : list string) : string :=
  match cs with [] => ""%string | c :: cs' => ("/" ++ c ++ abs cs')%string end.
Definition clean (p : string) : Prop := ∃ cs, Forall plain cs ∧ p = abs cs.
Definition below (d p : string) : Prop := ∃ cs, cs ≠ [] ∧ Forall plain cs ∧ p = (d ++ abs cs)%string.

Lemma string_app_assoc (a b c : string) : (a ++ b ++ c = (a ++ b) ++ c)%string.
Proof. induction a as [|x a IH]; [done|]. change (String x (a ++ (b ++ c)) = String x ((a ++ b) ++ c))%string. by f_equal. Qed.
Lemma string_app_nil (a : string) : (a ++ "" = a)%string.
Proof. induction a as [|x a IH]; [done|]. change (String x (a ++ "") = String x a)%string. by f_equal. Qed.
Lemma abs_app a b : abs (a ++ b) = (abs a ++ abs b)%string.
Proof. induction a as [|c a IH]; [done|]. cbn [app abs]. by rewrite IH, !string_app_assoc. Qed.
Lemma below_clean d p : clean d → below d p → clean p.
Proof. intros (a & Ha & ->) (b & _ & Hb & ->). exists (a ++ b). by rewrite abs_app, Forall_app. Qed.
Lemma split_on_app p (c : ascii) a b cur : p c = true → split_on p cur (a ++ c :: b) = split_on p cur a ++ split_on p [] b.
Proof. intros Hc. revert cur. induction a as [|x a IH]; intros cur; cbn; [by rewrite Hc|]. destruct (p x); cbn; by rewrite IH. Qed.
Lemma split_slash_plain c : "/"%char ∉ chars c → split_on (Ascii.eqb "/"%char) [] (chars c) = [chars c].
Proof. intros Hc. rewrite split_on_last; [done|]. intros x Hx. apply Ascii.eqb_neq. by intros <-. Qed.
Lemma components_join a c : plain c → path_components (a ++ "/" ++ c)%string = path_components a ++ [c].
Proof.
  intros (Hc0 & Hc1 & _ & Hc & _). unfold path_components, split_char. rewrite !chars_app. cbn [chars app].
  rewrite split_on_app by done. rewrite (split_slash_plain c) by done. rewrite fmap_app, filter_app. f_equal.
  rewrite list_fmap_singleton, of_chars_chars. by rewrite filter_cons_True.
Qed.
Lemma file_name_join a c : plain c → file_name (a ++ "/" ++ c) = Some c.
Proof. intros Hc. unfold file_name. rewrite components_join, last_snoc by done. cbn. by rewrite decide_False by apply Hc. Qed.
Lemma file_name_plain c : plain c → file_name c = Some c.
Proof.
  intros Hp. pose proof Hp as (? & ? & ? & ? & _). unfold file_name, path_components, split_char.
  rewrite split_slash_plain by done. rewrite list_fmap_singleton, of_chars_chars, filter_cons_True by done. cbn.
  by rewrite decide_False.
Qed.
Lemma prefix_slash_plain c : plain c → String.prefix "/" c = false.
Proof.
  intros (? & _ & _ & Hc & _). destruct c as [|x c]; [done|]. cbn. case_match; [|done]. subst x. destruct Hc. by left.
Qed.
Lemma ends_with_slash v : v ≠ ""%string → ends_with "/" v = true → ∃ v', v = (v' ++ "/")%string.
Proof.
  intros Hv He. unfold ends_with in He. apply bool_decide_eq_true in He. exists (of_chars (take (length (chars v) - 1) (chars v))).
  rewrite <- (of_chars_chars v) at 1. rewrite <- (take_drop (length (chars v) - 1) (chars v)) at 1. cbn [chars length] in He. rewrite He.
  rewrite <- (of_chars_chars (_ ++ "/")%string) at 1. by rewrite chars_app, chars_of_chars.
Qed.
Lemma file_name_path_join v c : plain c → file_name (path_join v c) = Some c.
Proof.
  intros Hc. unfold path_join. rewrite prefix_slash_plain by done. case_decide; [by apply file_name_plain|].
  destruct (ends_with "/" v) eqn:He; [|by apply file_name_join].
  destruct (ends_with_slash v) as [v' ->]; [done..|]. rewrite <- string_app_assoc. by apply file_name_join.
Qed.
Lemma below_file_name d p : below d p → ∃ c, plain c ∧ file_name p = Some c.
Proof.
  intros (cs & Hne & Hcs & ->). destruct cs as [|c cs] using rev_ind; [done|]. clear IHcs Hne.
  apply Forall_app in Hcs as [_ Hc]. rewrite Forall_singleton in Hc.
  exists c. split; [done|]. rewrite abs_app. cbn [abs].
  rewrite string_app_nil, string_app_assoc. by apply file_name_join.
Qed.
Lemma below_utf8 d p c : below d p → file_name p = Some c → utf8 (chars c) = true.
Proof. intros (c' & Hp & ->)%below_file_name [= <-]. apply Hp. Qed.
(** A path with a character besides slashes and dots has a parent. *)
Lemma split_on_covers p cs cur c : c ∈ cs → p c = false → ∃ w, w ∈ split_on p cur cs ∧ c ∈ w.
Proof.
  revert cur. induction cs as [|x cs IH]; intros cur Hc Hp; [by apply elem_of_nil in Hc|]. cbn. apply elem_of_cons in Hc as [->|Hc].
  - rewrite Hp. clear IH. assert (∀ cur, x ∈ cur → ∃ w, w ∈ split_on p cur cs ∧ x ∈ w) as H; [|apply H; by left].
    induction cs as [|y cs IH]; intros k Hk; cbn; [exists (rev k); split; [by left|by apply elem_of_rev; rewrite rev_involutive]|].
    destruct (p y); [exists (rev k); split; [by left|by apply elem_of_rev; rewrite rev_involutive]|apply IH; by right].
  - destruct (p x); [|by apply IH]. destruct (IH [] Hc Hp) as (w & ? & ?). exists w. split; [by right|done].
Qed.
Lemma path_parent_Some s c : c ∈ chars s → c ≠ "/"%char → c ≠ "."%char → is_Some (path_parent s).
Proof.
  intros Hc H1 H2. unfold path_parent, path_ancestors. cbn.
  destruct (split_on_covers (Ascii.eqb "/"%char) (chars s) [] c) as (w & Hw & Hcw); [done|apply Ascii.eqb_neq; congruence|].
  assert (of_chars w ∈ filter (λ c, c ≠ ""%string ∧ c ≠ "."%string) (split_char "/"%char s)) as Hin.
  { apply list_elem_of_filter. split; [|by apply list_elem_of_fmap_2].
    rewrite <- (chars_of_chars w) in Hcw. split; intros E; rewrite E in Hcw; cbn in Hcw; [by apply elem_of_nil in Hcw|].
    by apply list_elem_of_singleton in Hcw. }
  destruct (filter _ _) as [|x l]; [by apply elem_of_nil in Hin|]. cbn. by eexists.
Qed.
Lemma wants_path_parent d w suffix n : "s"%char ∈ chars suffix → is_Some (path_parent (wants_path d w suffix n)).
Proof.
  intros Hs. apply (path_parent_Some _ "s"%char); [|done..]. unfold wants_path. rewrite !chars_app, !elem_of_app. tauto.
Qed.

(** ** What is assumed of the system

    The persistent path can be written, so that a link can be made where there is none
    and every link can be removed; the walk finds the links below a directory; only a
    regular file is copied; file names are UTF-8. *)
Class InstallLaws (E : Type) `{HF : !InstallFs E} : Type := {
  in_links : E → gmap string string;
  in_copy_links p q e : in_links (in_copy p q e).1 = in_links e;
  in_mkdir_links p e : in_links (in_create_dir_all p e).1 = in_links e;
  in_mkdir_ok p e : (in_create_dir_all p e).2 ≠ Some false;
  in_symlink_links t p e : clean p →
    in_links (in_symlink t p e).1 = match in_links e !! p with Some _ => in_links e | None => <[p:=t]> (in_links e) end;
  in_unlink_links p e : clean p → in_links (in_unlink p e).1 = delete p (in_links e);
  in_read_link_links p e : clean p → in_read_link p e = in_links e !! p;
  in_walk_sound d e w : clean d → Some w ∈ in_walk (λ _, true) d e → we_is_symlink w = true →
    below d (we_path w) ∧ is_Some (in_links e !! we_path w) ∧ file_name (we_path w) = Some (we_name w);
  in_walk_complete d e p : clean d → is_Some (in_links e !! p) → below d p →
    ∃ w, Some w ∈ in_walk (λ _, true) d e ∧ we_is_symlink w = true ∧ we_path w = p;
  in_copy_regular path m c q e : in_metadata path e = Some m → in_canonicalize path e = Some c → (in_copy c q e).2 = true →
    md_is_file m = true;
  in_utf8_path p e : in_exists p e = true → utf8 (chars p) = true;
  in_utf8_entry d e l p : in_read_dir d e = Some l → Some p ∈ l → ∃ f, file_name p = Some f ∧ utf8 (chars f) = true;
}.

(** The links of a system lead to files with UTF-8 names. *)
Definition utf8_links (m : gmap string string) : Prop :=
  ∀ p t f, m !! p = Some t → file_name t = Some f → utf8 (chars f) = true.


Section facts.
Context `{HI : !HashIter} `{HP : !Patterns} `{HS : !SliceSort} {E : Type} `{HF : !InstallFs E} `{HL : !InstallLaws E}.
Implicit Types (s : InstallSt E) (c : Ctx) (r : IRef).

Lemma wp_in_ask {A} (f : E → A) s Q : wp (in_ask f) s Q ↔ Q s (f (in_sys s)).
Proof. done. Qed.
Lemma wp_in_call {A} (f : E → E * A) s Q : wp (in_call f) s Q ↔ Q (set_in_sys (f (in_sys s)).1 s) (f (in_sys s)).2.
Proof. done. Qed.
Lemma wp_ui_get r u s Q : in_heap s !! r = Some u → Q s u → wp (ui_get r) s Q.
Proof. intros Hu HQ. apply wp_bind, wp_mget, wp_munwrap. eauto. Qed.

(** ** Discovery *)

(** The names that are asked for or named in [Also], all of them plain; the links that
    files ask for are plain names too. *)
Definition config_ok (U : gset string) (cfg : UeConfigInstall) : Prop :=
  (∀ a, a ∈ Also cfg → a ∈ U) ∧ Forall plain (Alias cfg ++ WantedBy cfg ++ RequiredBy cfg).
Definition plain_files (U : gset string) : Prop :=
  (∀ n, n ∈ U → plain n) ∧ ∀ files e cfg, in_load files e = Some cfg → config_ok U cfg.
Definition asked (u : UnitInstall) : list string := ui_aliases u ++ ui_wanted_by u ++ ui_required_by u.
Definition unit_ok (u : UnitInstall) : Prop :=
  (ui_type u = UnitFileType.Invalid → ui_path u = ""%string) ∧ plain (ui_name u) ∧ Forall plain (asked u).
(** A unit that asks for links has the path of its file. *)
Definition settled (u : UnitInstall) : Prop := asked u = [] ∨ ∃ v, ui_path u = path_join v (ui_name u).
(** The units of a context; those of [X] are being loaded. *)
Record units_ok (c : Ctx) (X : gset IRef) (s : InstallSt E) : Prop := {
  uk_named n r : unit_install n (ctx_of c s) = Some r → ∃ u, in_heap s !! r = Some u ∧ ui_name u = n;
  uk_unit r u : in_heap s !! r = Some u → unit_ok u;
  uk_settled r u : in_heap s !! r = Some u → r ∉ X → settled u;
}.
(** What discovery leaves. *)
Record grows (c : Ctx) (s s' : InstallSt E) : Prop := {
  gr_lookup : in_lookup_path s' = in_lookup_path s;
  gr_links : in_links (in_sys s') = in_links (in_sys s);
  gr_processed : processed (ctx_of c s') = processed (ctx_of c s);
  gr_tables n r : unit_install n (ctx_of c s) = Some r → unit_install n (ctx_of c s') = Some r;
  gr_heap r u : in_heap s !! r = Some u → ∃ u', in_heap s' !! r = Some u' ∧ ui_name u' = ui_name u
    ∧ (ui_type u ≠ UnitFileType.Invalid → ui_type u' ≠ UnitFileType.Invalid);
}.
#[global] Instance grows_preorder c : PreOrder (grows c).
Proof.
  split; [intros s; split; eauto 10|]. intros s1 s2 s3 [A1 A2 A3 A4 A5] [B1 B2 B3 B4 B5]. split; [congruence..|by eauto|].
  intros r u Hu. destruct (A5 r u Hu) as (u2 & Hu2 & ? & ?). destruct (B5 r u2 Hu2) as (u3 & ? & ? & ?).
  exists u3. split_and!; [done|congruence|eauto].
Qed.
(** The names whose file has not been looked at. *)
Definition typed (c : Ctx) (s : InstallSt E) (n : string) : bool :=
  match unit_install n (ctx_of c s) ≫= λ r, in_heap s !! r with
  | Some u => negb (bool_decide (ui_type u = UnitFileType.Invalid)) | None => false
  end.
Definition pending (U : gset string) (c : Ctx) (s : InstallSt E) : nat := size (filter (λ n, typed c s n = false) U).
Lemma typed_grows c s s' n : grows c s s' → typed c s n = true → typed c s' n = true.
Proof.
  intros HG. unfold typed. destruct (unit_install n (ctx_of c s)) as [r|] eqn:Hr; [|done]. cbn.
  destruct (in_heap s !! r) as [u|] eqn:Hu; [|done]. intros Ht%negb_true_iff%bool_decide_eq_false.
  rewrite (gr_tables _ _ _ HG _ _ Hr). cbn. destruct (gr_heap _ _ _ HG _ _ Hu) as (u' & -> & _ & Ht').
  apply negb_true_iff, bool_decide_eq_false. auto.
Qed.
Lemma pending_grows U c s s' : grows c s s' → (pending U c s' ≤ pending U c s)%nat.
Proof.
  intros HG. apply subseteq_size. intros n [Hn HU]%elem_of_filter. apply elem_of_filter. split; [|done].
  destruct (typed c s n) eqn:Ht; [|done]. by rewrite (typed_grows _ _ _ _ HG Ht) in Hn.
Qed.
Lemma pending_typed U c s s' n : grows c s s' → n ∈ U → typed c s n = false → typed c s' n = true →
  (pending U c s' < pending U c s)%nat.
Proof.
  intros HG HU H0 H1. apply subset_size. split.
  - intros m [Hm ?]%elem_of_filter. apply elem_of_filter. split; [|done].
    destruct (typed c s m) eqn:Ht; [|done]. by rewrite (typed_grows _ _ _ _ HG Ht) in Hm.
  - intros Hsub. assert (n ∈ filter (λ n, typed c s' n = false) U) as [? _]%elem_of_filter; [|congruence].
    apply Hsub, elem_of_filter. done.
Qed.

(** While the unit [r] of the name [n] is searched for: what is left of the fuel. *)
Record searching (U : gset string) (fuel : nat) (c : Ctx) (X : gset IRef) (n : string) (r : IRef) (s : InstallSt E) : Prop := {
  se_ok : units_ok c X s;
  se_in : n ∈ U;
  se_named : unit_install n (ctx_of c s) = Some r;
  se_fuel : (pending U c s < if typed c s n then fuel else S fuel)%nat;
}.
Lemma searching_grows U fuel c X n r s s' : searching U fuel c X n r s → grows c s s' → units_ok c X s' →
  searching U fuel c X n r s'.
Proof.
  intros [H1 H2 H3 H4] HG Hok. split; [done|done|by apply (gr_tables _ _ _ HG)|].
  pose proof (pending_grows U _ _ _ HG) as Hle. destruct (typed c s n) eqn:Ht.
  - rewrite (typed_grows _ _ _ _ HG Ht). lia.
  - destruct (typed c s' n) eqn:Ht'; [|lia]. pose proof (pending_typed U _ _ _ _ HG H2 Ht Ht'). lia.
Qed.
Lemma searching_unit U fuel c X n r s : searching U fuel c X n r s →
  ∃ u, in_heap s !! r = Some u ∧ ui_name u = n ∧ unit_ok u ∧ typed c s n = negb (bool_decide (ui_type u = UnitFileType.Invalid)).
Proof.
  intros [H1 _ H3 _]. destruct (uk_named _ _ _ H1 _ _ H3) as (u & Hu & Hn). exists u. split_and!; [done..|by eapply uk_unit|].
  unfold typed. rewrite H3. cbn. by rewrite Hu.
Qed.
(** A change of the unit in its place. *)
Definition updated (r : IRef) (f : UnitInstall → UnitInstall) (s : InstallSt E) : InstallSt E :=
  set_in_heap (alter f r (in_heap s)) s.
Lemma wp_ui_modify r f s Q : wp (ui_modify r f) s Q ↔ Q (updated r f s) tt.
Proof. done. Qed.
Lemma ctx_updated c r f s : ctx_of c (updated r f s) = ctx_of c s.
Proof. by destruct c. Qed.
Lemma ctx_set_sys c e s : ctx_of c (set_in_sys e s) = ctx_of c s.
Proof. by destruct c. Qed.
Lemma grows_updated c r f s : (∀ u, in_heap s !! r = Some u → ui_name (f u) = ui_name u
    ∧ (ui_type u ≠ UnitFileType.Invalid → ui_type (f u) ≠ UnitFileType.Invalid)) → grows c s (updated r f s).
Proof.
  intros Hf. split; [done..|by rewrite ctx_updated|by rewrite ctx_updated|].
  intros r' u Hu. unfold updated. cbn. destruct (decide (r = r')) as [<-|Hne].
  - rewrite lookup_alter_eq, Hu. cbn. exists (f u). destruct (Hf u Hu). done.
  - rewrite lookup_alter_ne by done. exists u. done.
Qed.
Lemma units_ok_updated c X Y r f s : units_ok c X s → X ⊆ Y →
  (∀ u, in_heap s !! r = Some u → ui_name (f u) = ui_name u ∧ unit_ok (f u) ∧ (r ∉ Y → settled (f u))) →
  units_ok c Y (updated r f s).
Proof.
  intros [H1 H2 H3] HXY Hf. split.
  - intros n r'. rewrite ctx_updated. intros (u & Hu & Hn)%H1. unfold updated. cbn. destruct (decide (r = r')) as [<-|Hne].
    + rewrite lookup_alter_eq, Hu. cbn. exists (f u). destruct (Hf u Hu) as (? & _). split; [done|congruence].
    + rewrite lookup_alter_ne by done. by exists u.
  - intros r' u. unfold updated. cbn. destruct (decide (r = r')) as [<-|Hne].
    + rewrite lookup_alter_eq. intros (u0 & Hu & ->)%fmap_Some_1. by apply Hf.
    + rewrite lookup_alter_ne by done. apply H2.
  - intros r' u. unfold updated. cbn. destruct (decide (r = r')) as [<-|Hne].
    + rewrite lookup_alter_eq. intros (u0 & Hu & ->)%fmap_Some_1. by apply Hf.
    + rewrite lookup_alter_ne by done. intros Hu Hr. apply (H3 r' u Hu). set_solver.
Qed.
Lemma grows_sys c e s : in_links e = in_links (in_sys s) → grows c s (set_in_sys e s).
Proof. intros He. split; [done..|by rewrite ctx_set_sys|by rewrite ctx_set_sys|eauto]. Qed.
Lemma units_ok_sys c X e s : units_ok c X s → units_ok c X (set_in_sys e s).
Proof. intros [H1 H2 H3]. split; [|done..]. intros n r. rewrite ctx_set_sys. apply H1. Qed.

Lemma wp_dropin_entries acc l s : (∀ p, Some p ∈ l → ∃ f, file_name p = Some f ∧ utf8 (chars f) = true) →
  wp (dropin_entries acc l) s (λ s' _, s' = s).
Proof.
  revert acc. induction l as [|[p|] l IH]; intros acc Hl; cbn [dropin_entries]; [done| |done].
  assert (∀ acc, wp (dropin_entries acc l) s (λ s' _, s' = s)) as Hrest by (intros; apply IH; intros q Hq; apply Hl; by right).
  apply wp_bind, wp_in_ask. case_match; [done|]. destruct (Hl p) as (f & -> & Hf); [by left|].
  apply wp_bind, wp_munwrap. exists f. split; [done|]. apply wp_bind, wp_massert. split; [done|]. by case_match.
Qed.
Lemma wp_dropin_files d acc l s : wp (dropin_files d acc l) s (λ s' _, s' = s).
Proof.
  revert acc. induction l as [|v l IH]; intros acc; cbn [dropin_files]; [done|].
  apply wp_bind, wp_in_ask. case_match; [done|]. apply wp_bind, wp_in_ask. case_match eqn:Hd; [|done].
  apply wp_mtry. eapply wp_mono; [apply wp_dropin_entries; intros p Hp; by eapply in_utf8_entry|].
  intros s' [a|e] ->; [apply IH|done].
Qed.
(** A file that is read is a regular one. *)
Lemma wp_read_config U r path u s : plain_files U → in_heap s !! r = Some u →
  wp (read_config r path) s (λ s' res, (∃ e, s' = set_in_sys e s ∧ in_links e = in_links (in_sys s))
    ∧ ∀ cfg, res = Ok cfg → config_ok U cfg ∧ ∀ m, in_metadata path (in_sys s) = Some m → md_is_file m = true).
Proof.
  intros [_ HU] Hu. unfold read_config. assert (∃ e, s = set_in_sys e s ∧ in_links e = in_links (in_sys s)) as Hs by (exists (in_sys s); by destruct s).
  apply wp_bind, wp_in_ask. destruct (in_canonicalize path (in_sys s)) as [cp|] eqn:Hc; [|done].
  apply wp_bind, wp_in_call. set (e := (in_copy cp (cp ++ ".toml")%string (in_sys s)).1).
  assert (∃ e', set_in_sys e s = set_in_sys e' s ∧ in_links e' = in_links (in_sys s)) as He by (exists e; split; [done|apply in_copy_links]).
  destruct (in_copy cp (cp ++ ".toml")%string (in_sys s)).2 eqn:Hok; [|done].
  apply wp_bind, (wp_ui_get r u); [done|]. apply wp_bind, wp_mget, wp_mtry.
  eapply wp_mono; [apply wp_dropin_files|]. intros s' [files|x] ->; [|done].
  apply wp_bind, wp_in_ask. case_match eqn:Hl; [|done]. split; [done|]. intros cfg [= <-]. split; [by eapply HU|].
  intros m Hm. by eapply in_copy_regular.
Qed.

(** The specification of a discovery with some fuel. *)
Definition discovers (U : gset string) (fuel : nat) (c : Ctx) (discover : string → M (InstallSt E) (Result unit InstallError)) : Prop :=
  ∀ X n s, n ∈ U → units_ok c X s → (pending U c s < fuel)%nat →
    wp (discover n) s (λ s' res, res = Ok tt ∧ units_ok c X s' ∧ grows c s s' ∧ is_Some (unit_install n (ctx_of c s'))).
Lemma wp_discover_also U fuel c discover X l s : discovers U fuel c discover → (∀ a, a ∈ l → a ∈ U) →
  units_ok c X s → (pending U c s < fuel)%nat →
  wp (discover_also discover l) s (λ s' res, res = Ok tt ∧ units_ok c X s' ∧ grows c s s').
Proof.
  intros Hd. revert s. induction l as [|a l IH]; intros s Hl Hok Hf; cbn [discover_also]; [done|].
  apply wp_mtry. eapply wp_mono; [apply (Hd X a s); [apply Hl; by left|done..]|]. intros s1 x (-> & Hok1 & HG1 & _).
  pose proof (pending_grows U _ _ _ HG1). eapply wp_mono; [apply IH; [intros b Hb; apply Hl; by right|done|lia]|].
  intros s2 x (-> & ? & ?). split_and!; [done..|by trans s1].
Qed.
Lemma type_of_metadata_old m t : t ≠ UnitFileType.Invalid → type_of_metadata m t ≠ UnitFileType.Invalid.
Proof. intros Ht. unfold type_of_metadata. repeat case_match; done. Qed.
Lemma asked_fill cfg u : asked (fill_struct cfg u) ≡ₚ asked u ++ Alias cfg ++ WantedBy cfg ++ RequiredBy cfg.
Proof. unfold asked. cbn. solve_Permutation. Qed.
Lemma unit_ok_typed u m : unit_ok u → unit_ok (set_u_type (type_of_metadata m (ui_type u)) u).
Proof.
  intros (H1 & H2 & H3). split_and!; [|done..]. cbn. intros Ht. apply H1.
  destruct (decide (ui_type u = UnitFileType.Invalid)); [done|]. by apply (type_of_metadata_old m) in Ht.
Qed.
(** The two changes of the unit while its file is loaded. *)
Lemma searching_retyped U fuel c X n r m s : searching U fuel c X n r s →
  let s1 := updated r (λ u, set_u_type (type_of_metadata m (ui_type u)) u) s in
  grows c s s1 ∧ searching U fuel c X n r s1 ∧ (md_is_file m = true → typed c s1 n = true).
Proof.
  intros Hs s1. destruct (searching_unit _ _ _ _ _ _ _ Hs) as (u & Hu & Hn & Huo & _).
  assert (grows c s s1) as HG by (apply grows_updated; intros u' _; split; [done|apply type_of_metadata_old]).
  assert (searching U fuel c X n r s1) as Hs1.
  { apply (searching_grows _ _ _ _ _ _ s); [done..|]. apply (units_ok_updated _ X); [apply Hs|done|]. intros u' Hu'. simplify_eq.
    split_and!; [done|by apply unit_ok_typed|]. intros HX.
    destruct (uk_settled _ _ _ (se_ok _ _ _ _ _ _ _ Hs) _ _ Hu HX); [by left|by right]. }
  split_and!; [done..|]. intros Hm. unfold typed. rewrite (se_named _ _ _ _ _ _ _ Hs1). unfold s1, updated. cbn.
  rewrite lookup_alter_eq, Hu. cbn. unfold type_of_metadata. rewrite Hm. by destruct (md_len m =? 0).
Qed.
Lemma searching_filled U fuel c X n r cfg s : searching U fuel c X n r s → typed c s n = true → config_ok U cfg →
  let s1 := updated r (fill_struct cfg) s in
  grows c s s1 ∧ searching U fuel c ({[r]} ∪ X) n r s1 ∧ typed c s1 n = true.
Proof.
  intros Hs Ht [_ Hpl] s1. destruct (searching_unit _ _ _ _ _ _ _ Hs) as (u & Hu & Hn & (Hp & Hna & Has) & Ht').
  assert (grows c s s1) as HG by by apply grows_updated.
  assert (typed c s1 n = true) as Ht1 by by eapply typed_grows. split_and!; [done| |done].
  split; [|apply Hs|unfold s1; rewrite ctx_updated; apply Hs|].
  - apply (units_ok_updated _ X); [apply Hs|set_solver|]. intros u' Hu'. simplify_eq. split; [done|]. split; [|set_solver].
    split_and!; [done..|]. rewrite asked_fill. by apply Forall_app.
  - pose proof (se_fuel _ _ _ _ _ _ _ Hs) as Hf. rewrite Ht in Hf. rewrite Ht1. pose proof (pending_grows U _ _ _ HG). lia.
Qed.
Lemma searching_sys U fuel c X n r e s : searching U fuel c X n r s → in_links e = in_links (in_sys s) →
  grows c s (set_in_sys e s) ∧ searching U fuel c X n r (set_in_sys e s).
Proof.
  intros Hs He. assert (grows c s (set_in_sys e s)) as HG by by apply grows_sys. split; [done|].
  apply (searching_grows _ _ _ _ _ _ s); [done..|]. apply units_ok_sys, Hs.
Qed.
Lemma wp_unit_file_load U fuel c X discover n r path s : plain_files U → discovers U fuel c discover →
  searching U fuel c X n r s →
  wp (unit_file_load discover path r) s (λ s' res, grows c s s' ∧
    match res with
    | Err _ => searching U fuel c X n r s'
    | Ok _ => searching U fuel c ({[r]} ∪ X) n r s' ∧ typed c s' n = true
    end).
Proof.
  intros HU Hd Hs. unfold unit_file_load. apply wp_bind, wp_in_ask. destruct (in_metadata path (in_sys s)) as [m|] eqn:Hm; [|by split].
  apply wp_bind, wp_ui_modify. destruct (searching_retyped U fuel c X n r m s Hs) as (HG1 & Hs1 & Ht1). set (s1 := updated r _ s) in *.
  destruct (searching_unit _ _ _ _ _ _ _ Hs1) as (u & Hu & _).
  apply wp_mtry. eapply wp_mono; [by apply (wp_read_config U r path u)|]. intros s2 res ((e & -> & He) & Hres).
  destruct (searching_sys _ _ _ _ _ _ _ _ Hs1 He) as [HG2 Hs2].
  destruct res as [cfg|x]; [|split; [by trans s1|done]]. destruct (Hres cfg eq_refl) as [Hcfg Hreg].
  assert (typed c (set_in_sys e s1) n = true) as Ht2 by (eapply typed_grows; [done|by apply Ht1, Hreg]).
  destruct (searching_filled _ _ _ _ _ _ _ _ Hs2 Ht2 Hcfg) as (HG3 & Hs3 & Ht3).
  apply wp_bind, wp_ui_modify. set (s3 := updated r (fill_struct cfg) (set_in_sys e s1)) in *.
  assert (pending U c s3 < fuel)%nat as Hf3 by (pose proof (se_fuel _ _ _ _ _ _ _ Hs3) as Hf; by rewrite Ht3 in Hf).
  eapply wp_mono; [apply (wp_discover_also U fuel c discover ({[r]} ∪ X)); [done|apply Hcfg|apply Hs3|done]|]. intros s4 x (-> & Hok4 & HG4).
  split; [trans s3; [|done]; trans (set_in_sys e s1); [by trans s1|done]|]. split; [by eapply searching_grows|by eapply typed_grows].
Qed.
Lemma wp_search_one U fuel c X discover n r v s : plain_files U → discovers U fuel c discover → searching U fuel c X n r s →
  wp (search_one discover r v) s (λ s' _, grows c s s' ∧ searching U fuel c X n r s').
Proof.
  intros HU Hd Hs. unfold search_one. destruct (searching_unit _ _ _ _ _ _ _ Hs) as (u & Hu & Hn & _).
  apply wp_bind, (wp_ui_get r u); [done|]. apply wp_bind, wp_in_ask. rewrite Hn. set (p := path_join v n).
  destruct (in_exists p (in_sys s)) eqn:Hex; [|by split]. apply wp_bind, wp_massert. split; [by eapply in_utf8_path|].
  apply wp_bind. eapply wp_mono; [by apply (wp_unit_file_load U fuel c X discover n r)|]. intros s1 [[]|x] [HG1 Hs1]; [|done].
  destruct Hs1 as [Hs1 Ht1]. apply wp_ui_modify. assert (grows c s1 (updated r (set_path p) s1)) as HG2 by by apply grows_updated.
  split; [by trans s1|]. destruct (searching_unit _ _ _ _ _ _ _ Hs1) as (u1 & Hu1 & Hn1 & Hok1 & Ht1').
  split; [|apply Hs|rewrite ctx_updated; apply Hs1|].
  - destruct (se_ok _ _ _ _ _ _ _ Hs1) as [K1 K2 K3]. assert (units_ok c ({[r]} ∪ X) (updated r (set_path p) s1)) as [L1 L2 _].
    { apply (units_ok_updated _ ({[r]} ∪ X)); [done..|]. intros u' Hu'. simplify_eq. split; [done|]. split; [|set_solver].
      split_and!; [|apply Hok1|apply Hok1]. cbn. intros Hty. rewrite Ht1, Hty in Ht1'. done. }
    split; [done..|]. intros r' u'. unfold updated. cbn. destruct (decide (r = r')) as [<-|Hne].
    + rewrite lookup_alter_eq, Hu1. intros [= <-] _. right. exists v. cbn. by rewrite Hn1.
    + rewrite lookup_alter_ne by done. intros Hu' HX. apply (K3 _ _ Hu'). set_solver.
  - pose proof (se_fuel _ _ _ _ _ _ _ Hs1) as Hf. rewrite Ht1 in Hf. rewrite (typed_grows _ _ _ _ HG2 Ht1).
    pose proof (pending_grows U _ _ _ HG2). lia.
Qed.

(** A new unit is put in a place of its own. *)
Definition with_unit (c : Ctx) (n : string) (s : InstallSt E) : InstallSt E :=
  let r := fresh (dom (in_heap s)) in
  let s1 := set_in_heap (<[r:=UnitInstall_new n]> (in_heap s)) s in
  set_ctx c (add_unit_install n r (ctx_of c s1)) s1.
Lemma ctx_with_unit c n s : ctx_of c (with_unit c n s) = add_unit_install n (fresh (dom (in_heap s))) (ctx_of c s).
Proof. by destruct c. Qed.
Lemma unit_install_add n r n' (x : InstallContext) : unit_install n x = None →
  unit_install n' (add_unit_install n r x) = if decide (n' = n) then Some r else unit_install n' x.
Proof.
  unfold unit_install. cbn. intros Hn. case_decide as Hd.
  - subst n'. destruct (processed x !! n); [done|]. by rewrite lookup_insert_eq.
  - by rewrite lookup_insert_ne.
Qed.
Lemma heap_with_unit c n s r u : in_heap s !! r = Some u → in_heap (with_unit c n s) !! r = Some u.
Proof.
  intros Hu. cbn. rewrite lookup_insert_ne; [done|]. intros <-. apply (is_fresh (dom (in_heap s))), elem_of_dom. by eexists.
Qed.
Lemma with_unit_grows c n s : unit_install n (ctx_of c s) = None → grows c s (with_unit c n s).
Proof.
  intros Hn. split; [done..|by rewrite ctx_with_unit| |].
  - intros n' r Hr. rewrite ctx_with_unit, unit_install_add by done. case_decide; [congruence|done].
  - intros r u Hu. exists u. split; [by apply heap_with_unit|done].
Qed.
Lemma with_unit_ok c X n s : unit_install n (ctx_of c s) = None → plain n → units_ok c X s → units_ok c X (with_unit c n s).
Proof.
  intros Hn Hpl [H1 H2 H3]. set (q := fresh (dom (in_heap s))).
  assert (∀ r u, in_heap (with_unit c n s) !! r = Some u → (r = q ∧ u = UnitInstall_new n) ∨ in_heap s !! r = Some u) as Hheap.
  { intros r u. cbn. intros [[<- <-]|[_ ?]]%lookup_insert_Some; [by left|by right]. }
  split.
  - intros n' r. rewrite ctx_with_unit, unit_install_add by done. case_decide as Hd.
    + intros [= <-]. subst n'. exists (UnitInstall_new n). split; [|done]. cbn. apply lookup_insert_eq.
    + intros (u & Hu & ?)%H1. exists u. split; [by apply heap_with_unit|done].
  - intros r u [[-> ->]|Hu]%Hheap; [|by eapply H2]. split_and!; [done..|]. constructor.
  - intros r u [[-> ->]|Hu]%Hheap HX; [by left|by eapply H3].
Qed.
Lemma wp_prepare_install c n s Q : (∀ r, unit_install n (ctx_of c s) = Some r → Q s r) →
  (unit_install n (ctx_of c s) = None → Q (with_unit c n s) (fresh (dom (in_heap s)))) →
  wp (prepare_unit_install n c) s Q.
Proof.
  intros H1 H2. unfold prepare_unit_install. apply wp_bind, wp_mgets. destruct (unit_install n (ctx_of c s)) as [r|] eqn:Hr; [by apply wp_ret, H1|].
  apply wp_bind. unfold ui_new. apply wp_bind, wp_mget, wp_bind, wp_mmodify, wp_ret. apply wp_bind. by apply wp_mmodify, wp_ret, H2.
Qed.
Lemma wp_unit_file_search U fuel c X discover n r s : plain_files U → discovers U fuel c discover → searching U fuel c X n r s →
  wp (unit_file_search discover r) s (λ s' res, res = Ok tt ∧ grows c s s' ∧ searching U fuel c X n r s').
Proof.
  intros HU Hd Hs. unfold unit_file_search. destruct (searching_unit _ _ _ _ _ _ _ Hs) as (u & Hu & Hn & (Hp & _) & _).
  apply wp_bind, (wp_ui_get r u); [done|]. case_bool_decide as Ht; [|by split_and!]. cbn [negb].
  rewrite decide_True by by apply Hp. apply wp_mtry, wp_ret, wp_bind, wp_mget, wp_bind.
  apply (wp_mforeach (λ _ s', grows c s s' ∧ searching U fuel c X n r s')); [done| |by intros s' ?; apply wp_ret].
  intros dn v rest s' _ [HG Hs']. eapply wp_mono; [by apply (wp_search_one U fuel c X discover n r)|].
  intros s2 _ [HG2 Hs2]. split; [by trans s'|done].
Qed.
(** A unit whose file was looked at is left alone. *)
Lemma wp_search_typed c X discover n r s : units_ok c X s → unit_install n (ctx_of c s) = Some r → typed c s n = true →
  wp (unit_file_search discover r) s (λ s' res, res = Ok tt ∧ s' = s).
Proof.
  intros Hok Hr. unfold typed. rewrite Hr. cbn [mbind option_bind]. destruct (uk_named _ _ _ Hok _ _ Hr) as (u & Hu & _). rewrite Hu.
  intros Ht. unfold unit_file_search. apply wp_bind, (wp_ui_get r u); [done|]. by rewrite Ht.
Qed.
(** Discovery with more fuel than there are names ends well. *)
Lemma discover_ends U fuel c : plain_files U → discovers U fuel c (unit_install_discover fuel c).
Proof.
  intros HU. induction fuel as [|fuel IH]; intros X n s Hn Hok Hf; [lia|]. cbn [unit_install_discover]. apply wp_bind.
  assert (∀ s' r, grows c s s' → units_ok c X s' → unit_install n (ctx_of c s') = Some r →
    wp (unit_file_search (unit_install_discover fuel c) r) s'
      (λ s2 res, res = Ok tt ∧ units_ok c X s2 ∧ grows c s s2 ∧ is_Some (unit_install n (ctx_of c s2)))) as Hgo.
  { intros s' r HG Hok' Hr. pose proof (pending_grows U _ _ _ HG). destruct (typed c s' n) eqn:Ht.
    { eapply wp_mono; [by apply (wp_search_typed c X _ n r)|]. intros s2 res [-> ->]. split_and!; [done..|by eexists]. }
    eapply wp_mono; [apply (wp_unit_file_search U fuel c X _ n r); [done..|split; [done..|rewrite Ht; lia]]|].
    intros s2 res (-> & HG2 & [? ? Hr2 _]). split_and!; [done..|by trans s'|by eexists]. }
  apply wp_prepare_install.
  - intros r Hr. by apply Hgo.
  - intros Hnone. apply Hgo; [by apply with_unit_grows|apply with_unit_ok; [done|by apply HU|done]|].
    rewrite ctx_with_unit, unit_install_add by done. by rewrite decide_True.
Qed.

(** ** Links *)
Definition link_at (t p : string) (m : gmap string string) : gmap string string :=
  match m !! p with Some _ => m | None => <[p:=t]> m end.
Definition links_at (t : string) (ps : list string) (m : gmap string string) : gmap string string :=
  foldl (λ m p, link_at t p m) m ps.
(** The links that the files of a unit ask for. *)
Definition wanted (d : string) (u : UnitInstall) : list string :=
  ((λ a, d ++ "/" ++ a)%string <$> ui_aliases u)
  ++ ((λ w, wants_path d w "wants" (ui_name u)) <$> ui_wanted_by u)
  ++ ((λ w, wants_path d w "requires" (ui_name u)) <$> ui_required_by u).
Lemma wanted_asked d u p : asked u = [] → p ∉ wanted d u.
Proof.
  unfold asked, wanted. intros [-> [-> ->]%app_nil]%app_nil. cbn. apply not_elem_of_nil.
Qed.
(** Only the links have changed. *)
Definition linked (s : InstallSt E) (m : gmap string string) (s' : InstallSt E) : Prop :=
  ∃ e, s' = set_in_sys e s ∧ in_links e = m.
Lemma linked_refl s : linked s (in_links (in_sys s)) s.
Proof. exists (in_sys s). by destruct s. Qed.
Lemma linked_step s1 s2 s3 m2 m3 : linked s1 m2 s2 → linked s2 m3 s3 → linked s1 m3 s3.
Proof. intros (e2 & -> & _) (e3 & -> & ?). by exists e3. Qed.
Lemma linked_links s m s' : linked s m s' → in_links (in_sys s') = m.
Proof. by intros (e & -> & ?). Qed.

Lemma links_at_app t ps qs m : links_at t (ps ++ qs) m = links_at t qs (links_at t ps m).
Proof. apply foldl_app. Qed.
Lemma link_at_sub t p m : m ⊆ link_at t p m.
Proof. unfold link_at. case_match eqn:Hm; [done|]. by apply insert_subseteq. Qed.
Lemma link_at_spec t p m q : link_at t p m !! q = match m !! q with Some x => Some x | None => if decide (q = p) then Some t else None end.
Proof.
  unfold link_at. destruct (m !! p) eqn:Hp.
  - destruct (m !! q) eqn:Hq; [done|]. case_decide; [congruence|done].
  - destruct (decide (q = p)) as [->|Hne]; [by rewrite lookup_insert_eq, Hp|]. rewrite lookup_insert_ne by done. by destruct (m !! q).
Qed.
Lemma links_at_spec t ps m q : links_at t ps m !! q = match m !! q with Some x => Some x | None => if decide (q ∈ ps) then Some t else None end.
Proof.
  revert m. induction ps as [|p ps IH]; intros m; [cbn; destruct (m !! q); [done|]; by rewrite decide_False by apply not_elem_of_nil|].
  change (links_at t (p :: ps) m) with (links_at t ps (link_at t p m)). rewrite IH, link_at_spec. destruct (m !! q); [done|]. repeat case_decide; set_solver.
Qed.

Lemma plain_dir w suffix : plain w → (2 ≤ String.length suffix)%nat → "/"%char ∉ chars suffix → utf8 (chars suffix) = true →
  plain (w ++ "." ++ suffix).
Proof.
  intros (H1 & _ & _ & H2 & H3) Hl Hs Hu. assert (utf8 (chars (w ++ "." ++ suffix)) = true) as Hutf by (rewrite !chars_app; by repeat apply utf8_app).
  destruct w as [|x w]; [done|]. destruct suffix as [|y [|z suffix]]; cbn in Hl; [lia..|].
  split_and!; [done|by destruct w|by destruct w as [|? [|? ?]]| |done]. rewrite !chars_app, !elem_of_app. cbn [chars].
  intros [Hx|[Hx|Hx]]; [by apply H2| |by apply Hs]. by apply list_elem_of_singleton in Hx.
Qed.
Lemma wants_below d w suffix n : plain w → plain n → (2 ≤ String.length suffix)%nat → "/"%char ∉ chars suffix → utf8 (chars suffix) = true →
  below d (wants_path d w suffix n).
Proof.
  intros Hw Hn Hl Hs Hu. exists [(w ++ "." ++ suffix)%string; n]. split; [done|]. split; [apply Forall_cons; split; [by apply plain_dir|by apply Forall_singleton]|].
  unfold wants_path. cbn [abs]. rewrite string_app_nil, !string_app_assoc. done.
Qed.
Lemma wanted_below d u p : plain (ui_name u) → Forall plain (asked u) → p ∈ wanted d u → below d p.
Proof.
  intros Hn Ha. unfold asked in Ha. rewrite Forall_app, Forall_app in Ha. destruct Ha as (Ha & Hw & Hr). rewrite Forall_forall in Ha, Hw, Hr.
  unfold wanted. rewrite !elem_of_app, !list_elem_of_fmap. intros [(a & -> & Hin)|[(w & -> & Hin)|(w & -> & Hin)]].
  - exists [a]. split; [done|]. split; [by apply Forall_singleton, Ha|]. cbn [abs]. by rewrite string_app_nil.
  - apply wants_below; [by apply Hw|done|cbn; lia|by apply (bool_decide_eq_true_1 _); vm_compute|done].
  - apply wants_below; [by apply Hr|done|cbn; lia|by apply (bool_decide_eq_true_1 _); vm_compute|done].
Qed.

Lemma wp_make_link t p n s : clean p → wp (make_link t p n) s (λ s' _, linked s (link_at t p (in_links (in_sys s))) s').
Proof. intros Hp. apply wp_bind, wp_in_call, wp_ret. eexists. split; [done|]. by apply in_symlink_links. Qed.
Lemma wp_links_alias u d l n s : Forall clean ((λ a, d ++ "/" ++ a)%string <$> l) →
  wp (mfold (λ n a, make_link (ui_path u) (d ++ "/" ++ a)%string n) n l) s
    (λ s' _, linked s (links_at (ui_path u) ((λ a, d ++ "/" ++ a)%string <$> l) (in_links (in_sys s))) s').
Proof.
  revert n s. induction l as [|a l IH]; intros n s Hl; [apply wp_ret, linked_refl|]. rewrite fmap_cons in *. apply Forall_cons in Hl as [Ha Hl].
  apply wp_bind. eapply wp_mono; [by apply wp_make_link|]. intros s1 n1 H1. eapply wp_mono; [by apply IH|].
  intros s2 ? H2. rewrite (linked_links _ _ _ H1) in H2. eapply linked_step; [exact H1|exact H2].
Qed.
Lemma wp_wants_links u d suffix l n s : "s"%char ∈ chars suffix → Forall clean ((λ w, wants_path d w suffix (ui_name u)) <$> l) →
  wp (wants_links u d suffix n l) s
    (λ s' _, linked s (links_at (ui_path u) ((λ w, wants_path d w suffix (ui_name u)) <$> l) (in_links (in_sys s))) s').
Proof.
  intros Hs. revert n s. induction l as [|w l IH]; intros n s Hl; [apply wp_ret, linked_refl|]. rewrite fmap_cons in *. apply Forall_cons in Hl as [Hw Hl].
  cbn [wants_links]. destruct (wants_path_parent d w suffix (ui_name u) Hs) as [q Hq]. apply wp_bind, wp_munwrap. exists q. split; [done|].
  apply wp_bind, wp_in_call. pose proof (in_mkdir_ok q (in_sys s)) as Ho.
  assert (linked s (in_links (in_sys s)) (set_in_sys (in_create_dir_all q (in_sys s)).1 s)) as H0
    by (eexists; split; [done|apply in_mkdir_links]).
  assert (∀ n, wp (n ← make_link (ui_path u) (wants_path d w suffix (ui_name u)) n; wants_links u d suffix n l)
    (set_in_sys (in_create_dir_all q (in_sys s)).1 s)
    (λ s' _, linked s (links_at (ui_path u) ((λ w, wants_path d w suffix (ui_name u)) <$> w :: l) (in_links (in_sys s))) s')) as Hgo.
  { intros k. apply wp_bind. eapply wp_mono; [by apply wp_make_link|]. intros s1 n1 H1. eapply wp_mono; [by apply IH|].
    intros s2 ? H2. rewrite (linked_links _ _ _ H1), (linked_links _ _ _ H0) in H2.
    eapply linked_step; [exact H0|]. eapply linked_step; [exact H1|done]. }
  destruct (in_create_dir_all q (in_sys s)).2 as [[]|]; [apply Hgo|done|apply Hgo].
Qed.
Lemma wp_symlinks_alias r u d l s : in_heap s !! r = Some u → Forall clean ((λ a, d ++ "/" ++ a)%string <$> l) →
  wp (install_symlinks_alias r d l) s
    (λ s' _, linked s (links_at (ui_path u) ((λ a, d ++ "/" ++ a)%string <$> l) (in_links (in_sys s))) s').
Proof.
  intros Hu Hl. unfold install_symlinks_alias. case_decide as Hd; [rewrite Hd; apply wp_ret, linked_refl|].
  apply wp_bind, (wp_ui_get r u); [done|]. apply wp_bind. eapply wp_mono; [by apply wp_links_alias|]. intros s1 x Hx. by apply wp_ret.
Qed.
Lemma wp_symlinks_wants r u d suffix l s : in_heap s !! r = Some u → "s"%char ∈ chars suffix →
  Forall clean ((λ w, wants_path d w suffix (ui_name u)) <$> l) →
  wp (install_symlinks_wants r d suffix l) s
    (λ s' _, linked s (links_at (ui_path u) ((λ w, wants_path d w suffix (ui_name u)) <$> l) (in_links (in_sys s))) s').
Proof.
  intros Hu Hs Hl. unfold install_symlinks_wants. case_decide as Hd; [rewrite Hd; apply wp_ret, linked_refl|].
  apply wp_bind, (wp_ui_get r u); [done|]. by apply wp_wants_links.
Qed.
Lemma wp_ctx_install_symlinks r u d s : in_heap s !! r = Some u → Forall clean (wanted d u) →
  wp (ctx_install_symlinks r d) s (λ s' _, linked s (links_at (ui_path u) (wanted d u) (in_links (in_sys s))) s').
Proof.
  intros Hu. unfold wanted. rewrite !Forall_app. intros (H1 & H2 & H3). rewrite !links_at_app.
  assert (∀ s' m, linked s m s' → in_heap s' !! r = Some u) as Hheap by by intros s' m (e & -> & _).
  unfold ctx_install_symlinks. apply wp_bind, (wp_ui_get r u); [done|].
  apply wp_bind. eapply wp_mono; [by apply (wp_symlinks_alias r u)|]. intros s1 ? L1.
  apply wp_bind. eapply wp_mono; [apply (wp_symlinks_wants r u); [exact (Hheap _ _ L1)|by apply (bool_decide_eq_true_1 _); vm_compute|done]|].
  intros s2 ? L2. rewrite (linked_links _ _ _ L1) in L2. pose proof (linked_step _ _ _ _ _ L1 L2) as L3.
  apply wp_bind. eapply wp_mono; [apply (wp_symlinks_wants r u); [exact (Hheap _ _ L3)|by apply (bool_decide_eq_true_1 _); vm_compute|done]|].
  intros s3 ? L4. rewrite (linked_links _ _ _ L3) in L4. apply wp_ret. eapply linked_step; [exact L3|exact L4].
Qed.

(** ** Enabling *)

(** The units that wait in a context. *)
Definition found (c : Ctx) (s : InstallSt E) : gmap string UnitInstall := omap (λ r, in_heap s !! r) (will_process (ctx_of c s)).
Lemma lookup_found c s n u : found c s !! n = Some u ↔ ∃ r, will_process (ctx_of c s) !! n = Some r ∧ in_heap s !! r = Some u.
Proof. unfold found. by rewrite lookup_omap, bind_Some. Qed.
(** The links after enabling: none is lost, each new one is asked for by a regular unit and
    leads to its file, and each that is asked for is there. *)
Record enabled (d : string) (units : gmap string UnitInstall) (m m' : gmap string string) : Prop := {
  eb_kept : m ⊆ m';
  eb_new p t : m' !! p = Some t → m !! p = None →
    ∃ n u, units !! n = Some u ∧ ui_type u = UnitFileType.Regular ∧ p ∈ wanted d u ∧ t = ui_path u;
  eb_all n u p : units !! n = Some u → ui_type u = UnitFileType.Regular → p ∈ wanted d u → is_Some (m' !! p);
}.
(** What happens to the keys of [dn], in any order. *)
Record applied (c : Ctx) (d : string) (s : InstallSt E) (dn : list string) (s' : InstallSt E) : Prop := {
  ap_heap : in_heap s' = in_heap s;
  ap_lookup : in_lookup_path s' = in_lookup_path s;
  ap_rest n : n ∉ dn → will_process (ctx_of c s') !! n = will_process (ctx_of c s) !! n;
  ap_links : enabled d (filter (λ x, x.1 ∈ dn) (found c s)) (in_links (in_sys s)) (in_links (in_sys s'));
}.
Lemma finish_unit_spec c key r s Q :
  (∀ s', in_heap s' = in_heap s → in_lookup_path s' = in_lookup_path s → in_sys s' = in_sys s →
     ctx_of c s' = {| processed := <[key:=r]> (processed (ctx_of c s)); will_process := delete key (will_process (ctx_of c s)) |} → Q s' tt) →
  wp (finish_unit c key r) s Q.
Proof. intros HQ. unfold finish_unit. apply wp_bind, wp_mmodify, wp_mmodify. apply HQ; [by destruct c..|by destruct c]. Qed.
Lemma lookup_filter_snoc c s dn key n u : filter (λ x : string * UnitInstall, x.1 ∈ dn ++ [key]) (found c s) !! n = Some u ↔
  found c s !! n = Some u ∧ (n ∈ dn ∨ n = key).
Proof. rewrite map_lookup_filter_Some. cbn. by rewrite elem_of_app, list_elem_of_singleton. Qed.
Lemma enabled_step c d s dn key u m m' : enabled d (filter (λ x, x.1 ∈ dn) (found c s)) m m' →
  found c s !! key = Some u → (ui_type u = UnitFileType.Regular →
    enabled d (filter (λ x, x.1 ∈ dn ++ [key]) (found c s)) m (links_at (ui_path u) (wanted d u) m')) ∧
  (ui_type u ≠ UnitFileType.Regular → enabled d (filter (λ x, x.1 ∈ dn ++ [key]) (found c s)) m m').
Proof.
  intros [H1 H2 H3] Hu. split; intros Ht; split.
  - trans m'; [done|]. apply map_subseteq_spec. intros p t Hp. by rewrite links_at_spec, Hp.
  - intros p t. rewrite links_at_spec. destruct (m' !! p) as [x|] eqn:Hp.
    + intros [= ->] Hm. destruct (H2 p t Hp Hm) as (n & u' & [? ?]%map_lookup_filter_Some & ?). exists n, u'.
      rewrite lookup_filter_snoc. eauto.
    + case_decide; [|done]. intros [= <-] _. exists key, u. rewrite lookup_filter_snoc. split_and!; [done|by right|done..].
  - intros n u' p [Hn Hin]%lookup_filter_snoc Ht' Hp. rewrite links_at_spec. destruct (m' !! p) as [x|] eqn:Hx; [by eexists|].
    destruct Hin as [Hin| ->]; [|simplify_eq; rewrite decide_True by done; by eexists].
    destruct (H3 n u' p) as [y Hy]; [by apply map_lookup_filter_Some|done..|]. by rewrite Hx in Hy.
  - done.
  - intros p t Hp Hm. destruct (H2 p t Hp Hm) as (n & u' & [? ?]%map_lookup_filter_Some & ?). exists n, u'.
    rewrite lookup_filter_snoc. eauto.
  - intros n u' p [Hn Hin]%lookup_filter_snoc Ht' Hp. destruct Hin as [Hin| ->]; [|by simplify_eq].
    apply (H3 n u' p); [by apply map_lookup_filter_Some|done..].
Qed.
Lemma wp_apply_enable_key c d s dn key s' : (∀ n u, found c s !! n = Some u → Forall clean (wanted d u)) →
  (∀ n r, will_process (ctx_of c s) !! n = Some r → is_Some (in_heap s !! r)) →
  key ∉ dn → is_Some (will_process (ctx_of c s) !! key) → applied c d s dn s' →
  wp (apply_enable_key c d key) s' (λ s2 _, applied c d s (dn ++ [key]) s2).
Proof.
  intros Hcl Hin Hdn [r Hr] [A1 A2 A3 A4]. unfold apply_enable_key. apply wp_bind, wp_mgets. rewrite A3, Hr by done.
  destruct (Hin _ _ Hr) as [u Hu]. assert (found c s !! key = Some u) as Hf by (apply lookup_found; eauto).
  destruct (enabled_step c d s dn key u _ _ A4 Hf) as [E1 E2].
  apply wp_bind, (wp_ui_get r u); [by rewrite A1|]. case_bool_decide as Ht; cbn [negb].
  - apply wp_bind. eapply wp_mono; [apply (wp_ctx_install_symlinks r u); [by rewrite A1|by eapply Hcl]|].
    intros s1 ? (e & -> & He). apply finish_unit_spec. cbn [in_heap in_lookup_path in_sys set_in_sys]. intros s2 B1 B2 B3 B4.
    split; [congruence..| |rewrite B3, He; by apply E1].
    intros n Hn. rewrite B4, ctx_set_sys. cbn. rewrite lookup_delete_ne by set_solver. apply A3. set_solver.
  - apply wp_ret. split; [done..| |by apply E2]. intros n Hn. apply A3. set_solver.
Qed.
Lemma wp_apply_enable c d s : (∀ n u, found c s !! n = Some u → Forall clean (wanted d u)) →
  (∀ n r, will_process (ctx_of c s) !! n = Some r → is_Some (in_heap s !! r)) →
  wp (apply_enable_unit_install c d) s (λ s' _, enabled d (found c s) (in_links (in_sys s)) (in_links (in_sys s'))).
Proof.
  intros Hcl Hin. unfold apply_enable_unit_install. apply wp_bind, wp_mgets. case_decide as Hd.
  { apply wp_ret. split; [done|intros p t ?; congruence|]. intros n u p (r & Hr & _)%lookup_found. by rewrite Hd in Hr. }
  set (keys := hm_keys _).
  apply (wp_mforeach (applied c d s)).
  - split; [done..|]. split; [done|intros p t ?; congruence|]. intros n u p [_ Hn]%map_lookup_filter_Some. by apply elem_of_nil in Hn.
  - intros dn key rest s' Hk Ha. pose proof (NoDup_hm_keys (will_process (ctx_of c s))) as Hnd. fold keys in Hnd. rewrite Hk in Hnd.
    apply NoDup_app in Hnd as (_ & Hnd & _). eapply wp_apply_enable_key; [done..| | |done].
    + intros Hx. by destruct (Hnd key Hx); left.
    + apply elem_of_hm_keys. fold keys. rewrite Hk. apply elem_of_app. right. by left.
  - intros s' [_ _ _ [L1 L2 L3]]. split; [done| |].
    + intros p t Hp Hm. destruct (L2 p t Hp Hm) as (n & u & [? _]%map_lookup_filter_Some & ?). by exists n, u.
    + intros n u p Hn. apply (L3 n u p). apply map_lookup_filter_Some. split; [done|]. apply elem_of_hm_keys.
      apply lookup_found in Hn as (r & ? & _). by eexists.
Qed.

(** ** Disabling *)
Definition units_named (c : Ctx) (s : InstallSt E) : Prop :=
  ∀ n r, will_process (ctx_of c s) !! n = Some r → ∃ u, in_heap s !! r = Some u ∧ ui_name u = n.
Lemma wp_collect_disable c X s : units_named c s →
  wp (collect_disable_install c X) s (λ s' N, in_sys s' = in_sys s ∧ N = X ∪ dom (will_process (ctx_of c s))).
Proof.
  intros Hn. unfold collect_disable_install. apply wp_bind, wp_mgets. set (keys := hm_keys _).
  apply (wp_mfold (λ dn s' N, in_heap s' = in_heap s ∧ in_sys s' = in_sys s ∧ N = X ∪ list_to_set dn
    ∧ ∀ n, n ∉ dn → will_process (ctx_of c s') !! n = will_process (ctx_of c s) !! n)).
  - split_and!; [done..| |done]. set_solver.
  - intros dn key rest s' N Hk (A1 & A2 & -> & A3).
    pose proof (NoDup_hm_keys (will_process (ctx_of c s))) as Hnd. fold keys in Hnd. rewrite Hk in Hnd.
    apply NoDup_app in Hnd as (_ & Hnd & _). assert (key ∉ dn) as Hdn by (intros Hx; by destruct (Hnd key Hx); left).
    assert (is_Some (will_process (ctx_of c s) !! key)) as [r Hr].
    { apply elem_of_hm_keys. fold keys. rewrite Hk. apply elem_of_app. right. by left. }
    unfold collect_disable_key. apply wp_bind, wp_mgets. rewrite A3, Hr by done. destruct (Hn _ _ Hr) as (u & Hu & <-).
    apply wp_bind, (wp_ui_get r u); [by rewrite A1|]. apply wp_bind, finish_unit_spec. intros s2 B1 B2 B3 B4. apply wp_ret.
    split_and!; [congruence..|set_solver|]. intros n Hx. rewrite B4. cbn. rewrite lookup_delete_ne by set_solver. apply A3. set_solver.
  - intros s' N (_ & -> & -> & _). split; [done|]. f_equal. apply set_eq. intros n. rewrite elem_of_list_to_set, elem_of_dom. apply elem_of_hm_keys.
Qed.
(** A link that has the name of one of the units or leads to its file; a link whose target
    has no name is never looked at. *)
Definition of_units (N : gset string) (p t : string) : Prop :=
  ∃ ln, file_name t = Some ln ∧ (ln ∈ N ∨ ∃ n, file_name p = Some n ∧ n ∈ N).
Definition removes (N : gset string) (ps : list string) (m m' : gmap string string) : Prop :=
  ∀ p t, m' !! p = Some t ↔ m !! p = Some t ∧ ¬ (p ∈ ps ∧ of_units N p t).
Lemma removes_skip N ps p m m' : removes N ps m m' → (∀ t, m' !! p = Some t → ¬ of_units N p t) → removes N (ps ++ [p]) m m'.
Proof.
  intros H Hp q t. rewrite (H q t). split; intros [Hm Hn]; split; try done.
  - intros [[Hq|Hq%list_elem_of_singleton]%elem_of_app Ho]; [by apply Hn|]. subst q. apply (Hp t); [by apply H|done].
  - intros [Hq Ho]. apply Hn. split; [|done]. apply elem_of_app. by left.
Qed.
Lemma removes_one N ps p t m m' : removes N ps m m' → m' !! p = Some t → of_units N p t → removes N (ps ++ [p]) m (delete p m').
Proof.
  intros H Hp Ho q x. rewrite lookup_delete_Some, (H q x), elem_of_app, list_elem_of_singleton. split.
  - intros (Hne & Hm & Hn). split; [done|]. intros [[Hq|Hq] Hx]; [by apply Hn|congruence].
  - intros (Hm & Hn). destruct (decide (p = q)) as [<-|Hne]; [|split_and!; [done..|tauto]].
    apply H in Hp as [Hp _]. simplify_eq. destruct Hn. by split; [right|].
Qed.
Definition links_of (l : list (option WalkEntry)) : list string := we_path <$> filter (λ w, we_is_symlink w = true) (omap id l).
Lemma links_of_app l k : links_of (l ++ k) = links_of l ++ links_of k.
Proof. unfold links_of. by rewrite omap_app, filter_app, fmap_app. Qed.
Lemma wp_remove_symlink N w s : utf8_links (in_links (in_sys s)) → clean (we_path w) → file_name (we_path w) = Some (we_name w) → utf8 (chars (we_name w)) = true →
  we_is_symlink w = true →
  wp (remove_symlink N (Some w)) s (λ s' _, ∃ e, s' = set_in_sys e s ∧
    ((in_links e = in_links (in_sys s) ∧ ∀ t, in_links (in_sys s) !! we_path w = Some t → ¬ of_units N (we_path w) t)
     ∨ ∃ t, in_links (in_sys s) !! we_path w = Some t ∧ of_units N (we_path w) t ∧ in_links e = delete (we_path w) (in_links (in_sys s)))).
Proof.
  intros Hul Hc Hf Hu Hl. set (p := we_path w) in *. assert (∃ e, s = set_in_sys e s ∧ in_links e = in_links (in_sys s)) as (e & He & Hel) by (exists (in_sys s); by destruct s).
  unfold remove_symlink. rewrite Hl. cbn [negb]. apply wp_bind, wp_in_ask. fold p. rewrite in_read_link_links by done.
  assert ((∀ t, in_links (in_sys s) !! p = Some t → ¬ of_units N p t) → wp (mret tt) s (λ s' _, ∃ e, s' = set_in_sys e s ∧
    ((in_links e = in_links (in_sys s) ∧ ∀ t, in_links (in_sys s) !! p = Some t → ¬ of_units N p t)
     ∨ ∃ t, in_links (in_sys s) !! p = Some t ∧ of_units N p t ∧ in_links e = delete p (in_links (in_sys s))))) as Hskip.
  { intros Hno. apply wp_ret. exists e. split; [done|by left]. }
  destruct (in_links (in_sys s) !! p) as [t|] eqn:Ht; cbn [mbind option_bind]; [|by apply Hskip].
  destruct (file_name t) as [ln|] eqn:Hln; [|apply Hskip; intros t' [= <-] (ln & ? & _); congruence].
  apply wp_bind, wp_massert. split; [by eapply Hul|].
  set (hit := bool_decide (ln ∈ N ∨ we_name w ∈ N)). apply wp_bind.
  eapply (wp_mono _ _ (λ s' b, s' = s ∧ b = hit)).
  { case_decide as Hd; [apply wp_ret; split; [done|]; symmetry; apply bool_decide_eq_true; by left|].
    apply wp_bind, wp_massert. split; [done|]. apply wp_ret. split; [done|]. apply bool_decide_ext. tauto. }
  intros s' b [-> ->]. unfold hit. case_bool_decide as Hb; cbn [mwhen].
  - apply wp_bind, wp_in_call, wp_ret. eexists. split; [done|]. right. exists t. split_and!; [done| |by apply in_unlink_links].
    exists ln. split; [done|]. destruct Hb; [by left|right; by exists (we_name w)].
  - apply Hskip. intros t' [= <-] (ln' & Hln' & Ho). apply Hb. rewrite Hln in Hln'. simplify_eq.
    destruct Ho as [?|(n & Hn & ?)]; [by left|right]. rewrite Hf in Hn. by simplify_eq.
Qed.

Lemma wp_remove_symlinks N d s : clean d → utf8_links (in_links (in_sys s)) →
  wp (remove_symlinks N d) s (λ s' _, ∀ p t, in_links (in_sys s') !! p = Some t ↔
    in_links (in_sys s) !! p = Some t ∧ ¬ (below d p ∧ of_units N p t)).
Proof.
  intros Hd Hul. unfold remove_symlinks. apply wp_bind, wp_in_ask. set (l := in_walk _ d _).
  apply (wp_mforeach (λ dn s', removes N (links_of dn) (in_links (in_sys s)) (in_links (in_sys s')))).
  - intros p t. split; [intros ?; split; [done|]; by intros [?%elem_of_nil _]|by intros [? _]].
  - intros dn [w|] rest s' Hl Hr; [|rewrite links_of_app; cbn; by rewrite app_nil_r].
    destruct (we_is_symlink w) eqn:Hw.
    + destruct (in_walk_sound d (in_sys s) w) as (Hb & _ & Hf); [done| |done|].
      { change (Some w ∈ l). rewrite Hl. apply elem_of_app. right. by left. }
      eapply wp_mono; [apply wp_remove_symlink; [|by eapply below_clean|done|by eapply below_utf8|done]|].
      { intros p t g Hp. apply (Hul p t). by apply Hr in Hp as [Hp _]. }
      intros s2 ? (e & -> & He). rewrite links_of_app. unfold links_of at 2. cbn [omap list_omap id]. rewrite filter_cons_True by done.
      cbn. destruct He as [[-> Hno]|(t & Ht & Ho & ->)]; [by apply removes_skip|by eapply removes_one].
    + unfold remove_symlink. rewrite Hw. apply wp_ret. rewrite links_of_app. unfold links_of at 2. cbn [omap list_omap id].
      rewrite filter_cons_False by congruence. cbn. by rewrite app_nil_r.
  - intros s' Hr p t. rewrite (Hr p t). split; intros [Hp Hn]; (split; [done|]); intros [Hx Ho]; apply Hn; (split; [|done]).
    + destruct (in_walk_complete d (in_sys s) p) as (w & Hw & Hs & <-); [done|by eexists|done|].
      apply list_elem_of_fmap_2, list_elem_of_filter. split; [done|]. apply list_elem_of_omap. by exists (Some w).
    + apply list_elem_of_fmap in Hx as (w & -> & [Hs Hw]%list_elem_of_filter). apply list_elem_of_omap in Hw as ([w'|] & Hw & [= ->]).
      by eapply in_walk_sound.
Qed.

(** ** From the request to the links *)

(** The units that the discovery of a file finds. *)
Definition discovered (fuel : nat) (c : Ctx) (l : LookupPaths) (f : string) (e : E) : gmap string UnitInstall :=
  match unit_install_discover fuel c f (Install_new PresetMode.Disable l e) with
  | Returned (s, _) => found c s | _ => ∅
  end.
Lemma wp_discover U fuel c l f e : plain_files U → f ∈ U → (size U < fuel)%nat →
  wp (unit_install_discover fuel c f) (Install_new PresetMode.Disable l e) (λ s res, res = Ok tt
    ∧ found c s = discovered fuel c l f e ∧ is_Some (found c s !! f) ∧ units_ok c ∅ s ∧ units_named c s
    ∧ in_links (in_sys s) = in_links e ∧ in_lookup_path s = l).
Proof.
  intros HU Hf Hsz. set (s0 := Install_new PresetMode.Disable l e).
  assert (units_ok c ∅ s0) as Hok0. { split; [destruct c; intros n r Hr; unfold unit_install in Hr; cbn in Hr; by rewrite lookup_empty in Hr|done..]. }
  assert (pending U c s0 < fuel)%nat as Hp.
  { eapply Nat.le_lt_trans; [|exact Hsz]. apply subseteq_size. intros n [_ ?]%elem_of_filter. done. }
  pose proof (discover_ends U fuel c HU ∅ f s0 Hf Hok0 Hp) as Hw. apply wp_returns in Hw as (s & res & Hrun & -> & Hok & HG & Hin).
  unfold wp, discovered. fold s0. rewrite Hrun.
  assert (processed (ctx_of c s) = ∅) as Hpr by (rewrite (gr_processed _ _ _ HG); by destruct c).
  assert (∀ n, unit_install n (ctx_of c s) = will_process (ctx_of c s) !! n) as Hwill by (intros n; unfold unit_install; by rewrite Hpr).
  assert (units_named c s) as Hnamed. { intros n r Hr. apply (uk_named _ _ _ Hok). by rewrite Hwill. }
  split_and!; [done..| |done|done|apply HG|apply HG]. rewrite Hwill in Hin. destruct Hin as [r Hr].
  destruct (Hnamed _ _ Hr) as (u & Hu & _). exists u. apply lookup_found. eauto.
Qed.
Lemma found_unit c s n u : units_ok c ∅ s → units_named c s → found c s !! n = Some u → ui_name u = n ∧ unit_ok u ∧ settled u.
Proof.
  intros Hok Hn (r & Hr & Hu)%lookup_found. destruct (Hn _ _ Hr) as (u' & Hu' & Hname). simplify_eq.
  split_and!; [done|by eapply uk_unit|]. apply (uk_settled _ _ _ Hok r); [done|]. apply not_elem_of_empty.
Qed.
Lemma dom_found c s : units_named c s → dom (found c s) = dom (will_process (ctx_of c s)).
Proof.
  intros Hn. apply set_eq. intros n. rewrite !elem_of_dom. split.
  - intros [u (r & ? & _)%lookup_found]. by eexists.
  - intros [r Hr]. destruct (Hn _ _ Hr) as (u & ? & _). exists u. apply lookup_found. eauto.
Qed.

Lemma wp_with_install {A} mode l (m : M (InstallSt E) A) e (Q : E → A → Prop) :
  wp (with_install mode l m) e Q ↔ wp m (Install_new mode l e) (λ s a, Q (in_sys s) a).
Proof. unfold wp, with_install. by destruct (m _) as [[s a]| |]. Qed.
Section request.
Context (U : gset string) (fuel : nat) (l : LookupPaths) (f : string) (e : E).
Context (HU : plain_files U) (Hf : f ∈ U) (Hfuel : (size U < fuel)%nat) (Hd : clean (persistent_path l)).
Abbreviation d := (persistent_path l).

Lemma wanted_clean u p : unit_ok u → p ∈ wanted d u → below d p ∧ clean p.
Proof. intros (_ & Hn & Ha) Hp. pose proof (wanted_below d u p Hn Ha Hp). split; [done|by eapply below_clean]. Qed.
Lemma wp_unit_enable_files : wp (unit_enable_files fuel f) (Install_new PresetMode.Disable l e) (λ s res, res = Ok tt
  ∧ f ∈ dom (discovered fuel EnableCtx l f e)
  ∧ enabled d (discovered fuel EnableCtx l f e) (in_links e) (in_links (in_sys s))
  ∧ ∀ n u, discovered fuel EnableCtx l f e !! n = Some u → ui_name u = n ∧ unit_ok u ∧ settled u).
Proof.
  unfold unit_enable_files. apply wp_bind, wp_mget, wp_mtry. eapply wp_mono; [by apply (wp_discover U fuel EnableCtx)|].
  intros s ? (-> & Hdi & Hin & Hok & Hn & Hl & _). rewrite <- Hdi. apply wp_bind. unfold install_symlinks. cbn [in_lookup_path Install_new].
  pose proof (λ n u Hu, found_unit EnableCtx s n u Hok Hn Hu) as Hunits.
  eapply wp_mono; [apply wp_apply_enable|].
  - intros n u Hu. apply Forall_forall. intros p Hp. eapply wanted_clean; [|done]. by eapply Hunits.
  - intros n r Hr. destruct (Hn _ _ Hr) as (u & Hu & _). by eexists.
  - intros s' ? He. rewrite Hl in He. apply wp_ret. split_and!; [done|by apply elem_of_dom|done..].
Qed.
Lemma wp_disable_unit : utf8_links (in_links e) → wp (disable_unit fuel l f) e (λ e' res, res = Ok tt
  ∧ f ∈ dom (discovered fuel DisableCtx l f e)
  ∧ ∀ p t, in_links e' !! p = Some t ↔ in_links e !! p = Some t ∧ ¬ (below d p ∧ of_units (dom (discovered fuel DisableCtx l f e)) p t)).
Proof.
  intros Hul. unfold disable_unit. apply wp_with_install. unfold unit_disable_files. apply wp_bind, wp_mget, wp_mtry.
  eapply wp_mono; [by apply (wp_discover U fuel DisableCtx)|].
  intros s ? (-> & Hdi & Hin & Hok & Hn & Hl & _). rewrite <- Hdi. apply wp_bind. unfold disable_symlinks. cbn [in_lookup_path Install_new].
  apply wp_bind. eapply wp_mono; [by apply wp_collect_disable|]. intros s1 N (Hs1 & ->).
  eapply wp_mono; [apply wp_remove_symlinks; [done|by rewrite Hs1, Hl]|]. intros s2 ? Hr. apply wp_ret. split_and!; [done|by apply elem_of_dom|].
  intros p t. rewrite (Hr p t), Hs1, Hl, dom_found, (left_id_L ∅ (∪)) by done. done.
Qed.
End request.


End facts.

(** ** A sample: a service and a socket that name each other *)
Lemma split_char_abs cs : Forall plain cs → cs ≠ [] → split_char "/"%char (abs cs) = ""%string :: cs.
Proof.
  assert (∀ c cs, Forall plain (c :: cs) → of_chars <$> split_on (Ascii.eqb "/"%char) [] (chars (c ++ abs cs)) = c :: cs) as Hgo.
  { clear cs. intros c cs. revert c. induction cs as [|c' cs IH]; intros c (Hc & Hcs)%Forall_cons; destruct Hc as (_ & _ & _ & Hc & _).
    - cbn [abs]. by rewrite string_app_nil, split_slash_plain, list_fmap_singleton, of_chars_chars.
    - cbn [abs]. rewrite chars_app. change (chars ("/" ++ c' ++ abs cs)) with ("/"%char :: chars (c' ++ abs cs)).
      rewrite split_on_app by done. rewrite (split_slash_plain c) by done. rewrite fmap_app, IH by done.
      by rewrite list_fmap_singleton, of_chars_chars. }
  intros Hcs Hne. destruct cs as [|c cs]; [done|]. cbn [abs]. unfold split_char.
  change (chars ("/" ++ c ++ abs cs)) with ("/"%char :: chars (c ++ abs cs)). cbn [split_on Ascii.eqb Bool.eqb rev].
  rewrite fmap_cons. by rewrite Hgo.
Qed.
Definition belowb (d p : string) : bool :=
  match str_strip_prefix d p with
  | Some rest => let cs := tail (split_char "/"%char rest) in bool_decide (cs ≠ [] ∧ Forall plain cs ∧ rest = abs cs)
  | None => false
  end.
Lemma strip_prefix_inv a p r : str_strip_prefix a p = Some r → p = (a ++ r)%string.
Proof.
  unfold str_strip_prefix. case_decide as Hd; [|done]. intros [= <-].
  rewrite <- (of_chars_chars (a ++ _)%string), chars_app, chars_of_chars. rewrite <- Hd at 1. by rewrite take_drop, of_chars_chars.
Qed.
Lemma belowb_below d p : belowb d p = true ↔ below d p.
Proof.
  unfold belowb. split.
  - destruct (str_strip_prefix d p) as [rest|] eqn:Hp; [|done]. intros (Hne & Hcs & Hr)%bool_decide_eq_true.
    exists (tail (split_char "/"%char rest)). split_and!; [done..|]. rewrite <- Hr. by apply strip_prefix_inv.
  - intros (cs & Hne & Hcs & ->). rewrite strip_prefix_app, split_char_abs by done. cbn [tail]. by apply bool_decide_eq_true.
Qed.
#[local] Existing Instance hash_iter_canonical.
#[local] Existing Instance insertion_sort_sorts.
(** A pattern that matches itself or everything. *)
#[local] Instance glob_sample : Patterns := {| glob_match p v := Some (bool_decide (p = v ∨ p = "*"%string)); regex_match p v := None |}.
Definition in_files : list string := ["/usr/lib/sysmaster/a.service"; "/usr/lib/sysmaster/a.socket"]%string.
Definition service_config : UeConfigInstall :=
  {| Alias := ["b.service"%string]; WantedBy := ["multi.target"%string]; RequiredBy := []; Also := ["a.socket"%string] |}.
Definition socket_config : UeConfigInstall :=
  {| Alias := []; WantedBy := ["sockets.target"%string]; RequiredBy := []; Also := ["a.service"%string] |}.
(** What a path leads to; the links are all that changes. *)
Definition in_target (p : string) (e : gmap string string) : option string :=
  if decide (p ∈ in_files) then Some p else
  t ← e !! p; if decide (t ∈ "/dev/null"%string :: in_files) then Some t else None.
#[local] Instance install_sample : InstallFs (gmap string string) := {|
  in_is_dir p e := bool_decide (p = "/usr/lib/sysmaster"%string);
  in_is_file p e := bool_decide (p ∈ in_files);
  in_is_symlink p e := bool_decide (is_Some (e !! p));
  in_exists p e := is_some (in_target p e) && utf8 (chars p);
  in_read_dir p e := if decide (p = "/usr/lib/sysmaster"%string) then Some (Some <$> in_files) else None;
  in_metadata p e := match in_target p e with
                     | Some q => Some {| md_is_file := bool_decide (q ∈ in_files); md_is_symlink := false; md_len := if decide (q ∈ in_files) then 10 else 0 |}
                     | None => None end;
  in_canonicalize p e := in_target p e;
  in_copy p q e := (e, bool_decide (p ∈ in_files));
  in_load files e := match head files with
                     | Some f => if decide (f = "/usr/lib/sysmaster/a.service.toml"%string) then Some service_config
                                 else if decide (f = "/usr/lib/sysmaster/a.socket.toml"%string) then Some socket_config else None
                     | None => None end;
  in_create_dir_all p e := (e, None);
  in_symlink t p e := match e !! p with Some _ => (e, false) | None => (<[p:=t]> e, true) end;
  in_walk f d e := Some <$> filter (λ w, f w = true)
    ((λ kv : string * string, {| we_path := kv.1; we_name := default ""%string (file_name kv.1); we_is_file := false; we_is_symlink := true |})
     <$> filter (λ kv : string * string, belowb d kv.1 = true) (map_to_list e));
  in_read_link p e := e !! p;
  in_unlink p e := (delete p e, bool_decide (is_Some (e !! p)));
  in_lines p e := None |}.
#[local] Instance install_sample_laws : InstallLaws (gmap string string).
Proof.
  refine {| in_links e := e |}; try done.
  - intros t p e _. cbn. by destruct (e !! p).
  - intros d e w _ Hw _. cbn in Hw. apply list_elem_of_fmap in Hw as (w' & [= <-] & Hw). apply list_elem_of_filter in Hw as [_ Hw].
    apply list_elem_of_fmap in Hw as ([p t] & -> & [Hb Hm%elem_of_map_to_list]%list_elem_of_filter). cbn [fst snd we_path we_name] in *.
    apply belowb_below in Hb. split_and!; [done|by eexists|]. by destruct (below_file_name _ _ Hb) as (c & _ & ->).
  - intros d e p _ [t Ht] Hb. set (w := {| we_path := p; we_name := default ""%string (file_name p); we_is_file := false; we_is_symlink := true |}).
    exists w. split; [|done]. apply list_elem_of_fmap_2, list_elem_of_filter. split; [done|].
    apply list_elem_of_fmap. exists (p, t). split; [done|]. apply list_elem_of_filter. split; [by apply belowb_below|by apply elem_of_map_to_list].
  - intros path m c q e Hm Hc Hcopy. cbn in *. rewrite Hc in Hm. by simplify_eq.
  - intros p e He. by apply andb_true_iff in He as [_ ?].
  - intros d e l p Hl Hp. cbn [in_read_dir install_sample] in Hl. destruct (decide _); [|done]. assert (l = Some <$> in_files) as -> by congruence.
    apply list_elem_of_fmap in Hp as (q & [= ->] & Hq).
    assert (Forall (λ q, match file_name q with Some f => utf8 (chars f) = true | None => False end) in_files) as Hall by by repeat constructor.
    rewrite Forall_forall in Hall. specialize (Hall q Hq). destruct (file_name q) as [f|]; [by exists f|done].
Defined.
Definition in_paths : LookupPaths :=
  {| search_path := [LIB_SYSTEM_PATH; RUN_SYSTEM_PATH; ETC_SYSTEM_PATH]; preset_path := []; persistent_path := ETC_SYSTEM_PATH |}.
Definition in_names : gset string := {["a.service"; "a.socket"]}%string.
Definition in_before : gmap string string := {["/etc/sysmaster/multi.target.wants/c.service"%string := "/usr/lib/sysmaster/c.service"%string]}.
Lemma in_names_plain : plain_files in_names.
Proof.
  assert (∀ n, n ∈ in_names → plain n) as Hn.
  { intros n. unfold in_names. rewrite elem_of_union, !elem_of_singleton. intros [->| ->]; by apply (bool_decide_eq_true_1 _); vm_compute. }
  split; [done|]. intros files e cfg Hl. cbn in Hl. destruct (head files) as [f|]; [|done].
  repeat case_decide; simplify_eq; (split; [intros a ->%list_elem_of_singleton; by apply (bool_decide_eq_true_1 _); vm_compute|]);
    by apply (bool_decide_eq_true_1 _); vm_compute.
Qed.
Lemma in_paths_clean : clean (persistent_path in_paths).
Proof. exists ["etc"; "sysmaster"]%string. split; [by apply (bool_decide_eq_true_1 _); vm_compute|done]. Qed.
(** A unit that is masked, by a link to /dev/null, is enabled all the same. *)
Example masked_unit_enabled :
  let masked := {["/etc/sysmaster/a.service" := "/dev/null"]}%string in
  run_state (enable_unit 9 in_paths "a.service"%string) masked !! "/etc/sysmaster/multi.target.wants/a.service"%string
    = Some "/usr/lib/sysmaster/a.service"%string.
Proof. by vm_compute. Qed.
(** The first rule that matches decides; without one the unit is disabled. *)
Lemma preset_first_match l rule l' n : (∀ r, r ∈ l → glob_match (pr_unit r) n ≠ Some true) → glob_match (pr_unit rule) n = Some true →
  unit_preset_action {| rules := l ++ rule :: l' |} n = pr_action rule.
Proof.
  unfold unit_preset_action. cbn. intros Hl Hr. induction l as [|x l IH]; cbn; [by rewrite decide_True|].
  rewrite decide_False by (apply Hl; by left). apply IH. intros r ?. apply Hl. by right.
Qed.
