(* ===== verification/UmFacts.v ===== *)
(** * The store of the unit manager: its invariant

    [um_ok]: the tables of [UnitRe] hold what the entries hold, the queues hold
    the units that are marked as queued, the watched processes are those of their
    units, and the dependency graph is that of [UnitDb].  The operations of
    [UmStore] keep it. *)
From S2P Require Import Prelude UnitTypes Relation ReDb UnitDb UnitDbFacts RateLimit UnitEntry UnitFile ExecParams UnitIf UmStore UmLoad.
Local Open Scope Z_scope.

Lemma redb_get_insert {K V} `{Countable K} (k k' : K) (v : V) r : redb_ignore r = false →
  redb_get k' (redb_insert k v r) = if decide (k' = k) then Some v else redb_get k' r.
Proof.
  intros Hi. unfold redb_get. rewrite redb_insert_cache, lookup_insert by done.
  repeat case_decide; congruence.
Qed.
Lemma redb_contains_get {K V} `{Countable K} (k : K) (r : ReDb K V) v :
  redb_get k r = Some v → redb_contains_key k r = true.
Proof. intros Hk. apply bool_decide_eq_true. by exists v. Qed.
Lemma alter_insert_Some {K A} `{Countable K} (f : A → A) (m : gmap K A) k x :
  m !! k = Some x → alter f k m = <[k:=f x]> m.
Proof.
  intros Hk. apply map_eq. intros j. rewrite lookup_insert. case_decide; simplify_eq.
  - by rewrite lookup_alter_eq, Hk.
  - by rewrite lookup_alter_ne.
Qed.

Definition pps_of (x : UeUnit) : Z :=
  pps_union (if ue_in_load x then QUEUE_LOAD else 0) (if ue_in_target x then QUEUE_TARGET_DEPS else 0).

(** What the tables hold of a unit.  [IgnoreOnIsolate] can be changed without being
    saved, so the saved configuration is that of the unit up to it. *)
Record row_ok (r : UnitReX) (u : UnitId) (x : UeUnit) : Prop := {
  row_load : redb_get u (rx_load r) = Some (ue_load_state x);
  row_conf : ∃ c, redb_get u (rx_conf r) = Some (c, ue_install x)
    ∧ with_ignore_on_isolate false c = with_ignore_on_isolate false (ue_config x);
  row_cgroup : redb_get u (rx_cgroup r) = Some (ue_cg_path x);
  row_child : ∃ l, redb_get u (rx_child r) = Some l ∧ ∀ p, p ∈ l ↔ p ∈ ue_pids x;
  row_pps : redb_get u (rx_pps r) = Some (pps_of x);
}.
(** The tables are writable, and hold the same units. *)
Record live (r : UnitReX) : Prop := {
  live_load : redb_ignore (rx_load r) = false;
  live_conf : redb_ignore (rx_conf r) = false;
  live_cgroup : redb_ignore (rx_cgroup r) = false;
  live_child : redb_ignore (rx_child r) = false;
  live_pps : redb_ignore (rx_pps r) = false;
}.
(** [r'] is [r] but for the rows of [u]. *)
Record same_rows (u : UnitId) (r r' : UnitReX) : Prop := {
  sr_load v : v ≠ u → redb_get v (rx_load r') = redb_get v (rx_load r);
  sr_conf v : v ≠ u → redb_get v (rx_conf r') = redb_get v (rx_conf r);
  sr_cgroup v : v ≠ u → redb_get v (rx_cgroup r') = redb_get v (rx_cgroup r);
  sr_child v : v ≠ u → redb_get v (rx_child r') = redb_get v (rx_child r);
  sr_pps v : v ≠ u → redb_get v (rx_pps r') = redb_get v (rx_pps r);
}.
Lemma same_rows_refl u r : same_rows u r r.
Proof. by split. Qed.
Lemma same_rows_trans u r1 r2 r3 : same_rows u r1 r2 → same_rows u r2 r3 → same_rows u r1 r3.
Proof.
  intros [A1 A2 A3 A4 A5] [B1 B2 B3 B4 B5].
  split; intros v Hv; [rewrite B1, A1|rewrite B2, A2|rewrite B3, A3|rewrite B4, A4|rewrite B5, A5]; done.
Qed.
Lemma row_ok_same u v r r' x : same_rows u r r' → v ≠ u → row_ok r v x → row_ok r' v x.
Proof.
  intros [H1 H2 H3 H4 H5] Hv [R1 R2 R3 R4 R5].
  by split; rewrite ?H1, ?H2, ?H3, ?H4, ?H5.
Qed.

(** One table is written. *)
Ltac write_row := intros []; split; split; simpl; try done; [by rewrite redb_insert_ignore|];
  intros ? ?; by rewrite redb_get_insert, decide_False.
Lemma write_load r u v : live r → let r' := set_rx_load (redb_insert u v (rx_load r)) r in
  live r' ∧ same_rows u r r'.
Proof. write_row. Qed.
Lemma write_conf r u v : live r → let r' := set_rx_conf (redb_insert u v (rx_conf r)) r in
  live r' ∧ same_rows u r r'.
Proof. write_row. Qed.
Lemma write_cgroup r u v : live r → let r' := set_rx_cgroup (redb_insert u v (rx_cgroup r)) r in
  live r' ∧ same_rows u r r'.
Proof. write_row. Qed.
Lemma write_child r u v : live r → let r' := set_rx_child (redb_insert u v (rx_child r)) r in
  live r' ∧ same_rows u r r'.
Proof. write_row. Qed.
Lemma write_pps r u v : live r → let r' := set_rx_pps (redb_insert u v (rx_pps r)) r in
  live r' ∧ same_rows u r r'.
Proof. write_row. Qed.

Section facts.
Context `{HI : !HashIter} {E : Type}.
Implicit Types (s : UM E) (u v : UnitId) (x : UeUnit).

Record unit_ok (s : UM E) (u : UnitId) (x : UeUnit) : Prop := {
  uo_base : redb_get u (re_base (um_re s)) = Some (ue_type x);
  uo_type : ue_type x = unit_name_to_type u ∧ ue_type x ≠ UnitTypeInvalid;
  uo_row : row_ok (um_rex s) u x;
}.
(** The tables and the entries agree. *)
Record tables_ok (s : UM E) : Prop := {
  to_live : live (um_rex s);
  to_base : redb_ignore (re_base (um_re s)) = false;
  to_units : ∀ u x, um_units s !! u = Some x → unit_ok s u x;
  to_keys : ∀ u, is_Some (redb_get u (re_base (um_re s))) → is_Some (um_units s !! u);
  to_child_keys : ∀ u, is_Some (redb_get u (rx_child (um_rex s))) → is_Some (um_units s !! u);
  to_pps_keys : ∀ u, is_Some (redb_get u (rx_pps (um_rex s))) → is_Some (um_units s !! u);
}.

(** A change of the entry of [u] and of its rows. *)
Definition stepped (u : UnitId) (x : UeUnit) (s s' : UM E) : Prop :=
  (∃ r, s' = set_um_rex r (set_um_units (<[u:=x]> (um_units s)) s)) ∧ tables_ok s'.
Lemma stepped_intro u x x' r s : tables_ok s → um_units s !! u = Some x → ue_type x' = ue_type x →
  live r ∧ same_rows u (um_rex s) r → row_ok r u x' →
  stepped u x' s (set_um_rex r (set_um_units (<[u:=x']> (um_units s)) s)).
Proof.
  intros [Hl Hb Hu Hk Hck Hpk] Hx Ht [Hlr Hsr] Hrow. split; [by eexists|].
  assert (∀ v, is_Some (um_units s !! v) → is_Some (<[u:=x']> (um_units s) !! v)) as Hin.
  { intros v. rewrite lookup_insert. by case_decide. }
  destruct (Hu _ _ Hx) as [Hb1 Ht1 Hr1]. split; simpl; try done.
  - intros v y. rewrite lookup_insert. case_decide as Hv; [subst v; intros [= <-]|].
    + by split; simpl; rewrite ?Ht.
    + intros Hy. destruct (Hu _ _ Hy) as [Hb2 Ht2 Hr2]. split; simpl; [done..|].
      eapply row_ok_same; [exact Hsr|congruence|done].
  - intros v Hv. by apply Hin, Hk.
  - intros v Hv. destruct (decide (v = u)) as [->|Hne]; [rewrite lookup_insert_eq; by eexists|].
    apply Hin, Hck. by rewrite (sr_child _ _ _ Hsr v Hne) in Hv.
  - intros v Hv. destruct (decide (v = u)) as [->|Hne]; [rewrite lookup_insert_eq; by eexists|].
    apply Hin, Hpk. by rewrite (sr_pps _ _ _ Hsr v Hne) in Hv.
Qed.

Lemma wp_ue_get u x s (Q : UM E → UeUnit → Prop) : um_units s !! u = Some x → Q s x → wp (ue_get u) s Q.
Proof. intros Hx HQ. unfold ue_get. apply wp_bind, wp_mget, wp_munwrap. eauto. Qed.
Lemma wp_rest_do f s (Q : UM E → unit → Prop) :
  wp (rest_do f) s Q ↔ Q (set_um_rest (f (um_rest s)) s) tt.
Proof. done. Qed.
Lemma wp_rest_call {A} (f : E → E * A) s (Q : UM E → A → Prop) :
  wp (rest_call f) s Q ↔ Q (set_um_rest (f (um_rest s)).1 s) (f (um_rest s)).2.
Proof. done. Qed.
Lemma wp_ue_modify u f x s (Q : UM E → unit → Prop) : um_units s !! u = Some x →
  Q (set_um_units (<[u:=f x]> (um_units s)) s) tt → wp (ue_modify u f) s Q.
Proof. intros Hx HQ. unfold ue_modify. apply wp_mmodify. by rewrite (alter_insert_Some _ _ _ _ Hx). Qed.
Lemma wp_base_contains u s (Q : UM E → unit → Prop) :
  is_Some (redb_get u (re_base (um_re s))) → Q s tt → wp (base_contains u) s Q.
Proof.
  intros [t Ht] HQ. unfold base_contains. apply wp_bind, wp_mget, wp_massert.
  split; [by eapply redb_contains_get|done].
Qed.

(** An operation that changes the entry, then writes one of its rows. *)
Lemma wp_step u f (w : UnitReX → UnitReX) x s : tables_ok s → um_units s !! u = Some x →
  ue_type (f x) = ue_type x → live (w (um_rex s)) ∧ same_rows u (um_rex s) (w (um_rex s)) →
  row_ok (w (um_rex s)) u (f x) →
  wp (ue_modify u f;; base_contains u;; rx_modify w) s (λ s' _, stepped u (f x) s s').
Proof.
  intros Hok Hx Ht Hw Hrow. apply wp_bind. eapply wp_ue_modify; [done|]. apply wp_bind.
  apply wp_base_contains; [simpl; rewrite (uo_base _ _ _ (to_units _ Hok _ _ Hx)); by eexists|].
  unfold rx_modify. apply wp_mmodify. simpl. by eapply stepped_intro.
Qed.
Lemma to_row s u x : tables_ok s → um_units s !! u = Some x → row_ok (um_rex s) u x.
Proof. intros Hok Hx. apply uo_row, to_units; done. Qed.

Lemma wp_set_load_state u st x s : tables_ok s → um_units s !! u = Some x →
  wp (set_load_state u st) s (λ s' _, stepped u (set_ue_load_state st x) s s').
Proof.
  intros Hok Hx. destruct (to_row _ _ _ Hok Hx) as [R1 R2 R3 R4 R5].
  apply (wp_step u _ (λ r, set_rx_load (redb_insert u st (rx_load r)) r) x); try done.
  - apply write_load, to_live, Hok.
  - split; simpl; try done. rewrite redb_get_insert by apply (live_load _ (to_live _ Hok)).
    by rewrite decide_True.
Qed.

(** The bits of the queues. *)
Lemma pps_of_load b x : pps_of (set_ue_in_load b x)
  = if b then pps_union (pps_of x) QUEUE_LOAD else pps_minus (pps_of x) QUEUE_LOAD.
Proof. unfold pps_of. destruct b; simpl; by destruct (ue_in_load x), (ue_in_target x). Qed.
Lemma pps_of_target b x : pps_of (set_ue_in_target b x)
  = if b then pps_union (pps_of x) QUEUE_TARGET_DEPS else pps_minus (pps_of x) QUEUE_TARGET_DEPS.
Proof. unfold pps_of. destruct b; simpl; by destruct (ue_in_load x), (ue_in_target x). Qed.
Lemma pps_row u x x' s : tables_ok s → um_units s !! u = Some x →
  row_ok (um_rex s) u x →
  ue_load_state x' = ue_load_state x → ue_config x' = ue_config x → ue_install x' = ue_install x →
  ue_cg_path x' = ue_cg_path x → ue_pids x' = ue_pids x →
  row_ok (set_rx_pps (redb_insert u (pps_of x') (rx_pps (um_rex s))) (um_rex s)) u x'.
Proof.
  intros Hok Hx [R1 R2 R3 R4 R5] E1 E2 E3 E4 E5. split; simpl; rewrite ?E1, ?E2, ?E3, ?E4, ?E5; try done.
  rewrite redb_get_insert by apply (live_pps _ (to_live _ Hok)). by rewrite decide_True.
Qed.
Lemma wp_set_in_load_queue u b x s : tables_ok s → um_units s !! u = Some x →
  wp (set_in_load_queue u b) s (λ s' _, stepped u (set_ue_in_load b x) s s').
Proof.
  intros Hok Hx. pose proof (to_row _ _ _ Hok Hx) as Hr. pose proof (row_pps _ _ _ Hr) as R5.
  pose proof (pps_row u x (set_ue_in_load b x) s Hok Hx Hr eq_refl eq_refl eq_refl eq_refl eq_refl) as Hrow.
  rewrite pps_of_load in Hrow. unfold set_in_load_queue.
  destruct b; (eapply wp_step; [done..|apply write_pps, to_live, Hok|]); unfold pps_get; by rewrite R5.
Qed.
Lemma wp_set_in_target_dep_queue u b x s : tables_ok s → um_units s !! u = Some x →
  wp (set_in_target_dep_queue u b) s (λ s' _, stepped u (set_ue_in_target b x) s s').
Proof.
  intros Hok Hx. pose proof (to_row _ _ _ Hok Hx) as Hr. pose proof (row_pps _ _ _ Hr) as R5.
  pose proof (pps_row u x (set_ue_in_target b x) s Hok Hx Hr eq_refl eq_refl eq_refl eq_refl eq_refl) as Hrow.
  rewrite pps_of_target in Hrow. unfold set_in_target_dep_queue.
  destruct b; (eapply wp_step; [done..|apply write_pps, to_live, Hok|]); unfold pps_get; by rewrite R5.
Qed.

(** The same, with the entry read back. *)
Lemma wp_step_get u f (w : UeUnit → UnitReX → UnitReX) x s : tables_ok s → um_units s !! u = Some x →
  ue_type (f x) = ue_type x →
  live (w (f x) (um_rex s)) ∧ same_rows u (um_rex s) (w (f x) (um_rex s)) →
  row_ok (w (f x) (um_rex s)) u (f x) →
  wp (ue_modify u f;; y ← ue_get u; base_contains u;; rx_modify (w y)) s (λ s' _, stepped u (f x) s s').
Proof.
  intros Hok Hx Ht Hw Hrow. apply wp_bind. eapply wp_ue_modify; [done|]. apply wp_bind.
  eapply wp_ue_get; [apply lookup_insert_eq|]. apply wp_bind.
  apply wp_base_contains; [simpl; rewrite (uo_base _ _ _ (to_units _ Hok _ _ Hx)); by eexists|].
  unfold rx_modify. apply wp_mmodify. simpl. by eapply stepped_intro.
Qed.

(** The processes of a unit. *)
Lemma child_row u x X s : tables_ok s → um_units s !! u = Some x →
  row_ok (set_rx_child (redb_insert u (hs_iter X) (rx_child (um_rex s))) (um_rex s)) u
    (set_ue_pids X x).
Proof.
  intros Hok Hx. destruct (to_row _ _ _ Hok Hx) as [R1 R2 R3 R4 R5]. split; simpl; try done.
  exists (hs_iter X). rewrite redb_get_insert by apply (live_child _ (to_live _ Hok)).
  rewrite decide_True by done. split; [done|]. intros p. apply elem_of_hs_iter.
Qed.
Lemma wp_child_add_pids u pid x s : tables_ok s → um_units s !! u = Some x →
  wp (child_add_pids u pid) s (λ s' _, stepped u (set_ue_pids ({[pid]} ∪ ue_pids x) x) s s').
Proof.
  intros Hok Hx. apply (wp_step_get u (λ x, set_ue_pids ({[pid]} ∪ ue_pids x) x)
    (λ y r, set_rx_child (redb_insert u (hs_iter (ue_pids y)) (rx_child r)) r)); try done.
  - apply write_child, to_live, Hok.
  - by apply child_row.
Qed.
Lemma wp_child_remove_pids u pid x s : tables_ok s → um_units s !! u = Some x →
  wp (child_remove_pids u pid) s (λ s' _, stepped u (set_ue_pids (ue_pids x ∖ {[pid]}) x) s s').
Proof.
  intros Hok Hx. apply (wp_step_get u (λ x, set_ue_pids (ue_pids x ∖ {[pid]}) x)
    (λ y r, set_rx_child (redb_insert u (hs_iter (ue_pids y)) (rx_child r)) r)); try done.
  - apply write_child, to_live, Hok.
  - by apply child_row.
Qed.
Lemma wp_setup_cg_path u x s : tables_ok s → um_units s !! u = Some x →
  wp (setup_cg_path u) s (λ s' _, ∃ p, stepped u (set_ue_cg_path p x) s s').
Proof.
  intros Hok Hx. unfold setup_cg_path. apply wp_bind. eapply wp_ue_get; [done|].
  assert (∀ p, row_ok (set_rx_cgroup (redb_insert u p (rx_cgroup (um_rex s))) (um_rex s)) u
    (set_ue_cg_path p x)) as Hrow.
  { intros p. destruct (to_row _ _ _ Hok Hx) as [R1 R2 R3 R4 R5]. split; simpl; try done.
    rewrite redb_get_insert by apply (live_cgroup _ (to_live _ Hok)). by rewrite decide_True. }
  case_bool_decide; simpl mwhen.
  - eapply wp_mono; [apply (wp_step_get u (set_ue_cg_path (cg_escape u))
      (λ y r, set_rx_cgroup (redb_insert u (ue_cg_path y) (rx_cgroup r)) r) x); try done|].
    + apply write_cgroup, to_live, Hok.
    + intros s' [] Hs. by eexists.
  - apply wp_bind, wp_ret, wp_bind. eapply wp_ue_get; [done|].
    unfold cgroup_insert. apply wp_bind, wp_base_contains.
    { rewrite (uo_base _ _ _ (to_units _ Hok _ _ Hx)). by eexists. }
    unfold rx_modify. apply wp_mmodify. exists (ue_cg_path x).
    assert (set_ue_cg_path (ue_cg_path x) x = x) as He by by destruct x.
    pose proof (stepped_intro u x (set_ue_cg_path (ue_cg_path x) x) _ s Hok Hx eq_refl
      (write_cgroup (um_rex s) u (ue_cg_path x) (to_live _ Hok)) (Hrow _)) as Hst.
    rewrite He in *. rewrite insert_id in Hst by done. destruct s; exact Hst.
Qed.

(** ** The invariant *)

(** A queue holds, once each, the units that carry its mark. *)
Definition queue_ok (flag : UeUnit → bool) (q : list UnitId) (s : UM E) : Prop :=
  NoDup q ∧ ∀ u, u ∈ q ↔ ∃ x, um_units s !! u = Some x ∧ flag x = true.
Record um_ok (s : UM E) : Prop := {
  ok_tables : tables_ok s;
  ok_dep : dep_wf (um_dep s);
  ok_load : queue_ok ue_in_load (um_load_queue s) s;
  ok_target : queue_ok ue_in_target (um_target_dep_queue s) s;
  ok_watch : ∀ p u, um_watch s !! p = Some u → ∃ x, um_units s !! u = Some x ∧ p ∈ ue_pids x;
}.

(** What the invariant speaks of. *)
Definition um_core (s : UM E) :=
  (um_units s, um_t s, um_re s, um_rex s, um_load_queue s, um_target_dep_queue s, um_watch s).
Lemma tables_ok_ext s s' : um_units s' = um_units s → um_re s' = um_re s → um_rex s' = um_rex s →
  tables_ok s → tables_ok s'.
Proof.
  intros E1 E3 E4 [Hl Hb Hu Hk Hck Hpk]. split; rewrite ?E1, ?E3, ?E4; try done.
  intros u x Hx. destruct (Hu _ _ Hx) as [H1 H2 H3]. by split; rewrite ?E3, ?E4.
Qed.
Lemma um_ok_core s s' : um_core s' = um_core s → um_ok s → um_ok s'.
Proof.
  intros [= E1 E2 E3 E4 E5 E6 E7] [Ht Hd Hl Hta Hw]. split; [by eapply tables_ok_ext|..].
  - unfold um_dep. by rewrite E1, E2, E3.
  - unfold queue_ok. by rewrite E1, E5.
  - unfold queue_ok. by rewrite E1, E6.
  - by rewrite E1, E7.
Qed.

(** A step of one unit, seen by the other parts of the invariant. *)
Lemma queue_step u x x' flag q s s' : queue_ok flag q s → um_units s !! u = Some x →
  um_units s' = <[u:=x']> (um_units s) → flag x' = flag x → queue_ok flag q s'.
Proof.
  intros [Hnd Hq] Hx Hs' Hf. split; [done|]. intros v. rewrite Hq, Hs', lookup_insert.
  case_decide as Hv; [subst v|done]. split; intros (y & Hy & Hfy); simplify_eq; eexists; split; eauto; congruence.
Qed.
Lemma dep_wf_step u x x' s s' : dep_wf (um_dep s) → um_units s !! u = Some x →
  um_units s' = <[u:=x']> (um_units s) → um_t s' = um_t s → um_re s' = um_re s → dep_wf (um_dep s').
Proof.
  intros Hwf Hx Hs' Ht Hr. assert (um_dep s' = um_dep s) as ->; [|done].
  unfold um_dep. rewrite Hs', Ht, Hr. f_equal. apply elem_of_dom_2 in Hx.
  apply set_eq. intros v. rewrite dom_insert_L. set_solver.
Qed.
Lemma um_ok_step u x x' s s' : um_ok s → um_units s !! u = Some x → stepped u x' s s' →
  ue_in_load x' = ue_in_load x → ue_in_target x' = ue_in_target x →
  (∀ p, um_watch s !! p = Some u → p ∈ ue_pids x') → um_ok s'.
Proof.
  intros [Ht Hd Hl Hta Hw] Hx [[r ->] Ht'] El Et Hp. split; [done|..].
  - by eapply dep_wf_step.
  - by eapply queue_step.
  - by eapply queue_step.
  - simpl. intros p v Hv. rewrite lookup_insert. case_decide as Huv; [subst v|by apply Hw].
    exists x'. split; [done|by apply Hp].
Qed.

(** The queues: a unit leaves one, or joins it. *)
Lemma queue_pop u x' flag q s s' : queue_ok flag (u :: q) s → um_units s' = <[u:=x']> (um_units s) →
  flag x' = false → queue_ok flag q s'.
Proof.
  intros [[Hu Hnd]%NoDup_cons Hq] Hs' Hf. split; [done|]. intros v. rewrite Hs', lookup_insert.
  specialize (Hq v). rewrite elem_of_cons in Hq. case_decide as Hv; [subst v|naive_solver].
  split; [done|]. intros (y & [= <-] & ?). congruence.
Qed.
Lemma queue_push u x' flag q s s' : queue_ok flag q s →
  (∀ x, um_units s !! u = Some x → flag x = false) → um_units s' = <[u:=x']> (um_units s) →
  flag x' = true → queue_ok flag (q ++ [u]) s'.
Proof.
  intros [Hnd Hq] Hx Hs' Hf. assert (u ∉ q) as Hu.
  { intros (x & Hux & ?)%Hq. specialize (Hx _ Hux). congruence. }
  split; [apply NoDup_app; split_and!; [done|set_solver|apply NoDup_singleton]|].
  intros v. rewrite elem_of_app, list_elem_of_singleton, Hs', lookup_insert, Hq.
  case_decide as Hv; [subst v|naive_solver]. split; [by eexists|by right].
Qed.
Lemma um_ok_marks u x x' s s' : um_ok s → um_units s !! u = Some x → tables_ok s' →
  um_units s' = <[u:=x']> (um_units s) → um_t s' = um_t s → um_re s' = um_re s →
  um_watch s' = um_watch s → ue_pids x' = ue_pids x →
  queue_ok ue_in_load (um_load_queue s') s' → queue_ok ue_in_target (um_target_dep_queue s') s' →
  um_ok s'.
Proof.
  intros [Ht Hd Hl Hta Hw] Hx Ht' Hs' Et Er Ew Hp Hql Hqt. split; [done|by eapply dep_wf_step|done..|].
  rewrite Ew, Hs'. intros p v Hv. destruct (Hw _ _ Hv) as (y & Hy & Hpy). rewrite lookup_insert.
  case_decide as Huv; [subst v|by exists y]. exists x'. split; [done|]. rewrite Hp. congruence.
Qed.

(** ** Dependencies *)

(** [s'] is [s] with more dependencies. *)
Definition more_deps (s s' : UM E) : Prop :=
  ∀ a r b, UnitDepData.is_dep_with (um_t s) a r b = true →
    UnitDepData.is_dep_with (um_t s') a r b = true.
Lemma more_deps_refl s : more_deps s s.
Proof. by intros a r b. Qed.
Lemma tables_ok_re_dep s t re : tables_ok s → re_base re = re_base (um_re s) →
  tables_ok (set_um_re re (set_um_t t s)).
Proof.
  intros [Hl Hb Hu Hk Hck Hpk] Hre. split; simpl; rewrite ?Hre; try done.
  intros u x Hx. destruct (Hu _ _ Hx) as [H1 H2 H3]. by split; simpl; rewrite ?Hre.
Qed.
Lemma wp_dep_insert u r v ref m s (Q : UM E → unit → Prop) : um_ok s →
  is_Some (um_units s !! u) → is_Some (um_units s !! v) →
  (∀ re t, let s' := set_um_re re (set_um_t t s) in um_ok s' → more_deps s s' →
     (u ≠ v → UnitDepData.is_dep_with t u r v = true) → Q s' tt) →
  wp (dep_insert u r v ref m) s Q.
Proof.
  intros Hok Hu Hv HQ. unfold dep_insert, dep_run. apply wp_mzoom.
  destruct (decide (u = v)) as [->|Hne].
  { unfold UnitDepData.insert. rewrite decide_True by done. apply wp_ret.
    apply HQ; [by destruct s|by intros ???|done]. }
  eapply wp_mono; [apply dep_insert_ok; [apply Hok|by apply elem_of_dom..|done]|].
  intros d [] (Hd & Hdep & Hwf & Hb). destruct Hok as [Ht Hdw Hl Hta Hw].
  apply HQ.
  - split; [by apply tables_ok_re_dep| |done..].
    assert (um_dep (set_um_re (dep_rentry d) (set_um_t (dep_t d) s)) = d) as ->; [|done].
    unfold um_dep. simpl. destruct d; simpl in *. by rewrite Hd.
  - intros a q b Hab. simpl. by rewrite Hdep; simpl; rewrite Hab, orb_true_r.
  - intros _. rewrite Hdep. unfold inserted. by rewrite bool_decide_true.
Qed.

(** ** A new unit *)
Lemma wp_Unit_new ut u s (Q : UM E → UeUnit → Prop) :
  live (um_rex s) → redb_ignore (re_base (um_re s)) = false →
  (∀ r b, live r → same_rows u (um_rex s) r → row_ok r u (UeUnit_new ut) →
     redb_ignore b = false → (∀ v, redb_get v b = if decide (v = u) then Some ut
                                     else redb_get v (re_base (um_re s))) →
     Q (set_um_rex r (set_um_re {| re_base := b; re_dep := re_dep (um_re s) |} s)) (UeUnit_new ut)) →
  wp (Unit_new ut u) s Q.
Proof.
  intros Hl Hb HQ.
  assert (∀ (s' : UM E) w (Q' : UM E → unit → Prop), redb_get u (re_base (um_re s')) = Some ut →
    Q' (set_um_rex (w (um_rex s')) s') tt → wp (base_contains u;; rx_modify w) s' Q') as Hw.
  { intros s' w Q' Hs' HQ'. apply wp_bind, wp_base_contains; [by eexists|]. by apply wp_mmodify. }
  unfold Unit_new, base_insert, pps_insert, conf_insert, load_insert, pps_clear, child_insert, cgroup_insert.
  apply wp_bind, wp_mmodify.
  assert (redb_get u (redb_insert u ut (re_base (um_re s))) = Some ut) as Hu.
  { rewrite redb_get_insert by done. by rewrite decide_True. }
  do 6 (apply wp_bind, Hw; [exact Hu|]). simpl. apply wp_ret.
  destruct Hl as [L1 L2 L3 L4 L5].
  match goal with |- Q ?s1 ?x => change (Q (set_um_rex (um_rex s1) (set_um_re {|
    re_base := redb_insert u ut (re_base (um_re s)); re_dep := re_dep (um_re s) |} s)) x) end.
  apply HQ; simpl.
  - by split; simpl; rewrite ?redb_insert_ignore.
  - split; intros v Hv; simpl;
      by rewrite ?redb_get_insert by (rewrite ?redb_insert_ignore; done); rewrite ?decide_False.
  - split; simpl; rewrite ?redb_get_insert by (rewrite ?redb_insert_ignore; done);
      rewrite ?decide_True by done; try done.
    + eexists. by split.
    + eexists. split; [done|]. intros p. rewrite elements_empty. set_solver.
    + change (Some (pps_minus (default 0 (redb_get u (redb_insert u 0 (rx_pps (um_rex s))))) 24) = Some 0).
      by rewrite redb_get_insert, decide_True by done.
  - by rewrite redb_insert_ignore.
  - intros v. by apply redb_get_insert.
Qed.
(** The store with a new unit. *)
Lemma tables_ok_new u x r b s : tables_ok s → um_units s !! u = None →
  live r → same_rows u (um_rex s) r → row_ok r u x →
  ue_type x = unit_name_to_type u ∧ ue_type x ≠ UnitTypeInvalid →
  redb_ignore b = false → (∀ v, redb_get v b = if decide (v = u) then Some (ue_type x)
                                  else redb_get v (re_base (um_re s))) →
  tables_ok (set_um_units (<[u:=x]> (um_units s))
    (set_um_rex r (set_um_re {| re_base := b; re_dep := re_dep (um_re s) |} s))).
Proof.
  intros [Hl Hb Hu Hk Hck Hpk] Hnone Hlr Hsr Hrow Ht Hbi Hbget.
  assert (∀ v, is_Some (um_units s !! v) → is_Some (<[u:=x]> (um_units s) !! v)) as Hin.
  { intros v. rewrite lookup_insert. by case_decide. }
  split; simpl; try done.
  - intros v y. rewrite lookup_insert. case_decide as Hv; [subst v; intros [= <-]|].
    + split; simpl; [by rewrite Hbget, decide_True|done..].
    + intros Hy. destruct (Hu _ _ Hy) as [H1 H2 H3].
      split; simpl; [rewrite Hbget, decide_False by congruence; done|done|].
      eapply row_ok_same; [exact Hsr|congruence|done].
  - intros v. rewrite Hbget. case_decide as Hv; [subst v|by intros; apply Hin, Hk].
    rewrite lookup_insert_eq. by eexists.
  - intros v Hv. destruct (decide (v = u)) as [->|Hne]; [rewrite lookup_insert_eq; by eexists|].
    apply Hin, Hck. by rewrite (sr_child _ _ _ Hsr v Hne) in Hv.
  - intros v Hv. destruct (decide (v = u)) as [->|Hne]; [rewrite lookup_insert_eq; by eexists|].
    apply Hin, Hpk. by rewrite (sr_pps _ _ _ Hsr v Hne) in Hv.
Qed.
Lemma dep_wf_new u x b s : dep_wf (um_dep s) → um_units s !! u = None →
  (∀ v, is_Some (redb_get v (re_base (um_re s))) → is_Some (redb_get v b)) → is_Some (redb_get u b) →
  dep_wf {| dep_units := dom (<[u:=x]> (um_units s));
            dep_rentry := {| re_base := b; re_dep := re_dep (um_re s) |}; dep_t := um_t s |}.
Proof.
  intros [W1 W2 W3 W4 W5 W6] Hnone Hb Hu. split; simpl in *; try done.
  - intros v Hv. rewrite dom_insert_L in Hv. apply bool_decide_eq_true.
    apply elem_of_union in Hv as [->%elem_of_singleton|Hv]; [done|].
    apply Hb. specialize (W2 _ Hv). by apply bool_decide_eq_true in W2.
  - intros a q c Hd. destruct (W3 _ _ _ Hd). rewrite dom_insert_L. set_solver.
  - intros v Hv. rewrite dom_insert_L. specialize (W6 _ Hv). set_solver.
Qed.
Lemma um_ok_new u x b s s' : um_ok s → um_units s !! u = None → tables_ok s' →
  um_units s' = <[u:=x]> (um_units s) → um_t s' = um_t s →
  um_re s' = {| re_base := b; re_dep := re_dep (um_re s) |} →
  (∀ v, is_Some (redb_get v (re_base (um_re s))) → is_Some (redb_get v b)) → is_Some (redb_get u b) →
  um_load_queue s' = um_load_queue s ++ [u] → um_target_dep_queue s' = um_target_dep_queue s →
  um_watch s' = um_watch s → ue_in_load x = true → ue_in_target x = false → um_ok s'.
Proof.
  intros [Ht Hd Hl Hta Hw] Hnone Ht' Es Et Er Hb Hbu Eq1 Eq2 Ew Hl1 Hl2.
  assert (∀ v, v ≠ u → um_units s' !! v = um_units s !! v) as Hother by (intros v Hv; by rewrite Es, lookup_insert_ne).
  split; [done|unfold um_dep; rewrite Es, Et, Er; by apply (dep_wf_new u x b s)|rewrite Eq1|rewrite Eq2|rewrite Ew].
  - apply (queue_push u x _ _ s); [done|congruence|done..].
  - split; [apply Hta|]. intros v. rewrite (proj2 Hta v). destruct (decide (v = u)) as [->|Hv]; [|by rewrite Hother].
    rewrite Hnone, Es, lookup_insert_eq. split; intros (y & ? & ?); simplify_eq. congruence.
  - intros p v Hv. destruct (Hw _ _ Hv) as (y & Hy & Hp). exists y. rewrite Hother by congruence. done.
Qed.

(** Marking a unit and putting it at the end of the queue. *)
Lemma wp_push_load_new u x s (Q : UM E → unit → Prop) :
  tables_ok s → um_units s !! u = Some x → ue_in_load x = false →
  (∀ r, let s' := set_um_load_queue (um_load_queue s ++ [u])
           (set_um_rex r (set_um_units (<[u:=set_ue_in_load true x]> (um_units s)) s)) in
     tables_ok s' → Q s' tt) →
  wp (push_load_queue u) s Q.
Proof.
  intros Ht Hx Hf HQ. unfold push_load_queue. apply wp_bind. eapply wp_ue_get; [done|]. rewrite Hf.
  apply wp_bind. eapply wp_mono; [by apply wp_set_in_load_queue|].
  intros s' [] [[r ->] Ht']. apply wp_mmodify, HQ. by eapply tables_ok_ext; [..|exact Ht'].
Qed.

(** A name that is not in the store: its unit is created, and waits. *)
Record created u s s' : Prop := {
  cr_units : um_units s' = <[u:=set_ue_in_load true (UeUnit_new (unit_name_to_type u))]> (um_units s);
  cr_t : um_t s' = um_t s;
  cr_load : um_load_queue s' = um_load_queue s ++ [u];
  cr_target : um_target_dep_queue s' = um_target_dep_queue s;
  cr_file : um_file s' = um_file s;
  cr_borrowed : um_borrowed s' = um_borrowed s;
}.
Context `{HS : !UmSys E}.
Lemma wp_prepare_new name s (Q : UM E → option UnitId → Prop) : um_ok s → um_units s !! name = None →
  (unit_name_to_type name = UnitTypeInvalid → Q s None) →
  (∀ e, unit_name_to_type name ≠ UnitTypeInvalid →
    (sub_create (unit_name_to_type name) name (um_rest s)).2 = false → Q (set_um_rest e s) None) →
  (unit_name_to_type name ≠ UnitTypeInvalid → ∀ s', um_ok s' → created name s s' → Q s' (Some name)) →
  wp (prepare_unit name) s Q.
Proof.
  intros Hok Hnone HQ1 HQ2 HQ3. unfold prepare_unit, try_new_unit. apply wp_bind.
  destruct (decide (unit_name_to_type name = UnitTypeInvalid)) as [Hinv|Hval]; [by apply wp_ret, wp_ret, HQ1|].
  apply wp_bind, wp_rest_call. destruct (sub_create _ name (um_rest s)).2 eqn:Hsub; [|by apply wp_ret, wp_ret, HQ2].
  simpl negb. cbv iota. set (s0 := set_um_rest _ s).
  assert (um_ok s0) as Hum by by apply (um_ok_core s). pose proof (ok_tables _ Hum) as Ht.
  apply wp_bind, wp_Unit_new; [apply Ht..|]. intros r b Hlr Hsr Hrow Hbi Hb. apply wp_ret. simpl. apply wp_bind.
  unfold units_insert. apply wp_mmodify. set (s1 := set_um_units _ _).
  assert (um_units s1 !! name = Some (UeUnit_new (unit_name_to_type name))) as Hx1 by apply lookup_insert_eq.
  assert (tables_ok s1) as Ht1 by by apply (tables_ok_new name _ _ _ s0).
  apply wp_bind. eapply wp_push_load_new; [done..|]. intros r2. cbv zeta. intros Ht2. apply wp_ret.
  assert (um_units s1 = <[name:=UeUnit_new (unit_name_to_type name)]> (um_units s)) as Hs1 by done.
  rewrite Hs1 in *. rewrite insert_insert_eq in *. change (um_load_queue s1) with (um_load_queue s).
  apply HQ3; [done| |done]. apply (um_ok_new name (set_ue_in_load true (UeUnit_new (unit_name_to_type name))) b s0); try done.
  - intros v Hv. rewrite Hb. by case_decide.
  - rewrite Hb. by rewrite decide_True.
Qed.
End facts.
