(* ===== verification/UmInvFacts.v ===== *)
(** * The invariant of the unit manager

    [um_ok] is kept by every call a unit can make, by the load queue and so by every
    program of a unit, whatever the rest of the system answers. *)
From S2P Require Import Prelude UnitTypes Relation ReDb UnitDb UnitDbFacts RateLimit UnitEntry UnitFile ExecParams UnitIf JobRentry JobData UmStore UmLoad UmFacts UmManager.
Local Open Scope Z_scope.

(** A computation that keeps [I], when it returns. *)
Section preserves.
Context {S : Type} (I : S → Prop).
Definition preserves {A} (m : M S A) : Prop := ∀ s s' a, I s → m s = Returned (s', a) → I s'.

Lemma preserves_ret {A} (a : A) : preserves (mret a).
Proof. by intros s s' a' Hs [= <- _]. Qed.
Lemma preserves_bind {A B} (m : M S A) (k : A → M S B) :
  preserves m → (∀ a, preserves (k a)) → preserves (m ≫= k).
Proof.
  intros Hm Hk s s' b Hs. unfold mbind, M_bind. destruct (m s) as [[s1 a]| |] eqn:He; [|done..].
  apply Hk. by eapply Hm.
Qed.
Lemma preserves_assoc {A B C} (m : M S A) (k : A → M S B) (k' : B → M S C) :
  preserves ((m ≫= k) ≫= k') → preserves (m ≫= λ a, k a ≫= k').
Proof.
  intros Hm s s' c Hs Hrun. apply (Hm s s' c Hs). rewrite <- Hrun. unfold mbind, M_bind.
  by destruct (m s) as [[??]| |].
Qed.
(** A read: the rest starts in the store that was read. *)
Lemma preserves_read {A B} (f : S → A) (k : A → M S B) :
  (∀ s s' b, I s → k (f s) s = Returned (s', b) → I s') → preserves (mgets f ≫= k).
Proof. intros Hk s s' b Hs. apply Hk, Hs. Qed.
Lemma preserves_gets {A} (f : S → A) : preserves (mgets f).
Proof. by intros s s' a Hs [= <- _]. Qed.
Lemma preserves_get : preserves mget.
Proof. by intros s s' a Hs [= <- _]. Qed.
Lemma preserves_modify (f : S → S) : (∀ s, I s → I (f s)) → preserves (mmodify f).
Proof. intros Hf s s' a Hs [= <- _]. by apply Hf. Qed.
Lemma preserves_panic {A} : preserves (mpanic : M S A).
Proof. by intros s s' a _. Qed.
Lemma preserves_nofuel {A} : preserves (mnofuel : M S A).
Proof. by intros s s' a _. Qed.
Lemma preserves_massert b : preserves (massert b).
Proof. destruct b; [apply preserves_ret|apply preserves_panic]. Qed.
Lemma preserves_munwrap {A} (o : option A) : preserves (munwrap o).
Proof. destruct o; [apply preserves_ret|apply preserves_panic]. Qed.
Lemma preserves_mwhen b (m : M S unit) : preserves m → preserves (mwhen b m).
Proof. destruct b; [done|]. intros _. apply preserves_ret. Qed.
Lemma preserves_mforeach {B} (f : B → M S unit) l : (∀ x, preserves (f x)) → preserves (mforeach f l).
Proof.
  intros Hf. induction l as [|x l IH]; simpl; [apply preserves_ret|]. by apply preserves_bind.
Qed.
(** A computation with a total specification in the states it does not panic in. *)
Lemma preserves_wp {A} (m : M S A) :
  (∀ s, I s → m s = Panicked ∨ wp m s (λ s' _, I s')) → preserves m.
Proof.
  intros Hm s s' a Hs He. destruct (Hm s Hs) as [Hp|Hw]; [congruence|]. unfold wp in Hw. by rewrite He in Hw.
Qed.
End preserves.

Create HintDb preserves.
#[export] Hint Resolve preserves_ret preserves_gets preserves_get preserves_panic preserves_nofuel
  preserves_massert preserves_munwrap : preserves.
(** The structure of a computation; what is left are its own steps. *)
Ltac keep_step :=
  match goal with
  | |- preserves _ (_ ≫= _) => apply preserves_bind; [| intros ?]
  | |- preserves _ (mwhen _ _) => apply preserves_mwhen
  | |- preserves _ (mforeach _ _) => apply preserves_mforeach; intros ?
  | |- preserves _ (match _ with _ => _ end) => case_match
  | |- preserves _ _ => solve [eauto 3 with preserves nocore]
  end.
Ltac keep := repeat keep_step.

Section facts.
Context `{HI : !HashIter} {E : Type}.
Context `{HS : !UmSys E} `{HF : !UnitFs E} `{HP : !Processes E} `{HL : !Reli E}.
Context `{HU : !SubUnitProgs E} `{HJ : !JobEngine E} `{HX : !Spawner E}.
Implicit Types (s : UM E) (u v : UnitId) (x : UeUnit).
Abbreviation keeps_ok := (preserves (um_ok (E:=E))).

(** *** What does not touch the store *)
Lemma keep_rest_do f : keeps_ok (rest_do f).
Proof. apply preserves_modify. intros s Hs. by apply (um_ok_core s). Qed.
Lemma keep_rest_call {A} (f : E → E * A) : keeps_ok (rest_call f).
Proof. intros s s' a Hs [= <- _]. by apply (um_ok_core s). Qed.
Lemma keep_um_outside {A} (f : UM E → E * A) : keeps_ok (um_outside f).
Proof. intros s s' a Hs [= <- _]. by apply (um_ok_core s). Qed.
Lemma keep_set_state st : keeps_ok (set_state st).
Proof. apply preserves_modify. intros s Hs. by apply (um_ok_core s). Qed.
Lemma keep_borrowed f : keeps_ok (mmodify (λ s, set_um_borrowed (f s) s)).
Proof. apply preserves_modify. intros s Hs. by apply (um_ok_core s). Qed.
Lemma keep_ue_get u : keeps_ok (ue_get u).
Proof. unfold ue_get. keep. Qed.
Lemma keep_file_run {A} (m : M (UnitFileData * E) A) : keeps_ok (file_run m).
Proof.
  intros s s' a Hs. unfold file_run, mzoom. destruct (m _) as [[p b]| |]; [|done..].
  intros [= <- _]. by apply (um_ok_core s).
Qed.
Hint Resolve keep_rest_do keep_rest_call keep_um_outside keep_set_state keep_borrowed keep_ue_get
  keep_file_run : preserves.

(** *** Steps of one unit.  The table of the types has the units of the store, so that
    a step of another name panics. *)
Lemma absent_panics {A} u f (k : unit → M (UM E) A) s : um_ok s → um_units s !! u = None →
  panics (ue_modify u f;; base_contains u ≫= k) s.
Proof.
  intros Hok Hu. apply panics_bind. unfold ue_modify. apply wp_mmodify. apply panics_bind_l.
  unfold base_contains. apply panics_bind, wp_mget. unfold panics, massert, redb_contains_key. simpl.
  rewrite bool_decide_false; [done|]. intros Hin. apply (to_keys _ (ok_tables _ Hok)) in Hin as [x Hx]. congruence.
Qed.
(** The marks and the processes aside, a step keeps the invariant. *)
Lemma keep_step_of u (m : M (UM E) unit) (f : UeUnit → UeUnit) :
  (∀ s, um_ok s → um_units s !! u = None → panics m s) →
  (∀ s x, tables_ok s → um_units s !! u = Some x → wp m s (λ s' _, stepped u (f x) s s')) →
  (∀ x, ue_in_load (f x) = ue_in_load x ∧ ue_in_target (f x) = ue_in_target x ∧ ue_pids x ⊆ ue_pids (f x)) →
  keeps_ok m.
Proof.
  intros Hp Hm Hf. apply preserves_wp. intros s Hok. destruct (um_units s !! u) as [x|] eqn:Hx;
    [right|left; by apply Hp]. destruct (Hf x) as (H1 & H2 & H3).
  eapply wp_mono; [by apply Hm, Hx; apply Hok|]. intros s' [] Hst.
  eapply um_ok_step; [done..|]. intros p Hpw. destruct (ok_watch _ Hok _ _ Hpw) as (y & Hy & Hpy).
  apply H3. congruence.
Qed.
Lemma keep_set_load_state u st : keeps_ok (set_load_state u st).
Proof.
  apply (keep_step_of u _ (set_ue_load_state st)); [|by intros; apply wp_set_load_state|by intros].
  intros s Hok Hu. by apply absent_panics.
Qed.
Lemma keep_setup_cg_path u : keeps_ok (setup_cg_path u).
Proof.
  apply preserves_wp. intros s Hok. destruct (um_units s !! u) as [x|] eqn:Hx.
  - right. eapply wp_mono; [apply wp_setup_cg_path; [apply Hok|done]|]. intros s' [] [p Hst].
    eapply um_ok_step; [done..|]. intros q Hq. destruct (ok_watch _ Hok _ _ Hq) as (y & Hy & Hpy). simpl. congruence.
  - left. unfold setup_cg_path. apply panics_bind_l. unfold ue_get, panics, mbind, M_bind, mget. by rewrite Hx.
Qed.
(** A change of the entry that no table and no mark shows. *)
Lemma keep_ue_modify u (f : UeUnit → UeUnit) :
  (∀ x, ue_type (f x) = ue_type x ∧ ue_load_state (f x) = ue_load_state x ∧ ue_install (f x) = ue_install x
    ∧ with_ignore_on_isolate false (ue_config (f x)) = with_ignore_on_isolate false (ue_config x)
    ∧ ue_cg_path (f x) = ue_cg_path x ∧ ue_pids (f x) = ue_pids x
    ∧ ue_in_load (f x) = ue_in_load x ∧ ue_in_target (f x) = ue_in_target x) →
  keeps_ok (ue_modify u f).
Proof.
  intros Hf. apply preserves_modify. intros s Hok. destruct (um_units s !! u) as [x|] eqn:Hx.
  2: { rewrite alter_id'; [by destruct s|]. done. }
  destruct (Hf x) as (H1 & H2 & H3 & H4 & H5 & H6 & H7 & H8).
  rewrite (alter_insert_Some _ _ _ _ Hx). pose proof (ok_tables _ Hok) as Ht.
  assert (stepped u (f x) s (set_um_rex (um_rex s) (set_um_units (<[u:=f x]> (um_units s)) s))) as Hst.
  { apply (stepped_intro u x); [done..|split; [by apply to_live|apply same_rows_refl]|].
    destruct (to_row _ _ _ Ht Hx) as [R1 (c & R2 & R2') R3 R4 R5].
    split; rewrite ?H2, ?H3, ?H4, ?H5, ?H6; try done; [by exists c|].
    unfold pps_of. by rewrite H7, H8. }
  assert (um_ok (set_um_rex (um_rex s) (set_um_units (<[u:=f x]> (um_units s)) s))) as Hok'; [|by destruct s].
  eapply um_ok_step; [done..|]. intros q Hq. destruct (ok_watch _ Hok _ _ Hq) as (y & Hy & Hpy). congruence.
Qed.

(** *** The dependencies *)
Lemma dep_insert_contains a r b refb m (d d' : UnitDepData) o : a ≠ b →
  UnitDepData.insert a r b refb m d = Returned (d', o) →
  redb_contains_key a (re_base (dep_rentry d)) = true ∧ redb_contains_key b (re_base (dep_rentry d)) = true.
Proof.
  intros Hne. unfold UnitDepData.insert. rewrite decide_False by done.
  unfold UnitDepData.db_update, re_dep_insert, mbind, M_bind, mget, mmodify, mwhen. simpl.
  destruct refb; simpl; (destruct (redb_contains_key a (re_base (dep_rentry d))) eqn:Ha; simpl; [|done]);
    (destruct (redb_contains_key b (re_base (dep_rentry d))) eqn:Hb; simpl; [done|done]).
Qed.
Lemma keep_dep_insert u r v ref m : keeps_ok (dep_insert u r v ref m).
Proof.
  intros s s' a Hok Hrun. destruct (decide (u = v)) as [->|Hne].
  { revert Hrun. unfold dep_insert, dep_run, mzoom, UnitDepData.insert. rewrite decide_True by done.
    intros [= <- _]. by apply (um_ok_core s); [destruct s|]. }
  assert (is_Some (um_units s !! u) ∧ is_Some (um_units s !! v)) as [Hu Hv].
  { revert Hrun. unfold dep_insert, dep_run, mzoom. destruct (UnitDepData.insert _ _ _ _ _ _) as [[d ?]| |] eqn:Hi; [|done..].
    intros _. apply dep_insert_contains in Hi as [H1 H2]; [|done]. simpl in *.
    split; apply (to_keys _ (ok_tables _ Hok)); [by apply bool_decide_eq_true in H1|by apply bool_decide_eq_true in H2]. }
  assert (wp (dep_insert u r v ref m) s (λ s' _, um_ok s')) as Hw.
  { apply wp_dep_insert; [done..|]. by intros re t. }
  unfold wp in Hw. by rewrite Hrun in Hw.
Qed.
Hint Resolve keep_set_load_state keep_setup_cg_path keep_dep_insert : preserves.

(** *** The processes *)
Lemma um_ok_watch u x x' w s s' : um_ok s → um_units s !! u = Some x → stepped u x' (set_um_watch w s) s' →
  ue_in_load x' = ue_in_load x → ue_in_target x' = ue_in_target x →
  (∀ p v, w !! p = Some v → (v = u ∧ p ∈ ue_pids x') ∨ (v ≠ u ∧ um_watch s !! p = Some v)) → um_ok s'.
Proof.
  intros [Ht Hd Hl Hta Hw] Hx [[r ->] Ht'] El Et Hp. split; [done|..].
  - by eapply (dep_wf_step u x x' s).
  - by eapply (queue_step u x x' _ _ s).
  - by eapply (queue_step u x x' _ _ s).
  - simpl. intros p v Hv. rewrite lookup_insert. destruct (Hp p v Hv) as [[-> Hin]|[Hne Hs]].
    + rewrite decide_True by done. by exists x'.
    + rewrite decide_False by done. by apply Hw.
Qed.
Lemma absent_ue_get {A} u (k : UeUnit → M (UM E) A) s : um_units s !! u = None → panics (ue_get u ≫= k) s.
Proof. intros Hu. apply panics_bind_l. unfold ue_get, panics, mbind, M_bind, mget. by rewrite Hu. Qed.
Lemma keep_add_watch_pid u pid : keeps_ok (add_watch_pid u pid).
Proof.
  apply preserves_wp. intros s Hok. destruct (um_units s !! u) as [x|] eqn:Hx; [right|left; by apply absent_ue_get].
  unfold add_watch_pid, watch_insert. apply wp_bind. eapply wp_ue_get; [done|]. apply wp_bind, wp_mmodify.
  eapply wp_mono; [apply wp_child_add_pids; [by apply (tables_ok_ext s); [..|apply Hok]|done]|].
  intros s' [] Hst. eapply um_ok_watch; [done..|]. intros p v. rewrite lookup_insert. simpl.
  case_decide as Hpv; [intros [= <-]; left; split; [done|set_solver]|]. intros Hv.
  destruct (decide (v = u)) as [->|Hne]; [left|by right]. split; [done|].
  destruct (ok_watch _ Hok _ _ Hv) as (y & Hy & Hpy). simplify_eq. set_solver.
Qed.
Lemma keep_unwatch_pid u pid : keeps_ok (unwatch_pid u pid).
Proof.
  apply preserves_wp. intros s Hok. destruct (um_units s !! u) as [x|] eqn:Hx; [right|left; by apply absent_ue_get].
  unfold unwatch_pid. apply wp_bind. eapply wp_ue_get; [done|]. apply wp_bind, wp_mmodify.
  eapply wp_mono; [apply wp_child_remove_pids; [by apply (tables_ok_ext s); [..|apply Hok]|done]|].
  intros s' [] Hst. eapply um_ok_watch; [done..|]. intros p v. rewrite lookup_delete_Some. simpl.
  intros [Hpv Hv]. destruct (decide (v = u)) as [->|Hne]; [left|by right]. split; [done|].
  destruct (ok_watch _ Hok _ _ Hv) as (y & Hy & Hpy). simplify_eq. set_solver.
Qed.
Hint Resolve keep_add_watch_pid keep_unwatch_pid : preserves.
Lemma keep_child_watch_all_pids u : keeps_ok (child_watch_all_pids u).
Proof. unfold child_watch_all_pids, rest_ask. keep. Qed.
Lemma keep_prepare_exec u : keeps_ok (prepare_exec u).
Proof. unfold prepare_exec. keep. Qed.
Lemma keep_kill_context u k m c ko : keeps_ok (kill_context u k m c ko).
Proof. unfold kill_context, kill_pid. keep. Qed.
Lemma keep_guess_main_pid u : keeps_ok (guess_main_pid u).
Proof. unfold guess_main_pid. keep. Qed.
Lemma keep_set_ignore_on_isolate u b : keeps_ok (ue_modify u (set_ignore_on_isolate b)).
Proof. apply keep_ue_modify. intros x. by split_and!. Qed.
Lemma keep_set_start_limit u l : keeps_ok (ue_modify u (set_ue_start_limit l)).
Proof. apply keep_ue_modify. intros x. by split_and!. Qed.
Hint Resolve keep_child_watch_all_pids keep_prepare_exec keep_kill_context keep_guess_main_pid
  keep_set_ignore_on_isolate keep_set_start_limit : preserves.

(** *** Creating and naming units *)
Lemma keep_prepare_unit name s s' o : um_ok s → um_units s !! name = None →
  prepare_unit name s = Returned (s', o) → um_ok s'.
Proof.
  intros Hok Hnone Hrun. assert (wp (prepare_unit name) s (λ s' _, um_ok s')) as Hw.
  { apply wp_prepare_new; try done. intros e _ _. by apply (um_ok_core s). }
  unfold wp in Hw. by rewrite Hrun in Hw.
Qed.
Lemma keep_get_or {A} name (m k : option UnitId → M (UM E) A) (f : option UnitId → M (UM E) A) :
  (∀ u, keeps_ok (f (Some u))) →
  (∀ s s' a, um_ok s → um_units s !! name = None → f None s = Returned (s', a) → um_ok s') →
  keeps_ok (units_get name ≫= f).
Proof.
  intros Hf Hn. apply preserves_read. intros s s' a Hok. case_bool_decide as Hin; [by apply Hf|].
  apply Hn; [done|by apply eq_None_not_Some].
Qed.
Lemma keep_push_dep_unit name : keeps_ok (push_dep_unit_into_load_queue name).
Proof.
  apply (keep_get_or name mret mret); [intros; apply preserves_ret|]. intros s s' a. apply keep_prepare_unit.
Qed.
Hint Resolve keep_push_dep_unit : preserves.
Lemma keep_insert_names u r l : keeps_ok (insert_names u r l).
Proof. induction l as [|n l IH]; simpl; keep. Qed.
Hint Resolve keep_insert_names : preserves.
Lemma keep_insert_relations u l : keeps_ok (insert_relations u l).
Proof. induction l as [|[r ns] l IH]; simpl; keep. Qed.
Hint Resolve keep_insert_relations : preserves.
Lemma keep_dm_insert table m : keeps_ok m → keeps_ok (dm_insert table m).
Proof.
  intros Hm. unfold dm_insert. keep.
Qed.
Lemma keep_units_get name : keeps_ok (units_get name).
Proof. apply preserves_gets. Qed.
Hint Resolve keep_units_get : preserves.
Lemma keep_insert_udconf name deps : keeps_ok (insert_udconf name deps).
Proof. unfold insert_udconf. keep. Qed.
Lemma keep_load_fragment u : keeps_ok (load_fragment_and_dropin u).
Proof.
  unfold load_fragment_and_dropin. keep_step; [keep|]. keep_step; [keep|]. keep_step; [keep|]. keep_step; [keep|].
  destruct (cfg_load _ _) as [[c i]|]; [|keep]. set (c' := add_dropins _ _ c).
  apply preserves_assoc, preserves_bind; [|intros ?; keep].
  set (f := λ x, set_ue_install i (set_ue_config c' x)). apply (keep_step_of u _ f); [|intros s x Ht Hx|by intros].
  { intros s Hok Hu. by apply absent_panics. }
  apply (wp_step u f (λ r, set_rx_conf (redb_insert u (c', i) (rx_conf r)) r)); [done..|apply write_conf, Ht|].
  destruct (to_row _ _ _ Ht Hx) as [R1 R2 R3 R4 R5]. split; simpl; try done.
  exists c'. rewrite redb_get_insert by apply (live_conf _ (to_live _ Ht)). by rewrite decide_True.
Qed.
Hint Resolve keep_insert_udconf keep_load_fragment : preserves.
Lemma keep_load_unit_confs u : keeps_ok (load_unit_confs u).
Proof. unfold load_unit_confs, parse. keep. apply keep_dm_insert. keep. Qed.

(** *** The default dependencies of targets *)
Lemma keep_push_target u : keeps_ok (push_target_dep_queue u).
Proof.
  apply preserves_wp. intros s Hok. destruct (um_units s !! u) as [x|] eqn:Hx; [right|left; by apply absent_ue_get].
  unfold push_target_dep_queue. apply wp_bind. eapply wp_ue_get; [done|]. destruct (ue_in_target x) eqn:Hin; [done|].
  apply wp_bind. eapply wp_mono; [apply wp_set_in_target_dep_queue; [apply Hok|done]|].
  intros s1 [] [[r ->] Ht1]. apply wp_mmodify. set (s2 := set_um_target_dep_queue _ _).
  apply (um_ok_marks u x (set_ue_in_target true x) s); try done.
  - by eapply tables_ok_ext; [..|exact Ht1].
  - eapply queue_step; [apply (ok_load _ Hok)|done..].
  - eapply (queue_push u _ _ _ s); [apply (ok_target _ Hok)| |done..]. intros y Hy. by simplify_eq.
Qed.
Lemma keep_target_deps u l : keeps_ok (target_deps u l).
Proof. induction l as [|t l IH]; simpl; keep. Qed.
Hint Resolve keep_load_unit_confs keep_push_target keep_target_deps : preserves.
(** A unit that leaves a queue, until its mark is cleared. *)
Lemma wp_pop_target_ok u q e s : um_ok s → um_target_dep_queue s = u :: q →
  wp (set_in_target_dep_queue u false) (set_um_rest e (set_um_target_dep_queue q s)) (λ s' _, um_ok s').
Proof.
  intros Hok Hq. destruct (proj1 (proj2 (ok_target _ Hok) u)) as (x & Hx & Hin); [rewrite Hq; by left|].
  eapply wp_mono; [apply wp_set_in_target_dep_queue; [by apply (tables_ok_ext s); [..|apply Hok]|done]|].
  intros s1 [] [[r ->] Ht1]. apply (um_ok_marks u x (set_ue_in_target false x) s); try done.
  - eapply queue_step; [apply (ok_load _ Hok)|done..].
  - eapply (queue_pop u _ _ _ s); [|done..]. simpl. rewrite <- Hq. apply (ok_target _ Hok).
Qed.
Lemma wp_pop_load_ok u q e s : um_ok s → um_load_queue s = u :: q →
  wp (set_in_load_queue u false) (set_um_rest e (set_um_load_queue q s)) (λ s' _, um_ok s').
Proof.
  intros Hok Hq. destruct (proj1 (proj2 (ok_load _ Hok) u)) as (x & Hx & Hin); [rewrite Hq; by left|].
  eapply wp_mono; [apply wp_set_in_load_queue; [by apply (tables_ok_ext s); [..|apply Hok]|done]|].
  intros s1 [] [[r ->] Ht1]. apply (um_ok_marks u x (set_ue_in_load false x) s); try done.
  - eapply (queue_pop u _ _ _ s); [|done..]. simpl. rewrite <- Hq. apply (ok_load _ Hok).
  - eapply queue_step; [apply (ok_target _ Hok)|done..].
Qed.
(** A first step that leads back to the invariant. *)
Lemma preserves_after {A B} (m : M (UM E) A) (k : A → M (UM E) B) s s' b :
  wp m s (λ s1 _, um_ok s1) → (∀ a, keeps_ok (k a)) → (m ≫= k) s = Returned (s', b) → um_ok s'.
Proof.
  unfold wp, mbind, M_bind. destruct (m s) as [[s1 a]| |]; [|done..]. intros H1 Hk. by apply Hk.
Qed.
Lemma run_get {A} (k : UM E → M (UM E) A) s : (mget ≫= k) s = k s s.
Proof. done. Qed.
Lemma run_modify {A} f (k : unit → M (UM E) A) s : (mmodify f ≫= k) s = k tt (f s).
Proof. done. Qed.
Lemma run_rest_do {A} f (k : unit → M (UM E) A) s :
  (rest_do f ≫= k) s = k tt (set_um_rest (f (um_rest s)) s).
Proof. done. Qed.
Lemma run_assoc {A B C} (m : M (UM E) A) (k : A → M (UM E) B) (k' : B → M (UM E) C) s :
  ((m ≫= k) ≫= k') s = (m ≫= λ a, k a ≫= k') s.
Proof. unfold mbind, M_bind. by destruct (m s) as [[??]| |]. Qed.
Lemma keep_target_queue_loop fuel : keeps_ok (target_queue_loop fuel).
Proof.
  induction fuel as [|fuel IH]; [keep|]. intros s s' a Hok Hrun. cbn [target_queue_loop] in Hrun.
  rewrite run_get in Hrun. destruct (um_target_dep_queue s) as [|u q] eqn:Hq; [by injection Hrun as <- _|].
  rewrite run_modify, run_rest_do in Hrun. unfold dispatch_target_dep_unit in Hrun. rewrite run_assoc in Hrun.
  revert Hrun. apply preserves_after; [by apply wp_pop_target_ok|]. intros []. keep.
Qed.
Hint Resolve keep_target_queue_loop : preserves.
Lemma keep_dispatch_target_dep_queue : keeps_ok dispatch_target_dep_queue.
Proof. unfold dispatch_target_dep_queue. keep. Qed.
Hint Resolve keep_dispatch_target_dep_queue : preserves.

(** ** The calls and the programs of the units *)
Section calls.
Context (load : string → M (UM E) (option UnitId)) (Hload : ∀ name, keeps_ok (load name)).
Hint Resolve Hload : preserves.

Lemma keep_load_state u : keeps_ok (load_state u).
Proof. unfold load_state. keep. Qed.
Hint Resolve keep_load_state : preserves.
Lemma keep_unit_add_dependency u r t ref m : keeps_ok (unit_add_dependency load u r t ref m).
Proof. unfold unit_add_dependency. keep. Qed.
Lemma keep_exec_job name kind e refuse : keeps_ok (exec_job load name kind e refuse).
Proof. unfold exec_job. keep. Qed.
Hint Resolve keep_unit_add_dependency keep_exec_job : preserves.
Lemma keep_start_quietly name : keeps_ok (start_quietly load name).
Proof. unfold start_quietly, start_unit. keep. Qed.
Hint Resolve keep_start_quietly : preserves.
Lemma keep_emergency_action a : keeps_ok (unit_emergency_action load a).
Proof. unfold unit_emergency_action. keep. Qed.
Hint Resolve keep_emergency_action : preserves.
Lemma keep_insert_states u st : keeps_ok (insert_states load u st).
Proof. unfold insert_states. keep. Qed.
Lemma keep_insert_start_limit_res u r : keeps_ok (insert_start_limit_res load u r).
Proof. unfold insert_start_limit_res. keep. Qed.
Lemma keep_notify u st : keeps_ok (notify load u st).
Proof. apply keep_dm_insert, keep_insert_states. Qed.
Hint Resolve keep_notify keep_insert_start_limit_res keep_dm_insert : preserves.
Lemma keep_test_start_limit u : keeps_ok (test_start_limit load u).
Proof. unfold test_start_limit. keep. Qed.
Hint Resolve keep_test_start_limit : preserves.
Lemma keep_um_call {X} (c : UmCall E X) : keeps_ok (um_call load c).
Proof.
  destruct c; simpl; unfold unit_has_dependecy, load_unit_success, unit_enabled, has_stop_job,
    relation_active_or_pending, start_unit, restart_unit, same_unit_with_pid, collect_socket_fds,
    get_dependency_list, unit_has_default_dependecy, units_get_all, um_current_active_state,
    um_get_subunit_state, um_exec_spawn, dep_gets; keep.
Qed.
Hint Resolve keep_um_call : preserves.
Lemma keep_run_prog {A} (p : Prog E A) : keeps_ok (run_prog load p).
Proof. induction p as [a|X c k IH]; simpl; keep. Qed.
Hint Resolve keep_run_prog : preserves.
(** The unit at the head of the queue. *)
Lemma keep_Unit_load {A} (k : Result unit Error → M (UM E) A) u q e s s' a : um_ok s →
  um_load_queue s = u :: q → (∀ r, keeps_ok (k r)) →
  (Unit_load load u ≫= k) (set_um_rest e (set_um_load_queue q s)) = Returned (s', a) → um_ok s'.
Proof.
  intros Hok Hq Hk. unfold Unit_load. rewrite run_assoc. apply preserves_after; [by apply wp_pop_load_ok|].
  intros []. apply preserves_bind; [|done]. keep.
Qed.
End calls.
Hint Resolve keep_run_prog : preserves.

(** ** The load queue *)
Lemma keep_dispatch_frames loop : keeps_ok loop → keeps_ok (dispatch_frames loop).
Proof. intros Hl. unfold dispatch_frames. keep. Qed.
Lemma keep_load_unit_by loop name : keeps_ok loop → keeps_ok (load_unit_by loop name).
Proof.
  intros Hl. unfold load_unit_by. apply (keep_get_or name mret mret); [intros; apply preserves_ret|].
  intros s s' a Hok Hnone. unfold mbind, M_bind. destruct (prepare_unit name s) as [[s1 o]| |] eqn:Hp; [|done..].
  assert (um_ok s1) as Hok1 by by eapply keep_prepare_unit.
  assert (keeps_ok (match o with None => mret None | Some u => dispatch_frames loop;; mret (Some u) end)) as Hk.
  { pose proof (keep_dispatch_frames loop Hl). keep. }
  by apply Hk.
Qed.
Lemma keep_load_queue_loop fuel : keeps_ok (load_queue_loop fuel).
Proof.
  induction fuel as [|fuel IH]; [keep|]. intros s s' a Hok Hrun. cbn [load_queue_loop] in Hrun.
  rewrite run_get in Hrun. destruct (um_load_queue s) as [|u q] eqn:Hq; [by injection Hrun as <- _|].
  rewrite run_modify, run_rest_do in Hrun. revert Hrun.
  apply (keep_Unit_load (load_unit_by (load_queue_loop fuel))); [intros; by apply keep_load_unit_by|done..|].
  intros r. unfold load_state. keep.
Qed.
Lemma keep_load_unit fuel name : keeps_ok (load_unit fuel name).
Proof. apply keep_load_unit_by, keep_load_queue_loop. Qed.
End facts.
