(* ===== verification/UmMapFacts.v ===== *)
(** * Recovery of the unit manager

    After a restart, [um_db_map] builds the units, the dependencies, the queues and
    the watched processes again, from the tables. *)
From S2P Require Import Prelude UnitTypes Relation ReDb UnitDb UnitDbFacts RateLimit UnitEntry UnitFile ExecParams UnitIf JobRentry JobData UmStore UmLoad UmManager UmFacts.
Local Open Scope Z_scope.

(** The tables while the history is ignored, and when they are open again. *)
Definition rex_ignore (b : bool) (r : UnitReX) : UnitReX := {|
  rx_load := redb_set_ignore b (rx_load r); rx_conf := redb_set_ignore b (rx_conf r);
  rx_cgroup := redb_set_ignore b (rx_cgroup r); rx_child := redb_set_ignore b (rx_child r);
  rx_pps := redb_set_ignore b (rx_pps r); rx_notify := redb_set_ignore b (rx_notify r) |}.
Definition re_ignore (b : bool) (r : UnitRe) : UnitRe :=
  {| re_base := redb_set_ignore b (re_base r); re_dep := redb_set_ignore b (re_dep r) |}.
Definition um_ignore {E} (b : bool) (s : UM E) : UM E :=
  set_um_re (re_ignore b (um_re s)) (set_um_rex (rex_ignore b (um_rex s)) s).
(** The manager of a new process: the tables survive, and nothing else. *)
Definition restart {E} (d : UnitFileData) (st : State) (e : E) (s : UM E) : UM E := {|
  um_units := ∅; um_t := ∅; um_re := re_ignore true (um_re s); um_rex := rex_ignore true (um_rex s);
  um_load_queue := []; um_target_dep_queue := []; um_watch := ∅; um_file := d;
  um_notify_fd := -1; um_state := st; um_borrowed := ∅; um_rest := e |}.

Record quiet (r : UnitReX) : Prop := {
  quiet_load : redb_ignore (rx_load r) = true;
  quiet_conf : redb_ignore (rx_conf r) = true;
  quiet_cgroup : redb_ignore (rx_cgroup r) = true;
  quiet_child : redb_ignore (rx_child r) = true;
  quiet_pps : redb_ignore (rx_pps r) = true;
}.
Lemma rex_ignore_quiet r : quiet (rex_ignore true r).
Proof. by split. Qed.
(** What is written to a quiet table is dropped. *)
Lemma quiet_insert {K V} `{Countable K} (k : K) (v : V) r : redb_ignore r = true → redb_insert k v r = r.
Proof. intros Hr. unfold redb_insert. by rewrite Hr. Qed.
Lemma redb_get_ignore {K V} `{Countable K} (k : K) b (r : ReDb K V) : redb_get k (redb_set_ignore b r) = redb_get k r.
Proof. done. Qed.
Lemma set_rx_id r : set_rx_load (rx_load r) r = r ∧ set_rx_conf (rx_conf r) r = r ∧ set_rx_cgroup (rx_cgroup r) r = r
  ∧ set_rx_child (rx_child r) r = r ∧ set_rx_pps (rx_pps r) r = r.
Proof. by destruct r. Qed.

(** A unit that is read back from its tables. *)
Definition reread (r : UnitReX) (u : UnitId) (ut : UnitType) : UeUnit :=
  let x := UeUnit_new ut in
  let x := match redb_get u (rx_conf r) with
           | Some (c, i) => set_ue_install i (set_ue_config c x) | None => x end in
  let x := match redb_get u (rx_cgroup r) with Some p => set_ue_cg_path p x | None => x end in
  let x := match redb_get u (rx_load r) with Some st => set_ue_load_state st x | None => x end in
  set_ue_pids (ue_pids x ∪ list_to_set (default [] (redb_get u (rx_child r)))) x.
(** The parts of two entries that the tables keep. *)
Record same_unit (x x' : UeUnit) : Prop := {
  su_type : ue_type x' = ue_type x;
  su_load : ue_load_state x' = ue_load_state x;
  su_conf : with_ignore_on_isolate false (ue_config x') = with_ignore_on_isolate false (ue_config x);
  su_install : ue_install x' = ue_install x;
  su_cgroup : ue_cg_path x' = ue_cg_path x;
  su_pids : ue_pids x' = ue_pids x;
}.
Lemma reread_same r u x : row_ok r u x → same_unit x (reread r u (ue_type x)).
Proof.
  intros [R1 (c & R2 & R2') R3 (l & R4 & R4') R5]. unfold reread. rewrite R1, R2, R3, R4. simpl.
  split; try done. simpl. apply set_eq. intros p. rewrite elem_of_union, elem_of_list_to_set, R4'. set_solver.
Qed.

Section map.
Context `{HI : !HashIter} {E : Type}.
Context `{HS : !UmSys E} `{HF : !UnitFs E} `{HP : !Processes E} `{HL : !Reli E}.
Context `{HU : !SubUnitProgs E} `{HJ : !JobEngine E} `{HX : !Spawner E} `{HM : !SubManagers E}.
Implicit Types (s : UM E) (u v : UnitId) (x : UeUnit).

(** *** Quiet steps *)
Definition base_has u (s : UM E) : Prop := is_Some (redb_get u (re_base (um_re s))).
Lemma wp_quiet_write u (w : UnitReX → UnitReX) s (Q : UM E → unit → Prop) : base_has u s →
  w (um_rex s) = um_rex s → Q s tt → wp (base_contains u;; rx_modify w) s Q.
Proof.
  intros Hb Hw HQ. apply wp_bind, wp_base_contains; [done|]. unfold rx_modify. apply wp_mmodify. rewrite Hw. by destruct s.
Qed.
Ltac quiet_write :=
  match goal with H : quiet _ |- _ => destruct H end; cbv beta; rewrite quiet_insert by done; by apply set_rx_id.
Lemma wp_quiet_mark u (b : bool) s x (Q : UM E → unit → Prop) (f : UeUnit → UeUnit) mask : quiet (um_rex s) → base_has u s →
  um_units s !! u = Some x → Q (set_um_units (<[u:=f x]> (um_units s)) s) tt →
  wp (ue_modify u f;; if b then pps_set u mask else pps_clear u mask) s Q.
Proof.
  intros Hq Hb Hx HQ. apply wp_bind. eapply wp_ue_modify; [done|].
  destruct b; apply wp_quiet_write; try done; simpl; quiet_write.
Qed.
Lemma wp_quiet_new ut u s (Q : UM E → UeUnit → Prop) : quiet (um_rex s) → redb_ignore (re_base (um_re s)) = true →
  base_has u s → Q s (UeUnit_new ut) → wp (Unit_new ut u) s Q.
Proof.
  intros Hq Hi Hb HQ. unfold Unit_new, base_insert. apply wp_bind, wp_mmodify.
  assert (set_um_re {| re_base := redb_insert u ut (re_base (um_re s)); re_dep := re_dep (um_re s) |} s = s) as ->.
  { rewrite quiet_insert by done. by destruct s as [? ? []]. }
  do 6 (apply wp_bind, wp_quiet_write; [done|quiet_write|]). by apply wp_ret.
Qed.

(** ** The units *)
Context (Hplug : ∀ t n (e : E), t ≠ UnitTypeInvalid → (sub_create t n e).2 = true).
Lemma wp_map_unit u ut s (Q : UM E → unit → Prop) : quiet (um_rex s) → redb_ignore (re_base (um_re s)) = true →
  redb_get u (re_base (um_re s)) = Some ut → ut = unit_name_to_type u → ut ≠ UnitTypeInvalid →
  (∀ e, Q (set_um_rest e (set_um_units (<[u:=reread (um_rex s) u ut]> (um_units s)) s)) tt) →
  wp (map_unit u) s Q.
Proof.
  intros Hq Hi Hu Ht Hv HQ. unfold map_unit, try_new_unit. rewrite <- Ht. rewrite decide_False by done.
  apply wp_bind, wp_bind, wp_rest_call. rewrite Hplug by done. simpl negb. cbv iota. set (s1 := set_um_rest _ s).
  apply wp_bind, wp_quiet_new; [done..|by exists ut|]. apply wp_ret. apply wp_bind, wp_munwrap.
  eexists. split; [done|]. unfold Unit_db_map. apply wp_bind, wp_bind, wp_mgets.
  change (um_re s1) with (um_re s). rewrite Hu.
  apply wp_bind, wp_munwrap. eexists. split; [done|]. apply wp_bind, wp_massert. split; [by apply bool_decide_eq_true|].
  apply wp_bind, wp_mgets. apply wp_bind, wp_rest_do, wp_ret. unfold units_insert. apply wp_mmodify. apply HQ.
Qed.

(** The store after the first units. *)
Definition units_read (r : UnitReX) (b : ReDb UnitId UnitType) (dn : list UnitId) : gmap UnitId UeUnit :=
  foldl (λ m u, match redb_get u b with Some ut => <[u:=reread r u ut]> m | None => m end) ∅ dn.
Lemma units_read_lookup r b dn u : units_read r b dn !! u =
  if decide (u ∈ dn) then reread r u <$> redb_get u b else None.
Proof.
  unfold units_read. induction dn as [|v dn IH] using rev_ind.
  { rewrite decide_False by apply not_elem_of_nil. simpl. by rewrite lookup_empty. }
  rewrite foldl_app. simpl. destruct (decide (u = v)) as [->|Hne].
  - rewrite (decide_True (P:=v ∈ dn ++ [v])) by set_solver. destruct (redb_get v b) as [ut|] eqn:Hv;
      [by rewrite lookup_insert_eq|]. rewrite IH. by case_decide.
  - assert (u ∈ dn ++ [v] ↔ u ∈ dn) as Hin by set_solver.
    rewrite (decide_ext _ _ _ _ Hin). destruct (redb_get v b); [rewrite lookup_insert_ne by done|]; apply IH.
Qed.

(** The loop over the units. *)
Lemma wp_map_units s (Q : UM E → unit → Prop) : quiet (um_rex s) → redb_ignore (re_base (um_re s)) = true →
  um_units s = ∅ →
  (∀ u ut, redb_get u (re_base (um_re s)) = Some ut → ut = unit_name_to_type u ∧ ut ≠ UnitTypeInvalid) →
  (∀ e m, (∀ u, m !! u = reread (um_rex s) u <$> redb_get u (re_base (um_re s))) →
     Q (set_um_rest e (set_um_units m s)) tt) →
  wp (mforeach map_unit (redb_keys (re_base (um_re s)))) s Q.
Proof.
  intros Hq Hi Hnil Ht HQ. set (b := re_base (um_re s)) in *. set (r := um_rex s) in *.
  apply (wp_mforeach (λ dn s', ∃ e, s' = set_um_rest e (set_um_units (units_read r b dn) s))).
  - exists (um_rest s). change (units_read r b []) with (∅ : gmap UnitId UeUnit). rewrite <- Hnil. by destruct s.
  - intros dn u rest s1 Hl (e & ->).
    assert (is_Some (redb_get u b)) as [ut Hu].
    { apply (elem_of_hm_keys (redb_cache b)). unfold redb_keys in Hl. rewrite Hl. set_solver. }
    destruct (Ht _ _ Hu). eapply (wp_map_unit u ut); [done..|]. intros e'. exists e'.
    unfold units_read. rewrite foldl_app. simpl. by rewrite Hu.
  - intros s1 (e & ->). apply HQ. intros u. rewrite units_read_lookup. case_decide as Hin; [done|].
    destruct (redb_get u b) eqn:Hu; [|done]. destruct Hin. apply elem_of_hm_keys. by eexists.
Qed.

(** ** The processes *)
Lemma wp_child_map s (Q : UM E → unit → Prop) : um_watch s = ∅ →
  (∀ u, is_Some (redb_get u (rx_child (um_rex s))) → is_Some (um_units s !! u)) →
  (∀ w, (∀ p u, w !! p = Some u → ∃ l, redb_get u (rx_child (um_rex s)) = Some l ∧ p ∈ l) →
     (∀ p u l, redb_get u (rx_child (um_rex s)) = Some l → p ∈ l → is_Some (w !! p)) →
     Q (set_um_watch w s) tt) →
  wp child_db_map s Q.
Proof.
  intros Hnil Hin HQ. unfold child_db_map, child_keys. apply wp_bind, wp_mgets. set (t := rx_child (um_rex s)) in *.
  apply (wp_mforeach (λ dn s', ∃ w, s' = set_um_watch w s
    ∧ (∀ p u, w !! p = Some u → ∃ l, redb_get u t = Some l ∧ p ∈ l)
    ∧ (∀ p u l, u ∈ dn → redb_get u t = Some l → p ∈ l → is_Some (w !! p)))).
  - exists ∅. split_and!; [rewrite <- Hnil; by destruct s|intros p u Hp; by rewrite lookup_empty in Hp|set_solver].
  - intros dn u rest s1 Hl (w & -> & Hw1 & Hw2).
    assert (is_Some (redb_get u t)) as [l Hu].
    { apply (elem_of_hm_keys (redb_cache t)). unfold redb_keys in Hl. rewrite Hl. set_solver. }
    destruct (Hin u) as [x Hx]; [by eexists|]. apply wp_bind. eapply wp_ue_get; [done|].
    unfold child_get. apply wp_bind, wp_mgets. change (um_rex (set_um_watch w s)) with (um_rex s). fold t. rewrite Hu. simpl.
    apply (wp_mforeach (λ dp s', ∃ w', s' = set_um_watch w' s
      ∧ (∀ p v, w' !! p = Some v → ∃ l, redb_get v t = Some l ∧ p ∈ l)
      ∧ (∀ p, is_Some (w !! p) ∨ p ∈ dp → is_Some (w' !! p)))).
    + exists w. split_and!; [done..|]. intros p [?|?]; [done|set_solver].
    + intros dp p rest' s2 Hlp (w' & -> & H1 & H2). unfold watch_insert. apply wp_mmodify.
      exists (<[p:=u]> w'). split_and!; [done| |].
      * intros p' v. rewrite lookup_insert. case_decide as Hp; [|by apply H1]. intros [= <-]. subst p'.
        exists l. split; [done|]. rewrite Hlp. set_solver.
      * intros p' Hp'. rewrite lookup_insert. case_decide as Hp; [by eexists|]. apply H2. set_solver.
    + intros s2 (w' & -> & H1 & H2). exists w'. split_and!; [done..|].
      intros p v l' [Hv|Hv%list_elem_of_singleton]%elem_of_app Hl' Hp; [apply H2; left; by eapply Hw2|].
      subst v. apply H2. right. congruence.
  - intros s1 (w & -> & Hw1 & Hw2). apply HQ; [done|]. intros p u l Hu Hp.
    eapply (Hw2 p u l); [apply elem_of_hm_keys; by eexists|done..].
Qed.

(** ** The queues *)
Definition has_bit (r : UnitReX) (mask : Z) (u : UnitId) : bool := pps_has (pps_get r u) mask.
Lemma wp_map_load u x s (Q : UM E → unit → Prop) : quiet (um_rex s) → base_has u s →
  um_units s !! u = Some x → ue_in_load x = false →
  Q (if has_bit (um_rex s) QUEUE_LOAD u
     then set_um_load_queue (um_load_queue s ++ [u]) (set_um_units (<[u:=set_ue_in_load true x]> (um_units s)) s)
     else s) tt →
  wp (rt_map_queue QUEUE_LOAD push_load_queue u) s Q.
Proof.
  intros Hq Hb Hx Hf HQ. unfold rt_map_queue, pps_contains, has_bit in *. apply wp_bind, wp_mgets.
  destruct (pps_has _ _); [|by apply wp_ret]. unfold units_get. apply wp_bind, wp_mgets.
  rewrite bool_decide_true by by eexists. apply wp_bind, wp_munwrap. eexists. split; [done|].
  unfold push_load_queue. apply wp_bind. eapply wp_ue_get; [done|]. rewrite Hf. apply wp_bind.
  apply (wp_quiet_mark u true s x); [done..|]. by apply wp_mmodify.
Qed.
Lemma wp_map_target u x s (Q : UM E → unit → Prop) : quiet (um_rex s) → base_has u s →
  um_units s !! u = Some x → ue_in_target x = false →
  Q (if has_bit (um_rex s) QUEUE_TARGET_DEPS u
     then set_um_target_dep_queue (um_target_dep_queue s ++ [u])
            (set_um_units (<[u:=set_ue_in_target true x]> (um_units s)) s)
     else s) tt →
  wp (rt_map_queue QUEUE_TARGET_DEPS push_target_dep_queue u) s Q.
Proof.
  intros Hq Hb Hx Hf HQ. unfold rt_map_queue, pps_contains, has_bit in *. apply wp_bind, wp_mgets.
  destruct (pps_has _ _); [|by apply wp_ret]. unfold units_get. apply wp_bind, wp_mgets.
  rewrite bool_decide_true by by eexists. apply wp_bind, wp_munwrap. eexists. split; [done|].
  unfold push_target_dep_queue. apply wp_bind. eapply wp_ue_get; [done|]. rewrite Hf. apply wp_bind.
  apply (wp_quiet_mark u true s x); [done..|]. by apply wp_mmodify.
Qed.

(** The entry of a unit with the marks that its row has. *)
Definition marked (r : UnitReX) (u : UnitId) (x : UeUnit) : UeUnit :=
  set_ue_in_target (has_bit r QUEUE_TARGET_DEPS u) (set_ue_in_load (has_bit r QUEUE_LOAD u) x).
Definition bits_of (r : UnitReX) (mask : Z) (l : list UnitId) : list UnitId :=
  filter (λ u, has_bit r mask u = true) l.
Lemma bits_of_snoc r mask l u : bits_of r mask (l ++ [u])
  = if has_bit r mask u then bits_of r mask l ++ [u] else bits_of r mask l.
Proof.
  unfold bits_of. rewrite filter_app, filter_cons, filter_nil.
  destruct (has_bit r mask u); simpl; [done|by rewrite app_nil_r].
Qed.
(** The store in which the first units are marked. *)
Definition queued (dn : list UnitId) (m : gmap UnitId UeUnit) (s : UM E) : UM E :=
  set_um_load_queue (bits_of (um_rex s) QUEUE_LOAD dn)
    (set_um_target_dep_queue (bits_of (um_rex s) QUEUE_TARGET_DEPS dn) (set_um_units m s)).
Lemma wp_rt_map s (Q : UM E → unit → Prop) : quiet (um_rex s) → um_load_queue s = [] → um_target_dep_queue s = [] →
  (∀ u, is_Some (redb_get u (rx_pps (um_rex s))) → base_has u s ∧ is_Some (um_units s !! u)) →
  (∀ u x, um_units s !! u = Some x → ue_in_load x = false ∧ ue_in_target x = false) →
  (∀ m, (∀ u, m !! u = (λ x, if decide (u ∈ redb_keys (rx_pps (um_rex s)))
                         then marked (um_rex s) u x else x) <$> um_units s !! u) →
     Q (queued (redb_keys (rx_pps (um_rex s))) m s) tt) →
  wp rt_db_map s Q.
Proof.
  intros Hq Hl Ht Hin Hm HQ. unfold rt_db_map, pps_keys. apply wp_bind, wp_mgets.
  set (r := um_rex s) in *. set (keys := redb_keys (rx_pps r)).
  apply (wp_mforeach (λ dn s', ∃ m, s' = queued dn m s
    ∧ ∀ u, m !! u = (λ x, if decide (u ∈ dn) then marked r u x else x) <$> um_units s !! u)).
  - exists (um_units s). split; [destruct s; simpl in *; by subst|]. intros u.
    destruct (um_units s !! u); [|done]. unfold fmap, option_fmap, option_map. by rewrite decide_False by apply not_elem_of_nil.
  - intros dn u rest s1 Hk (m & -> & Hmu).
    assert (u ∉ dn) as Hnd.
    { pose proof (NoDup_hm_keys (redb_cache (rx_pps r))) as Hn. change (hm_keys _) with keys in Hn.
      rewrite Hk in Hn. apply NoDup_app in Hn as (_ & Hn & _). intros Hu. apply (Hn u Hu). by left. }
    destruct (Hin u) as [Hb [x Hx]].
    { apply (elem_of_hm_keys (redb_cache (rx_pps r))). change (hm_keys _) with keys. rewrite Hk. set_solver. }
    destruct (Hm _ _ Hx) as [F1 F2].
    assert (m !! u = Some x) as Hmx by (rewrite Hmu, Hx; simpl; by rewrite decide_False).
    apply wp_bind. eapply wp_map_load; [done..|]. change (um_rex (queued dn m s)) with r.
    set (m1 := if has_bit r QUEUE_LOAD u then <[u:=set_ue_in_load true x]> m else m).
    set (x1 := set_ue_in_load (has_bit r QUEUE_LOAD u) x).
    assert (m1 !! u = Some x1) as Hm1.
    { unfold m1, x1. destruct (has_bit r QUEUE_LOAD u); [by rewrite lookup_insert_eq|]. rewrite Hmx. by destruct x; simpl in *; subst. }
    set (s1 := if has_bit r QUEUE_LOAD u then _ else _).
    assert (s1 = set_um_load_queue (bits_of r QUEUE_LOAD (dn ++ [u])) (set_um_units m1 (queued dn m s))) as ->.
    { unfold s1, m1. rewrite bits_of_snoc. by destruct (has_bit r QUEUE_LOAD u). }
    eapply wp_map_target; [done..|]. change (um_rex _) with r.
    exists (if has_bit r QUEUE_TARGET_DEPS u then <[u:=set_ue_in_target true x1]> m1 else m1).
    split.
    + unfold queued. fold r. rewrite !bits_of_snoc. by destruct (has_bit r QUEUE_TARGET_DEPS u).
    + intros v. destruct (decide (v = u)) as [->|Hne].
      * rewrite Hx. simpl. rewrite decide_True by set_solver. unfold marked. fold x1.
        destruct (has_bit r QUEUE_TARGET_DEPS u); [by rewrite lookup_insert_eq|]. rewrite Hm1.
        by destruct x; simpl in *; subst.
      * assert (v ∈ dn ++ [u] ↔ v ∈ dn) as Hiff by set_solver.
        trans (m !! v); [unfold m1; destruct (has_bit r QUEUE_TARGET_DEPS u), (has_bit r QUEUE_LOAD u); by rewrite ?lookup_insert_ne|].
        rewrite Hmu. destruct (um_units s !! v); [|done]. unfold fmap, option_fmap, option_map. f_equal. by apply decide_ext.
  - intros s1 (m & -> & Hmu). by apply HQ.
Qed.

(** ** The whole recovery *)
Lemma pps_of_has x : pps_has (pps_of x) QUEUE_LOAD = ue_in_load x
  ∧ pps_has (pps_of x) QUEUE_TARGET_DEPS = ue_in_target x.
Proof. unfold pps_of. by destruct (ue_in_load x), (ue_in_target x). Qed.
Lemma has_bit_row r u x : row_ok r u x → has_bit r QUEUE_LOAD u = ue_in_load x
  ∧ has_bit r QUEUE_TARGET_DEPS u = ue_in_target x.
Proof. intros Hr. unfold has_bit, pps_get. rewrite (row_pps _ _ _ Hr). apply pps_of_has. Qed.

(** What the recovery gives back. *)
Record restored (s s' : UM E) : Prop := {
  rs_ok : um_ok (um_ignore false s');
  rs_units : dom (um_units s') = dom (um_units s);
  rs_unit u x : um_units s !! u = Some x → ∃ x', um_units s' !! u = Some x'
    ∧ same_unit x x' ∧ ue_in_load x' = ue_in_load x ∧ ue_in_target x' = ue_in_target x;
  rs_deps a r b : UnitDepData.is_dep_with (um_t s') a r b = UnitDepData.is_dep_with (um_t s) a r b;
  rs_load : um_load_queue s' ≡ₚ um_load_queue s;
  rs_target : um_target_dep_queue s' ≡ₚ um_target_dep_queue s;
  rs_watch p : is_Some (um_watch s' !! p) ↔ ∃ u x, um_units s !! u = Some x ∧ p ∈ ue_pids x;
}.

(** The entry that the recovery ends with. *)
Definition remade (r : UnitReX) (u : UnitId) (x : UeUnit) : UeUnit := marked r u (reread r u (ue_type x)).
Lemma remade_same r u x : row_ok r u x → same_unit x (remade r u x)
  ∧ ue_in_load (remade r u x) = ue_in_load x ∧ ue_in_target (remade r u x) = ue_in_target x.
Proof.
  intros Hr. destruct (has_bit_row _ _ _ Hr) as [H1 H2]. split; [|done].
  destruct (reread_same _ _ _ Hr). by split.
Qed.
Lemma remade_row r u x : row_ok r u x → row_ok r u (remade r u x).
Proof.
  intros Hr. destruct (remade_same _ _ _ Hr) as [[S1 S2 S3 S4 S5 S6] [E1 E2]].
  destruct Hr as [R1 (c & R2 & R2') R3 (l & R4 & R4') R5].
  split; rewrite ?S2, ?S4, ?S5; try done.
  - exists c. by rewrite S3.
  - exists l. by rewrite S6.
  - rewrite R5. unfold pps_of. by rewrite E1, E2.
Qed.
Lemma row_ok_ignore b r u x : row_ok r u x → row_ok (rex_ignore b r) u x.
Proof. by intros []; split. Qed.
Lemma queue_bits s mask flag q : queue_ok flag q s → tables_ok s →
  (∀ u x, um_units s !! u = Some x → has_bit (um_rex s) mask u = flag x) →
  bits_of (um_rex s) mask (redb_keys (rx_pps (um_rex s))) ≡ₚ q
  ∧ NoDup (bits_of (um_rex s) mask (redb_keys (rx_pps (um_rex s)))).
Proof.
  intros [Hn Hq] Ht Hbit. assert (NoDup (bits_of (um_rex s) mask (redb_keys (rx_pps (um_rex s))))) as Hnd.
  { apply NoDup_filter, NoDup_hm_keys. }
  split; [|done]. apply NoDup_Permutation; [done..|]. intros u. unfold bits_of.
  rewrite list_elem_of_filter, Hq. unfold redb_keys. rewrite elem_of_hm_keys. split.
  - intros [Hb Hk]. destruct (to_pps_keys _ Ht u Hk) as [x Hx]. exists x. split; [done|]. by rewrite <- (Hbit _ _ Hx).
  - intros (x & Hx & Hf). split; [by rewrite (Hbit _ _ Hx)|].
    pose proof (row_pps _ _ _ (to_row _ _ _ Ht Hx)) as Hp. by eexists.
Qed.

(** The units of the tables are those of the manager. *)
Lemma map_reread s (m : gmap UnitId UeUnit) : tables_ok s →
  (∀ u, m !! u = reread (rex_ignore true (um_rex s)) u <$> redb_get u (re_base (um_re s))) →
  ∀ u, m !! u = (λ x, reread (um_rex s) u (ue_type x)) <$> um_units s !! u.
Proof.
  intros Ht Hm u. rewrite Hm. destruct (um_units s !! u) as [x|] eqn:Hx.
  - by rewrite (uo_base _ _ _ (to_units _ Ht _ _ Hx)).
  - destruct (redb_get u (re_base (um_re s))) eqn:Hu; [|done].
    destruct (to_keys _ Ht u) as [x Hx']; [by eexists|congruence].
Qed.
Lemma dom_fmap_at (f : UnitId → UeUnit → UeUnit) (m m' : gmap UnitId UeUnit) :
  (∀ u, m' !! u = f u <$> m !! u) → dom m' = dom m.
Proof. intros Hm. apply set_eq. intros u. rewrite !elem_of_dom, Hm. by rewrite fmap_is_Some. Qed.

(** The parts of the invariant, one by one. *)
Section again.
Context (s : UM E) (m : gmap UnitId UeUnit) (Ht : tables_ok s).
Context (Hm : ∀ u, m !! u = remade (um_rex s) u <$> um_units s !! u).
Lemma again_inv u x' : m !! u = Some x' →
  ∃ x, um_units s !! u = Some x ∧ x' = remade (um_rex s) u x ∧ row_ok (um_rex s) u x.
Proof using Ht Hm.
  rewrite Hm. intros (x & Hx & ->)%fmap_Some. exists x. split_and!; [done..|]. by apply to_row.
Qed.
Lemma again_tables s' : um_units s' = m → um_re s' = re_ignore false (re_ignore true (um_re s)) →
  um_rex s' = rex_ignore false (rex_ignore true (um_rex s)) → tables_ok s'.
Proof using Ht Hm.
  intros E1 E2 E3. destruct Ht as [T1 T2 T3 T4 T5 T6].
  assert (∀ u, is_Some (um_units s !! u) → is_Some (m !! u)) as Hin by (intros u; by rewrite Hm, fmap_is_Some).
  split; rewrite ?E1, ?E2, ?E3; simpl; [by destruct T1|done| | | |]; try (intros u Hu; by apply Hin; eauto).
  intros u x' Hx'. destruct (again_inv _ _ Hx') as (x & Hx & -> & Hr). destruct (T3 _ _ Hx) as [U1 U2 U3].
  pose proof (su_type _ _ (proj1 (remade_same _ _ _ Hr))) as Hty.
  split; rewrite ?Hty, ?E2, ?E3; [done..|]. by apply row_ok_ignore, row_ok_ignore, remade_row.
Qed.
Lemma again_queue flag q q' : queue_ok flag q s → q' ≡ₚ q → NoDup q' →
  (∀ u x, row_ok (um_rex s) u x → flag (remade (um_rex s) u x) = flag x) →
  NoDup q' ∧ ∀ u, u ∈ q' ↔ ∃ x, m !! u = Some x ∧ flag x = true.
Proof using Ht Hm.
  intros [Hqn Hq] Hperm Hq'n Hf. split; [done|]. intros u. rewrite Hperm, Hq. split.
  - intros (x & Hx & Hfx). exists (remade (um_rex s) u x). rewrite Hm, Hx. split; [done|].
    rewrite Hf; [done|by apply to_row].
  - intros (x' & Hx' & Hfx). destruct (again_inv _ _ Hx') as (x & Hx & -> & Hr). exists x. by rewrite <- (Hf u x Hr).
Qed.
Lemma again_child u l p : redb_get u (rx_child (um_rex s)) = Some l → p ∈ l →
  ∃ x, um_units s !! u = Some x ∧ p ∈ ue_pids x ∧ p ∈ ue_pids (remade (um_rex s) u x).
Proof using Ht.
  intros Hu Hp. destruct (to_child_keys _ Ht u) as [x Hx]; [by eexists|]. exists x.
  pose proof (to_row _ _ _ Ht Hx) as Hr. rewrite (su_pids _ _ (proj1 (remade_same _ _ _ Hr))).
  destruct (row_child _ _ _ Hr) as (l' & Hl' & Hpx). assert (p ∈ ue_pids x) by (apply Hpx; congruence). done.
Qed.
End again.

(** The store that [um_db_map] builds is the old one again. *)
Lemma restored_intro s d st e0 e fd t w m : um_ok s →
  (∀ u, m !! u = remade (um_rex s) u <$> um_units s !! u) →
  (∀ a r b, UnitDepData.is_dep_with t a r b = UnitDepData.is_dep_with (um_t s) a r b) →
  (∀ p u, w !! p = Some u → ∃ l, redb_get u (rx_child (um_rex s)) = Some l ∧ p ∈ l) →
  (∀ p u l, redb_get u (rx_child (um_rex s)) = Some l → p ∈ l → is_Some (w !! p)) →
  restored s (set_um_notify_fd fd (set_um_rest e (queued (redb_keys (rx_pps (um_rex s))) m
    (set_um_watch w (set_um_t t (restart d st e0 s)))))).
Proof.
  intros [Ht Hd Hl Hta Hw] Hm Hdep Hw1 Hw2.
  assert (∀ u x, row_ok (um_rex s) u x → ue_in_load (remade (um_rex s) u x) = ue_in_load x
    ∧ ue_in_target (remade (um_rex s) u x) = ue_in_target x) as Hmark by (intros u x Hr; by apply remade_same).
  destruct (queue_bits s QUEUE_LOAD _ _ Hl Ht) as [Hp1 Hn1]; [intros u x Hx; by eapply has_bit_row, to_row|].
  destruct (queue_bits s QUEUE_TARGET_DEPS _ _ Hta Ht) as [Hp2 Hn2]; [intros u x Hx; by eapply has_bit_row, to_row|].
  assert (dom m = dom (um_units s)) as Hdom by by eapply dom_fmap_at.
  split; simpl; [|done|..|done|done|].
  - split; simpl.
    + by eapply again_tables.
    + unfold um_dep. simpl. rewrite Hdom. destruct Hd as [D1 D2 D3 D4 D5 D6].
      split; simpl; [done|done|..|done]; intros *; rewrite ?Hdep; eauto.
    + eapply again_queue; [done..|]. intros u x Hr. by apply Hmark.
    + eapply again_queue; [done..|]. intros u x Hr. by apply Hmark.
    + intros p u Hp. destruct (Hw1 _ _ Hp) as (l & Hu & Hpl).
      destruct (again_child s Ht _ _ _ Hu Hpl) as (x & Hx & _ & Hpx). eexists. by rewrite Hm, Hx.
  - intros u x Hx. exists (remade (um_rex s) u x). rewrite Hm, Hx. split; [done|].
    by eapply remade_same, to_row.
  - done.
  - intros p. split.
    + intros [u Hp]. destruct (Hw1 _ _ Hp) as (l & Hu & Hpl).
      destruct (again_child s Ht _ _ _ Hu Hpl) as (x & Hx & Hpx & _). by exists u, x.
    + intros (u & x & Hx & Hp). destruct (row_child _ _ _ (to_row _ _ _ Ht Hx)) as (l & Hl' & Hpx).
      by eapply Hw2, Hpx.
Qed.

(** The last steps change no unit and no table. *)
Lemma wp_sub_all (f : UnitType → E → E) s : wp (sub_all f) s (λ s' _, ∃ e, s' = set_um_rest e s).
Proof.
  unfold sub_all. apply (wp_mforeach (λ _ s', ∃ e, s' = set_um_rest e s)).
  - exists (um_rest s). by destruct s.
  - intros dn t rest s1 _ (e & ->). apply wp_rest_do. by eexists.
  - done.
Qed.
Lemma wp_map_tail s : wp (mmodify (λ s, set_um_rest (jm_db_map s) s);; notify_db_map;; sub_all sm_db_map) s
  (λ s' _, ∃ e fd, s' = set_um_notify_fd fd (set_um_rest e s)).
Proof.
  apply wp_bind, wp_mmodify, wp_bind. unfold notify_db_map, notify_get. apply wp_bind, wp_mgets.
  destruct (redb_get _ _).
  - apply wp_bind, wp_rest_call, wp_mmodify. eapply wp_mono; [apply wp_sub_all|].
    intros s' [] (e & ->). by eexists _, _.
  - apply wp_ret. eapply wp_mono; [apply wp_sub_all|]. intros s' [] (e & ->).
    exists e, (um_notify_fd s). by destruct s.
Qed.
Lemma reread_marks r u ut : ue_in_load (reread r u ut) = false ∧ ue_in_target (reread r u ut) = false.
Proof. unfold reread. repeat case_match; done. Qed.

End map.
