(* ===== verification/UmManagerFacts.v ===== *)
(** * The unit manager's events

    Every way into the unit manager, and the invariant in every store that they
    reach; what a child that ends leaves behind; what a notification that is
    written line by line is read as. *)
From Stdlib Require Import Ascii.
From S2P Require Import Prelude UnitTypes Relation ReDb UnitDb UnitDbFacts RateLimit Condition UnitEntry StdString ShowTable Reli UnitFile ExecParams UnitIf JobRentry JobData UmStore UmLoad UmManager UmFacts UmInvFacts.
Local Open Scope Z_scope.

#[local] Hint Resolve keep_rest_do keep_rest_call keep_run_prog keep_load_unit keep_unwatch_pid
  keep_set_load_state keep_dispatch_target_dep_queue keep_load_queue_loop : preserves.

Section facts.
Context `{HI : !HashIter} {E : Type}.
Context `{HS : !UmSys E} `{HF : !UnitFs E} `{HP : !Processes E} `{HL : !Reli E}.
Context `{HU : !SubUnitProgs E} `{HJ : !JobEngine E} `{HX : !Spawner E}.
Context `{HC : !ChildWait E} `{HN : !NotifySock E} `{HM : !SubManagers E} `{HE : !EventLoop UmSource E}.
Implicit Types (s : UM E) (u v : UnitId) (x : UeUnit).
Abbreviation keeps_ok := (preserves (um_ok (E:=E))).

(** ** The entries *)

(** One entry into the unit manager: a unit that is asked for, the two queues, a
    program of a unit (what a plugin does in a callback), a child that has ended, a
    notification; and the rest of the system, that moves by itself. *)
Inductive um_step : UM E → UM E → Prop :=
| step_load fuel name s s' o : load_unit fuel name s = Returned (s', o) → um_step s s'
| step_load_queue fuel s s' : load_queue_loop fuel s = Returned (s', tt) → um_step s s'
| step_target_queue s s' : dispatch_target_dep_queue s = Returned (s', tt) → um_step s s'
| step_prog fuel {A} (p : Prog E A) s s' a : run_prog (load_unit fuel) p s = Returned (s', a) → um_step s s'
| step_sigchld fuel s s' z : sigchld_source_dispatch (load_unit fuel) s = Returned (s', z) → um_step s s'
| step_notify fuel s s' z : notify_source_dispatch (load_unit fuel) s = Returned (s', z) → um_step s s'
| step_rest e s : um_step s (set_um_rest e s).

Section handlers.
Context (load : string → M (UM E) (option UnitId)) (Hload : ∀ name, keeps_ok (load name)).
Lemma keep_prog {A} (p : Prog E A) : keeps_ok (run_prog load p).
Proof using Hload. by apply keep_run_prog. Qed.
Hint Resolve keep_prog : preserves.
Lemma keep_sigchld : keeps_ok (sigchld_source_dispatch load).
Proof using Hload.
  unfold sigchld_source_dispatch, sigchld_dispatch, sigchld_unit, sigchld_enable, set_enabled, get_unit_by_pid, rest_ask.
  keep.
Qed.
Lemma keep_notify_dispatch : keeps_ok (notify_source_dispatch load).
Proof using Hload.
  unfold notify_source_dispatch, notify_dispatch, notify_recv_dispatch, notify_peek_pid, get_unit_by_pid. keep.
Qed.
End handlers.

(** C4: the invariant of the unit manager, in every store that is reached from a
    good one: the persisted rows are those of the entries, a queue holds, once, the
    units with its mark, a watched process is one of its unit's, the dependencies
    are symmetric, between units, and saved.  Loading units, the programs of the
    plugins, the children that end and the notifications all keep it, whatever the
    files, the plugins, the job engine and the system answer. *)
Theorem um_reachable_ok s s' : um_ok s → rtc um_step s s' → um_ok s'.
Proof.
  intros Hok Hr. induction Hr as [|s1 s2 s3 Hs _ IH]; [done|]. apply IH. clear IH.
  destruct Hs as [fuel n s s' o Hr|fuel s s' Hr|s s' Hr|fuel A p s s' a Hr|fuel s s' z Hr|fuel s s' z Hr|e s].
  - by eapply keep_load_unit.
  - by eapply keep_load_queue_loop.
  - by eapply keep_dispatch_target_dep_queue.
  - eapply keep_prog; [|done..]. intros n. apply keep_load_unit.
  - eapply keep_sigchld; [|done..]. intros n. apply keep_load_unit.
  - eapply keep_notify_dispatch; [|done..]. intros n. apply keep_load_unit.
  - by apply (um_ok_core s).
Qed.

(** ** A child that has ended *)
Lemma wp_unwatch_pid u x pid s : um_ok s → um_units s !! u = Some x →
  wp (unwatch_pid u pid) s (λ s' _, um_ok s' ∧ um_watch s' !! pid = None ∧ um_rest s' = um_rest s
    ∧ ∃ x', um_units s' !! u = Some x' ∧ pid ∉ ue_pids x').
Proof.
  intros Hok Hx.
  assert (wp (unwatch_pid u pid) s (λ s' _, stepped u (set_ue_pids (ue_pids x ∖ {[pid]}) x)
    (set_um_watch (delete pid (um_watch s)) s) s')) as Hw.
  { unfold unwatch_pid. apply wp_bind. eapply wp_ue_get; [done|]. apply wp_bind, wp_mmodify.
    apply wp_child_remove_pids; [by apply (tables_ok_ext s); [..|apply Hok]|done]. }
  unfold wp in *. destruct (unwatch_pid u pid s) as [[s' []]| |] eqn:Hr; [|done..].
  split; [by eapply keep_unwatch_pid|]. destruct Hw as [[r ->] _]. simpl.
  rewrite lookup_delete_eq, lookup_insert_eq. split_and!; [done..|]. eexists. split; [done|].
  unfold set_ue_pids. simpl. set_solver.
Qed.
(** What [waitid] says of a process that has ended. *)
Definition ended (ws : WaitStatus) (pid : Pid) : Prop :=
  (∃ code, ws = Exited pid code) ∨ (∃ sig core, ws = Signaled pid sig core).

(** C32: a watched child that ends is forgotten.  Its unit is told, with the unit as
    the last one of [Reliability]; when that returns, the process leaves the watched
    ones and its unit's, the record of the last unit is cleared, the child is
    reaped, and the source stays enabled for the next one. *)
Theorem sigchld_forgets fuel u pid ws s s1 : um_ok s → wt_peek (um_rest s) = Ok ws → ended ws pid → 0 < pid →
  um_watch s !! pid = Some u →
  run_prog (load_unit fuel) (sp_sigchld_events u ws) (set_um_rest (reli_set_last_unit u (um_rest s)) s)
    = Returned (s1, tt) →
  is_Some (um_units s1 !! u) →
  wp (sigchld_dispatch (load_unit fuel)) s (λ s' again, again = true ∧ um_ok s'
    ∧ um_watch s' !! pid = None ∧ (∃ x, um_units s' !! u = Some x ∧ pid ∉ ue_pids x)
    ∧ um_rest s' = (wt_reap pid (reli_clear_last_unit (um_rest s1))).1).
Proof.
  intros Hok Hp He Hpos Hwatch Hrun [x Hx].
  assert (um_ok s1) as Hok1.
  { eapply (keep_prog (load_unit fuel)); [intros n; apply keep_load_unit| |exact Hrun]. by apply (um_ok_core s). }
  unfold sigchld_dispatch, rest_ask. apply wp_bind, wp_mgets. rewrite Hp.
  assert (wp (o ← get_unit_by_pid pid; match o with Some u => sigchld_unit (load_unit fuel) u pid ws | None => mret tt end;;
    rest_call (wt_reap pid);; mret true) s (λ s' again, again = true ∧ um_ok s'
    ∧ um_watch s' !! pid = None ∧ (∃ x, um_units s' !! u = Some x ∧ pid ∉ ue_pids x)
    ∧ um_rest s' = (wt_reap pid (reli_clear_last_unit (um_rest s1))).1)) as Hend.
  { unfold get_unit_by_pid. apply wp_bind, wp_mgets. rewrite Hwatch. apply wp_bind. unfold sigchld_unit.
    apply wp_bind, wp_rest_do, wp_bind. unfold wp at 1. rewrite Hrun. apply wp_bind.
    eapply wp_mono; [by eapply wp_unwatch_pid|]. intros s2 [] (H1 & H2 & H3 & H4).
    apply wp_rest_do, wp_bind, wp_rest_call, wp_ret. rewrite H3. split_and!; try done.
    by apply (um_ok_core s2). }
  destruct He as [[code ->]|(sig & core & ->)]; simpl; (rewrite (proj2 (Z.leb_gt pid 0)) by lia); exact Hend.
Qed.
End facts.

(** ** Notifications *)

(** A message as its sender writes it: a key and a value in each line. *)
Definition notify_render_line (kv : list ascii * list ascii) : list ascii := kv.1 ++ "="%char :: kv.2.
Definition notify_render (kvs : list (list ascii * list ascii)) : list ascii :=
  concat ((λ kv, notify_render_line kv ++ ["010"%char]) <$> kvs).
(** Without an equals sign, a line feed, or what the reader trims at the end. *)
Definition plain (cs : list ascii) : Prop := ∀ c, c ∈ cs → c ≠ "="%char ∧ c ≠ "010"%char.
Record notify_ok (kv : list ascii * list ascii) : Prop := {
  no_key : plain kv.1;
  no_value : plain kv.2;
  no_key_end c : last kv.1 = Some c → c ≠ "000"%char;
  no_value_end c : last kv.2 = Some c → c ≠ "000"%char ∧ is_space c = false;
}.
Definition notify_map (kvs : list (list ascii * list ascii)) : gmap string string :=
  foldl (λ m kv, <[of_chars kv.1 := of_chars kv.2]> m) ∅ kvs.

Lemma eqb_false a b : b ≠ a → Ascii.eqb a b = false.
Proof. intros Hab. apply Ascii.eqb_neq. congruence. Qed.
Lemma trim_zeros_id cs : (∀ c, last cs = Some c → c ≠ "000"%char) → trim_zeros cs = cs.
Proof.
  intros Hl. unfold trim_zeros. destruct cs as [|c cs _] using rev_ind; [done|].
  rewrite rev_unit. simpl. rewrite decide_False; [|apply Hl, last_snoc]. simpl. by rewrite rev_involutive.
Qed.
Lemma trim_end_id cs : (∀ c, last cs = Some c → is_space c = false) → trim_end cs = cs.
Proof.
  intros Hl. unfold trim_end. destruct cs as [|c cs _] using rev_ind; [done|].
  rewrite rev_unit. simpl. rewrite Hl by apply last_snoc. simpl. by rewrite rev_involutive.
Qed.
Lemma strip_cr_id cs : (∀ c, last cs = Some c → is_space c = false) → strip_cr cs = cs.
Proof.
  intros Hl. unfold strip_cr. destruct (last cs) as [c|]; [|done]. rewrite decide_False; [done|].
  intros ->. by specialize (Hl _ eq_refl).
Qed.
Lemma render_line_nl kv : notify_ok kv → ∀ c, c ∈ notify_render_line kv → Ascii.eqb "010"%char c = false.
Proof.
  intros [Hk Hv _ _] c [Hc|[->|Hc]%elem_of_cons]%elem_of_app; [apply eqb_false, Hk, Hc|done|apply eqb_false, Hv, Hc].
Qed.
Lemma render_line_strip kv : notify_ok kv → strip_cr (notify_render_line kv) = notify_render_line kv.
Proof.
  intros [_ _ _ Hv]. apply strip_cr_id. intros c. unfold notify_render_line. rewrite last_app_cons, last_cons.
  destruct (last kv.2) as [d|]; [intros [= <-]; by apply Hv|by intros [= <-]].
Qed.
(** One line is read as its key and its value. *)
Lemma notify_line_render m kv : notify_ok kv →
  notify_line m (notify_render_line kv) = <[of_chars kv.1 := of_chars kv.2]> m.
Proof.
  intros [Hk Hv Hke Hve]. unfold notify_line, notify_render_line. rewrite split_on_sep; [|by intros c Hc; apply eqb_false, Hk|done].
  rewrite split_on_last; [|by intros c Hc; apply eqb_false, Hv]. simpl.
  rewrite (trim_zeros_id kv.1 Hke), (trim_zeros_id kv.2), trim_end_id; [done|by intros c Hc; apply Hve..].
Qed.
Lemma split_render kvs tail : Forall notify_ok kvs → "010"%char ∉ tail →
  split_on (Ascii.eqb "010"%char) [] (notify_render kvs ++ tail) = (notify_render_line <$> kvs) ++ [tail].
Proof.
  intros Hok Ht. induction Hok as [|kv kvs Hkv _ IH]; simpl.
  - apply split_on_last. intros c Hc. apply eqb_false. intros ->. done.
  - unfold notify_render in *. simpl. rewrite <- !app_assoc. simpl.
    rewrite split_on_sep; [simpl; f_equal; exact IH|by apply render_line_nl|done].
Qed.

(** Notifications round trip.  Lines of a key, an equals sign and a value, with the
    zero bytes of the buffer behind them, are read back as the map of these keys and
    values, the last line of a key winning. *)
Theorem notify_messages_roundtrip kvs n : Forall notify_ok kvs →
  notify_messages (notify_render kvs ++ replicate n "000"%char) = notify_map kvs.
Proof.
  intros Hok. unfold notify_messages, lines. rewrite split_render; [|done|by intros [? _]%elem_of_replicate].
  rewrite length_app, length_fmap, last_snoc. simpl. rewrite Nat.add_sub, take_app_length' by by rewrite length_fmap.
  assert (((λ l, strip_cr l) <$> (notify_render_line <$> kvs)) = notify_render_line <$> kvs) as ->.
  { rewrite <- list_fmap_compose. apply list_fmap_ext. intros i kv Hi. apply render_line_strip. by eapply Forall_lookup_1. }
  assert (∀ m, foldl notify_line m (notify_render_line <$> kvs)
    = foldl (λ m kv, <[of_chars kv.1 := of_chars kv.2]> m) m kvs) as Hfold.
  { induction Hok as [|kv kvs Hkv _ IH]; intros m; simpl; [done|]. by rewrite notify_line_render, IH. }
  destruct n as [|n]; simpl; [apply Hfold|]. rewrite foldl_app, Hfold. unfold notify_map. simpl.
  unfold notify_line at 1. rewrite split_on_last; [done|].
  intros c [->|[-> _]%elem_of_replicate]%elem_of_cons; done.
Qed.
