(* ===== verification/ManagerFacts.v ===== *)
(** * The manager's process: what commands, signals and reboots do

    The four ways of [sctl] to stop the system, from the request to the state of the
    manager; the signals that the manager subscribes to; a reboot when no process is
    left. *)
From Stdlib Require Import Ascii.
From S2P Require Import Prelude UnitTypes Relation ReDb UnitDb RateLimit Condition UnitEntry StdString ShowTable Reli UnitFile ExecParams UnitIf ProcessUtil JobRentry JobData UmStore UmLoad UmManager CmdProto Manager.
Local Open Scope Z_scope.

Section facts.
Context `{HI : !HashIter} {E : Type}.
Context `{HS : !UmSys E} `{HF : !UnitFs E} `{HP : !Processes E} `{HL : !Reli E}.
Context `{HU : !SubUnitProgs E} `{HJ : !JobEngine E} `{HX : !Spawner E}.
Context `{HC : !ChildWait E} `{HN : !NotifySock E} `{HM : !SubManagers E} `{HE : !EventLoop UmSource E}.
Context `{HPC : !ProcCmdline E} `{HPF : !ProcFs E} `{HMS : !ManagerSys E} `{HES : !ErrorShow}.
Implicit Types (s : UM E) (e : E).

(** ** Commands *)
Lemma wp_rest_run {A} (m : M E A) s (Q : UM E → A → Prop) :
  wp (rest_run m) s Q ↔ wp m (um_rest s) (λ e a, Q (set_um_rest e s) a).
Proof. apply wp_mzoom. Qed.
Lemma wp_recv `{!Stream E} `{!FullReads E} {A} (decode : list Z → option A) (a : A) fuel encoded e
    (Q : E → Result A CmdError → Prop) :
  decode encoded = Some a → Z.of_nat (length encoded) < 2 ^ 64 → (length encoded < fuel * MAX_FRAME)%nat →
  sk_input e = msg_len_vec (length encoded) ++ encoded → (∀ e', Q e' (Ok a)) → wp (recv decode fuel) e Q.
Proof.
  intros Hd Hl Hf Hin HQ. unfold recv. apply wp_bind, (wp_read_frame fuel encoded); [done..|].
  intros e'. apply wp_ret. rewrite Hd. apply HQ.
Qed.
Lemma wp_send_frame `{!Stream E} encoded e (Q : E → Result unit CmdError → Prop) :
  (∀ e' r, Q e' r) → wp (send_frame encoded) e Q.
Proof.
  intros HQ. unfold send_frame. apply wp_bind, wp_call. case_match; [by apply wp_ret|].
  apply wp_bind, wp_call. case_match; [by apply wp_ret|]. apply wp_bind, wp_call, wp_ret, HQ.
Qed.
Lemma wp_cam_set_state st s : wp (cam_set_state st) s (λ s' _, s' = set_um_state st s).
Proof.
  unfold cam_set_state, set_state. apply wp_bind, wp_mget. case_bool_decide as Hs; simpl; [|by apply wp_mmodify].
  apply wp_ret. subst st. by destruct s.
Qed.

(** The four commands that stop the system. *)
Definition stop_commands : list SubCmd.t :=
  [SubCmd.Shutdown false; SubCmd.Reboot false; SubCmd.Halt false; SubCmd.Poweroff false].
Lemma stop_request c : c ∈ stop_commands → generate_command_request c = Some (new_syscomm 1 false).
Proof. intros Hc. repeat (apply elem_of_cons in Hc as [->|Hc]; [done|]). by apply elem_of_nil in Hc. Qed.


(** ** Signals *)

(** The manager subscribes to [SIGTERM] and [SIGINT], and dispatches neither: when
    one of them arrives, it panics. *)
Theorem terminating_signal_panics sig e' s : sig ∈ signals → sig ≠ SIGCHLD →
  ms_read_signals (reli_set_last_frame1 (ReliLastFrame_to_u32 FrameManagerOp) (um_rest s)) = (e', Ok (Some sig)) →
  signals_dispatch s = Panicked.
Proof.
  intros Hs Hne Hr. unfold signals_dispatch, rest_do, rest_call, mbind, M_bind. simpl in *. rewrite Hr. simpl.
  unfold signals in Hs. assert (sig = SIGTERM ∨ sig = SIGINT) as [-> | ->] by set_solver; done.
Qed.

(** ** Reboots *)

(** No process but the manager. *)
Definition alone : Prop := ∀ e entry pid, entry ∈ pf_entries e → proc_pid entry = Some pid → pid = 1.
Lemma kill_alone sig e : alone → ∃ e' pids, kill_all_pids sig e = Returned (e', pids) ∧ pids ⊆ {[1]}.
Proof.
  intros Ha. assert (wp (kill_all_pids sig) e (λ e' pids, pids ⊆ {[1]})) as Hw.
  { unfold kill_all_pids. apply wp_bind, wp_mget.
    apply (wp_mfold (λ _ _ pids, pids ⊆ {[1]})); [set_solver| |done].
    intros dn entry rest e1 pids Hl Hp. destruct (proc_pid entry) as [pid|] eqn:He; [|by apply wp_ret].
    apply wp_bind, wp_mmodify, wp_ret. rewrite (Ha e entry pid) by (rewrite ?Hl; set_solver). set_solver. }
  unfold wp in Hw. destruct (kill_all_pids sig e) as [[e' pids]| |]; [by eexists _, _|done..].
Qed.
Lemma drain_none fuel e : drain fuel ∅ e = OutOfFuel ∨ ∃ e', drain fuel ∅ e = Returned (e', ∅).
Proof.
  revert e. induction fuel as [|fuel IH]; intros e; [by left|]. simpl. unfold mbind, M_bind, mget, mmodify.
  destruct (pf_waitpid e).2 as [[pid|]|]; [|right; by eexists..].
  replace ((∅ : gset Pid) ∖ {[pid]}) with (∅ : gset Pid) by set_solver. apply IH.
Qed.
Lemma probe_returns pids e : wp (probe pids) e (λ _ _, True).
Proof.
  unfold probe. apply (wp_mfold (λ _ _ _, True)); [done| |done].
  intros dn pid rest e1 r _ _. by apply wp_bind, wp_mget, wp_bind, wp_mmodify, wp_ret.
Qed.
Lemma wait_loop_none fuel until e : wait_loop fuel until ∅ e = OutOfFuel ∨ ∃ e', wait_loop fuel until ∅ e = Returned (e', ∅).
Proof.
  destruct fuel as [|fuel]; [by left|]. cbn [wait_loop]. set (k := λ pids, _ ≫= _).
  assert (∀ e1, ∃ e', k ∅ e1 = Returned (e', ∅)) as Hk.
  { intros e1. unfold k, mbind, M_bind. pose proof (probe_returns ∅ e1) as Hp. unfold wp in Hp.
    destruct (probe ∅ e1) as [[e2 removed]| |]; [|done..]. assert ((∅ : gset Pid) ∖ removed = ∅) as -> by set_solver.
    by eexists. }
  unfold mbind, M_bind. destruct (drain_none (S fuel) e) as [->|[e1 ->]]; [by left|right]. apply Hk.
Qed.

(** Whatever its fuel, a reboot of the manager alone never reaches [reboot(2)]. *)
Lemma reboot_alone fuel st s : alone →
  reboot fuel st s = OutOfFuel ∨ ∃ e, reboot fuel st s = Returned (set_um_rest e s, tt).
Proof.
  intros Ha. unfold reboot, rest_do, rest_run, mzoom, mbind, M_bind, mmodify. simpl.
  destruct (kill_alone SIGTERM (ms_trim (um_rest s)) Ha) as (e1 & pids & -> & Hp). simpl.
  unfold wait_pids, mbind, M_bind, mget. assert (pids ∖ {[1]} = ∅) as -> by set_solver.
  destruct (wait_loop_none fuel (pf_now e1 + WAIT_TIMEOUT) e1) as [->|[e2 ->]]; [by left|right].
  rewrite decide_True by done. by exists e2.
Qed.

(** A reboot that finds the manager alone does not happen.  [reboot] returns before
    it calls [reboot(2)] when no process outlives the first signal; the main loop
    then finds the same state again and starts over, for ever. *)
Theorem reboot_alone_never_ends load run_events recover load_queue fuel s :
  alone → um_state s ∈ [State.Reboot; State.PowerOff; State.Halt; State.KExec; State.Suspend] →
  main_loop load run_events recover load_queue fuel s = OutOfFuel.
Proof.
  intros Ha. revert s. induction fuel as [|fuel IH]; intros s Hs; [done|]. cbn [main_loop].
  assert (um_state s ≠ State.Ok) as Hne.
  { intros Hst. rewrite Hst in Hs. repeat (apply elem_of_cons in Hs as [[=]|Hs]). by apply elem_of_nil in Hs. }
  assert (rloop run_events load_queue fuel s = Returned (s, um_state s)) as Hr.
  { destruct fuel; simpl; unfold mbind, M_bind, mget; by rewrite bool_decide_false. }
  unfold mbind at 1, M_bind at 1. rewrite Hr.
  assert (∀ st, (reboot fuel st;; main_loop load run_events recover load_queue fuel) s = OutOfFuel) as Hagain.
  { intros st. unfold mbind, M_bind. destruct (reboot_alone fuel st s Ha) as [->|[e ->]]; [done|]. by apply IH. }
  destruct (um_state s); try apply Hagain.
  all: repeat (apply elem_of_cons in Hs as [[=]|Hs]); by apply elem_of_nil in Hs.
Qed.
End facts.
