(* ===== verification/UmLoadFacts.v ===== *)
(** * Loading units: the closure of what is named

    [load_unit] ends, with the fuel for the units that can be named, and leaves a
    closed store: no unit waits to be loaded, and whatever a loaded unit names is
    in the store, with its dependency in the graph. *)
From S2P Require Import Prelude UnitTypes Relation ReDb UnitDb UnitDbFacts RateLimit UnitEntry UnitFile ExecParams UnitIf JobRentry JobData UmStore UmLoad UmFacts.
Local Open Scope Z_scope.

Definition valid (n : string) : Prop := unit_name_to_type n ≠ UnitTypeInvalid.
#[export] Instance valid_dec n : Decision (valid n) := _.
(** The names of a configuration. *)
Definition conf_names (c : UeConfigUnit) (n : string) : Prop :=
  ∃ r l, (r, l) ∈ ud_conf_insert_table c ∧ n ∈ l.

Section world.
Context {E : Type}.
Context `{HS : !UmSys E} `{HF : !UnitFs E} `{HU : !SubUnitProgs E}.
Context (U : gset UnitId) (Bad : UnitId → Prop).

Definition okname (n : string) : Prop := valid n → n ∈ U.

(** The calls a kind of unit makes while it is loaded: it asks for dependencies,
    for other units, and looks around. *)
Definition load_call {X} (c : UmCall E X) : Prop :=
  match c with
  | CUnitAddDependency u _ t _ _ | CUnitAddTwoDependency u _ _ t _ _ => okname u ∧ okname t
  | CLoadUnitSuccess n => okname n
  | CUnitHasDependency _ _ _ | CUnitEnabled _ | CHasStopJob _ | CRelationActiveOrPending _
  | CSameUnitWithPid _ _ | CCollectSocketFds _ | CGetDependencyList _ _
  | CUnitHasDefaultDependency _ | CUnitsGetAll _ | CCurrentActiveState _ | CGetSubunitState _
  | CNotifySocket | CRentryTriggerMerge _ _ | CRest _ => True
  | _ => False
  end.
Inductive load_prog {A} (leaf : A → Prop) : Prog E A → Prop :=
| lp_ret a : leaf a → load_prog leaf (PRet a)
| lp_call {X} (c : UmCall E X) k : load_call c → (∀ x, load_prog leaf (k x)) →
    load_prog leaf (PCall c k).

(** What loading relies on: the units that files, links and programs name are
    among [U]; the plugins make the objects of the known types; the file system
    lets the manager read its directories; and only the [Bad] units fail to load
    their own part. *)
Class LoadWorld : Prop := {
  lw_plugins : ∀ t n e, t ≠ UnitTypeInvalid → (sub_create t n e).2 = true;
  lw_files : ∀ frags e c i n, cfg_load frags e = Some (c, i) → conf_names c n → okname n;
  lw_readable : ∀ d e, uf_is_dir d e = true → is_Some (uf_read_dir d e);
  lw_named : ∀ p e, uf_is_file p e = true → is_Some (path_file_name p);
  lw_links : ∀ p e a, uf_canonicalize p e = Some a → ∃ n, path_file_name a = Some n ∧ okname n;
  lw_programs : ∀ u l, load_prog (λ r, is_err r = true → Bad u) (sp_load u l);
}.

(** The names that the links of the units lead to. *)
Definition links_ok (d : UnitFileData) : Prop :=
  (∀ u n, n ∈ get_unit_wants_symlink_units u d → okname n)
  ∧ (∀ u n, n ∈ get_unit_requires_symlink_units u d → okname n).
End world.

Arguments lw_plugins {E HS HF HU} U Bad {_}.
Arguments lw_files {E HS HF HU} U Bad {_}.
Arguments lw_readable {E HS HF HU} U Bad {_}.
Arguments lw_named {E HS HF HU} U Bad {_}.
Arguments lw_links {E HS HF HU} U Bad {_}.
Arguments lw_programs {E HS HF HU} U Bad {_}.

Section load.
Context `{HI : !HashIter} {E : Type}.
Context `{HS : !UmSys E} `{HF : !UnitFs E} `{HP : !Processes E} `{HL : !Reli E}.
Context `{HU : !SubUnitProgs E} `{HJ : !JobEngine E} `{HX : !Spawner E}.
Context (U : gset UnitId) (Bad : UnitId → Prop) `{HW : !LoadWorld U Bad}.
Implicit Types (s : UM E) (u v : UnitId) (x : UeUnit) (P R : gset UnitId).

(** The configured dependencies of [u] are in the graph.  A configuration with a
    name that is not one of a unit is given up where the name is met. *)
Definition recorded s u (c : UeConfigUnit) : Prop :=
  (∀ n, conf_names c n → valid n) →
  ∀ r l n, (r, l) ∈ ud_conf_insert_table c → n ∈ l → n ≠ u →
    UnitDepData.is_dep_with (um_t s) u r n = true.

(** The store between two units: the units [P] are being loaded, and the
    dependencies of the units [R] are being recorded. *)
Record load_ok P R s : Prop := {
  lo_um : um_ok s;
  lo_queue : ∀ u, u ∈ um_load_queue s → u ∈ U;
  lo_links : links_ok U (um_file s);
  lo_recorded : ∀ u x, um_units s !! u = Some x → u ∈ R ∨ recorded s u (ue_config x);
  lo_settled : ∀ u x, um_units s !! u = Some x → ue_load_state x = UnitStub →
    ue_in_load x = true ∨ u ∈ P ∨ Bad u;
}.

(** What is left to load: the units that are not created yet, and the queue. *)
Definition pending s : nat := size (U ∖ dom (um_units s)) + length (um_load_queue s).

(** A unit that does not wait is left as it is, but for the other queue; the
    units [X] are those that are being changed. *)
Definition frozen x x' : Prop :=
  ue_in_load x' = false ∧ ue_load_state x' = ue_load_state x ∧ ue_config x' = ue_config x.
Record grows_but (X : gset UnitId) s s' : Prop := {
  gr_units : ∀ u x, um_units s !! u = Some x → ∃ x', um_units s' !! u = Some x'
    ∧ (ue_in_load x = false → u ∉ X → frozen x x');
  gr_deps : more_deps s s';
  gr_pending : (pending s' ≤ pending s)%nat;
  gr_borrowed : um_borrowed s' = um_borrowed s;
}.
Abbreviation grows := (grows_but ∅).
#[export] Instance grows_preorder X : PreOrder (grows_but X).
Proof.
  split.
  - intros s. split; [|by intros ???|lia|done]. intros u x Hx. by exists x.
  - intros s1 s2 s3 [A1 A2 A3 A4] [B1 B2 B3 B4]. split; [|unfold more_deps in *; auto|lia|congruence].
    intros u x Hx. destruct (A1 _ _ Hx) as (x2 & Hx2 & Hf2). destruct (B1 _ _ Hx2) as (x3 & Hx3 & Hf3).
    exists x3. split; [done|]. intros Hi Hu. destruct (Hf2 Hi Hu) as (I2 & L2 & C2).
    destruct (Hf3 I2 Hu) as (I3 & L3 & C3). repeat split; congruence.
Qed.
Lemma grows_weaken X Y s s' : X ⊆ Y → grows_but X s s' → grows_but Y s s'.
Proof.
  intros HXY [A1 A2 A3 A4]. split; [|done..]. intros u x Hx. destruct (A1 _ _ Hx) as (x' & Hx' & Hf).
  exists x'. split; [done|]. intros Hi Hu. apply Hf; [done|set_solver].
Qed.
Lemma grows_in X s s' u : grows_but X s s' → is_Some (um_units s !! u) → is_Some (um_units s' !! u).
Proof. intros Hg [x Hx]. destruct (gr_units _ _ _ Hg _ _ Hx) as (x' & Hx' & _). by exists x'. Qed.

Lemma recorded_more s s' u c : more_deps s s' → recorded s u c → recorded s' u c.
Proof. intros Hm Hr Hv r l n Hrl Hn Hne. eapply Hm, Hr; eauto. Qed.

Lemma recorded_none s u c : (∀ r l, (r, l) ∈ ud_conf_insert_table c → l = []) → recorded s u c.
Proof. intros Hc _ r l n Hrl Hn. apply Hc in Hrl as ->. by apply elem_of_nil in Hn. Qed.

(** *** Steps *)

(** What the two relations do not speak of. *)
Lemma load_ok_core P R s s' : um_core s' = um_core s → links_ok U (um_file s') →
  load_ok P R s → load_ok P R s'.
Proof.
  intros He Hl [Hum Hq _ Hrec Hset]. pose proof (um_ok_core _ _ He Hum).
  injection He as E1 E2 E3 E4 E5 E6 E7. split; rewrite ?E1, ?E5; try done.
  unfold recorded. by rewrite E2.
Qed.
Lemma grows_core s s' : um_core s' = um_core s → um_borrowed s' = um_borrowed s → grows s s'.
Proof.
  intros [= E1 E2 E3 E4 E5 E6 E7] Hb. split; [| |unfold pending; by rewrite E1, E5|done].
  - rewrite E1. intros u x Hx. by exists x.
  - intros a r b. by rewrite E2.
Qed.
Lemma load_ok_rest P R s e : load_ok P R s → load_ok P R (set_um_rest e s).
Proof. intros Hs. apply (load_ok_core _ _ s); [done|apply Hs|done]. Qed.
Lemma grows_rest s e : grows s (set_um_rest e s).
Proof. by apply grows_core. Qed.

(** One unit that does not wait, and its rows. *)
Lemma load_ok_step P R P' R' u x x' s s' : load_ok P R s → um_units s !! u = Some x → stepped u x' s s' →
  ue_in_load x' = ue_in_load x → ue_in_target x' = ue_in_target x → ue_pids x' = ue_pids x →
  P ⊆ P' ∪ {[u]} → R ⊆ R' ∪ {[u]} →
  u ∈ R' ∨ recorded s u (ue_config x') →
  (ue_load_state x' = UnitStub → ue_in_load x' = true ∨ u ∈ P' ∨ Bad u) →
  load_ok P' R' s'.
Proof.
  intros [Hum Hq Hli Hrec Hset] Hx Hst El Et Ep Hin1 Hin2 Hrec' Hset'.
  assert (um_ok s') as Hum'.
  { eapply um_ok_step; [done..|]. intros p Hp. destruct (ok_watch _ Hum _ _ Hp) as (y & Hy & Hpy).
    rewrite Ep. congruence. }
  destruct Hst as [[r ->] _]. split; simpl; try done.
  - intros v y. rewrite lookup_insert. case_decide as Hv; [subst v; intros [= <-]; by apply Hrec'|].
    intros Hy. destruct (Hrec _ _ Hy) as [Hin|Hin]; [left; set_solver|by right].
  - intros v y. rewrite lookup_insert. case_decide as Hv; [subst v; intros [= <-]; by apply Hset'|].
    intros Hy Hl. destruct (Hset _ _ Hy Hl) as [Hin|[Hin|Hin]]; [by left|right; left; set_solver|by right; right].
Qed.
Lemma grows_step X u x x' s s' : um_units s !! u = Some x → stepped u x' s s' →
  (ue_in_load x = false → u ∉ X → frozen x x') → grows_but X s s'.
Proof.
  intros Hx [[r ->] _] Hf. split; [|by intros ???| |done].
  - intros v y Hy. simpl. rewrite lookup_insert. case_decide as Hv; [|by exists y].
    subst v. exists x'. split; [done|]. by simplify_eq.
  - unfold pending. simpl. apply elem_of_dom_2 in Hx. rewrite dom_insert_L.
    replace ({[u]} ∪ dom (um_units s)) with (dom (um_units s)) by set_solver. done.
Qed.

(** A dependency between two units of the store. *)
Lemma wp_dep_load P R u r v ref m s (Q : UM E → unit → Prop) : load_ok P R s →
  is_Some (um_units s !! u) → is_Some (um_units s !! v) →
  (∀ s', load_ok P R s' → grows s s' → um_units s' = um_units s →
     um_load_queue s' = um_load_queue s → um_target_dep_queue s' = um_target_dep_queue s →
     (u ≠ v → UnitDepData.is_dep_with (um_t s') u r v = true) → Q s' tt) →
  wp (dep_insert u r v ref m) s Q.
Proof.
  intros [Hum Hq Hli Hrec Hset] Hu Hv HQ. eapply wp_dep_insert; [done..|].
  intros re t; cbv zeta; intros Hum' Hmore Hdep. apply HQ; try done.
  - split; try done. intros w x Hx.
    destruct (Hrec _ _ Hx) as [?|?]; [by left|right]. by eapply recorded_more.
  - split; try done. intros w x Hx. by exists x.
Qed.

Lemma lookup_fresh_dom (m : gmap UnitId UeUnit) u x : m !! u = None →
  (size (U ∖ dom (<[u:=x]> m)) + if decide (u ∈ U) then 1 else 0)%nat = size (U ∖ dom m).
Proof.
  intros Hu. rewrite dom_insert_L. case_decide as HuU.
  - replace (U ∖ dom m) with ({[u]} ∪ U ∖ ({[u]} ∪ dom m)).
    + rewrite (size_union {[u]} (U ∖ ({[u]} ∪ dom m))) by set_solver. rewrite size_singleton. lia.
    + apply set_eq. intros v. destruct (decide (v = u)) as [->|]; [|set_solver].
      apply not_elem_of_dom in Hu. set_solver.
  - rewrite Nat.add_0_r. f_equal. apply set_eq. intros v.
    destruct (decide (v = u)) as [->|]; set_solver.
Qed.

(** A name that is not in the store: its unit is created, and waits. *)
Lemma wp_prepare_unit P R name s (Q : UM E → option UnitId → Prop) : load_ok P R s →
  okname U name → um_units s !! name = None →
  (∀ s', load_ok P R s' → grows s s' → (valid name → is_Some (um_units s' !! name)) →
     (¬ valid name → s' = s) →
     Q s' (if decide (valid name) then Some name else None)) →
  wp (prepare_unit name) s Q.
Proof.
  intros Hok Hname Hnone HQ. destruct Hok as [Hum Hq Hli Hrec Hset]. eapply wp_prepare_new; [done..| | |].
  { intros Hinv. rewrite decide_False in HQ by (intros Hv; by apply Hv). by apply HQ. }
  { intros e Hv Hf. by rewrite (lw_plugins U Bad) in Hf. }
  intros Hval s2 Hum2 [Hs2 Ht2 Hl2 Hq2 Hfi2 Hb2]. rewrite decide_True in HQ by done.
  set (x2 := set_ue_in_load true (UeUnit_new (unit_name_to_type name))) in *.
  assert (name ∈ U) as HnU by by apply Hname.
  assert (∀ v, v ≠ name → um_units s2 !! v = um_units s !! v) as Hother.
  { intros v Hv. by rewrite Hs2, lookup_insert_ne. }
  assert (um_units s2 !! name = Some x2) as Hx2 by by rewrite Hs2, lookup_insert_eq.
  apply HQ; [split|split|by eexists|done]; try done.
  - rewrite Hl2. intros v [Hv|Hv%list_elem_of_singleton]%elem_of_app; [by apply Hq|by subst].
  - by rewrite Hfi2.
  - intros v y Hy. unfold recorded. rewrite Ht2. destruct (decide (v = name)) as [->|Hv];
      [|rewrite Hother in Hy by done; by apply (Hrec v y)].
    rewrite Hx2 in Hy. simplify_eq. right. apply (recorded_none s). intros r' l'.
    apply (Forall_forall (λ rl, rl.2 = []) (ud_conf_insert_table UeConfigUnit_empty)). by repeat constructor.
  - intros v y Hy Hl. destruct (decide (v = name)) as [->|Hv]; [rewrite Hx2 in Hy; simplify_eq; by left|].
    rewrite Hother in Hy by done. by apply (Hset v y).
  - intros v y Hy. exists y. rewrite Hother by congruence. done.
  - intros a r b. by rewrite Ht2.
  - unfold pending. rewrite Hs2, Hl2. pose proof (lookup_fresh_dom (um_units s) name x2 Hnone) as Hsz.
    rewrite decide_True in Hsz by done. rewrite length_app. simpl. lia.
Qed.

Lemma wp_push_dep P R name s (Q : UM E → option UnitId → Prop) : load_ok P R s → okname U name →
  (∀ s', load_ok P R s' → grows s s' → (valid name → is_Some (um_units s' !! name)) →
     Q s' (if decide (valid name) then Some name else None)) →
  wp (push_dep_unit_into_load_queue name) s Q.
Proof.
  intros Hok Hname HQ. unfold push_dep_unit_into_load_queue, units_get. apply wp_bind, wp_mgets.
  case_bool_decide as Hin; [|eapply wp_prepare_unit; [done..|by apply eq_None_not_Some|auto]].
  apply wp_ret. destruct Hin as [x Hx].
  destruct (uo_type _ _ _ (to_units _ (ok_tables _ (lo_um _ _ _ Hok)) _ _ Hx)) as [Ht Hv].
  rewrite decide_True in HQ by (unfold valid; congruence). by apply HQ.
Qed.

Lemma wp_insert_names P R u r l s (Q : UM E → bool → Prop) : load_ok P R s →
  is_Some (um_units s !! u) → (∀ n, n ∈ l → okname U n) →
  (∀ s' b, load_ok P R s' → grows s s' → (b = false → ∃ n, n ∈ l ∧ ¬ valid n) →
     (b = true → ∀ n, n ∈ l → n ≠ u → UnitDepData.is_dep_with (um_t s') u r n = true) → Q s' b) →
  wp (insert_names u r l) s Q.
Proof.
  revert s. induction l as [|n l IH]; intros s Hok Hu Hl HQ; simpl.
  { apply wp_ret, HQ; [done..|]. set_solver. }
  apply wp_bind. eapply wp_push_dep; [done|apply Hl; by left|]. intros s1 Hok1 Hg1 Hn.
  case_decide as Hv.
  2: { apply wp_ret, HQ; [done..|intros _; exists n; split; [by left|done]|done]. }
  apply wp_bind. eapply wp_dep_load; [done|by eapply grows_in|by apply Hn|].
  intros s2 Hok2 Hg2 Heq _ _ Hd. apply IH; [done|rewrite Heq; by eapply grows_in|intros; apply Hl; by right|].
  intros s3 b Hok3 Hg3 Hf Ht. apply HQ; [done|by etrans; [|etrans]|..].
  - intros Hb. destruct (Hf Hb) as (m & ? & ?). exists m. split; [by right|done].
  - intros Hb m [->|Hm]%elem_of_cons Hne; [|by apply Ht].
    apply (gr_deps _ _ _ Hg3), Hd. congruence.
Qed.

Lemma wp_insert_relations P R u l s (Q : UM E → unit → Prop) : load_ok P R s →
  is_Some (um_units s !! u) → (∀ r ns n, (r, ns) ∈ l → n ∈ ns → okname U n) →
  (∀ s', load_ok P R s' → grows s s' →
     ((∀ r ns n, (r, ns) ∈ l → n ∈ ns → valid n) → ∀ r ns n, (r, ns) ∈ l → n ∈ ns → n ≠ u →
        UnitDepData.is_dep_with (um_t s') u r n = true) → Q s' tt) →
  wp (insert_relations u l) s Q.
Proof.
  revert s. induction l as [|[r ns] l IH]; intros s Hok Hu Hl HQ; simpl.
  { apply wp_ret, HQ; [done..|]. set_solver. }
  apply wp_bind. eapply wp_insert_names; [done|done|intros n Hn; apply (Hl r ns n); [by left|done]|].
  intros s1 [] Hok1 Hg1 Hf Ht.
  - apply IH; [done|by eapply grows_in|intros r' ns' n Hin; eapply Hl; by right|].
    intros s2 Hok2 Hg2 Hrec. apply HQ; [done|by etrans|].
    intros Hv r' ns' n [[= -> ->]|Hin]%elem_of_cons Hn Hne; [by apply (gr_deps _ _ _ Hg2), Ht|].
    eapply Hrec; eauto. intros r2 ns2 n2 H2. intros H3. apply (Hv r2 ns2 n2); [by right|done].
  - apply wp_ret, HQ; [done..|]. intros Hv. destruct (Hf eq_refl) as (n & Hn & []). eapply Hv; [by left|done].
Qed.

(** The map that [parse] hands over has the rows of the table. *)
Lemma UnitDepConf_rows c r ns : (r, ns) ∈ hm_iter (UnitDepConf_of c) ↔ (r, ns) ∈ ud_conf_insert_table c.
Proof.
  rewrite elem_of_hm_iter. unfold UnitDepConf_of.
  assert (NoDup (ud_conf_insert_table c).*1) as Hnd by (apply (bool_decide_unpack _); by vm_compute).
  rewrite foldl_insert_lookup, lookup_empty by done. rewrite (elem_of_list_to_map (M:=gmap UnitRelations) _ _ _ Hnd).
  by destruct (_ !! r).
Qed.

Lemma wp_parse P R u x s (Q : UM E → unit → Prop) : load_ok P R s → um_units s !! u = Some x →
  ue_in_load x = false → 0 ∉ um_borrowed s → (∀ n, conf_names (ue_config x) n → okname U n) →
  (∀ s', load_ok P (R ∖ {[u]}) s' → grows s s' → Q s' tt) →
  wp (parse u) s Q.
Proof.
  intros Hok Hx Hf Hb Hc HQ. unfold parse, dm_insert. apply wp_bind. eapply wp_ue_get; [done|].
  apply wp_bind, wp_mget, wp_bind, wp_massert. split; [by apply bool_decide_eq_true|].
  apply wp_bind, wp_mmodify, wp_bind. unfold insert_udconf, units_get. apply wp_bind, wp_mgets. simpl.
  rewrite bool_decide_true by by eexists.
  set (s1 := set_um_borrowed _ _).
  assert (load_ok P R s1) as Hok1 by by apply (load_ok_core _ _ s); [|apply Hok|].
  eapply wp_insert_relations; [exact Hok1|by eexists|..].
  { intros r ns n Hin Hn. apply Hc. exists r, ns. split; [by apply UnitDepConf_rows|done]. }
  intros s2 Hok2 [G1 G2 G3 G4] Hrec. apply wp_mmodify. set (s3 := set_um_borrowed _ _).
  assert (load_ok P R s3) as Hok3 by by apply (load_ok_core _ _ s2); [|apply Hok2|].
  apply HQ.
  - destruct Hok3 as [Hum Hq Hli Hr Hset]. split; try done. intros v y Hy.
    destruct (decide (v = u)) as [->|Hne]; [right|destruct (Hr _ _ Hy); [left; set_solver|by right]].
    destruct (G1 _ _ Hx) as (y' & Hy' & Hfr). destruct (Hfr Hf ltac:(set_solver)) as (_ & _ & Hcf). simpl in Hy.
    replace y with y' in * by congruence. rewrite Hcf. intros Hv r ns n Hin Hn Hne.
    apply (Hrec (λ r ns n H1 H2, Hv n ltac:(exists r, ns; split; [by apply UnitDepConf_rows|done])) r ns n);
      [by apply UnitDepConf_rows|done..].
  - split; [done|done|done|]. simpl. rewrite G4. simpl. set_solver.
Qed.

(** *** The files *)
Lemma wp_dir_entries dir (p : UnitFileData * E) Q : (∀ l, Q p l) → wp (dir_entries dir) p Q.
Proof.
  intros HQ. unfold dir_entries, fs_ask. apply wp_bind, wp_mgets.
  destruct (uf_is_dir dir p.2) eqn:Hd; [|by apply wp_ret]. apply wp_bind, wp_mgets, wp_munwrap.
  destruct (lw_readable U Bad _ _ Hd) as [l Hl]. exists l. by split.
Qed.
(** A loop that only asks the file system and copies files. *)
Lemma wp_file_loop {A B} (f : list A → B → M (UnitFileData * E) (list A)) l acc (p : UnitFileData * E)
    (G : list A → Prop) Q :
  (∀ acc b p Q', G acc → (∀ e acc', G acc' → Q' (p.1, e) acc') → wp (f acc b) p Q') → G acc →
  (∀ e acc', G acc' → Q (p.1, e) acc') → wp (mfold f acc l) p Q.
Proof.
  intros Hf. revert acc p. induction l as [|b l IH]; intros acc p HG HQ; simpl.
  { apply wp_ret. destruct p. by apply HQ. }
  apply wp_bind, Hf; [done|]. intros e acc' HG'. by apply IH.
Qed.
Lemma wp_drop_in acc frag (p : UnitFileData * E) Q :
  (∀ e acc', Q (p.1, e) acc') → wp (drop_in acc frag) p Q.
Proof.
  intros HQ. unfold drop_in, fs_ask, fs_do. apply wp_bind, wp_mgets.
  destruct (uf_is_file frag p.2) eqn:Hf; simpl; [|apply wp_ret; destruct p; apply HQ].
  apply wp_bind, wp_munwrap. destruct (lw_named U Bad _ _ Hf) as [n Hn]. exists n. split; [done|].
  destruct (_ || _); [apply wp_ret; destruct p; apply HQ|].
  apply wp_bind, wp_mmodify, wp_ret. apply HQ.
Qed.
Lemma wp_search_dir name acc v (p : UnitFileData * E) Q :
  (∀ e acc', Q (p.1, e) acc') → wp (search_dir name acc v) p Q.
Proof.
  intros HQ. unfold search_dir, fs_ask, fs_do. apply wp_bind, wp_mgets.
  destruct (uf_metadata v p.2); simpl; [|apply wp_ret; destruct p; apply HQ].
  apply wp_bind, wp_dir_entries. intros l. apply wp_bind.
  apply (wp_file_loop _ _ _ _ (λ _, True)); [intros ???? _ HQ'; apply wp_drop_in; auto|done|].
  intros e acc' _. apply wp_bind, wp_mgets, wp_bind, wp_mgets.
  destruct (_ && _); [apply wp_bind, wp_mmodify, wp_ret|apply wp_ret]; apply HQ.
Qed.
Lemma wp_symlink_units name suffix (p : UnitFileData * E) Q :
  (∀ e l, (∀ n, n ∈ l → okname U n) → Q (p.1, e) l) → wp (symlink_units name suffix) p Q.
Proof.
  intros HQ. unfold symlink_units. apply wp_bind, wp_mget.
  apply (wp_file_loop _ _ _ _ (λ l, ∀ n, n ∈ l → okname U n)); [|set_solver|done].
  clear p Q HQ. intros acc v p Q Hacc HQ. apply wp_bind, wp_dir_entries. intros l.
  apply (wp_file_loop _ _ _ _ (λ l, ∀ n, n ∈ l → okname U n)); [|done|done].
  clear p Q HQ acc Hacc. intros acc link p Q Hacc HQ. unfold symlink_unit, fs_ask.
  apply wp_bind, wp_mgets. destruct (uf_is_symlink link p.2); simpl; [|apply wp_ret; destruct p; by apply HQ].
  apply wp_bind, wp_mgets. destruct (uf_canonicalize link p.2) eqn:Hc; [|apply wp_ret; destruct p; by apply HQ].
  apply wp_bind, wp_munwrap. destruct (lw_links U Bad _ _ _ Hc) as (n & Hn & Hok). exists n. split; [done|].
  apply wp_ret. destruct p. apply HQ. set_solver.
Qed.
Lemma wp_build_id_dropin name suffix (p : UnitFileData * E) Q : suffix = "wants"%string ∨ suffix = "requires"%string →
  links_ok U p.1 → (∀ d e, links_ok U d → Q (d, e) tt) → wp (build_id_dropin name suffix) p Q.
Proof.
  intros Hsuf [Hw Hr] HQ. unfold build_id_dropin, uf_modify. apply wp_bind, wp_symlink_units.
  intros e l Hl.
  assert (∀ (m : gmap string (list string)) u n,
    (∀ u n, n ∈ default [] (m !! u) → okname U n) → n ∈ default [] (<[name:=l]> m !! u) → okname U n) as Hins.
  { intros m u n Hm. rewrite lookup_insert. case_decide; [by apply Hl|by apply Hm]. }
  destruct Hsuf as [-> | ->]; simpl; apply wp_mmodify, HQ; split; simpl; try done;
    intros u n; by apply Hins.
Qed.
Lemma wp_build_id_map name b (p : UnitFileData * E) Q : links_ok U p.1 →
  (∀ d e, links_ok U d → Q (d, e) false) → wp (build_id_map name b) p Q.
Proof.
  intros Hp HQ. unfold build_id_map. apply wp_bind.
  assert (∀ upd (p : UnitFileData * E), links_ok U p.1 → wp (mwhen upd (build_id_fragment name;;
    build_id_dropin name "wants";; build_id_dropin name "requires");; mret false) p Q) as Hrest.
  { clear p Hp. intros upd p Hp. apply wp_bind. destruct upd; simpl; [|destruct p; by apply HQ].
    apply wp_bind. unfold build_id_fragment, uf_modify. apply wp_bind, wp_mget, wp_bind.
    apply (wp_file_loop _ _ _ _ (λ _, True)); [intros ???? _ HQ'; apply wp_search_dir; auto|done|].
    intros e l _. apply wp_mmodify. apply wp_bind, wp_build_id_dropin; [by left|done|].
    intros d1 e1 Hd1. apply wp_build_id_dropin; [by right|done|]. intros d2 e2 Hd2. apply wp_ret. by apply HQ. }
  destruct b; simpl; [|by apply wp_ret, Hrest].
  unfold lookup_paths_updated, uf_modify. apply wp_bind, wp_mget, wp_bind, wp_mmodify, wp_ret.
  by apply Hrest.
Qed.

Lemma wp_file_run {A} (m : M (UnitFileData * E) A) P R s (Q : UM E → A → Prop) : load_ok P R s →
  wp m (um_file s, um_rest s) (λ p a, links_ok U p.1 ∧
    ∀ s', load_ok P R s' → grows s s' → um_units s' = um_units s → Q s' a) →
  wp (file_run m) s Q.
Proof.
  intros Hok Hm. unfold file_run. apply wp_mzoom. eapply wp_mono; [exact Hm|]. intros p a [Hp HQ].
  apply HQ; [by apply (load_ok_core _ _ s)|by apply grows_core|done].
Qed.

Lemma with_deps_names c w r a n : conf_names (with_deps w r a c) n →
  conf_names c n ∨ n ∈ w ∨ n ∈ r ∨ n ∈ a.
Proof.
  intros (q & l & Hin & Hn). unfold conf_names, ud_conf_insert_table in *. simpl in Hin.
  repeat (apply elem_of_cons in Hin as [[= Hq Hl]|Hin];
    [subst l; first [by auto|left; exists q; eexists; split; [|exact Hn]; rewrite Hq, !elem_of_cons; auto 12]|]).
  by apply elem_of_nil in Hin.
Qed.
Lemma add_dropins_names w r c n : conf_names (add_dropins w r c) n → conf_names c n ∨ n ∈ w ∨ n ∈ r.
Proof.
  intros [H|H]%with_deps_names; [by left|]. rewrite !elem_of_app in H.
  assert (∀ q l, (q, l) ∈ ud_conf_insert_table c → n ∈ l → conf_names c n) as Hc by (intros q l; by exists q, l).
  pose proof (Hc UnitWants (Wants c)) as HcW. pose proof (Hc UnitRequires (Requires c)) as HcR.
  pose proof (Hc UnitAfter (After c)) as HcA. unfold ud_conf_insert_table in *.
  rewrite !elem_of_cons in *. naive_solver.
Qed.

Lemma wp_load_fragment P u x s (Q : UM E → Result unit Error → Prop) : load_ok P ∅ s →
  um_units s !! u = Some x → ue_in_load x = false → u ∈ P →
  (∀ e, Q s (Err e)) →
  (∀ s' x', load_ok P {[u]} s' → grows_but {[u]} s s' → um_units s' !! u = Some x' →
     ue_in_load x' = false → (∀ n, conf_names (ue_config x') n → okname U n) → Q s' (Ok tt)) →
  wp (load_fragment_and_dropin u) s Q.
Proof.
  intros Hok Hx Hf HuP Herr HQ. unfold load_fragment_and_dropin. apply wp_bind, wp_mgets.
  case_decide; [by apply wp_ret|]. apply wp_bind, wp_mgets. destruct (forallb _ _); simpl; [|by apply wp_ret].
  destruct (cfg_load _ _) as [[c i]|] eqn:Hc; [|by apply wp_ret].
  set (c' := add_dropins _ _ c). pose proof (lo_um _ _ _ Hok) as Hum. pose proof (ok_tables _ Hum) as Ht.
  set (f := λ x, set_ue_install i (set_ue_config c' x)).
  apply wp_bind_assoc. eapply wp_mono.
  - eapply (wp_step u f (λ r, set_rx_conf (redb_insert u (c', i) (rx_conf r)) r)); [done..|apply write_conf, Ht|].
    destruct (to_row _ _ _ Ht Hx) as [R1 R2 R3 R4 R5]. split; simpl; try done.
    exists c'. rewrite redb_get_insert by apply (live_conf _ (to_live _ Ht)). by rewrite decide_True.
  - intros s' [] Hst. apply wp_ret. apply (HQ s' (f x)).
    + eapply (load_ok_step P ∅ P {[u]}); [done..|set_solver|set_solver|left; set_solver|auto].
    + eapply grows_step; [done..|]. set_solver.
    + destruct Hst as [[r ->] _]. apply lookup_insert_eq.
    + done.
    + intros n [Hn|[Hn|Hn]]%add_dropins_names; [by apply (lw_files U Bad _ _ _ _ n Hc)| |];
        destruct (lo_links _ _ _ Hok) as [L1 L2]; eauto.
Qed.

(** The file of a unit, and what it names. *)
Lemma wp_load_unit_confs P u x s (Q : UM E → Result unit Error → Prop) : load_ok P ∅ s →
  um_units s !! u = Some x → ue_in_load x = false → u ∈ P → 0 ∉ um_borrowed s →
  (∀ s' r, load_ok P ∅ s' → grows_but {[u]} s s' → Q s' r) →
  wp (load_unit_confs u) s Q.
Proof.
  intros Hok Hx Hf HuP Hb HQ. unfold load_unit_confs. apply wp_bind. eapply wp_ue_get; [done|].
  apply wp_bind. eapply wp_file_run; [done|]. apply wp_build_id_map; [apply Hok|].
  intros d e Hd. split; [done|]. intros s1 Hok1 Hg1 Hu1.
  assert (grows_but {[u]} s s1) as Hg1' by (eapply grows_weaken; [|done]; set_solver).
  apply wp_bind. eapply wp_load_fragment; [done|by rewrite Hu1|done|done| |].
  - intros err. apply wp_ret. by apply HQ.
  - intros s2 x2 Hok2 Hg2 Hx2 Hf2 Hn2. apply wp_bind. eapply wp_parse; [done..| |done|].
    { by rewrite (gr_borrowed _ _ _ Hg2), (gr_borrowed _ _ _ Hg1). }
    intros s3 Hok3 Hg3. apply wp_ret, HQ.
    + replace ({[u]} ∖ {[u]} : gset UnitId) with (∅ : gset UnitId) in Hok3 by set_solver. done.
    + etrans; [done|]. etrans; [done|]. eapply grows_weaken; [|done]. set_solver.
Qed.

(** *** The default dependencies of targets *)
Lemma wp_target_deps P u l s (Q : UM E → unit → Prop) : load_ok P ∅ s → is_Some (um_units s !! u) →
  (∀ t, t ∈ l → is_Some (um_units s !! t)) →
  (∀ s', load_ok P ∅ s' → grows s s' → um_load_queue s' = um_load_queue s →
     um_target_dep_queue s' = um_target_dep_queue s → Q s' tt) →
  wp (target_deps u l) s Q.
Proof.
  revert s. induction l as [|t l IH]; intros s Hok Hu Hl HQ; simpl.
  { by apply wp_ret, HQ. }
  destruct (Hl t ltac:(by left)) as [y Hy]. destruct Hu as [x Hx].
  apply wp_bind. eapply wp_ue_get; [done|]. apply wp_bind. eapply wp_ue_get; [done|].
  apply wp_bind, wp_mget. do 4 (case_match; [by apply wp_ret, HQ|]).
  apply wp_bind. eapply wp_dep_load; [done|by eexists|by eexists|].
  intros s1 Hok1 Hg1 Hu1 Hl1 Hq1 _. apply IH; [done|by rewrite Hu1; eexists|intros v Hv; rewrite Hu1; apply Hl; by right|].
  intros s2 Hok2 Hg2 Hu2 Hq2. apply HQ; [done|by etrans|congruence|congruence].
Qed.

(** A unit whose marks change, and what else of it does not. *)
Lemma load_ok_marks P R P' u x x' s s' : load_ok P R s → um_units s !! u = Some x → um_ok s' →
  um_units s' = <[u:=x']> (um_units s) → um_t s' = um_t s → um_file s' = um_file s →
  (∀ v, v ∈ um_load_queue s' → v ∈ U) → ue_unit x' = ue_unit x → ue_type x' = ue_type x →
  P ⊆ P' → (ue_load_state x = UnitStub → ue_in_load x' = true ∨ u ∈ P' ∨ Bad u) →
  load_ok P' R s'.
Proof.
  intros [Hum Hq Hli Hrec Hset] Hx Hum' Hs' Et Ef Hq' Eu Ety HP' Hst.
  split; [done|done|by rewrite Ef|..]; rewrite Hs'; intros v y; rewrite lookup_insert;
    (case_decide as Hv; [subst v; intros [= <-]|]); unfold ue_load_state, ue_config, recorded in *;
    rewrite ?Eu, ?Ety, ?Et.
  - by apply Hrec.
  - by apply Hrec.
  - done.
  - intros Hy Hl. destruct (Hset _ _ Hy Hl) as [?|[?|?]]; [by left|right; left; set_solver|by right; right].
Qed.
Lemma grows_marks X u x x' s s' : um_units s !! u = Some x → um_units s' = <[u:=x']> (um_units s) →
  um_t s' = um_t s → um_borrowed s' = um_borrowed s → (length (um_load_queue s') ≤ length (um_load_queue s))%nat →
  (ue_in_load x = false → u ∉ X → frozen x x') → grows_but X s s'.
Proof.
  intros Hx Hs' Et Eb Hlen Hf. split; [| |unfold pending|done]; rewrite ?Hs'.
  - intros v y Hy. rewrite lookup_insert. case_decide as Hv; [|by exists y].
    subst v. exists x'. split; [done|]. by simplify_eq.
  - intros a r b. by rewrite Et.
  - apply elem_of_dom_2 in Hx. rewrite dom_insert_L.
    replace ({[u]} ∪ dom (um_units s)) with (dom (um_units s)) by set_solver. lia.
Qed.

Lemma wp_dispatch_target_dep_unit P u q e s (Q : UM E → unit → Prop) : load_ok P ∅ s →
  um_target_dep_queue s = u :: q →
  (∀ s', load_ok P ∅ s' → grows s s' → um_load_queue s' = um_load_queue s →
     um_target_dep_queue s' = q → Q s' tt) →
  wp (dispatch_target_dep_unit u) (set_um_rest e (set_um_target_dep_queue q s)) Q.
Proof.
  intros Hok Hq HQ. pose proof (lo_um _ _ _ Hok) as Hum. pose proof (ok_tables _ Hum) as Ht.
  destruct (proj1 (proj2 (ok_target _ Hum) u)) as (x & Hx & Hin); [rewrite Hq; by left|].
  unfold dispatch_target_dep_unit.
  apply wp_bind. eapply wp_mono; [apply wp_set_in_target_dep_queue; [by apply (tables_ok_ext s)|done]|].
  intros s1 [] [[r ->] Ht1]. apply wp_bind, wp_mget. set (s1 := set_um_rex _ _) in *.
  assert (load_ok P ∅ s1) as Hok1.
  { apply (load_ok_marks P ∅ P u x (set_ue_in_target false x) s); try done; [|apply Hok|].
    - apply (um_ok_marks u x (set_ue_in_target false x) s); try done.
      + eapply queue_step; [apply (ok_load _ Hum)|done..].
      + eapply (queue_pop u _ _ _ s); [|done..]. simpl. rewrite <- Hq. apply (ok_target _ Hum).
    - intros Hl. by apply (lo_settled _ _ _ Hok u x). }
  assert (grows s s1) as Hg1 by by apply (grows_marks ∅ u x (set_ue_in_target false x)).
  eapply wp_target_deps; [done|eexists; apply lookup_insert_eq|..].
  - intros t Htin. apply is_dep_atom_with_gets_atom, existsb_exists in Htin as (a & _ & Hd).
    apply (wf_closed _ (ok_dep _ (lo_um _ _ _ Hok1))) in Hd as [_ Hd]. by apply elem_of_dom.
  - intros s2 Hok2 Hg2 Hl2 Hq2. apply HQ; [done|by etrans|by rewrite Hl2|by rewrite Hq2].
Qed.
Lemma wp_target_queue_loop P fuel s (Q : UM E → unit → Prop) : load_ok P ∅ s →
  (length (um_target_dep_queue s) < fuel)%nat →
  (∀ s', load_ok P ∅ s' → grows s s' → um_load_queue s' = um_load_queue s → Q s' tt) →
  wp (target_queue_loop fuel) s Q.
Proof.
  revert s. induction fuel as [|fuel IH]; intros s Hok Hf HQ; [lia|]. simpl.
  apply wp_bind, wp_mget. destruct (um_target_dep_queue s) as [|u q] eqn:Hq; [by apply wp_ret, HQ|].
  apply wp_bind, wp_mmodify, wp_bind, wp_rest_do, wp_bind.
  eapply wp_dispatch_target_dep_unit; [done..|]. intros s1 Hok1 Hg1 Hl1 Hq1.
  apply wp_bind, wp_rest_do, IH; [by apply load_ok_rest|simpl in *; rewrite Hq1; lia|].
  intros s2 Hok2 Hg2 Hl2. apply HQ; [done| |simpl in *; congruence].
  etrans; [exact Hg1|]. etrans; [apply grows_rest|exact Hg2].
Qed.

(** ** The recursion *)

(** What a loop over the load queue does, and a load, within a measure. *)
Definition loop_spec (loop : M (UM E) unit) (bound : nat) : Prop := ∀ P s (Q : UM E → unit → Prop),
  load_ok P ∅ s → 0 ∉ um_borrowed s → (pending s < bound)%nat →
  (∀ s', load_ok P ∅ s' → grows s s' → um_load_queue s' = [] → Q s' tt) → wp loop s Q.
Definition load_spec (load : string → M (UM E) (option UnitId)) (bound : nat) : Prop :=
  ∀ P name s (Q : UM E → option UnitId → Prop),
  load_ok P ∅ s → 0 ∉ um_borrowed s → (pending s < bound)%nat → okname U name →
  (∀ s', load_ok P ∅ s' → grows s s' → (valid name → is_Some (um_units s' !! name)) →
     (um_load_queue s = [] → um_load_queue s' = []) →
     Q s' (if decide (valid name) then Some name else None)) → wp (load name) s Q.

Lemma wp_dispatch_frames loop b : loop_spec loop b → loop_spec (dispatch_frames loop) b.
Proof.
  intros Hloop P s Q Hok Hb Hp HQ. unfold dispatch_frames. apply wp_bind, wp_rest_do, wp_bind.
  apply (Hloop P); [by apply load_ok_rest|done|done|]. intros s1 Hok1 Hg1 Hq1.
  do 2 apply wp_bind, wp_rest_do. apply wp_bind. unfold dispatch_target_dep_queue. apply wp_bind, wp_mget.
  eapply wp_target_queue_loop; [by repeat apply load_ok_rest|lia|]. intros s2 Hok2 Hg2 Hq2.
  apply wp_rest_do, HQ; [by apply load_ok_rest| |simpl in *; congruence].
  etrans; [|apply grows_rest]. etrans; [|exact Hg2].
  do 2 (etrans; [|apply grows_rest]). etrans; [apply grows_rest|exact Hg1].
Qed.
Lemma in_store P R s u : load_ok P R s → is_Some (um_units s !! u) → valid u.
Proof.
  intros Hok [x Hx]. destruct (uo_type _ _ _ (to_units _ (ok_tables _ (lo_um _ _ _ Hok)) _ _ Hx)).
  unfold valid. congruence.
Qed.
Lemma wp_load_unit_by loop b : loop_spec loop b → load_spec (load_unit_by loop) b.
Proof.
  intros Hloop P name s Q Hok Hb Hp Hn HQ. unfold load_unit_by, units_get. apply wp_bind, wp_mgets.
  case_bool_decide as Hin.
  { apply wp_ret. rewrite decide_True in HQ by by eapply in_store. by apply HQ. }
  apply wp_bind. eapply wp_prepare_unit; [done..|by apply eq_None_not_Some|].
  intros s1 Hok1 Hg1 Hin1 Hinv. case_decide as Hv; [|apply wp_ret, HQ; [done..|by rewrite Hinv]].
  pose proof (gr_pending _ _ _ Hg1). pose proof (gr_borrowed _ _ _ Hg1) as Hb1.
  apply wp_bind. eapply (wp_dispatch_frames _ _ Hloop); [done|by rewrite Hb1|lia|].
  intros s2 Hok2 Hg2 Hq2. apply wp_ret, HQ; [done|by etrans| |done].
  intros _. eapply grows_in; [done|by apply Hin1].
Qed.

(** A program of a unit that is being loaded. *)
Section calls.
Context (load : string → M (UM E) (option UnitId)) (b : nat) (Hload : load_spec load b).

Lemma wp_load_add_dependency P u r t ref m s (Q : UM E → Result unit Error → Prop) : load_ok P ∅ s →
  0 ∉ um_borrowed s → (pending s < b)%nat → okname U u → okname U t →
  (∀ s' a, load_ok P ∅ s' → grows s s' → Q s' a) → wp (unit_add_dependency load u r t ref m) s Q.
Proof.
  intros Hok Hb Hp Hu Ht HQ. unfold unit_add_dependency. apply wp_bind.
  apply (Hload P); [done..|]. intros s1 Hok1 Hg1 Hin1 _. case_decide as Hvu; [|by apply wp_ret, HQ].
  pose proof (gr_pending _ _ _ Hg1). pose proof (gr_borrowed _ _ _ Hg1) as Hb1. apply wp_bind.
  apply (Hload P); [done|by rewrite Hb1|lia|done|]. intros s2 Hok2 Hg2 Hin2 _.
  case_decide as Hvt; [|apply wp_ret, HQ; [done|by etrans]]. apply wp_bind.
  eapply wp_dep_load; [done|eapply grows_in; [done|by apply Hin1]|by apply Hin2|].
  intros s3 Hok3 Hg3 _ _ _ _. apply wp_ret, HQ; [done|]. etrans; [done|by etrans].
Qed.

(** A call that only looks, or that asks the rest of the system. *)
Lemma wp_load_call {X} (c : UmCall E X) P s (Q : UM E → X → Prop) : load_call U c → load_ok P ∅ s →
  0 ∉ um_borrowed s → (pending s < b)%nat →
  (∀ s' a, load_ok P ∅ s' → grows s s' → Q s' a) → wp (um_call load c) s Q.
Proof.
  intros Hc Hok Hb Hp HQ. destruct c; simpl in Hc; try done; simpl um_call;
    try (first [apply wp_mgets|apply wp_ret]; apply HQ; done).
  - destruct Hc. by eapply wp_load_add_dependency.
  - destruct Hc. apply wp_bind. eapply wp_load_add_dependency; [done..|]. intros s1 [] Hok1 Hg1.
    + pose proof (gr_pending _ _ _ Hg1). pose proof (gr_borrowed _ _ _ Hg1) as Hb1.
      eapply wp_load_add_dependency; [done|by rewrite Hb1|lia|done|done|].
      intros s2 a' Hok2 Hg2. apply HQ; [done|by etrans].
    + by apply wp_ret, HQ.
  - unfold load_unit_success. apply wp_bind. apply (Hload P); [done..|]. intros s1 Hok1 Hg1 Hin1 _.
    case_decide as Hv; [|by apply wp_ret, HQ]. destruct (Hin1 Hv) as [x Hx].
    unfold load_state. apply wp_bind, wp_bind. eapply wp_ue_get; [done|]. apply wp_ret, wp_ret. by apply HQ.
  - apply wp_rest_do, HQ; [by apply load_ok_rest|apply grows_rest].
  - apply wp_rest_call, HQ; [by apply load_ok_rest|apply grows_rest].
Qed.
Lemma wp_load_prog {A} (leaf : A → Prop) p P s (Q : UM E → A → Prop) : load_prog U leaf p → load_ok P ∅ s →
  0 ∉ um_borrowed s → (pending s < b)%nat →
  (∀ s' a, load_ok P ∅ s' → grows s s' → leaf a → Q s' a) → wp (run_prog load p) s Q.
Proof.
  intros Hp. revert s. induction Hp as [a Ha|X c k Hc Hk IH]; intros s Hok Hb Hm HQ; simpl.
  { by apply wp_ret, HQ. }
  apply wp_bind, (wp_load_call c P); [done..|]. intros s1 x Hok1 Hg1.
  pose proof (gr_pending _ _ _ Hg1). pose proof (gr_borrowed _ _ _ Hg1) as Hb1.
  apply IH; [done|by rewrite Hb1|lia|]. intros s2 a Hok2 Hg2. apply HQ; [done|by etrans].
Qed.

(** The unit at the head of the queue. *)
Lemma grows_strengthen X s s' : grows_but X s s' →
  (∀ u x, u ∈ X → um_units s !! u = Some x → ue_in_load x = true) → grows s s'.
Proof.
  intros [A1 A2 A3 A4] HXl. split; [|done..]. intros u x Hx. destruct (A1 _ _ Hx) as (x' & Hx' & Hf).
  exists x'. split; [done|]. intros Hi _. apply Hf; [done|]. intros Hin. specialize (HXl _ _ Hin Hx). congruence.
Qed.
Lemma wp_pop_load P u q e s : load_ok P ∅ s → um_load_queue s = u :: q →
  wp (set_in_load_queue u false) (set_um_rest e (set_um_load_queue q s)) (λ s' _, ∃ x,
    load_ok ({[u]} ∪ P) ∅ s' ∧ grows s s' ∧ (pending s' < pending s)%nat
    ∧ um_units s' !! u = Some x ∧ ue_in_load x = false
    ∧ (∀ y, um_units s !! u = Some y → ue_in_load y = true)).
Proof.
  intros Hok Hq. pose proof (lo_um _ _ _ Hok) as Hum. pose proof (ok_tables _ Hum) as Ht.
  destruct (proj1 (proj2 (ok_load _ Hum) u)) as (x & Hx & Hin); [rewrite Hq; by left|].
  eapply wp_mono; [apply wp_set_in_load_queue; [by apply (tables_ok_ext s)|done]|].
  intros s1 [] [[r ->] Ht1]. exists (set_ue_in_load false x). split_and!.
  - apply (load_ok_marks P ∅ _ u x (set_ue_in_load false x) s); try done.
    + apply (um_ok_marks u x (set_ue_in_load false x) s); try done.
      * eapply (queue_pop u _ _ _ s); [|done..]. simpl. rewrite <- Hq. apply (ok_load _ Hum).
      * eapply queue_step; [apply (ok_target _ Hum)|done..].
    + simpl. intros v Hv. apply (lo_queue _ _ _ Hok). rewrite Hq. by right.
    + set_solver.
    + intros _. right. left. set_solver.
  - apply (grows_marks ∅ u x (set_ue_in_load false x)); try done.
    simpl. rewrite Hq. simpl. lia.
  - unfold pending. simpl. apply elem_of_dom_2 in Hx. rewrite dom_insert_L, Hq.
    replace ({[u]} ∪ dom (um_units s)) with (dom (um_units s)) by set_solver. simpl. lia.
  - apply lookup_insert_eq.
  - done.
  - intros y Hy. by simplify_eq.
Qed.
(** The end of a load: the state of the unit is set. *)
Lemma wp_end_load P u x st s (Q : UM E → unit → Prop) : load_ok ({[u]} ∪ P) ∅ s →
  um_units s !! u = Some x → st ≠ UnitStub →
  (∀ s', load_ok P ∅ s' → grows_but {[u]} s s' → is_Some (um_units s' !! u) → Q s' tt) →
  wp (set_load_state u st) s Q.
Proof.
  intros Hok Hx Hst HQ. pose proof (ok_tables _ (lo_um _ _ _ Hok)) as Ht.
  eapply wp_mono; [by apply wp_set_load_state|]. intros s' [] Hs. apply HQ.
  - eapply (load_ok_step ({[u]} ∪ P) ∅ P ∅ u x); [done..|set_solver|set_solver| |done].
    right. by destruct (lo_recorded _ _ _ Hok _ _ Hx).
  - eapply grows_step; [done..|]. set_solver.
  - destruct Hs as [[r ->] _]. simpl. rewrite lookup_insert_eq. by eexists.
Qed.
Lemma wp_Unit_load P u q e s (Q : UM E → Result unit Error → Prop) : load_ok P ∅ s →
  um_load_queue s = u :: q → 0 ∉ um_borrowed s → (pending s ≤ b)%nat →
  (∀ s' r, load_ok P ∅ s' → grows s s' → (pending s' < pending s)%nat → is_Some (um_units s' !! u) → Q s' r) →
  wp (Unit_load load u) (set_um_rest e (set_um_load_queue q s)) Q.
Proof.
  intros Hok Hq Hb Hp HQ. unfold Unit_load. apply wp_bind.
  eapply wp_mono; [by eapply wp_pop_load|]. intros s1 [] (x & Hok1 & Hg1 & Hp1 & Hx & Hf & Hin).
  assert (∀ s' r, load_ok P ∅ s' → grows_but {[u]} s1 s' → is_Some (um_units s' !! u) → Q s' r) as HQ1.
  { intros s' r Hok' Hg' Hu'. pose proof (gr_pending _ _ _ Hg'). apply HQ; [done| |lia|done].
    apply (grows_strengthen {[u]}); [|intros v y ->%elem_of_singleton Hy; by apply Hin].
    etrans; [|done]. eapply grows_weaken; [|done]. set_solver. }
  assert (∀ st r s2, load_ok ({[u]} ∪ P) ∅ s2 → grows_but {[u]} s1 s2 → st ≠ UnitStub →
    wp (set_load_state u st;; mret r) s2 Q) as Hend.
  { intros st r s2 Hok2 Hg2 Hst. destruct (grows_in _ _ _ u Hg2) as [x2 Hx2]; [by eexists|].
    apply wp_bind. eapply wp_end_load; [done..|]. intros s3 Hok3 Hg3 Hu3. apply wp_ret, HQ1; [done|by etrans|done]. }
  apply wp_bind. eapply wp_ue_get; [done|]. case_decide; [by apply Hend|].
  pose proof (gr_borrowed _ _ _ Hg1) as Hb1. apply wp_bind.
  eapply wp_load_unit_confs; [done..|set_solver|by rewrite Hb1|]. intros s2 [] Hok2 Hg2; [|by apply Hend].
  apply wp_bind, wp_mgets, wp_bind. pose proof (gr_borrowed _ _ _ Hg2) as Hb2. pose proof (gr_pending _ _ _ Hg2).
  eapply wp_load_prog; [apply (lw_programs U Bad)|done|by rewrite Hb2, Hb1|lia|].
  intros s3 [] Hok3 Hg3 Hleaf.
  - apply Hend; [done| |done]. etrans; [done|]. eapply grows_weaken; [|done]. set_solver.
  - apply wp_ret, HQ1.
    + destruct Hok3 as [H1 H2 H3 H4 H5]. split; [done..|]. intros v y Hy Hl.
      destruct (H5 _ _ Hy Hl) as [?|[[Hv|?]%elem_of_union|?]]; [by left| |by right; left|by right; right].
      apply elem_of_singleton in Hv as ->. right. right. by apply Hleaf.
    + etrans; [done|]. eapply grows_weaken; [|done]. set_solver.
    + eapply grows_in; [done|]. eapply grows_in; [done|]. by eexists.
Qed.
End calls.

Lemma wp_push_target_load P u s (Q : UM E → unit → Prop) : load_ok P ∅ s → is_Some (um_units s !! u) →
  (∀ s', load_ok P ∅ s' → grows s s' → Q s' tt) → wp (push_target_dep_queue u) s Q.
Proof.
  intros Hok [x Hx] HQ. pose proof (lo_um _ _ _ Hok) as Hum. unfold push_target_dep_queue.
  apply wp_bind. eapply wp_ue_get; [done|]. destruct (ue_in_target x) eqn:Hin; [by apply wp_ret, HQ|].
  apply wp_bind. eapply wp_mono; [apply wp_set_in_target_dep_queue; [by apply Hum|done]|].
  intros s1 [] [[r ->] Ht1]. apply wp_mmodify. set (s2 := set_um_target_dep_queue _ _).
  assert (um_ok s2) as Hum2.
  { apply (um_ok_marks u x (set_ue_in_target true x) s); try done.
    - by eapply tables_ok_ext; [..|exact Ht1].
    - eapply queue_step; [apply (ok_load _ Hum)|done..].
    - eapply (queue_push u _ _ _ s); [apply (ok_target _ Hum)| |done..]. intros y Hy. by simplify_eq. }
  apply HQ.
  - apply (load_ok_marks P ∅ P u x (set_ue_in_target true x) s); try done; [apply Hok|].
    intros Hl. by apply (lo_settled _ _ _ Hok u x).
  - by apply (grows_marks ∅ u x (set_ue_in_target true x)).
Qed.

(** Enough fuel empties the queue. *)
Lemma wp_load_queue_loop fuel : loop_spec (load_queue_loop fuel) fuel.
Proof.
  induction fuel as [|fuel IH]; intros P s Q Hok Hb Hp HQ; [lia|]. simpl. apply wp_bind, wp_mget.
  destruct (um_load_queue s) as [|u q] eqn:Hq; [by apply wp_ret, HQ|].
  apply wp_bind, wp_mmodify, wp_bind, wp_rest_do, wp_bind.
  eapply wp_Unit_load; [by apply wp_load_unit_by, IH|done..|lia|]. intros s1 r Hok1 Hg1 Hp1 Hu1.
  assert (∀ s2, load_ok P ∅ s2 → grows s1 s2 →
    wp (rest_do reli_clear_last_unit;; load_queue_loop fuel) s2 Q) as Hrest.
  { intros s2 Hok2 Hg2. pose proof (gr_pending _ _ _ Hg2).
    pose proof (gr_borrowed _ _ _ Hg1) as Hb1. pose proof (gr_borrowed _ _ _ Hg2) as Hb2.
    apply wp_bind, wp_rest_do. apply (IH P); [by apply load_ok_rest|simpl; by rewrite Hb2, Hb1| |].
    { unfold pending in *. simpl. lia. }
    intros s3 Hok3 Hg3 Hq3. apply HQ; [done| |done]. etrans; [exact Hg1|]. etrans; [exact Hg2|].
    etrans; [apply grows_rest|exact Hg3]. }
  apply wp_bind. destruct r; [|by apply wp_ret, Hrest].
  destruct Hu1 as [x1 Hx1]. unfold load_state. apply wp_bind, wp_bind. eapply wp_ue_get; [done|]. apply wp_ret.
  case_bool_decide; simpl mwhen; [|by apply Hrest].
  eapply wp_push_target_load; [done|by eexists|]. intros s2 Hok2 Hg2. by apply Hrest.
Qed.
Lemma wp_load_unit fuel : load_spec (load_unit fuel) fuel.
Proof. apply wp_load_unit_by, wp_load_queue_loop. Qed.

(** A unit that is settled: it does not wait, its file and its own part are loaded
    - or there is none, or its part is [Bad] - and the units that its
    configuration names are in the store, in the graph in both directions. *)
Record settled s u x : Prop := {
  se_queue : ue_in_load x = false;
  se_state : ue_load_state x ≠ UnitStub ∨ Bad u;
  se_named : (∀ n, conf_names (ue_config x) n → valid n) →
    ∀ r l n, (r, l) ∈ ud_conf_insert_table (ue_config x) → n ∈ l → is_Some (um_units s !! n)
      ∧ (n ≠ u → UnitDepData.is_dep_with (um_t s) u r n = true
               ∧ UnitDepData.is_dep_with (um_t s) n (unit_relation_to_inverse r) u = true);
}.
Lemma load_ok_settled s u x : load_ok ∅ ∅ s → um_load_queue s = [] → um_units s !! u = Some x →
  settled s u x.
Proof.
  intros [Hum Hq Hli Hrec Hset] Hnil Hx. split.
  - destruct (ue_in_load x) eqn:Hin; [|done]. assert (u ∈ um_load_queue s) as Hbad.
    { apply (ok_load _ Hum). by exists x. }
    rewrite Hnil in Hbad. by apply elem_of_nil in Hbad.
  - destruct (decide (ue_load_state x = UnitStub)) as [Hl|]; [|by left].
    destruct (Hset _ _ Hx Hl) as [Hin|[?|?]]; [|set_solver|by right].
    assert (u ∈ um_load_queue s) as Hbad by (apply (ok_load _ Hum); by exists x).
    rewrite Hnil in Hbad. by apply elem_of_nil in Hbad.
  - intros Hv r l n Hrl Hn. destruct (decide (n = u)) as [->|Hne]; [by split; [eexists|]|].
    destruct (Hrec _ _ Hx) as [?|Hr]; [set_solver|]. specialize (Hr Hv r l n Hrl Hn Hne).
    split; [apply elem_of_dom; by apply (wf_closed _ (ok_dep _ Hum) u r n)|].
    intros _. split; [done|]. by rewrite <- (wf_sym _ (ok_dep _ Hum)).
Qed.

End load.
