(* ===== verification/UmLoadSample.v ===== *)
(** * Loading units, on a small system

    Three services and a target in [/etc/sysmaster], a socket that the program of
    the first service asks for, and a symbolic link in [a.service.wants]: what
    [load_unit_closed] says of them, and what a load does to the queues. *)
From S2P Require Import Prelude UnitTypes Relation ReDb UnitDb UnitDbFacts RateLimit UnitEntry UnitFile ExecParams UnitIf JobRentry JobData UmStore UmLoad UmFacts UmLoadFacts.
Local Open Scope Z_scope.

#[local] Existing Instance hash_iter_canonical.

(** The system: what was copied, the last units [Reliability] knew, and what waits
    on the connection of a command. *)
Record Sys := { sy_copied : list string; sy_last : list string; sy_input : list Z }.
Definition Sys_new : Sys := {| sy_copied := []; sy_last := []; sy_input := [] |}.
Definition sample_conf (wants after conflicts : list string) : UeConfigUnit :=
  let c := with_deps wants [] after UeConfigUnit_default in
  {| Description := Description c; Documentation := Documentation c;
     IgnoreOnIsolate := IgnoreOnIsolate c; DefaultDependencies := true;
     RefuseManualStart := RefuseManualStart c; RefuseManualStop := RefuseManualStop c;
     OnFailureJobMode := OnFailureJobMode c; OnSuccessJobMode := OnSuccessJobMode c;
     Wants := Wants c; Requires := Requires c; BindsTo := BindsTo c; Requisite := Requisite c;
     PartOf := PartOf c; OnFailure := OnFailure c; OnSuccess := OnSuccess c; Before := Before c;
     After := After c; Conflicts := conflicts; ConditionFileNotEmpty := ConditionFileNotEmpty c;
     ConditionNeedsUpdate := ConditionNeedsUpdate c; ConditionPathExists := ConditionPathExists c;
     ConditionUser := ConditionUser c; ConditionFirstBoot := ConditionFirstBoot c;
     AssertPathExists := AssertPathExists c; StartLimitInterval := StartLimitInterval c;
     StartLimitBurst := StartLimitBurst c; SuccessAction := SuccessAction c;
     FailureAction := RebootForce; StartLimitAction := StartLimitAction c;
     JobTimeoutSec := JobTimeoutSec c; JobTimeoutAction := JobTimeoutAction c |}.
(** The files: the configuration of each unit that has one. *)
Definition sample_file (path : string) : option UeConfigUnit :=
  match path with
  | "/etc/sysmaster/a.service.toml"%string =>
    Some (sample_conf ["b.service"] ["b.service"] [])
  | "/etc/sysmaster/b.service.toml"%string =>
    Some (sample_conf ["a.service"] [] ["d.service"])
  | "/etc/sysmaster/c.target.toml"%string => Some (sample_conf [] [] [])
  | _ => None
  end%string.
Definition sample_paths : list string :=
  ["/etc/sysmaster/a.service"; "/etc/sysmaster/b.service"; "/etc/sysmaster/c.target"]%string.
Definition sample_link : string := "/etc/sysmaster/a.service.wants/x".
#[local] Instance sys_fs : UnitFs Sys := {|
  uf_metadata d _ := true;
  uf_is_dir d _ := bool_decide (d = "/etc/sysmaster/a.service.wants"%string);
  uf_is_file _ _ := false;
  uf_is_symlink p _ := bool_decide (p = sample_link);
  uf_exists p e := bool_decide (p ∈ sample_paths ∨ p ∈ sy_copied e);
  uf_read_dir _ _ := Some [sample_link];
  uf_canonicalize _ _ := Some "/etc/sysmaster/c.target"%string;
  uf_copy _ p e := {| sy_copied := p :: sy_copied e; sy_last := sy_last e; sy_input := sy_input e |};
  uf_modified _ _ := Some 0;
  uf_siphash _ := 0;
|}.
#[local] Instance sys_um : UmSys Sys := {|
  sub_create _ _ e := (e, true);
  cfg_load l _ := match head l ≫= sample_file with Some c => Some (c, UeConfigInstall_default) | None => None end;
  cg_get_pids _ _ := [];
  cg_create _ e := (e, true);
  cg_kill_recursive _ _ _ e := (e, true);
  sys_kill _ _ e := (e, true);
  sys_ppid_of _ _ := None;
  sys_getpid _ := 1;
  sys_getppid _ := 0;
  sys_now _ := 0;
|}.
#[local] Instance sys_processes : Processes Sys := {|
  os_alive _ _ := false; os_getpid _ := 1; sig_as_str _ := ""%string; sig_from_str _ := None |}.
#[local] Instance sys_reli : Reli Sys := {|
  reli_fd_cloexec _ _ e := (e, Ok tt); reli_fd_take _ e := (e, 0);
  reli_set_last_frame1 _ e := e; reli_set_last_frame2 _ _ e := e; reli_clear_last_frame e := e;
  reli_set_last_unit u e := {|
    sy_copied := sy_copied e; sy_last := sy_last e ++ [u]; sy_input := sy_input e |};
  reli_clear_last_unit e := e |}.
(** The first service asks for a socket that it follows. *)
#[local] Instance sys_sub : SubUnitProgs Sys := {|
  sp_current_active_state _ _ := UnitInActive;
  sp_get_subunit_state _ _ := ""%string;
  sp_collect_fds _ _ := [];
  sp_load u _ := if decide (u = "a.service"%string)
    then PCall (CUnitAddTwoDependency u UnitWants UnitAfter "s.socket" true MaskDefault) (λ r, PRet (Ok tt))
    else PRet (if decide (u = "d.service"%string) then Err ErrInternal else Ok tt);
  sp_sigchld_events _ _ := PRet tt;
  sp_notify_message _ _ _ _ := PRet (Ok tt);
  sp_entry_coldplug _ := PRet tt;
  sp_entry_clear _ e := e;
  sp_db_map _ e := e;
|}.
#[local] Instance sys_jobs : JobEngine Sys := {|
  jm_exec _ _ _ s := (um_rest s, Ok tt);
  jm_has_stop_job _ _ := false;
  jm_has_start_like_job _ _ := false;
  jm_try_finish _ _ s := (um_rest s, Ok tt);
  jm_rentry_trigger_merge _ _ e := e;
  jm_trigger_unit _ := PRet tt;
  jm_db_compensate_last _ e := e;
  jm_db_compensate_history s := um_rest s;
  jm_do_compensate_last _ := PRet tt;
  jm_do_compensate_others _ := PRet tt;
  jm_db_map s := um_rest s;
  jm_coldplug_unit _ s := um_rest s;
  jm_entry_clear e := e;
|}.
#[local] Instance sys_spawner : Spawner Sys := {|
  exec_spawn _ _ _ _ s := (um_rest s, Ok 100); sys_reboot _ e := e |}.

Definition sample_names : gset UnitId :=
  list_to_set ["a.service"; "b.service"; "c.target"; "d.service"; "s.socket"]%string.
Definition sample_bad (u : UnitId) : Prop := u = "d.service"%string.

Lemma conf_names_list c n : conf_names c n → n ∈ ud_conf_insert_table c ≫= snd.
Proof. intros (r & l & Hin & Hn). apply list_elem_of_bind. by exists (r, l). Qed.
Lemma sample_names_ok l n : Forall (λ n, n ∈ sample_names) l → n ∈ l → okname sample_names n.
Proof. intros Hl Hn _. by eapply (proj1 (Forall_forall _ _) Hl). Qed.
#[local] Instance sample_world : LoadWorld (E:=Sys) sample_names sample_bad.
Proof.
  split; simpl; try done.
  - intros frags _ c i n. destruct (head frags ≫= sample_file) as [c'|] eqn:Hc; [|done].
    intros [= -> <-] Hn%conf_names_list. destruct (head frags) as [f|]; [|done]. simpl in Hc.
    eapply sample_names_ok; [|exact Hn].
    assert (f ∈ ((λ p, p +:+ ".toml") <$> sample_paths)) as Hf.
    { revert Hc. unfold sample_file. destruct (decide (f ∈ ((λ p, p +:+ ".toml") <$> sample_paths))); [done|].
      intros Hc. exfalso.
      repeat match type of Hc with context [match ?x with _ => _ end] => destruct x; try discriminate Hc end.
      all: apply n0; apply (bool_decide_unpack _); by vm_compute. }
    repeat (apply elem_of_cons in Hf as [->|Hf];
      [vm_compute in Hc; injection Hc as <-; apply (bool_decide_unpack _); by vm_compute|]).
    by apply elem_of_nil in Hf.
  - intros p e a Ha. simplify_eq. exists "c.target"%string. split; [by vm_compute|].
    intros _. apply (bool_decide_unpack _). by vm_compute.
  - intros u l. case_decide as Hu.
    + subst u. constructor; [|by constructor].
      split; intros _; apply (bool_decide_unpack _); by vm_compute.
    + case_decide; by constructor.
Qed.

(** A manager that has loaded nothing. *)
Definition um_new : UM Sys := {|
  um_units := ∅; um_t := ∅; um_re := {| re_base := ReDb_new; re_dep := ReDb_new |};
  um_rex := {| rx_load := ReDb_new; rx_conf := ReDb_new; rx_cgroup := ReDb_new; rx_child := ReDb_new;
               rx_pps := ReDb_new; rx_notify := ReDb_new |};
  um_load_queue := []; um_target_dep_queue := []; um_watch := ∅;
  um_file := UnitFileData_new {| search_path := ["/etc/sysmaster"]%string; preset_path := [];
                                 persistent_path := "" |};
  um_notify_fd := -1; um_state := State.Ok; um_borrowed := ∅; um_rest := Sys_new |}.
Lemma um_new_ok : load_ok sample_names sample_bad ∅ ∅ um_new.
Proof.
  assert (∀ u : UnitId, ¬ is_Some ((∅ : gmap UnitId UeUnit) !! u)) as Hno.
  { intros u [x Hx]. by rewrite lookup_empty in Hx. }
  assert (∀ {V} (u : UnitId), ¬ is_Some (redb_get u (ReDb_new : ReDb UnitId V))) as Hnr.
  { intros V u [x Hx]. unfold redb_get in Hx. simpl in Hx. by rewrite lookup_empty in Hx. }
  split; simpl; [|set_solver| |intros u x Hx; by rewrite lookup_empty in Hx..].
  - split; simpl; [|split; simpl| | |intros p u Hp; by rewrite lookup_empty in Hp].
    + split; simpl; [done..| | | |]; [intros u x Hx; by rewrite lookup_empty in Hx|..];
        intros u Hu; by apply Hnr in Hu.
    + done.
    + intros u Hu. set_solver.
    + intros a r b Hd. unfold UnitDepData.is_dep_with in Hd. by rewrite lookup_empty in Hd.
    + intros a r b. unfold UnitDepData.is_dep_with. by rewrite !lookup_empty.
    + intros u r d. unfold UnitDepData.is_dep_with. rewrite lookup_empty. split; [|done].
      intros Hin. by apply elem_of_nil in Hin.
    + intros u [x Hx]. by rewrite lookup_empty in Hx.
    + split; [apply NoDup_nil_2|]. intros u. simpl. split; [by intros ?%elem_of_nil|].
      intros (x & Hx & _). by rewrite lookup_empty in Hx.
    + split; [apply NoDup_nil_2|]. intros u. simpl. split; [by intros ?%elem_of_nil|].
      intros (x & Hx & _). by rewrite lookup_empty in Hx.
  - split; intros u n Hn; by apply elem_of_nil in Hn.
Qed.


(** The store after the load: [d.service] has no file, [s.socket] neither. *)
Example load_sample : (λ s, (um_load_queue s, um_target_dep_queue s,
    (λ ux, (ux.1, ue_load_state ux.2)) <$> hm_iter (um_units s), sy_last (um_rest s)))
  (run_state (load_unit (E:=Sys) 6 "a.service") um_new) = ([], [],
    [("s.socket", UnitNotFound); ("c.target", UnitLoaded); ("a.service", UnitLoaded);
     ("b.service", UnitLoaded); ("d.service", UnitNotFound)],
    ["a.service"; "b.service"; "c.target"; "s.socket"; "d.service";
     "b.service"; "c.target"; "a.service"])%string.
Proof. vm_compute. reflexivity. Qed.
