(* ===== verification/UmSample.v ===== *)
(** * The unit manager and the manager's process, on the small system

    The instances of what the theorems of [UmMapFacts], [UmManagerFacts] and
    [ManagerFacts] are stated for: a store with loaded units, a watched process and
    a unit that waits; a connection that holds one request; a system where the
    manager is alone. *)
From Stdlib Require Import Ascii.
From S2P Require Import Prelude UnitTypes Relation ReDb UnitDb UnitDbFacts RateLimit Condition UnitEntry StdString ShowTable Reli UnitFile ExecParams UnitIf ProcessUtil JobRentry JobData UmStore UmLoad UmManager CmdProto Manager UmFacts UmInvFacts UmMapFacts UmLoadFacts UmLoadSample UmManagerFacts ManagerFacts.
Local Open Scope Z_scope.

#[local] Existing Instance hash_iter_canonical.
#[local] Existing Instances sys_fs sys_um sys_processes sys_reli sys_sub sys_jobs sys_spawner.

(** The rest of the system: a child that has ended, a notify socket that fails,
    plugins that do nothing, an event loop that accepts, [SIGTERM] pending. *)
#[local] Instance sys_wait : ChildWait Sys := {| wt_peek _ := Ok (Exited 42 0); wt_reap _ e := (e, true) |}.
#[local] Instance sys_notify : NotifySock Sys := {|
  nk_peek _ e := (e, Err 11); nk_recv _ e := (e, Err 11); nk_close _ e := e; nk_socket e := (e, Ok 9);
  nk_create_dir_all _ e := (e, true); nk_unix_addr _ := true; nk_unlink _ e := e;
  nk_bind _ _ e := (e, Ok tt); nk_pass_cred _ e := (e, Ok tt) |}.
#[local] Instance sys_managers : SubManagers Sys := {|
  sm_has _ := true; sm_enumerate _ e := e; sm_input_rebuild _ e := e; sm_db_map _ e := e;
  sm_db_compensate_last _ _ _ e := e; sm_do_compensate_last _ _ _ := PRet tt |}.
#[local] Instance sys_events : EventLoop UmSource Sys := {|
  ev_add_source _ e := (e, Ok tt); ev_del_source _ e := (e, Ok tt); ev_set_enabled _ _ e := (e, Ok tt) |}.
#[local] Instance sys_cmdline : ProcCmdline Sys := {| proc_cmdline _ _ := ""%string |}.
#[local] Instance sys_procs : ProcFs Sys := {|
  pf_getpid _ := 1; pf_stat_line _ _ := None; pf_entries _ := [(false, "1"%string)];
  pf_kill _ _ e := (e, 0); pf_waitpid e := (e, Err tt); pf_now _ := 0; pf_sleep _ e := e |}.
#[local] Instance sys_manager : ManagerSys Sys := {|
  ms_preset_all e := (e, true);
  ms_unit_enable_files _ e := (e, Ok tt); ms_unit_disable_files _ e := (e, Ok tt);
  ms_symlinkat _ _ e := (e, Ok tt); ms_exists _ _ := false; ms_read_link _ _ := None;
  ms_unlinkat _ e := (e, Ok tt); ms_trim e := e; ms_read_signals e := (e, Ok (Some SIGTERM));
  ms_send_alive e := (e, Ok tt); ms_reli_enable _ := false; ms_reli_set_enable _ e := e;
  ms_reli_debug_clear e := e; ms_cg_create_and_attach e := (e, true); ms_cg_kill_all e := (e, true);
  ms_accept e := (e, true) |}.
#[local] Instance sys_errors : ErrorShow := {| err_show _ := ""%string; other_errno _ := 5 |}.
Definition with_input (l : list Z) (e : Sys) : Sys :=
  {| sy_copied := sy_copied e; sy_last := sy_last e; sy_input := l |}.
#[local] Instance sys_stream : Stream Sys := {|
  sk_read_exact n e := if (n <=? length (sy_input e))%nat
    then (with_input (drop n (sy_input e)) e, Some (take n (sy_input e))) else (e, None);
  sk_read n e := (with_input (drop n (sy_input e)) e, Some (take n (sy_input e)));
  sk_write_all _ e := (e, true);
  sk_flush e := (e, true) |}.
#[local] Program Instance sys_full : FullReads Sys := {| sk_input := sy_input |}.
Next Obligation. intros n e Hn. simpl. by rewrite (proj2 (Nat.leb_le _ _) Hn). Qed.
Next Obligation. by intros n e. Qed.
(** The requests for the whole system, on the wire. *)
#[local] Instance sys_prost : Prost := {|
  enc_request r := match request_data r with
    | Some (Syscomm c) => [3; sc_action c; if sc_force c then 1 else 0] | _ => [] end;
  dec_request l := match l with
    | [3; a; f] => Some (new_syscomm a (f =? 1)) | _ => None end;
  enc_response _ := [];
  dec_response _ := Some CommandResponse_default |}.

(** ** The store *)
Definition um_loaded : UM Sys := run_state (load_unit (E:=Sys) 6 "a.service") um_new.
Definition um_busy : UM Sys := run_state (push_dep_unit_into_load_queue "e.service";; add_watch_pid "a.service" 42) um_loaded.
Lemma run_keeps {A} (m : M (UM Sys) A) s : um_ok s → preserves um_ok m → um_ok (run_state m s).
Proof. intros Hs Hm. unfold run_state. destruct (m s) as [[s' a]| |] eqn:Hr; [by eapply Hm|done..]. Qed.
Lemma um_busy_ok : um_ok um_busy.
Proof.
  apply run_keeps; [apply run_keeps; [apply (lo_um _ _ _ _ _ um_new_ok)|apply keep_load_unit]|].
  apply preserves_bind; [apply keep_push_dep_unit|intros _; apply keep_add_watch_pid].
Qed.
Example um_busy_store : (um_load_queue um_busy, map_to_list (um_watch um_busy), size (um_units um_busy))
  = (["e.service"]%string, [(42, "a.service"%string)], 6%nat).
Proof. vm_compute. reflexivity. Qed.


Definition returned {S A} (m : M S A) (s : S) : bool := match m s with Returned _ => true | _ => false end.
Lemma returned_run {S} (m : M S unit) s : returned m s = true → m s = Returned (run_state m s, tt).
Proof. unfold returned, run_state. by destruct (m s) as [[s' []]| |]. Qed.
Lemma um_reachable_ok_witness : ∃ s', load_queue_loop (E:=Sys) 9 um_busy = Returned (s', tt) ∧ um_ok s'.
Proof.
  exists (run_state (load_queue_loop (E:=Sys) 9) um_busy).
  assert (load_queue_loop (E:=Sys) 9 um_busy = Returned (run_state (load_queue_loop (E:=Sys) 9) um_busy, tt)) as Hr.
  { apply returned_run. vm_compute. reflexivity. }
  split; [exact Hr|]. apply (um_reachable_ok um_busy); [apply um_busy_ok|].
  apply rtc_once, (step_load_queue 9), Hr.
Defined.

Definition told : M (UM Sys) unit := run_prog (load_unit (E:=Sys) 6) (sp_sigchld_events "a.service"%string (Exited 42 0)).
Lemma sigchld_forgets_witness :
  wp (sigchld_dispatch (load_unit (E:=Sys) 6)) um_busy (λ s' again, again = true ∧ um_ok s'
    ∧ um_watch s' !! 42 = None ∧ (∃ x, um_units s' !! "a.service"%string = Some x ∧ 42 ∉ ue_pids x)
    ∧ um_rest s' = (wt_reap 42 (reli_clear_last_unit
        (um_rest (run_state told (set_um_rest (reli_set_last_unit "a.service" (um_rest um_busy)) um_busy))))).1).
Proof.
  apply (sigchld_forgets 6 "a.service"%string 42 (Exited 42 0) um_busy).
  - apply um_busy_ok.
  - reflexivity.
  - left. by exists 0.
  - lia.
  - vm_compute. reflexivity.
  - reflexivity.
  - apply (bool_decide_unpack _). vm_compute. exact I.
Defined.

Definition sample_notification : list (list ascii * list ascii) :=
  [(String.list_ascii_of_string "READY", String.list_ascii_of_string "1");
   (String.list_ascii_of_string "MAINPID", String.list_ascii_of_string "42")]%string.
Lemma plain_dec cs : Forall (λ c, c ≠ "="%char ∧ c ≠ "010"%char) cs → plain cs.
Proof. intros Hc c Hin. by eapply (proj1 (Forall_forall _ _) Hc). Qed.
Lemma sample_line_ok k v : Forall (λ c, c ≠ "="%char ∧ c ≠ "010"%char) (k ++ v) →
  (∀ c, last k = Some c → c ≠ "000"%char) → (∀ c, last v = Some c → c ≠ "000"%char ∧ is_space c = false) →
  notify_ok (k, v).
Proof. intros [Hk Hv]%Forall_app He Hl. split; [by apply plain_dec|by apply plain_dec|exact He|exact Hl]. Qed.
Lemma sample_notification_ok : Forall notify_ok sample_notification.
Proof.
  repeat (apply Forall_cons; split); [apply sample_line_ok..|by apply Forall_nil].
  1,4: apply (bool_decide_unpack _); vm_compute; exact I.
  all: simpl; intros c [= <-]; done.
Qed.
Lemma notify_messages_roundtrip_witness :
  notify_messages (notify_render sample_notification ++ replicate 5 "000"%char)
  = {["READY" := "1"; "MAINPID" := "42"]}%string.
Proof. rewrite (notify_messages_roundtrip sample_notification 5 sample_notification_ok). reflexivity. Defined.

(** [sctl reboot] arrives. *)
Definition um_asked : UM Sys :=
  set_um_rest (with_input (msg_len_vec 3 ++ [3; 1; 0]) (um_rest um_busy)) um_busy.

Lemma terminating_signal_panics_witness : signals_dispatch um_busy = Panicked.
Proof.
  apply (terminating_signal_panics SIGTERM (um_rest um_busy)).
  - unfold signals. set_solver.
  - done.
  - vm_compute. reflexivity.
Defined.

Lemma reboot_alone_never_ends_witness :
  main_loop (load_unit (E:=Sys) 6) (mret false) (mret tt) (mret tt) 9 (set_um_state State.Reboot um_new) = OutOfFuel.
Proof.
  apply reboot_alone_never_ends.
  - intros e entry pid He Hp. apply list_elem_of_singleton in He as ->. vm_compute in Hp. by simplify_eq.
  - simpl. set_solver.
Defined.
