(* ===== verification/Mount.v ===== *)
(** * Mount units

    [coms/mount]: a mount unit ([unit.rs], [mng.rs], [rentry.rs]) only follows the
    mount table; the manager of the mount units ([manager.rs]) reads
    [/proc/self/mountinfo] and starts and stops them.  The parser of that file is
    the libmount crate, a parameter. *)
From Stdlib Require Import Ascii.
From S2P Require Import Prelude UnitTypes ReDb RateLimit Condition UnitEntry StdString ShowTable ExecParams UnitIf Reli UmStore.

(** ** [MountMng] and [MountUnit] *)
Module MountState.
Inductive t := Dead | Mounted.
#[global] Instance t_eq_dec : EqDecision t.
Proof. solve_decision. Defined.
End MountState.
Abbreviation MountState := MountState.t.
Definition mount_state_to_unit_state (st : MountState) : UnitActiveState :=
  match st with MountState.Dead => UnitInActive | MountState.Mounted => UnitActive end.
Definition show_mount_state (st : MountState) : string :=
  match st with MountState.Dead => "dead" | MountState.Mounted => "mounted" end.

(** What a mount unit asks of its entry. *)
Class MountOwner (E : Type) : Type := {
  mo_test_start_limit : UnitId → E → E * bool;
  mo_set_ignore_on_isolate : UnitId → bool → E → E;
}.
(** The managers of all mount units, the table they share, and what they published,
    oldest first. *)
Record Mounts (E : Type) := {
  mt_state : gmap UnitId MountState;
  mt_mng : ReDb UnitId MountState;
  mt_notes : list (UnitId * UnitState);
  mt_rest : E;
}.
Arguments Build_Mounts {E}. Arguments mt_state {E}. Arguments mt_mng {E}. Arguments mt_notes {E}. Arguments mt_rest {E}.
Definition set_mt_state {E} v (w : Mounts E) : Mounts E :=
  {| mt_state := v; mt_mng := mt_mng w; mt_notes := mt_notes w; mt_rest := mt_rest w |}.
Definition set_mt_mng {E} v (w : Mounts E) : Mounts E :=
  {| mt_state := mt_state w; mt_mng := v; mt_notes := mt_notes w; mt_rest := mt_rest w |}.
Definition set_mt_notes {E} v (w : Mounts E) : Mounts E :=
  {| mt_state := mt_state w; mt_mng := mt_mng w; mt_notes := v; mt_rest := mt_rest w |}.
Definition set_mt_rest {E} v (w : Mounts E) : Mounts E :=
  {| mt_state := mt_state w; mt_mng := mt_mng w; mt_notes := mt_notes w; mt_rest := v |}.

Section unit.
Context {E : Type} `{HO : !MountOwner E}.
Abbreviation T := (M (Mounts E)).
Implicit Types (u : UnitId) (w : Mounts E).

Definition mount_state u w : MountState := default MountState.Dead (mt_state w !! u).
Definition mount_db_map u : T unit :=
  w ← mget;
  match redb_get u (mt_mng w) with
  | Some state => mmodify (set_mt_state (<[u:=state]> (mt_state w)))
  | None => mret tt
  end.
Definition mount_db_insert u : T unit :=
  mmodify (λ w, set_mt_mng (redb_insert u (mount_state u w) (mt_mng w)) w).
Definition mount_state_notify u (new_state old_state : MountState) : T unit :=
  mmodify (λ w, set_mt_notes (mt_notes w ++ [(u,
    {| st_os := mount_state_to_unit_state old_state; st_ns := mount_state_to_unit_state new_state;
       st_flags := UNIT_NOTIFY_RELOAD_FAILURE |})]) w);;
  mount_db_insert u.
Definition mount_set_state u (new_state : MountState) (notify : bool) : T unit :=
  w ← mget;
  mmodify (λ w, set_mt_state (<[u:=new_state]> (mt_state w)) w);;
  mwhen notify (mount_state_notify u new_state (mount_state u w)).
Definition mount_enter_dead u (notify : bool) : T unit := mount_set_state u MountState.Dead notify.
Definition mount_enter_mounted u (notify : bool) : T unit := mount_set_state u MountState.Mounted notify.
Definition mount_start_check u : T (Result bool Error) :=
  w ← mget;
  let r := mo_test_start_limit u (mt_rest w) in
  mmodify (set_mt_rest r.1);;
  if negb r.2 then mount_enter_dead u true;; mret (Err UnitActionECanceled) else mret (Ok false).

Definition mount_attach_unit u : T unit := mount_db_insert u.
Definition mount_load u : T (Result unit Error) :=
  mmodify (λ w, set_mt_rest (mo_set_ignore_on_isolate u true (mt_rest w)) w);; mret (Ok tt).
Definition mount_start u : T (Result unit Error) :=
  started ← mount_start_check u;
  match started with
  | Err e => mret (Err e)
  | Ok true => mret (Ok tt)
  | Ok false => mount_enter_mounted u true;; mret (Ok tt)
  end.
Definition mount_stop u : T (Result unit Error) := mount_enter_dead u true;; mret (Ok tt).
Definition mount_current_active_state u w : UnitActiveState := mount_state_to_unit_state (mount_state u w).
Definition mount_get_subunit_state u w : string := show_mount_state (mount_state u w).
End unit.

(** ** [MountManager] and [MountMonitor] *)
Inductive MountReFrame := FrameMonitor.
Inductive MountSource := SrcMonitorIo | SrcMonitorDefer.

(** The unit manager, as the monitor sees it. *)
Class MountUm (E : Type) : Type := {
  mu_units_get_all : option UnitType → E → list UnitId;
  mu_current_active_state : UnitId → E → UnitActiveState;
  mu_load_unit_success : UnitId → E → E * bool;
  mu_unit_start : UnitId → E → E * Result unit Error;
  mu_unit_stop : UnitId → bool → E → E * Result unit Error;
  mu_rentry_trigger_merge : UnitId → bool → E → E;
  mu_trigger_unit : UnitId → E → E;
}.
(** One line of [/proc/self/mountinfo]; a field that is not UTF-8 is [None]. *)
Record MountEntry := { me_fstype : option string; me_mount_point : option string }.
(** The kernel: [epoll_wait] without a timeout ([None] is an error), and the table,
    [None] when it cannot be read; a line that cannot be parsed is [None]. *)
Class MountSys (E : Type) : Type := {
  mi_epoll_wait : E → E * option nat;
  mi_mountinfo : E → option (list (option MountEntry));
}.
(** The frame of the mount manager ([MountRe]) and the rest of the system. *)
Record MountMgr (E : Type) := { mm_frame : ReDb Z MountReFrame; mm_rest : E }.
Arguments Build_MountMgr {E}. Arguments mm_frame {E}. Arguments mm_rest {E}.
Definition set_mm_frame {E} v (s : MountMgr E) : MountMgr E := {| mm_frame := v; mm_rest := mm_rest s |}.
Definition set_mm_rest {E} v (s : MountMgr E) : MountMgr E := {| mm_frame := mm_frame s; mm_rest := v |}.

(** [mount_point_to_unit_name] *)
Definition slice_from1 (cs : text) : option text :=
  match cs with
  | [] => None
  | _ :: cs' => if default false (is_continuation <$> head cs') then None else Some cs'
  end.
Definition mount_point_to_unit_name (mount_point : string) : option string :=
  let res := ((λ c, if Ascii.eqb c "/" then "-"%char else c) <$> chars mount_point) ++ chars ".mount" in
  if decide (res = chars "-.mount") then Some (of_chars res) else of_chars <$> slice_from1 res.

Section manager.
Context `{HI : !HashIter} {E : Type}.
Context `{HU : !MountUm E} `{HS : !MountSys E} `{HL : !UnitIf.Reli E} `{HE : !EventLoop MountSource E}.
Abbreviation G := (M (MountMgr E)).
Definition mm_do (f : E → E) : G unit := mmodify (λ s, set_mm_rest (f (mm_rest s)) s).
Definition mm_call {A} (f : E → E * A) : G A := λ s,
  let r := f (mm_rest s) in Returned (set_mm_rest r.1 s, r.2).

(** [units_get_all] and [current_active_state]: the mount units that are active. *)
Definition active_mounts (e : E) : list UnitId :=
  filter (λ u, mu_current_active_state u e = UnitActive) (mu_units_get_all (Some UnitMount) e).
(** One line of the table. *)
Definition mount_line (dead_mount_set : gset UnitId) (line : option MountEntry) : G (gset UnitId) :=
  match line with
  | None => mret dead_mount_set
  | Some m =>
    if decide (me_fstype m = Some "autofs") then mret dead_mount_set else
    mount_point ← munwrap (me_mount_point m);
    unit_name ← munwrap (mount_point_to_unit_name mount_point);
    if decide (unit_name ∈ dead_mount_set) then mret (dead_mount_set ∖ {[unit_name]}) else
    ok ← mm_call (mu_load_unit_success unit_name);
    mwhen ok (
      mm_do (reli_set_last_unit unit_name);;
      mm_call (mu_unit_start unit_name);;
      mm_do reli_clear_last_unit);;
    mret dead_mount_set
  end.
Definition stop_dead (unit_name : UnitId) : G unit :=
  mm_do (reli_set_last_unit unit_name);;
  mm_call (mu_unit_stop unit_name false);;
  mm_do reli_clear_last_unit.
Definition dispatch_mountinfo : G (Result unit Error) :=
  s ← mget;
  lines ← munwrap (mi_mountinfo (mm_rest s));
  dead_mount_set ← mfold mount_line (list_to_set (active_mounts (mm_rest s))) lines;
  mforeach stop_dead (hs_iter dead_mount_set);;
  mret (Ok tt).

(** The frame of the manager around the dispatch, in [Reliability] and in its own table. *)
Definition monitored : G (Result unit Error) :=
  mm_do (reli_set_last_frame2 (ReliLastFrame_to_u32 FrameSubManager) 3);;
  mmodify (λ s, set_mm_frame (redb_insert RELI_LAST_KEY FrameMonitor (mm_frame s)) s);;
  ret ← dispatch_mountinfo;
  mmodify (λ s, set_mm_frame (redb_remove RELI_LAST_KEY (mm_frame s)) s);;
  mm_do reli_clear_last_frame;;
  mret ret.
Definition defer_enable (enable : bool) : G Z :=
  r ← mm_call (ev_set_enabled SrcMonitorDefer (if enable then OneShot else Off));
  mret (match r with Ok _ => 0 | Err _ => -1 end)%Z.
Fixpoint drain_out (fuel : nat) : G unit :=
  match fuel with
  | O => mnofuel
  | S fuel' =>
    n ← mm_call mi_epoll_wait;
    n ← munwrap n;
    if (0 <? n)%nat then drain_out fuel' else mret tt
  end.
Definition monitor_io_dispatch (fuel : nat) : G Z := drain_out fuel;; monitored;; defer_enable false.
Definition monitor_defer_dispatch : G Z :=
  ret ← monitored; mret (match ret with Ok _ => 0 | Err _ => -1 end)%Z.

(** [ReStation for MountManager], and the registration of the sources. *)
Definition mount_input_rebuild : G unit := defer_enable true;; mret tt.
Definition mount_compensate (f : UnitId → E → E) (lunit : option UnitId) : G unit :=
  unit_id ← munwrap lunit;
  s ← mget;
  match redb_get RELI_LAST_KEY (mm_frame s) with
  | None => mret tt
  | Some FrameMonitor => mm_do (f unit_id)
  end.
Definition mount_db_compensate_last (lunit : option UnitId) : G unit :=
  mount_compensate (λ u, mu_rentry_trigger_merge u true) lunit.
Definition mount_do_compensate_last (lunit : option UnitId) : G unit := mount_compensate mu_trigger_unit lunit.
Definition mount_register : G unit :=
  r ← mm_call (ev_add_source SrcMonitorDefer); massert (negb (is_err r)).
Definition mount_register_ex : G unit :=
  r ← mm_call (ev_add_source SrcMonitorIo); massert (negb (is_err r));;
  r ← mm_call (ev_set_enabled SrcMonitorIo On); massert (negb (is_err r)).
End manager.

(** * The mount table and the mount units agree

    What one reading of the mount table does to the mount units, for any unit
    manager that keeps [MountLaws]; that the mount units of [Mount.v] themselves keep
    them; their recovery; and the names of mount points. *)

(** The unit manager, seen through its active mount units: which mounts can be
    loaded, started and stopped does not depend on the moment. *)
Class MountLaws (E : Type) `{HU : !MountUm E} `{HL : !UnitIf.Reli E} : Type := {
  mt_active : E → gset UnitId;
  mt_loads : UnitId → bool;
  mt_starts : UnitId → bool;
  mt_stops : UnitId → bool;
  mt_active_law u e : u ∈ active_mounts e ↔ u ∈ mt_active e;
  mt_load_law u e : (mu_load_unit_success u e).2 = mt_loads u
    ∧ mt_active (mu_load_unit_success u e).1 = mt_active e;
  mt_start_law u e : mt_active (mu_unit_start u e).1 = if mt_starts u then {[u]} ∪ mt_active e else mt_active e;
  mt_stop_law u e : mt_active (mu_unit_stop u false e).1 = if mt_stops u then mt_active e ∖ {[u]} else mt_active e;
  mt_set_law u e : mt_active (reli_set_last_unit u e) = mt_active e;
  mt_clear_law e : mt_active (reli_clear_last_unit e) = mt_active e;
}.

(** The unit of a line, [None] for a line that is passed over. *)
Definition line_unit (line : option MountEntry) : option UnitId :=
  m ← line;
  if decide (me_fstype m = Some "autofs"%string) then None else me_mount_point m ≫= mount_point_to_unit_name.
(** A line that does not panic. *)
Definition line_ok (line : option MountEntry) : Prop :=
  ∀ m, line = Some m → me_fstype m = Some "autofs"%string ∨ is_Some (me_mount_point m ≫= mount_point_to_unit_name).

Section facts.
Context `{HI : !HashIter} {E : Type}.
Context `{HU : !MountUm E} `{HS : !MountSys E} `{HL : !UnitIf.Reli E} `{HW : !MountLaws E}.
Implicit Types (s : MountMgr E) (u : UnitId) (e : E).

Lemma wp_mm_do f s (Q : MountMgr E → unit → Prop) : wp (mm_do f) s Q ↔ Q (set_mm_rest (f (mm_rest s)) s) tt.
Proof. done. Qed.
Lemma wp_mm_call {A} (f : E → E * A) s (Q : MountMgr E → A → Prop) :
  wp (mm_call f) s Q ↔ Q (set_mm_rest (f (mm_rest s)).1 s) (f (mm_rest s)).2.
Proof. done. Qed.

(** The store after the lines of [seen]: what is active, and what is still to be
    stopped. *)
Record lines_seen (s0 s : MountMgr E) (seen : list UnitId) (dead : gset UnitId) : Prop := {
  ls_frame : mm_frame s = mm_frame s0;
  ls_dead u : u ∈ dead ↔ u ∈ mt_active (mm_rest s0) ∧ u ∉ seen;
  ls_active u : u ∈ mt_active (mm_rest s) ↔
    u ∈ mt_active (mm_rest s0) ∨ (u ∈ seen ∧ mt_loads u = true ∧ mt_starts u = true);
}.
Lemma wp_mount_line s0 s seen dead line : line_ok line → lines_seen s0 s seen dead →
  wp (mount_line dead line) s (λ s' dead', lines_seen s0 s' (seen ++ option_list (line_unit line)) dead').
Proof.
  intros Hok [Hf Hd Ha]. unfold mount_line, line_unit. destruct line as [m|]; simpl.
  2: { apply wp_ret. rewrite app_nil_r. by split. }
  case_decide as Hau; [apply wp_ret; simpl; rewrite app_nil_r; by split|].
  destruct (Hok m eq_refl) as [?|[un Hun]]; [done|]. rewrite Hun.
  destruct (me_mount_point m) as [mp|]; [|done]. simpl in Hun.
  apply wp_bind, wp_munwrap. exists mp. split; [done|]. apply wp_bind, wp_munwrap. exists un. split; [done|].
  change (option_list (Some un)) with [un]. case_decide as Hin.
  { apply wp_ret. split; [done|set_solver|]. intros v. rewrite Ha, elem_of_app, list_elem_of_singleton.
    apply Hd in Hin as [Hact _]. destruct (decide (v = un)) as [->|Hne]; tauto. }
  apply wp_bind, wp_mm_call. destruct (mt_load_law un (mm_rest s)) as [Hl1 Hl2]. rewrite Hl1.
  assert (∀ s', mm_frame s' = mm_frame s0 →
    mt_active (mm_rest s') = (if mt_loads un && mt_starts un then {[un]} ∪ mt_active (mm_rest s) else mt_active (mm_rest s)) →
    lines_seen s0 s' (seen ++ [un]) dead) as Hend.
  { intros s' Hf' Ha'. split; [done| |].
    - intros v. rewrite Hd, elem_of_app, list_elem_of_singleton. rewrite Hd in Hin. destruct (decide (v = un)) as [->|Hne]; tauto.
    - intros v. rewrite Ha', elem_of_app, list_elem_of_singleton.
      assert (v ∈ (if mt_loads un && mt_starts un then {[un]} ∪ mt_active (mm_rest s) else mt_active (mm_rest s))
        ↔ (v = un ∧ mt_loads un = true ∧ mt_starts un = true) ∨ v ∈ mt_active (mm_rest s)) as ->.
      { destruct (mt_loads un), (mt_starts un); simpl; rewrite ?elem_of_union, ?elem_of_singleton; intuition congruence. }
      rewrite Ha. destruct (decide (v = un)) as [->|Hne]; tauto. }
  apply wp_bind. destruct (mt_loads un) eqn:Hl; cbn [mwhen].
  - apply wp_bind, wp_mm_do, wp_bind, wp_mm_call, wp_mm_do, wp_ret, Hend; [done|]. simpl.
    by rewrite mt_clear_law, mt_start_law, mt_set_law, Hl2.
  - by apply wp_ret, wp_ret, Hend.
Qed.
Lemma wp_stop_all s0 s l (Q : MountMgr E → Prop) :
  (∀ s', mm_frame s' = mm_frame s0 →
     (∀ u, u ∈ mt_active (mm_rest s') ↔ u ∈ mt_active (mm_rest s) ∧ ¬ (u ∈ l ∧ mt_stops u = true)) → Q s') →
  mm_frame s = mm_frame s0 → wp (mforeach stop_dead l) s (λ s' _, Q s').
Proof.
  intros HQ Hf. apply (wp_mforeach (λ dn s', mm_frame s' = mm_frame s0 ∧
    ∀ u, u ∈ mt_active (mm_rest s') ↔ u ∈ mt_active (mm_rest s) ∧ ¬ (u ∈ dn ∧ mt_stops u = true))).
  - split; [done|]. intros u. set_solver.
  - intros dn u rest s1 _ [Hf1 H1]. unfold stop_dead. apply wp_bind, wp_mm_do, wp_bind, wp_mm_call, wp_mm_do.
    split; [done|]. intros v. simpl. rewrite mt_clear_law, mt_stop_law, mt_set_law, elem_of_app, list_elem_of_singleton.
    destruct (decide (v = u)) as [->|Hne], (mt_stops u) eqn:Hu; rewrite ?elem_of_difference, ?elem_of_singleton, H1; intuition congruence.
  - intros s1 [Hf1 H1]. by apply HQ.
Qed.

End facts.

(** ** The mount units behind the monitor *)
Section units.
Context `{HI : !HashIter} {E : Type} `{HO : !MountOwner E}.
Implicit Types (w : Mounts E) (u : UnitId).

(** The persisted states are the live ones. *)
Definition mount_inv w : Prop := redb_ignore (mt_mng w) = false ∧ redb_cache (mt_mng w) = mt_state w.
Lemma wp_mount_set_state u st w (Q : Mounts E → unit → Prop) : mount_inv w →
  (∀ w', mount_inv w' → mt_state w' = <[u:=st]> (mt_state w) → mt_rest w' = mt_rest w → Q w' tt) →
  wp (mount_set_state u st true) w Q.
Proof.
  intros [Hi Hc] HQ. unfold mount_set_state, mount_state_notify, mount_db_insert.
  apply wp_bind, wp_mget, wp_bind, wp_mmodify, wp_bind, wp_mmodify, wp_mmodify. apply HQ; [|done..].
  split; simpl; [by rewrite redb_insert_ignore|]. rewrite redb_insert_cache by done.
  unfold mount_state. simpl. by rewrite lookup_insert_eq, Hc.
Qed.
(** A start that the start limit refuses leaves the unit dead, although it is mounted. *)
Lemma wp_mount_start u w : mount_inv w → wp (mount_start u) w (λ w' r,
  mount_inv w' ∧ (r = Ok tt ↔ (mo_test_start_limit u (mt_rest w)).2 = true)
  ∧ mt_state w' = <[u:=if (mo_test_start_limit u (mt_rest w)).2 then MountState.Mounted else MountState.Dead]> (mt_state w)).
Proof.
  intros Hw. unfold mount_start, mount_start_check. apply wp_bind, wp_bind, wp_mget, wp_bind, wp_mmodify.
  set (w1 := set_mt_rest _ w). assert (mount_inv w1) as Hw1 by exact Hw.
  destruct (mo_test_start_limit u (mt_rest w)).2; simpl negb; cbv iota.
  - apply wp_ret, wp_bind, wp_mount_set_state; [done|]. intros w' Hw' Hst _. by apply wp_ret.
  - apply wp_bind, wp_mount_set_state; [done|]. intros w' Hw' Hst _. by apply wp_ret, wp_ret.
Qed.
Lemma wp_mount_stop u w : mount_inv w → wp (mount_stop u) w (λ w' r,
  mount_inv w' ∧ r = Ok tt ∧ mt_state w' = <[u:=MountState.Dead]> (mt_state w)).
Proof.
  intros Hw. unfold mount_stop. apply wp_bind, wp_mount_set_state; [done|]. intros w' Hw' Hst _. by apply wp_ret.
Qed.
(** A restarted manager reads the state of a unit back. *)
Lemma mount_recovers u w rest : mount_inv w →
  wp (mount_db_map u) {| mt_state := ∅; mt_mng := mt_mng w; mt_notes := []; mt_rest := rest |} (λ w' _,
    mount_state u w' = mount_state u w).
Proof.
  intros [Hi Hc]. unfold mount_db_map. apply wp_bind, wp_mget. unfold redb_get. simpl. rewrite Hc.
  unfold mount_state. destruct (mt_state w !! u) as [st|] eqn:Hu.
  - apply wp_mmodify. simpl. by rewrite lookup_insert_eq.
  - apply wp_ret. simpl. by rewrite lookup_empty.
Qed.
End units.

(** *** A unit manager that only has mount units: those of [mt_state]. *)
#[local] Existing Instance hash_iter_canonical.
#[local] Instance open_owner : MountOwner (list UnitId) := {|
  mo_test_start_limit _ e := (e, true); mo_set_ignore_on_isolate _ _ e := e |}.
Abbreviation MountWorld := (Mounts (list UnitId)).
#[local] Instance mount_world_um : MountUm MountWorld := {|
  mu_units_get_all _ w := hm_keys (mt_state w);
  mu_current_active_state u w := mount_current_active_state u w;
  mu_load_unit_success u w := (w, true);
  mu_unit_start u w := if decide (mount_state u w = MountState.Mounted) then (w, Err UnitActionEAlready)
    else match mount_start u w with Returned (w', r) => (w', r) | _ => (w, Err ErrInternal) end;
  mu_unit_stop u force w := match mount_stop u w with Returned (w', r) => (w', r) | _ => (w, Err ErrInternal) end;
  mu_rentry_trigger_merge _ _ w := w;
  mu_trigger_unit _ w := w |}.
#[local] Instance mount_world_reli : UnitIf.Reli MountWorld := {|
  reli_fd_cloexec _ _ w := (w, Ok tt); reli_fd_take _ w := (w, 0%Z);
  reli_set_last_frame1 _ w := w; reli_set_last_frame2 _ _ w := w; reli_clear_last_frame w := w;
  reli_set_last_unit _ w := w; reli_clear_last_unit w := w |}.
#[local] Program Instance mount_world_laws : MountLaws MountWorld := {|
  mt_active w := dom (filter (λ kv, kv.2 = MountState.Mounted) (mt_state w));
  mt_loads _ := true; mt_starts _ := true; mt_stops _ := true |}.
Next Obligation.
  intros u w. unfold active_mounts. simpl. rewrite list_elem_of_filter, elem_of_dom, elem_of_hm_keys.
  unfold mount_current_active_state, mount_state, is_Some.
  setoid_rewrite map_lookup_filter_Some. simpl.
  destruct (mt_state w !! u) as [[]|]; simpl; naive_solver.
Qed.
Next Obligation. done. Qed.
Next Obligation.
  intros u w. simpl. apply set_eq. intros v. rewrite elem_of_union, elem_of_singleton, !elem_of_dom.
  unfold is_Some. setoid_rewrite map_lookup_filter_Some. unfold mount_state.
  case_decide as Hu; simpl.
  - destruct (mt_state w !! u) as [[]|] eqn:Hs; simpl in Hu; try done. naive_solver.
  - setoid_rewrite lookup_insert. case_decide; naive_solver.
Qed.
Next Obligation.
  intros u w. simpl. apply set_eq. intros v. rewrite elem_of_difference, elem_of_singleton, !elem_of_dom.
  unfold is_Some. setoid_rewrite map_lookup_filter_Some. simpl.
  setoid_rewrite lookup_insert. case_decide; naive_solver.
Qed.
Next Obligation. done. Qed.
Next Obligation. done. Qed.
#[local] Instance mount_world_sys : MountSys MountWorld := {|
  mi_epoll_wait w := (w, Some 0);
  mi_mountinfo w := Some ((λ p, Some {| me_fstype := Some "ext4"%string; me_mount_point := Some p |}) <$> mt_rest w) |}.

(** [/home] is mounted and known, [/srv/www] is new, [/mnt] has gone. *)
Definition mount_world : MountWorld := {|
  mt_state := {["home.mount" := MountState.Mounted; "mnt.mount" := MountState.Mounted]}%string;
  mt_mng := ReDb_new; mt_notes := []; mt_rest := ["/"; "/home"; "/srv/www"]%string |}.
Definition mount_mgr : MountMgr MountWorld := {| mm_frame := ReDb_new; mm_rest := mount_world |}.
Definition mount_lines : list (option MountEntry) :=
  (λ p, Some {| me_fstype := Some "ext4"%string; me_mount_point := Some p |}) <$> mt_rest mount_world.
Example mounts_run : (λ s, hm_iter (mt_state (mm_rest s))) (run_state dispatch_mountinfo mount_mgr)
  = [("srv-www.mount", MountState.Mounted); ("mnt.mount", MountState.Dead); ("-.mount", MountState.Mounted);
     ("home.mount", MountState.Mounted)]%string.
Proof. vm_compute. reflexivity. Qed.

(** ** Names *)
Lemma dashed_inj (cs ds : list ascii) : "-"%char ∉ cs → "-"%char ∉ ds →
  ((λ c, if Ascii.eqb c "/" then "-"%char else c) <$> cs) = ((λ c, if Ascii.eqb c "/" then "-"%char else c) <$> ds) →
  cs = ds.
Proof.
  revert ds. induction cs as [|c cs IH]; intros [|d ds] Hc Hd; simpl; try done. intros [= H1 H2].
  rewrite not_elem_of_cons in Hc, Hd. destruct Hc as [Hc1 Hc2], Hd as [Hd1 Hd2]. f_equal; [|by apply IH].
  destruct (Ascii.eqb_spec c "/"), (Ascii.eqb_spec d "/"); congruence.
Qed.
(** Two mount points without a dash, other than the root, that have the same unit are
    the same; [/srv/www] and [/srv-www] have the same unit. *)
Lemma mount_names_distinct p q u : "-"%char ∉ chars p → "-"%char ∉ chars q → p ≠ "/"%string → q ≠ "/"%string →
  head (chars p) = Some "/"%char → head (chars q) = Some "/"%char →
  mount_point_to_unit_name p = Some u → mount_point_to_unit_name q = Some u → p = q.
Proof.
  intros Hp Hq Np Nq Sp Sq. unfold mount_point_to_unit_name.
  assert (∀ r, r ≠ "/"%string → head (chars r) = Some "/"%char → ∃ cs, chars r = "/"%char :: cs ∧
    ((λ c, if Ascii.eqb c "/" then "-"%char else c) <$> chars r) ++ chars ".mount" ≠ chars "-.mount") as Hroot.
  { intros r Nr Sr. destruct r as [|c r]; [done|]. injection Sr as ->. exists (chars r). split; [done|].
    destruct r as [|c' r]; [done|]. cbn. intros [= _ H]. apply (f_equal length) in H. rewrite length_app in H. simpl in H. lia. }
  destruct (Hroot p Np Sp) as (cs & Ep & Hp1), (Hroot q Nq Sq) as (ds & Eq & Hq1).
  rewrite !decide_False by done. rewrite Ep, Eq in *.
  rewrite not_elem_of_cons in Hp, Hq. destruct Hp as [_ Hp], Hq as [_ Hq].
  rewrite !fmap_cons. change (Ascii.eqb "/" "/") with true. cbv iota. cbn [app slice_from1].
  destruct (default false _); [done|]. destruct (default false _); [done|]. intros [= <-] [= Hu].
  apply (f_equal chars) in Hu. rewrite !String.list_ascii_of_string_of_list_ascii in Hu.
  apply app_inv_tail, dashed_inj in Hu; [|done..]. subst ds.
  rewrite <- (String.string_of_list_ascii_of_string p), <- (String.string_of_list_ascii_of_string q). congruence.
Qed.
Example mount_names_collide : mount_point_to_unit_name "/srv/www" = mount_point_to_unit_name "/srv-www".
Proof. reflexivity. Qed.
