(* ===== verification/Device.v ===== *)
(** * The device library: one device

    [libs/device/src/device.rs], [device_action.rs] and the device numbers of
    [libs/basic/src/devnum_util.rs]: a device, read from a message of the kernel or of
    devmaster, or from the tree under [/sys].  The file system is a parameter, and so
    are the functions of the C library on device numbers.  An error is its [Errno];
    the texts are for the log.  The names under [/sys] are ASCII, so that a byte is a
    character. *)
From Stdlib Require Import Ascii.
From S2P Require Import Prelude UnitTypes Condition StdString StdNet.
Local Open Scope Z_scope.

Abbreviation text := (list ascii).
Definition Errno := Z.
Definition ENOENT : Errno := 2.
Definition ENODEV : Errno := 19.
Definition ENOTDIR : Errno := 20.
Definition EINVAL : Errno := 22.
Definition ENOTTY : Errno := 25.

Open Scope try_scope.

(** ** [DeviceAction] *)
Module DeviceAction.
Inductive t := Add | Remove | Change | Move | Online | Offline | Bind | Unbind.
#[global] Instance t_eq_dec : EqDecision t.
Proof. solve_decision. Defined.
End DeviceAction.
Abbreviation DeviceAction := DeviceAction.t.
Definition show_action (a : DeviceAction) : string :=
  match a with
  | DeviceAction.Add => "add" | DeviceAction.Remove => "remove" | DeviceAction.Change => "change"
  | DeviceAction.Move => "move" | DeviceAction.Online => "online" | DeviceAction.Offline => "offline"
  | DeviceAction.Bind => "bind" | DeviceAction.Unbind => "unbind"
  end.
Definition parse_action (s : string) : Result DeviceAction Errno :=
  if decide (s = "add"%string) then Ok DeviceAction.Add
  else if decide (s = "remove"%string) then Ok DeviceAction.Remove
  else if decide (s = "change"%string) then Ok DeviceAction.Change
  else if decide (s = "move"%string) then Ok DeviceAction.Move
  else if decide (s = "online"%string) then Ok DeviceAction.Online
  else if decide (s = "offline"%string) then Ok DeviceAction.Offline
  else if decide (s = "bind"%string) then Ok DeviceAction.Bind
  else if decide (s = "unbind"%string) then Ok DeviceAction.Unbind
  else Err EINVAL.

(** ** [Device] *)

(** A place of a device ([Arc<Mutex<Device>>]). *)
Definition DRef := nat.
(** The fields that nothing changes. *)
Record DeviceIdle := {
  dev_watch_handle : Z; dev_driver : string; dev_device_id : string; dev_usec_initialized : Z;
  dev_devuid : Z; dev_devgid : Z; dev_sysattrs : gset string; dev_all_tags : gset string;
  dev_current_tags : gset string; dev_devlinks : gset string;
}.
Record Device := {
  dev_parent : option DRef;
  dev_ifindex : Z;
  dev_devtype : string;
  dev_devname : string;
  dev_devnum : Z;
  dev_syspath : string;
  dev_devpath : string;
  dev_sysnum : option string;
  dev_sysname : string;
  dev_subsystem : string;
  dev_driver_subsystem : string;
  dev_devmode : Z;
  dev_action : option DeviceAction;
  dev_seqnum : option Z;
  dev_properties : gmap string string;
  dev_properties_db : gmap string string;
  dev_nulstr : text;
  dev_nulstr_len : Z;
  dev_sysattr_values : gmap string string;
  dev_diskseq : Z;
  dev_outdated : bool;
  dev_uevent_loaded : bool;
  dev_subsystem_set : bool;
  dev_parent_set : bool;
  dev_idle : DeviceIdle;
}.
Definition set_dev_parent v (d : Device) : Device :=
  {| dev_parent := v; dev_ifindex := dev_ifindex d; dev_devtype := dev_devtype d;
     dev_devname := dev_devname d; dev_devnum := dev_devnum d; dev_syspath := dev_syspath d;
     dev_devpath := dev_devpath d; dev_sysnum := dev_sysnum d; dev_sysname := dev_sysname d;
     dev_subsystem := dev_subsystem d; dev_driver_subsystem := dev_driver_subsystem d;
     dev_devmode := dev_devmode d; dev_action := dev_action d; dev_seqnum := dev_seqnum d;
     dev_properties := dev_properties d; dev_properties_db := dev_properties_db d;
     dev_nulstr := dev_nulstr d; dev_nulstr_len := dev_nulstr_len d;
     dev_sysattr_values := dev_sysattr_values d; dev_diskseq := dev_diskseq d;
     dev_outdated := dev_outdated d; dev_uevent_loaded := dev_uevent_loaded d;
     dev_subsystem_set := dev_subsystem_set d; dev_parent_set := dev_parent_set d;
     dev_idle := dev_idle d |}.
Definition set_dev_ifindex v (d : Device) : Device :=
  {| dev_parent := dev_parent d; dev_ifindex := v; dev_devtype := dev_devtype d;
     dev_devname := dev_devname d; dev_devnum := dev_devnum d; dev_syspath := dev_syspath d;
     dev_devpath := dev_devpath d; dev_sysnum := dev_sysnum d; dev_sysname := dev_sysname d;
     dev_subsystem := dev_subsystem d; dev_driver_subsystem := dev_driver_subsystem d;
     dev_devmode := dev_devmode d; dev_action := dev_action d; dev_seqnum := dev_seqnum d;
     dev_properties := dev_properties d; dev_properties_db := dev_properties_db d;
     dev_nulstr := dev_nulstr d; dev_nulstr_len := dev_nulstr_len d;
     dev_sysattr_values := dev_sysattr_values d; dev_diskseq := dev_diskseq d;
     dev_outdated := dev_outdated d; dev_uevent_loaded := dev_uevent_loaded d;
     dev_subsystem_set := dev_subsystem_set d; dev_parent_set := dev_parent_set d;
     dev_idle := dev_idle d |}.
Definition set_dev_devtype v (d : Device) : Device :=
  {| dev_parent := dev_parent d; dev_ifindex := dev_ifindex d; dev_devtype := v;
     dev_devname := dev_devname d; dev_devnum := dev_devnum d; dev_syspath := dev_syspath d;
     dev_devpath := dev_devpath d; dev_sysnum := dev_sysnum d; dev_sysname := dev_sysname d;
     dev_subsystem := dev_subsystem d; dev_driver_subsystem := dev_driver_subsystem d;
     dev_devmode := dev_devmode d; dev_action := dev_action d; dev_seqnum := dev_seqnum d;
     dev_properties := dev_properties d; dev_properties_db := dev_properties_db d;
     dev_nulstr := dev_nulstr d; dev_nulstr_len := dev_nulstr_len d;
     dev_sysattr_values := dev_sysattr_values d; dev_diskseq := dev_diskseq d;
     dev_outdated := dev_outdated d; dev_uevent_loaded := dev_uevent_loaded d;
     dev_subsystem_set := dev_subsystem_set d; dev_parent_set := dev_parent_set d;
     dev_idle := dev_idle d |}.
Definition set_dev_devname v (d : Device) : Device :=
  {| dev_parent := dev_parent d; dev_ifindex := dev_ifindex d; dev_devtype := dev_devtype d;
     dev_devname := v; dev_devnum := dev_devnum d; dev_syspath := dev_syspath d;
     dev_devpath := dev_devpath d; dev_sysnum := dev_sysnum d; dev_sysname := dev_sysname d;
     dev_subsystem := dev_subsystem d; dev_driver_subsystem := dev_driver_subsystem d;
     dev_devmode := dev_devmode d; dev_action := dev_action d; dev_seqnum := dev_seqnum d;
     dev_properties := dev_properties d; dev_properties_db := dev_properties_db d;
     dev_nulstr := dev_nulstr d; dev_nulstr_len := dev_nulstr_len d;
     dev_sysattr_values := dev_sysattr_values d; dev_diskseq := dev_diskseq d;
     dev_outdated := dev_outdated d; dev_uevent_loaded := dev_uevent_loaded d;
     dev_subsystem_set := dev_subsystem_set d; dev_parent_set := dev_parent_set d;
     dev_idle := dev_idle d |}.
Definition set_dev_devnum v (d : Device) : Device :=
  {| dev_parent := dev_parent d; dev_ifindex := dev_ifindex d; dev_devtype := dev_devtype d;
     dev_devname := dev_devname d; dev_devnum := v; dev_syspath := dev_syspath d;
     dev_devpath := dev_devpath d; dev_sysnum := dev_sysnum d; dev_sysname := dev_sysname d;
     dev_subsystem := dev_subsystem d; dev_driver_subsystem := dev_driver_subsystem d;
     dev_devmode := dev_devmode d; dev_action := dev_action d; dev_seqnum := dev_seqnum d;
     dev_properties := dev_properties d; dev_properties_db := dev_properties_db d;
     dev_nulstr := dev_nulstr d; dev_nulstr_len := dev_nulstr_len d;
     dev_sysattr_values := dev_sysattr_values d; dev_diskseq := dev_diskseq d;
     dev_outdated := dev_outdated d; dev_uevent_loaded := dev_uevent_loaded d;
     dev_subsystem_set := dev_subsystem_set d; dev_parent_set := dev_parent_set d;
     dev_idle := dev_idle d |}.
Definition set_dev_syspath v (d : Device) : Device :=
  {| dev_parent := dev_parent d; dev_ifindex := dev_ifindex d; dev_devtype := dev_devtype d;
     dev_devname := dev_devname d; dev_devnum := dev_devnum d; dev_syspath := v;
     dev_devpath := dev_devpath d; dev_sysnum := dev_sysnum d; dev_sysname := dev_sysname d;
     dev_subsystem := dev_subsystem d; dev_driver_subsystem := dev_driver_subsystem d;
     dev_devmode := dev_devmode d; dev_action := dev_action d; dev_seqnum := dev_seqnum d;
     dev_properties := dev_properties d; dev_properties_db := dev_properties_db d;
     dev_nulstr := dev_nulstr d; dev_nulstr_len := dev_nulstr_len d;
     dev_sysattr_values := dev_sysattr_values d; dev_diskseq := dev_diskseq d;
     dev_outdated := dev_outdated d; dev_uevent_loaded := dev_uevent_loaded d;
     dev_subsystem_set := dev_subsystem_set d; dev_parent_set := dev_parent_set d;
     dev_idle := dev_idle d |}.
Definition set_dev_devpath v (d : Device) : Device :=
  {| dev_parent := dev_parent d; dev_ifindex := dev_ifindex d; dev_devtype := dev_devtype d;
     dev_devname := dev_devname d; dev_devnum := dev_devnum d; dev_syspath := dev_syspath d;
     dev_devpath := v; dev_sysnum := dev_sysnum d; dev_sysname := dev_sysname d;
     dev_subsystem := dev_subsystem d; dev_driver_subsystem := dev_driver_subsystem d;
     dev_devmode := dev_devmode d; dev_action := dev_action d; dev_seqnum := dev_seqnum d;
     dev_properties := dev_properties d; dev_properties_db := dev_properties_db d;
     dev_nulstr := dev_nulstr d; dev_nulstr_len := dev_nulstr_len d;
     dev_sysattr_values := dev_sysattr_values d; dev_diskseq := dev_diskseq d;
     dev_outdated := dev_outdated d; dev_uevent_loaded := dev_uevent_loaded d;
     dev_subsystem_set := dev_subsystem_set d; dev_parent_set := dev_parent_set d;
     dev_idle := dev_idle d |}.
Definition set_dev_sysnum v (d : Device) : Device :=
  {| dev_parent := dev_parent d; dev_ifindex := dev_ifindex d; dev_devtype := dev_devtype d;
     dev_devname := dev_devname d; dev_devnum := dev_devnum d; dev_syspath := dev_syspath d;
     dev_devpath := dev_devpath d; dev_sysnum := v; dev_sysname := dev_sysname d;
     dev_subsystem := dev_subsystem d; dev_driver_subsystem := dev_driver_subsystem d;
     dev_devmode := dev_devmode d; dev_action := dev_action d; dev_seqnum := dev_seqnum d;
     dev_properties := dev_properties d; dev_properties_db := dev_properties_db d;
     dev_nulstr := dev_nulstr d; dev_nulstr_len := dev_nulstr_len d;
     dev_sysattr_values := dev_sysattr_values d; dev_diskseq := dev_diskseq d;
     dev_outdated := dev_outdated d; dev_uevent_loaded := dev_uevent_loaded d;
     dev_subsystem_set := dev_subsystem_set d; dev_parent_set := dev_parent_set d;
     dev_idle := dev_idle d |}.
Definition set_dev_sysname v (d : Device) : Device :=
  {| dev_parent := dev_parent d; dev_ifindex := dev_ifindex d; dev_devtype := dev_devtype d;
     dev_devname := dev_devname d; dev_devnum := dev_devnum d; dev_syspath := dev_syspath d;
     dev_devpath := dev_devpath d; dev_sysnum := dev_sysnum d; dev_sysname := v;
     dev_subsystem := dev_subsystem d; dev_driver_subsystem := dev_driver_subsystem d;
     dev_devmode := dev_devmode d; dev_action := dev_action d; dev_seqnum := dev_seqnum d;
     dev_properties := dev_properties d; dev_properties_db := dev_properties_db d;
     dev_nulstr := dev_nulstr d; dev_nulstr_len := dev_nulstr_len d;
     dev_sysattr_values := dev_sysattr_values d; dev_diskseq := dev_diskseq d;
     dev_outdated := dev_outdated d; dev_uevent_loaded := dev_uevent_loaded d;
     dev_subsystem_set := dev_subsystem_set d; dev_parent_set := dev_parent_set d;
     dev_idle := dev_idle d |}.
Definition set_dev_subsystem v (d : Device) : Device :=
  {| dev_parent := dev_parent d; dev_ifindex := dev_ifindex d; dev_devtype := dev_devtype d;
     dev_devname := dev_devname d; dev_devnum := dev_devnum d; dev_syspath := dev_syspath d;
     dev_devpath := dev_devpath d; dev_sysnum := dev_sysnum d; dev_sysname := dev_sysname d;
     dev_subsystem := v; dev_driver_subsystem := dev_driver_subsystem d;
     dev_devmode := dev_devmode d; dev_action := dev_action d; dev_seqnum := dev_seqnum d;
     dev_properties := dev_properties d; dev_properties_db := dev_properties_db d;
     dev_nulstr := dev_nulstr d; dev_nulstr_len := dev_nulstr_len d;
     dev_sysattr_values := dev_sysattr_values d; dev_diskseq := dev_diskseq d;
     dev_outdated := dev_outdated d; dev_uevent_loaded := dev_uevent_loaded d;
     dev_subsystem_set := dev_subsystem_set d; dev_parent_set := dev_parent_set d;
     dev_idle := dev_idle d |}.
Definition set_dev_driver_subsystem v (d : Device) : Device :=
  {| dev_parent := dev_parent d; dev_ifindex := dev_ifindex d; dev_devtype := dev_devtype d;
     dev_devname := dev_devname d; dev_devnum := dev_devnum d; dev_syspath := dev_syspath d;
     dev_devpath := dev_devpath d; dev_sysnum := dev_sysnum d; dev_sysname := dev_sysname d;
     dev_subsystem := dev_subsystem d; dev_driver_subsystem := v; dev_devmode := dev_devmode d;
     dev_action := dev_action d; dev_seqnum := dev_seqnum d; dev_properties := dev_properties d;
     dev_properties_db := dev_properties_db d; dev_nulstr := dev_nulstr d;
     dev_nulstr_len := dev_nulstr_len d; dev_sysattr_values := dev_sysattr_values d;
     dev_diskseq := dev_diskseq d; dev_outdated := dev_outdated d;
     dev_uevent_loaded := dev_uevent_loaded d; dev_subsystem_set := dev_subsystem_set d;
     dev_parent_set := dev_parent_set d; dev_idle := dev_idle d |}.
Definition set_dev_devmode v (d : Device) : Device :=
  {| dev_parent := dev_parent d; dev_ifindex := dev_ifindex d; dev_devtype := dev_devtype d;
     dev_devname := dev_devname d; dev_devnum := dev_devnum d; dev_syspath := dev_syspath d;
     dev_devpath := dev_devpath d; dev_sysnum := dev_sysnum d; dev_sysname := dev_sysname d;
     dev_subsystem := dev_subsystem d; dev_driver_subsystem := dev_driver_subsystem d;
     dev_devmode := v; dev_action := dev_action d; dev_seqnum := dev_seqnum d;
     dev_properties := dev_properties d; dev_properties_db := dev_properties_db d;
     dev_nulstr := dev_nulstr d; dev_nulstr_len := dev_nulstr_len d;
     dev_sysattr_values := dev_sysattr_values d; dev_diskseq := dev_diskseq d;
     dev_outdated := dev_outdated d; dev_uevent_loaded := dev_uevent_loaded d;
     dev_subsystem_set := dev_subsystem_set d; dev_parent_set := dev_parent_set d;
     dev_idle := dev_idle d |}.
Definition set_dev_action v (d : Device) : Device :=
  {| dev_parent := dev_parent d; dev_ifindex := dev_ifindex d; dev_devtype := dev_devtype d;
     dev_devname := dev_devname d; dev_devnum := dev_devnum d; dev_syspath := dev_syspath d;
     dev_devpath := dev_devpath d; dev_sysnum := dev_sysnum d; dev_sysname := dev_sysname d;
     dev_subsystem := dev_subsystem d; dev_driver_subsystem := dev_driver_subsystem d;
     dev_devmode := dev_devmode d; dev_action := v; dev_seqnum := dev_seqnum d;
     dev_properties := dev_properties d; dev_properties_db := dev_properties_db d;
     dev_nulstr := dev_nulstr d; dev_nulstr_len := dev_nulstr_len d;
     dev_sysattr_values := dev_sysattr_values d; dev_diskseq := dev_diskseq d;
     dev_outdated := dev_outdated d; dev_uevent_loaded := dev_uevent_loaded d;
     dev_subsystem_set := dev_subsystem_set d; dev_parent_set := dev_parent_set d;
     dev_idle := dev_idle d |}.
Definition set_dev_seqnum v (d : Device) : Device :=
  {| dev_parent := dev_parent d; dev_ifindex := dev_ifindex d; dev_devtype := dev_devtype d;
     dev_devname := dev_devname d; dev_devnum := dev_devnum d; dev_syspath := dev_syspath d;
     dev_devpath := dev_devpath d; dev_sysnum := dev_sysnum d; dev_sysname := dev_sysname d;
     dev_subsystem := dev_subsystem d; dev_driver_subsystem := dev_driver_subsystem d;
     dev_devmode := dev_devmode d; dev_action := dev_action d; dev_seqnum := v;
     dev_properties := dev_properties d; dev_properties_db := dev_properties_db d;
     dev_nulstr := dev_nulstr d; dev_nulstr_len := dev_nulstr_len d;
     dev_sysattr_values := dev_sysattr_values d; dev_diskseq := dev_diskseq d;
     dev_outdated := dev_outdated d; dev_uevent_loaded := dev_uevent_loaded d;
     dev_subsystem_set := dev_subsystem_set d; dev_parent_set := dev_parent_set d;
     dev_idle := dev_idle d |}.
Definition set_dev_properties v (d : Device) : Device :=
  {| dev_parent := dev_parent d; dev_ifindex := dev_ifindex d; dev_devtype := dev_devtype d;
     dev_devname := dev_devname d; dev_devnum := dev_devnum d; dev_syspath := dev_syspath d;
     dev_devpath := dev_devpath d; dev_sysnum := dev_sysnum d; dev_sysname := dev_sysname d;
     dev_subsystem := dev_subsystem d; dev_driver_subsystem := dev_driver_subsystem d;
     dev_devmode := dev_devmode d; dev_action := dev_action d; dev_seqnum := dev_seqnum d;
     dev_properties := v; dev_properties_db := dev_properties_db d; dev_nulstr := dev_nulstr d;
     dev_nulstr_len := dev_nulstr_len d; dev_sysattr_values := dev_sysattr_values d;
     dev_diskseq := dev_diskseq d; dev_outdated := dev_outdated d;
     dev_uevent_loaded := dev_uevent_loaded d; dev_subsystem_set := dev_subsystem_set d;
     dev_parent_set := dev_parent_set d; dev_idle := dev_idle d |}.
Definition set_dev_properties_db v (d : Device) : Device :=
  {| dev_parent := dev_parent d; dev_ifindex := dev_ifindex d; dev_devtype := dev_devtype d;
     dev_devname := dev_devname d; dev_devnum := dev_devnum d; dev_syspath := dev_syspath d;
     dev_devpath := dev_devpath d; dev_sysnum := dev_sysnum d; dev_sysname := dev_sysname d;
     dev_subsystem := dev_subsystem d; dev_driver_subsystem := dev_driver_subsystem d;
     dev_devmode := dev_devmode d; dev_action := dev_action d; dev_seqnum := dev_seqnum d;
     dev_properties := dev_properties d; dev_properties_db := v; dev_nulstr := dev_nulstr d;
     dev_nulstr_len := dev_nulstr_len d; dev_sysattr_values := dev_sysattr_values d;
     dev_diskseq := dev_diskseq d; dev_outdated := dev_outdated d;
     dev_uevent_loaded := dev_uevent_loaded d; dev_subsystem_set := dev_subsystem_set d;
     dev_parent_set := dev_parent_set d; dev_idle := dev_idle d |}.
Definition set_dev_nulstr v (d : Device) : Device :=
  {| dev_parent := dev_parent d; dev_ifindex := dev_ifindex d; dev_devtype := dev_devtype d;
     dev_devname := dev_devname d; dev_devnum := dev_devnum d; dev_syspath := dev_syspath d;
     dev_devpath := dev_devpath d; dev_sysnum := dev_sysnum d; dev_sysname := dev_sysname d;
     dev_subsystem := dev_subsystem d; dev_driver_subsystem := dev_driver_subsystem d;
     dev_devmode := dev_devmode d; dev_action := dev_action d; dev_seqnum := dev_seqnum d;
     dev_properties := dev_properties d; dev_properties_db := dev_properties_db d; dev_nulstr := v;
     dev_nulstr_len := dev_nulstr_len d; dev_sysattr_values := dev_sysattr_values d;
     dev_diskseq := dev_diskseq d; dev_outdated := dev_outdated d;
     dev_uevent_loaded := dev_uevent_loaded d; dev_subsystem_set := dev_subsystem_set d;
     dev_parent_set := dev_parent_set d; dev_idle := dev_idle d |}.
Definition set_dev_nulstr_len v (d : Device) : Device :=
  {| dev_parent := dev_parent d; dev_ifindex := dev_ifindex d; dev_devtype := dev_devtype d;
     dev_devname := dev_devname d; dev_devnum := dev_devnum d; dev_syspath := dev_syspath d;
     dev_devpath := dev_devpath d; dev_sysnum := dev_sysnum d; dev_sysname := dev_sysname d;
     dev_subsystem := dev_subsystem d; dev_driver_subsystem := dev_driver_subsystem d;
     dev_devmode := dev_devmode d; dev_action := dev_action d; dev_seqnum := dev_seqnum d;
     dev_properties := dev_properties d; dev_properties_db := dev_properties_db d;
     dev_nulstr := dev_nulstr d; dev_nulstr_len := v; dev_sysattr_values := dev_sysattr_values d;
     dev_diskseq := dev_diskseq d; dev_outdated := dev_outdated d;
     dev_uevent_loaded := dev_uevent_loaded d; dev_subsystem_set := dev_subsystem_set d;
     dev_parent_set := dev_parent_set d; dev_idle := dev_idle d |}.
Definition set_dev_sysattr_values v (d : Device) : Device :=
  {| dev_parent := dev_parent d; dev_ifindex := dev_ifindex d; dev_devtype := dev_devtype d;
     dev_devname := dev_devname d; dev_devnum := dev_devnum d; dev_syspath := dev_syspath d;
     dev_devpath := dev_devpath d; dev_sysnum := dev_sysnum d; dev_sysname := dev_sysname d;
     dev_subsystem := dev_subsystem d; dev_driver_subsystem := dev_driver_subsystem d;
     dev_devmode := dev_devmode d; dev_action := dev_action d; dev_seqnum := dev_seqnum d;
     dev_properties := dev_properties d; dev_properties_db := dev_properties_db d;
     dev_nulstr := dev_nulstr d; dev_nulstr_len := dev_nulstr_len d; dev_sysattr_values := v;
     dev_diskseq := dev_diskseq d; dev_outdated := dev_outdated d;
     dev_uevent_loaded := dev_uevent_loaded d; dev_subsystem_set := dev_subsystem_set d;
     dev_parent_set := dev_parent_set d; dev_idle := dev_idle d |}.
Definition set_dev_diskseq v (d : Device) : Device :=
  {| dev_parent := dev_parent d; dev_ifindex := dev_ifindex d; dev_devtype := dev_devtype d;
     dev_devname := dev_devname d; dev_devnum := dev_devnum d; dev_syspath := dev_syspath d;
     dev_devpath := dev_devpath d; dev_sysnum := dev_sysnum d; dev_sysname := dev_sysname d;
     dev_subsystem := dev_subsystem d; dev_driver_subsystem := dev_driver_subsystem d;
     dev_devmode := dev_devmode d; dev_action := dev_action d; dev_seqnum := dev_seqnum d;
     dev_properties := dev_properties d; dev_properties_db := dev_properties_db d;
     dev_nulstr := dev_nulstr d; dev_nulstr_len := dev_nulstr_len d;
     dev_sysattr_values := dev_sysattr_values d; dev_diskseq := v; dev_outdated := dev_outdated d;
     dev_uevent_loaded := dev_uevent_loaded d; dev_subsystem_set := dev_subsystem_set d;
     dev_parent_set := dev_parent_set d; dev_idle := dev_idle d |}.
Definition set_dev_outdated v (d : Device) : Device :=
  {| dev_parent := dev_parent d; dev_ifindex := dev_ifindex d; dev_devtype := dev_devtype d;
     dev_devname := dev_devname d; dev_devnum := dev_devnum d; dev_syspath := dev_syspath d;
     dev_devpath := dev_devpath d; dev_sysnum := dev_sysnum d; dev_sysname := dev_sysname d;
     dev_subsystem := dev_subsystem d; dev_driver_subsystem := dev_driver_subsystem d;
     dev_devmode := dev_devmode d; dev_action := dev_action d; dev_seqnum := dev_seqnum d;
     dev_properties := dev_properties d; dev_properties_db := dev_properties_db d;
     dev_nulstr := dev_nulstr d; dev_nulstr_len := dev_nulstr_len d;
     dev_sysattr_values := dev_sysattr_values d; dev_diskseq := dev_diskseq d; dev_outdated := v;
     dev_uevent_loaded := dev_uevent_loaded d; dev_subsystem_set := dev_subsystem_set d;
     dev_parent_set := dev_parent_set d; dev_idle := dev_idle d |}.
Definition set_dev_uevent_loaded v (d : Device) : Device :=
  {| dev_parent := dev_parent d; dev_ifindex := dev_ifindex d; dev_devtype := dev_devtype d;
     dev_devname := dev_devname d; dev_devnum := dev_devnum d; dev_syspath := dev_syspath d;
     dev_devpath := dev_devpath d; dev_sysnum := dev_sysnum d; dev_sysname := dev_sysname d;
     dev_subsystem := dev_subsystem d; dev_driver_subsystem := dev_driver_subsystem d;
     dev_devmode := dev_devmode d; dev_action := dev_action d; dev_seqnum := dev_seqnum d;
     dev_properties := dev_properties d; dev_properties_db := dev_properties_db d;
     dev_nulstr := dev_nulstr d; dev_nulstr_len := dev_nulstr_len d;
     dev_sysattr_values := dev_sysattr_values d; dev_diskseq := dev_diskseq d;
     dev_outdated := dev_outdated d; dev_uevent_loaded := v;
     dev_subsystem_set := dev_subsystem_set d; dev_parent_set := dev_parent_set d;
     dev_idle := dev_idle d |}.
Definition set_dev_subsystem_set v (d : Device) : Device :=
  {| dev_parent := dev_parent d; dev_ifindex := dev_ifindex d; dev_devtype := dev_devtype d;
     dev_devname := dev_devname d; dev_devnum := dev_devnum d; dev_syspath := dev_syspath d;
     dev_devpath := dev_devpath d; dev_sysnum := dev_sysnum d; dev_sysname := dev_sysname d;
     dev_subsystem := dev_subsystem d; dev_driver_subsystem := dev_driver_subsystem d;
     dev_devmode := dev_devmode d; dev_action := dev_action d; dev_seqnum := dev_seqnum d;
     dev_properties := dev_properties d; dev_properties_db := dev_properties_db d;
     dev_nulstr := dev_nulstr d; dev_nulstr_len := dev_nulstr_len d;
     dev_sysattr_values := dev_sysattr_values d; dev_diskseq := dev_diskseq d;
     dev_outdated := dev_outdated d; dev_uevent_loaded := dev_uevent_loaded d;
     dev_subsystem_set := v; dev_parent_set := dev_parent_set d; dev_idle := dev_idle d |}.
Definition set_dev_parent_set v (d : Device) : Device :=
  {| dev_parent := dev_parent d; dev_ifindex := dev_ifindex d; dev_devtype := dev_devtype d;
     dev_devname := dev_devname d; dev_devnum := dev_devnum d; dev_syspath := dev_syspath d;
     dev_devpath := dev_devpath d; dev_sysnum := dev_sysnum d; dev_sysname := dev_sysname d;
     dev_subsystem := dev_subsystem d; dev_driver_subsystem := dev_driver_subsystem d;
     dev_devmode := dev_devmode d; dev_action := dev_action d; dev_seqnum := dev_seqnum d;
     dev_properties := dev_properties d; dev_properties_db := dev_properties_db d;
     dev_nulstr := dev_nulstr d; dev_nulstr_len := dev_nulstr_len d;
     dev_sysattr_values := dev_sysattr_values d; dev_diskseq := dev_diskseq d;
     dev_outdated := dev_outdated d; dev_uevent_loaded := dev_uevent_loaded d;
     dev_subsystem_set := dev_subsystem_set d; dev_parent_set := v; dev_idle := dev_idle d |}.
Definition Device_new : Device := {|
  dev_parent := None; dev_ifindex := 0; dev_devtype := ""; dev_devname := ""; dev_devnum := 0; dev_syspath := "";
  dev_devpath := ""; dev_sysnum := None; dev_sysname := ""; dev_subsystem := ""; dev_driver_subsystem := "";
  dev_devmode := u32_max; dev_action := None; dev_seqnum := None; dev_properties := ∅; dev_properties_db := ∅;
  dev_nulstr := []; dev_nulstr_len := 0; dev_sysattr_values := ∅; dev_diskseq := 0; dev_outdated := false;
  dev_uevent_loaded := false; dev_subsystem_set := false; dev_parent_set := false;
  dev_idle := {| dev_watch_handle := -1; dev_driver := ""; dev_device_id := ""; dev_usec_initialized := 0;
    dev_devuid := u32_max; dev_devgid := u32_max; dev_sysattrs := ∅; dev_all_tags := ∅; dev_current_tags := ∅;
    dev_devlinks := ∅ |}
|}%string.

(** [libc]: device numbers. *)
Class Devnum : Type := { dn_makedev : Z → Z → Z; dn_major : Z → Z; dn_minor : Z → Z }.

(** ** What only concerns the device *)
Section self.
Context `{HI : !HashIter} `{HN : !Devnum}.
Abbreviation V := (M Device).
Abbreviation RV A := (M Device (Result A Errno)).

(** An empty value removes the property. *)
Definition property_update (key value : string) (m : gmap string string) : gmap string string :=
  if decide (value = ""%string) then delete key m else <[key:=value]> m.
Definition add_property_aux (key value : string) (db : bool) : RV unit :=
  if decide (key = ""%string) then mret (Err EINVAL) else
  mmodify (λ d, if db then set_dev_properties_db (property_update key value (dev_properties_db d)) d
                else set_dev_properties (property_update key value (dev_properties d)) d);;
  mwhen (negb db) (mmodify (set_dev_outdated true));;
  mret (Ok tt).
Definition add_property_internal (key value : string) : RV unit := add_property_aux key value false.

Definition set_subsystem (subsystem : string) : RV unit :=
  add_property_internal "SUBSYSTEM" subsystem ;;?
  mmodify (set_dev_subsystem_set true);; mmodify (set_dev_subsystem subsystem);; mret (Ok tt).
(** The component before the first [drivers]; in front of it [idx - 1] wraps. *)
Definition before_drivers (components : list string) : option (option string) :=
  match list_find (λ c, c = "drivers"%string) components with
  | None => Some (Some ""%string)
  | Some (O, _) => Some None
  | Some (S i, _) => Some (components !! i)
  end.
Definition set_drivers_subsystem : RV unit :=
  d ← mget;
  o ← munwrap (before_drivers (split_char "/"%char (dev_devpath d)));
  subsystem ← munwrap o;
  if decide (subsystem = ""%string) then mret (Err EINVAL) else
  set_subsystem subsystem ;;?
  mmodify (set_dev_driver_subsystem subsystem);; mret (Ok tt).

Definition set_devtype (devtype : string) : RV unit :=
  add_property_internal "DEVTYPE" devtype ;;? mmodify (set_dev_devtype devtype);; mret (Ok tt).
(** [x.parse().map_err(..)?] *)
Definition parsed {A} (o : option A) : RV A := mret (match o with Some a => Ok a | None => Err EINVAL end).
Definition set_ifindex (ifindex : string) : RV unit :=
  add_property_internal "IFINDEX" ifindex ;;?
  idx ←? parsed (parse_i32 ifindex); mmodify (set_dev_ifindex idx);; mret (Ok tt).
Definition set_devname (devname : string) : RV unit :=
  let devname := if starts_with_char "/"%char devname then devname else ("/dev/" ++ devname)%string in
  add_property_internal "DEVNAME" devname ;;? mmodify (set_dev_devname devname);; mret (Ok tt).
Definition set_devmode (devmode : string) : RV unit :=
  add_property_internal "DEVMODE" devmode ;;?
  m ←? parsed (parse_u32 devmode); mmodify (set_dev_devmode m);; mret (Ok tt).
Definition set_devnum (major minor : string) : RV unit :=
  major_num ←? parsed (parse_u64 major);
  minor_num ←? parsed (parse_u64 minor);
  add_property_internal "MAJOR" major ;;?
  add_property_internal "MINOR" minor ;;?
  mmodify (set_dev_devnum (dn_makedev major_num minor_num));; mret (Ok tt).
Definition set_diskseq (diskseq : string) : RV unit :=
  add_property_internal "DISKSEQ" diskseq ;;?
  n ←? parsed (parse_u64 diskseq); mmodify (set_dev_diskseq n);; mret (Ok tt).
Definition set_action (action : DeviceAction) : RV unit :=
  add_property_internal "ACTION" (show_action action) ;;? mmodify (set_dev_action (Some action));; mret (Ok tt).
Definition set_action_from_string (action_s : string) : RV unit :=
  match parse_action action_s with Ok action => set_action action | Err _ => mret (Err EINVAL) end.
Definition set_seqnum (seqnum : Z) : RV unit :=
  add_property_internal "SEQNUM" (show_uint seqnum) ;;? mmodify (set_dev_seqnum (Some seqnum));; mret (Ok tt).
Definition set_seqnum_from_string (seqnum_s : string) : RV unit :=
  seqnum ←? parsed (parse_u64 seqnum_s); set_seqnum seqnum.
Definition cache_sysattr_value (sysattr value : string) : RV unit :=
  mmodify (λ d, set_dev_sysattr_values (<[sysattr:=value]> (dev_sysattr_values d)) d);; mret (Ok tt).
Definition remove_cached_sysattr_value (sysattr : string) : RV unit :=
  mmodify (λ d, set_dev_sysattr_values (delete sysattr (dev_sysattr_values d)) d);; mret (Ok tt).

(** The path after the checks of [set_syspath]. *)
Definition set_syspath_to (p : string) : RV unit :=
  match str_strip_prefix "/sys" p with
  | None => mret (Err EINVAL)
  | Some devpath =>
    if negb (starts_with_char "/"%char devpath) then mret (Err ENODEV) else
    r ← add_property_internal "DEVPATH" devpath;
    match r with
    | Err _ => mret (Err ENODEV)
    | Ok _ => mmodify (set_dev_syspath p);; mmodify (set_dev_devpath devpath);; mret (Ok tt)
    end
  end.
(** [set_syspath(path, false)] *)
Definition set_syspath_unverified (path : string) : RV unit :=
  if negb (str_starts_with "/sys/" path) then mret (Err EINVAL) else set_syspath_to path.

(** The loop moves back to the first digit of the name. *)
Fixpoint from_first_digit (cs : text) : option text :=
  match cs with
  | [] => None
  | c :: cs' => if is_some (digit_value 10 c) then Some cs else from_first_digit cs'
  end.
Definition set_sysname_and_sysnum : RV unit :=
  d ← mget;
  match before_last "/"%char (chars (dev_devpath d)) with
  | None => mret (Err EINVAL)
  | Some dir =>
    let sysname := str_replace "!"%char "/"%char (of_chars (drop (S (length dir)) (chars (dev_devpath d)))) in
    mmodify (set_dev_sysnum (of_chars <$> from_first_digit (chars sysname)));;
    mmodify (set_dev_sysname sysname);;
    mret (Ok tt)
  end.
Definition get_sysname : V (option string) :=
  d ← mget;
  bad ← (if decide (dev_sysname d = ""%string) then r ← set_sysname_and_sysnum; mret (is_err r) else mret false);
  if (bad : bool) then mret None else d ← mget; mret (Some (dev_sysname d)).
Definition get_syspath (d : Device) : option string := if decide (dev_syspath d = ""%string) then None else Some (dev_syspath d).
Definition get_devpath (d : Device) : option string := if decide (dev_devpath d = ""%string) then None else Some (dev_devpath d).
Definition get_seqnum (d : Device) : option Z := dev_seqnum d.

(** ** Messages *)
Definition property_line (kv : string * string) : text := chars kv.1 ++ "="%char :: chars kv.2 ++ ["000"%char].
Definition update_properties_bufs : RV unit :=
  d ← mget;
  if negb (dev_outdated d) then mret (Ok tt) else
  mmodify (λ d, set_dev_nulstr (concat (property_line <$> hm_iter (dev_properties d))) d);;
  mmodify (λ d, set_dev_nulstr_len (Z.of_nat (length (dev_nulstr d))) d);;
  mmodify (set_dev_outdated false);;
  mret (Ok tt).
Definition get_properties_nulstr : RV (text * Z) :=
  update_properties_bufs ;;? d ← mget; mret (Ok (dev_nulstr d, dev_nulstr_len d)).

(** One line of a message; the numbers are kept until its end. *)
Definition nulstr_line (nums : string * string) (key value : string) : RV (string * string) :=
  let keep (m : RV unit) : RV (string * string) := m ;;? mret (Ok nums) in
  if decide (key = "DEVPATH"%string) then keep (set_syspath_unverified ("/sys" ++ value))
  else if decide (key = "ACTION"%string) then keep (set_action_from_string value)
  else if decide (key = "SUBSYSTEM"%string) then keep (set_subsystem value)
  else if decide (key = "DEVTYPE"%string) then keep (set_devtype value)
  else if decide (key = "MINOR"%string) then mret (Ok (nums.1, value))
  else if decide (key = "MAJOR"%string) then mret (Ok (value, nums.2))
  else if decide (key = "DEVNAME"%string) then keep (set_devname value)
  else if decide (key = "SEQNUM"%string) then keep (set_seqnum_from_string value)
  else if decide (key = "TAGS"%string ∨ key = "CURRENT_TAGS"%string) then mret (Ok nums)
  else keep (add_property_internal key value).
Fixpoint nulstr_lines (nums : string * string) (lines : list text) : RV (string * string) :=
  match lines with
  | [] => mret (Ok nums)
  | line :: lines' =>
    match split_on (Ascii.eqb "="%char) [] line with
    | key :: value :: _ => nums ←? nulstr_line nums (of_chars key) (of_chars value); nulstr_lines nums lines'
    | _ => mret (Ok nums)
    end
  end.
Definition read_nulstr (nulstr : text) : RV unit :=
  massert (utf8 nulstr);;
  nums ←? nulstr_lines ("", "")%string (split_on (Ascii.eqb "000"%char) [] nulstr);
  (if decide (nums.1 = ""%string) then mret (Ok tt) else set_devnum nums.1 nums.2) ;;?
  update_properties_bufs.
Definition from_nulstr (nulstr : text) : Outcome (Result Device Errno) :=
  match read_nulstr nulstr Device_new with
  | Returned (d, Ok _) => Returned (Ok d)
  | Returned (_, Err e) => Returned (Err e)
  | Panicked => Panicked
  | OutOfFuel => OutOfFuel
  end.
End self.

(** ** The tree under [/sys] *)

Inductive FileType := FtDir | FtSymlink | FtOther.
(** An entry of a directory: its path and its name, [None] where it is not UTF-8, and
    its type, [None] where it cannot be told. *)
Record DirEntry := { de_path : string; de_name : option string; de_type : option FileType }.
(** The file system: an error is the [raw_os_error] of a call, and the content of a
    file is [None] when it cannot be read as text. *)
Class SysFs (E : Type) : Type := {
  sf_canonicalize : string → E → Result string Errno;
  sf_is_dir : string → E → bool;
  sf_exists : string → E → bool;
  sf_read : string → E → Result (option text) (option Errno);
  sf_open_write : string → E → option Errno;
  sf_write : string → string → E → E * option Errno;
  sf_read_dir : string → E → Result (list (Result DirEntry Errno)) Errno;
  sf_stat : string → E → Result (Z * Z) Errno;
}.
(** A device and the system around it. *)
Record DevSt (E : Type) := { ds_dev : Device; ds_sys : E }.
Arguments Build_DevSt {E}. Arguments ds_dev {E}. Arguments ds_sys {E}.

Definition S_IFMT : Z := 61440.
Definition S_IFCHR : Z := 8192.
Definition S_IFBLK : Z := 24576.

Section sys.
Context `{HI : !HashIter} `{HN : !Devnum} {E : Type} `{HF : !SysFs E}.
Abbreviation T := (M (DevSt E)).
Abbreviation RT A := (M (DevSt E) (Result A Errno)).
Definition on_self {A} (m : M Device A) : T A :=
  mzoom ds_dev (λ d s, {| ds_dev := d; ds_sys := ds_sys s |}) m.

(** The checks of [set_syspath(path, true)]. *)
Definition verify_syspath (path : string) : RT string :=
  s ← mget;
  match sf_canonicalize path (ds_sys s) with
  | Err e => mret (Err e)
  | Ok path =>
    if negb (path_starts_with "/sys" path) then mret (Err EINVAL) else
    let checked : Result unit Errno :=
      if path_starts_with "/sys/devices/" path then
        if negb (sf_is_dir path (ds_sys s)) then Err ENOTDIR
        else if negb (sf_exists (path ++ "/uevent") (ds_sys s)) then Err ENOENT
        else Ok tt
      else if negb (sf_is_dir path (ds_sys s)) then Err ENODEV else Ok tt in
    match checked with
    | Err e => mret (Err e)
    | Ok _ => if utf8 (chars path) then mret (Ok path) else mret (Err EINVAL)
    end
  end.
Definition set_syspath (path : string) (verify : bool) : RT unit :=
  if verify then p ←? verify_syspath path; on_self (set_syspath_to p) else on_self (set_syspath_unverified path).

(** The lines of the file [uevent]. *)
Definition uevent_line (nums : string * string) (key value : string) : M Device (Result (string * string) Errno) :=
  let keep (m : M Device (Result unit Errno)) : M Device (Result (string * string) Errno) := m ;;? mret (Ok nums) in
  if decide (key = "DEVTYPE"%string) then keep (set_devtype value)
  else if decide (key = "IFINDEX"%string) then keep (set_ifindex value)
  else if decide (key = "DEVNAME"%string) then keep (set_devname value)
  else if decide (key = "DEVMODE"%string) then keep (set_devmode value)
  else if decide (key = "DISKSEQ"%string) then keep (set_diskseq value)
  else if decide (key = "MAJOR"%string) then mret (Ok (value, nums.2))
  else if decide (key = "MINOR"%string) then mret (Ok (nums.1, value))
  else mret (Ok nums).
Fixpoint uevent_lines (nums : string * string) (lines : list text) : M Device (Result (string * string) Errno) :=
  match lines with
  | [] => mret (Ok nums)
  | line :: lines' =>
    match split_on (Ascii.eqb "="%char) [] line with
    | key :: value :: _ => nums ←? uevent_line nums (of_chars key) (of_chars value); uevent_lines nums lines'
    | _ => mret (Ok nums)
    end
  end.
Definition read_uevent_file : RT unit :=
  s ← mget;
  if dev_uevent_loaded (ds_dev s) then mret (Ok tt) else
  match sf_read (dev_syspath (ds_dev s) ++ "/uevent") (ds_sys s) with
  | Err (Some n) => mret (Err n)
  | Err None => mret (Err EINVAL)
  | Ok buf =>
    buf ← munwrap buf;
    nums ←? on_self (uevent_lines ("", "")%string (split_on (Ascii.eqb "010"%char) [] buf));
    on_self (set_devnum nums.1 nums.2) ;;?
    on_self (mmodify (set_dev_uevent_loaded true));;
    mret (Ok tt)
  end.
Definition get_devnum : RT Z :=
  read_uevent_file ;;?
  s ← mget;
  if decide (dn_major (dev_devnum (ds_dev s)) = 0) then mret (Err ENOENT) else mret (Ok (dev_devnum (ds_dev s))).

(** The name of the link [subsystem], empty if there is none. *)
Definition subsystem_link : RT string :=
  s ← mget;
  let subsystem_path := (dev_syspath (ds_dev s) ++ "/subsystem")%string in
  if negb (sf_exists subsystem_path (ds_sys s)) then mret (Ok ""%string) else
  match sf_canonicalize subsystem_path (ds_sys s) with
  | Err e => mret (Err e)
  | Ok abs_path =>
    f ← munwrap (file_name abs_path);
    massert (utf8 (chars f));;
    mret (Ok f)
  end.
Definition find_subsystem : RT unit :=
  filename ←? subsystem_link;
  s ← mget;
  let devpath := dev_devpath (ds_dev s) in
  if negb (bool_decide (filename = ""%string)) then on_self (set_subsystem filename)
  else if str_starts_with "/module/" devpath then on_self (set_subsystem "module")
  else if str_contains "/drivers/" devpath || str_contains "/drivers" devpath then on_self set_drivers_subsystem
  else if str_starts_with "/class/" devpath || str_starts_with "/bus/" devpath then on_self (set_subsystem "subsystem")
  else on_self (mmodify (set_dev_subsystem_set true));; mret (Ok tt).
Definition get_subsystem : RT string :=
  s ← mget;
  (if dev_subsystem_set (ds_dev s) then mret (Ok tt) else find_subsystem) ;;?
  s ← mget;
  if decide (dev_subsystem (ds_dev s) = ""%string) then mret (Err ENOENT) else mret (Ok (dev_subsystem (ds_dev s))).

(** ** Attributes *)
Definition set_sysattr_value (sysattr : string) (value : option string) : RT unit :=
  match value with
  | None => on_self (remove_cached_sysattr_value sysattr) ;;? mret (Ok tt)
  | Some value =>
    s ← mget;
    let sysattr_path := (dev_syspath (ds_dev s) ++ "/" ++ sysattr)%string in
    match sf_open_write sysattr_path (ds_sys s) with
    | Some e => mret (Err e)
    | None =>
      let r := sf_write sysattr_path value (ds_sys s) in
      mmodify (λ s, {| ds_dev := ds_dev s; ds_sys := r.1 |});;
      match r.2 with
      | Some e => on_self (remove_cached_sysattr_value sysattr) ;;? mret (Err e)
      | None =>
        if decide (sysattr = "uevent"%string) then mret (Ok tt)
        else on_self (cache_sysattr_value sysattr value) ;;? mret (Ok tt)
      end
    end
  end.
Definition trigger (action : DeviceAction) : RT unit := set_sysattr_value "uevent" (Some (show_action action)).

(** ** New devices: what makes one starts from [Device_new] *)
Definition make_device (m : RT unit) (e : E) : Outcome (Result Device Errno) :=
  match m {| ds_dev := Device_new; ds_sys := e |} with
  | Returned (s, Ok _) => Returned (Ok (ds_dev s))
  | Returned (_, Err e) => Returned (Err e)
  | Panicked => Panicked
  | OutOfFuel => OutOfFuel
  end.
Definition from_syspath (syspath : string) (strict : bool) : E → Outcome (Result Device Errno) :=
  make_device (if strict && negb (str_starts_with "/sys/" syspath) then mret (Err EINVAL) else set_syspath syspath true).
Definition mode_devnum_device (mode devnum : Z) : RT unit :=
  let fmt := Z.land mode S_IFMT in
  if negb (bool_decide (fmt = S_IFCHR ∨ fmt = S_IFBLK)) then mret (Err ENOTTY) else
  let t := if decide (fmt = S_IFCHR) then "char"%string else "block"%string in
  if decide (dn_major devnum = 0) then mret (Err ENODEV) else
  set_syspath ("/sys/dev/" ++ t ++ "/" ++ show_uint (dn_major devnum) ++ ":" ++ show_uint (dn_minor devnum)) true ;;?
  devnum_ret ←? get_devnum;
  if negb (bool_decide (devnum_ret = devnum)) then mret (Err EINVAL) else
  subsystem_ret ←? get_subsystem;
  if negb (Bool.eqb (bool_decide (subsystem_ret = "block"%string)) (bool_decide (fmt = S_IFBLK))) then mret (Err EINVAL)
  else mret (Ok tt).
Definition from_mode_and_devnum (mode devnum : Z) : E → Outcome (Result Device Errno) :=
  make_device (mode_devnum_device mode devnum).

(** [basic::devnum_util] *)
Definition device_path_parse_major_minor (path : string) : Outcome (Result (Z * Z) Errno) :=
  let mode := if str_starts_with "/dev/block/" path then Some S_IFBLK
              else if str_starts_with "/dev/char/" path then Some S_IFCHR else None in
  match mode with
  | None => Returned (Err ENODEV)
  | Some mode =>
    match split_char ":"%char path with
    | [] => Panicked
    | t0 :: rest =>
      match parse_u64 t0 with
      | None => Returned (Err EINVAL)
      | Some major =>
        match rest with
        | [] => Panicked
        | t1 :: _ =>
          match parse_u64 t1 with
          | None => Returned (Err EINVAL)
          | Some minor => Returned (Ok (mode, dn_makedev major minor))
          end
        end
      end
    end
  end.
Definition from_devname (devname : string) (e : E) : Outcome (Result Device Errno) :=
  if negb (str_starts_with "/dev" devname) then Returned (Err EINVAL) else
  match device_path_parse_major_minor devname with
  | Returned (Ok (mode, devnum)) => from_mode_and_devnum mode devnum e
  | Returned (Err _) =>
    match sf_stat devname e with
    | Ok (st_mode, st_rdev) => from_mode_and_devnum st_mode st_rdev e
    | Err errno => Returned (Err errno)
    end
  | Panicked => Panicked
  | OutOfFuel => OutOfFuel
  end.
Definition from_path (path : string) (e : E) : Outcome (Result Device Errno) :=
  if str_starts_with "/dev" path then from_devname path e else from_syspath path false e.

(** The nearest directory above that is a device. *)
Fixpoint first_parent (parents : list string) (e : E) : Outcome (Result Device Errno) :=
  match parents with
  | [] => Returned (Err ENODEV)
  | p :: parents' =>
    if decide (p = "/sys"%string) then Returned (Err ENODEV) else
    match from_syspath p true e with
    | Returned (Ok d) => Returned (Ok d)
    | Returned (Err errno) => if decide (errno = ENODEV) then first_parent parents' e else Returned (Err errno)
    | Panicked => Panicked
    | OutOfFuel => OutOfFuel
    end
  end.
Definition new_from_child (device : Device) (e : E) : Outcome (Result Device Errno) :=
  match get_syspath device with
  | None => Returned (Err EINVAL)
  | Some syspath => first_parent (drop 1 (path_ancestors syspath)) e
  end.
End sys.

(** ** [DeviceMonitor]: messages over netlink

    A datagram is cut to the buffer of 8192 bytes. *)
Definition RECV_BUFFER : nat := 8192.
Definition bytes_of (l : list nat) : text := Ascii.ascii_of_nat <$> l.
(** [to_be_bytes] of a [usize], its first four bytes. *)
Definition len_bytes (len : Z) : text :=
  (λ i, Ascii.ascii_of_nat (Z.to_nat (Z.land (Z.shiftr len (8 * i)) 255))) <$> [7; 6; 5; 4]%Z.
Section monitor.
Context `{HI : !HashIter} `{HN : !Devnum}.
Definition message (nulstr : text) (len : Z) : text :=
  chars "libdevm" ++ ["000"%char] ++ bytes_of [254; 237; 190; 239]%nat ++ bytes_of [40; 0; 0; 0]%nat ++ bytes_of [40; 0; 0; 0]%nat
  ++ len_bytes len ++ bytes_of [0; 0; 0; 0; 0; 0; 0; 0; 0; 0; 0; 0; 0; 0; 0; 0]%nat ++ nulstr.
(** The bytes that [sendmsg] is given; its error is unwrapped. *)
Definition send_device (sent : bool) : M Device (Result text Errno) :=
  r ←? get_properties_nulstr;
  massert sent;; mret (Ok (message r.1 r.2)).
(** [&buf[a..n]] *)
Definition slice_between {A} (a n : nat) (l : list A) : option (list A) :=
  if decide (a ≤ n)%nat then Some (take (n - a) (drop a l)) else None.
Definition receive_device (datagram : Result text Errno) : Outcome (Result Device Errno) :=
  match datagram with
  | Err errno => Returned (Err errno)
  | Ok data =>
    let n := Nat.min (length data) RECV_BUFFER in
    let buf := take RECV_BUFFER data ++ replicate (RECV_BUFFER - length data) "000"%char in
    let prefix_split_idx := match list_find (λ c, c = "000"%char) buf with Some (i, _) => i | None => O end in
    let prefix := take prefix_split_idx buf in
    if negb (utf8 prefix) then Panicked
    else if str_contains "@/" (of_chars prefix) then
      match slice_between (S prefix_split_idx) n buf with Some l => from_nulstr l | None => Panicked end
    else if decide (prefix = chars "libdevm") then
      match slice_between 40 n buf with Some l => from_nulstr l | None => Panicked end
    else Returned (Err EINVAL)
  end.
End monitor.
