(* ===== verification/DeviceFacts.v ===== *)
(** * A device survives its message

    What [from_nulstr] makes of a message, and that the message which [send_device]
    sends for it is read back as the same device. *)
From Stdlib Require Import Ascii.
From S2P Require Import Prelude UnitTypes Condition StdString StdNet Device.
Local Open Scope Z_scope.

Section facts.
Context `{HI : !HashIter} `{HN : !Devnum}.
Implicit Types (d : Device) (k v : string).

Lemma wp_of_run {S A} (m : M S A) (t : S) (Q : S → A → Prop) : (∃ t' a, m t = Returned (t', a) ∧ Q t' a) → wp m t Q.
Proof. unfold wp. by intros (t' & a & -> & ?). Qed.

(** ** Properties *)
Definition nonempty v : option string := if decide (v = ""%string) then None else Some v.
Lemma lookup_property_eq k v m : property_update k v m !! k = nonempty v.
Proof. unfold property_update, nonempty. case_decide; by simplify_map_eq. Qed.
Lemma lookup_property_ne k k' v m : k ≠ k' → property_update k v m !! k' = m !! k'.
Proof. intros. unfold property_update. case_decide; by simplify_map_eq. Qed.
Lemma nonempty_default v : default ""%string (nonempty v) = v.
Proof. unfold nonempty. by case_decide. Qed.

(** A word of a message: text, without the separators. *)
Definition word_ok (cs : text) : Prop := utf8 cs = true ∧ "="%char ∉ cs ∧ "000"%char ∉ cs.
Definition entry_ok k v : Prop := k ≠ ""%string ∧ v ≠ ""%string ∧ word_ok (chars k) ∧ word_ok (chars v)
  ∧ k ≠ "TAGS"%string ∧ k ≠ "CURRENT_TAGS"%string.

(** The properties and the fields say the same; the device numbers come last. *)
Record coherent d : Prop := {
  co_entry k v : dev_properties d !! k = Some v → entry_ok k v;
  co_devpath : dev_properties d !! "DEVPATH"%string = nonempty (dev_devpath d);
  co_syspath : dev_syspath d = (if decide (dev_devpath d = "") then "" else "/sys" ++ dev_devpath d)%string;
  co_slash : dev_devpath d ≠ ""%string → starts_with_char "/"%char (dev_devpath d) = true;
  co_action : dev_properties d !! "ACTION"%string = show_action <$> dev_action d;
  co_subsystem : dev_properties d !! "SUBSYSTEM"%string = nonempty (dev_subsystem d);
  co_devtype : dev_properties d !! "DEVTYPE"%string = nonempty (dev_devtype d);
  co_devname : dev_properties d !! "DEVNAME"%string = nonempty (dev_devname d);
  co_dev : dev_devname d ≠ ""%string → starts_with_char "/"%char (dev_devname d) = true;
  co_seqnum : dev_properties d !! "SEQNUM"%string = show_uint <$> dev_seqnum d;
  co_range n : dev_seqnum d = Some n → 0 ≤ n ≤ u64_max;
}.
(** The numbers, when they have been set. *)
Definition numbered d : Prop :=
  match dev_properties d !! "MAJOR"%string with
  | None => dev_properties d !! "MINOR"%string = None ∧ dev_devnum d = 0
  | Some major => ∃ minor a b, dev_properties d !! "MINOR"%string = Some minor
      ∧ parse_u64 major = Some a ∧ parse_u64 minor = Some b ∧ dev_devnum d = dn_makedev a b
  end.

(** What a listener learns of a device. *)
Record same_device d d' : Prop := {
  sd_properties : dev_properties d' = dev_properties d;
  sd_devpath : dev_devpath d' = dev_devpath d;
  sd_syspath : dev_syspath d' = dev_syspath d;
  sd_action : dev_action d' = dev_action d;
  sd_subsystem : dev_subsystem d' = dev_subsystem d;
  sd_devtype : dev_devtype d' = dev_devtype d;
  sd_devname : dev_devname d' = dev_devname d;
  sd_seqnum : dev_seqnum d' = dev_seqnum d;
  sd_devnum : dev_devnum d' = dev_devnum d;
}.
Lemma show_action_parse a : parse_action (show_action a) = Ok a.
Proof. by destruct a. Qed.
Lemma nonempty_inj v v' : nonempty v = nonempty v' → v = v'.
Proof. intros H. by rewrite <- (nonempty_default v), <- (nonempty_default v'), H. Qed.
Lemma show_action_inj a a' : show_action a = show_action a' → a = a'.
Proof. intros H. pose proof (show_action_parse a) as Ha. rewrite H, show_action_parse in Ha. congruence. Qed.
Lemma parse_show_u64 n : 0 ≤ n ≤ u64_max → parse_u64 (show_uint n) = Some n.
Proof. intros. apply parse_show; unfold u64_max in *; lia. Qed.
Lemma coherent_same d d' : coherent d → coherent d' → numbered d → numbered d' →
  dev_properties d' = dev_properties d → same_device d d'.
Proof.
  intros C C' N N' HP.
  assert (dev_devpath d' = dev_devpath d) as Hdp by (apply nonempty_inj; by rewrite <- (co_devpath _ C), <- (co_devpath _ C'), HP).
  split; [done|done|by rewrite (co_syspath _ C), (co_syspath _ C'), Hdp|..].
  - pose proof (co_action _ C) as H. pose proof (co_action _ C') as H'. rewrite HP, H in H'.
    destruct (dev_action d), (dev_action d'); simpl in H'; try done. injection H' as H'. by apply show_action_inj in H' as ->.
  - apply nonempty_inj. by rewrite <- (co_subsystem _ C), <- (co_subsystem _ C'), HP.
  - apply nonempty_inj. by rewrite <- (co_devtype _ C), <- (co_devtype _ C'), HP.
  - apply nonempty_inj. by rewrite <- (co_devname _ C), <- (co_devname _ C'), HP.
  - pose proof (co_seqnum _ C) as H. pose proof (co_seqnum _ C') as H'. rewrite HP, H in H'.
    pose proof (co_range _ C) as R. pose proof (co_range _ C') as R'.
    destruct (dev_seqnum d) as [n|], (dev_seqnum d') as [n'|]; simpl in H'; try done. injection H' as H'.
    apply (f_equal parse_u64) in H'. rewrite !parse_show_u64 in H' by auto. congruence.
  - unfold numbered in N, N'. rewrite HP in N'. destruct (dev_properties d !! "MAJOR"%string); [|by destruct N as [_ ->], N' as [_ ->]].
    destruct N as (? & ? & ? & ? & ? & ? & ->), N' as (? & ? & ? & ? & ? & ? & ->). congruence.
Qed.

(** ** One line *)
Definition added k v d : Device := set_dev_outdated true (set_dev_properties (property_update k v (dev_properties d)) d).
Lemma wp_add k v d Q : k ≠ ""%string → wp (add_property_internal k v) d Q ↔ Q (added k v d) (Ok tt).
Proof. intros Hk. unfold add_property_internal, add_property_aux. rewrite decide_False by done. done. Qed.
Lemma entry_update k v (m : gmap string string) : (v ≠ ""%string → entry_ok k v) →
  (∀ k' v', m !! k' = Some v' → entry_ok k' v') → ∀ k' v', property_update k v m !! k' = Some v' → entry_ok k' v'.
Proof.
  intros Hv Hm k' v'. destruct (decide (k' = k)) as [->|Hne]; [|rewrite lookup_property_ne by done; apply Hm].
  rewrite lookup_property_eq. unfold nonempty. case_decide; [done|]. intros [= <-]. auto.
Qed.
Lemma word_ok_app cs ds : word_ok cs → word_ok ds → word_ok (cs ++ ds).
Proof. intros (? & ? & ?) (? & ? & ?). split_and!; [by apply utf8_app|set_solver..]. Qed.
Lemma word_ok_plain cs : Forall (λ c, byte_in 0 127 c = true ∧ c ≠ "="%char ∧ c ≠ "000"%char) cs → word_ok cs.
Proof.
  rewrite Forall_forall. intros Hc. split_and!; [apply utf8_ascii; intros c ?; by apply Hc|..];
    intros Hin; by destruct (Hc _ Hin) as (_ & ? & ?).
Qed.
Ltac plain_word := apply word_ok_plain; repeat (apply Forall_cons; split; [done|]); apply Forall_nil_2.
Lemma word_ok_uint n : word_ok (chars (show_uint n)).
Proof.
  apply word_ok_plain, Forall_forall. intros c Hc%show_uint_chars. unfold digit_value in Hc.
  case_match eqn:Hb; [|by destruct Hc]. rewrite !andb_true_iff in Hb. split_and!; [|intros ->; destruct Hb as [[Hb1 Hb2] Hb3]; vm_compute in Hb2; vm_compute in Hb1; congruence..].
  unfold byte_in. rewrite andb_true_iff, !Nat.leb_le. lia.
Qed.
Lemma show_uint_nonempty n : 0 ≤ n → show_uint n ≠ ""%string.
Proof.
  intros Hn H. apply (f_equal chars) in H. unfold show_uint in H. rewrite chars_of_chars in H.
  destruct (show_digits_head 20 n [] Hn ltac:(lia)) as (c & cs & Hs & _). by rewrite Hs in H.
Qed.
(** The values that a line can have in a message of a coherent device. *)
Definition canonical k v : Prop :=
  k ≠ ""%string
  ∧ (k = "DEVPATH"%string → starts_with_char "/"%char v = true)
  ∧ (k = "DEVNAME"%string → starts_with_char "/"%char v = true)
  ∧ (k = "ACTION"%string → ∃ a, v = show_action a)
  ∧ (k = "SEQNUM"%string → ∃ n, v = show_uint n ∧ 0 ≤ n ≤ u64_max).
Definition not_stored k : Prop := k ∈ ["MAJOR"; "MINOR"; "TAGS"; "CURRENT_TAGS"]%string.
Definition no_devnum d : Prop := dev_properties d !! "MAJOR"%string = None ∧ dev_properties d !! "MINOR"%string = None ∧ dev_devnum d = 0
  ∧ (dev_outdated d = false → dev_properties d = ∅ ∧ dev_nulstr d = []).
Definition numbers_after (nums : string * string) k v : string * string :=
  if decide (k = "MAJOR"%string) then (v, nums.2) else if decide (k = "MINOR"%string) then (nums.1, v) else nums.
Definition line_spec nums k v d d' (r : Result (string * string) Errno) : Prop :=
  (∀ nums', r = Ok nums' → coherent d' ∧ no_devnum d' ∧ nums' = numbers_after nums k v)
  ∧ (canonical k v → is_ok r = true ∧ dev_properties d' = if decide (not_stored k) then dev_properties d else property_update k v (dev_properties d)).
Lemma line_spec_ok nums k v d d' : coherent d' → no_devnum d' → numbers_after nums k v = nums →
  (canonical k v → dev_properties d' = if decide (not_stored k) then dev_properties d else property_update k v (dev_properties d)) →
  line_spec nums k v d d' (Ok nums).
Proof. intros ? ? ? ?. split; [by intros ? [= <-]|by auto]. Qed.
Lemma line_spec_err nums k v d d' e : ¬ canonical k v → line_spec nums k v d d' (Err e).
Proof. by split. Qed.
Ltac coh := split; simpl; rewrite ?lookup_property_eq, ?lookup_property_ne by done;
  try (apply entry_update; [|by eapply co_entry]); try match goal with C : coherent _ |- _ => by apply C end; try done.

Lemma no_devnum_added k v d : k ≠ "MAJOR"%string → k ≠ "MINOR"%string → no_devnum d → no_devnum (added k v d).
Proof. intros ?? (? & ? & ? & ?). split_and!; simpl; rewrite ?lookup_property_ne by done; done. Qed.
Definition keep_nums (nums : string * string) (m : M Device (Result unit Errno)) : M Device (Result (string * string) Errno) :=
  m ;;? mret (Ok nums).
(** A stored property: what is left of the line is the coherence of the result. *)
Lemma line_spec_stored nums k v d d' : k ≠ "MAJOR"%string → k ≠ "MINOR"%string → coherent d' → no_devnum d' →
  (canonical k v → dev_properties d' = property_update k v (dev_properties d)) → k ≠ "TAGS"%string → k ≠ "CURRENT_TAGS"%string →
  line_spec nums k v d d' (Ok nums).
Proof.
  intros ?? C N HP ??. apply line_spec_ok; [done..| |].
  - unfold numbers_after. by rewrite !decide_False.
  - intros Hc. rewrite decide_False; [by apply HP|]. unfold not_stored. set_solver.
Qed.
Lemma line_devpath nums v d : word_ok (chars v) → coherent d → no_devnum d →
  wp (keep_nums nums (set_syspath_unverified ("/sys" ++ v))) d (line_spec nums "DEVPATH" v d).
Proof.
  intros Hv C N. unfold keep_nums. rewrite wp_mtry. unfold set_syspath_unverified, set_syspath_to.
  pose proof (strip_prefix_app "/sys" v) as Hsp.
  assert (str_starts_with "/sys/" ("/sys" ++ v) = starts_with_char "/"%char v) as ->.
  { change "/sys/"%string with ("/sys" ++ "/")%string. rewrite starts_with_app. destruct v as [|c v]; [done|].
    unfold str_starts_with, str_strip_prefix, starts_with_char. apply bool_decide_ext. simpl.
    split; [intros H; case_decide as Hd; [congruence|by destruct H]|]. intros [= ->]. rewrite decide_True by done. by eexists. }
  destruct (starts_with_char "/" v) eqn:Hs; cycle 1.
  { apply wp_ret, line_spec_err. intros (_ & H & _). rewrite H in Hs; done. }
  cbn [negb]. cbv iota. rewrite Hsp, Hs. cbn [negb]. cbv iota. apply wp_bind, wp_add; [done|].
  apply wp_bind, wp_mmodify, wp_bind, wp_mmodify, wp_ret, wp_ret.
  assert (v ≠ ""%string) as Hne by by intros ->.
  apply line_spec_stored; [done..| | |done|done|done].
  - coh.
    + intros _. split_and!; [done|done|plain_word|done|done|done].
    + by rewrite decide_False.
  - by apply (no_devnum_added "DEVPATH" v d).
Qed.
Ltac line_stored k v := apply line_spec_stored; [done..|coh|apply (no_devnum_added k v); done|done|done|done].
Lemma line_action nums v d : word_ok (chars v) → coherent d → no_devnum d →
  wp (keep_nums nums (set_action_from_string v)) d (line_spec nums "ACTION" v d).
Proof.
  intros Hv C N. unfold keep_nums. rewrite wp_mtry. unfold set_action_from_string.
  destruct (parse_action v) as [a|e] eqn:Ha; cycle 1.
  { apply wp_ret, line_spec_err. intros (_ & _ & _ & H & _). destruct H as [a ->]; [done|]. by rewrite show_action_parse in Ha. }
  unfold set_action. rewrite wp_mtry. apply wp_add; [done|]. apply wp_bind, wp_mmodify, wp_ret, wp_ret.
  assert (show_action a = v) as Hav by (unfold parse_action in Ha; repeat case_decide; naive_solver).
  rewrite Hav. apply line_spec_stored; [done..| | |done|done|done].
  - coh; [intros _; split_and!; [done|by intros ->|plain_word|done|done|done]|].
    simpl. rewrite Hav. unfold nonempty. rewrite decide_False; [done|]. by intros ->.
  - by apply (no_devnum_added "ACTION" v).
Qed.
Lemma line_subsystem nums v d : word_ok (chars v) → coherent d → no_devnum d →
  wp (keep_nums nums (set_subsystem v)) d (line_spec nums "SUBSYSTEM" v d).
Proof.
  intros Hv C N. unfold keep_nums, set_subsystem. rewrite !wp_mtry. apply wp_add; [done|].
  apply wp_bind, wp_mmodify, wp_bind, wp_mmodify, wp_ret, wp_ret.
  apply line_spec_stored; [done..| |by apply (no_devnum_added "SUBSYSTEM" v d)|done|done|done].
  coh. intros ?. split_and!; [done|done|plain_word|done|done|done].
Qed.
Lemma line_devtype nums v d : word_ok (chars v) → coherent d → no_devnum d →
  wp (keep_nums nums (set_devtype v)) d (line_spec nums "DEVTYPE" v d).
Proof.
  intros Hv C N. unfold keep_nums, set_devtype. rewrite !wp_mtry. apply wp_add; [done|].
  apply wp_bind, wp_mmodify, wp_ret, wp_ret.
  apply line_spec_stored; [done..| |by apply (no_devnum_added "DEVTYPE" v d)|done|done|done].
  coh. intros ?. split_and!; [done|done|plain_word|done|done|done].
Qed.
Lemma line_devname nums v d : word_ok (chars v) → coherent d → no_devnum d →
  wp (keep_nums nums (set_devname v)) d (line_spec nums "DEVNAME" v d).
Proof.
  intros Hv C N. unfold keep_nums, set_devname. rewrite !wp_mtry.
  set (v' := if starts_with_char "/" v then v else _).
  assert (starts_with_char "/"%char v' = true ∧ word_ok (chars v')) as [Hs Hv'].
  { unfold v'. destruct (starts_with_char "/" v) eqn:?; [done|]. split; [done|]. rewrite chars_app.
    apply word_ok_app; [plain_word|done]. }
  apply wp_add; [done|]. apply wp_bind, wp_mmodify, wp_ret, wp_ret.
  apply line_spec_stored; [done..| |by apply (no_devnum_added "DEVNAME" v' d)| |done|done].
  - coh. intros ?. split_and!; [done|done|plain_word|done|done|done].
  - intros (_ & _ & H & _). unfold v'. by rewrite H.
Qed.
Lemma line_seqnum nums v d : word_ok (chars v) → coherent d → no_devnum d →
  wp (keep_nums nums (set_seqnum_from_string v)) d (line_spec nums "SEQNUM" v d).
Proof.
  intros Hv C N. unfold keep_nums. rewrite wp_mtry. unfold set_seqnum_from_string, parsed. rewrite wp_mtry. apply wp_ret.
  destruct (parse_u64 v) as [n|] eqn:Hn; cycle 1.
  { apply line_spec_err. intros (_ & _ & _ & _ & H). destruct H as (n & -> & Hr); [done|]. by rewrite parse_show_u64 in Hn. }
  pose proof (parse_unsigned_range 10 u64_max v n ltac:(lia) Hn) as Hr.
  unfold set_seqnum. rewrite wp_mtry. apply wp_add; [done|]. apply wp_bind, wp_mmodify, wp_ret, wp_ret.
  assert (show_uint n ≠ ""%string) as Hne by (apply show_uint_nonempty; lia).
  apply line_spec_stored; [done..| |by apply (no_devnum_added "SEQNUM" (show_uint n) d)| |done|done].
  - coh.
    + intros ?. split_and!; [done|done|plain_word|apply word_ok_uint|done|done].
    + unfold nonempty. by rewrite decide_False.
    + by intros ? [= <-].
  - intros (_ & _ & _ & _ & H). destruct H as (m & -> & Hm); [done|]. rewrite parse_show_u64 in Hn by done. by injection Hn as ->.
Qed.
Lemma wp_nulstr_line nums k v d : word_ok (chars k) → word_ok (chars v) → coherent d → no_devnum d →
  wp (nulstr_line nums k v) d (line_spec nums k v d).
Proof.
  intros Hk Hv C N. unfold nulstr_line. fold (keep_nums nums).
  case_decide as K1; [subst k; by apply line_devpath|]. case_decide as K2; [subst k; by apply line_action|].
  case_decide as K3; [subst k; by apply line_subsystem|]. case_decide as K4; [subst k; by apply line_devtype|].
  case_decide as K5; [subst k|].
  { apply wp_ret. split; [by intros ? [= <-]|]. intros _. rewrite decide_True by (unfold not_stored; set_solver). done. }
  case_decide as K6; [subst k|].
  { apply wp_ret. split; [by intros ? [= <-]|]. intros _. rewrite decide_True by (unfold not_stored; set_solver). done. }
  case_decide as K7; [subst k; by apply line_devname|]. case_decide as K8; [subst k; by apply line_seqnum|].
  case_decide as K9.
  { apply wp_ret, line_spec_ok; [done..| |].
    - unfold numbers_after. by rewrite !decide_False.
    - intros _. rewrite decide_True; [done|]. unfold not_stored. set_solver. }
  destruct (decide (k = ""%string)) as [->|Hne].
  { apply wp_ret, line_spec_err. by intros [? _]. }
  unfold keep_nums. rewrite wp_mtry. apply wp_add; [done|]. apply wp_ret.
  apply line_spec_stored; [done..| |by apply no_devnum_added|done|tauto|tauto].
  coh. intros ?. split_and!; tauto.
Qed.

(** ** A whole message *)
Lemma wp_nulstr_lines nums lines d : Forall (λ l, utf8 l = true ∧ "000"%char ∉ l) lines → coherent d → no_devnum d →
  word_ok (chars nums.1) → word_ok (chars nums.2) →
  wp (nulstr_lines nums lines) d (λ d' r, ∀ nums', r = Ok nums' → coherent d' ∧ no_devnum d' ∧ word_ok (chars nums'.1) ∧ word_ok (chars nums'.2)).
Proof.
  intros Hl. revert nums d. induction Hl as [|line lines [Hu Hz] Hl IH]; intros nums d C N W1 W2; cbn [nulstr_lines].
  { apply wp_ret. by intros ? [= <-]. }
  assert (Forall word_ok (split_on (Ascii.eqb "="%char) [] line)) as Hw.
  { pose proof (utf8_split_on (Ascii.eqb "="%char) line [] ltac:(by intros c <-%Ascii.eqb_eq) Hu) as H1.
    pose proof (split_on_parts (Ascii.eqb "="%char) line [] ltac:(by intros c ?%elem_of_nil)) as H2.
    rewrite Forall_forall in *. intros w Hin. specialize (H1 w Hin). specialize (H2 w Hin). split_and!; [done|..].
    - intros Hc. by destruct (H2 _ Hc) as [? _].
    - intros Hc. destruct (H2 _ Hc) as [_ [?|?%elem_of_nil]]; done. }
  destruct (split_on _ _ _) as [|key [|value rest]]; [by apply wp_ret; intros ? [= <-]..|].
  apply Forall_cons in Hw as [Wk Hw]. apply Forall_cons in Hw as [Wv _].
  rewrite wp_mtry. eapply wp_mono; [apply wp_nulstr_line; rewrite ?chars_of_chars; done|].
  intros d' r [Hr _]. destruct r as [nums'|e]; [|done]. destruct (Hr nums' eq_refl) as (C' & N' & ->).
  apply IH; [done..| |]; unfold numbers_after; repeat case_decide; simpl; rewrite ?chars_of_chars; done.
Qed.
(** The bytes that are ready to be sent. *)
Definition buffered d : Prop := dev_outdated d = false ∧ dev_nulstr d = concat (property_line <$> hm_iter (dev_properties d)).
Lemma parse_u64_nonempty v n : parse_u64 v = Some n → v ≠ ""%string.
Proof. by intros ? ->. Qed.
Definition with_devnum (nums : string * string) (n : Z) d : Device := set_dev_devnum n (added "MINOR" nums.2 (added "MAJOR" nums.1 d)).
Lemma wp_set_devnum nums a b d (Q : Device → Result unit Errno → Prop) : parse_u64 nums.1 = Some a → parse_u64 nums.2 = Some b →
  Q (with_devnum nums (dn_makedev a b) d) (Ok tt) → wp (set_devnum nums.1 nums.2) d Q.
Proof.
  intros Ha Hb HQ. unfold set_devnum, parsed. rewrite wp_mtry. apply wp_ret. rewrite Ha. rewrite wp_mtry. apply wp_ret. rewrite Hb.
  rewrite wp_mtry. apply wp_add; [done|]. rewrite wp_mtry. apply wp_add; [done|]. by apply wp_bind, wp_mmodify, wp_ret.
Qed.
Lemma wp_set_devnum_any nums d (Q : Device → Result unit Errno → Prop) :
  (∀ a b, parse_u64 nums.1 = Some a → parse_u64 nums.2 = Some b → Q (with_devnum nums (dn_makedev a b) d) (Ok tt)) →
  (∀ e, Q d (Err e)) → wp (set_devnum nums.1 nums.2) d Q.
Proof.
  intros HQ He. destruct (parse_u64 nums.1) as [a|] eqn:Ha; [destruct (parse_u64 nums.2) as [b|] eqn:Hb|];
    [by eapply wp_set_devnum, HQ|..]; unfold set_devnum, parsed; rewrite wp_mtry, Ha; apply wp_ret; [|done].
  rewrite wp_mtry, Hb. by apply wp_ret.
Qed.
Lemma with_devnum_ok nums a b d : parse_u64 nums.1 = Some a → parse_u64 nums.2 = Some b →
  word_ok (chars nums.1) → word_ok (chars nums.2) → coherent d →
  coherent (with_devnum nums (dn_makedev a b) d) ∧ numbered (with_devnum nums (dn_makedev a b) d).
Proof.
  intros Ha Hb W1 W2 C. pose proof (parse_u64_nonempty _ _ Ha). pose proof (parse_u64_nonempty _ _ Hb). split.
  - coh. apply entry_update; [|apply entry_update; [|by apply C]]; intros _; (split_and!; [done|done|plain_word|done|done|done]).
  - unfold numbered. simpl. rewrite lookup_property_ne, lookup_property_eq by done. unfold nonempty. rewrite decide_False by done.
    exists nums.2, a, b. rewrite lookup_property_eq. unfold nonempty. by rewrite decide_False.
Qed.
Lemma no_devnum_numbered d : no_devnum d → numbered d.
Proof. intros (H1 & H2 & H3 & _). unfold numbered. by rewrite H1. Qed.
Lemma wp_update_bufs d (Q : Device → Result unit Errno → Prop) : (dev_outdated d = false → dev_properties d = ∅ ∧ dev_nulstr d = []) →
  (∀ d', buffered d' → same_device d d' → (coherent d → coherent d') → (numbered d → numbered d') → Q d' (Ok tt)) →
  wp update_properties_bufs d Q.
Proof.
  intros Hb HQ. unfold update_properties_bufs. apply wp_bind, wp_mget. destruct (dev_outdated d) eqn:Ho; cbn [negb].
  - apply wp_bind, wp_mmodify, wp_bind, wp_mmodify, wp_bind, wp_mmodify, wp_ret. apply HQ; [done|done| |done].
    intros C. split; simpl; apply C.
  - destruct (Hb eq_refl) as [Hp Hn]. apply wp_ret, HQ; [|done..]. split; [done|]. by rewrite Hp, Hn, hm_iter_empty.
Qed.
Lemma Device_new_ok : coherent Device_new ∧ no_devnum Device_new.
Proof. split; [by split|]. by split_and!. Qed.
Lemma wp_read_nulstr nulstr : utf8 nulstr = true →
  wp (read_nulstr nulstr) Device_new (λ d r, r = Ok tt → coherent d ∧ numbered d ∧ buffered d).
Proof.
  intros Hu. destruct Device_new_ok as [C N]. unfold read_nulstr. rewrite Hu. cbn [massert].
  apply wp_bind, wp_ret. rewrite wp_mtry. eapply wp_mono; [apply wp_nulstr_lines; [|done|done|plain_word|plain_word]|].
  { pose proof (utf8_split_on (Ascii.eqb "000"%char) nulstr [] ltac:(by intros c <-%Ascii.eqb_eq) Hu) as H1.
    pose proof (split_on_parts (Ascii.eqb "000"%char) nulstr [] ltac:(by intros c ?%elem_of_nil)) as H2.
    rewrite Forall_forall in *. intros w Hin. split; [by apply H1|]. intros Hc. by destruct (H2 w Hin _ Hc) as [? _]. }
  intros d [nums|e] Hd; [|done]. destruct (Hd nums eq_refl) as (Cd & Nd & W1 & W2). pose proof Nd as (_ & _ & _ & Hb).
  rewrite wp_mtry. case_decide as Hm.
  { apply wp_ret, wp_update_bufs; [done|]. intros d' B S HC HN' _. split_and!; [by apply HC| |done]. by apply HN', no_devnum_numbered. }
  apply wp_set_devnum_any; [|done]. intros a b Ha Hb2. destruct (with_devnum_ok nums a b d) as [C' N']; [done..|].
  apply wp_update_bufs; [done|]. intros d' B S HC HN' _. split_and!; [by apply HC|by apply HN'|done].
Qed.

(** ** The message of a coherent device *)
Definition stored_update (m : gmap string string) (kv : string * string) : gmap string string :=
  if decide (not_stored kv.1) then m else property_update kv.1 kv.2 m.
Definition take_numbers (nums : string * string) (kv : string * string) : string * string := numbers_after nums kv.1 kv.2.
Definition bare_line (kv : string * string) : text := chars kv.1 ++ "="%char :: chars kv.2.
Lemma entry_canonical d k v : coherent d → numbered d → dev_properties d !! k = Some v → canonical k v.
Proof.
  intros C _ Hk. pose proof (co_entry _ C _ _ Hk) as (? & ? & _). split_and!; [done|..]; intros ->.
  - rewrite (co_devpath _ C) in Hk. unfold nonempty in Hk. case_decide; [done|]. injection Hk as <-. by apply C.
  - rewrite (co_devname _ C) in Hk. unfold nonempty in Hk. case_decide; [done|]. injection Hk as <-. by apply C.
  - rewrite (co_action _ C) in Hk. destruct (dev_action d); simplify_eq/=. by eexists.
  - rewrite (co_seqnum _ C) in Hk. destruct (dev_seqnum d) as [n|] eqn:Hn; simplify_eq/=. exists n. split; [done|by apply C].
Qed.
Lemma bare_line_split kv : word_ok (chars kv.1) → word_ok (chars kv.2) →
  split_on (Ascii.eqb "="%char) [] (bare_line kv) = [chars kv.1; chars kv.2].
Proof.
  intros (_ & H1 & _) (_ & H2 & _). unfold bare_line. rewrite split_on_sep, split_on_last; [done|..|done];
    intros c Hc; apply Ascii.eqb_neq; intros <-; done.
Qed.
Lemma wp_bare_lines nums l d : Forall (λ kv, canonical kv.1 kv.2 ∧ word_ok (chars kv.1) ∧ word_ok (chars kv.2)) l →
  coherent d → no_devnum d →
  wp (nulstr_lines nums ((bare_line <$> l) ++ [[]])) d (λ d' r, r = Ok (foldl take_numbers nums l) ∧ coherent d' ∧ no_devnum d'
    ∧ dev_properties d' = foldl stored_update (dev_properties d) l).
Proof.
  intros Hl. revert nums d. induction Hl as [|[k v] l (Hc & Wk & Wv) Hl IH]; intros nums d C N; [by apply wp_ret|].
  cbn [fmap list_fmap app nulstr_lines]. rewrite bare_line_split by done. rewrite wp_mtry.
  simpl in Wk, Wv, Hc. rewrite !of_chars_chars.
  eapply wp_mono; [by apply wp_nulstr_line|]. intros d' r [Hr Hcan]. destruct (Hcan Hc) as [Hok HP].
  destruct r as [nums'|]; [|done]. destruct (Hr nums' eq_refl) as (C' & N' & ->).
  eapply wp_mono; [by apply IH|]. intros d2 r2 (-> & C2 & N2 & HP2). split_and!; [done..|]. rewrite HP2, HP. done.
Qed.
Lemma foldl_stored l m k : NoDup l.*1 → Forall (λ kv, kv.2 ≠ ""%string) l →
  foldl stored_update m l !! k = if decide (not_stored k) then m !! k
    else match (list_to_map l : gmap string string) !! k with Some v => Some v | None => m !! k end.
Proof.
  intros Hnd Hl. revert m Hnd. induction Hl as [|[k0 v0] l Hv Hl IH]; intros m Hnd; [by case_decide|].
  apply NoDup_cons in Hnd as [Hk0 Hnd]. cbn [foldl]. rewrite IH by done. simpl list_to_map. unfold stored_update. simpl.
  destruct (decide (k = k0)) as [->|Hne].
  - rewrite lookup_insert_eq, (not_elem_of_list_to_map_1 l) by done. case_decide; [done|].
    rewrite lookup_property_eq. unfold nonempty. by rewrite decide_False.
  - rewrite lookup_insert_ne by done. case_decide; [case_decide; [done|by rewrite lookup_property_ne]|].
    destruct (list_to_map l !! k); [done|]. case_decide; [done|by rewrite lookup_property_ne].
Qed.
Lemma foldl_numbers l nums : NoDup l.*1 →
  foldl take_numbers nums l = (default nums.1 ((list_to_map l : gmap string string) !! "MAJOR"%string),
                               default nums.2 ((list_to_map l : gmap string string) !! "MINOR"%string)).
Proof.
  revert nums. induction l as [|[k v] l IH]; intros nums Hnd; [by destruct nums|].
  apply NoDup_cons in Hnd as [Hk Hnd]. cbn [foldl]. rewrite IH by done. simpl list_to_map. unfold take_numbers, numbers_after. simpl.
  destruct (decide (k = "MAJOR"%string)) as [->|N1]; [|destruct (decide (k = "MINOR"%string)) as [->|N2]].
  - by rewrite lookup_insert_eq, (not_elem_of_list_to_map_1 l), lookup_insert_ne by done.
  - by rewrite lookup_insert_eq, (not_elem_of_list_to_map_1 l _ Hk), lookup_insert_ne by done.
  - by rewrite !lookup_insert_ne.
Qed.
Lemma split_messages l : Forall (λ kv : string * string, word_ok (chars kv.1) ∧ word_ok (chars kv.2)) l →
  split_on (Ascii.eqb "000"%char) [] (concat (property_line <$> l)) = (bare_line <$> l) ++ [[]]
  ∧ utf8 (concat (property_line <$> l)) = true.
Proof.
  induction 1 as [|[k v] l (Wk & Wv) Hl [IH1 IH2]]; [done|]. cbn [fmap list_fmap concat]. unfold property_line at 1 3. simpl.
  assert (word_ok (chars k) ∧ word_ok (chars v)) as [(U1 & _ & Z1) (U2 & _ & Z2)] by done. split.
  - replace ((chars k ++ "="%char :: chars v ++ ["000"%char]) ++ concat (property_line <$> l))
      with (bare_line (k, v) ++ "000"%char :: concat (property_line <$> l)).
    2: { unfold bare_line. by simplify_list_eq. }
    rewrite split_on_sep; [by rewrite IH1| |done]. intros c Hc. apply Ascii.eqb_neq. intros <-.
    unfold bare_line in Hc. rewrite elem_of_app, elem_of_cons in Hc. destruct Hc as [?|[?|?]]; done.
  - apply utf8_app; [|done]. apply utf8_app; [done|]. apply (utf8_app ["="%char]); [done|]. by apply utf8_app.
Qed.
Lemma message_reads d : coherent d → numbered d →
  ∃ d2, from_nulstr (concat (property_line <$> hm_iter (dev_properties d))) = Returned (Ok d2) ∧ same_device d d2 ∧ coherent d2 ∧ numbered d2.
Proof.
  intros C N. set (P := dev_properties d). set (l := hm_iter P).
  assert (∀ k v, (k, v) ∈ l ↔ P !! k = Some v) as Hl by (intros; apply elem_of_hm_iter).
  assert (NoDup l.*1) as Hnd by apply NoDup_hm_keys.
  assert (list_to_map l = P) as HPl.
  { apply map_eq. intros k. apply option_eq. intros v. rewrite <- elem_of_list_to_map by done. apply Hl. }
  assert (Forall (λ kv : string * string, canonical kv.1 kv.2 ∧ word_ok (chars kv.1) ∧ word_ok (chars kv.2)) l) as Hc.
  { apply Forall_forall. intros [k v] Hk%Hl. destruct (co_entry _ C _ _ Hk) as (_ & _ & ? & ? & _).
    split; [by eapply entry_canonical|done]. }
  destruct (split_messages l) as [Hs Hu]; [eapply Forall_impl; [exact Hc|]; by intros kv [_ ?]|].
  destruct Device_new_ok as [C0 N0].
  assert (wp (read_nulstr (concat (property_line <$> l))) Device_new
    (λ d2 r, r = Ok tt ∧ same_device d d2 ∧ coherent d2 ∧ numbered d2)) as Hwp; cycle 1.
  { apply wp_returns in Hwp as (d2 & r & Hr & -> & H). exists d2. split; [|done]. unfold from_nulstr. by rewrite Hr. }
  unfold read_nulstr. rewrite Hu, Hs. apply wp_bind, wp_ret. rewrite wp_mtry.
  eapply wp_mono; [by apply wp_bare_lines|]. intros d1 r (-> & C1 & N1 & HP1). pose proof N1 as (_ & _ & _ & Hb1).
  rewrite foldl_numbers by done. rewrite HPl. simpl.
  assert (∀ k, dev_properties d1 !! k = if decide (not_stored k) then None else P !! k) as HP.
  { intros k. rewrite HP1, foldl_stored; [|done|]; [rewrite HPl; simpl; rewrite lookup_empty; by destruct (P !! k)|].
    eapply Forall_forall. intros [k' v'] Hk'%Hl. by destruct (co_entry _ C _ _ Hk') as (_ & ? & _). }
  assert (∀ k, not_stored k → k ≠ "MAJOR"%string → k ≠ "MINOR"%string → P !! k = None) as Htags.
  { intros k Hk ??. destruct (P !! k) eqn:Hpk; [|done]. destruct (co_entry _ C _ _ Hpk) as (_ & _ & _ & _ & ? & ?).
    unfold not_stored in Hk. set_solver. }
  assert (∀ d2 : Device, dev_properties d2 = P → coherent d2 → numbered d2 → same_device d d2) as Hfin by (intros; by apply coherent_same).
  unfold numbered in N. fold P in N. rewrite wp_mtry. destruct (P !! "MAJOR"%string) as [major|] eqn:Hmaj; simpl.
  - destruct N as (minor & a & b & Hmin & Ha & Hb & _). rewrite Hmin. simpl.
    rewrite decide_False by by eapply parse_u64_nonempty.
    destruct (co_entry _ C _ _ Hmaj) as (_ & _ & _ & Wa & _), (co_entry _ C _ _ Hmin) as (_ & _ & _ & Wb & _).
    destruct (with_devnum_ok (major, minor) a b d1) as [C2 N2]; [done..|].
    apply (wp_set_devnum (major, minor) a b); [done..|]. apply wp_update_bufs; [done|].
    intros d3 _ S3 HC HN3. split; [done|]. specialize (HC C2). specialize (HN3 N2). split; [|done].
    apply Hfin; [|done..]. rewrite (sd_properties _ _ S3). apply map_eq. intros k. simpl.
    destruct (decide (k = "MINOR"%string)) as [->|Hn1].
    { rewrite lookup_property_eq, Hmin. unfold nonempty. by rewrite decide_False by by eapply parse_u64_nonempty. }
    destruct (decide (k = "MAJOR"%string)) as [->|Hn2].
    { rewrite lookup_property_ne, lookup_property_eq, Hmaj by done. unfold nonempty. by rewrite decide_False by by eapply parse_u64_nonempty. }
    rewrite !lookup_property_ne, HP by done. case_decide; [by rewrite Htags|done].
  - destruct N as [Hmin _]. apply wp_ret, wp_update_bufs; [done|].
    intros d3 _ S3 HC HN3. split; [done|]. specialize (HC C1). specialize (HN3 (no_devnum_numbered _ N1)). split; [|done].
    apply Hfin; [|done..]. rewrite (sd_properties _ _ S3). apply map_eq. intros k. rewrite HP. case_decide as Hns; [|done].
    destruct (decide (k = "MAJOR"%string)) as [->|]; [done|]. destruct (decide (k = "MINOR"%string)) as [->|]; [done|]. by rewrite Htags.
Qed.

(** ** On the wire *)
Lemma from_nulstr_ok m d : from_nulstr m = Returned (Ok d) → coherent d ∧ numbered d ∧ buffered d.
Proof.
  unfold from_nulstr. intros H. destruct (utf8 m) eqn:Hu.
  - pose proof (wp_read_nulstr m Hu) as Hwp. unfold wp in Hwp.
    destruct (read_nulstr m Device_new) as [[d' [[]|]]| |]; [|done..]. injection H as ->. by apply Hwp.
  - unfold read_nulstr in H. rewrite Hu in H. done.
Qed.
Lemma message_header nulstr len : ∃ rest, message nulstr len = (chars "libdevm" ++ "000"%char :: rest) ++ nulstr ∧ length rest = 32%nat.
Proof.
  exists (bytes_of [254; 237; 190; 239; 40; 0; 0; 0; 40; 0; 0; 0]%nat ++ len_bytes len ++ bytes_of [0; 0; 0; 0; 0; 0; 0; 0; 0; 0; 0; 0; 0; 0; 0; 0]%nat).
  by split.
Qed.
Lemma length_message nulstr len : length (message nulstr len) = (40 + length nulstr)%nat.
Proof. destruct (message_header nulstr len) as (rest & -> & Hr). rewrite length_app, length_app. simpl. lia. Qed.
Lemma receive_message nulstr len : (40 + length nulstr ≤ RECV_BUFFER)%nat →
  receive_device (Ok (message nulstr len)) = from_nulstr nulstr.
Proof.
  intros Hlen. unfold receive_device. cbv zeta. rewrite !length_message, (take_ge (message nulstr len)), Nat.min_l by (rewrite ?length_message; done).
  set (pad := replicate _ _). destruct (message_header nulstr len) as (rest & -> & Hr).
  set (buf := ((chars "libdevm" ++ "000"%char :: rest) ++ nulstr) ++ pad).
  assert (list_find (λ c, c = "000"%char) buf = Some (7%nat, "000"%char)) as ->.
  { apply list_find_Some. split_and!; [done..|]. intros j y Hy Hj. unfold buf in Hy.
    do 7 (destruct j as [|j]; [simpl in Hy; by injection Hy as <-|]). lia. }
  change (take 7 buf) with (chars "libdevm"). change (negb (utf8 (chars "libdevm"))) with false. cbv iota.
  change (str_contains "@/" (of_chars (chars "libdevm"))) with false. cbv iota. rewrite decide_True by done.
  unfold slice_between. rewrite decide_True by lia.
  replace (take (40 + length nulstr - 40) (drop 40 buf)) with nulstr; [done|].
  unfold buf. rewrite <- app_assoc, (drop_app_length' _ _ 40) by (rewrite length_app; simpl; lia).
  by rewrite take_app_length' by lia.
Qed.
(** C14: a device that was read from a message of the kernel, or of devmaster, arrives at
    every listener as it is: for any bytes that [from_nulstr] accepts, the message
    that [send_device] sends for the device is, unless it is longer than the buffer
    of the receiver, read back as a device with the same properties, path, action,
    subsystem, type, name and numbers; and that device would be sent on the same way. *)
Theorem devices_roundtrip m d : from_nulstr m = Returned (Ok d) →
  wp (send_device true) d (λ d' r, d' = d ∧ ∃ data, r = Ok data ∧
    ((length data ≤ RECV_BUFFER)%nat → ∃ d2, receive_device (Ok data) = Returned (Ok d2) ∧ same_device d d2
      ∧ ∃ d3, from_nulstr (dev_nulstr d2) = Returned (Ok d3) ∧ same_device d2 d3)).
Proof.
  intros Hd. destruct (from_nulstr_ok _ _ Hd) as (C & N & [Ho Hb]).
  unfold send_device, get_properties_nulstr, update_properties_bufs. rewrite !wp_mtry. apply wp_bind, wp_mget. rewrite Ho.
  apply wp_ret, wp_bind, wp_mget, wp_ret, wp_bind, wp_ret, wp_ret. split; [done|]. eexists. split; [done|]. cbn [fst snd]. intros Hlen.
  assert (40 + length (dev_nulstr d) ≤ RECV_BUFFER)%nat as Hle by by rewrite length_message in Hlen.
  rewrite receive_message, Hb by done. destruct (message_reads d C N) as (d2 & Hr & HS & C2 & N2). exists d2. split_and!; [done..|].
  destruct (from_nulstr_ok _ _ Hr) as (_ & _ & [_ Hb2]). rewrite Hb2.
  destruct (message_reads d2 C2 N2) as (d3 & Hr3 & HS3 & _). by exists d3.
Qed.
End facts.

(** ** What the code does that it does not mean to *)
Lemma split_on_cons p cs c cur : p c = false → ∃ w ws, split_on p (c :: cur) cs = (rev cur ++ c :: w) :: ws.
Proof.
  intros Hc. assert (∀ cur, ∃ w ws, split_on p cur cs = (rev cur ++ w) :: ws) as H.
  { clear. induction cs as [|d cs IH]; intros cur; simpl; [exists [], []; by rewrite app_nil_r|].
    destruct (p d); [exists [], (split_on p [] cs); by rewrite app_nil_r|].
    destruct (IH (d :: cur)) as (w & ws & ->). exists (d :: w), ws. simpl. by rewrite <- app_assoc. }
  destruct (H (c :: cur)) as (w & ws & ->). exists w, ws. simpl. by rewrite <- app_assoc.
Qed.
(** The number in front of the colon is looked for in the whole path, so the path of
    a device number is never understood. *)
Lemma device_path_never_parses `{HN : !Devnum} path r : device_path_parse_major_minor path ≠ Returned (Ok r).
Proof.
  unfold device_path_parse_major_minor. destruct (str_starts_with "/dev/block/" path || str_starts_with "/dev/char/" path) eqn:Hp.
  2: { apply orb_false_iff in Hp as [-> ->]. done. }
  assert (∃ rest, chars path = "/"%char :: rest) as [rest Hr].
  { apply orb_true_iff in Hp as [Hp|Hp]; unfold str_starts_with, str_strip_prefix in Hp; apply bool_decide_eq_true in Hp;
      case_decide as Heq; try (by destruct Hp); destruct path as [|c path]; try done; simpl in Heq; injection Heq as ->; by eexists. }
  assert (∃ w ws, split_char ":"%char path = of_chars ("/"%char :: w) :: ws) as (w & ws & ->).
  { unfold split_char. rewrite Hr. cbn [split_on]. destruct (split_on_cons (Ascii.eqb ":"%char) rest "/"%char [] eq_refl) as (w & ws & Hs).
    change (Ascii.eqb ":" "/") with false. cbv iota. rewrite Hs. by exists w, (of_chars <$> ws). }
  assert (parse_u64 (of_chars ("/"%char :: w)) = None) as ->.
  { unfold parse_u64, parse_unsigned. by rewrite chars_of_chars. }
  by repeat case_match.
Qed.
(** The length in the header is the upper half of the 64-bit number. *)
Lemma message_length_zero len : 0 ≤ len < 2 ^ 32 → len_bytes len = replicate 4 "000"%char.
Proof.
  intros Hl. unfold len_bytes. simpl. rewrite !Z.shiftr_div_pow2 by done.
  rewrite !Z.div_small; [done|..]; (split; [lia|]); (eapply Z.lt_le_trans; [apply Hl|]); by apply Z.pow_le_mono_r.
Qed.
Definition device_at (devpath : string) : Device := set_dev_devpath devpath Device_new.
(** The number of a name is what follows its first digit. *)
Example sysnum_from_first_digit :
  (λ d, (dev_sysname d, dev_sysnum d)) (run_state set_sysname_and_sysnum (device_at "/devices/virtual/net/eth0.100")) = ("eth0.100", Some "0.100")%string
  ∧ dev_sysnum (run_state set_sysname_and_sysnum (device_at "/devices/pci0000:00/0000:00:10.0/nvme0n1")) = Some "0n1"%string.
Proof. by vm_compute. Qed.
(** The octal mode of the kernel is read as a decimal number. *)
Example devmode_is_decimal : dev_devmode (run_state (set_devmode "0660") Device_new) = 660.
Proof. by vm_compute. Qed.

(** ** A sample *)
#[local] Existing Instance hash_iter_canonical.
#[local] Instance devnum_sample : Devnum := {| dn_makedev a b := a * 256 + b; dn_major n := n / 256; dn_minor n := n mod 256 |}.
Definition sample_message : text :=
  concat (property_line <$> [("ACTION", "add"); ("DEVPATH", "/devices/virtual/block/sda"); ("SUBSYSTEM", "block"); ("MAJOR", "8");
    ("MINOR", "0"); ("DEVNAME", "sda"); ("DEVTYPE", "disk"); ("SEQNUM", "12"); ("ID_MODEL", "disk one")])%string.
Definition sample_device : Device := match from_nulstr sample_message with Returned (Ok d) => d | _ => Device_new end.
Lemma devices_roundtrip_witness : dev_seqnum sample_device = Some 12 ∧ dev_devnum sample_device = 2048 ∧
  wp (send_device true) sample_device (λ d' r, d' = sample_device ∧ ∃ data, r = Ok data ∧
    ((length data ≤ RECV_BUFFER)%nat → ∃ d2, receive_device (Ok data) = Returned (Ok d2) ∧ same_device sample_device d2
      ∧ ∃ d3, from_nulstr (dev_nulstr d2) = Returned (Ok d3) ∧ same_device d2 d3)).
Proof.
  split; [vm_compute; reflexivity|]. split; [vm_compute; reflexivity|].
  apply (devices_roundtrip sample_message). vm_compute. reflexivity.
Defined.
