(* ===== verification/DeviceEnum.v ===== *)
(** * The device library: the enumerator

    [libs/device/src/device_enumerator.rs]: collects the devices of the tree under
    [/sys] that match a filter, and hands them out in an order.  Devices are shared
    ([Arc<Mutex<Device>>]), so they are places of a heap; a lock is never taken
    twice, so locks are left out.  The patterns (the fnmatch_regex and regex crates)
    and the sorting of slices (the standard library) are parameters. *)
From Stdlib Require Import Ascii.
From S2P Require Import Prelude UnitTypes Condition StdString StdNet Device.
Local Open Scope Z_scope.

Inductive FilterType := FilterGlob | FilterRegular.
Module MatchInitializedType.
Inductive t := No | Yes | ALL | Compat.
End MatchInitializedType.
Abbreviation MatchInitializedType := MatchInitializedType.t.
Module DeviceEnumerationType.
Inductive t := Devices | Subsystems | All.
#[global] Instance t_eq_dec : EqDecision t.
Proof. solve_decision. Defined.
End DeviceEnumerationType.
Abbreviation DeviceEnumerationType := DeviceEnumerationType.t.

(** ** What is looked for *)
Record Filter_ := {
  ft_subsystem : gset string; ft_not_subsystem : gset string;
  ft_sysattr : gmap string (gset string); ft_not_sysattr : gmap string (gset string);
  ft_property : gmap string string; ft_sysname : gset string; ft_not_sysname : gset string;
  ft_tag : gset string; ft_parent : gset string; ft_initialized : MatchInitializedType;
  ft_filter_type : FilterType; ft_prioritized : list string;
}.
Definition set_ft_subsystem v (f : Filter_) : Filter_ :=
  {| ft_subsystem := v; ft_not_subsystem := ft_not_subsystem f; ft_sysattr := ft_sysattr f;
     ft_not_sysattr := ft_not_sysattr f; ft_property := ft_property f; ft_sysname := ft_sysname f;
     ft_not_sysname := ft_not_sysname f; ft_tag := ft_tag f; ft_parent := ft_parent f;
     ft_initialized := ft_initialized f; ft_filter_type := ft_filter_type f;
     ft_prioritized := ft_prioritized f |}.
Definition set_ft_not_subsystem v (f : Filter_) : Filter_ :=
  {| ft_subsystem := ft_subsystem f; ft_not_subsystem := v; ft_sysattr := ft_sysattr f;
     ft_not_sysattr := ft_not_sysattr f; ft_property := ft_property f; ft_sysname := ft_sysname f;
     ft_not_sysname := ft_not_sysname f; ft_tag := ft_tag f; ft_parent := ft_parent f;
     ft_initialized := ft_initialized f; ft_filter_type := ft_filter_type f;
     ft_prioritized := ft_prioritized f |}.
Definition set_ft_sysattr v (f : Filter_) : Filter_ :=
  {| ft_subsystem := ft_subsystem f; ft_not_subsystem := ft_not_subsystem f; ft_sysattr := v;
     ft_not_sysattr := ft_not_sysattr f; ft_property := ft_property f; ft_sysname := ft_sysname f;
     ft_not_sysname := ft_not_sysname f; ft_tag := ft_tag f; ft_parent := ft_parent f;
     ft_initialized := ft_initialized f; ft_filter_type := ft_filter_type f;
     ft_prioritized := ft_prioritized f |}.
Definition set_ft_not_sysattr v (f : Filter_) : Filter_ :=
  {| ft_subsystem := ft_subsystem f; ft_not_subsystem := ft_not_subsystem f;
     ft_sysattr := ft_sysattr f; ft_not_sysattr := v; ft_property := ft_property f;
     ft_sysname := ft_sysname f; ft_not_sysname := ft_not_sysname f; ft_tag := ft_tag f;
     ft_parent := ft_parent f; ft_initialized := ft_initialized f;
     ft_filter_type := ft_filter_type f; ft_prioritized := ft_prioritized f |}.
Definition set_ft_property v (f : Filter_) : Filter_ :=
  {| ft_subsystem := ft_subsystem f; ft_not_subsystem := ft_not_subsystem f;
     ft_sysattr := ft_sysattr f; ft_not_sysattr := ft_not_sysattr f; ft_property := v;
     ft_sysname := ft_sysname f; ft_not_sysname := ft_not_sysname f; ft_tag := ft_tag f;
     ft_parent := ft_parent f; ft_initialized := ft_initialized f;
     ft_filter_type := ft_filter_type f; ft_prioritized := ft_prioritized f |}.
Definition set_ft_sysname v (f : Filter_) : Filter_ :=
  {| ft_subsystem := ft_subsystem f; ft_not_subsystem := ft_not_subsystem f;
     ft_sysattr := ft_sysattr f; ft_not_sysattr := ft_not_sysattr f; ft_property := ft_property f;
     ft_sysname := v; ft_not_sysname := ft_not_sysname f; ft_tag := ft_tag f;
     ft_parent := ft_parent f; ft_initialized := ft_initialized f;
     ft_filter_type := ft_filter_type f; ft_prioritized := ft_prioritized f |}.
Definition set_ft_not_sysname v (f : Filter_) : Filter_ :=
  {| ft_subsystem := ft_subsystem f; ft_not_subsystem := ft_not_subsystem f;
     ft_sysattr := ft_sysattr f; ft_not_sysattr := ft_not_sysattr f; ft_property := ft_property f;
     ft_sysname := ft_sysname f; ft_not_sysname := v; ft_tag := ft_tag f; ft_parent := ft_parent f;
     ft_initialized := ft_initialized f; ft_filter_type := ft_filter_type f;
     ft_prioritized := ft_prioritized f |}.
Definition set_ft_tag v (f : Filter_) : Filter_ :=
  {| ft_subsystem := ft_subsystem f; ft_not_subsystem := ft_not_subsystem f;
     ft_sysattr := ft_sysattr f; ft_not_sysattr := ft_not_sysattr f; ft_property := ft_property f;
     ft_sysname := ft_sysname f; ft_not_sysname := ft_not_sysname f; ft_tag := v;
     ft_parent := ft_parent f; ft_initialized := ft_initialized f;
     ft_filter_type := ft_filter_type f; ft_prioritized := ft_prioritized f |}.
Definition set_ft_parent v (f : Filter_) : Filter_ :=
  {| ft_subsystem := ft_subsystem f; ft_not_subsystem := ft_not_subsystem f;
     ft_sysattr := ft_sysattr f; ft_not_sysattr := ft_not_sysattr f; ft_property := ft_property f;
     ft_sysname := ft_sysname f; ft_not_sysname := ft_not_sysname f; ft_tag := ft_tag f;
     ft_parent := v; ft_initialized := ft_initialized f; ft_filter_type := ft_filter_type f;
     ft_prioritized := ft_prioritized f |}.
Definition set_ft_initialized v (f : Filter_) : Filter_ :=
  {| ft_subsystem := ft_subsystem f; ft_not_subsystem := ft_not_subsystem f;
     ft_sysattr := ft_sysattr f; ft_not_sysattr := ft_not_sysattr f; ft_property := ft_property f;
     ft_sysname := ft_sysname f; ft_not_sysname := ft_not_sysname f; ft_tag := ft_tag f;
     ft_parent := ft_parent f; ft_initialized := v; ft_filter_type := ft_filter_type f;
     ft_prioritized := ft_prioritized f |}.
Definition set_ft_prioritized v (f : Filter_) : Filter_ :=
  {| ft_subsystem := ft_subsystem f; ft_not_subsystem := ft_not_subsystem f;
     ft_sysattr := ft_sysattr f; ft_not_sysattr := ft_not_sysattr f; ft_property := ft_property f;
     ft_sysname := ft_sysname f; ft_not_sysname := ft_not_sysname f; ft_tag := ft_tag f;
     ft_parent := ft_parent f; ft_initialized := ft_initialized f;
     ft_filter_type := ft_filter_type f; ft_prioritized := v |}.
Definition Filter_default : Filter_ := {|
  ft_subsystem := ∅; ft_not_subsystem := ∅; ft_sysattr := ∅; ft_not_sysattr := ∅; ft_property := ∅; ft_sysname := ∅;
  ft_not_sysname := ∅; ft_tag := ∅; ft_parent := ∅; ft_initialized := MatchInitializedType.Compat;
  ft_filter_type := FilterGlob; ft_prioritized := [] |}.
(** [MatchFlag], a word of four bits. *)
Definition MF_SYSNAME : Z := 1.
Definition MF_SUBSYSTEM : Z := 2.
Definition MF_PARENT : Z := 4.
Definition MF_TAG : Z := 8.
Definition MF_ALL : Z := 15.
Definition has_flag (flags flag : Z) : bool := negb (Z.land flags flag =? 0).

(** The enumerator, the devices, and the system. *)
Record DeviceEnumerator (E : Type) := {
  en_etype : DeviceEnumerationType;
  en_by_syspath : gmap string DRef;
  en_devices : list DRef;
  en_index : nat;
  en_up_to_date : bool;
  en_sorted : bool;
  en_filter : Filter_;
  en_heap : gmap DRef Device;
  en_sys : E;
}.
Arguments en_etype {E}.
Arguments en_by_syspath {E}.
Arguments en_devices {E}.
Arguments en_index {E}.
Arguments en_up_to_date {E}.
Arguments en_sorted {E}.
Arguments en_filter {E}.
Arguments en_heap {E}.
Arguments en_sys {E}.
Arguments Build_DeviceEnumerator {E}.
Definition set_en_etype {E} v (s : DeviceEnumerator E) : DeviceEnumerator E :=
  {| en_etype := v; en_by_syspath := en_by_syspath s; en_devices := en_devices s;
     en_index := en_index s; en_up_to_date := en_up_to_date s; en_sorted := en_sorted s;
     en_filter := en_filter s; en_heap := en_heap s; en_sys := en_sys s |}.
Definition set_en_by_syspath {E} v (s : DeviceEnumerator E) : DeviceEnumerator E :=
  {| en_etype := en_etype s; en_by_syspath := v; en_devices := en_devices s;
     en_index := en_index s; en_up_to_date := en_up_to_date s; en_sorted := en_sorted s;
     en_filter := en_filter s; en_heap := en_heap s; en_sys := en_sys s |}.
Definition set_en_devices {E} v (s : DeviceEnumerator E) : DeviceEnumerator E :=
  {| en_etype := en_etype s; en_by_syspath := en_by_syspath s; en_devices := v;
     en_index := en_index s; en_up_to_date := en_up_to_date s; en_sorted := en_sorted s;
     en_filter := en_filter s; en_heap := en_heap s; en_sys := en_sys s |}.
Definition set_en_index {E} v (s : DeviceEnumerator E) : DeviceEnumerator E :=
  {| en_etype := en_etype s; en_by_syspath := en_by_syspath s; en_devices := en_devices s;
     en_index := v; en_up_to_date := en_up_to_date s; en_sorted := en_sorted s;
     en_filter := en_filter s; en_heap := en_heap s; en_sys := en_sys s |}.
Definition set_en_up_to_date {E} v (s : DeviceEnumerator E) : DeviceEnumerator E :=
  {| en_etype := en_etype s; en_by_syspath := en_by_syspath s; en_devices := en_devices s;
     en_index := en_index s; en_up_to_date := v; en_sorted := en_sorted s;
     en_filter := en_filter s; en_heap := en_heap s; en_sys := en_sys s |}.
Definition set_en_sorted {E} v (s : DeviceEnumerator E) : DeviceEnumerator E :=
  {| en_etype := en_etype s; en_by_syspath := en_by_syspath s; en_devices := en_devices s;
     en_index := en_index s; en_up_to_date := en_up_to_date s; en_sorted := v;
     en_filter := en_filter s; en_heap := en_heap s; en_sys := en_sys s |}.
Definition set_en_filter {E} v (s : DeviceEnumerator E) : DeviceEnumerator E :=
  {| en_etype := en_etype s; en_by_syspath := en_by_syspath s; en_devices := en_devices s;
     en_index := en_index s; en_up_to_date := en_up_to_date s; en_sorted := en_sorted s;
     en_filter := v; en_heap := en_heap s; en_sys := en_sys s |}.
Definition set_en_heap {E} v (s : DeviceEnumerator E) : DeviceEnumerator E :=
  {| en_etype := en_etype s; en_by_syspath := en_by_syspath s; en_devices := en_devices s;
     en_index := en_index s; en_up_to_date := en_up_to_date s; en_sorted := en_sorted s;
     en_filter := en_filter s; en_heap := v; en_sys := en_sys s |}.
Definition set_en_sys {E} v (s : DeviceEnumerator E) : DeviceEnumerator E :=
  {| en_etype := en_etype s; en_by_syspath := en_by_syspath s; en_devices := en_devices s;
     en_index := en_index s; en_up_to_date := en_up_to_date s; en_sorted := en_sorted s;
     en_filter := en_filter s; en_heap := en_heap s; en_sys := v |}.
Definition DeviceEnumerator_new {E} (heap : gmap DRef Device) (sys : E) : DeviceEnumerator E := {|
  en_etype := DeviceEnumerationType.Devices; en_by_syspath := ∅; en_devices := []; en_index := 0;
  en_up_to_date := false; en_sorted := false; en_filter := Filter_default; en_heap := heap; en_sys := sys |}.

(** ** The order of two devices *)
Definition find_str (pat s : string) : option nat := length <$> before_pattern (chars pat) (chars s).
Definition slice_from (n : nat) (s : string) : string := of_chars (drop n (chars s)).
Definition slice_to (n : nat) (s : string) : string := of_chars (take n (chars s)).
Definition bool_cmp (a b : bool) : comparison := match a, b with true, false => Gt | false, true => Lt | _, _ => Eq end.
Definition sound_device_compare (devpath_a devpath_b : string) : comparison :=
  match find_str "/sound/card" devpath_a with
  | None => Eq
  | Some prefix_len =>
    match find_str "/" (slice_from (prefix_len + 11) devpath_a) with
    | None => Eq
    | Some i =>
      let prefix_len := (prefix_len + i)%nat in
      if (length (chars devpath_b) <? prefix_len)%nat || negb (bool_decide (slice_to prefix_len devpath_a = slice_to prefix_len devpath_b))
      then Eq
      else bool_cmp (str_contains "/controlC" (slice_from prefix_len devpath_a)) (str_contains "/controlC" (slice_from prefix_len devpath_b))
    end
  end.
Definition devpath_is_late_block (devpath : string) : bool := str_contains "/block/md" devpath || str_contains "/block/dm-" devpath.
Definition device_compare (devpath_a devpath_b : string) : comparison :=
  match sound_device_compare devpath_a devpath_b with
  | Gt => Gt
  | Lt => Lt
  | Eq =>
    match bool_cmp (devpath_is_late_block devpath_a) (devpath_is_late_block devpath_b) with
    | Gt => Gt
    | Lt => Lt
    | Eq => String.compare devpath_a devpath_b
    end
  end.

Section enumerator.
Context `{HI : !HashIter} `{HN : !Devnum} `{HP : !Patterns} `{HS : !SliceSort} {E : Type} `{HF : !SysFs E}.
Abbreviation N := (M (DeviceEnumerator E)).
Abbreviation RN A := (M (DeviceEnumerator E) (Result A Errno)).
Implicit Types (r : DRef).

(** ** Devices in their places *)
Definition on_device {A} (r : DRef) (m : M (DevSt E) A) : N A :=
  s ← mget;
  d ← munwrap (en_heap s !! r);
  match m {| ds_dev := d; ds_sys := en_sys s |} with
  | Returned (st, a) => mmodify (λ s, set_en_heap (<[r:=ds_dev st]> (en_heap s)) (set_en_sys (ds_sys st) s));; mret a
  | Panicked => mpanic
  | OutOfFuel => mnofuel
  end.
Definition device_of (r : DRef) : N Device := s ← mget; munwrap (en_heap s !! r).
Definition moutcome {A} (o : Outcome A) : N A :=
  match o with Returned a => mret a | Panicked => mpanic | OutOfFuel => mnofuel end.
Definition alloc (d : Device) : N DRef :=
  s ← mget;
  let r := fresh (dom (en_heap s)) in
  mmodify (λ s, set_en_heap (<[r:=d]> (en_heap s)) s);; mret r.
(** [Device::from_syspath], shared. *)
Definition new_device (syspath : string) : RN DRef :=
  s ← mget;
  d ← moutcome (from_syspath syspath true (en_sys s));
  match d with Ok d => r ← alloc d; mret (Ok r) | Err e => mret (Err e) end.
(** [Device::get_parent] *)
Definition get_parent (r : DRef) : RN DRef :=
  d ← device_of r;
  (if dev_parent_set d then mret (Ok tt) else
   s ← mget;
   p ← moutcome (new_from_child d (en_sys s));
   let mark : RN unit := on_device r (mmodify (λ st, {| ds_dev := set_dev_parent_set true (ds_dev st); ds_sys := ds_sys st |}));; mret (Ok tt) in
   match p with
   | Ok parent =>
     q ← alloc parent;
     on_device r (mmodify (λ st, {| ds_dev := set_dev_parent (Some q) (ds_dev st); ds_sys := ds_sys st |}));;
     mark
   | Err e => if negb (bool_decide (e = ENODEV)) then mret (Err e) else mark
   end) ;;?
  d ← device_of r;
  mret (match dev_parent d with Some q => Ok q | None => Err ENOENT end).

(** ** The filter *)
Definition set_filter (f : Filter_ → Filter_) : N unit :=
  mmodify (λ s, set_en_filter (f (en_filter s)) s);; mmodify (set_en_up_to_date false).
Definition set_enumerator_type (etype : DeviceEnumerationType) : N unit :=
  s ← mget;
  mwhen (negb (bool_decide (en_etype s = etype))) (mmodify (set_en_up_to_date false));;
  mmodify (set_en_etype etype).
Definition add_prioritized_subsystem (subsystem : string) : RN unit :=
  set_filter (λ f, set_ft_prioritized (ft_prioritized f ++ [subsystem]) f);; mret (Ok tt).
Definition add_match_subsystem (subsystem : string) (whether_match : bool) : RN unit :=
  set_filter (λ f, if whether_match then set_ft_subsystem ({[subsystem]} ∪ ft_subsystem f) f
                   else set_ft_not_subsystem ({[subsystem]} ∪ ft_not_subsystem f) f);; mret (Ok tt).
Definition add_value (k v : string) (m : gmap string (gset string)) : gmap string (gset string) :=
  <[k:={[v]} ∪ default ∅ (m !! k)]> m.
Definition add_match_sysattr (sysattr value : string) (whether_match : bool) : RN unit :=
  set_filter (λ f, if whether_match then set_ft_sysattr (add_value sysattr value (ft_sysattr f)) f
                   else set_ft_not_sysattr (add_value sysattr value (ft_not_sysattr f)) f);; mret (Ok tt).
Definition add_match_property (property value : string) : RN unit :=
  set_filter (λ f, set_ft_property (<[property:=value]> (ft_property f)) f);; mret (Ok tt).
Definition add_match_sysname (sysname : string) (whether_match : bool) : RN unit :=
  set_filter (λ f, if whether_match then set_ft_sysname ({[sysname]} ∪ ft_sysname f) f
                   else set_ft_not_sysname ({[sysname]} ∪ ft_not_sysname f) f);; mret (Ok tt).
Definition add_match_tag (tag : string) : RN unit :=
  set_filter (λ f, set_ft_tag ({[tag]} ∪ ft_tag f) f);; mret (Ok tt).
Definition add_match_parent_incremental (parent : Device) : RN unit :=
  match get_syspath parent with
  | None => mret (Err EINVAL)
  | Some syspath => set_filter (λ f, set_ft_parent ({[syspath]} ∪ ft_parent f) f);; mret (Ok tt)
  end.
Definition add_match_parent (parent : Device) : RN unit :=
  mmodify (λ s, set_en_filter (set_ft_parent ∅ (en_filter s)) s);;
  add_match_parent_incremental parent ;;? mret (Ok tt).
Definition add_match_is_initialized (mtype : MatchInitializedType) : RN unit :=
  set_filter (set_ft_initialized mtype);; mret (Ok tt).
Definition allow_uninitialized : RN unit := add_match_is_initialized MatchInitializedType.ALL.

(** ** Matching *)
Definition pattern_match (f : Filter_) (pattern value : string) : Result bool Errno :=
  match (match ft_filter_type f with FilterGlob => glob_match | FilterRegular => regex_match end) pattern value with
  | Some b => Ok b
  | None => Err EINVAL
  end.
(** [for x in l { if g(x)? { return Ok(true); } }] *)
Fixpoint any_match {A} (g : A → Result bool Errno) (l : list A) : Result bool Errno :=
  match l with
  | [] => Ok false
  | x :: l' => match g x with Err e => Err e | Ok true => Ok true | Ok false => any_match g l' end
  end.
Definition set_pattern_match (f : Filter_) (include_pattern_set exclude_pattern_set : gset string) (value : string) : Result bool Errno :=
  match any_match (λ pattern, pattern_match f pattern value) (hs_iter exclude_pattern_set) with
  | Err e => Err e
  | Ok true => Ok false
  | Ok false =>
    if decide (include_pattern_set = ∅) then Ok true
    else any_match (λ pattern, pattern_match f pattern value) (hs_iter include_pattern_set)
  end.
Definition match_sysname (f : Filter_) (sysname : string) : Result bool Errno :=
  set_pattern_match f (ft_sysname f) (ft_not_sysname f) sysname.
Definition match_subsystem (f : Filter_) (subsystem : string) : Result bool Errno :=
  set_pattern_match f (ft_subsystem f) (ft_not_subsystem f) subsystem.
Definition match_parent (f : Filter_) (d : Device) : Result bool Errno :=
  if decide (ft_parent f = ∅) then Ok true
  else Ok (existsb (λ parent, str_starts_with parent (dev_syspath d)) (hs_iter (ft_parent f))).
Definition match_property (f : Filter_) (d : Device) : Result bool Errno :=
  if decide (ft_property f = ∅) then Ok true
  else any_match (λ pv, any_match (λ kv,
    match pattern_match f pv.1 kv.1 with
    | Err e => Err e
    | Ok false => Ok false
    | Ok true => pattern_match f pv.2 kv.2
    end) (hm_iter (dev_properties d))) (hm_iter (ft_property f)).
Definition match_tag (f : Filter_) (d : Device) : Result bool Errno := Ok true.
Definition match_initialized (f : Filter_) (d : Device) : Result bool Errno := Ok true.
(** [match_sysattr_value] is a [todo!]. *)
Definition match_sysattr_value : RN bool := mpanic.
Fixpoint match_sysattrs (want : bool) (l : list (string * gset string)) : RN bool :=
  match l with
  | [] => mret (Ok true)
  | _ :: l' => b ←? match_sysattr_value; if Bool.eqb b want then match_sysattrs want l' else mret (Ok false)
  end.
Definition match_sysattr (f : Filter_) : RN bool :=
  b ←? match_sysattrs true (hm_iter (ft_sysattr f));
  if b then match_sysattrs false (hm_iter (ft_not_sysattr f)) else mret (Ok false).
(** [match m { Ok(true) => {}, Ok(false) => return Ok(false), Err(e) => return Err(e) }] *)
Definition must (m : RN bool) (k : RN bool) : RN bool := b ←? m; if b then k else mret (Ok false).
Definition must_if (c : bool) (m : RN bool) (k : RN bool) : RN bool := if c then must m k else k.
Definition subsystem_matches (r : DRef) : RN bool :=
  o ← on_device r get_subsystem;
  s ← mget;
  match o with
  | Ok subsystem => mret (match_subsystem (en_filter s) subsystem)
  | Err e => if decide (e = ENOENT) then mret (Ok false) else mret (Err e)
  end.
Definition sysname_matches (r : DRef) : RN bool :=
  o ← on_device r (mzoom ds_dev (λ d s, {| ds_dev := d; ds_sys := ds_sys s |}) get_sysname);
  n ← munwrap o;
  s ← mget; mret (match_sysname (en_filter s) n).
Definition by_filter (r : DRef) (g : Filter_ → Device → Result bool Errno) : RN bool :=
  d ← device_of r; s ← mget; mret (g (en_filter s) d).
Definition test_matches (r : DRef) (flags : Z) : RN bool :=
  must_if (has_flag flags MF_SYSNAME) (sysname_matches r) (
  must_if (has_flag flags MF_SUBSYSTEM) (subsystem_matches r) (
  must_if (has_flag flags MF_PARENT) (by_filter r match_parent) (
  must_if (has_flag flags MF_TAG) (by_filter r match_tag) (
  must (by_filter r match_initialized) (
  must (by_filter r match_property) (
  must (s ← mget; match_sysattr (en_filter s)) (mret (Ok true)))))))).

(** ** Collecting *)
Definition add_device (r : DRef) : RN bool :=
  d ← device_of r;
  match get_syspath d with
  | None => mret (Err EINVAL)
  | Some syspath =>
    s ← mget;
    mmodify (set_en_by_syspath (<[syspath:=r]> (en_by_syspath s)));;
    match en_by_syspath s !! syspath with
    | Some _ => mmodify (set_en_sorted false);; mmodify (set_en_sorted false);; mret (Ok true)
    | None => mret (Ok false)
    end
  end.
(** The parents of a device; each is nearer to [/sys]. *)
Fixpoint add_parent_devices (fuel : nat) (r : DRef) (flags : Z) : RN unit :=
  match fuel with
  | O => mnofuel
  | S fuel' =>
    p ← get_parent r;
    match p with
    | Err e => if decide (e = ENOENT) then mret (Ok tt) else mret (Err e)
    | Ok parent =>
      b ←? test_matches parent flags;
      if negb b then add_parent_devices fuel' parent flags else
      added ←? add_device parent;
      if negb added then mret (Ok tt) else add_parent_devices fuel' parent flags
    end
  end.
Definition parents_fuel (s : DeviceEnumerator E) (r : DRef) : nat :=
  match en_heap s !! r with Some d => S (length (path_ancestors (dev_syspath d))) | None => 1 end.

Definition relevant_sysfs_subdir (de : DirEntry) (e : E) : bool :=
  match sf_canonicalize (de_path de) e with
  | Err _ => false
  | Ok abs_path =>
    path_starts_with "/sys/" abs_path && match de_type de with Some FtDir | Some FtSymlink => true | _ => false end
  end.
(** The loops go on after an error and return the last one. *)
Definition or_err {A} (r : Result A Errno) (ret : Result unit Errno) : Result unit Errno :=
  match r with Err e => Err e | Ok _ => ret end.
(** One entry: [inl] ends the scan with an error of the pattern of the names. *)
Definition scan_entry (ret : Result unit Errno) (entry : Result DirEntry Errno) : N (Errno + Result unit Errno) :=
  match entry with
  | Err e => mret (inr (Err e))
  | Ok entry =>
    s ← mget;
    if negb (relevant_sysfs_subdir entry (en_sys s)) then mret (inr ret) else
    match match_sysname (en_filter s) (default "" (de_name entry))%string with
    | Err e => mret (inl e)
    | Ok false => mret (inr ret)
    | Ok true =>
      match sf_canonicalize (de_path entry) (en_sys s) with
      | Err e => mret (inr (if decide (e = ENODEV) then ret else Err e))
      | Ok syspath =>
        d ← new_device (if utf8 (chars syspath) then syspath else "")%string;
        match d with
        | Err e => mret (inr (if decide (e = ENODEV) then ret else Err e))
        | Ok r =>
          b ← test_matches r (Z.land MF_ALL (Z.lnot MF_SYSNAME));
          match b with
          | Ok false => mret (inr ret)
          | Err e => mret (inr (Err e))
          | Ok true =>
            a ← add_device r;
            let ret := or_err a ret in
            s ← mget;
            p ← add_parent_devices (parents_fuel s r) r MF_ALL;
            mret (inr (or_err p ret))
          end
        end
      end
    end
  end.
Fixpoint scan_entries (ret : Result unit Errno) (entries : list (Result DirEntry Errno)) : RN unit :=
  match entries with
  | [] => mret ret
  | entry :: entries' =>
    o ← scan_entry ret entry;
    match o with inl e => mret (Err e) | inr ret => scan_entries ret entries' end
  end.
Definition scan_dir_and_add_devices (basedir : string) (subdirs : list string) : RN unit :=
  s ← mget;
  let path := String.concat "/" ("/sys"%string :: basedir :: subdirs) in
  match sf_canonicalize path (en_sys s) with
  | Err e => if decide (e = ENOENT) then mret (Ok tt) else mret (Err e)
  | Ok path =>
    match sf_read_dir path (en_sys s) with
    | Err _ => mpanic
    | Ok entries => scan_entries (Ok tt) entries
    end
  end.
Definition scan_subdir (basedir : string) (subdir subsystem : option string) (ret : Result unit Errno)
    (entry : Result DirEntry Errno) : N (Result unit Errno) :=
  match entry with
  | Err e => mret (Err e)
  | Ok entry =>
    s ← mget;
    if negb (relevant_sysfs_subdir entry (en_sys s)) then mret ret else
    match match_subsystem (en_filter s) (default (default "" (de_name entry)) subsystem)%string with
    | Ok false | Err _ => mret ret
    | Ok true =>
      r ← scan_dir_and_add_devices basedir (default "" (de_name entry) :: option_list subdir)%string;
      mret (or_err r ret)
    end
  end.
Definition scan_dir (basedir : string) (subdir subsystem : option string) : RN unit :=
  s ← mget;
  match sf_canonicalize ("/sys/" ++ basedir) (en_sys s) with
  | Err _ => mret (Err EINVAL)
  | Ok path =>
    match sf_read_dir path (en_sys s) with
    | Err e => if decide (e = ENOENT) then mret (Ok tt) else mret (Err e)
    | Ok entries => mfold (scan_subdir basedir subdir subsystem) (Ok tt) entries
    end
  end.
(** [scan_devices_tag] is a [todo!]. *)
Definition scan_devices_tag (tag : string) : RN unit := mpanic.
Definition scan_devices_tags : RN unit :=
  s ← mget;
  mfold (λ ret tag, r ← scan_devices_tag tag; mret (or_err r ret)) (Ok tt) (hs_iter (ft_tag (en_filter s))).
Definition parent_add_child (path : string) (flags : Z) : RN bool :=
  r ←? new_device path;
  b ←? test_matches r flags;
  if negb b then mret (Ok false) else add_device r.
(** One entry below a parent: a directory is kept for later. *)
Definition crawl_entry (acc : gset string * Result unit Errno) (entry : Result DirEntry Errno) : N (gset string * Result unit Errno) :=
  let '(stack, ret) := acc in
  match entry with
  | Err e => mret (stack, Err e)
  | Ok entry =>
    let file_name := default ""%string (de_name entry) in
    if decide (file_name = ""%string) then mret (stack, ret) else
    if starts_with_char "."%char file_name then mret (stack, ret) else
    if negb (match de_type entry with Some FtDir => true | _ => false end) then mret (stack, ret) else
    s ← mget;
    match sf_canonicalize (de_path entry) (en_sys s) with
    | Err e => mret (stack, Err e)
    | Ok p =>
      let entry_path := if utf8 (chars p) then p else ""%string in
      ret ← (match match_sysname (en_filter s) file_name with
             | Ok true =>
               r ← parent_add_child entry_path (Z.land MF_ALL (Z.lnot (Z.lor MF_SYSNAME MF_PARENT)));
               mret (or_err r ret)
             | _ => mret ret
             end);
      mret ({[entry_path]} ∪ stack, ret)
    end
  end.
Definition parent_crawl_children (path : string) (stack : gset string) : N (gset string * Result unit Errno) :=
  s ← mget;
  match sf_read_dir path (en_sys s) with
  | Err e => mret (stack, if decide (e = ENOENT) then Ok tt else Err e)
  | Ok entries => mfold crawl_entry (stack, Ok tt) entries
  end.
Fixpoint crawl_stack (fuel : nat) (stack : gset string) (ret : Result unit Errno) : RN unit :=
  match hs_iter stack with
  | [] => mret ret
  | p :: _ =>
    match fuel with
    | O => mnofuel
    | S fuel' =>
      x ← parent_crawl_children p (stack ∖ {[p]});
      crawl_stack fuel' x.1 (or_err x.2 ret)
    end
  end.
Definition crawl_parent (acc : gset string * Result unit Errno) (path : string) : N (gset string * Result unit Errno) :=
  let '(stack, ret) := acc in
  a ← parent_add_child path (Z.land MF_ALL (Z.lnot MF_PARENT));
  let ret := or_err a ret in
  x ← parent_crawl_children path stack;
  mret (x.1, or_err x.2 ret).
Definition scan_devices_children (fuel : nat) : RN unit :=
  s ← mget;
  x ← mfold crawl_parent (∅, Ok tt) (hs_iter (ft_parent (en_filter s)));
  crawl_stack fuel x.1 x.2.
Definition scan_devices_all : RN unit :=
  a ← scan_dir "bus" (Some "devices"%string) None;
  b ← scan_dir "class" None None;
  mret (or_err b (or_err a (Ok tt))).
(** [if self.match_subsystem(name)? { if let Err(e) = scan { ret = Err(e) } }] *)
Definition if_subsystem (name : string) (scan : RN unit) (ret : Result unit Errno) : N (Errno + Result unit Errno) :=
  s ← mget;
  match match_subsystem (en_filter s) name with
  | Err e => mret (inl e)
  | Ok false => mret (inr ret)
  | Ok true => r ← scan; mret (inr (or_err r ret))
  end.
Definition scan_subsystems_all : RN unit :=
  a ← if_subsystem "module" (scan_dir_and_add_devices "module" []) (Ok tt);
  match a with
  | inl e => mret (Err e)
  | inr ret =>
    b ← if_subsystem "subsystem" (scan_dir_and_add_devices "bus" []) ret;
    match b with
    | inl e => mret (Err e)
    | inr ret =>
      c ← if_subsystem "drivers" (scan_dir "bus" (Some "drivers"%string) (Some "drivers"%string)) ret;
      mret (match c with inl e => Err e | inr ret => ret end)
    end
  end.
Definition clean_up : N unit := mmodify (set_en_by_syspath ∅);; mmodify (set_en_devices []).
Definition scanned (etype : DeviceEnumerationType) : N unit := mmodify (set_en_up_to_date true);; mmodify (set_en_etype etype).
Definition is_current (etype : DeviceEnumerationType) (s : DeviceEnumerator E) : bool :=
  en_up_to_date s && bool_decide (en_etype s = etype).
Definition scan_devices (fuel : nat) : RN unit :=
  s ← mget;
  if is_current DeviceEnumerationType.Devices s then mret (Ok tt) else
  clean_up;;
  r ← (if negb (bool_decide (ft_tag (en_filter s) = ∅)) then scan_devices_tags
       else if negb (bool_decide (ft_parent (en_filter s) = ∅)) then scan_devices_children fuel
       else scan_devices_all);
  scanned DeviceEnumerationType.Devices;;
  mret r.
Definition scan_subsystems : RN unit :=
  s ← mget;
  if is_current DeviceEnumerationType.Subsystems s then mret (Ok tt) else
  clean_up;;
  r ← scan_subsystems_all;
  scanned DeviceEnumerationType.Subsystems;;
  mret r.
Definition scan_devices_and_subsystems (fuel : nat) : RN unit :=
  s ← mget;
  if is_current DeviceEnumerationType.All s then mret (Ok tt) else
  clean_up;;
  r ← (if negb (bool_decide (ft_tag (en_filter s) = ∅)) then scan_devices_tags
       else if negb (bool_decide (ft_parent (en_filter s) = ∅)) then scan_devices_children fuel
       else a ← scan_devices_all; b ← scan_subsystems_all; mret (or_err b (or_err a (Ok tt))));
  scanned DeviceEnumerationType.All;;
  mret r.

(** ** Sorting *)

(** The ancestors of a path that are in the table, up to the first that is not. *)
Fixpoint ancestors_in (m : gmap string DRef) (dirs : list string) : list DRef :=
  match dirs with
  | [] => []
  | dir :: dirs' => match m !! dir with Some r => r :: ancestors_in m dirs' | None => [] end
  end.
(** The first device of the subsystem in the table, with its ancestors. *)
Fixpoint find_prioritized (subsystem : string) (l : list (string * DRef)) : N (list DRef) :=
  match l with
  | [] => mret []
  | (syspath, r) :: l' =>
    o ← on_device r get_subsystem;
    match o with
    | Err _ => find_prioritized subsystem l'
    | Ok subsys =>
      if negb (bool_decide (subsys = subsystem)) then find_prioritized subsystem l' else
      s ← mget;
      mret (r :: ancestors_in (en_by_syspath s) (drop 1 (path_ancestors syspath)))
    end
  end.
Fixpoint remove_sorted (l : list DRef) : RN unit :=
  match l with
  | [] => mret (Ok tt)
  | r :: l' =>
    d ← device_of r;
    match get_syspath d with
    | None => mret (Err EINVAL)
    | Some syspath => mmodify (λ s, set_en_by_syspath (delete syspath (en_by_syspath s)) s);; remove_sorted l'
    end
  end.
Fixpoint collect_prioritized (fuel : nat) (subsystem : string) (devices : list DRef) : RN (list DRef) :=
  match fuel with
  | O => mnofuel
  | S fuel' =>
    s ← mget;
    found ← find_prioritized subsystem (hm_iter (en_by_syspath s));
    remove_sorted found ;;?
    if decide (found = []) then mret (Ok devices) else collect_prioritized fuel' subsystem (devices ++ found)
  end.
Fixpoint devpaths_of (l : list DRef) : N (list (DRef * option string)) :=
  match l with
  | [] => mret []
  | r :: l' => d ← device_of r; rest ← devpaths_of l'; mret ((r, get_devpath d) :: rest)
  end.
(** [devices.sort_by(device_compare)]: a device without a path panics the comparison. *)
Definition sort_slice (l : list DRef) : N (list DRef) :=
  x ← devpaths_of l;
  if (length x <=? 1)%nat then mret l else
  massert (forallb (λ p, is_some p.2) x);;
  mret ((sort_by (λ a b, device_compare (default "" a.2) (default "" b.2)) x).*1)%string.
Fixpoint prioritized_blocks (subsystems : list string) (devices : list DRef) : RN (list DRef) :=
  match subsystems with
  | [] => mret (Ok devices)
  | subsystem :: subsystems' =>
    s ← mget;
    block ←? collect_prioritized (S (size (en_by_syspath s))) subsystem [];
    block ← sort_slice block;
    prioritized_blocks subsystems' (devices ++ block)
  end.
Fixpoint insert_back (l : list DRef) : N unit :=
  match l with
  | [] => mret tt
  | r :: l' =>
    d ← device_of r;
    syspath ← munwrap (get_syspath d);
    mmodify (λ s, set_en_by_syspath (<[syspath:=r]> (en_by_syspath s)) s);;
    insert_back l'
  end.
Definition sort_devices : RN unit :=
  s ← mget;
  if en_sorted s then mret (Ok tt) else
  devices ←? prioritized_blocks (ft_prioritized (en_filter s)) [];
  s ← mget;
  let rest := hm_values (en_by_syspath s) in
  insert_back devices;;
  rest ← sort_slice rest;
  mmodify (set_en_devices (devices ++ rest));;
  mmodify (set_en_sorted true);;
  mmodify (set_en_index O);;
  mret (Ok tt).

(** ** [Iterator] *)
Definition scan_if_needed (fuel : nat) : RN unit :=
  s ← mget;
  if en_up_to_date s then mret (Ok tt) else
  match en_etype s with
  | DeviceEnumerationType.Devices => scan_devices fuel
  | DeviceEnumerationType.Subsystems => scan_subsystems
  | DeviceEnumerationType.All => scan_devices_and_subsystems fuel
  end.
Definition next (fuel : nat) : N (option DRef) :=
  r ← scan_if_needed fuel;
  if is_err r then mret None else
  s ← mget;
  r ← (if en_sorted s then mret (Ok tt) else sort_devices);
  if is_err r then mret None else
  s ← mget;
  match en_devices s !! en_index s with
  | Some d => mmodify (set_en_index (S (en_index s)));; mret (Some d)
  | None => mret None
  end.
Definition get_devices : N (option (list DRef)) :=
  s ← mget;
  if negb (en_up_to_date s) then mret None else
  r ← sort_devices;
  if is_err r then mret None else s ← mget; mret (Some (en_devices s)).
End enumerator.
