(* ===== verification/DeviceEnumFacts.v ===== *)
(** * The enumerated devices are sorted

    What [sort_devices] makes of the table of a scan; that a scan fills the table with
    devices whose subsystem matches; and what the enumerator loses. *)
From Stdlib Require Import Ascii.
From S2P Require Import Prelude UnitTypes Condition StdString StdNet Device DeviceFacts DeviceEnum.
Local Open Scope Z_scope.

Lemma Forall2_elem_of_l {A B} (R : A → B → Prop) l k x : Forall2 R l k → x ∈ l → ∃ y, y ∈ k ∧ R x y.
Proof. intros Hf [i Hi]%list_elem_of_lookup. eapply Forall2_lookup_l in Hf as (y & Hy & ?); [|done]. exists y. split; [by eapply list_elem_of_lookup_2|done]. Qed.
Lemma Forall2_elem_of_r {A B} (R : A → B → Prop) l k y : Forall2 R l k → y ∈ k → ∃ x, x ∈ l ∧ R x y.
Proof. intros Hf [i Hi]%list_elem_of_lookup. eapply Forall2_lookup_r in Hf as (x & Hx & ?); [|done]. exists x. split; [by eapply list_elem_of_lookup_2|done]. Qed.

Section facts.
Context `{HI : !HashIter} `{HN : !Devnum} `{HP : !Patterns} `{HS : !SliceSort} {E : Type} `{HF : !SysFs E}.
Implicit Types (s : DeviceEnumerator E) (r : DRef) (d : Device) (m : gmap string DRef).

(** ** The table *)

(** A device of the table: it is where its path says, and its subsystem is known. *)
Definition listed s (k : string) r : Prop := ∃ d, en_heap s !! r = Some d ∧ dev_syspath d = k ∧ k ≠ ""%string
  ∧ dev_devpath d ≠ ""%string ∧ dev_subsystem_set d = true ∧ dev_subsystem d ≠ ""%string.
Definition en_ok s : Prop := ∀ k r, en_by_syspath s !! k = Some r → listed s k r.
Definition subsystem_of s r : string := default ""%string (dev_subsystem <$> en_heap s !! r).
Definition syspath_of s r : string := default ""%string (dev_syspath <$> en_heap s !! r).
Definition devpath_of s r : string := default ""%string (dev_devpath <$> en_heap s !! r).
(** The device of [r] is above that of [r']. *)
Definition above s r r' : Prop := syspath_of s r ∈ drop 1 (path_ancestors (syspath_of s r')).

Lemma listed_syspath s k r : listed s k r → syspath_of s r = k.
Proof. intros (d & Hd & Hk & _). unfold syspath_of. by rewrite Hd. Qed.
Lemma wp_known_subsystem s k r (Q : DeviceEnumerator E → Result string Errno → Prop) : listed s k r →
  Q s (Ok (subsystem_of s r)) → wp (on_device r get_subsystem) s Q.
Proof.
  intros (d & Hd & _ & _ & _ & Hset & Hsub) HQ. unfold on_device. apply wp_bind, wp_mget, wp_bind, wp_munwrap. exists d. split; [done|].
  assert (get_subsystem {| ds_dev := d; ds_sys := en_sys s |} = Returned ({| ds_dev := d; ds_sys := en_sys s |}, Ok (dev_subsystem d))) as ->.
  { unfold get_subsystem, mtry, mbind, M_bind, mget. simpl. rewrite Hset. cbn. by rewrite decide_False. }
  apply wp_bind, wp_mmodify, wp_ret. simpl. rewrite insert_id by done.
  unfold subsystem_of in HQ. rewrite Hd in HQ. by destruct s.
Qed.
Lemma wp_device_of s k r (Q : DeviceEnumerator E → Device → Prop) : listed s k r →
  (∀ d, en_heap s !! r = Some d → dev_syspath d = k → k ≠ ""%string → dev_devpath d ≠ ""%string → Q s d) → wp (device_of r) s Q.
Proof. intros (d & Hd & ? & ? & ? & _) HQ. unfold device_of. apply wp_bind, wp_mget, wp_munwrap. exists d. split; [done|by apply HQ]. Qed.

(** ** Taking devices out of the table *)
Record parted m0 (l : list DRef) m : Prop := {
  pa_sub k r : m !! k = Some r → m0 !! k = Some r;
  pa_nodup : NoDup l;
  pa_elem r : r ∈ l ↔ ∃ k, m0 !! k = Some r ∧ m !! k = None;
}.
Lemma parted_nil m : parted m [] m.
Proof. split; [done|constructor|]. intros r. split; [by intros ?%elem_of_nil|]. intros (k & ? & ?). congruence. Qed.
Lemma parted_app m0 m1 m2 l1 l2 : (∀ k k' r, m0 !! k = Some r → m0 !! k' = Some r → k = k') →
  parted m0 l1 m1 → parted m1 l2 m2 → parted m0 (l1 ++ l2) m2.
Proof.
  intros Hinj [S1 N1 E1] [S2 N2 E2]. split.
  - intros k r ?. by apply S1, S2.
  - apply NoDup_app. split_and!; [done| |done]. intros r (k & Hk & Hn)%E1 (k' & Hk' & _)%E2.
    rewrite (Hinj k k' r Hk (S1 _ _ Hk')) in Hn. congruence.
  - intros r. rewrite elem_of_app, E1, E2. split.
    + intros [(k & ? & Hn)|(k & ? & ?)]; exists k; [|by auto]. split; [done|].
      destruct (m2 !! k) eqn:H2; [|done]. apply S2 in H2. congruence.
    + intros (k & H0 & H2). destruct (m1 !! k) as [r'|] eqn:H1; [right|left]; exists k; [|done].
      rewrite (S1 _ _ H1) in H0. by injection H0 as ->.
Qed.
Definition without (ks : list string) m : gmap string DRef := foldl (λ m k, delete k m) m ks.
Lemma lookup_without ks m k : without ks m !! k = if decide (k ∈ ks) then None else m !! k.
Proof.
  unfold without. revert m. induction ks as [|k0 ks IH]; intros m; [done|]. cbn [foldl]. rewrite IH.
  destruct (decide (k = k0)) as [->|Hne].
  - rewrite lookup_delete_eq. repeat case_decide; set_solver.
  - rewrite lookup_delete_ne by done. repeat case_decide; set_solver.
Qed.
(** The devices at the different places [ks]. *)
Lemma parted_without m ks l : NoDup ks → Forall2 (λ k r, m !! k = Some r) ks l →
  (∀ k k' r, m !! k = Some r → m !! k' = Some r → k = k') → parted m l (without ks m).
Proof.
  intros Hnd Hf Hinj. split.
  - intros k r. rewrite lookup_without. by case_decide.
  - clear -Hnd Hf Hinj. induction Hf as [|k r ks l Hk Hf IH]; [constructor|]. apply NoDup_cons in Hnd as [Hnk Hnd].
    constructor; [|by apply IH]. intros Hin. eapply Forall2_elem_of_r in Hin as (k' & Hk' & Hin'); [|done].
    by rewrite (Hinj k k' r Hk Hin') in Hnk.
  - intros r. split.
    + intros Hin. eapply Forall2_elem_of_r in Hin as (k & Hk & Hm); [|done]. exists k. rewrite lookup_without, decide_True; done.
    + intros (k & Hk & Hn). rewrite lookup_without in Hn. case_decide as Hin; [|congruence].
      eapply Forall2_elem_of_l in Hin as (r' & Hr' & Hm); [|done]. simpl in Hm. congruence.
Qed.
Lemma ancestors_in_spec m dirs : ∃ ks, sublist ks dirs ∧ Forall2 (λ k r, m !! k = Some r) ks (ancestors_in m dirs).
Proof.
  induction dirs as [|dir dirs (ks & Hs & Hf)]; [by exists []|]. simpl. destruct (m !! dir) as [r|] eqn:Hr.
  - exists (dir :: ks). split; [by constructor|by constructor].
  - exists []. split; [apply sublist_nil_l|constructor].
Qed.

(** ** One block *)
Definition table m s : DeviceEnumerator E := set_en_by_syspath m s.
Definition all_listed s m : Prop := ∀ k r, m !! k = Some r → listed s k r.
Lemma all_listed_inj s m k k' r : all_listed s m → m !! k = Some r → m !! k' = Some r → k = k'.
Proof. intros Hl Hk%Hl Hk'%Hl. by rewrite <- (listed_syspath _ _ _ Hk), (listed_syspath _ _ _ Hk'). Qed.
Lemma wp_find_prioritized sub l s : (∀ k r, (k, r) ∈ l → listed s k r) → wp (find_prioritized sub l) s (λ s' found, s' = s ∧
  ((found = [] ∧ ∀ k r, (k, r) ∈ l → subsystem_of s r ≠ sub)
   ∨ ∃ k r, (k, r) ∈ l ∧ subsystem_of s r = sub ∧ found = r :: ancestors_in (en_by_syspath s) (drop 1 (path_ancestors k)))).
Proof.
  induction l as [|[k r] l IH]; intros Hl; cbn [find_prioritized].
  { apply wp_ret. split; [done|]. left. split; [done|]. by intros ?? ?%elem_of_nil. }
  apply wp_bind. eapply wp_known_subsystem; [apply Hl; by left|]. case_bool_decide as Hsub; cbn [negb].
  - apply wp_bind, wp_mget, wp_ret. split; [done|]. right. exists k, r. split_and!; [by left|done..].
  - eapply wp_mono; [apply IH; intros; apply Hl; by right|]. intros s' found [-> H]. split; [done|].
    destruct H as [[-> H]|(k' & r' & Hin & H)]; [left|right].
    + split; [done|]. intros k' r' [[= -> ->]|Hin]%elem_of_cons; [done|by eapply H].
    + exists k', r'. split; [by right|done].
Qed.
Lemma wp_remove_sorted ks l s : Forall2 (listed s) ks l → wp (remove_sorted l) s (λ s' res, res = Ok tt ∧ s' = table (without ks (en_by_syspath s)) s).
Proof.
  intros Hf. revert s Hf. induction l as [|r l IH] in ks |- *; intros s Hf; inversion Hf as [|k r' ks' l' Hk Hf' E1 E2]; subst; cbn [remove_sorted].
  { apply wp_ret. split; [done|]. by destruct s. }
  apply wp_bind. eapply wp_device_of; [exact Hk|]. intros d Hd Hs Hne _. unfold get_syspath. rewrite Hs, decide_False by done.
  apply wp_bind, wp_mmodify. eapply wp_mono; [by apply (IH ks')|]. by intros s' r' [-> ->].
Qed.
(** The devices of a block: those of the subsystem, and what is above them. *)
Definition block_of (P : string → Prop) s (l : list DRef) : Prop :=
  ∀ r, r ∈ l → P (subsystem_of s r) ∨ ∃ r', r' ∈ l ∧ P (subsystem_of s r') ∧ above s r r'.
Lemma block_of_app (P : string → Prop) s l1 l2 : block_of P s l1 → block_of P s l2 → block_of P s (l1 ++ l2).
Proof.
  intros H1 H2 r [Hr|Hr]%elem_of_app; [destruct (H1 r Hr) as [?|(r' & ? & ?)]|destruct (H2 r Hr) as [?|(r' & ? & ?)]]; auto;
    right; exists r'; rewrite elem_of_app; auto.
Qed.
Lemma found_block s k r sub : let m := en_by_syspath s in all_listed s m → m !! k = Some r → subsystem_of s r = sub →
  let found := r :: ancestors_in m (drop 1 (path_ancestors k)) in
  ∃ ks, Forall2 (listed s) ks found ∧ k ∈ ks ∧ parted m found (without ks m) ∧ block_of (λ x, x = sub) s found.
Proof.
  intros m Hl Hk Hsub found. destruct (ancestors_in_spec m (drop 1 (path_ancestors k))) as (ks & Hs & Hf).
  assert (Forall2 (λ k r, m !! k = Some r) (k :: ks) found) as Hf' by by constructor.
  exists (k :: ks). split_and!; [eapply Forall2_impl; [exact Hf'|apply Hl]|by left| |].
  - apply parted_without; [|done|intros; by eapply all_listed_inj].
    assert (NoDup (k :: drop 1 (path_ancestors k))) as Hnd by apply (path_ancestors_NoDup k).
    apply NoDup_cons in Hnd as [Hnk Hnd]. constructor.
    + intros Hin. apply Hnk. eapply elem_of_submseteq; [done|by apply sublist_submseteq].
    + eapply sublist_NoDup; done.
  - intros r' [->|Hr']%elem_of_cons; [by left|]. right. exists r. split_and!; [by left|done|].
    eapply Forall2_elem_of_r in Hr' as (k' & Hk' & Hm); [|exact Hf]. unfold above.
    rewrite (listed_syspath _ _ _ (Hl _ _ Hk)), (listed_syspath _ _ _ (Hl _ _ Hm)).
    eapply elem_of_submseteq; [done|by apply sublist_submseteq].
Qed.

(** What taking devices out does not touch. *)
Lemma listed_table m s k r : listed (table m s) k r ↔ listed s k r.
Proof. done. Qed.
Lemma table_table m m' s : table m (table m' s) = table m s.
Proof. done. Qed.
Lemma table_self s : table (en_by_syspath s) s = s.
Proof. by destruct s. Qed.
Lemma parted_listed s m0 l m : all_listed s m0 → parted m0 l m → all_listed s m.
Proof. intros Hl Hp k r ?. by apply Hl, (pa_sub _ _ _ Hp). Qed.
Lemma parted_size m0 l m : parted m0 l m → l ≠ [] → (size m < size m0)%nat.
Proof.
  intros Hp Hl. destruct l as [|r l]; [done|]. apply map_subset_size. split.
  - apply map_subseteq_spec. apply (pa_sub _ _ _ Hp).
  - intros Hsub. destruct (proj1 (pa_elem _ _ _ Hp r) ltac:(by left)) as (k & H0 & H1).
    pose proof (lookup_weaken _ _ _ _ H0 Hsub). congruence.
Qed.
Lemma wp_collect fuel sub devs m s : all_listed s m → (size m < fuel)%nat →
  wp (collect_prioritized fuel sub devs) (table m s) (λ s' res, ∃ l m', res = Ok (devs ++ l) ∧ s' = table m' s ∧ parted m l m'
    ∧ (∀ k r, m' !! k = Some r → subsystem_of s r ≠ sub) ∧ block_of (λ x, x = sub) s l).
Proof.
  revert devs m. induction fuel as [|fuel IH]; intros devs m Hl Hf; [lia|]. cbn [collect_prioritized].
  apply wp_bind, wp_mget, wp_bind. eapply wp_mono; [apply wp_find_prioritized; intros k r Hkr%elem_of_hm_iter; by apply Hl|].
  intros s' found [-> [[-> Hnone]|(k & r & Hin & Hsub & ->)]].
  - rewrite wp_mtry. apply wp_ret. cbv iota. rewrite decide_True by done. apply wp_ret. exists [], m.
    rewrite app_nil_r. split_and!; [done|done|apply parted_nil| |by intros r ?%elem_of_nil].
    intros k r Hk. apply (Hnone k r). by apply elem_of_hm_iter.
  - apply elem_of_hm_iter in Hin. destruct (found_block (table m s) k r sub Hl Hin Hsub) as (ks & Hls & Hk & Hp & Hb).
    rewrite wp_mtry. eapply wp_mono; [by apply wp_remove_sorted|]. intros s' res [-> ->]. rewrite decide_False by done.
    rewrite table_table. cbn [en_by_syspath table set_en_by_syspath] in *.
    eapply wp_mono; [apply (IH _ (without ks m))|].
    + by eapply parted_listed.
    + apply parted_size in Hp; [lia|done].
    + intros s' res (l & m' & -> & -> & Hp' & Hn & Hb'). exists ((r :: ancestors_in m (drop 1 (path_ancestors k))) ++ l), m'.
      rewrite app_assoc. split_and!; [done|done| |done|by apply block_of_app].
      eapply parted_app; [intros; by eapply all_listed_inj|done|done].
Qed.

(** ** Sorting a slice *)
Definition cmp_at s r r' : comparison := device_compare (devpath_of s r) (devpath_of s r').
Definition in_order s (l : list DRef) : Prop := orders (cmp_at s) l → StronglySorted (λ r r', cmp_at s r r' ≠ Gt) l.
Lemma wp_devpaths_of s l : (∀ r, r ∈ l → ∃ k, listed s k r) →
  wp (devpaths_of l) s (λ s' x, s' = s ∧ x = (λ r, (r, Some (devpath_of s r))) <$> l).
Proof.
  induction l as [|r l IH]; intros Hl; cbn [devpaths_of]; [by apply wp_ret|].
  destruct (Hl r ltac:(by left)) as [k Hk]. apply wp_bind. eapply wp_device_of; [exact Hk|]. intros d Hd _ _ Hdp.
  apply wp_bind. eapply wp_mono; [apply IH; intros r' ?; apply Hl; by right|]. intros s' x [-> ->]. apply wp_ret. split; [done|].
  cbn [fmap list_fmap]. unfold get_devpath, devpath_of at 2. rewrite Hd, decide_False by done. done.
Qed.
Lemma StronglySorted_fmap {A B} (R : B → B → Prop) (f : A → B) l : StronglySorted (λ x y, R (f x) (f y)) l → StronglySorted R (f <$> l).
Proof.
  induction 1 as [|x l _ IH Hx]; [constructor|]. cbn. constructor; [done|]. apply Forall_fmap. done.
Qed.
Lemma StronglySorted_short {A} (R : A → A → Prop) l : (length l ≤ 1)%nat → StronglySorted R l.
Proof. destruct l as [|x [|y l]]; simpl; intros; [constructor| |lia]. repeat constructor. Qed.
Lemma wp_sort_slice s l : (∀ r, r ∈ l → ∃ k, listed s k r) →
  wp (sort_slice l) s (λ s' l', s' = s ∧ l' ≡ₚ l ∧ in_order s l').
Proof.
  intros Hl. unfold sort_slice. apply wp_bind. eapply wp_mono; [by apply wp_devpaths_of|]. intros s' x [-> ->].
  rewrite length_fmap. case_match eqn:Hlen.
  { apply wp_ret. split_and!; [done..|]. intros _. apply StronglySorted_short. by apply Nat.leb_le in Hlen. }
  set (x := (λ r, (r, Some (devpath_of s r))) <$> l). apply wp_bind, wp_massert. split.
  { apply forallb_forall. intros [r o] Hin. apply list_elem_of_In, list_elem_of_fmap in Hin as (r' & [= -> ->] & _). done. }
  apply wp_ret. split; [done|]. set (c := λ a b, _).
  pose proof (sort_by_perm c x) as HPm.
  assert (x.*1 = l) as Hx by (unfold x; rewrite <- list_fmap_compose; apply list_fmap_id).
  split; [by rewrite HPm, Hx|]. intros Ho.
  assert (∀ a, a ∈ x → a = (a.1, Some (devpath_of s a.1))) as Hshape.
  { intros a (r & -> & _)%list_elem_of_fmap. done. }
  assert (∀ a b, a ∈ x → b ∈ x → c a b = cmp_at s a.1 b.1) as Hc.
  { intros a b Ha%Hshape Hb%Hshape. rewrite Ha, Hb. done. }
  assert (orders c x) as Hox.
  { destruct Ho as [Ho1 Ho2]. assert (∀ a, a ∈ x → a.1 ∈ (sort_by c x).*1) as Hin.
    { intros a Ha. rewrite HPm. by apply list_elem_of_fmap_2. }
    split; [intros a b Ha Hb; rewrite !Hc by done; apply Ho1; auto|].
    intros a b d Ha Hb Hd. rewrite !Hc by done. apply Ho2; auto. }
  apply StronglySorted_fmap. pose proof (sort_by_sorted c x Hox) as Hsorted.
  assert (∀ a, a ∈ sort_by c x → a ∈ x) as Hsub by (intros a; by rewrite HPm).
  revert Hsorted Hsub. clear -Hc. induction 1 as [|a y Hy IH Ha]; intros Hsub; constructor.
  - apply IH. intros b Hb. apply Hsub. by right.
  - apply Forall_forall. intros b Hb. rewrite <- Hc; [by eapply Forall_forall in Ha|apply Hsub; by left|apply Hsub; by right].
Qed.

(** ** All blocks *)
Lemma parted_perm m0 l l' m : l' ≡ₚ l → parted m0 l m → parted m0 l' m.
Proof. intros Hp [S0 N0 E0]. split; [done|by rewrite Hp|]. intros r. by rewrite Hp. Qed.
Lemma parted_members s m0 l m r : all_listed s m0 → parted m0 l m → r ∈ l → ∃ k, listed s k r.
Proof. intros Hl Hp (k & Hk & _)%(pa_elem _ _ _ Hp). exists k. by apply Hl. Qed.
Lemma block_of_perm (P : string → Prop) s l l' : l' ≡ₚ l → block_of P s l → block_of P s l'.
Proof. intros Hp Hb r. rewrite Hp. intros [?|(r' & ? & ?)]%Hb; [by left|right; exists r'; by rewrite Hp]. Qed.
Lemma block_of_weaken (P Q : string → Prop) s l : (∀ x, P x → Q x) → block_of P s l → block_of Q s l.
Proof. intros Hw Hb r [?|(r' & ? & ? & ?)]%Hb; [left; auto|right; exists r'; auto]. Qed.
Lemma wp_prioritized_blocks subs devs m s : all_listed s m →
  wp (prioritized_blocks subs devs) (table m s) (λ s' res, ∃ l m', res = Ok (devs ++ l) ∧ s' = table m' s ∧ parted m l m'
    ∧ (∀ k r, m' !! k = Some r → subsystem_of s r ∉ subs) ∧ block_of (λ x, x ∈ subs) s l).
Proof.
  revert devs m. induction subs as [|sub subs IH]; intros devs m Hl; cbn [prioritized_blocks].
  { apply wp_ret. exists [], m. rewrite app_nil_r. split_and!; [done|done|apply parted_nil| |by intros r ?%elem_of_nil].
    intros k r _. apply not_elem_of_nil. }
  apply wp_bind, wp_mget. rewrite wp_mtry. cbn [en_by_syspath table set_en_by_syspath].
  eapply wp_mono; [apply (wp_collect _ sub [] m); [done|lia]|]. intros s' res (l & m1 & -> & -> & Hp & Hn & Hb). cbv iota. cbn [app].
  apply wp_bind. eapply wp_mono; [apply wp_sort_slice; intros r Hr; destruct (parted_members s _ _ _ r Hl Hp Hr) as [k ?]; by exists k|].
  intros s' l' (-> & HPm & _). eapply wp_mono; [apply (IH _ m1); by eapply parted_listed|].
  intros s' res (l2 & m2 & -> & -> & Hp2 & Hn2 & Hb2). exists (l' ++ l2), m2. rewrite app_assoc. split_and!; [done|done|..].
  - eapply parted_app; [intros; by eapply all_listed_inj|eapply parted_perm; [exact HPm|done]|done].
  - intros k r Hk. apply not_elem_of_cons. split; [|by eapply Hn2]. apply (Hn k). by apply (pa_sub _ _ _ Hp2).
  - apply block_of_app.
    + eapply block_of_weaken; [|eapply block_of_perm; [exact HPm|exact Hb]]. simpl. intros x ->. by left.
    + eapply block_of_weaken; [|exact Hb2]. simpl. intros x ?. by right.
Qed.
Definition put_back s (l : list DRef) m : gmap string DRef := foldl (λ m r, <[syspath_of s r:=r]> m) m l.
Lemma wp_insert_back l m s : (∀ r, r ∈ l → ∃ k, listed s k r) → wp (insert_back l) (table m s) (λ s' _, s' = table (put_back s l m) s).
Proof.
  revert m. induction l as [|r l IH]; intros m Hl; cbn [insert_back]; [by apply wp_ret|].
  destruct (Hl r ltac:(by left)) as [k Hk]. apply wp_bind. eapply (wp_device_of (table m s)); [exact Hk|]. intros d Hd Hs Hne _.
  unfold get_syspath. rewrite Hs, decide_False by done. apply wp_bind, wp_munwrap. exists k. split; [done|]. apply wp_bind, wp_mmodify.
  eapply wp_mono; [apply (IH (<[k:=r]> m)); intros r' ?; apply Hl; by right|]. intros s' _ ->.
  unfold put_back. cbn [foldl]. by rewrite (listed_syspath _ _ _ Hk).
Qed.
Lemma put_back_parted s m0 l m : all_listed s m0 → parted m0 l m → put_back s l m = m0.
Proof.
  intros Hl Hp. assert (∀ m', (∀ k r, m' !! k = Some r → m0 !! k = Some r) → (∀ r, r ∈ l → m0 !! syspath_of s r = Some r) →
    ∀ k, put_back s l m' !! k = if decide (k ∈ syspath_of s <$> l) then m0 !! k else m' !! k) as Hput.
  { clear Hp. induction l as [|r l IH]; intros m' Hm Hin k; [done|].
    change (put_back s (r :: l) m') with (put_back s l (<[syspath_of s r:=r]> m')). rewrite fmap_cons, IH.
    - destruct (decide (k = syspath_of s r)) as [->|Hne].
      + rewrite lookup_insert_eq, (Hin r) by by left. repeat case_decide; try done; set_solver.
      + rewrite lookup_insert_ne by done. repeat case_decide; set_solver.
    - intros k' r'. rewrite lookup_insert. case_decide; [intros [= <-]; subst k'; apply Hin; by left|apply Hm].
    - intros r' ?. apply Hin. by right. }
  apply map_eq. intros k. rewrite Hput; [|apply (pa_sub _ _ _ Hp)|].
  - case_decide as Hk; [done|]. destruct (m0 !! k) as [r|] eqn:H0.
    + destruct (m !! k) as [r'|] eqn:H1; [apply (pa_sub _ _ _ Hp) in H1; congruence|]. exfalso. apply Hk.
      apply list_elem_of_fmap. exists r. split; [symmetry; by apply listed_syspath, Hl|]. apply (pa_elem _ _ _ Hp). by exists k.
    + destruct (m !! k) eqn:H1; [|done]. apply (pa_sub _ _ _ Hp) in H1. congruence.
  - intros r (k' & Hk' & _)%(pa_elem _ _ _ Hp). by rewrite (listed_syspath _ _ _ (Hl _ _ Hk')).
Qed.
Lemma parted_values s m0 l m : all_listed s m0 → parted m0 l m → l ++ hm_values m ≡ₚ hm_values m0.
Proof.
  intros Hl Hp. assert (∀ m', all_listed s m' → NoDup (hm_values m')) as Hnd.
  { intros m' Hl'. unfold hm_values. apply NoDup_fmap_2_strong; [|apply NoDup_hm_iter].
    intros [k r] [k' r'] Hk%elem_of_hm_iter Hk'%elem_of_hm_iter. simpl. intros ->. f_equal. by eapply all_listed_inj. }
  apply NoDup_Permutation; [|by apply Hnd|].
  - apply NoDup_app. split_and!; [apply Hp| |eapply Hnd, parted_listed; done].
    intros r (k & H0 & H1)%(pa_elem _ _ _ Hp) (k' & Hk')%elem_of_hm_values.
    rewrite (all_listed_inj s m0 k k' r) in H1; [congruence|done..|by apply (pa_sub _ _ _ Hp)].
  - intros r. rewrite elem_of_app, (pa_elem _ _ _ Hp), !elem_of_hm_values. split.
    + intros [(k & ? & _)|(k & ?%(pa_sub _ _ _ Hp))]; by exists k.
    + intros (k & H0). destruct (m !! k) as [r'|] eqn:H1; [right|left]; exists k; [|done].
      pose proof (pa_sub _ _ _ Hp _ _ H1). congruence.
Qed.
End facts.

(** ** What the enumerator loses *)
Section loses.
Context `{HI : !HashIter} `{HN : !Devnum} `{HP : !Patterns} `{HS : !SliceSort} {E : Type} `{HF : !SysFs E}.
Implicit Types (s : DeviceEnumerator E) (r : DRef).

(** The answer says whether the device was there before, where the callers mean
    whether it is new. *)
Lemma wp_add_device s k r (Q : DeviceEnumerator E → Result bool Errno → Prop) : listed s k r →
  (∀ s', en_by_syspath s' = <[k:=r]> (en_by_syspath s) →
    en_sorted s' = (if is_some (en_by_syspath s !! k) then false else en_sorted s) →
    Q s' (Ok (is_some (en_by_syspath s !! k)))) → wp (add_device r) s Q.
Proof.
  intros Hk HQ. unfold add_device. apply wp_bind. eapply wp_device_of; [exact Hk|]. intros d Hd Hs Hne _.
  unfold get_syspath. rewrite Hs, decide_False by done. apply wp_bind, wp_mget, wp_bind, wp_mmodify.
  destruct (en_by_syspath s !! k).
  - apply wp_bind, wp_mmodify, wp_bind, wp_mmodify, wp_ret. by apply HQ.
  - apply wp_ret. by apply HQ.
Qed.
(** A table that has been sorted stays so although it is filled again, and then the
    devices are not taken from it. *)
Lemma sorted_stays s : en_sorted s = true → wp sort_devices s (λ s' res, s' = s ∧ res = Ok tt).
Proof. intros Hs. unfold sort_devices. apply wp_bind, wp_mget. rewrite Hs. by apply wp_ret. Qed.
End loses.

(** The comparison of two devices is not an order: each comes after the other. *)
Example device_compare_no_order :
  let a := "/devices/pci/sound/card0/controlC0"%string in let b := "/devices/pci/usb1"%string in
  device_compare a b = Gt ∧ device_compare b a = Gt.
Proof. by vm_compute. Qed.

(** ** A sample: one disk with a partition on a bus *)
#[local] Existing Instance insertion_sort_sorts.
#[local] Existing Instance hash_iter_canonical.
#[local] Instance num_sample : Devnum := {| dn_makedev a b := a * 256 + b; dn_major n := n / 256; dn_minor n := n mod 256 |}.
#[local] Instance pattern_sample : Patterns := {| glob_match p v := Some (bool_decide (p = v)); regex_match p v := None |}.
Definition sys_dirs : list string := ["/sys"; "/sys/bus"; "/sys/class"; "/sys/bus/pci"; "/sys/bus/pci/devices"; "/sys/class/block";
  "/sys/devices"; "/sys/devices/pci0"; "/sys/devices/pci0/sda"; "/sys/devices/pci0/sda/sda1"]%string.
Definition sys_links : list (string * string) :=
  [("/sys/bus/pci/devices/pci0", "/sys/devices/pci0"); ("/sys/class/block/sda", "/sys/devices/pci0/sda");
   ("/sys/class/block/sda1", "/sys/devices/pci0/sda/sda1"); ("/sys/devices/pci0/subsystem", "/sys/bus/pci");
   ("/sys/devices/pci0/sda/subsystem", "/sys/class/block"); ("/sys/devices/pci0/sda/sda1/subsystem", "/sys/class/block")]%string.
Definition sys_files : list string := ["/sys/devices/pci0/uevent"; "/sys/devices/pci0/sda/uevent"; "/sys/devices/pci0/sda/sda1/uevent"]%string.
Definition sys_target (p : string) : option string :=
  if decide (p ∈ sys_dirs ++ sys_files) then Some p else snd <$> head (filter (λ l, l.1 = p) sys_links).
Definition sys_entry (t : FileType) (p : string) : Result DirEntry Errno := Ok {| de_path := p; de_name := file_name p; de_type := Some t |}.
#[local] Instance sys_sample : SysFs unit := {|
  sf_canonicalize p _ := match sys_target p with Some q => Ok q | None => Err ENOENT end;
  sf_is_dir p _ := bool_decide (p ∈ sys_dirs);
  sf_exists p _ := is_some (sys_target p);
  sf_read p _ := Err (Some ENOENT);
  sf_open_write p _ := Some ENOENT;
  sf_write p v e := (e, None);
  sf_read_dir p _ := if decide (p ∈ sys_dirs) then
      Ok ((sys_entry FtDir <$> filter (λ q, path_parent q = Some p) sys_dirs) ++ (sys_entry FtSymlink <$> filter (λ q, path_parent q = Some p) sys_links.*1))
    else Err ENOENT;
  sf_stat p _ := Err ENOENT |}.
Definition en_new : DeviceEnumerator unit := DeviceEnumerator_new ∅ tt.
(** Block devices first. *)
Definition en_scanned : DeviceEnumerator unit := run_state (scan_devices 100) (run_state (add_prioritized_subsystem "block") en_new).
Lemma en_scanned_ok : en_ok en_scanned.
Proof.
  assert (Forall (λ kv, listed en_scanned kv.1 kv.2) (map_to_list (en_by_syspath en_scanned))) as Hf.
  { vm_compute map_to_list. repeat (apply Forall_cons; split; [eexists; split; [vm_compute; reflexivity|by vm_compute]|]). apply Forall_nil_2. }
  intros k r Hk. rewrite Forall_forall in Hf. by apply (Hf (k, r)), elem_of_map_to_list.
Qed.
(** The paths that an iteration yields. *)
Fixpoint en_take (n : nat) (s : DeviceEnumerator unit) : list string * DeviceEnumerator unit :=
  match n with
  | O => ([], s)
  | S n' => match next 100 s with
            | Returned (s', Some r) => let x := en_take n' s' in (syspath_of s' r :: x.1, x.2)
            | Returned (s', None) => ([], s')
            | _ => ([], s)
            end
  end.
Example enumerated : (en_take 9 en_new).1
  = ["/sys/devices/pci0"; "/sys/devices/pci0/sda"; "/sys/devices/pci0/sda/sda1"]%string.
Proof. by vm_compute. Qed.
(** Once it has been sorted, an enumerator that scans again yields nothing, unless the
    scan happens to find a device twice. *)
Example second_scan_is_empty :
  let s := run_state (add_match_subsystem "pci" true) (en_take 9 en_new).2 in
  (en_take 9 s).1 = [] ∧ size (en_by_syspath (en_take 9 s).2) = 1%nat.
Proof. by vm_compute. Qed.
