(* ===== verification/Devmaster.v ===== *)
(** * devmaster: the queue of device events and its workers

    [exts/devmaster/src/lib/framework]: the job queue ([job_queue.rs]), the workers
    and their manager ([worker_manager.rs]), the sources that bring devices
    ([uevent_monitor.rs]) and commands ([control_manager.rs]).  The manager is one
    thread; a worker is a thread that reads a channel and answers over a connection.
    [Rc]s are handles: an upgrade of a [Weak] succeeds while the object is in its
    table. *)
From Stdlib Require Import Ascii.
From S2P Require Import Prelude UnitTypes Condition StdString ExecParams UnitEntry UnitIf StdNet Device.
Local Open Scope Z_scope.

Module DevJobState.
Inductive t := Undef | Queued | Running.
#[global] Instance t_eq_dec : EqDecision t.
Proof. solve_decision. Defined.
End DevJobState.
Abbreviation DevJobState := DevJobState.t.
Module WorkerState.
Inductive t := Undef | Idle | Running | Killing | Killed_.
#[global] Instance t_eq_dec : EqDecision t.
Proof. solve_decision. Defined.
End WorkerState.
Abbreviation WorkerState := WorkerState.t.

(** Handles of jobs and of workers. *)
Definition JRef := nat.
Definition WRef := nat.

(** The device is that of the device library: its sequence number is all that the
    queue looks at.  [dv_test] is the device of the command [test]. *)
Class DeviceIf (Device : Type) : Type := {
  dv_seqnum : Device → option Z;
  dv_test : string → Z → Device;
}.
#[export] Instance device_library : DeviceIf Device := {|
  dv_seqnum := get_seqnum; dv_test devname seqnum := set_dev_seqnum (Some seqnum) (set_dev_devname devname Device_new) |}.
Inductive WorkerMessage (Device : Type) := MsgJob (d : Device) | MsgCmd (cmd : string).
Arguments MsgJob {Device}. Arguments MsgCmd {Device}.
Record DeviceJob (Device : Type) := {
  dj_device : Device; dj_state : DevJobState; dj_seqnum : Z; dj_worker : option WRef }.
Arguments Build_DeviceJob {Device}. Arguments dj_device {Device}. Arguments dj_state {Device}.
Arguments dj_seqnum {Device}. Arguments dj_worker {Device}.
Definition DeviceJob_new {Device} (device : Device) (st : DevJobState) (seqnum : Z) : DeviceJob Device :=
  {| dj_device := device; dj_state := st; dj_seqnum := seqnum; dj_worker := None |}.
Definition set_dj_state {Device} st (j : DeviceJob Device) : DeviceJob Device :=
  {| dj_device := dj_device j; dj_state := st; dj_seqnum := dj_seqnum j; dj_worker := dj_worker j |}.
Definition set_dj_worker {Device} w (j : DeviceJob Device) : DeviceJob Device :=
  {| dj_device := dj_device j; dj_state := dj_state j; dj_seqnum := dj_seqnum j; dj_worker := w |}.
Record Worker := { wk_id : Z; wk_state : WorkerState; wk_device_job : option JRef }.
Definition set_wk_state st (w : Worker) : Worker :=
  {| wk_id := wk_id w; wk_state := st; wk_device_job := wk_device_job w |}.
Definition set_wk_job j (w : Worker) : Worker :=
  {| wk_id := wk_id w; wk_state := wk_state w; wk_device_job := j |}.

(** The manager, the channel of each thread that has not ended, the answers that
    wait to be accepted, and the timer that kills the workers (whether it runs). *)
Record Devmaster (Device : Type) := {
  dm_jobs : list JRef;
  dm_job_heap : gmap JRef (DeviceJob Device);
  dm_workers : gmap Z WRef;
  dm_worker_heap : gmap WRef Worker;
  dm_capacity : Z;
  dm_threads : gmap WRef (list (WorkerMessage Device));
  dm_acks : list string;
  dm_kill_timer : bool;
}.
Arguments Build_Devmaster {Device}. Arguments dm_jobs {Device}. Arguments dm_job_heap {Device}.
Arguments dm_workers {Device}. Arguments dm_worker_heap {Device}. Arguments dm_capacity {Device}.
Arguments dm_threads {Device}. Arguments dm_acks {Device}. Arguments dm_kill_timer {Device}.
Definition Devmaster_new {Device} (workers_capacity : Z) : Devmaster Device := {|
  dm_jobs := []; dm_job_heap := ∅; dm_workers := ∅; dm_worker_heap := ∅; dm_capacity := workers_capacity;
  dm_threads := ∅; dm_acks := []; dm_kill_timer := false |}.
Definition set_dm_jobs {D} v (s : Devmaster D) : Devmaster D :=
  {| dm_jobs := v; dm_job_heap := dm_job_heap s; dm_workers := dm_workers s;
     dm_worker_heap := dm_worker_heap s; dm_capacity := dm_capacity s;
     dm_threads := dm_threads s; dm_acks := dm_acks s; dm_kill_timer := dm_kill_timer s |}.
Definition set_dm_job_heap {D} v (s : Devmaster D) : Devmaster D :=
  {| dm_jobs := dm_jobs s; dm_job_heap := v; dm_workers := dm_workers s;
     dm_worker_heap := dm_worker_heap s; dm_capacity := dm_capacity s;
     dm_threads := dm_threads s; dm_acks := dm_acks s; dm_kill_timer := dm_kill_timer s |}.
Definition set_dm_workers {D} v (s : Devmaster D) : Devmaster D :=
  {| dm_jobs := dm_jobs s; dm_job_heap := dm_job_heap s; dm_workers := v;
     dm_worker_heap := dm_worker_heap s; dm_capacity := dm_capacity s;
     dm_threads := dm_threads s; dm_acks := dm_acks s; dm_kill_timer := dm_kill_timer s |}.
Definition set_dm_worker_heap {D} v (s : Devmaster D) : Devmaster D :=
  {| dm_jobs := dm_jobs s; dm_job_heap := dm_job_heap s; dm_workers := dm_workers s;
     dm_worker_heap := v; dm_capacity := dm_capacity s; dm_threads := dm_threads s;
     dm_acks := dm_acks s; dm_kill_timer := dm_kill_timer s |}.
Definition set_dm_threads {D} v (s : Devmaster D) : Devmaster D :=
  {| dm_jobs := dm_jobs s; dm_job_heap := dm_job_heap s; dm_workers := dm_workers s;
     dm_worker_heap := dm_worker_heap s; dm_capacity := dm_capacity s; dm_threads := v;
     dm_acks := dm_acks s; dm_kill_timer := dm_kill_timer s |}.
Definition set_dm_acks {D} v (s : Devmaster D) : Devmaster D :=
  {| dm_jobs := dm_jobs s; dm_job_heap := dm_job_heap s; dm_workers := dm_workers s;
     dm_worker_heap := dm_worker_heap s; dm_capacity := dm_capacity s;
     dm_threads := dm_threads s; dm_acks := v; dm_kill_timer := dm_kill_timer s |}.
Definition set_dm_kill_timer {D} v (s : Devmaster D) : Devmaster D :=
  {| dm_jobs := dm_jobs s; dm_job_heap := dm_job_heap s; dm_workers := dm_workers s;
     dm_worker_heap := dm_worker_heap s; dm_capacity := dm_capacity s;
     dm_threads := dm_threads s; dm_acks := dm_acks s; dm_kill_timer := v |}.

Section devmaster.
Context `{HI : !HashIter} {Device : Type} `{HD : !DeviceIf Device}.
Abbreviation V := (M (Devmaster Device)).

(** ** Objects *)
Definition job_get (j : JRef) : V (DeviceJob Device) := s ← mget; munwrap (dm_job_heap s !! j).
Definition job_modify (j : JRef) (f : DeviceJob Device → DeviceJob Device) : V unit :=
  mmodify (λ s, set_dm_job_heap (alter f j (dm_job_heap s)) s).
Definition worker_modify (w : WRef) (f : Worker → Worker) : V unit :=
  mmodify (λ s, set_dm_worker_heap (alter f w (dm_worker_heap s)) s).
(** [self.workers.borrow().get(&id).unwrap()] *)
Definition workers_get (id : Z) : V WRef := s ← mget; munwrap (dm_workers s !! id).
(** [Weak::upgrade().unwrap()] *)
Definition upgrade_worker (w : WRef) : V unit :=
  s ← mget; massert (bool_decide (Exists (λ kv, kv.2 = w) (hm_iter (dm_workers s)))).
Definition upgrade_job (j : JRef) : V unit := s ← mget; massert (bool_decide (j ∈ dm_jobs s)).

(** ** [Worker] *)

(** A message for a thread that has ended is logged and dropped. *)
Definition worker_send_message (w : WRef) (msg : WorkerMessage Device) : V unit :=
  mmodify (λ s, set_dm_threads (alter (λ l, l ++ [msg]) w (dm_threads s)) s).
Definition finished_ack (id : Z) : string := ("finished " ++ show_uint id)%string.
Definition killed_ack (id : Z) : string := ("killed " ++ show_uint id)%string.
(** One message that a worker's thread takes from its channel.  A device is processed
    and broadcast and the answer sent; [kill] is answered and ends the thread.
    [online]: the broadcast and the connection to the manager succeed; without them
    the thread panics, and nobody is told. *)
Definition thread_answers (w : WRef) (ends : bool) (l : list (WorkerMessage Device)) (ack : string) : V unit :=
  mmodify (λ s, set_dm_threads (if ends then delete w (dm_threads s) else <[w:=l]> (dm_threads s))
    (set_dm_acks (dm_acks s ++ [ack]) s)).
Definition thread_dies (w : WRef) : V unit := mmodify (λ s, set_dm_threads (delete w (dm_threads s)) s).
Definition thread_step (w : WRef) (online : bool) : V unit :=
  s ← mget;
  x ← munwrap (dm_worker_heap s !! w);
  l ← munwrap (dm_threads s !! w);
  match l with
  | [] => mret tt
  | MsgJob _ :: l' => if online then thread_answers w false l' (finished_ack (wk_id x)) else thread_dies w
  | MsgCmd cmd :: l' =>
    if negb (bool_decide (cmd = "kill"%string)) then thread_dies w
    else if online then thread_answers w true l' (killed_ack (wk_id x)) else thread_dies w
  end.

(** ** [WorkerManager] *)
Definition set_worker_state (id : Z) (st : WorkerState) : V unit :=
  w ← workers_get id; worker_modify w (set_wk_state st).
Definition free_id (s : Devmaster Device) : option Z :=
  head (filter (λ id, dm_workers s !! id = None) (Z.of_nat <$> seq 0 (Z.to_nat (dm_capacity s)))).
Definition create_new_worker : V (option Z) :=
  s ← mget;
  match free_id s with
  | None => mret None
  | Some id =>
    let w := fresh (dom (dm_worker_heap s)) in
    mmodify (λ s, set_dm_workers (<[id:=w]> (dm_workers s))
      (set_dm_worker_heap (<[w:={| wk_id := id; wk_state := WorkerState.Undef; wk_device_job := None |}]> (dm_worker_heap s))
      (set_dm_threads (<[w:=[]]> (dm_threads s)) s)));;
    set_worker_state id WorkerState.Idle;;
    mret (Some id)
  end.
Definition is_idle (s : Devmaster Device) (w : WRef) : bool :=
  bool_decide (wk_state <$> dm_worker_heap s !! w = Some WorkerState.Idle).
Definition idle_worker (s : Devmaster Device) : option (Z * WRef) :=
  head (filter (λ kv, is_idle s kv.2 = true) (hm_iter (dm_workers s))).
(** A worker is set to work. *)
Definition employ (id : Z) (w : WRef) (job : DeviceJob Device) : V (Result WRef Error) :=
  set_worker_state id WorkerState.Running;;
  worker_send_message w (MsgJob (dj_device job));;
  mret (Ok w).
Definition job_dispatch (j : JRef) : V (Result WRef Error) :=
  job ← job_get j;
  s ← mget;
  match idle_worker s with
  | Some (id, w) => employ id w job
  | None =>
    if Z.of_nat (size (dm_workers s)) <? dm_capacity s then
      o ← create_new_worker;
      match o with
      | Some id => w ← workers_get id; employ id w job
      | None => mret (Err (ErrOther "failed to get an idle worker for job"))
      end
    else mret (Err (ErrOther "failed to get an idle worker for job"))
  end.

(** ** [JobQueue] *)
Definition job_bind (j : JRef) (w : WRef) : V unit :=
  job_modify j (set_dj_worker (Some w));; worker_modify w (set_wk_job (Some j)).
Fixpoint start_jobs (l : list JRef) : V unit :=
  match l with
  | [] => mret tt
  | j :: l' =>
    job ← job_get j;
    if negb (bool_decide (dj_state job = DevJobState.Queued)) then start_jobs l' else
    r ← job_dispatch j;
    match r with
    | Ok w => job_modify j (set_dj_state DevJobState.Running);; job_bind j w;; start_jobs l'
    | Err _ => mret tt
    end
  end.
Definition job_queue_start : V unit := s ← mget; start_jobs (dm_jobs s).
(** The searches are those of the standard library on a sorted queue. *)
Definition seqnum_of (s : Devmaster Device) (j : JRef) : option Z := dj_seqnum <$> dm_job_heap s !! j.
Definition binary_search (s : Devmaster Device) (seqnum : Z) : option nat :=
  fst <$> list_find (λ j, seqnum_of s j = Some seqnum) (dm_jobs s).
Definition partition_point (s : Devmaster Device) (seqnum : Z) : nat :=
  length (filter (λ j, default 0 (seqnum_of s j) < seqnum) (dm_jobs s)).
Definition job_queue_insert (device : Device) : V unit :=
  match dv_seqnum device with
  | None => mret tt
  | Some seqnum =>
    s ← mget;
    if decide (is_Some (binary_search s seqnum)) then mret tt else
    let idx := partition_point s seqnum in
    let j := fresh (dom (dm_job_heap s)) in
    mmodify (λ s, set_dm_jobs (take idx (dm_jobs s) ++ j :: drop idx (dm_jobs s))
      (set_dm_job_heap (<[j:=DeviceJob_new device DevJobState.Queued seqnum]> (dm_job_heap s)) s))
  end.
Definition job_free (j : JRef) : V unit :=
  job ← job_get j;
  w ← munwrap (dj_worker job);
  upgrade_worker w;;
  worker_modify w (set_wk_job None);;
  job_modify j (set_dj_worker None);;
  s ← mget;
  match binary_search s (dj_seqnum job) with
  | Some idx => mmodify (λ s, set_dm_jobs (delete idx (dm_jobs s)) s)
  | None => mret tt
  end.

(** ** What a worker answers *)
Definition worker_killed (id : Z) : V unit :=
  w ← workers_get id;
  mmodify (λ s, set_dm_workers (delete id (dm_workers s)) s);;
  s ← mget;
  match dm_threads s !! w with None => mret tt | Some _ => mnofuel end.
Definition worker_finished (id : Z) : V unit :=
  w ← workers_get id;
  s ← mget;
  x ← munwrap (dm_worker_heap s !! w);
  j ← munwrap (wk_device_job x);
  upgrade_job j;;
  set_worker_state id WorkerState.Idle;;
  job_free j;;
  job_queue_start.
Definition worker_response_dispose (ack : string) : V unit :=
  match split_char " "%char ack with
  | [ack_kind; id] =>
    id ← munwrap (parse_u32 id);
    if decide (ack_kind = "killed"%string) then worker_killed id
    else if decide (ack_kind = "finished"%string) then worker_finished id
    else mpanic
  | _ => mret tt
  end.
(** [Source for WorkerManager]: one answer is accepted. *)
Definition worker_manager_dispatch : V Z :=
  s ← mget;
  match dm_acks s with
  | [] => mret 0
  | ack :: acks => mmodify (set_dm_acks acks);; worker_response_dispose ack;; mret 0
  end.
Definition manager_kill_workers : V unit :=
  s ← mget;
  mforeach (λ kv, set_worker_state kv.1 WorkerState.Killing;; worker_send_message kv.2 (MsgCmd "kill"))
    (hm_iter (dm_workers s)).
Definition start_kill_workers_timer : V unit := mmodify (set_dm_kill_timer true).
(** The timer is one-shot. *)
Definition kill_timer_dispatch : V Z :=
  mmodify (set_dm_kill_timer false);; manager_kill_workers;; mret 0.

(** ** Devices and commands *)
Definition monitor_dispatch (device : option Device) : V Z :=
  match device with
  | None => mret 0
  | Some device => job_queue_insert device;; job_queue_start;; mret 0
  end.
Definition cmd_process (cmd : string) (now : Z) : V unit :=
  match split_char " "%char cmd with
  | cmd_kind :: devname :: _ =>
    if decide (cmd_kind = "test"%string) then
      job_queue_insert (dv_test devname (now mod 1000));; job_queue_start
    else if decide (cmd_kind = "kill"%string) then start_kill_workers_timer
    else mpanic
  | _ => mpanic
  end.
End devmaster.
