(* ===== verification/DevmasterFacts.v ===== *)
(** * The device queue of devmaster is emptied

    The invariant of the queue, the workers and their channels while nobody asks for
    the workers to be killed, its preservation, and the end of every run; and what
    the kill timer does to a device that is being worked on. *)
From Stdlib Require Import Ascii.
From S2P Require Import Prelude UnitTypes Condition StdString ExecParams UnitEntry UnitIf Devmaster.
Local Open Scope Z_scope.

(** ** Sorted lists of keys *)
Section keys.
Context {A : Type}.
Implicit Types (f g : A → Z) (l : list A).
Definition keyed f : list A → Prop := StronglySorted (λ x y, f x < f y).
Lemma keyed_ext f g l : (∀ x, x ∈ l → f x = g x) → keyed f l → keyed g l.
Proof.
  intros Hfg Hl. induction Hl as [|x l Hl IH Hx]; [constructor|]. constructor.
  - apply IH. intros y Hy. apply Hfg. by right.
  - apply Forall_forall. intros y Hy. rewrite <- !Hfg; [by eapply Forall_forall in Hx|by right|by left].
Qed.
Lemma keyed_NoDup f l : keyed f l → NoDup l.
Proof. induction 1 as [|x l _ IH Hx]; constructor; [|done]. intros Hin. eapply Forall_forall in Hx; [|done]. lia. Qed.
Lemma keyed_inj f l x y : keyed f l → x ∈ l → y ∈ l → f x = f y → x = y.
Proof.
  induction 1 as [|z l _ IH Hz]; [by intros ?%elem_of_nil|]. rewrite Forall_forall in Hz.
  intros [->|Hx]%elem_of_cons [->|Hy]%elem_of_cons Hf; [done| | |by apply IH].
  - specialize (Hz _ Hy). lia.
  - specialize (Hz _ Hx). lia.
Qed.
Lemma keyed_sublist f l k : sublist k l → keyed f l → keyed f k.
Proof.
  induction 1 as [|x k l Hs IH|x k l Hs IH]; intros Hl; [done| |]; inversion Hl as [|?? Hl' Hx]; subst; [|by apply IH].
  constructor; [by apply IH|]. apply Forall_forall. intros y Hy. eapply Forall_forall in Hx; [done|].
  eapply elem_of_submseteq; [done|by apply sublist_submseteq].
Qed.
(** A new key goes behind the smaller ones. *)
Lemma keyed_insert f l x : keyed f l → (∀ y, y ∈ l → f y ≠ f x) →
  let k := length (filter (λ y, f y < f x) l) in keyed f (take k l ++ x :: drop k l).
Proof.
  induction 1 as [|y l Hl IH Hy]; intros Hne; simpl; [repeat constructor|].
  rewrite filter_cons. case_decide as Hlt.
  - simpl. constructor; [apply IH; intros z Hz; apply Hne; by right|].
    apply Forall_forall. intros z Hz. rewrite elem_of_app, elem_of_cons in Hz. rewrite Forall_forall in Hy.
    destruct Hz as [Hz|[->|Hz]]; [eapply Hy, elem_of_submseteq, sublist_submseteq; [done|apply sublist_take]|done
      |eapply Hy, elem_of_submseteq, sublist_submseteq; [done|apply sublist_drop]].
  - assert (filter (λ y, f y < f x) l = []) as ->.
    { apply elem_of_nil_inv. intros z [Hlz Hz]%list_elem_of_filter. eapply Forall_forall in Hy; [|done]. lia. }
    simpl. constructor; [by constructor|]. apply Forall_cons. pose proof (Hne y ltac:(by left)). split; [lia|].
    eapply Forall_impl; [done|]. simpl. intros z ?. lia.
Qed.
End keys.
Lemma length_omap_le {A B} (f : A → option B) (l : list A) : (length (omap f l) ≤ length l)%nat.
Proof. induction l as [|x l IH]; [done|]. cbn. destruct (f x); cbn in *; lia. Qed.
Lemma filter_ext_in {A} (P Q : A → Prop) `{!∀ x, Decision (P x), !∀ x, Decision (Q x)} (l : list A) :
  (∀ x, x ∈ l → P x ↔ Q x) → filter P l = filter Q l.
Proof.
  induction l as [|x l IH]; intros Hl; [done|]. rewrite !filter_cons, IH by (intros y Hy; apply Hl; by right).
  pose proof (Hl x ltac:(by left)). repeat case_decide; tauto.
Qed.
Lemma alter_some `{Countable K} {A} (f : A → A) (m : gmap K A) k a : m !! k = Some a → alter f k m = <[k:=f a]> m.
Proof.
  intros Hk. apply map_eq. intros i. destruct (decide (i = k)) as [->|Hne].
  - by rewrite lookup_alter_eq, Hk, lookup_insert_eq.
  - by rewrite lookup_alter_ne, lookup_insert_ne by done.
Qed.

(** ** The invariant *)
Section facts.
Context `{HI : !HashIter} {Device : Type} `{HD : !DeviceIf Device}.
Implicit Types (s : Devmaster Device) (j : JRef) (w : WRef) (id : Z) (ids : list Z).

Definition key s j : Z := default 0 (seqnum_of s j).
Definition queued s j : Prop := ∃ job, dm_job_heap s !! j = Some job ∧ dj_state job = DevJobState.Queued.
(** The worker [w] works on the job [j]. *)
Definition serves s w j : Prop := ∃ x job,
  dm_worker_heap s !! w = Some x ∧ wk_state x = WorkerState.Running ∧ wk_device_job x = Some j ∧
  j ∈ dm_jobs s ∧ dm_job_heap s !! j = Some job ∧ dj_state job = DevJobState.Running ∧ dj_worker job = Some w.
(** An idle worker has nothing to read and nothing to answer; one that works has the
    device in its channel or its answer on the way. *)
Inductive worker_ok ids s id w : Prop :=
| wo_idle : is_idle s w = true → dm_threads s !! w = Some [] → id ∉ ids → worker_ok ids s id w
| wo_todo j d : serves s w j → dm_threads s !! w = Some [MsgJob d] → id ∉ ids → worker_ok ids s id w
| wo_done j : serves s w j → dm_threads s !! w = Some [] → id ∈ ids → worker_ok ids s id w.
(** [ids]: the workers whose answers wait. *)
Record dm_ok ids s : Prop := {
  ok_acks : dm_acks s = finished_ack <$> ids;
  ok_nodup : NoDup ids;
  ok_cap : dm_capacity s ≤ u32_max;
  ok_id id w : dm_workers s !! id = Some w →
    0 ≤ id < dm_capacity s ∧ ∃ x, dm_worker_heap s !! w = Some x ∧ wk_id x = id;
  ok_worker id w : dm_workers s !! id = Some w → worker_ok ids s id w;
  ok_job j : j ∈ dm_jobs s → queued s j ∨ ∃ id w, dm_workers s !! id = Some w ∧ serves s w j;
  ok_ids id : id ∈ ids → is_Some (dm_workers s !! id);
  ok_thread w l : dm_threads s !! w = Some l → ∃ id, dm_workers s !! id = Some w;
  ok_sorted : keyed (key s) (dm_jobs s);
}.
(** A job waits only when every worker there may be is at work. *)
Definition busy s : Prop := ∀ j, j ∈ dm_jobs s → queued s j →
  dm_capacity s ≤ Z.of_nat (size (dm_workers s)) ∧ ∀ id w, dm_workers s !! id = Some w → is_idle s w = false.

Lemma serves_not_idle s w j : serves s w j → is_idle s w = false.
Proof. intros (x & job & Hx & Hr & _). unfold is_idle. rewrite Hx. simpl. rewrite Hr. by apply bool_decide_eq_false. Qed.
Lemma serves_not_queued s w j : serves s w j → ¬ queued s j.
Proof. intros (x & job & _ & _ & _ & _ & Hj & Hr & _) (job' & Hj' & Hq). congruence. Qed.
Lemma dm_inj ids s id id' w : dm_ok ids s → dm_workers s !! id = Some w → dm_workers s !! id' = Some w → id = id'.
Proof. intros Hok [_ (x & Hx & <-)]%(ok_id _ _ Hok) [_ (x' & Hx' & <-)]%(ok_id _ _ Hok). congruence. Qed.

(** *** Setting a worker to work *)
Definition employed (j : JRef) (w : WRef) (job : DeviceJob Device) (x : Worker) s : Devmaster Device :=
  set_dm_job_heap (<[j:=set_dj_worker (Some w) (set_dj_state DevJobState.Running job)]> (dm_job_heap s))
  (set_dm_worker_heap (<[w:=set_wk_job (Some j) (set_wk_state WorkerState.Running x)]> (dm_worker_heap s))
  (set_dm_threads (<[w:=[MsgJob (dj_device job)]]> (dm_threads s)) s)).
Lemma employed_serves j w job x s : j ∈ dm_jobs s → serves (employed j w job x s) w j.
Proof.
  intros Hj. exists (set_wk_job (Some j) (set_wk_state WorkerState.Running x)),
    (set_dj_worker (Some w) (set_dj_state DevJobState.Running job)). simpl. by rewrite !lookup_insert_eq.
Qed.
Lemma employed_keeps j w job x s w' j' : is_idle s w = true → queued s j → serves s w' j' →
  serves (employed j w job x s) w' j'.
Proof.
  intros Hi Hq Hs. assert (w' ≠ w) by (intros ->; apply serves_not_idle in Hs; congruence).
  assert (j' ≠ j) by (intros ->; by eapply serves_not_queued).
  destruct Hs as (x' & job' & Hx & Hr & Hd & Hj & Hh & Hst & Hw). exists x', job'. simpl.
  by rewrite !lookup_insert_ne.
Qed.
Lemma employed_ok ids j id w job x s : dm_ok ids s → j ∈ dm_jobs s → dm_job_heap s !! j = Some job →
  dj_state job = DevJobState.Queued → dm_workers s !! id = Some w → dm_worker_heap s !! w = Some x →
  wk_state x = WorkerState.Idle → dm_ok ids (employed j w job x s).
Proof.
  intros Hok Hj Hjob Hq Hw Hx Hidle.
  assert (is_idle s w = true) as Hi by (unfold is_idle; rewrite Hx; simpl; rewrite Hidle; by apply bool_decide_eq_true).
  assert (queued s j) as Hqj by (by exists job). pose proof (ok_id _ _ Hok) as Hids.
  split; try apply Hok; simpl.
  - intros id' w' Hw'. destruct (Hids _ _ Hw') as [Hr (x' & Hx' & Hid')]. split; [done|].
    rewrite lookup_insert. case_decide as Heq; [|by eexists]. subst w'. eexists. split; [done|]. simpl. congruence.
  - intros id' w' Hw'. destruct (decide (w' = w)) as [->|Hne].
    + assert (id' = id) as -> by by eapply dm_inj. eapply wo_todo; [by apply employed_serves|by simpl; rewrite lookup_insert_eq|].
      destruct (ok_worker _ _ Hok _ _ Hw) as [_ _ ?|j' d Hs _ _|j' Hs _ _]; [done|..]; apply serves_not_idle in Hs; congruence.
    + destruct (ok_worker _ _ Hok _ _ Hw') as [Hi' Ht Hid|j' d Hs Ht Hid|j' Hs Ht Hid].
      * apply wo_idle; [|by simpl; rewrite lookup_insert_ne|done]. unfold is_idle in *. simpl. by rewrite lookup_insert_ne.
      * eapply wo_todo; [by apply employed_keeps|by simpl; rewrite lookup_insert_ne|done].
      * eapply wo_done; [by apply employed_keeps|by simpl; rewrite lookup_insert_ne|done].
  - intros j' Hj'. destruct (decide (j' = j)) as [->|Hne]; [right; exists id, w; split; [done|by apply employed_serves]|].
    destruct (ok_job _ _ Hok _ Hj') as [(job' & ? & ?)|(id' & w' & Hw' & Hs)].
    + left. exists job'. simpl. by rewrite lookup_insert_ne.
    + right. exists id', w'. split; [done|]. by apply employed_keeps.
  - intros w' l. rewrite lookup_insert. case_decide as Heq; [subst w'; by eexists|]. apply (ok_thread _ _ Hok).
  - eapply keyed_ext, (ok_sorted _ _ Hok). intros j' _. unfold key, seqnum_of. simpl.
    rewrite lookup_insert. case_decide as Heq; [|done]. subst j'. by rewrite Hjob.
Qed.

(** *** Finding a worker *)
Lemma idle_worker_spec s : match idle_worker s with
  | Some (id, w) => dm_workers s !! id = Some w ∧ is_idle s w = true
  | None => ∀ id w, dm_workers s !! id = Some w → is_idle s w = false
  end.
Proof.
  unfold idle_worker. set (l := filter _ _).
  assert (∀ id w, (id, w) ∈ l ↔ dm_workers s !! id = Some w ∧ is_idle s w = true) as Hl.
  { intros id w. unfold l. rewrite list_elem_of_filter, elem_of_hm_iter. simpl. tauto. }
  destruct l as [|[id w] l']; simpl; [|by apply Hl; left].
  intros id w Hw. apply not_true_iff_false. intros Hi. by eapply elem_of_nil, Hl.
Qed.
Lemma free_id_spec s : Z.of_nat (size (dm_workers s)) < dm_capacity s →
  ∃ id, free_id s = Some id ∧ 0 ≤ id < dm_capacity s ∧ dm_workers s !! id = None.
Proof.
  intros Hsz. unfold free_id. set (l := filter _ _).
  assert (∀ id, id ∈ l ↔ 0 ≤ id < dm_capacity s ∧ dm_workers s !! id = None) as Hl.
  { intros id. unfold l. rewrite list_elem_of_filter, list_elem_of_fmap. setoid_rewrite elem_of_seq. split.
    - intros [? (k & -> & ?)]. split; [lia|done].
    - intros [? ?]. split; [done|]. exists (Z.to_nat id). lia. }
  destruct l as [|id l']; simpl; [exfalso|exists id; split; [done|]; by apply Hl; left].
  set (ids := Z.of_nat <$> seq 0 (Z.to_nat (dm_capacity s))).
  assert (list_to_set ids ⊆ dom (dm_workers s)) as Hsub.
  { intros id [k [-> Hk%elem_of_seq]]%elem_of_list_to_set%list_elem_of_fmap. apply elem_of_dom.
    destruct (dm_workers s !! Z.of_nat k) eqn:Hw; [by eexists|]. exfalso. eapply elem_of_nil, Hl. split; [|done]. lia. }
  apply subseteq_size in Hsub. rewrite size_dom, size_list_to_set in Hsub.
  - unfold ids in Hsub. rewrite length_fmap, length_seq in Hsub. lia.
  - apply (NoDup_fmap_2 _), NoDup_seq.
Qed.
(** A new worker. *)
Definition hired (id : Z) (w : WRef) s : Devmaster Device :=
  set_dm_worker_heap (<[w:={| wk_id := id; wk_state := WorkerState.Idle; wk_device_job := None |}]> (dm_worker_heap s))
  (set_dm_workers (<[id:=w]> (dm_workers s)) (set_dm_threads (<[w:=[]]> (dm_threads s)) s)).
Lemma hired_serves id w s w' j : dm_worker_heap s !! w = None → serves s w' j → serves (hired id w s) w' j.
Proof.
  intros Hw (x & job & Hx & H). exists x, job. simpl. rewrite lookup_insert_ne; [done|congruence].
Qed.
Lemma hired_ok ids id w s : dm_ok ids s → 0 ≤ id < dm_capacity s → dm_workers s !! id = None →
  dm_worker_heap s !! w = None → dm_ok ids (hired id w s).
Proof.
  intros Hok Hr Hid Hw.
  assert (∀ id' w', dm_workers s !! id' = Some w' → w' ≠ w) as Hfresh.
  { intros id' w' [_ (x & Hx & _)]%(ok_id _ _ Hok). congruence. }
  split; try apply Hok; simpl.
  - intros id' w'. rewrite lookup_insert. case_decide as Heq.
    + intros [= <-]. subst id'. split; [done|]. rewrite lookup_insert_eq. by eexists.
    + intros Hw'. rewrite lookup_insert_ne by (symmetry; by eapply Hfresh). by apply (ok_id _ _ Hok).
  - intros id' w'. rewrite lookup_insert. case_decide as Heq.
    + intros [= <-]. subst id'. apply wo_idle; [unfold is_idle|..]; simpl; rewrite ?lookup_insert_eq; [done..|].
      intros Hin. apply (ok_ids _ _ Hok) in Hin. rewrite Hid in Hin. by destruct Hin.
    + intros Hw'. pose proof (Hfresh _ _ Hw') as Hne.
      destruct (ok_worker _ _ Hok _ _ Hw') as [Hi' Ht Hd|j' d Hs Ht Hd|j' Hs Ht Hd].
      * apply wo_idle; [unfold is_idle in *|..]; simpl; rewrite ?lookup_insert_ne; done.
      * eapply wo_todo; [by apply hired_serves|by simpl; rewrite lookup_insert_ne|done].
      * eapply wo_done; [by apply hired_serves|by simpl; rewrite lookup_insert_ne|done].
  - intros j [Hq|(id' & w' & Hw' & Hs)]%(ok_job _ _ Hok); [by left|]. right. exists id', w'.
    split; [|by apply hired_serves]. simpl. rewrite lookup_insert_ne; [done|congruence].
  - intros id' Hin. rewrite lookup_insert. case_decide; [by eexists|]. by apply (ok_ids _ _ Hok).
  - intros w' l. rewrite lookup_insert. case_decide as Heq.
    + intros _. subst w'. exists id. by rewrite lookup_insert_eq.
    + intros [id' Hw']%(ok_thread _ _ Hok). exists id'. rewrite lookup_insert_ne; [done|congruence].
Qed.
Lemma wp_create_new_worker ids s (Q : Devmaster Device → option Z → Prop) : dm_ok ids s →
  Z.of_nat (size (dm_workers s)) < dm_capacity s →
  (∀ id w, dm_workers s !! id = None → dm_ok ids (hired id w s) → Q (hired id w s) (Some id)) →
  wp create_new_worker s Q.
Proof.
  intros Hok Hsz HQ. destruct (free_id_spec s Hsz) as (id & Hf & Hr & Hid).
  unfold create_new_worker. apply wp_bind, wp_mget. rewrite Hf. cbv zeta.
  pose proof (is_fresh (dom (dm_worker_heap s))) as Hw. set (w := fresh _) in *. apply not_elem_of_dom in Hw.
  apply wp_bind, wp_mmodify. unfold set_worker_state, workers_get. apply wp_bind, wp_bind, wp_bind, wp_mget, wp_munwrap.
  exists w. simpl. split; [by rewrite lookup_insert_eq|]. apply wp_mmodify, wp_ret. cbn.
  erewrite alter_some by apply lookup_insert_eq. rewrite insert_insert_eq. apply (HQ id w); [done|by apply hired_ok].
Qed.

(** *** Starting the queue *)
Lemma wp_employ ids j id w job s (k : M (Devmaster Device) unit) (P : Devmaster Device → unit → Prop)
    (Q : Devmaster Device → Result WRef Error → Prop) :
  dm_ok ids s → j ∈ dm_jobs s → dm_job_heap s !! j = Some job → dj_state job = DevJobState.Queued →
  dm_workers s !! id = Some w → is_idle s w = true →
  (∀ x, dm_ok ids (employed j w job x s) → wp k (employed j w job x s) P) →
  (∀ s', wp (job_modify j (set_dj_state DevJobState.Running);; job_bind j w;; k) s' P → Q s' (Ok w)) →
  wp (employ id w job) s Q.
Proof.
  intros Hok Hj Hjob Hq Hw Hi Hk HQ. unfold is_idle in Hi. apply bool_decide_eq_true in Hi.
  destruct (dm_worker_heap s !! w) as [x|] eqn:Hx; [|done]. simpl in Hi. injection Hi as Hi.
  assert (dm_threads s !! w = Some []) as Ht.
  { destruct (ok_worker _ _ Hok _ _ Hw) as [_ ? _|j' d Hs _ _|j' Hs _ _]; [done|..];
      destruct Hs as (x' & ? & ? & ? & _); congruence. }
  unfold employ, set_worker_state, workers_get. apply wp_bind, wp_bind, wp_bind, wp_mget, wp_munwrap.
  exists w. split; [done|]. apply wp_mmodify, wp_bind, wp_mmodify, wp_ret, HQ.
  unfold job_bind. apply wp_bind, wp_mmodify, wp_bind, wp_bind, wp_mmodify, wp_mmodify.
  set (s' := set_dm_worker_heap _ _). assert (s' = employed j w job x s) as ->; [|by eapply Hk, employed_ok].
  unfold s', employed. cbn.
  rewrite (alter_some _ _ _ _ Hx), (alter_some _ _ _ _ Ht), (alter_some _ _ _ _ Hjob).
  erewrite !alter_some by apply lookup_insert_eq. rewrite !insert_insert_eq. done.
Qed.
(** What a start of the queue leaves alone. *)
Definition dm_same s s' : Prop := dm_jobs s' = dm_jobs s ∧ dm_acks s' = dm_acks s ∧ dm_capacity s' = dm_capacity s
  ∧ ∀ j, j ∈ dm_jobs s → ¬ queued s j → ¬ queued s' j.
Lemma dm_same_trans s1 s2 s3 : dm_same s1 s2 → dm_same s2 s3 → dm_same s1 s3.
Proof. intros (J1 & A1 & C1 & Q1) (J2 & A2 & C2 & Q2). split_and!; [congruence..|]. rewrite J1 in Q2. auto. Qed.
Lemma employed_same ids j w job x s : dm_ok ids s → j ∈ dm_jobs s → dm_same s (employed j w job x s)
  ∧ ¬ queued (employed j w job x s) j.
Proof.
  intros Hok Hj. assert (¬ queued (employed j w job x s) j) as Hn by by eapply serves_not_queued, employed_serves.
  split; [|done]. unfold dm_same. split_and!; [done..|]. intros j' _ Hq. destruct (decide (j' = j)) as [->|Hne]; [done|].
  intros (job' & Hj' & Hs). apply Hq. exists job'. simpl in Hj'. by rewrite lookup_insert_ne in Hj'.
Qed.
(** The jobs of [l] have been started, or all the workers are at work. *)
Definition started ids s (l : list JRef) s' : Prop := dm_ok ids s' ∧ dm_same s s' ∧
  ((∀ j, j ∈ l → ¬ queued s' j)
   ∨ dm_capacity s' ≤ Z.of_nat (size (dm_workers s')) ∧ ∀ id w, dm_workers s' !! id = Some w → is_idle s' w = false).
Lemma started_cons ids s s1 s2 j l : j ∈ dm_jobs s → dm_same s s1 → ¬ queued s1 j → started ids s1 l s2 →
  started ids s (j :: l) s2.
Proof.
  intros Hj Hs Hq (Hok & Hs2 & H2). split_and!; [done|by eapply dm_same_trans|]. destruct H2 as [H2|H2]; [left|by right].
  intros j' [->|?]%elem_of_cons; [|by apply H2]. apply Hs2; [|done]. by destruct Hs as (-> & _).
Qed.
Lemma hired_same id w s : dm_same s (hired id w s).
Proof. by repeat split. Qed.
Lemma wp_start_jobs ids l s : dm_ok ids s → (∀ j, j ∈ l → j ∈ dm_jobs s) →
  wp (start_jobs l) s (λ s' _, started ids s l s').
Proof.
  revert s. induction l as [|j l IH]; intros s Hok Hl; cbn [start_jobs].
  { apply wp_ret. split_and!; try done. left. by intros j ?%elem_of_nil. }
  assert (j ∈ dm_jobs s) as Hj by (apply Hl; by left).
  assert (∃ job, dm_job_heap s !! j = Some job) as [job Hjob].
  { destruct (ok_job _ _ Hok _ Hj) as [(job & ? & _)|(_ & _ & _ & ? & job & _ & _ & _ & _ & ? & _)]; by exists job. }
  unfold job_get. apply wp_bind, wp_bind, wp_mget, wp_munwrap. exists job. split; [done|].
  assert (∀ s', dm_ok ids s' → dm_same s s' → ¬ queued s' j → wp (start_jobs l) s' (λ s2 _, started ids s (j :: l) s2)) as Hnext.
  { intros s' Hok' Hs Hq. eapply wp_mono; [apply IH; [done|]|].
    - intros j' Hj'. destruct Hs as (-> & _). apply Hl. by right.
    - intros s2 [] H2. by eapply started_cons. }
  case_bool_decide as Hq; simpl; cycle 1.
  { apply Hnext; [done|done|]. intros (job' & ? & ?). congruence. }
  set (k := λ r : Result WRef Error, match r with Ok w => _ | Err _ => _ end).
  assert (∀ s' id w, dm_ok ids s' → dm_same s s' → dm_job_heap s' !! j = Some job → dm_workers s' !! id = Some w →
    is_idle s' w = true → wp (employ id w job) s' (λ s1 r, wp (k r) s1 (λ s2 _, started ids s (j :: l) s2))) as Hemp.
  { intros s' id w Hok' Hs Hjob' Hw Hi. assert (j ∈ dm_jobs s') as Hj' by (by destruct Hs as (-> & _)).
    eapply (wp_employ ids j id w job s' (start_jobs l)); [done..| |].
    - intros x Hokx. destruct (employed_same ids j w job x s' Hok' Hj') as [Hsx Hqx].
      apply Hnext; [done|by eapply dm_same_trans|done].
    - intros s1 Hs1. exact Hs1. }
  apply wp_bind. unfold job_dispatch, job_get. apply wp_bind, wp_bind, wp_mget, wp_munwrap. exists job. split; [done|].
  apply wp_bind, wp_mget. pose proof (idle_worker_spec s) as Hidle. destruct (idle_worker s) as [[id w]|].
  { destruct Hidle. by apply Hemp. }
  case_match eqn:Hsz; cycle 1.
  { apply wp_ret, wp_ret. split_and!; [done..|]. right. by apply Z.ltb_ge in Hsz. }
  apply Z.ltb_lt in Hsz. apply wp_bind, (wp_create_new_worker ids); [done..|]. intros id w _ Hok'.
  unfold workers_get. apply wp_bind, wp_bind, wp_mget, wp_munwrap. exists w. split; [by simpl; rewrite lookup_insert_eq|].
  apply Hemp; [done|apply hired_same|done|by simpl; rewrite lookup_insert_eq|].
  unfold is_idle. simpl. by rewrite lookup_insert_eq.
Qed.
Lemma wp_job_queue_start ids s : dm_ok ids s → wp job_queue_start s (λ s' _,
  dm_ok ids s' ∧ busy s' ∧ dm_jobs s' = dm_jobs s ∧ dm_acks s' = dm_acks s ∧ dm_capacity s' = dm_capacity s).
Proof.
  intros Hok. unfold job_queue_start. apply wp_bind, wp_mget.
  eapply wp_mono; [by apply (wp_start_jobs ids)|]. intros s' [] (Hok' & (HJ & HA & HC & _) & Hb). split_and!; try done.
  intros j Hj Hq. rewrite HJ in Hj. destruct Hb as [Hb|Hb]; [by destruct (Hb j)|done].
Qed.

(** *** An answer *)
Definition freed (j : JRef) (w : WRef) (job : DeviceJob Device) (x : Worker) (jobs : list JRef) (acks : list string) s : Devmaster Device :=
  set_dm_jobs jobs (set_dm_job_heap (<[j:=set_dj_worker None job]> (dm_job_heap s))
  (set_dm_worker_heap (<[w:=set_wk_job None (set_wk_state WorkerState.Idle x)]> (dm_worker_heap s)) (set_dm_acks acks s))).
Lemma freed_serves s w j w' j' job x jobs acks : serves s w j → serves s w' j' → w' ≠ w → dm_jobs s ≡ₚ j :: jobs →
  serves (freed j w job x jobs acks s) w' j'.
Proof.
  intros (x0 & job0 & _ & _ & _ & _ & Hh0 & _ & Hw0) (x' & job' & Hx & Hr & Hd & Hj & Hh & Hst & Hw) Hne HP.
  assert (j' ≠ j) by congruence. exists x', job'. simpl. rewrite !lookup_insert_ne by done. split_and!; try done.
  rewrite HP in Hj. set_solver.
Qed.
Lemma freed_ok id ids s j w job x jobs : dm_ok (id :: ids) s → dm_workers s !! id = Some w → serves s w j →
  dm_worker_heap s !! w = Some x → dm_job_heap s !! j = Some job → dm_threads s !! w = Some [] →
  dm_jobs s ≡ₚ j :: jobs → sublist jobs (dm_jobs s) →
  dm_ok ids (freed j w job x jobs (finished_ack <$> ids) s).
Proof.
  intros Hok Hw Hs Hx Hjob Ht HP Hsub.
  assert (j ∉ jobs) as Hnj. { pose proof (keyed_NoDup _ _ (ok_sorted _ _ Hok)) as Hnd. rewrite HP in Hnd. by inversion Hnd. }
  assert (id ∉ ids ∧ NoDup ids) as [Hnin Hnd] by (apply NoDup_cons, (ok_nodup _ _ Hok)).
  split; simpl; try done; try apply Hok.
  - intros id' w' Hw'. destruct (ok_id _ _ Hok _ _ Hw') as [Hr (x' & Hx' & Hid')]. split; [done|].
    rewrite lookup_insert. case_decide as Heq; [|by eexists]. subst w'. eexists. split; [done|]. simpl. congruence.
  - intros id' w' Hw'. destruct (decide (w' = w)) as [->|Hne].
    + assert (id' = id) as -> by by eapply dm_inj. by apply wo_idle; [unfold is_idle; simpl; rewrite lookup_insert_eq| |].
    + assert (id' ≠ id) by congruence.
      destruct (ok_worker _ _ Hok _ _ Hw') as [Hi' Ht' Hid|j' d Hs' Ht' Hid|j' Hs' Ht' Hid].
      * apply wo_idle; [|done|set_solver]. unfold is_idle in *. simpl. by rewrite lookup_insert_ne.
      * eapply wo_todo; [by eapply freed_serves|done|set_solver].
      * eapply wo_done; [by eapply freed_serves|done|set_solver].
  - intros j' Hj'. assert (j' ≠ j) by congruence.
    destruct (ok_job _ _ Hok j') as [(job' & ? & ?)|(id' & w' & Hw' & Hs')]; [rewrite HP; by right|..].
    + left. exists job'. simpl. by rewrite lookup_insert_ne.
    + right. exists id', w'. split; [done|]. eapply freed_serves; [done..| |done]. intros ->.
      destruct Hs as (y0 & ? & Hy0 & _ & Hd0 & _), Hs' as (y1 & ? & Hy1 & _ & Hd1 & _). congruence.
  - intros id' Hin. apply (ok_ids _ _ Hok). by right.
  - eapply keyed_ext, keyed_sublist, (ok_sorted _ _ Hok); [|done]. intros j' Hj'. unfold key, seqnum_of. simpl.
    rewrite lookup_insert_ne; [done|congruence].
Qed.
Lemma binary_search_spec s j job : keyed (key s) (dm_jobs s) → j ∈ dm_jobs s → dm_job_heap s !! j = Some job →
  ∃ i, binary_search s (dj_seqnum job) = Some i ∧ dm_jobs s !! i = Some j.
Proof.
  intros Hk Hj Hjob. unfold binary_search.
  destruct (list_find_elem_of (λ j, seqnum_of s j = Some (dj_seqnum job)) (dm_jobs s) j) as [[i j'] Hf]; [done| |].
  { unfold seqnum_of. by rewrite Hjob. }
  rewrite Hf. exists i. split; [done|]. apply list_find_Some in Hf as (Hi & Hs & _). rewrite Hi. f_equal.
  eapply keyed_inj; [done|by eapply list_elem_of_lookup_2|done|]. unfold key. rewrite Hs. unfold seqnum_of. by rewrite Hjob.
Qed.
Lemma wp_worker_finished id ids s : dm_ok (id :: ids) s →
  wp (worker_finished id) (set_dm_acks (finished_ack <$> ids) s) (λ s' _, dm_ok ids s' ∧ busy s'
    ∧ dm_capacity s' = dm_capacity s ∧ S (length (dm_jobs s')) = length (dm_jobs s)).
Proof.
  intros Hok. destruct (ok_ids _ _ Hok id) as [w Hw]; [by left|].
  destruct (ok_worker _ _ Hok _ _ Hw) as [_ _ []|j ? _ _ []|j Hs Ht _]; [by left..|].
  pose proof Hs as (x & job & Hx & Hr & Hd & Hj & Hjob & Hst & Hjw).
  unfold worker_finished, workers_get. apply wp_bind, wp_bind, wp_mget, wp_munwrap. exists w. split; [done|].
  apply wp_bind, wp_mget, wp_bind, wp_munwrap. exists x. split; [done|]. apply wp_bind, wp_munwrap. exists j. split; [done|].
  unfold upgrade_job. apply wp_bind, wp_bind, wp_mget, wp_massert. split; [by apply bool_decide_eq_true|].
  unfold set_worker_state, workers_get. apply wp_bind, wp_bind, wp_bind, wp_mget, wp_munwrap. exists w. split; [done|].
  apply wp_mmodify. unfold job_free, job_get. apply wp_bind, wp_bind, wp_bind, wp_mget, wp_munwrap. exists job. split; [done|].
  apply wp_bind, wp_munwrap. exists w. split; [done|].
  unfold upgrade_worker. apply wp_bind, wp_bind, wp_mget, wp_massert.
  split; [apply bool_decide_eq_true, Exists_exists; exists (id, w); split; [by apply elem_of_hm_iter|done]|].
  apply wp_bind, wp_mmodify, wp_bind, wp_mmodify, wp_bind, wp_mget. cbn.
  rewrite (alter_some _ _ _ _ Hx), (alter_some _ _ _ _ Hjob). erewrite alter_some by apply lookup_insert_eq.
  rewrite insert_insert_eq. cbn.
  set (s1 := set_dm_job_heap _ _).
  destruct (binary_search_spec s1 j (set_dj_worker None job)) as (i & Hi & Hlk); [|done|by simpl; rewrite lookup_insert_eq|].
  { eapply keyed_ext, (ok_sorted _ _ Hok). intros j' _. unfold key, seqnum_of, s1. simpl.
    rewrite lookup_insert. case_decide as Heq; [|done]. subst j'. by rewrite Hjob. }
  match goal with |- wp (match ?o with _ => _ end) _ _ => change o with (binary_search s1 (dj_seqnum (set_dj_worker None job))) end.
  rewrite Hi. apply wp_mmodify.
  set (s2 := set_dm_jobs _ _). change s2 with (freed j w job x (delete i (dm_jobs s)) (finished_ack <$> ids) s).
  assert (dm_jobs s ≡ₚ j :: delete i (dm_jobs s)) as HP by by apply delete_Permutation.
  eapply wp_mono; [apply wp_job_queue_start, (freed_ok id); try done; apply sublist_delete|].
  intros s' [] (Hok' & Hb & HJ & _ & HC). split_and!; try done. rewrite HJ. simpl. by rewrite HP at 2.
Qed.
Lemma split_ack id : split_char " "%char (finished_ack id) = ["finished"; show_uint id]%string.
Proof.
  unfold split_char, finished_ack.
  change (chars ("finished " ++ show_uint id)) with (chars "finished" ++ " "%char :: chars (show_uint id)).
  rewrite split_on_sep, split_on_last.
  - simpl. f_equal. unfold of_chars, chars. by rewrite String.string_of_list_ascii_of_string.
  - intros c Hc. apply show_uint_chars in Hc. destruct (Ascii.eqb_spec " " c); [|done]. subst c. by destruct Hc.
  - intros c Hc. vm_compute in Hc. repeat (apply elem_of_cons in Hc as [->|Hc]; [done|]). by apply elem_of_nil in Hc.
  - done.
Qed.
Lemma wp_ack id ids s : dm_ok (id :: ids) s → wp worker_manager_dispatch s (λ s' r, r = 0 ∧ dm_ok ids s' ∧ busy s'
    ∧ dm_capacity s' = dm_capacity s ∧ S (length (dm_jobs s')) = length (dm_jobs s)).
Proof.
  intros Hok. unfold worker_manager_dispatch. apply wp_bind, wp_mget. rewrite (ok_acks _ _ Hok).
  change (finished_ack <$> id :: ids) with (finished_ack id :: (finished_ack <$> ids)).
  apply wp_bind, wp_mmodify, wp_bind. unfold worker_response_dispose. rewrite split_ack.
  destruct (ok_ids _ _ Hok id) as [w Hw]; [by left|]. destruct (ok_id _ _ Hok _ _ Hw) as [Hr _].
  pose proof (ok_cap _ _ Hok) as Hcap.
  apply wp_bind, wp_munwrap. exists id. split; [apply parse_show; unfold u32_max in *; lia|].
  rewrite decide_False, decide_True by done. eapply wp_mono; [by apply wp_worker_finished|].
  intros s' [] H. by apply wp_ret.
Qed.

(** *** A thread *)
Lemma wp_thread ids s w m l : dm_ok ids s → dm_threads s !! w = Some (m :: l) →
  wp (thread_step w true) s (λ s' _, (∃ id, dm_ok (ids ++ [id]) s') ∧ (busy s → busy s')
    ∧ dm_capacity s' = dm_capacity s ∧ dm_jobs s' = dm_jobs s).
Proof.
  intros Hok Ht. destruct (ok_thread _ _ Hok _ _ Ht) as [id Hw]. destruct (ok_id _ _ Hok _ _ Hw) as [Hr (x & Hx & Hid)].
  destruct (ok_worker _ _ Hok _ _ Hw) as [? ? ?|j d Hs Ht' Hnin|? ? ? ?]; try congruence.
  rewrite Ht in Ht'. injection Ht' as -> ->.
  unfold thread_step. apply wp_bind, wp_mget, wp_bind, wp_munwrap. exists x. split; [done|].
  apply wp_bind, wp_munwrap. eexists. split; [done|]. cbv iota. unfold thread_answers. apply wp_mmodify. rewrite Hid.
  split_and!; try done. exists id. split; simpl; try done; try apply Hok.
  - rewrite (ok_acks _ _ Hok), fmap_app. done.
  - apply NoDup_app. split_and!; [apply Hok| |apply NoDup_singleton]. set_solver.
  - intros id' w' Hw'. destruct (decide (w' = w)) as [->|Hne].
    + assert (id' = id) as -> by by eapply dm_inj. eapply wo_done; [done|by simpl; rewrite lookup_insert_eq|set_solver].
    + assert (id' ≠ id) by congruence.
      destruct (ok_worker _ _ Hok _ _ Hw') as [Hi' Ht' Hid'|j' d' Hs' Ht' Hid'|j' Hs' Ht' Hid'].
      * apply wo_idle; [done|by simpl; rewrite lookup_insert_ne|set_solver].
      * eapply wo_todo; [done|by simpl; rewrite lookup_insert_ne|set_solver].
      * eapply wo_done; [done|by simpl; rewrite lookup_insert_ne|set_solver].
  - intros id' [?|Heq%list_elem_of_singleton]%elem_of_app; [by apply (ok_ids _ _ Hok)|subst id'; by eexists].
  - intros w' l'. rewrite lookup_insert. case_decide as Heq; [subst w'; by eexists|]. apply (ok_thread _ _ Hok).
Qed.

(** *** A device *)
Lemma wp_job_queue_insert ids s device : dm_ok ids s → wp (job_queue_insert device) s (λ s' _,
  dm_ok ids s' ∧ dm_capacity s' = dm_capacity s).
Proof.
  intros Hok. unfold job_queue_insert. destruct (dv_seqnum device) as [seqnum|]; [|by apply wp_ret].
  apply wp_bind, wp_mget. case_decide as Hb; [by apply wp_ret|]. cbv zeta.
  pose proof (is_fresh (dom (dm_job_heap s))) as Hj. set (j := fresh _) in *. apply not_elem_of_dom in Hj.
  apply wp_mmodify. split; [|done].
  assert (∀ j', j' ∈ dm_jobs s → is_Some (dm_job_heap s !! j') ∧ j' ≠ j) as Hheap.
  { intros j' Hj'. assert (is_Some (dm_job_heap s !! j')) as [job' Hh].
    { destruct (ok_job _ _ Hok _ Hj') as [(? & ? & _)|(_ & _ & _ & ? & ? & _ & _ & _ & _ & ? & _)]; by eexists. }
    split; [by eexists|congruence]. }
  set (s' := set_dm_jobs _ _).
  assert (∀ j', j' ∈ dm_jobs s' ↔ j' = j ∨ j' ∈ dm_jobs s) as Hjobs.
  { intros j'. simpl. rewrite elem_of_app, elem_of_cons.
    rewrite <- (take_drop (partition_point s seqnum) (dm_jobs s)) at 3. rewrite elem_of_app. tauto. }
  assert (∀ w' j', serves s w' j' → serves s' w' j') as Hserves.
  { intros w' j' (x & job & Hx & Hr & Hd & Hin & Hh & H). exists x, job. split_and!; try done; [|by simpl; rewrite lookup_insert_ne by naive_solver|by destruct H..].
    apply Hjobs. by right. }
  split; try apply Hok.
  - intros id w Hw. destruct (ok_worker _ _ Hok _ _ Hw) as [? ? ?|j' d Hs' ? ?|j' Hs' ? ?];
      [by apply wo_idle|by eapply wo_todo; [apply Hserves|..]|by eapply wo_done; [apply Hserves|..]].
  - intros j' Hj'. apply Hjobs in Hj' as [->|Hj'].
    + left. eexists. simpl. by rewrite lookup_insert_eq.
    + destruct (ok_job _ _ Hok _ Hj') as [(job' & ? & ?)|(id & w & Hw & Hs')].
      * left. exists job'. simpl. rewrite lookup_insert_ne; [done|]. intros ->. by apply (Hheap _ Hj').
      * right. exists id, w. split; [done|by apply Hserves].
  - assert (key s' j = seqnum) as Hkj by (unfold key, seqnum_of; simpl; by rewrite lookup_insert_eq).
    assert (∀ j', j' ∈ dm_jobs s → key s' j' = key s j') as Hks.
    { intros j' Hj'. unfold key, seqnum_of. simpl. rewrite lookup_insert_ne; [done|]. intros ->. by apply (Hheap _ Hj'). }
    simpl. unfold partition_point.
    assert (filter (λ j, default 0 (seqnum_of s j) < seqnum) (dm_jobs s) = filter (λ j', key s' j' < key s' j) (dm_jobs s)) as ->.
    { apply filter_ext_in. intros j' Hj'. rewrite Hkj, Hks by done. done. }
    apply keyed_insert; [eapply keyed_ext, (ok_sorted _ _ Hok); intros ??; by rewrite Hks|].
    intros j' Hj'. rewrite Hkj, Hks by done. intros Heq. apply Hb. unfold binary_search.
    destruct (list_find_elem_of (λ j, seqnum_of s j = Some seqnum) (dm_jobs s) j') as [[? ?] ->]; [done| |by eexists].
    unfold key, seqnum_of in *. destruct (Hheap _ Hj') as [[? Hh] _]. rewrite Hh in *. simpl in *. by subst.
Qed.
Lemma wp_insert_start ids s device : dm_ok ids s → wp (job_queue_insert device;; job_queue_start) s (λ s' _,
  dm_ok ids s' ∧ busy s' ∧ dm_capacity s' = dm_capacity s).
Proof.
  intros Hok. apply wp_bind. eapply wp_mono; [by apply wp_job_queue_insert|]. intros s1 [] (Hok1 & <-).
  eapply wp_mono; [by apply wp_job_queue_start|]. intros s2 [] (? & ? & _ & _ & ?). by split_and!.
Qed.

(** ** Runs *)

(** What devmaster does by itself: a thread takes a message, or an answer is accepted. *)
Inductive dm_internal : Devmaster Device → Devmaster Device → Prop :=
| di_thread s s' w m l : dm_threads s !! w = Some (m :: l) → thread_step w true s = Returned (s', tt) → dm_internal s s'
| di_ack s s' r : dm_acks s ≠ [] → worker_manager_dispatch s = Returned (s', r) → dm_internal s s'.
(** The states of a devmaster with room for [cap] workers whose threads stay online
    and which nobody asks to kill its workers. *)
Inductive dm_reach (cap : Z) : Devmaster Device → Prop :=
| dr_new : dm_reach cap (Devmaster_new cap)
| dr_internal s s' : dm_reach cap s → dm_internal s s' → dm_reach cap s'
| dr_uevent s s' device r : dm_reach cap s → monitor_dispatch device s = Returned (s', r) → dm_reach cap s'
| dr_test s s' cmd now : dm_reach cap s → head (split_char " "%char cmd) = Some "test"%string →
    cmd_process cmd now s = Returned (s', tt) → dm_reach cap s'.
Inductive dm_run : nat → Devmaster Device → Devmaster Device → Prop :=
| run_nil s : dm_run 0 s s
| run_cons n s s1 s2 : dm_internal s s1 → dm_run n s1 s2 → dm_run (S n) s s2.

Lemma wp_elim {S A} (m : M S A) (t t' : S) a (Q : S → A → Prop) : wp m t Q → m t = Returned (t', a) → Q t' a.
Proof. unfold wp. intros H Hm. by rewrite Hm in H. Qed.
Definition dm_good (cap : Z) (s : Devmaster Device) : Prop := ∃ ids, dm_ok ids s ∧ busy s ∧ dm_capacity s = cap.
(** The steps that remain at most. *)
Definition dm_left s : nat := 2 * length (dm_jobs s) - length (dm_acks s).
Lemma acks_le_jobs ids s : dm_ok ids s → (length (dm_acks s) ≤ length (dm_jobs s))%nat.
Proof.
  intros Hok. rewrite (ok_acks _ _ Hok), length_fmap.
  set (f := λ j, job ← dm_job_heap s !! j; w ← dj_worker job; wk_id <$> dm_worker_heap s !! w).
  trans (length (omap f (dm_jobs s))); [|apply length_omap_le].
  apply submseteq_length, NoDup_submseteq; [apply Hok|]. intros id Hin.
  destruct (ok_ids _ _ Hok _ Hin) as [w Hw]. destruct (ok_id _ _ Hok _ _ Hw) as [_ (x & Hx & Hid)].
  destruct (ok_worker _ _ Hok _ _ Hw) as [_ _ []|? ? _ _ []|j (x' & job & Hx' & _ & _ & Hj & Hh & _ & Hjw) _ _]; [done..|].
  apply list_elem_of_omap. exists j. split; [done|]. unfold f. rewrite Hh. simpl. rewrite Hjw. simpl. by rewrite Hx; simpl; rewrite Hid.
Qed.
Lemma internal_good cap s s' : dm_good cap s → dm_internal s s' → dm_good cap s' ∧ (dm_left s' < dm_left s)%nat.
Proof.
  intros (ids & Hok & Hb & HC) Hint. destruct Hint as [s s' w m l Ht Hrun|s s' r Ha Hrun].
  - destruct (wp_elim _ _ _ _ _ (wp_thread ids _ _ _ _ Hok Ht) Hrun) as ([id Hok'] & Hb' & HC' & HJ). split.
    + exists (ids ++ [id]). split_and!; [done|by apply Hb'|congruence].
    + pose proof (acks_le_jobs _ _ Hok'). unfold dm_left. rewrite HJ in *.
      rewrite (ok_acks _ _ Hok'), (ok_acks _ _ Hok), !length_fmap, length_app in *. simpl in *. lia.
  - pose proof (acks_le_jobs _ _ Hok) as Hle. destruct ids as [|id ids]; [by rewrite (ok_acks _ _ Hok) in Ha|].
    destruct (wp_elim _ _ _ _ _ (wp_ack _ _ _ Hok) Hrun) as (_ & Hok' & Hb' & HC' & HJ). split.
    + exists ids. split_and!; [done..|congruence].
    + unfold dm_left. rewrite <- HJ in *. rewrite (ok_acks _ _ Hok'), (ok_acks _ _ Hok), !length_fmap in *. simpl in *. lia.
Qed.
Lemma reach_good cap s : cap ≤ u32_max → dm_reach cap s → dm_good cap s.
Proof.
  intros Hcap. induction 1 as [|s s' _ IH Hint|s s' device r _ (ids & Hok & Hb & HC) Hrun|s s' cmd now _ (ids & Hok & Hb & HC) Ht Hrun].
  - exists []. split_and!; [|by intros j ?%elem_of_nil|done]. split; simpl; try done; [constructor| | |constructor].
    + by intros ? ?%elem_of_nil.
    + by intros ? ?%elem_of_nil.
  - by eapply internal_good.
  - destruct device as [device|]; [|injection Hrun as <- _; by exists ids].
    assert (wp (monitor_dispatch (Some device)) s (λ s' _, dm_ok ids s' ∧ busy s' ∧ dm_capacity s' = cap)) as Hwp.
    { pose proof (wp_insert_start ids s device Hok) as H. apply wp_bind in H. unfold monitor_dispatch. apply wp_bind.
      eapply wp_mono; [exact H|]. intros s1 [] H1. apply wp_bind. eapply wp_mono; [exact H1|].
      intros s2 [] (? & ? & ?). apply wp_ret. split_and!; [done..|congruence]. }
    exists ids. by apply (wp_elim _ _ _ _ _ Hwp Hrun).
  - unfold cmd_process in Hrun. destruct (split_char " " cmd) as [|kind [|devname rest]]; [done..|].
    injection Ht as ->. rewrite decide_True in Hrun by done. exists ids.
    destruct (wp_elim _ _ _ _ _ (wp_insert_start ids s _ Hok) Hrun) as (? & ? & ?). split_and!; [done..|congruence].
Qed.
(** While a job is in the queue, something can be done. *)
Lemma good_progress cap s : 0 < cap → dm_good cap s → dm_jobs s ≠ [] → ∃ s', dm_internal s s'.
Proof.
  intros Hpos (ids & Hok & Hb & HC) HJ.
  assert (∃ id w j, dm_workers s !! id = Some w ∧ serves s w j) as (id & w & j & Hw & Hs).
  { destruct (dm_jobs s) as [|j l] eqn:Hl; [done|]. assert (j ∈ dm_jobs s) as Hj by (rewrite Hl; by left).
    destruct (ok_job _ _ Hok _ Hj) as [Hq|(id & w & ? & ?)]; [|by exists id, w, j].
    destruct (Hb _ Hj Hq) as [Hsz Hidle].
    destruct (map_choose (dm_workers s)) as (id & w & Hw).
    { intros He. rewrite He, map_size_empty in Hsz. lia. }
    exists id, w. specialize (Hidle _ _ Hw). destruct (ok_worker _ _ Hok _ _ Hw) as [? _ _|j' ? ? _ _|j' ? _ _];
      [congruence|by exists j'..]. }
  destruct (ok_worker _ _ Hok _ _ Hw) as [Hi _ _|j' d _ Ht _|j' _ _ Hin].
  - apply serves_not_idle in Hs. congruence.
  - destruct (wp_returns _ _ _ (wp_thread ids _ _ _ _ Hok Ht)) as (s' & [] & Hr & _). exists s'. by eapply di_thread.
  - destruct ids as [|id' ids]; [by apply elem_of_nil in Hin|].
    destruct (wp_returns _ _ _ (wp_ack _ _ _ Hok)) as (s' & r & Hr & _). exists s'. eapply di_ack; [|done].
    by rewrite (ok_acks _ _ Hok).
Qed.
Lemma run_good cap n s s' : dm_good cap s → dm_run n s s' → dm_good cap s' ∧ (n + dm_left s' ≤ dm_left s)%nat.
Proof.
  intros Hg Hr. induction Hr as [s|n s s1 s2 Hi Hr IH]; [by split; [|lia]|].
  destruct (internal_good _ _ _ Hg Hi) as [Hg1 Hlt]. destruct (IH Hg1) as [Hg2 Hle]. split; [done|lia].
Qed.
End facts.

(** ** Samples: a device is its sequence number *)
#[local] Existing Instance hash_iter_canonical.
#[local] Instance dev_sample : DeviceIf Z := {| dv_seqnum d := Some d; dv_test _ n := n |}.
Definition dm_start (cap : Z) : Devmaster Z := Devmaster_new cap.
(** Three devices and two workers: the first device has been worked on. *)
Definition dm_sample : Devmaster Z :=
  run_state (thread_step 0%nat true) (run_state (monitor_dispatch (Some 3)) (run_state (cmd_process "test sda" 1002)
    (run_state (monitor_dispatch (Some 1)) (dm_start 2)))).
Lemma dm_sample_reach : dm_reach 2 dm_sample.
Proof.
  unfold dm_sample. set (s1 := run_state (monitor_dispatch (Some 1)) _).
  set (s2 := run_state (cmd_process _ _) s1). set (s3 := run_state (monitor_dispatch (Some 3)) s2).
  apply (dr_internal 2 s3); [|eapply (di_thread s3 _ 0%nat); vm_compute; reflexivity].
  apply (dr_uevent 2 s2 s3 (Some 3) 0); [|vm_compute; reflexivity].
  apply (dr_test 2 s1 s2 "test sda" 1002); [|reflexivity|vm_compute; reflexivity].
  apply (dr_uevent 2 (dm_start 2) s1 (Some 1) 0); [constructor|vm_compute; reflexivity].
Qed.

(** ** What loses a device, and what ends devmaster *)
Definition dm_seq (l : list (M (Devmaster Z) unit)) : M (Devmaster Z) unit := mforeach id l.
Definition dm_unit {A} (m : M (Devmaster Z) A) : M (Devmaster Z) unit := m;; mret tt.
(** The states of the jobs in the queue, the workers, the threads and the answers. *)
Definition dm_view (s : Devmaster Z) : list (option (Z * DevJobState)) * list (Z * WRef) * list (WRef * list (WorkerMessage Z)) * list string :=
  ((λ j, (λ x, (dj_device x, dj_state x)) <$> dm_job_heap s !! j) <$> dm_jobs s, hm_iter (dm_workers s), hm_iter (dm_threads s), dm_acks s).
(** The kill timer fires while the device 1 is being worked on.  When that work is
    done, the worker, which [kill] waits for in its channel, counts as idle again and
    is given the device 2: it stays in the queue as running, without a worker. *)
Example kill_loses_device : dm_view (run_state (dm_seq [dm_unit (monitor_dispatch (Some 1)); dm_unit kill_timer_dispatch;
    thread_step 0%nat true; dm_unit worker_manager_dispatch; dm_unit (monitor_dispatch (Some 2)); thread_step 0%nat true;
    dm_unit worker_manager_dispatch]) (dm_start 1))
  = ([Some (2, DevJobState.Running)], [], [], []).
Proof. vm_compute. reflexivity. Qed.
(** A thread that cannot broadcast or connect panics: its device stays in the queue,
    and the worker is never used again. *)
Example offline_loses_worker : dm_view (run_state (dm_seq [dm_unit (monitor_dispatch (Some 1)); thread_step 0%nat false;
    dm_unit (monitor_dispatch (Some 2))]) (dm_start 1))
  = ([Some (1, DevJobState.Running); Some (2, DevJobState.Queued)], [(0, 0%nat)], [], []).
Proof. vm_compute. reflexivity. Qed.
(** Messages that panic the manager, whoever connects. *)
Lemma foreign_messages_panic s : panics (worker_response_dispose "stop 1") s ∧ panics (worker_response_dispose "finished x") s
  ∧ (dm_workers (s : Devmaster Z) !! 7 = None → panics (worker_response_dispose "killed 7") s)
  ∧ panics (cmd_process "kill" 0) s ∧ panics (cmd_process "stop all" 0) s.
Proof.
  split_and!; [done..| |done|done]. intros Hn. unfold panics. vm_compute in Hn |- *. by rewrite Hn.
Qed.
