(* ===== verification/Event.v ===== *)
(** * The event loop

    [libs/event/src]: the events ([events.rs]), the timers ([timer.rs]), the
    signals ([signal.rs]) and the sources ([source.rs]).  [EventsData] is a store
    over the rest of the system [E]: the epoll instance and the system calls are
    the class [EventSys], and what a source does when it is dispatched is the
    class [Source]. *)
From S2P Require Import Prelude UnitTypes UnitIf.
Local Open Scope Z_scope.

(** ** [lib.rs] *)
Inductive EventType :=
| EvIo | TimerRealtime | TimerBoottime | TimerMonotonic | TimerRealtimeAlarm | TimerBoottimeAlarm
| EvSignal | EvChild | EvPidfd | EvWatchdog | EvInotify | EvDefer | EvPost | EvExit.

#[export] Instance EventType_eq_dec : EqDecision EventType.
Proof. solve_decision. Defined.
#[export, refine] Instance EventType_finite : Finite EventType := {|
  enum := [EvIo; TimerRealtime; TimerBoottime; TimerMonotonic; TimerRealtimeAlarm;
    TimerBoottimeAlarm; EvSignal; EvChild; EvPidfd; EvWatchdog; EvInotify; EvDefer; EvPost; EvExit] |}.
Proof.
  - by apply (bool_decide_unpack _).
  - intros []; by apply (bool_decide_unpack _).
Defined.

(** The order in which the loops over the timers go. *)
Definition timer_types : list EventType :=
  [TimerRealtime; TimerBoottime; TimerMonotonic; TimerRealtimeAlarm; TimerBoottimeAlarm].

(** ** [std::collections::BinaryHeap]

    The heaps of this library are ordered by the reverse of an integer key, so
    [pop] takes an element of the least key, any of them. *)
Class BinaryHeap : Type := {
  heap_pop : ∀ {A : Type}, (A → Z) → list A → option (A * list A);
  heap_pop_nil : ∀ {A} (key : A → Z), heap_pop key [] = None;
  heap_pop_some : ∀ {A} (key : A → Z) x l, ∃ y l', heap_pop key (x :: l) = Some (y, l')
    ∧ x :: l ≡ₚ y :: l' ∧ ∀ z, z ∈ x :: l → key y ≤ key z;
}.
Definition heap_peek `{!BinaryHeap} {A} (key : A → Z) (l : list A) : option A :=
  fst <$> heap_pop key l.

(** ** [timer.rs] *)
Definition USEC_INFINITY : Z := u64_max.
Definition USEC_PER_SEC : Z := 1000000.
Definition NSEC_PER_USEC : Z := 1000.
Definition NSEC_PER_SEC : Z := 1000000000.

Record Timestamp := { ts_realtime : Z; ts_monotonic : Z; ts_boottime : Z }.
Definition Timestamp_new : Timestamp := {| ts_realtime := 0; ts_monotonic := 0; ts_boottime := 0 |}.

(** [tv_sec] and [tv_nsec] of a [timespec]; unsigned arithmetic on [u64]. *)
Definition load_nsec (ts : Z * Z) : Z :=
  let '(tv_sec, tv_nsec) := ts in
  if (tv_sec <? 0) || (tv_nsec <? 0) then USEC_INFINITY else
  if USEC_INFINITY - tv_nsec / NSEC_PER_SEC / USEC_PER_SEC <? tv_sec then USEC_INFINITY else
  wrap_u64 (wrap_u64 (tv_sec * USEC_PER_SEC) + tv_nsec / NSEC_PER_USEC).

(** [it_value] of [timer_stored]. *)
Definition timer_stored (next : Z) : Z * Z :=
  (next / USEC_PER_SEC, next mod USEC_PER_SEC * NSEC_PER_USEC).

Inductive Clock := CLOCK_REALTIME | CLOCK_MONOTONIC | CLOCK_BOOTTIME | CLOCK_REALTIME_ALARM
| CLOCK_BOOTTIME_ALARM.
(** [None] is [unreachable!()]. *)
Definition clockid (et : EventType) : option Clock :=
  match et with
  | TimerRealtime => Some CLOCK_REALTIME
  | TimerBoottime => Some CLOCK_BOOTTIME
  | TimerMonotonic => Some CLOCK_MONOTONIC
  | TimerRealtimeAlarm => Some CLOCK_REALTIME_ALARM
  | TimerBoottimeAlarm => Some CLOCK_BOOTTIME_ALARM
  | _ => None
  end.
Definition timestamp_of (ts : Timestamp) (et : EventType) : option Z :=
  match et with
  | TimerRealtime | TimerRealtimeAlarm => Some (ts_realtime ts)
  | TimerBoottime | TimerBoottimeAlarm => Some (ts_boottime ts)
  | TimerMonotonic => Some (ts_monotonic ts)
  | _ => None
  end.

Record ClockData (Src : Type) := { cd_source : Src; cd_next : Z }.
Arguments cd_source {Src}.
Arguments cd_next {Src}.

(** [TimerInner] is its heap. *)
Record Timer (Src : Type) := {
  timer_set : gmap EventType (list (ClockData Src));
  timestamp : Timestamp;
}.
Arguments timer_set {Src}.
Arguments timestamp {Src}.
Definition Timer_new {Src} : Timer Src := {| timer_set := ∅; timestamp := Timestamp_new |}.
Definition set_timer_set {Src} v (t : Timer Src) : Timer Src :=
  {| timer_set := v; timestamp := timestamp t |}.
Definition set_timestamp {Src} v (t : Timer Src) : Timer Src :=
  {| timer_set := timer_set t; timestamp := v |}.

(** ** [signal.rs] *)
Record Signals := { sig_set : gset Z; sig_fd : Z }.
Definition Signals_new : Signals := {| sig_set := ∅; sig_fd := -1 |}.

(** ** [events.rs]: the store *)
Record Events (Src E : Type) := {
  ev_exit : bool;
  ev_sources : gmap Z Src;
  ev_defer_sources : gmap Z Src;
  ev_post_sources : gmap Z Src;
  ev_exit_sources : gmap Z Src;
  ev_pending : list Src;
  ev_state : gmap Z EventState;
  ev_children : gmap Z Z;
  ev_pidfd : Z;
  ev_timerfd : gmap EventType Z;
  ev_signal : Signals;
  ev_timer : Timer Src;
  ev_inotify : Z;
  ev_env : E;
}.
Arguments ev_exit {Src E}.
Arguments ev_sources {Src E}.
Arguments ev_defer_sources {Src E}.
Arguments ev_post_sources {Src E}.
Arguments ev_exit_sources {Src E}.
Arguments ev_pending {Src E}.
Arguments ev_state {Src E}.
Arguments ev_children {Src E}.
Arguments ev_pidfd {Src E}.
Arguments ev_timerfd {Src E}.
Arguments ev_signal {Src E}.
Arguments ev_timer {Src E}.
Arguments ev_inotify {Src E}.
Arguments ev_env {Src E}.
Arguments Build_Events {Src E}.

Section setters.
Context {Src E : Type}.
Definition set_ev_exit (v : bool) (s : Events Src E) : Events Src E :=
  {| ev_exit := v; ev_sources := ev_sources s; ev_defer_sources := ev_defer_sources s;
     ev_post_sources := ev_post_sources s; ev_exit_sources := ev_exit_sources s;
     ev_pending := ev_pending s; ev_state := ev_state s; ev_children := ev_children s;
     ev_pidfd := ev_pidfd s; ev_timerfd := ev_timerfd s; ev_signal := ev_signal s;
     ev_timer := ev_timer s; ev_inotify := ev_inotify s; ev_env := ev_env s |}.
Definition set_ev_sources (v : gmap Z Src) (s : Events Src E) : Events Src E :=
  {| ev_exit := ev_exit s; ev_sources := v; ev_defer_sources := ev_defer_sources s;
     ev_post_sources := ev_post_sources s; ev_exit_sources := ev_exit_sources s;
     ev_pending := ev_pending s; ev_state := ev_state s; ev_children := ev_children s;
     ev_pidfd := ev_pidfd s; ev_timerfd := ev_timerfd s; ev_signal := ev_signal s;
     ev_timer := ev_timer s; ev_inotify := ev_inotify s; ev_env := ev_env s |}.
Definition set_ev_defer_sources (v : gmap Z Src) (s : Events Src E) : Events Src E :=
  {| ev_exit := ev_exit s; ev_sources := ev_sources s; ev_defer_sources := v;
     ev_post_sources := ev_post_sources s; ev_exit_sources := ev_exit_sources s;
     ev_pending := ev_pending s; ev_state := ev_state s; ev_children := ev_children s;
     ev_pidfd := ev_pidfd s; ev_timerfd := ev_timerfd s; ev_signal := ev_signal s;
     ev_timer := ev_timer s; ev_inotify := ev_inotify s; ev_env := ev_env s |}.
Definition set_ev_post_sources (v : gmap Z Src) (s : Events Src E) : Events Src E :=
  {| ev_exit := ev_exit s; ev_sources := ev_sources s; ev_defer_sources := ev_defer_sources s;
     ev_post_sources := v; ev_exit_sources := ev_exit_sources s; ev_pending := ev_pending s;
     ev_state := ev_state s; ev_children := ev_children s; ev_pidfd := ev_pidfd s;
     ev_timerfd := ev_timerfd s; ev_signal := ev_signal s; ev_timer := ev_timer s;
     ev_inotify := ev_inotify s; ev_env := ev_env s |}.
Definition set_ev_exit_sources (v : gmap Z Src) (s : Events Src E) : Events Src E :=
  {| ev_exit := ev_exit s; ev_sources := ev_sources s; ev_defer_sources := ev_defer_sources s;
     ev_post_sources := ev_post_sources s; ev_exit_sources := v; ev_pending := ev_pending s;
     ev_state := ev_state s; ev_children := ev_children s; ev_pidfd := ev_pidfd s;
     ev_timerfd := ev_timerfd s; ev_signal := ev_signal s; ev_timer := ev_timer s;
     ev_inotify := ev_inotify s; ev_env := ev_env s |}.
Definition set_ev_pending (v : list Src) (s : Events Src E) : Events Src E :=
  {| ev_exit := ev_exit s; ev_sources := ev_sources s; ev_defer_sources := ev_defer_sources s;
     ev_post_sources := ev_post_sources s; ev_exit_sources := ev_exit_sources s;
     ev_pending := v; ev_state := ev_state s; ev_children := ev_children s;
     ev_pidfd := ev_pidfd s; ev_timerfd := ev_timerfd s; ev_signal := ev_signal s;
     ev_timer := ev_timer s; ev_inotify := ev_inotify s; ev_env := ev_env s |}.
Definition set_ev_state (v : gmap Z EventState) (s : Events Src E) : Events Src E :=
  {| ev_exit := ev_exit s; ev_sources := ev_sources s; ev_defer_sources := ev_defer_sources s;
     ev_post_sources := ev_post_sources s; ev_exit_sources := ev_exit_sources s;
     ev_pending := ev_pending s; ev_state := v; ev_children := ev_children s;
     ev_pidfd := ev_pidfd s; ev_timerfd := ev_timerfd s; ev_signal := ev_signal s;
     ev_timer := ev_timer s; ev_inotify := ev_inotify s; ev_env := ev_env s |}.
Definition set_ev_children (v : gmap Z Z) (s : Events Src E) : Events Src E :=
  {| ev_exit := ev_exit s; ev_sources := ev_sources s; ev_defer_sources := ev_defer_sources s;
     ev_post_sources := ev_post_sources s; ev_exit_sources := ev_exit_sources s;
     ev_pending := ev_pending s; ev_state := ev_state s; ev_children := v;
     ev_pidfd := ev_pidfd s; ev_timerfd := ev_timerfd s; ev_signal := ev_signal s;
     ev_timer := ev_timer s; ev_inotify := ev_inotify s; ev_env := ev_env s |}.
Definition set_ev_pidfd (v : Z) (s : Events Src E) : Events Src E :=
  {| ev_exit := ev_exit s; ev_sources := ev_sources s; ev_defer_sources := ev_defer_sources s;
     ev_post_sources := ev_post_sources s; ev_exit_sources := ev_exit_sources s;
     ev_pending := ev_pending s; ev_state := ev_state s; ev_children := ev_children s;
     ev_pidfd := v; ev_timerfd := ev_timerfd s; ev_signal := ev_signal s;
     ev_timer := ev_timer s; ev_inotify := ev_inotify s; ev_env := ev_env s |}.
Definition set_ev_timerfd (v : gmap EventType Z) (s : Events Src E) : Events Src E :=
  {| ev_exit := ev_exit s; ev_sources := ev_sources s; ev_defer_sources := ev_defer_sources s;
     ev_post_sources := ev_post_sources s; ev_exit_sources := ev_exit_sources s;
     ev_pending := ev_pending s; ev_state := ev_state s; ev_children := ev_children s;
     ev_pidfd := ev_pidfd s; ev_timerfd := v; ev_signal := ev_signal s; ev_timer := ev_timer s;
     ev_inotify := ev_inotify s; ev_env := ev_env s |}.
Definition set_ev_signal (v : Signals) (s : Events Src E) : Events Src E :=
  {| ev_exit := ev_exit s; ev_sources := ev_sources s; ev_defer_sources := ev_defer_sources s;
     ev_post_sources := ev_post_sources s; ev_exit_sources := ev_exit_sources s;
     ev_pending := ev_pending s; ev_state := ev_state s; ev_children := ev_children s;
     ev_pidfd := ev_pidfd s; ev_timerfd := ev_timerfd s; ev_signal := v;
     ev_timer := ev_timer s; ev_inotify := ev_inotify s; ev_env := ev_env s |}.
Definition set_ev_timer (v : Timer Src) (s : Events Src E) : Events Src E :=
  {| ev_exit := ev_exit s; ev_sources := ev_sources s; ev_defer_sources := ev_defer_sources s;
     ev_post_sources := ev_post_sources s; ev_exit_sources := ev_exit_sources s;
     ev_pending := ev_pending s; ev_state := ev_state s; ev_children := ev_children s;
     ev_pidfd := ev_pidfd s; ev_timerfd := ev_timerfd s; ev_signal := ev_signal s;
     ev_timer := v; ev_inotify := ev_inotify s; ev_env := ev_env s |}.
Definition set_ev_inotify (v : Z) (s : Events Src E) : Events Src E :=
  {| ev_exit := ev_exit s; ev_sources := ev_sources s; ev_defer_sources := ev_defer_sources s;
     ev_post_sources := ev_post_sources s; ev_exit_sources := ev_exit_sources s;
     ev_pending := ev_pending s; ev_state := ev_state s; ev_children := ev_children s;
     ev_pidfd := ev_pidfd s; ev_timerfd := ev_timerfd s; ev_signal := ev_signal s;
     ev_timer := ev_timer s; ev_inotify := v; ev_env := ev_env s |}.
Definition set_ev_env (v : E) (s : Events Src E) : Events Src E :=
  {| ev_exit := ev_exit s; ev_sources := ev_sources s; ev_defer_sources := ev_defer_sources s;
     ev_post_sources := ev_post_sources s; ev_exit_sources := ev_exit_sources s;
     ev_pending := ev_pending s; ev_state := ev_state s; ev_children := ev_children s;
     ev_pidfd := ev_pidfd s; ev_timerfd := ev_timerfd s; ev_signal := ev_signal s;
     ev_timer := ev_timer s; ev_inotify := ev_inotify s; ev_env := v |}.
End setters.

Definition Events_new {Src E} (inotify : Z) (env : E) : Events Src E := {|
  ev_exit := false; ev_sources := ∅; ev_defer_sources := ∅; ev_post_sources := ∅;
  ev_exit_sources := ∅; ev_pending := []; ev_state := ∅; ev_children := ∅; ev_pidfd := 0;
  ev_timerfd := ∅; ev_signal := Signals_new; ev_timer := Timer_new; ev_inotify := inotify;
  ev_env := env |}.

(** The system calls: epoll ([poll.rs] is not part of the repository), the clocks,
    [timerfd], [pidfd_open], [signalfd] and [pthread_sigmask].  The errors of a
    [read] are its [errno]. *)
Class EventSys (E : Type) : Type := {
  ep_register : Z → Z → Z → E → E * Result unit Error;       (* fd, events, token *)
  ep_unregister : Z → E → E * Result unit Error;
  ep_poll : Z → E → E * Result (list Z) Error;               (* the tokens *)
  os_clock : Clock → E → E * (Z * Z);
  os_timerfd_create : Clock → E → E * Z;
  os_timerfd_settime : Z → Z * Z → E → E;
  os_read : Z → E → E * Result unit Z;
  os_pidfd_open : Z → E → E * Z;
  os_sigmask : gset Z → E → E;
  os_signalfd : gset Z → E → E * Z;
}.
Definition EAGAIN : Z := 11.
Definition EINTR : Z := 4.

(** What the loop does runs over the store of the events. *)
Abbreviation Ev Src E A := (M (Events Src E) A).

(** [trait Source].  The type, the token and the priority of a source do not
    change; the others may depend on its owner's state, which is in [E].
    [src_dispatch] may call the event loop again. *)
Class Source (Src E : Type) : Type := {
  src_event_type : Src → EventType;
  src_token : Src → Z;
  src_priority : Src → Z;
  src_fd : Src → E → Z;
  src_signals : Src → E → list Z;
  src_pid : Src → E → Z;
  src_time : Src → E → Z;
  src_time_relative : Src → E → Z;
  src_epoll_event : Src → E → Z;
  src_dispatch : Src → Ev Src E Z;
}.

Section events.
Context {Src E : Type} `{HB : !BinaryHeap} `{HS : !EventSys E} `{HR : !Source Src E}.
Implicit Types (src : Src) (et : EventType) (s : Events Src E).

(** A system call, and one whose error is returned with [?]. *)
Definition sys_do {A} (f : E → E * A) : Ev Src E A := λ s,
  let r := f (ev_env s) in Returned (set_ev_env r.1 s, r.2).
Definition sys_modify (f : E → E) : Ev Src E unit := mmodify (λ s, set_ev_env (f (ev_env s)) s).
Definition sys_ask {A} (f : E → A) : Ev Src E A := mgets (λ s, f (ev_env s)).
Definition timer_modify (f : Timer Src → Timer Src) : Ev Src E unit :=
  mmodify (λ s, set_ev_timer (f (ev_timer s)) s).

(** ** [Timer] *)
Definition timer_now : Ev Src E unit :=
  realtime ← sys_do (os_clock CLOCK_REALTIME);
  monotonic ← sys_do (os_clock CLOCK_MONOTONIC);
  boottime ← sys_do (os_clock CLOCK_BOOTTIME);
  timer_modify (set_timestamp {| ts_realtime := load_nsec realtime;
    ts_monotonic := load_nsec monotonic; ts_boottime := load_nsec boottime |}).

Definition timerid et : Ev Src E Z :=
  timer_now;;
  s ← mget;
  munwrap (timestamp_of (timestamp (ev_timer s)) et).

Definition inner_of s et : list (ClockData Src) := default [] (timer_set (ev_timer s) !! et).
Definition timer_next et : Ev Src E (option Z) :=
  s ← mget; mret (cd_next <$> heap_peek cd_next (inner_of s et)).
Definition timer_is_empty et : Ev Src E bool := s ← mget; mret (bool_decide (inner_of s et = [])).

Definition set_inner et (l : list (ClockData Src)) : Ev Src E unit :=
  timer_modify (λ t, set_timer_set (<[et:=l]> (timer_set t)) t).

Definition timer_push src : Ev Src E unit :=
  relative ← sys_ask (src_time_relative src);
  next ← (if negb (relative =? u64_max) then
            now ← timerid (src_event_type src); mret (wrap_u64 (relative + now))
          else sys_ask (src_time src));
  massert (negb (next =? u64_max));;
  s ← mget;
  set_inner (src_event_type src)
    ({| cd_source := src; cd_next := next |} :: inner_of s (src_event_type src)).

(** [TimerInner::pop] *)
Definition inner_pop (next : Z) (l : list (ClockData Src))
    : option (ClockData Src * list (ClockData Src)) :=
  '(cd, l') ← heap_pop cd_next l;
  if cd_next cd <=? next then Some (cd, l') else None.

Definition timer_pop et : Ev Src E (option Src) :=
  next ← timerid et;
  s ← mget;
  match timer_set (ev_timer s) !! et with
  | Some timer =>
    if bool_decide (timer = []) then
      timer_modify (λ t, set_timer_set (delete et (timer_set t)) t);; mret None
    else match inner_pop next timer with
    | Some (cd, timer') => set_inner et timer';; mret (Some (cd_source cd))
    | None => mret None
    end
  | None => mret None
  end.

(** [TimerInner::remove]: sources are compared by [cmp], that is by priority. *)
Definition inner_remove src (l : list (ClockData Src)) : list (ClockData Src) :=
  filter (λ cd, src_priority (cd_source cd) ≠ src_priority src) l.
Definition timer_remove et src : Ev Src E unit :=
  timer_modify (λ t, set_timer_set (alter (inner_remove src) et (timer_set t)) t).

(** ** [EventsData] *)

(** How the sources of a type are treated. *)
Inductive EventClass := ClassListed | ClassDefer | ClassPost | ClassExit | ClassTimer | ClassWatchdog.
Definition event_class et : EventClass :=
  match et with
  | EvIo | EvPidfd | EvSignal | EvChild | EvInotify => ClassListed
  | EvDefer => ClassDefer
  | EvPost => ClassPost
  | EvExit => ClassExit
  | TimerRealtime | TimerBoottime | TimerMonotonic | TimerRealtimeAlarm | TimerBoottimeAlarm =>
    ClassTimer
  | EvWatchdog => ClassWatchdog
  end.

Definition pending_push src : Ev Src E unit := mmodify (λ s, set_ev_pending (src :: ev_pending s) s).
Definition pending_pop : Ev Src E (option Src) :=
  s ← mget;
  match heap_pop src_priority (ev_pending s) with
  | Some (top, rest) => mmodify (set_ev_pending rest);; mret (Some top)
  | None => mret None
  end.
Definition pending_is_empty : Ev Src E bool := s ← mget; mret (bool_decide (ev_pending s = [])).
Definition source_state src : Ev Src E (option EventState) :=
  s ← mget; mret (ev_state s !! src_token src).
Definition state_insert src (st : EventState) : Ev Src E unit :=
  mmodify (λ s, set_ev_state (<[src_token src:=st]> (ev_state s)) s).

Definition add_source src : Ev Src E (Result Z Error) :=
  let token := src_token src in
  match event_class (src_event_type src) with
  | ClassListed => mmodify (λ s, set_ev_sources (<[token:=src]> (ev_sources s)) s)
  | ClassDefer => mmodify (λ s, set_ev_defer_sources (<[token:=src]> (ev_defer_sources s)) s)
  | ClassPost => mmodify (λ s, set_ev_post_sources (<[token:=src]> (ev_post_sources s)) s)
  | ClassExit => mmodify (λ s, set_ev_exit_sources (<[token:=src]> (ev_exit_sources s)) s)
  | ClassTimer => mret tt
  | ClassWatchdog => mpanic
  end;;
  state_insert src Off;;
  mret (Ok 0).

(** [self.f()?] *)
Definition and_ok {A B} (m : Ev Src E (Result A Error)) (k : A → Ev Src E (Result B Error))
    : Ev Src E (Result B Error) :=
  r ← m; match r with Ok a => k a | Err e => mret (Err e) end.

Definition reset_sigset (signals : list Z) : Ev Src E unit :=
  s ← mget;
  let set := list_to_set signals ∪ sig_set (ev_signal s) in
  sys_modify (os_sigmask set);;
  fd ← sys_do (os_signalfd set);
  mmodify (set_ev_signal {| sig_set := set; sig_fd := fd |}).

Definition add_child (events token pid : Z) : Ev Src E unit :=
  pidfd ← sys_do (os_pidfd_open pid);
  mmodify (set_ev_pidfd pidfd);;
  sys_do (ep_register pidfd events token);;
  mmodify (λ s, set_ev_children (<[pid:=pidfd]> (ev_children s)) s).

(** [source_online]: the other types are [todo!()]. *)
Definition source_online src : Ev Src E (Result Z Error) :=
  let et := src_event_type src in
  let token := src_token src in
  events ← sys_ask (src_epoll_event src);
  match et with
  | EvIo | EvPidfd =>
    fd ← sys_ask (src_fd src);
    and_ok (sys_do (ep_register fd events token)) (λ _, mret (Ok 0))
  | EvSignal =>
    signals ← sys_ask (src_signals src);
    reset_sigset signals;;
    s ← mget;
    and_ok (sys_do (ep_register (sig_fd (ev_signal s)) events token)) (λ _, mret (Ok 0))
  | EvChild => pid ← sys_ask (src_pid src); add_child events token pid;; mret (Ok 0)
  | TimerRealtime | TimerBoottime | TimerMonotonic | TimerRealtimeAlarm | TimerBoottimeAlarm =>
    s ← mget;
    match ev_timerfd s !! et with
    | None =>
      clock ← munwrap (clockid et);
      fd ← sys_do (os_timerfd_create clock);
      mmodify (λ s, set_ev_timerfd (<[et:=fd]> (ev_timerfd s)) s);;
      and_ok (sys_do (ep_register fd events token)) (λ _, timer_push src;; mret (Ok 0))
    | Some _ => timer_push src;; mret (Ok 0)
    end
  | EvDefer => pending_push src;; mret (Ok 0)
  | EvInotify =>
    s ← mget; and_ok (sys_do (ep_register (ev_inotify s) events token)) (λ _, mret (Ok 0))
  | EvPost | EvExit | EvWatchdog => mpanic
  end.

Definition offline src : Ev Src E (Result Z Error) :=
  let et := src_event_type src in
  match et with
  | EvIo | EvPidfd =>
    fd ← sys_ask (src_fd src); and_ok (sys_do (ep_unregister fd)) (λ _, mret (Ok 0))
  | EvSignal =>
    s ← mget; and_ok (sys_do (ep_unregister (sig_fd (ev_signal s)))) (λ _, mret (Ok 0))
  | EvChild => s ← mget; and_ok (sys_do (ep_unregister (ev_pidfd s))) (λ _, mret (Ok 0))
  | TimerRealtime | TimerBoottime | TimerMonotonic | TimerRealtimeAlarm | TimerBoottimeAlarm =>
    timer_remove et src;;
    empty ← timer_is_empty et;
    if (empty : bool) then
      s ← mget;
      mmodify (λ s, set_ev_timerfd (delete et (ev_timerfd s)) s);;
      match ev_timerfd s !! et with
      | Some fd => and_ok (sys_do (ep_unregister fd)) (λ _, mret (Ok 0))
      | None => mret (Ok 0)
      end
    else mret (Ok 0)
  | EvInotify => s ← mget; and_ok (sys_do (ep_unregister (ev_inotify s))) (λ _, mret (Ok 0))
  | EvDefer => mret (Ok 0)
  | EvPost | EvExit | EvWatchdog => mpanic
  end.
Definition source_offline src : Ev Src E (Result Z Error) :=
  st ← source_state src;
  match st with
  | Some Off | None => mret (Ok 0)
  | Some _ => offline src
  end.

(** [remove(&token).ok_or(Error::Other)?] *)
Definition not_found : Error := ErrOther "item not found".
Definition del_source src : Ev Src E (Result Z Error) :=
  let token := src_token src in
  let drop (present : bool) (m : Ev Src E unit) :=
    m;; if present then mret (Ok 0) else mret (Err not_found) in
  and_ok (source_offline src) (λ _,
  s ← mget;
  and_ok (match event_class (src_event_type src) with
    | ClassListed => mmodify (λ s, set_ev_sources (delete token (ev_sources s)) s);; mret (Ok 0)
    | ClassDefer => drop (is_some (ev_defer_sources s !! token))
        (mmodify (λ s, set_ev_defer_sources (delete token (ev_defer_sources s)) s))
    | ClassPost => drop (is_some (ev_post_sources s !! token))
        (mmodify (λ s, set_ev_post_sources (delete token (ev_post_sources s)) s))
    | ClassExit => drop (is_some (ev_exit_sources s !! token))
        (mmodify (λ s, set_ev_exit_sources (delete token (ev_exit_sources s)) s))
    | ClassTimer => mret (Ok 0)
    | ClassWatchdog => mpanic
    end) (λ _ : Z,
  mmodify (λ s, set_ev_state (delete token (ev_state s)) s);;
  mret (Ok 0))).

Definition set_enabled src (state : EventState) : Ev Src E (Result Z Error) :=
  and_ok (match state with On | OneShot => source_online src | Off => source_offline src end)
    (λ _, state_insert src state;; mret (Ok 0)).

(** [flush_timer]: false if the read fails for good. *)
Definition flush_timer et : Ev Src E bool :=
  s ← mget;
  timer_fd ← munwrap (ev_timerfd s !! et);
  r ← sys_do (os_read timer_fd);
  mret (match r with Ok _ => true | Err err => (err =? EAGAIN) || (err =? EINTR) end).

(** [while let Some(source) = self.timer.pop(et) { self.pending_push(source) }] *)
Fixpoint drain_fuel (fuel : nat) et : Ev Src E unit :=
  match fuel with
  | O => mnofuel
  | Datatypes.S fuel' =>
    o ← timer_pop et;
    match o with
    | Some src => pending_push src;; drain_fuel fuel' et
    | None => mret tt
    end
  end.
(** Each turn takes a timer out of the heap. *)
Definition drain et : Ev Src E unit := s ← mget; drain_fuel (Datatypes.S (length (inner_of s et))) et.

Fixpoint wait_timers (ets : list EventType) : Ev Src E bool :=
  match ets with
  | [] => mret true
  | et :: ets' =>
    next ← timer_next et;
    match next with
    | Some next =>
      now ← timerid et;
      if next <=? now then
        ok ← flush_timer et;
        if negb ok then mret false else drain et;; wait_timers ets'
      else wait_timers ets'
    | None => wait_timers ets'
    end
  end.

Definition wait (timeout : Z) : Ev Src E bool :=
  r ← sys_do (ep_poll timeout);
  match r with
  | Err _ => mret false
  | Ok events =>
    mforeach (λ token,
      s ← mget;
      match ev_sources s !! token with Some src => pending_push src | None => mret tt end) events;;
    ok ← wait_timers timer_types;
    if negb ok then mret false else
    empty ← pending_is_empty;
    mret (negb empty || negb (bool_decide (events = [])))
  end.

Definition prepare : Ev Src E bool :=
  ret ← mfold (λ (ret : bool) et,
    timer_now;;
    next ← timer_next et;
    match next with
    | Some next =>
      now ← timerid et;
      if next <=? now then drain et;; mret true
      else
        s ← mget;
        fd ← munwrap (ev_timerfd s !! et);
        sys_modify (os_timerfd_settime fd (timer_stored next));;
        mret ret
    | None => mret ret
    end) false timer_types;
  empty ← pending_is_empty;
  if negb empty then wait 0 else mret ret.

(** ** [Events] *)
Definition dispatch : Ev Src E (Result Z Error) :=
  s ← mget;
  if ev_exit s then mret (Ok 0) else
  first ← pending_pop;
  match first with
  | None => mret (Ok 0)
  | Some top =>
    state ← source_state top;
    state ← munwrap state;
    match state with
    | Off => mret (Ok 0)
    | On =>
      src_dispatch top;;
      mwhen (bool_decide (src_event_type top = EvDefer)) (pending_push top);;
      mret (Ok 0)
    | OneShot =>
      and_ok (set_enabled top Off) (λ _, src_dispatch top;; mret (Ok 0))
    end
  end.

Definition run (timeout : Z) : Ev Src E (Result Z Error) :=
  s ← mget;
  if ev_exit s then mret (Ok 0) else
  ready ← prepare;
  (if negb ready then wait timeout;; mret tt else mret tt);;
  and_ok dispatch (λ _, mret (Ok 0)).

Definition set_exit : Ev Src E unit := mmodify (set_ev_exit true).

(** [rloop], for at most [turns] turns; [None] if it would go on. *)
Fixpoint rloop (turns : nat) : Ev Src E (option (Result Z Error)) :=
  match turns with
  | O => mret None
  | Datatypes.S turns' =>
    s ← mget;
    if ev_exit s then mret (Some (Ok 0)) else
    r ← run (-1);
    match r with Ok _ => rloop turns' | Err e => mret (Some (Err e)) end
  end.

Definition clear : Ev Src E unit :=
  mmodify (λ s, set_ev_sources ∅ (set_ev_defer_sources ∅ (set_ev_post_sources ∅
    (set_ev_exit_sources ∅ (set_ev_pending [] (set_ev_state ∅ (set_ev_children ∅
    (set_ev_timerfd ∅ s)))))))).
End events.
