(* ===== verification/EventFacts.v ===== *)
(** * Facts about the event loop

    That no enabled source and no timer is lost, that the most urgent source is
    dispatched first, which timers fire, and what the removal of a source breaks
    ([Event.v]). *)
From S2P Require Import Prelude UnitTypes UnitIf Event.
Local Open Scope Z_scope.

Section heap.
Context `{HB : !BinaryHeap} {A : Type} (key : A → Z).

Lemma heap_pop_spec l :
  match heap_pop key l with
  | Some (x, l') => l ≡ₚ x :: l' ∧ ∀ y, y ∈ l → key x ≤ key y
  | None => l = []
  end.
Proof.
  destruct l as [|x l]; [by rewrite heap_pop_nil|].
  destruct (heap_pop_some key x l) as (y & l' & -> & Hp & Hk). done.
Qed.
Lemma heap_peek_spec l :
  match heap_peek key l with
  | Some x => x ∈ l ∧ ∀ y, y ∈ l → key x ≤ key y
  | None => l = []
  end.
Proof.
  unfold heap_peek. pose proof (heap_pop_spec l) as Hs.
  destruct (heap_pop key l) as [[x l']|]; simpl; [|done]. destruct Hs as [Hp Hk].
  split; [|done]. rewrite Hp. by left.
Qed.
End heap.

Section events.
Context {Src E : Type} `{HB : !BinaryHeap} `{HS : !EventSys E} `{HR : !Source Src E}.
Implicit Types (src top : Src) (et : EventType) (s : Events Src E).

(** ** Timers *)

(** One look at the clocks. *)
Definition clocks (e : E) : E * Timestamp :=
  let r := os_clock CLOCK_REALTIME e in
  let m := os_clock CLOCK_MONOTONIC r.1 in
  let b := os_clock CLOCK_BOOTTIME m.1 in
  (b.1, {| ts_realtime := load_nsec r.2; ts_monotonic := load_nsec m.2; ts_boottime := load_nsec b.2 |}).
Definition ticked s : Events Src E :=
  set_ev_timer (set_timestamp (clocks (ev_env s)).2 (ev_timer s)) (set_ev_env (clocks (ev_env s)).1 s).
Lemma timer_now_eq s : timer_now s = Returned (ticked s, tt).
Proof. done. Qed.

Definition is_timer et : Prop := et ∈ timer_types.
(** The time a look at the clocks tells a timer of the type. *)
Definition told et (e : E) : Z := default 0 (timestamp_of (clocks e).2 et).
Lemma wp_timerid et s (Q : Events Src E → Z → Prop) :
  is_timer et → Q (ticked s) (told et (ev_env s)) → wp (timerid et) s Q.
Proof.
  intros Het HQ. unfold timerid. rewrite wp_bind. unfold wp at 1. rewrite timer_now_eq.
  rewrite wp_bind, wp_mget. unfold told in HQ. simpl.
  unfold is_timer, timer_types in Het. rewrite !elem_of_cons, elem_of_nil in Het.
  by destruct Het as [->|[->|[->|[->|[->|[]]]]]].
Qed.

(** The clocks do not go back. *)
Definition clock_forward : Prop := ∀ et (e : E), is_timer et → told et e ≤ told et (clocks e).1.

Lemma inner_pop_spec (next : Z) (l : list (ClockData Src)) :
  match inner_pop next l with
  | Some (cd, l') => l ≡ₚ cd :: l' ∧ cd_next cd ≤ next
  | None => ∀ cd, cd ∈ l → next < cd_next cd
  end.
Proof.
  unfold inner_pop. pose proof (heap_pop_spec cd_next l) as Hs.
  destruct (heap_pop cd_next l) as [[cd l']|]; simpl.
  - destruct Hs as [Hp Hk]. destruct (cd_next cd <=? next) eqn:Hle.
    + split; [done|]. by apply Z.leb_le.
    + intros y Hy. apply Z.leb_gt in Hle. specialize (Hk y Hy). lia.
  - subst l. intros cd Hcd. by inversion Hcd.
Qed.

(** A timer taken out, or none was due. *)
Lemma wp_timer_pop et s (Q : Events Src E → option Src → Prop) : is_timer et →
  (∀ s' cd l, inner_of s et ≡ₚ cd :: l → cd_next cd ≤ told et (ev_env s) →
     ev_env s' = (clocks (ev_env s)).1 → inner_of s' et = l → ev_pending s' = ev_pending s →
     Q s' (Some (cd_source cd))) →
  (∀ s', (∀ cd, cd ∈ inner_of s et → told et (ev_env s) < cd_next cd) →
     ev_env s' = (clocks (ev_env s)).1 → inner_of s' et = inner_of s et →
     ev_pending s' = ev_pending s → Q s' None) →
  wp (timer_pop et) s Q.
Proof.
  intros Het HS' HN. unfold timer_pop. rewrite wp_bind. apply wp_timerid; [done|].
  rewrite wp_bind, wp_mget. unfold inner_of in *. simpl.
  destruct (timer_set (ev_timer s) !! et) as [l|] eqn:Hl; simpl in *; last first.
  { rewrite wp_ret. apply HN; [|done| |done]; [intros cd Hcd; by inversion Hcd|by simpl; rewrite Hl]. }
  case_bool_decide as Hnil.
  { subst l. rewrite wp_bind. apply HN; [intros cd Hcd; by inversion Hcd|done| |done].
    simpl. by rewrite lookup_delete_eq. }
  pose proof (inner_pop_spec (told et (ev_env s)) l) as Hp.
  destruct (inner_pop _ l) as [[cd l']|].
  - destruct Hp as [Hp Hle]. rewrite wp_bind. eapply HS'; [done|done|done| |done].
    simpl. by rewrite lookup_insert_eq.
  - rewrite wp_ret. apply HN; [done|done| |done]. simpl. by rewrite Hl.
Qed.


(** ** Dispatching *)

(** The pending sources are known, as they are as long as none is deleted. *)
Definition all_known s : Prop := ∀ x, x ∈ ev_pending s → is_Some (ev_state s !! src_token x).

(** The callback of a source, with what follows it. *)
Definition dispatched top (st : EventState) : Ev Src E (Result Z Error) :=
  match st with
  | Off => mret (Ok 0)
  | On =>
    src_dispatch top;;
    mwhen (bool_decide (src_event_type top = EvDefer)) (pending_push top);;
    mret (Ok 0)
  | OneShot => and_ok (set_enabled top Off) (λ _, src_dispatch top;; mret (Ok 0))
  end.

Lemma dispatch_eq s : ev_exit s = false → ev_pending s ≠ [] → ∃ top rest,
  ev_pending s ≡ₚ top :: rest ∧ (∀ x, x ∈ ev_pending s → src_priority top ≤ src_priority x)
  ∧ dispatch s = (state ← munwrap (ev_state s !! src_token top); dispatched top state)
      (set_ev_pending rest s).
Proof.
  intros Hexit Hne. pose proof (heap_pop_spec src_priority (ev_pending s)) as Hp.
  unfold dispatch, pending_pop, source_state, mbind, M_bind, mget. rewrite Hexit.
  destruct (heap_pop src_priority (ev_pending s)) as [[top rest]|]; [|done].
  destruct Hp as [Hp Hle]. exists top, rest. done.
Qed.

(** C37: the most urgent source goes first, and a one-shot source goes once.  With
    known sources pending, [dispatch] takes one whose priority value is the least;
    it runs no callback if the source is off; it disables a one-shot source before
    its callback runs, so that the callback finds the source off and may enable it
    again; and it queues a deferred source that is on anew, after its callback. *)
Theorem dispatch_most_urgent s : ev_exit s = false → ev_pending s ≠ [] → all_known s →
  ∃ top rest st, ev_pending s ≡ₚ top :: rest
    ∧ (∀ x, x ∈ ev_pending s → src_priority top ≤ src_priority x)
    ∧ ev_state s !! src_token top = Some st
    ∧ dispatch s = dispatched top st (set_ev_pending rest s)
    ∧ (st = Off → dispatch s = Returned (set_ev_pending rest s, Ok 0))
    ∧ (st = OneShot → src_event_type top = EvDefer →
        dispatch s = (src_dispatch top;; mret (Ok 0))
          (set_ev_state (<[src_token top:=Off]> (ev_state s)) (set_ev_pending rest s))).
Proof.
  intros Hexit Hne Hk. destruct (dispatch_eq s Hexit Hne) as (top & rest & Hp & Hle & Hd).
  destruct (Hk top) as [st Hst]; [rewrite Hp; by left|].
  assert (dispatch s = dispatched top st (set_ev_pending rest s)) as Hd' by (rewrite Hd, Hst; done).
  exists top, rest, st. split_and!; try done.
  - intros ->. by rewrite Hd'.
  - intros -> Het. rewrite Hd'. unfold dispatched, set_enabled, source_offline, source_state, and_ok.
    unfold mbind, M_bind, mget. simpl. rewrite Hst. unfold offline. by rewrite Het.
Qed.

(** ** What the removal of a source leaves behind *)

Definition same_queue s s' : Prop := ev_pending s' = ev_pending s ∧ ev_exit s' = ev_exit s.
#[local] Instance same_queue_preorder : PreOrder same_queue.
Proof. split; [done|]. intros ? ? ? [] []. split; congruence. Qed.
Lemma keeps_sys_do {A} (R : Events Src E → Events Src E → Prop) (f : E → E * A) :
  (∀ s e, R s (set_ev_env e s)) → keeps R (sys_do f : Ev Src E A).
Proof. intros HR' s. apply HR'. Qed.
Lemma keeps_and_ok {A B} (R : Events Src E → Events Src E → Prop) `{!PreOrder R}
    (m : Ev Src E (Result A Error)) (k : A → Ev Src E (Result B Error)) :
  keeps R m → (∀ a, keeps R (k a)) → keeps R (and_ok m k).
Proof. intros Hm Hk. unfold and_ok. frame. Qed.

Lemma keeps_queue_offline src : keeps same_queue (source_offline src : Ev Src E _).
Proof.
  assert (∀ A (f : E → E * A), keeps same_queue (sys_do f)) as Hsys by (intros; by apply keeps_sys_do).
  assert (∀ f, (∀ s, same_queue s (f s)) → keeps same_queue (mmodify f : Ev Src E unit)) as Hmod
    by apply keeps_modify.
  unfold source_offline, offline, source_state, sys_ask, timer_remove, timer_modify, timer_is_empty.
  repeat first [apply Hsys | apply Hmod; done | apply keeps_and_ok; [apply _| |intros ?] | frame_step].
Qed.

(** A source that is deleted while it is pending takes the loop down.
    [del_source] forgets the state of the source but leaves it in the queue; when
    its turn comes, [dispatch] unwraps the state that is no longer there. *)
Theorem deleted_pending_panics src s s' : del_source src s = Returned (s', Ok 0) →
  ev_exit s = false → src ∈ ev_pending s →
  (∀ x, x ∈ ev_pending s → src_token x ≠ src_token src → src_priority src < src_priority x) →
  panics dispatch s'.
Proof.
  intros Hdel Hexit Hin Hprio.
  assert (same_queue s s' ∧ ev_state s' !! src_token src = None) as [[Hp He] Hst].
  { unfold del_source, and_ok, mbind, M_bind, mret, M_ret in Hdel.
    pose proof (keeps_queue_offline src s) as Hoff. unfold wtp in Hoff.
    destruct (source_offline src s) as [[s1 [x|e]]| |]; [|done..].
    destruct Hoff as [Hp1 He1]. unfold mget in Hdel.
    destruct (event_class (src_event_type src)); simpl in Hdel;
      try (case_bool_decide; simpl in Hdel); simplify_eq; unfold same_queue; simpl;
      by rewrite lookup_delete_eq. }
  rewrite <-Hp in Hin, Hprio. rewrite <-He in Hexit.
  destruct (dispatch_eq s' Hexit) as (top & rest & Hpm & Hle & Hd).
  { intros Hnil. rewrite Hnil in Hin. by inversion Hin. }
  assert (src_token top = src_token src) as Htop.
  { destruct (decide (src_token top = src_token src)) as [|Hne]; [done|].
    specialize (Hle src Hin). specialize (Hprio top). rewrite Hpm in Hprio.
    specialize (Hprio ltac:(by left) Hne). lia. }
  unfold panics. by rewrite Hd, Htop, Hst.
Qed.

(** Stopping one timer stops them all.  The timers are compared by their
    priority, so turning a timer off takes out every timer of its type and
    priority, whatever source it belongs to; the priority of a source is 0 unless
    it says otherwise. *)
Theorem timer_off_cancels_peers src s s' : is_timer (src_event_type src) →
  set_enabled src Off s = Returned (s', Ok 0) → ev_state s !! src_token src ≠ Some Off →
  is_Some (ev_state s !! src_token src) →
  inner_of s' (src_event_type src)
  = filter (λ cd, src_priority (cd_source cd) ≠ src_priority src) (inner_of s (src_event_type src)).
Proof.
  intros Het Hoff Hst Hsome.
  assert (wtp (offline src) s (λ s1 _, inner_of s1 (src_event_type src)
    = filter (λ cd, src_priority (cd_source cd) ≠ src_priority src) (inner_of s (src_event_type src)))) as Ho.
  { assert (∀ b : bool, wtp (if b then
        s ← mget; mmodify (λ s, set_ev_timerfd (delete (src_event_type src) (ev_timerfd s)) s);;
        match ev_timerfd s !! src_event_type src with
        | Some fd => and_ok (sys_do (ep_unregister fd)) (λ _, mret (Ok 0))
        | None => mret (Ok 0)
        end else mret (Ok 0))
      (set_ev_timer (set_timer_set (alter (inner_remove src) (src_event_type src)
        (timer_set (ev_timer s))) (ev_timer s)) s) (λ s1 (_ : Result Z Error), inner_of s1 (src_event_type src)
      = filter (λ cd, src_priority (cd_source cd) ≠ src_priority src) (inner_of s (src_event_type src)))) as Hb.
    { assert (default [] (alter (inner_remove src) (src_event_type src) (timer_set (ev_timer s))
        !! src_event_type src) = filter (λ cd, src_priority (cd_source cd) ≠ src_priority src)
          (inner_of s (src_event_type src))) as Heq.
      { unfold inner_of. rewrite lookup_alter_eq.
        by destruct (timer_set (ev_timer s) !! src_event_type src). }
      intros []; [|by apply wtp_ret]. apply wtp_bind, wtp_mget, wtp_bind, wtp_mmodify.
      case_match; [|by apply wtp_ret]. apply wtp_bind. unfold wtp at 1. simpl.
      destruct (ep_unregister _ _) as [e [[]|err]]; by apply wtp_ret. }
    unfold offline. unfold is_timer, timer_types in Het. rewrite !elem_of_cons, elem_of_nil in Het.
    destruct Het as [Het|[Het|[Het|[Het|[Het|[]]]]]]; rewrite Het in *;
      apply wtp_bind, wtp_mmodify, wtp_bind, wtp_bind, wtp_mget, wtp_ret, Hb. }
  unfold set_enabled, source_offline, source_state, state_insert, and_ok, mbind, M_bind, mget, mret,
    M_ret, mmodify in Hoff.
  destruct Hsome as [st Hs]. rewrite Hs in Hoff, Hst. unfold wtp in Ho.
  destruct st; [|done|]; (destruct (offline src s) as [[s1 [x|e]]| |]; simplify_eq; exact Ho).
Qed.

(** ** The invariant of the loop *)

(** Every type with waiting timers has its timer descriptor. *)
Definition timed s : Prop := ∀ et, inner_of s et ≠ [] → is_Some (ev_timerfd s !! et).
(** A deferred source that is to run once is pending. *)
Definition deferred_pending s : Prop := ∀ src, src_event_type src = EvDefer →
  ev_state s !! src_token src = Some OneShot → src ∈ ev_pending s.
Definition loop_ok s : Prop := timed s ∧ deferred_pending s.

(** What gathering the pending sources changes. *)
Record gathers s s' : Prop := {
  ga_state : ev_state s' = ev_state s;
  ga_fds : ev_timerfd s' = ev_timerfd s;
  ga_exit : ev_exit s' = ev_exit s;
  ga_pending : ∀ x, x ∈ ev_pending s → x ∈ ev_pending s';
  ga_timers : ∀ et, inner_of s et = [] → inner_of s' et = [];
}.
#[local] Instance gathers_preorder : PreOrder gathers.
Proof.
  split; [done|]. intros s1 s2 s3 [] []. split; try congruence; auto.
Qed.
Lemma gathers_timed s s' : gathers s s' → timed s → timed s'.
Proof.
  intros [_ Hf _ _ Ht] Hs et Hne. rewrite Hf. apply Hs. intros Hnil. by apply Hne, Ht.
Qed.
Lemma gathers_ok s s' : gathers s s' → loop_ok s → loop_ok s'.
Proof.
  intros Hg [Ht Hd]. split; [by eapply gathers_timed|]. intros src Het Hst.
  apply (ga_pending _ _ Hg), Hd; [done|]. by rewrite <-(ga_state _ _ Hg).
Qed.

Lemma wp_timer_pop_gathers et s : is_timer et →
  wp (timer_pop et) s (λ s' o, gathers s s'
    ∧ match o with
      | Some _ => (length (inner_of s' et) < length (inner_of s et))%nat
      | None => True
      end).
Proof.
  intros Het. unfold timer_pop. rewrite wp_bind. apply wp_timerid; [done|].
  rewrite wp_bind, wp_mget. unfold inner_of. simpl.
  destruct (timer_set (ev_timer s) !! et) as [l|] eqn:Hl; [|by rewrite wp_ret].
  case_bool_decide as Hnil.
  { subst l. rewrite wp_bind. apply wp_mmodify. split; [|done]. split; try done.
    intros et'. unfold inner_of. simpl. destruct (decide (et = et')) as [->|];
      [by rewrite lookup_delete_eq|by rewrite lookup_delete_ne]. }
  pose proof (inner_pop_spec (told et (ev_env s)) l) as Hp.
  destruct (inner_pop _ l) as [[cd l']|]; [|by rewrite wp_ret].
  destruct Hp as [Hp _]. rewrite wp_bind. apply wp_mmodify. rewrite wp_ret. simpl.
  rewrite lookup_insert_eq. simpl. split; [|apply Permutation_length in Hp; simpl in Hp; lia].
  split; try done. intros et'. unfold inner_of. simpl. destruct (decide (et = et')) as [->|];
    [rewrite Hl, lookup_insert_eq|by rewrite lookup_insert_ne]. simpl. by intros ->.
Qed.
Lemma wp_drain et s : is_timer et → wp (drain et) s (λ s' _, gathers s s').
Proof.
  intros Het. unfold drain. rewrite wp_bind, wp_mget.
  assert (∀ n s, (length (inner_of s et) < n)%nat → wp (drain_fuel n et) s (λ s' _, gathers s s'))
    as Hgen; [|apply Hgen; lia].
  clear s. induction n as [|n IH]; intros s Hn; [lia|]. cbn [drain_fuel]. rewrite wp_bind.
  eapply wp_mono; [by apply wp_timer_pop_gathers|]. intros s1 [src|] [H1 Hlen]; [|by rewrite wp_ret].
  rewrite wp_bind. apply wp_mmodify. eapply wp_mono; [apply IH; unfold inner_of in *; simpl in *; lia|].
  intros s2 [] H2. trans s1; [done|]. trans (set_ev_pending (src :: ev_pending s1) s1); [|done].
  split; try done. intros x Hx. by right.
Qed.

Lemma wp_sys_do {A} (f : E → E * A) s (Q : Events Src E → A → Prop) :
  wp (sys_do f) s Q ↔ Q (set_ev_env (f (ev_env s)).1 s) (f (ev_env s)).2.
Proof. done. Qed.
Lemma wp_timer_next et s (Q : Events Src E → option Z → Prop) :
  (inner_of s et ≠ [] → ∀ n, Q s (Some n)) → (inner_of s et = [] → Q s None) → wp (timer_next et) s Q.
Proof.
  intros HS' HN. unfold timer_next. rewrite wp_bind, wp_mget, wp_ret.
  pose proof (heap_peek_spec cd_next (inner_of s et)) as Hp.
  destruct (heap_peek cd_next (inner_of s et)) as [cd|]; simpl; [|by apply HN].
  apply HS'. intros Hnil. rewrite Hnil in Hp. destruct Hp as [Hin _]. by inversion Hin.
Qed.

Lemma wp_wait_timers ets s : (∀ et, et ∈ ets → is_timer et) → timed s →
  wp (wait_timers ets) s (λ s' _, gathers s s').
Proof.
  revert s. induction ets as [|et ets IH]; intros s Hets Ht; simpl; [by rewrite wp_ret|].
  assert (is_timer et) as Het by (apply Hets; by left).
  assert (∀ s1, gathers s s1 → wp (wait_timers ets) s1 (λ s' _, gathers s s')) as Hrest.
  { intros s1 H1. eapply wp_mono; [apply IH; [intros; apply Hets; by right|by eapply gathers_timed]|].
    intros s2 b H2. by trans s1. }
  rewrite wp_bind. apply wp_timer_next; [|intros _; by apply Hrest].
  intros Hne next. rewrite wp_bind. apply wp_timerid; [done|]. case_match; [|by apply Hrest].
  unfold flush_timer. rewrite !wp_bind, wp_mget, wp_bind, wp_munwrap.
  destruct (Ht et Hne) as [fd Hfd]. exists fd. split; [done|]. rewrite wp_bind.
  assert (∀ s1 (b : bool), gathers s s1 → wp (if negb b then mret false else drain et;; wait_timers ets) s1
    (λ s' _, gathers s s')) as Hd.
  { intros s1 [] H1; simpl; [|by rewrite wp_ret]. rewrite wp_bind. eapply wp_mono; [by apply wp_drain|].
    intros s2 [] H2. apply Hrest. by trans s1. }
  rewrite wp_sys_do. by apply Hd.
Qed.

Lemma wp_wait timeout s : timed s → wp (wait timeout) s (λ s' _, gathers s s').
Proof.
  intros Ht. unfold wait. rewrite wp_bind, wp_sys_do.
  destruct (ep_poll timeout (ev_env s)) as [e [tokens|err]]; cbn [fst snd]; [|by rewrite wp_ret].
  rewrite wp_bind. set (s0 := set_ev_env e s).
  apply (wp_mforeach (λ _ s', gathers s s')); [done| |].
  - intros dn tok rest s1 _ H1. rewrite wp_bind, wp_mget. case_match; [|by rewrite wp_ret].
    apply wp_mmodify. trans s1; [done|]. split; try done. intros x Hx. by right.
  - intros s1 H1. rewrite wp_bind. eapply wp_mono; [apply wp_wait_timers|].
    + done.
    + by eapply gathers_timed.
    + intros s2 [] H2; simpl; [|rewrite wp_ret; by trans s1].
      unfold pending_is_empty. rewrite !wp_bind, wp_mget, !wp_ret. by trans s1.
Qed.

Lemma wp_prepare s : timed s → wp prepare s (λ s' _, gathers s s').
Proof.
  intros Ht. unfold prepare. rewrite wp_bind.
  apply (wp_mfold (λ _ s' (_ : bool), gathers s s')); [done| |].
  - intros dn et rest s1 b Hl H1. assert (timed s1) as Ht1 by by eapply gathers_timed.
    assert (is_timer et) as Het.
    { unfold is_timer. rewrite Hl. apply elem_of_app. right. by left. }
    rewrite wp_bind. unfold wp at 1. rewrite timer_now_eq.
    assert (gathers s (ticked s1)) as H2 by (trans s1; done).
    assert (timed (ticked s1)) as Ht2 by by eapply gathers_timed.
    rewrite wp_bind. apply wp_timer_next; [|intros _; by rewrite wp_ret].
    intros Hne next. rewrite wp_bind. apply wp_timerid; [done|]. case_match.
    + rewrite wp_bind. eapply wp_mono; [by apply wp_drain|]. intros s3 [] H3. rewrite wp_ret.
      trans (ticked (ticked s1)); [|done]. by trans (ticked s1).
    + rewrite wp_bind, wp_mget, wp_bind, wp_munwrap. destruct (Ht2 et Hne) as [fd Hfd].
      exists fd. split; [done|]. rewrite wp_bind. apply wp_mmodify. rewrite wp_ret.
      by trans (ticked s1).
  - intros s1 b H1. unfold pending_is_empty. rewrite !wp_bind, wp_mget, wp_ret.
    case_match; [|by rewrite wp_ret]. eapply wp_mono; [apply wp_wait; by eapply gathers_timed|].
    intros s2 b2 H2. by trans s1.
Qed.

(** Turning a source on or off, up to its state. *)
Record turns s s' : Prop := {
  tu_timed : timed s';
  tu_state : ev_state s' = ev_state s;
  tu_pending : ∀ x, x ∈ ev_pending s → x ∈ ev_pending s';
}.
Lemma gathers_turns s s' : timed s → gathers s s' → turns s s'.
Proof. intros Ht Hg. split; [by eapply gathers_timed|apply Hg..]. Qed.

Lemma wtp_sys_do {A} (f : E → E * A) s (Q : Events Src E → A → Prop) :
  wtp (sys_do f) s Q ↔ Q (set_ev_env (f (ev_env s)).1 s) (f (ev_env s)).2.
Proof. done. Qed.
(** A system call whose error is passed on. *)
Lemma wtp_sys_ok (f : E → E * Result unit Error) (k : Ev Src E (Result Z Error)) s
    (Q : Events Src E → Result Z Error → Prop) :
  (∀ e err, Q (set_ev_env e s) (Err err)) → (∀ e, wtp k (set_ev_env e s) Q) →
  wtp (and_ok (sys_do f) (λ _, k)) s Q.
Proof.
  intros HE Hk. unfold and_ok. apply wtp_bind, wtp_sys_do.
  destruct (f (ev_env s)) as [e [[]|err]]; [apply Hk|apply HE].
Qed.

Lemma wtp_timer_push src s : is_timer (src_event_type src) →
  (∀ et, et ≠ src_event_type src → inner_of s et ≠ [] → is_Some (ev_timerfd s !! et)) →
  is_Some (ev_timerfd s !! src_event_type src) → wtp (timer_push src) s (λ s' _, turns s s').
Proof.
  intros Het Ht Hfd. unfold timer_push.
  assert (∀ s1 next, ev_timerfd s1 = ev_timerfd s → ev_state s1 = ev_state s →
    ev_pending s1 = ev_pending s → timer_set (ev_timer s1) = timer_set (ev_timer s) →
    wtp (massert (negb (next =? u64_max));; s ← mget; set_inner (src_event_type src)
      ({| cd_source := src; cd_next := next |} :: inner_of s (src_event_type src))) s1 (λ s' _, turns s s'))
    as Hpush.
  { intros s1 next Hf Hst Hp Hts. apply wtp_bind, wtp_massert. intros _. apply wtp_bind, wtp_mget, wtp_mmodify.
    split; simpl; [|done|by rewrite Hp].
    intros et Hne. simpl. rewrite Hf. unfold inner_of in *. simpl in Hne.
    destruct (decide (src_event_type src = et)) as [<-|Hn]; [done|].
    rewrite lookup_insert_ne, Hts in Hne by done. by apply Ht. }
  apply wtp_bind, wtp_mgets. apply wtp_bind. case_match; [|by apply wtp_mgets, Hpush].
  apply wtp_bind, wtp_of_wp, wp_timerid; [done|]. by apply wtp_ret, Hpush.
Qed.

Lemma wtp_source_online src s : timed s → wtp (source_online src) s (λ s' r, turns s s'
  ∧ (src_event_type src = EvDefer → src ∈ ev_pending s')).
Proof.
  intros Ht. unfold source_online. apply wtp_bind, wtp_mgets.
  assert (∀ s', gathers s s' → src_event_type src ≠ EvDefer →
    turns s s' ∧ (src_event_type src = EvDefer → src ∈ ev_pending s')) as Hg.
  { intros s' H' ?. split; [by apply gathers_turns|done]. }
  assert (∀ events, is_timer (src_event_type src) →
    wtp (s ← mget;
      match ev_timerfd s !! src_event_type src with
      | None =>
        clock ← munwrap (clockid (src_event_type src));
        fd ← sys_do (os_timerfd_create clock);
        mmodify (λ s, set_ev_timerfd (<[src_event_type src:=fd]> (ev_timerfd s)) s);;
        and_ok (sys_do (ep_register fd events (src_token src))) (λ _, timer_push src;; mret (Ok 0))
      | Some _ => timer_push src;; mret (Ok 0)
      end) s (λ s' (r : Result Z Error), turns s s' ∧ (src_event_type src = EvDefer → src ∈ ev_pending s')))
    as Htimer.
  { intros events Het. assert (src_event_type src ≠ EvDefer) as Hnd.
    { intros Heq. rewrite Heq in Het. unfold is_timer, timer_types in Het. set_solver. }
    apply wtp_bind, wtp_mget. destruct (ev_timerfd s !! src_event_type src) as [fd|] eqn:Hfd.
    - apply wtp_bind. eapply wtp_mono; [apply wtp_timer_push; [done|by intros; apply Ht|eauto]|].
      intros s' [] H'. by apply wtp_ret.
    - apply wtp_bind, wtp_munwrap. intros clock _. apply wtp_bind, wtp_sys_do, wtp_bind, wtp_mmodify.
      apply wtp_sys_ok.
      + intros e err. split; [|done]. split; try done. intros et Hne. simpl.
        apply lookup_insert_is_Some'. right. by apply Ht.
      + intros e. apply wtp_bind. eapply wtp_mono; [apply wtp_timer_push; [done| |]|].
        * intros et Hn Hne. simpl. rewrite lookup_insert_ne by done. by apply Ht.
        * simpl. rewrite lookup_insert_eq. eauto.
        * intros s' [] [Ht' Hst Hp]. apply wtp_ret. split; [|done]. by split. }
  destruct (src_event_type src) eqn:Het;
    try (apply Htimer; by apply (bool_decide_unpack _)); try done.
  - apply wtp_bind, wtp_mgets. apply wtp_sys_ok; intros; [|apply wtp_ret]; by apply Hg.
  - apply wtp_bind, wtp_mgets, wtp_bind. unfold reset_sigset.
    apply wtp_bind, wtp_mget, wtp_bind, wtp_mmodify, wtp_bind, wtp_sys_do, wtp_mmodify, wtp_bind, wtp_mget.
    apply wtp_sys_ok; intros; [|apply wtp_ret]; by apply Hg.
  - apply wtp_bind, wtp_mgets. apply wtp_sys_ok; intros; [|apply wtp_ret]; by apply Hg.
  - apply wtp_bind, wtp_mget. apply wtp_sys_ok; intros; [|apply wtp_ret]; by apply Hg.
  - apply wtp_bind, wtp_mmodify, wtp_ret. split; [|intros _; by left].
    split; [done|done|]. intros x Hx. by right.
Qed.

Lemma wtp_unregister f s (Q : Events Src E → Result Z Error → Prop) :
  (∀ e r, Q (set_ev_env e s) r) → wtp (and_ok (sys_do f) (λ _ : unit, mret (Ok 0))) s Q.
Proof. intros HQ. apply wtp_sys_ok; intros; [|apply wtp_ret]; apply HQ. Qed.

Lemma wtp_offline src s : timed s → wtp (offline src) s (λ s' _, turns s s').
Proof.
  intros Ht. assert (turns s s) as Hs by done.
  assert (∀ e, turns s (set_ev_env e s)) as He by (intros; by split).
  assert (∀ et, wtp (timer_remove et src;; empty ← timer_is_empty et;
    if (empty : bool) then
      s ← mget;
      mmodify (λ s, set_ev_timerfd (delete et (ev_timerfd s)) s);;
      match ev_timerfd s !! et with
      | Some fd => and_ok (sys_do (ep_unregister fd)) (λ _, mret (Ok 0))
      | None => mret (Ok 0)
      end
    else mret (Ok 0)) s (λ s' (_ : Result Z Error), turns s s')) as Htimer.
  { intros et. apply wtp_bind, wtp_mmodify, wtp_bind, wtp_bind, wtp_mget, wtp_ret.
    set (s1 := set_ev_timer _ s).
    assert (∀ et', inner_of s1 et' ≠ [] → inner_of s et' ≠ []) as Hin.
    { intros et'. unfold inner_of, s1. simpl. destruct (decide (et = et')) as [<-|];
        [rewrite lookup_alter_eq|by rewrite lookup_alter_ne].
      destruct (timer_set (ev_timer s) !! et) as [[]|]; done. }
    assert (timed s1) as Ht1 by (intros et' Hne; by apply Ht, Hin).
    assert (turns s s1) as Hs1 by by split.
    case_bool_decide as Hnil; [|by apply wtp_ret].
    apply wtp_bind, wtp_mget, wtp_bind, wtp_mmodify.
    assert (∀ e, turns s (set_ev_env e (set_ev_timerfd (delete et (ev_timerfd s1)) s1))) as Hd.
    { intros e. split; [|done|done]. intros et' Hne. simpl.
      assert (et ≠ et') by (intros <-; done). rewrite lookup_delete_ne by done. by apply Ht1. }
    case_match; [apply wtp_unregister; intros; apply Hd|apply wtp_ret, Hd]. }
  unfold offline. destruct (src_event_type src) eqn:Het; try apply Htimer; try done.
  all: apply wtp_bind, wtp_mgets, wtp_unregister || apply wtp_bind, wtp_mget, wtp_unregister; done.
Qed.

(** A source is told from the others by its token. *)
Context (token_inj : ∀ x y : Src, src_token x = src_token y → x = y).

Lemma turns_ok s s' : turns s s' → loop_ok s → loop_ok s'.
Proof.
  intros [Ht Hst Hp] [_ Hd]. split; [done|]. intros src Het Hone. apply Hp, Hd; [done|].
  by rewrite <-Hst.
Qed.

(** The invariant, when one source is excused. *)
Definition deferred_but top s : Prop := ∀ src, src_event_type src = EvDefer → src ≠ top →
  ev_state s !! src_token src = Some OneShot → src ∈ ev_pending s.
Lemma deferred_but_ok top s : deferred_but top s →
  (src_event_type top = EvDefer → ev_state s !! src_token top = Some OneShot → top ∈ ev_pending s) →
  deferred_pending s.
Proof.
  intros Hb Ht src Het Hst. destruct (decide (src_token src = src_token top)) as [Heq|Hne].
  - apply token_inj in Heq as ->. by apply Ht.
  - apply Hb; [done| |done]. by intros ->.
Qed.
Lemma turns_but top s s' : turns s s' → deferred_but top s → deferred_but top s'.
Proof.
  intros [_ Hst Hp] Hb src Het Hne Hone. apply Hp, Hb; [done..|]. by rewrite <-Hst.
Qed.
(** The state of a source changes. *)
Lemma state_insert_ok top st s : timed s → deferred_but top s →
  (src_event_type top = EvDefer → st = OneShot → top ∈ ev_pending s) →
  wtp (state_insert top st) s (λ s' _, loop_ok s').
Proof.
  intros Ht Hb Htop. apply wtp_mmodify. split; [exact Ht|].
  apply (deferred_but_ok top).
  - intros src Het Hne. simpl. rewrite lookup_insert_ne; [by apply Hb|].
    intros Heq. by apply Hne, token_inj.
  - simpl. rewrite lookup_insert_eq. intros Het [= Hst]. by apply Htop.
Qed.
Lemma deferred_pending_but top s : deferred_pending s → deferred_but top s.
Proof. intros Hd src Het _. by apply Hd. Qed.

Lemma wtp_set_enabled src st s : timed s → deferred_but src s →
  wtp (set_enabled src st) s (λ s' _, loop_ok s').
Proof.
  intros Ht Hb. unfold set_enabled, and_ok. apply wtp_bind.
  assert (wtp match st with On | OneShot => source_online src | Off => source_offline src end s
    (λ s' r, turns s s' ∧ (src_event_type src = EvDefer →
      (∃ z, r = Ok z) ∧ (st = OneShot → src ∈ ev_pending s')))) as Hsw.
  { destruct (decide (src_event_type src = EvDefer)) as [Het|Hne].
    - assert (wtp (source_online src) s (λ s' r, turns s s' ∧ (src_event_type src = EvDefer →
        (∃ z, r = Ok z) ∧ (st = OneShot → src ∈ ev_pending s')))) as Hon.
      { unfold source_online. rewrite Het. apply wtp_bind, wtp_mgets, wtp_bind, wtp_mmodify, wtp_ret.
        split; [|intros _; split; [by eauto|by left]]. split; [done|done|]. intros x Hx. by right. }
      destruct st; [exact Hon| |exact Hon].
      unfold source_offline, source_state, offline. rewrite Het. apply wtp_bind, wtp_bind, wtp_mget, wtp_ret.
      assert (turns s s) by done.
      destruct (ev_state s !! src_token src) as [[]|]; apply wtp_ret; split; eauto; by split; [eauto|].
    - assert (∀ m : Ev Src E (Result Z Error), wtp m s (λ s' _, turns s s') →
        wtp m s (λ s' r, turns s s' ∧ (src_event_type src = EvDefer →
          (∃ z, r = Ok z) ∧ (st = OneShot → src ∈ ev_pending s')))) as Hw.
      { intros m Hm. eapply wtp_mono; [exact Hm|]. done. }
      apply Hw. destruct st.
      all: try (eapply wtp_mono; [by apply wtp_source_online|]; by intros s' r []).
      apply wtp_bind, wtp_bind, wtp_mget, wtp_ret.
      repeat case_match; try (by apply wtp_ret); by apply wtp_offline. }
  eapply wtp_mono; [exact Hsw|]. intros s1 [z|e] [Htu Hdf]; simpl.
  - apply wtp_bind. eapply wtp_mono; [apply state_insert_ok; [apply Htu|by eapply turns_but|]|].
    + intros Het Hst. by apply Hdf.
    + intros s2 [] H2. by apply wtp_ret.
  - apply wtp_ret. split; [apply Htu|]. apply (deferred_but_ok src); [by eapply turns_but|].
    intros Het. by destruct (Hdf Het) as [[z ?] _].
Qed.

Lemma wtp_add_source src s : loop_ok s → wtp (add_source src) s (λ s' _, loop_ok s').
Proof.
  intros [Ht Hd]. unfold add_source. apply wtp_bind.
  assert (∀ s1, timed s1 → deferred_pending s1 →
    wtp (state_insert src Off;; mret (Ok 0)) s1 (λ s' (_ : Result Z Error), loop_ok s')) as Hrest.
  { intros s1 Ht1 Hd1. apply wtp_bind. eapply wtp_mono.
    - by apply state_insert_ok; [|apply deferred_pending_but|].
    - intros s2 [] H2. by apply wtp_ret. }
  destruct (event_class (src_event_type src)); try done; (apply wtp_mmodify || apply wtp_ret);
    by apply Hrest.
Qed.

Lemma wtp_del_source src s : loop_ok s → wtp (del_source src) s (λ s' _, loop_ok s').
Proof.
  intros Hok. unfold del_source, and_ok. apply wtp_bind.
  assert (wtp (source_offline src) s (λ s' _, loop_ok s')) as Hoff.
  { unfold source_offline, source_state. apply wtp_bind, wtp_bind, wtp_mget, wtp_ret.
    assert (wtp (offline src) s (λ s' _, loop_ok s')) as H'.
    { eapply wtp_mono; [by apply wtp_offline; destruct Hok|]. intros s1 r H1. exact (turns_ok _ _ H1 Hok). }
    repeat case_match; try (by apply wtp_ret); done. }
  eapply wtp_mono; [exact Hoff|]. intros s1 [z|e] H1; [|by apply wtp_ret].
  apply wtp_bind, wtp_mget, wtp_bind.
  assert (∀ s2, loop_ok s2 → wtp (mmodify (λ s, set_ev_state (delete (src_token src) (ev_state s)) s);; mret (Ok 0)) s2
    (λ s' (_ : Result Z Error), loop_ok s')) as Hrest.
  { intros s2 [Ht Hd]. apply wtp_bind, wtp_mmodify, wtp_ret. split; [exact Ht|].
    intros x Het Hst. apply Hd; [done|]. simpl in Hst. by apply lookup_delete_Some in Hst as [_ ?]. }
  destruct (event_class (src_event_type src)); try done; try case_match;
    try (apply wtp_bind, wtp_mmodify); try case_match; try apply wtp_ret; by apply Hrest || apply wtp_ret.
Qed.

(** What the callbacks do to the loop, which they may call, keeps the invariant. *)
Context (callbacks_ok : ∀ (x : Src) s, loop_ok s → wtp (src_dispatch x) s (λ s' _, loop_ok s')).

Lemma wtp_dispatch s : loop_ok s → wtp dispatch s (λ s' _, loop_ok s').
Proof.
  intros Hok. unfold dispatch. apply wtp_bind, wtp_mget. case_match; [by apply wtp_ret|].
  unfold pending_pop. apply wtp_bind, wtp_bind, wtp_mget.
  pose proof (heap_pop_spec src_priority (ev_pending s)) as Hp.
  destruct (heap_pop src_priority (ev_pending s)) as [[top rest]|]; [|by apply wtp_ret, wtp_ret].
  destruct Hp as [Hp _], Hok as [Ht Hd].
  apply wtp_bind, wtp_mmodify, wtp_ret, wtp_bind, wtp_bind, wtp_mget, wtp_ret, wtp_bind, wtp_munwrap.
  intros st Hst. set (s1 := set_ev_pending rest s).
  assert (timed s1) as Ht1 by exact Ht.
  assert (deferred_but top s1) as Hb.
  { intros x Het Hne Hone. specialize (Hd x Het Hone). rewrite Hp in Hd.
    by apply elem_of_cons in Hd as [->|?]. }
  assert (st ≠ OneShot → loop_ok s1) as Hs1.
  { intros Hne. split; [done|]. apply (deferred_but_ok top); [done|]. intros _ Hone.
    simpl in Hst, Hone. congruence. }
  destruct st; [|by apply wtp_ret, Hs1|].
  - apply wtp_bind. eapply wtp_mono; [by apply callbacks_ok, Hs1|]. intros s2 z [Ht2 Hd2].
    apply wtp_bind. unfold mwhen. case_bool_decide; [apply wtp_mmodify|apply wtp_ret]; apply wtp_ret.
    + split; [exact Ht2|]. intros x Het Hone. right. by apply Hd2.
    + done.
  - unfold and_ok. apply wtp_bind. eapply wtp_mono; [by apply wtp_set_enabled|].
    intros s2 [z|e] H2; [|by apply wtp_ret]. apply wtp_bind.
    eapply wtp_mono; [by apply callbacks_ok|]. intros s3 z' H3. by apply wtp_ret.
Qed.

Lemma wtp_run timeout s : loop_ok s → wtp (run timeout) s (λ s' _, loop_ok s').
Proof.
  intros Hok. unfold run, and_ok. apply wtp_bind, wtp_mget. case_match; [by apply wtp_ret|].
  apply wtp_bind. eapply wtp_mono; [by apply wtp_of_wp, wp_prepare, Hok|]. intros s1 ready H1.
  pose proof (gathers_ok _ _ H1 Hok) as Hok1. apply wtp_bind.
  assert (∀ s2, loop_ok s2 → wtp (r ← dispatch; match r with Ok _ => mret (Ok 0) | Err e => mret (Err e) end)
    s2 (λ s' (_ : Result Z Error), loop_ok s')) as Hrest.
  { intros s2 H2. apply wtp_bind. eapply wtp_mono; [by apply wtp_dispatch|].
    intros s3 [z|e] H3; by apply wtp_ret. }
  destruct (negb ready); [|by apply wtp_ret, Hrest]. apply wtp_bind.
  eapply wtp_mono; [by apply wtp_of_wp, wp_wait, Hok1|]. intros s2 b H2.
  apply wtp_ret, Hrest, (gathers_ok _ _ H2 Hok1).
Qed.

(** C36: no one-shot deferred source is lost.  Adding, enabling, disabling and
    deleting sources and every turn of the loop keep two facts, whatever the
    epoll instance and the clocks say, provided the callbacks do: a deferred
    source that is enabled to run once is pending, and a type of timer that has
    timers waiting has its descriptor.  By the second, the first half of a turn,
    [prepare], always comes back; it keeps the facts too. *)
Theorem loop_keeps_deferred s : loop_ok s →
  wp prepare s (λ s' _, loop_ok s')
  ∧ (∀ src, wtp (add_source src) s (λ s' _, loop_ok s') ∧ wtp (del_source src) s (λ s' _, loop_ok s')
      ∧ ∀ st, wtp (set_enabled src st) s (λ s' _, loop_ok s'))
  ∧ (∀ timeout, wtp (run timeout) s (λ s' _, loop_ok s'))
  ∧ ∀ turns, wtp (rloop turns) s (λ s' _, loop_ok s').
Proof.
  intros Hok. split_and!.
  - eapply wp_mono; [by apply wp_prepare, Hok|]. intros s' b Hg. exact (gathers_ok _ _ Hg Hok).
  - intros src. split_and!; [by apply wtp_add_source|by apply wtp_del_source|].
    intros st. destruct Hok. by apply wtp_set_enabled, deferred_pending_but.
  - intros timeout. by apply wtp_run.
  - intros turns. revert s Hok. induction turns as [|n IH]; intros s Hok; simpl; [by apply wtp_ret|].
    apply wtp_bind, wtp_mget. case_match; [by apply wtp_ret|]. apply wtp_bind.
    eapply wtp_mono; [by apply wtp_run|]. intros s1 [z|e] H1; [by apply IH|by apply wtp_ret].
Qed.
End events.
