(* ===== verification/EventSample.v ===== *)
(** * The event loop, on a small system

    Four sources over a clock that stands still and an epoll instance that never
    has anything: what the theorems of [EventFacts.v] say of them. *)
From S2P Require Import Prelude UnitTypes UnitIf Event EventFacts.
Local Open Scope Z_scope.

(** A heap: the first of the least elements of a list. *)
Fixpoint least_pop {A} (key : A → Z) (l : list A) : option (A * list A) :=
  match l with
  | [] => None
  | x :: l =>
    match least_pop key l with
    | Some (y, rest) => if key x <=? key y then Some (x, l) else Some (y, x :: rest)
    | None => Some (x, l)
    end
  end.
Lemma least_pop_spec {A} (key : A → Z) l :
  match least_pop key l with
  | Some (y, rest) => l ≡ₚ y :: rest ∧ ∀ z, z ∈ l → key y ≤ key z
  | None => l = []
  end.
Proof.
  induction l as [|x l IH]; simpl; [done|]. destruct (least_pop key l) as [[y rest]|].
  - destruct IH as [Hp Hle]. destruct (key x <=? key y) eqn:Hxy.
    + apply Z.leb_le in Hxy. split; [done|]. intros z [->|Hz]%elem_of_cons; [done|].
      specialize (Hle z Hz). lia.
    + apply Z.leb_gt in Hxy. split; [by rewrite Hp, Permutation_swap|].
      intros z [->|Hz]%elem_of_cons; [lia|by apply Hle].
  - subst l. split; [done|]. intros z Hz%list_elem_of_singleton. subst. lia.
Qed.
#[local, refine] Instance sample_heap : BinaryHeap := {| heap_pop := @least_pop |}.
Proof.
  - done.
  - intros A key x l. pose proof (least_pop_spec key (x :: l)) as Hs.
    destruct (least_pop key (x :: l)) as [[y rest]|]; [|done]. eauto.
Defined.

(** The system is a clock, in seconds. *)
#[local] Instance sample_sys : EventSys Z := {|
  ep_register _ _ _ e := (e, Ok tt);
  ep_unregister _ e := (e, Ok tt);
  ep_poll _ e := (e, Ok []);
  os_clock _ e := (e, (e, 0));
  os_timerfd_create _ e := (e, 7);
  os_timerfd_settime _ _ e := e;
  os_read _ e := (e, Ok tt);
  os_pidfd_open _ e := (e, 9);
  os_sigmask _ e := e;
  os_signalfd _ e := (e, 8);
|}.

(** A deferred task, two timers and a socket; the callbacks do nothing. *)
Inductive sample_src := Task | Early | Late | Sock.
#[local] Instance sample_src_eq_dec : EqDecision sample_src.
Proof. solve_decision. Defined.
#[local] Instance sample_source : Source sample_src Z := {|
  src_event_type x := match x with Task => EvDefer | Early | Late => TimerMonotonic | Sock => EvIo end;
  src_token x := match x with Task => 1 | Early => 2 | Late => 3 | Sock => 4 end;
  src_priority x := match x with Task => -5 | _ => 0 end;
  src_fd _ _ := 5;
  src_signals _ _ := [];
  src_pid _ _ := 0;
  src_time x _ := match x with Early => 3000000 | Late => 9000000 | _ => u64_max end;
  src_time_relative _ _ := u64_max;
  src_epoll_event _ _ := 1;
  src_dispatch _ := mret 0;
|}.

Definition sample_run {A} (m : M (Events sample_src Z) A) (s : Events sample_src Z) : Events sample_src Z :=
  match m s with Returned (s', _) => s' | _ => s end.
(** Everything is enabled; the task and the socket are pending. *)
Definition sample_events : Events sample_src Z :=
  sample_run (add_source Task;; set_enabled Task OneShot;; add_source Early;; set_enabled Early OneShot;;
    add_source Late;; set_enabled Late OneShot;; add_source Sock;; set_enabled Sock On;; pending_push Sock)
  (Events_new 6 4).

Lemma sample_token_inj (x y : sample_src) : src_token x = src_token y → x = y.
Proof. by destruct x, y. Defined.
Lemma sample_known : all_known sample_events.
Proof.
  intros x Hx. assert (x = Sock ∨ x = Task) as [->| ->]; [|by eexists..].
  change (x ∈ [Sock; Task]) in Hx. set_solver.
Defined.
Lemma sample_ok : loop_ok sample_events.
Proof.
  split.
  - intros []; vm_compute; (done || by eexists).
  - intros []; vm_compute; try done. intros _ _. right. by left.
Defined.


Lemma dispatch_most_urgent_witness : ∃ top rest st, ev_pending sample_events ≡ₚ top :: rest
    ∧ (∀ x, x ∈ ev_pending sample_events → src_priority top ≤ src_priority x)
    ∧ ev_state sample_events !! src_token top = Some st
    ∧ dispatch sample_events = dispatched top st (set_ev_pending rest sample_events)
    ∧ (st = Off → dispatch sample_events = Returned (set_ev_pending rest sample_events, Ok 0))
    ∧ (st = OneShot → src_event_type top = EvDefer →
        dispatch sample_events = (src_dispatch top;; mret (Ok 0))
          (set_ev_state (<[src_token top:=Off]> (ev_state sample_events)) (set_ev_pending rest sample_events))).
Proof. apply (dispatch_most_urgent sample_events); [done|done|apply sample_known]. Defined.

Lemma deleted_pending_panics_witness : panics dispatch (sample_run (del_source Task) sample_events).
Proof.
  apply (deleted_pending_panics Task sample_events).
  - vm_compute. reflexivity.
  - vm_compute. reflexivity.
  - vm_compute. right. by left.
  - intros []; done.
Defined.

Lemma timer_off_cancels_peers_witness :
  inner_of (sample_run (set_enabled Early Off) sample_events) (src_event_type Early)
  = filter (λ cd, src_priority (cd_source cd) ≠ src_priority Early)
      (inner_of sample_events (src_event_type Early)).
Proof.
  apply (timer_off_cancels_peers Early sample_events).
  - unfold is_timer. by apply (bool_decide_unpack _).
  - vm_compute. reflexivity.
  - vm_compute. discriminate.
  - eexists. vm_compute. reflexivity.
Defined.

Lemma loop_keeps_deferred_witness : wtp (rloop 3) sample_events (λ s' _, loop_ok s').
Proof.
  assert (∀ (x : sample_src) s, loop_ok s → wtp (src_dispatch x) s (λ s' _, loop_ok s')) as Hcb.
  { intros x s Hs. by apply wtp_ret. }
  destruct (loop_keeps_deferred sample_token_inj Hcb sample_events sample_ok) as (_ & _ & _ & Hl).
  exact (Hl 3%nat).
Defined.
