(* ===== verification/EventIo.v ===== *)
(** * The event loop as the units see it

    The loop of [Event.v] keeps the promises of the interface [EventLaws]
    ([UnitIf.v]) for sources that are descriptors, as those of the socket units
    are. *)
From S2P Require Import Prelude UnitTypes UnitIf Event EventFacts.
Local Open Scope Z_scope.

Section io.
Context {Src E : Type} `{HS : !EventSys E} `{HR : !Source Src E}.
Implicit Types (x y : Src) (s : Events Src E).

(** The state of the others is left alone. *)
Definition state_only x (o : option EventState) s s' : Prop :=
  ev_state s' !! src_token x = o ∧ ∀ t, t ≠ src_token x → ev_state s' !! t = ev_state s !! t.

Lemma io_calls x s : src_event_type x = EvIo →
  wp (add_source x) s (λ s' r, r = Ok 0 ∧ state_only x (Some Off) s s' ∧ ev_pending s' = ev_pending s)
  ∧ (∀ st, wp (set_enabled x st) s (λ s' r, (is_ok r = true → state_only x (Some st) s s')
       ∧ (is_ok r = false → ev_state s' = ev_state s) ∧ ev_pending s' = ev_pending s))
  ∧ wp (del_source x) s (λ s' r, (is_ok r = true → state_only x None s s')
       ∧ (is_ok r = false → ev_state s' = ev_state s) ∧ ev_pending s' = ev_pending s).
Proof.
  intros Hio.
  assert (∀ st s0, state_only x (Some st) s0 (set_ev_state (<[src_token x:=st]> (ev_state s0)) s0)) as Hset.
  { intros st s0. split; simpl; [by rewrite lookup_insert_eq|]. intros t Ht. by rewrite lookup_insert_ne. }
  assert (wp (source_offline x) s (λ s' r, ev_state s' = ev_state s ∧ ev_pending s' = ev_pending s)) as Hoff.
  { unfold source_offline, source_state, offline. rewrite Hio, !wp_bind, wp_mget, wp_ret.
    destruct (ev_state s !! src_token x) as [[]|]; try (by rewrite wp_ret);
      rewrite wp_bind; unfold sys_ask; rewrite wp_mgets; unfold and_ok; rewrite wp_bind, wp_sys_do;
      destruct (ep_unregister _ _).2; by rewrite wp_ret. }
  split_and!.
  - unfold add_source. rewrite Hio. rewrite wp_bind. apply wp_mmodify. rewrite wp_bind.
    apply wp_mmodify. rewrite wp_ret. split; [done|]. split; [|done].
    destruct (Hset Off s) as [H1 H2]. by split.
  - intros st. unfold set_enabled, and_ok at 1. rewrite wp_bind.
    assert (∀ s1 (r : Result Z Error), ev_state s1 = ev_state s → ev_pending s1 = ev_pending s →
      wp (match r with Ok _ => state_insert x st;; mret (Ok 0) | Err e => mret (Err e) end) s1
        (λ s' r', (is_ok r' = true → state_only x (Some st) s s')
          ∧ (is_ok r' = false → ev_state s' = ev_state s) ∧ ev_pending s' = ev_pending s)) as Hend.
    { intros s1 [z|e] Hst Hp; [|by rewrite wp_ret]. rewrite wp_bind. apply wp_mmodify. rewrite wp_ret.
      split_and!; [|done|done]. intros _. unfold state_only. simpl. rewrite Hst. apply (Hset st s). }
    assert (wp (source_online x) s (λ s' r, ev_state s' = ev_state s ∧ ev_pending s' = ev_pending s)) as Hon.
    { unfold source_online, sys_ask, and_ok. rewrite wp_bind, wp_mgets, Hio, wp_bind, wp_mgets, wp_bind, wp_sys_do.
      destruct (ep_register _ _ _ _).2; by rewrite wp_ret. }
    destruct st; (eapply wp_mono; [exact Hon || exact Hoff|]); intros s1 r [Hst Hp]; by apply Hend.
  - unfold del_source, and_ok at 1. rewrite wp_bind. eapply wp_mono; [exact Hoff|].
    intros s1 [z|e] [Hst Hp]; [|by rewrite wp_ret]. rewrite wp_bind, wp_mget. unfold and_ok. rewrite Hio.
    simpl. rewrite !wp_bind. apply wp_mmodify. rewrite wp_ret, wp_bind. apply wp_mmodify. rewrite wp_ret.
    split_and!; [|done|done]. intros _. unfold state_only. simpl. rewrite Hst.
    split; [by rewrite lookup_delete_eq|]. intros t Ht. by rewrite lookup_delete_ne.
Qed.

(** ** The implementation of the interface *)
Section interface.
Context (key : Src → nat) (Hkey : ∀ x, src_token x = Z.of_nat (key x)).
Context (Hio : ∀ x, src_event_type x = EvIo).

(** A call, on the whole store; by [io_calls] it always comes back. *)
Definition io_run (m : Ev Src E (Result Z Error)) s : Events Src E * Result unit Error :=
  match m s with
  | Returned (s', Ok _) => (s', Ok tt)
  | Returned (s', Err e) => (s', Err e)
  | Panicked | OutOfFuel => (s, Err ErrInternal)
  end.
#[local] Instance io_loop : EventLoop Src (Events Src E) := {|
  ev_add_source x := io_run (add_source x);
  ev_del_source x := io_run (del_source x);
  ev_set_enabled x st := io_run (set_enabled x st);
|}.

Lemma io_run_law m s x o :
  wp m s (λ s' r, is_ok r = true → state_only x o s s') → (io_run m s).2 = Ok tt →
  ev_state (io_run m s).1 !! Z.of_nat (key x) = o
  ∧ ∀ k, k ≠ key x → ev_state (io_run m s).1 !! Z.of_nat k = ev_state s !! Z.of_nat k.
Proof.
  unfold wp, io_run. intros Hw Hr. destruct (m s) as [[s' [z|e]]| |]; try done.
  destruct (Hw eq_refl) as [Hs Ho]. rewrite <-Hkey. simpl. split; [done|].
  intros k Hk. apply Ho. rewrite Hkey. lia.
Qed.
#[local, refine] Instance io_laws : EventLaws Src (Events Src E) nat key :=
  {| ev_state_of k s := ev_state s !! Z.of_nat k |}.
Proof.
  - intros x s. destruct (io_calls x s (Hio x)) as [Ha _]. apply io_run_law.
    eapply wp_mono; [exact Ha|]. by intros s' r (-> & H & _).
  - intros x st s. destruct (io_calls x s (Hio x)) as (_ & He & _). apply io_run_law.
    eapply wp_mono; [apply He|]. by intros s' r (H & _).
  - intros x s. destruct (io_calls x s (Hio x)) as (_ & _ & Hd). apply io_run_law.
    eapply wp_mono; [exact Hd|]. by intros s' r (H & _).
Defined.
End interface.
End io.
