(* ===== verification/ServiceTypes.v ===== *)
(** * The data of a service unit

    [coms/service/src]: the enumerations, the configuration and the persisted
    entries of [rentry.rs], [config.rs]'s selection of commands, the watchdog
    times of [monitor.rs] and the process ids of [pid.rs]. *)
From Stdlib Require Import Ascii.
From S2P Require Import Prelude UnitTypes ReDb Condition StdString UnitEntry ExecParams UnitIf.
Local Open Scope Z_scope.

(** ** Enumerations ([rentry.rs]) *)
Module ServiceType.
Inductive t := Simple | Forking | Oneshot | Notify | Idle | Exec | TypeMax | TypeInvalid.
#[global] Instance eq_dec : EqDecision t.
Proof. solve_decision. Defined.

(** [deserialize_with]: only four of them can be configured. *)
Definition of_string (s : string) : t :=
  if decide (s = "simple") then Simple
  else if decide (s = "forking") then Forking
  else if decide (s = "oneshot") then Oneshot
  else if decide (s = "notify") then Notify
  else Simple.
End ServiceType.

Module ServiceRestart.
Inductive t := No | OnSuccess | OnFailure | OnWatchdog | OnAbnormal | OnAbort | Always.
#[global] Instance eq_dec : EqDecision t.
Proof. solve_decision. Defined.
End ServiceRestart.

Module ServiceState.
Inductive t :=
| Dead | Condition | StartPre | Start | StartPost | Running | Exited | Reload | Stop
| StopWatchdog | StopPost | StopSigterm | StopSigkill | FinalWatchdog | FinalSigterm
| FinalSigkill | AutoRestart | Failed | Cleaning.
#[global] Instance eq_dec : EqDecision t.
Proof. solve_decision. Defined.
End ServiceState.

Module ServiceResult.
Inductive t :=
| Success | FailureProtocol | FailureResources | FailureSignal | FailureStartLimitHit
| FailureWatchdog | FailureExitCode | FailureCoreDump | FailureTimeout | SkipCondition
| ResultInvalid.
#[global] Instance eq_dec : EqDecision t.
Proof. solve_decision. Defined.
End ServiceResult.

Module ServiceCommand.
Inductive t := Condition | StartPre | Start | StartPost | Reload | Stop | StopPost.
#[global] Instance eq_dec : EqDecision t.
Proof. solve_decision. Defined.
End ServiceCommand.

Module NotifyState.
Inductive t := Unknown | Ready | Stopping.
#[global] Instance eq_dec : EqDecision t.
Proof. solve_decision. Defined.
End NotifyState.

Inductive NotifyAccess := AccessNone | AccessMain.

(** ** Exit statuses ([rentry.rs]) *)
Record ExitStatusSet := { es_status : list Z; es_signal : list string }.
Definition ExitStatusSet_default : ExitStatusSet := {| es_status := []; es_signal := [] |}.

Section exit_status.
Context {E : Type} `{HP : !Processes E}.

(** [status as u8] keeps the low eight bits. *)
Definition exit_status_enabled (w : WaitStatus) (es : ExitStatusSet) : bool :=
  match w with
  | Exited _ status => bool_decide (status mod 256 ∈ es_status es)
  | Signaled _ sig _ => bool_decide (sig_as_str sig ∈ es_signal es)
  | _ => false
  end.

(** [ExitStatusSet::deserialize_with]: a word is a status, a signal, or ignored. *)
Definition exit_status_add (es : ExitStatusSet) (cmd : string) : ExitStatusSet :=
  match parse_u8 cmd with
  | Some v => {| es_status := es_status es ++ [v]; es_signal := es_signal es |}
  | None =>
    match sig_from_str cmd with
    | Some _ => {| es_status := es_status es; es_signal := es_signal es ++ [cmd] |}
    | None => es
    end
  end.
Definition ExitStatusSet_of_string (s : string) : ExitStatusSet :=
  foldl exit_status_add ExitStatusSet_default (of_chars <$> split_whitespace s).
End exit_status.

(** The persisted form of a wait status: the pid and the exit status or the
    number of the signal. *)
Inductive ExitStatus := Status (pid : Pid) (status : Z).

Definition ExitStatus_from (w : WaitStatus) : ExitStatus :=
  match w with
  | UnitIf.Exited pid status => Status pid status
  | Signaled pid sig _ => Status pid sig
  | _ => Status 0 0
  end.
(** [from_raw] is [nix]'s [WaitStatus::from_raw], which decodes what [waitpid]
    returns. *)
Definition WaitStatus_from (from_raw : Pid → Z → option WaitStatus) (e : ExitStatus) : WaitStatus :=
  match e with
  | Status pid status => default (UnitIf.Exited (-1) 0) (from_raw pid status)
  end.

(** ** The configuration ([rentry.rs], [config.rs]) *)
Record SectionService := {
  sc_Type : ServiceType.t;
  ExecStart : option (list ExecCommand);
  ExecStartPre : option (list ExecCommand);
  ExecStartPost : option (list ExecCommand);
  ExecStop : option (list ExecCommand);
  ExecStopPost : option (list ExecCommand);
  ExecReload : option (list ExecCommand);
  ExecCondition : option (list ExecCommand);
  Sockets : option (list UnitId);
  WatchdogSec : Z;
  PIDFile : option string;
  RemainAfterExit : bool;
  sc_NotifyAccess : option NotifyAccess;
  Environment : option (list string);
  sc_KillMode : KillMode;
  WorkingDirectory : string;
  sc_User : string;
  sc_Group : string;
  UMask : string;
  Restart : ServiceRestart.t;
  RestartPreventExitStatus : ExitStatusSet;
  RestartSec : Z;
  EnvironmentFile : list string;
  KillSignal : string;
}.

(** The [#[config(default = ..)]] values. *)
Definition SectionService_default : SectionService := {|
  sc_Type := ServiceType.Simple; ExecStart := None; ExecStartPre := None; ExecStartPost := None;
  ExecStop := None; ExecStopPost := None; ExecReload := None; ExecCondition := None;
  Sockets := None; WatchdogSec := 0; PIDFile := None; RemainAfterExit := false;
  sc_NotifyAccess := None; Environment := None; sc_KillMode := KillMode_of_string "none";
  WorkingDirectory := ""; sc_User := ""; sc_Group := ""; UMask := "0022";
  Restart := ServiceRestart.No; RestartPreventExitStatus := ExitStatusSet_default;
  RestartSec := 0; EnvironmentFile := []; KillSignal := "SIGTERM" |}.

Definition set_notify_access (v : NotifyAccess) (c : SectionService) : SectionService := {|
  sc_Type := sc_Type c; ExecStart := ExecStart c; ExecStartPre := ExecStartPre c;
  ExecStartPost := ExecStartPost c; ExecStop := ExecStop c; ExecStopPost := ExecStopPost c;
  ExecReload := ExecReload c; ExecCondition := ExecCondition c; Sockets := Sockets c;
  WatchdogSec := WatchdogSec c; PIDFile := PIDFile c; RemainAfterExit := RemainAfterExit c;
  sc_NotifyAccess := Some v; Environment := Environment c; sc_KillMode := sc_KillMode c;
  WorkingDirectory := WorkingDirectory c; sc_User := sc_User c; sc_Group := sc_Group c;
  UMask := UMask c; Restart := Restart c; RestartPreventExitStatus := RestartPreventExitStatus c;
  RestartSec := RestartSec c; EnvironmentFile := EnvironmentFile c; KillSignal := KillSignal c |}.

Definition get_exec_cmds (cmd_type : ServiceCommand.t) (c : SectionService)
    : option (list ExecCommand) :=
  match cmd_type with
  | ServiceCommand.Condition => ExecCondition c
  | ServiceCommand.StartPre => ExecStartPre c
  | ServiceCommand.Start => ExecStart c
  | ServiceCommand.StartPost => ExecStartPost c
  | ServiceCommand.Reload => ExecReload c
  | ServiceCommand.Stop => ExecStop c
  | ServiceCommand.StopPost => ExecStopPost c
  end.

(** ** Watchdog times ([monitor.rs]) *)
Record ServiceMonitor := {
  watchdog_original_usec : Z;
  watchdog_override_usec : Z;
  watchdog_override_enable : bool;
}.
Definition ServiceMonitor_new : ServiceMonitor :=
  {| watchdog_original_usec := 0; watchdog_override_usec := 0; watchdog_override_enable := false |}.
Definition monitor_override_watchdog_usec (usec : Z) (m : ServiceMonitor) : ServiceMonitor :=
  {| watchdog_original_usec := watchdog_original_usec m; watchdog_override_usec := usec;
     watchdog_override_enable := true |}.
Definition set_original_watchdog (usec : Z) (m : ServiceMonitor) : ServiceMonitor :=
  {| watchdog_original_usec := usec; watchdog_override_usec := watchdog_override_usec m;
     watchdog_override_enable := watchdog_override_enable m |}.
Definition watchdog_usec (m : ServiceMonitor) : Z :=
  if watchdog_override_enable m then watchdog_override_usec m else watchdog_original_usec m.

(** ** Process ids ([pid.rs]) *)
Inductive MainState := MainUnknown | MainKnown.
Record ServicePidData := { pd_main : option Pid; pd_state : MainState; pd_control : option Pid }.
Definition ServicePidData_new : ServicePidData :=
  {| pd_main := None; pd_state := MainUnknown; pd_control := None |}.

(** [None] is [Errno::EINVAL]. *)
Definition pd_set_main (pid : Pid) (d : ServicePidData) : option ServicePidData :=
  if pid <? 1 then None
  else Some {| pd_main := Some pid; pd_state := MainKnown; pd_control := pd_control d |}.
Definition pd_reset_main (d : ServicePidData) : ServicePidData :=
  {| pd_main := None; pd_state := pd_state d; pd_control := pd_control d |}.
Definition pd_set_control (pid : Pid) (d : ServicePidData) : ServicePidData :=
  {| pd_main := pd_main d; pd_state := pd_state d; pd_control := Some pid |}.
Definition pd_reset_control (d : ServicePidData) : ServicePidData :=
  {| pd_main := pd_main d; pd_state := pd_state d; pd_control := None |}.
Definition pd_main_alive (alive : Pid → bool) (d : ServicePidData) : Result bool Error :=
  match pd_state d with
  | MainUnknown => Err UnitActionEAgain
  | MainKnown => Ok (match pd_main d with None => false | Some pid => alive pid end)
  end.

(** ** Active states ([mng.rs]) *)
Definition to_unit_active_state (s : ServiceState.t) : UnitActiveState :=
  match s with
  | ServiceState.Dead => UnitInActive
  | ServiceState.Condition | ServiceState.StartPre | ServiceState.Start | ServiceState.StartPost
  | ServiceState.AutoRestart => UnitActivating
  | ServiceState.Running | ServiceState.Exited => UnitActive
  | ServiceState.Reload => UnitReloading
  | ServiceState.Stop | ServiceState.StopWatchdog | ServiceState.StopPost
  | ServiceState.StopSigterm | ServiceState.StopSigkill | ServiceState.FinalSigterm
  | ServiceState.FinalSigkill | ServiceState.FinalWatchdog => UnitDeActivating
  | ServiceState.Failed => UnitFailed
  | ServiceState.Cleaning => UnitMaintenance
  end.
Definition to_unit_active_state_idle (s : ServiceState.t) : UnitActiveState :=
  match s with
  | ServiceState.Dead => UnitInActive
  | ServiceState.Condition | ServiceState.StartPre | ServiceState.Start | ServiceState.StartPost
  | ServiceState.Running | ServiceState.Exited => UnitActive
  | ServiceState.Reload => UnitReloading
  | ServiceState.Stop | ServiceState.StopWatchdog | ServiceState.StopPost
  | ServiceState.StopSigterm | ServiceState.StopSigkill | ServiceState.FinalSigterm
  | ServiceState.FinalSigkill | ServiceState.FinalWatchdog => UnitDeActivating
  | ServiceState.Failed => UnitFailed
  | ServiceState.Cleaning => UnitMaintenance
  | ServiceState.AutoRestart => UnitActivating
  end.
Definition to_kill_operation (s : ServiceState.t) : KillOperation :=
  match s with
  | ServiceState.StopWatchdog => KillWatchdog
  | ServiceState.StopSigterm | ServiceState.FinalSigterm => KillTerminate
  | ServiceState.StopSigkill | ServiceState.FinalSigkill => KillKill
  | _ => KillInvalid
  end.
Definition service_state_to_unit_state (ty : ServiceType.t) (s : ServiceState.t) : UnitActiveState :=
  if decide (ty = ServiceType.Idle) then to_unit_active_state_idle s else to_unit_active_state s.
