(* ===== verification/ServiceStore.v ===== *)
(** * The store of a service unit

    What one [ServiceUnit] of [coms/service/src] holds: its configuration, its
    process ids, the fields of [ServiceMng] and of [Rtdata] ([mng.rs]), the two
    tables of [ServiceRe] ([rentry.rs]), what it published, and the rest of the
    system [E] behind the interfaces of [UnitIf.v]. *)
From S2P Require Import Prelude UnitTypes ReDb StdString UnitEntry ExecParams UnitIf ServiceTypes.
Local Open Scope Z_scope.

(** ** Persisted entries ([rentry.rs]) *)
Record ServiceReMng := {
  rm_state : ServiceState.t;
  rm_result : ServiceResult.t;
  rm_main_pid : option Pid;
  rm_control_pid : option Pid;
  rm_main_cmd_len : nat;
  rm_control_cmd_type : option ServiceCommand.t;
  rm_control_cmd_len : nat;
  rm_notify_state : NotifyState.t;
  rm_forbid_restart : bool;
  rm_reset_restart : bool;
  rm_restarts : Z;
  rm_exit_status : ExitStatus;
  rm_monitor : ServiceMonitor;
}.
(** [ServiceReConf] wraps the configuration. *)
Record ServiceRe := {
  re_conf : ReDb UnitId SectionService;
  re_mng : ReDb UnitId ServiceReMng;
}.
Definition ServiceRe_new : ServiceRe := {| re_conf := ReDb_new; re_mng := ReDb_new |}.

Definition conf_insert (unit_id : UnitId) (service : SectionService) (r : ServiceRe) : ServiceRe :=
  {| re_conf := redb_insert unit_id service (re_conf r); re_mng := re_mng r |}.
Definition conf_get (unit_id : UnitId) (r : ServiceRe) : option SectionService :=
  redb_get unit_id (re_conf r).
Definition mng_insert (unit_id : UnitId) (m : ServiceReMng) (r : ServiceRe) : ServiceRe :=
  {| re_conf := re_conf r; re_mng := redb_insert unit_id m (re_mng r) |}.
Definition mng_get (unit_id : UnitId) (r : ServiceRe) : option ServiceReMng :=
  redb_get unit_id (re_mng r).

(** ** Running data ([mng.rs]) *)

(** [PathIntofy]: the watched path, the file descriptor ([-1] if closed) and the
    watch of the path itself; its [p_type] is always [Modified]. *)
Record PathIntofy := { pi_path : string; pi_inotify : Z; pi_wd : option Z }.
Definition PathIntofy_new (path : string) : PathIntofy :=
  {| pi_path := path; pi_inotify := -1; pi_wd := None |}.

(** The restart timer and the watchdog are their times: each holds its service,
    which the model is about. *)
Record Rtdata := {
  rd_errno : Z;
  rd_notify_state : NotifyState.t;
  rd_path_inotify : option PathIntofy;
  rd_forbid_restart : bool;
  rd_reset_restarts : bool;
  rd_restarts : Z;
  rd_timer : option Z;
  rd_exec_status : WaitStatus;
  rd_watchdog : option Z;
}.
Definition Rtdata_new : Rtdata := {|
  rd_errno := 0; rd_notify_state := NotifyState.Unknown; rd_path_inotify := None;
  rd_forbid_restart := false; rd_reset_restarts := false; rd_restarts := 0; rd_timer := None;
  rd_exec_status := StillAlive; rd_watchdog := None |}.

Definition set_rd_errno (v : Z) (s : Rtdata) : Rtdata :=
  {| rd_errno := v; rd_notify_state := rd_notify_state s; rd_path_inotify := rd_path_inotify s;
     rd_forbid_restart := rd_forbid_restart s; rd_reset_restarts := rd_reset_restarts s;
     rd_restarts := rd_restarts s; rd_timer := rd_timer s; rd_exec_status := rd_exec_status s;
     rd_watchdog := rd_watchdog s |}.
Definition set_rd_notify_state (v : NotifyState.t) (s : Rtdata) : Rtdata :=
  {| rd_errno := rd_errno s; rd_notify_state := v; rd_path_inotify := rd_path_inotify s;
     rd_forbid_restart := rd_forbid_restart s; rd_reset_restarts := rd_reset_restarts s;
     rd_restarts := rd_restarts s; rd_timer := rd_timer s; rd_exec_status := rd_exec_status s;
     rd_watchdog := rd_watchdog s |}.
Definition set_rd_path_inotify (v : option PathIntofy) (s : Rtdata) : Rtdata :=
  {| rd_errno := rd_errno s; rd_notify_state := rd_notify_state s; rd_path_inotify := v;
     rd_forbid_restart := rd_forbid_restart s; rd_reset_restarts := rd_reset_restarts s;
     rd_restarts := rd_restarts s; rd_timer := rd_timer s; rd_exec_status := rd_exec_status s;
     rd_watchdog := rd_watchdog s |}.
Definition set_rd_forbid_restart (v : bool) (s : Rtdata) : Rtdata :=
  {| rd_errno := rd_errno s; rd_notify_state := rd_notify_state s;
     rd_path_inotify := rd_path_inotify s; rd_forbid_restart := v;
     rd_reset_restarts := rd_reset_restarts s; rd_restarts := rd_restarts s;
     rd_timer := rd_timer s; rd_exec_status := rd_exec_status s;
     rd_watchdog := rd_watchdog s |}.
Definition set_rd_reset_restarts (v : bool) (s : Rtdata) : Rtdata :=
  {| rd_errno := rd_errno s; rd_notify_state := rd_notify_state s;
     rd_path_inotify := rd_path_inotify s; rd_forbid_restart := rd_forbid_restart s;
     rd_reset_restarts := v; rd_restarts := rd_restarts s; rd_timer := rd_timer s;
     rd_exec_status := rd_exec_status s; rd_watchdog := rd_watchdog s |}.
Definition set_rd_restarts (v : Z) (s : Rtdata) : Rtdata :=
  {| rd_errno := rd_errno s; rd_notify_state := rd_notify_state s;
     rd_path_inotify := rd_path_inotify s; rd_forbid_restart := rd_forbid_restart s;
     rd_reset_restarts := rd_reset_restarts s; rd_restarts := v; rd_timer := rd_timer s;
     rd_exec_status := rd_exec_status s; rd_watchdog := rd_watchdog s |}.
Definition set_rd_timer (v : option Z) (s : Rtdata) : Rtdata :=
  {| rd_errno := rd_errno s; rd_notify_state := rd_notify_state s;
     rd_path_inotify := rd_path_inotify s; rd_forbid_restart := rd_forbid_restart s;
     rd_reset_restarts := rd_reset_restarts s; rd_restarts := rd_restarts s; rd_timer := v;
     rd_exec_status := rd_exec_status s; rd_watchdog := rd_watchdog s |}.
Definition set_rd_exec_status (v : WaitStatus) (s : Rtdata) : Rtdata :=
  {| rd_errno := rd_errno s; rd_notify_state := rd_notify_state s;
     rd_path_inotify := rd_path_inotify s; rd_forbid_restart := rd_forbid_restart s;
     rd_reset_restarts := rd_reset_restarts s; rd_restarts := rd_restarts s;
     rd_timer := rd_timer s; rd_exec_status := v; rd_watchdog := rd_watchdog s |}.
Definition set_rd_watchdog (v : option Z) (s : Rtdata) : Rtdata :=
  {| rd_errno := rd_errno s; rd_notify_state := rd_notify_state s;
     rd_path_inotify := rd_path_inotify s; rd_forbid_restart := rd_forbid_restart s;
     rd_reset_restarts := rd_reset_restarts s; rd_restarts := rd_restarts s;
     rd_timer := rd_timer s; rd_exec_status := rd_exec_status s; rd_watchdog := v |}.

(** The event sources of a service, each with what the loop reads of it: the
    time of the restart timer and of the watchdog ([time_relative]), the file
    descriptor of the watch of the pid file. *)
Inductive ServiceSource :=
| SrcTimer (time_relative : Z)
| SrcWatchdog (time_relative : Z)
| SrcPidFile (fd : Z).
(** [time * 1000000] on [u64]. *)
Definition timer_source (time : Z) : ServiceSource := SrcTimer (wrap_u64 (time * 1000000)).
Definition watchdog_source (time : Z) : ServiceSource := SrcWatchdog (wrap_u64 (time * 1000000)).
Definition path_source (p : PathIntofy) : ServiceSource := SrcPidFile (pi_inotify p).

(** ** The store *)
Record Svc (E : Type) := {
  sv_owner : option UnitId;
  sv_conf : SectionService;
  sv_kill_context : KillContext;
  sv_exec_ctx : ExecContext;
  sv_pid : ServicePidData;
  sv_state : ServiceState.t;
  sv_result : ServiceResult.t;
  sv_main_command : list ExecCommand;
  sv_control_cmd_type : option ServiceCommand.t;
  sv_control_command : list ExecCommand;
  sv_rd : Rtdata;
  sv_monitor : ServiceMonitor;
  sv_re : ServiceRe;
  sv_states : list UnitState;
  sv_env : E;
}.
Arguments sv_owner {E}.
Arguments sv_conf {E}.
Arguments sv_kill_context {E}.
Arguments sv_exec_ctx {E}.
Arguments sv_pid {E}.
Arguments sv_state {E}.
Arguments sv_result {E}.
Arguments sv_main_command {E}.
Arguments sv_control_cmd_type {E}.
Arguments sv_control_command {E}.
Arguments sv_rd {E}.
Arguments sv_monitor {E}.
Arguments sv_re {E}.
Arguments sv_states {E}.
Arguments sv_env {E}.
Arguments Build_Svc {E}.

Section setters.
Context {E : Type}.
Definition set_sv_owner (v : option UnitId) (s : Svc E) : Svc E :=
  {| sv_owner := v; sv_conf := sv_conf s; sv_kill_context := sv_kill_context s;
     sv_exec_ctx := sv_exec_ctx s; sv_pid := sv_pid s; sv_state := sv_state s;
     sv_result := sv_result s; sv_main_command := sv_main_command s;
     sv_control_cmd_type := sv_control_cmd_type s; sv_control_command := sv_control_command s;
     sv_rd := sv_rd s; sv_monitor := sv_monitor s; sv_re := sv_re s; sv_states := sv_states s;
     sv_env := sv_env s |}.
Definition set_sv_conf (v : SectionService) (s : Svc E) : Svc E :=
  {| sv_owner := sv_owner s; sv_conf := v; sv_kill_context := sv_kill_context s;
     sv_exec_ctx := sv_exec_ctx s; sv_pid := sv_pid s; sv_state := sv_state s;
     sv_result := sv_result s; sv_main_command := sv_main_command s;
     sv_control_cmd_type := sv_control_cmd_type s; sv_control_command := sv_control_command s;
     sv_rd := sv_rd s; sv_monitor := sv_monitor s; sv_re := sv_re s; sv_states := sv_states s;
     sv_env := sv_env s |}.
Definition set_sv_kill_context (v : KillContext) (s : Svc E) : Svc E :=
  {| sv_owner := sv_owner s; sv_conf := sv_conf s; sv_kill_context := v;
     sv_exec_ctx := sv_exec_ctx s; sv_pid := sv_pid s; sv_state := sv_state s;
     sv_result := sv_result s; sv_main_command := sv_main_command s;
     sv_control_cmd_type := sv_control_cmd_type s; sv_control_command := sv_control_command s;
     sv_rd := sv_rd s; sv_monitor := sv_monitor s; sv_re := sv_re s; sv_states := sv_states s;
     sv_env := sv_env s |}.
Definition set_sv_exec_ctx (v : ExecContext) (s : Svc E) : Svc E :=
  {| sv_owner := sv_owner s; sv_conf := sv_conf s; sv_kill_context := sv_kill_context s;
     sv_exec_ctx := v; sv_pid := sv_pid s; sv_state := sv_state s; sv_result := sv_result s;
     sv_main_command := sv_main_command s; sv_control_cmd_type := sv_control_cmd_type s;
     sv_control_command := sv_control_command s; sv_rd := sv_rd s; sv_monitor := sv_monitor s;
     sv_re := sv_re s; sv_states := sv_states s; sv_env := sv_env s |}.
Definition set_sv_pid (v : ServicePidData) (s : Svc E) : Svc E :=
  {| sv_owner := sv_owner s; sv_conf := sv_conf s; sv_kill_context := sv_kill_context s;
     sv_exec_ctx := sv_exec_ctx s; sv_pid := v; sv_state := sv_state s;
     sv_result := sv_result s; sv_main_command := sv_main_command s;
     sv_control_cmd_type := sv_control_cmd_type s; sv_control_command := sv_control_command s;
     sv_rd := sv_rd s; sv_monitor := sv_monitor s; sv_re := sv_re s; sv_states := sv_states s;
     sv_env := sv_env s |}.
Definition set_sv_state (v : ServiceState.t) (s : Svc E) : Svc E :=
  {| sv_owner := sv_owner s; sv_conf := sv_conf s; sv_kill_context := sv_kill_context s;
     sv_exec_ctx := sv_exec_ctx s; sv_pid := sv_pid s; sv_state := v; sv_result := sv_result s;
     sv_main_command := sv_main_command s; sv_control_cmd_type := sv_control_cmd_type s;
     sv_control_command := sv_control_command s; sv_rd := sv_rd s; sv_monitor := sv_monitor s;
     sv_re := sv_re s; sv_states := sv_states s; sv_env := sv_env s |}.
Definition set_sv_result (v : ServiceResult.t) (s : Svc E) : Svc E :=
  {| sv_owner := sv_owner s; sv_conf := sv_conf s; sv_kill_context := sv_kill_context s;
     sv_exec_ctx := sv_exec_ctx s; sv_pid := sv_pid s; sv_state := sv_state s; sv_result := v;
     sv_main_command := sv_main_command s; sv_control_cmd_type := sv_control_cmd_type s;
     sv_control_command := sv_control_command s; sv_rd := sv_rd s; sv_monitor := sv_monitor s;
     sv_re := sv_re s; sv_states := sv_states s; sv_env := sv_env s |}.
Definition set_sv_main_command (v : list ExecCommand) (s : Svc E) : Svc E :=
  {| sv_owner := sv_owner s; sv_conf := sv_conf s; sv_kill_context := sv_kill_context s;
     sv_exec_ctx := sv_exec_ctx s; sv_pid := sv_pid s; sv_state := sv_state s;
     sv_result := sv_result s; sv_main_command := v;
     sv_control_cmd_type := sv_control_cmd_type s; sv_control_command := sv_control_command s;
     sv_rd := sv_rd s; sv_monitor := sv_monitor s; sv_re := sv_re s; sv_states := sv_states s;
     sv_env := sv_env s |}.
Definition set_sv_control_cmd_type (v : option ServiceCommand.t) (s : Svc E) : Svc E :=
  {| sv_owner := sv_owner s; sv_conf := sv_conf s; sv_kill_context := sv_kill_context s;
     sv_exec_ctx := sv_exec_ctx s; sv_pid := sv_pid s; sv_state := sv_state s;
     sv_result := sv_result s; sv_main_command := sv_main_command s; sv_control_cmd_type := v;
     sv_control_command := sv_control_command s; sv_rd := sv_rd s; sv_monitor := sv_monitor s;
     sv_re := sv_re s; sv_states := sv_states s; sv_env := sv_env s |}.
Definition set_sv_control_command (v : list ExecCommand) (s : Svc E) : Svc E :=
  {| sv_owner := sv_owner s; sv_conf := sv_conf s; sv_kill_context := sv_kill_context s;
     sv_exec_ctx := sv_exec_ctx s; sv_pid := sv_pid s; sv_state := sv_state s;
     sv_result := sv_result s; sv_main_command := sv_main_command s;
     sv_control_cmd_type := sv_control_cmd_type s; sv_control_command := v; sv_rd := sv_rd s;
     sv_monitor := sv_monitor s; sv_re := sv_re s; sv_states := sv_states s;
     sv_env := sv_env s |}.
Definition set_sv_rd (v : Rtdata) (s : Svc E) : Svc E :=
  {| sv_owner := sv_owner s; sv_conf := sv_conf s; sv_kill_context := sv_kill_context s;
     sv_exec_ctx := sv_exec_ctx s; sv_pid := sv_pid s; sv_state := sv_state s;
     sv_result := sv_result s; sv_main_command := sv_main_command s;
     sv_control_cmd_type := sv_control_cmd_type s; sv_control_command := sv_control_command s;
     sv_rd := v; sv_monitor := sv_monitor s; sv_re := sv_re s; sv_states := sv_states s;
     sv_env := sv_env s |}.
Definition set_sv_monitor (v : ServiceMonitor) (s : Svc E) : Svc E :=
  {| sv_owner := sv_owner s; sv_conf := sv_conf s; sv_kill_context := sv_kill_context s;
     sv_exec_ctx := sv_exec_ctx s; sv_pid := sv_pid s; sv_state := sv_state s;
     sv_result := sv_result s; sv_main_command := sv_main_command s;
     sv_control_cmd_type := sv_control_cmd_type s; sv_control_command := sv_control_command s;
     sv_rd := sv_rd s; sv_monitor := v; sv_re := sv_re s; sv_states := sv_states s;
     sv_env := sv_env s |}.
Definition set_sv_re (v : ServiceRe) (s : Svc E) : Svc E :=
  {| sv_owner := sv_owner s; sv_conf := sv_conf s; sv_kill_context := sv_kill_context s;
     sv_exec_ctx := sv_exec_ctx s; sv_pid := sv_pid s; sv_state := sv_state s;
     sv_result := sv_result s; sv_main_command := sv_main_command s;
     sv_control_cmd_type := sv_control_cmd_type s; sv_control_command := sv_control_command s;
     sv_rd := sv_rd s; sv_monitor := sv_monitor s; sv_re := v; sv_states := sv_states s;
     sv_env := sv_env s |}.
Definition set_sv_states (v : list UnitState) (s : Svc E) : Svc E :=
  {| sv_owner := sv_owner s; sv_conf := sv_conf s; sv_kill_context := sv_kill_context s;
     sv_exec_ctx := sv_exec_ctx s; sv_pid := sv_pid s; sv_state := sv_state s;
     sv_result := sv_result s; sv_main_command := sv_main_command s;
     sv_control_cmd_type := sv_control_cmd_type s; sv_control_command := sv_control_command s;
     sv_rd := sv_rd s; sv_monitor := sv_monitor s; sv_re := sv_re s; sv_states := v;
     sv_env := sv_env s |}.
Definition set_sv_env (v : E) (s : Svc E) : Svc E :=
  {| sv_owner := sv_owner s; sv_conf := sv_conf s; sv_kill_context := sv_kill_context s;
     sv_exec_ctx := sv_exec_ctx s; sv_pid := sv_pid s; sv_state := sv_state s;
     sv_result := sv_result s; sv_main_command := sv_main_command s;
     sv_control_cmd_type := sv_control_cmd_type s; sv_control_command := sv_control_command s;
     sv_rd := sv_rd s; sv_monitor := sv_monitor s; sv_re := sv_re s; sv_states := sv_states s;
     sv_env := v |}.
End setters.

(** A service as [ServiceUnit::new] makes it, with no owner yet. *)
Definition Svc_new {E} (re : ServiceRe) (env : E) : Svc E := {|
  sv_owner := None; sv_conf := SectionService_default; sv_kill_context := KillContext_default;
  sv_exec_ctx := ExecContext_new; sv_pid := ServicePidData_new; sv_state := ServiceState.Dead;
  sv_result := ServiceResult.Success; sv_main_command := []; sv_control_cmd_type := None;
  sv_control_command := []; sv_rd := Rtdata_new; sv_monitor := ServiceMonitor_new; sv_re := re;
  sv_states := []; sv_env := env |}.

(** The files a service reads: the pid file and the watches of its directories
    ([inotify]); [None] is an error. *)
Class ServiceFiles (E : Type) : Type := {
  os_pid_file_exists : string → E → bool;                (* exists() and is_file() *)
  os_first_line : string → E → option string;            (* file_util::read_first_line *)
  os_inotify_init : E → E * option Z;
  os_inotify_add_watch : Z → string → bool → E → E * option Z; (* fd, path, primary flags *)
  os_close : Z → E → E;
  os_read_events : Z → E → E * Result (list Z) Error;    (* the watches that fired *)
  os_read_again : Error → bool;                          (* EAGAIN or EINTR *)
  os_wait_from_raw : Pid → Z → option WaitStatus;        (* nix: WaitStatus::from_raw *)
}.

(** What a service computes with. *)
Abbreviation S E A := (M (Svc E) A).

Section store.
Context {E : Type}.

Definition env_do {A} (f : E → E * A) : S E A := λ s,
  let r := f (sv_env s) in Returned (set_sv_env r.1 s, r.2).
Definition env_modify (f : E → E) : S E unit := mmodify (λ s, set_sv_env (f (sv_env s)) s).
Definition env_ask {A} (f : E → A) : S E A := mgets (λ s, f (sv_env s)).
Definition rd_modify (f : Rtdata → Rtdata) : S E unit := mmodify (λ s, set_sv_rd (f (sv_rd s)) s).
Definition pid_modify (f : ServicePidData → ServicePidData) : S E unit :=
  mmodify (λ s, set_sv_pid (f (sv_pid s)) s).

(** [self.comm.get_owner_id()] *)
Definition get_owner_id (s : Svc E) : UnitId := default "None"%string (sv_owner s).
End store.

(** The proof step over this store's own primitives. *)
Lemma wp_env_do {E A} (f : E → E * A) (s : Svc E) (Q : Svc E → A → Prop) :
  wp (env_do f) s Q ↔ Q (set_sv_env (f (sv_env s)).1 s) (f (sv_env s)).2.
Proof. done. Qed.
Lemma wtp_env_do {E A} (f : E → E * A) (s : Svc E) (Q : Svc E → A → Prop) :
  wtp (env_do f) s Q ↔ Q (set_sv_env (f (sv_env s)).1 s) (f (sv_env s)).2.
Proof. done. Qed.
