(* ===== verification/Service.v ===== *)
(** * Service units

    [coms/service/src]: the process ids ([pid.rs]), the start of a command
    ([spawn.rs]), the state machine ([mng.rs]) and the unit ([unit.rs]), over
    the store of [ServiceStore.v].  A method of [ServiceMng], [ServicePid],
    [ServiceSpawn] or [ServiceUnit] is the definition of the same name. *)
From Stdlib Require Import Ascii.
From S2P Require Import Prelude UnitTypes ReDb Condition StdString UnitEntry ExecParams UnitIf.
From S2P Require Import ServiceTypes ServiceStore.
Local Open Scope Z_scope.

Section service.
Context `{HI : !HashIter} {E : Type} `{HX : !ExecEnv} `{HU : !UmIf E} `{HB : !UnitBase E}.
Context `{HL : !EventLoop ServiceSource E} `{HP : !Processes E} `{HF : !ServiceFiles E}.
Implicit Types (s : Svc E) (res : ServiceResult.t) (st : ServiceState.t) (pid : Pid).

(** ** [pid.rs] *)
Definition child_unwatch_pid pid : S E unit :=
  s ← mget;
  match sv_owner s with
  | Some u => env_modify (um_child_unwatch_pid u pid)
  | None => mret tt
  end.

Definition unwatch_main : S E unit :=
  s ← mget;
  match pd_main (sv_pid s) with
  | Some pid => child_unwatch_pid pid;; pid_modify pd_reset_main
  | None => mret tt
  end.
Definition unwatch_control : S E unit :=
  s ← mget;
  match pd_control (sv_pid s) with
  | Some pid => child_unwatch_pid pid;; pid_modify pd_reset_control
  | None => mret tt
  end.

(** [set_main]; false is the error. *)
Definition data_set_main pid : S E bool :=
  s ← mget;
  match pd_set_main pid (sv_pid s) with
  | Some d => pid_modify (λ _, d);; mret true
  | None => mret false
  end.
Definition set_main pid : S E bool :=
  s ← mget;
  match pd_main (sv_pid s) with
  | Some p => if decide (p = pid) then mret true else unwatch_main;; data_set_main pid
  | None => data_set_main pid
  end.
Definition update_main (pid : option Pid) : S E unit :=
  match pid with
  | Some id => set_main id;; mret tt
  | None => pid_modify pd_reset_main
  end.
Definition update_control (pid : option Pid) : S E unit :=
  match pid with
  | Some id => pid_modify (pd_set_control id)
  | None => pid_modify pd_reset_control
  end.

(** [self.comm.um().child_watch_pid(&self.comm.get_owner_id(), pid)] *)
Definition child_watch_pid pid : S E unit :=
  s ← mget; env_modify (um_child_watch_pid (get_owner_id s) pid).

(** ** Commands *)
Definition main_command_fill : S E unit :=
  s ← mget;
  match get_exec_cmds ServiceCommand.Start (sv_conf s) with
  | Some cmds => mmodify (set_sv_main_command cmds)
  | None => mret tt
  end.
Definition main_command_pop : S E (option ExecCommand) :=
  s ← mget;
  mmodify (set_sv_main_command (tail (sv_main_command s)));;
  mret (head (sv_main_command s)).
Definition main_command_update (len : nat) : S E unit :=
  mmodify (set_sv_main_command []);;
  main_command_fill;;
  s ← mget;
  let max := length (sv_main_command s) in
  mforeach (λ _, main_command_pop;; mret tt) (seq len (max - len)).

(** A command that is not configured leaves the queue as it is. *)
Definition control_command_fill (cmd_type : ServiceCommand.t) : S E unit :=
  s ← mget;
  match get_exec_cmds cmd_type (sv_conf s) with
  | Some cmds => mmodify (set_sv_control_command cmds)
  | None => mret tt
  end.
Definition control_command_pop : S E (option ExecCommand) :=
  s ← mget;
  mmodify (set_sv_control_command (tail (sv_control_command s)));;
  mret (head (sv_control_command s)).
Definition control_command_update (cmd_type : option ServiceCommand.t) (len : nat) : S E unit :=
  match cmd_type with
  | Some c_type =>
    mmodify (set_sv_control_command []);;
    control_command_fill c_type;;
    s ← mget;
    let max := length (sv_control_command s) in
    mforeach (λ _, control_command_pop;; mret tt) (seq len (max - len))
  | None => massert (bool_decide (len = 0%nat))
  end.

(** ** [ReStation] *)
Definition mng_db_insert : S E unit :=
  s ← mget;
  match sv_owner s with
  | Some u =>
    mmodify (set_sv_re (mng_insert u {|
      rm_state := sv_state s; rm_result := sv_result s;
      rm_main_pid := pd_main (sv_pid s); rm_control_pid := pd_control (sv_pid s);
      rm_main_cmd_len := length (sv_main_command s);
      rm_control_cmd_type := sv_control_cmd_type s;
      rm_control_cmd_len := length (sv_control_command s);
      rm_notify_state := rd_notify_state (sv_rd s);
      rm_forbid_restart := rd_forbid_restart (sv_rd s);
      rm_reset_restart := rd_reset_restarts (sv_rd s);
      rm_restarts := rd_restarts (sv_rd s);
      rm_exit_status := ExitStatus_from (rd_exec_status (sv_rd s));
      rm_monitor := sv_monitor s |} (sv_re s)))
  | None => mret tt
  end.

Definition mng_db_map : S E unit :=
  s ← mget;
  match (u ← sv_owner s; mng_get u (sv_re s)) with
  | Some m =>
    mmodify (set_sv_state (rm_state m));;
    mmodify (set_sv_result (rm_result m));;
    update_main (rm_main_pid m);;
    update_control (rm_control_pid m);;
    main_command_update (rm_main_cmd_len m);;
    control_command_update (rm_control_cmd_type m) (rm_control_cmd_len m);;
    rd_modify (set_rd_notify_state (rm_notify_state m));;
    rd_modify (set_rd_forbid_restart (rm_forbid_restart m));;
    rd_modify (set_rd_reset_restarts (rm_reset_restart m));;
    rd_modify (set_rd_restarts (rm_restarts m));;
    rd_modify (set_rd_exec_status (WaitStatus_from os_wait_from_raw (rm_exit_status m)));;
    mmodify (set_sv_monitor (rm_monitor m))
  | None => mret tt
  end.

Definition config_db_insert : S E unit :=
  s ← mget;
  match sv_owner s with
  | Some u => mmodify (set_sv_re (conf_insert u (sv_conf s) (sv_re s)))
  | None => mret tt
  end.
Definition config_db_map : S E unit :=
  s ← mget;
  match (u ← sv_owner s; conf_get u (sv_re s)) with
  | Some conf => mmodify (set_sv_conf conf)
  | None => mret tt
  end.

(** [ServiceUnit]: the configuration first. *)
Definition db_map : S E unit := config_db_map;; mng_db_map.
Definition db_insert : S E unit := config_db_insert;; mng_db_insert.

(** ** [spawn.rs] *)
Definition service_path : string := "/usr/local/sbin:/usr/local/bin:/usr/sbin:/usr/bin:/sbin:/bin".
Definition spawn_error : Error := ErrOther "spawn exec return error".

(** The environment and the credentials of the command, and the errors they
    raise; [notify_sock] is what [um.notify_socket()] answers. *)
Definition spawn_credentials (c : SectionService) (params : ExecParameters)
    : M (Svc E) (Result ExecParameters Error) :=
  let r := add_user (sc_User c) params in
  if is_err r.2 then mret (Err InvalidData) else
  r' ← munwrap (add_group (sc_Group c) r.1);
  if is_err r'.2 then mret (Err InvalidData) else
  let r := add_umask (UMask c) r'.1 in
  if is_err r.2 then mret (Err InvalidData) else
  let r := add_working_directory (WorkingDirectory c) r.1 in
  match r.2 with
  | Err e => mret (Err e)
  | Ok _ => mret (Ok (set_watchdog_usec (WatchdogSec c) r.1))
  end.

Definition start_service (cmdline : ExecCommand) (ec_flags : ExecFlags) : S E (Result Pid Error) :=
  s ← mget;
  let c := sv_conf s in
  let params := set_exec_flags ec_flags ExecParameters_new in
  let params := add_env "PATH" (default service_path (ex_var "PATH")) params in
  let params := match pd_main (sv_pid s) with
                | Some pid => add_env "MAINPID" (show_int pid) params
                | None => params
                end in
  match sv_owner s with
  | None => mret (Err spawn_error)
  | Some unit =>
    prep ← env_do (unit_prepare_exec unit);
    match prep with
    | Err e => mret (Err e)
    | Ok _ =>
      fds ← env_ask (um_collect_socket_fds unit);
      let params := if flags_contains ec_flags EXEC_PASS_FDS then insert_fds fds params else params in
      params ← (if bool_decide (sc_Type c = ServiceType.Notify) || (0 <? WatchdogSec c) then
        sock ← env_ask um_notify_socket;
        sock ← munwrap sock;
        mret (set_notify_sock sock (add_env "NOTIFY_SOCKET" sock params))
      else mret params);
      r ← spawn_credentials c params;
      match r with
      | Err e => mret (Err e)
      | Ok params =>
        ret ← env_do (um_exec_spawn unit cmdline params (sv_exec_ctx s));
        match ret with
        | Ok pid => env_modify (um_child_watch_pid unit pid);; mret (Ok pid)
        | Err _ => mret (Err spawn_error)
        end
      end
    end
  end.

(** ** State changes *)

(** [vec![..].contains(&state)]: the states with a main process, and those with
    a control process. *)
Definition keeps_main (st : ServiceState.t) : bool :=
  bool_decide (st ∈ [ServiceState.Start; ServiceState.StartPost; ServiceState.Running;
    ServiceState.Reload; ServiceState.Stop; ServiceState.StopWatchdog; ServiceState.StopSigterm;
    ServiceState.StopSigkill; ServiceState.StopPost; ServiceState.FinalWatchdog;
    ServiceState.FinalSigterm; ServiceState.FinalSigkill]).
Definition keeps_control (st : ServiceState.t) : bool :=
  bool_decide (st ∈ [ServiceState.Condition; ServiceState.StartPre; ServiceState.Start;
    ServiceState.StartPost; ServiceState.Reload; ServiceState.Stop; ServiceState.StopWatchdog;
    ServiceState.StopSigterm; ServiceState.StopSigkill; ServiceState.StopPost;
    ServiceState.FinalWatchdog; ServiceState.FinalSigterm; ServiceState.FinalSigkill;
    ServiceState.Cleaning]).

Definition set_state st : S E unit :=
  s0 ← mget;
  let original_state := sv_state s0 in
  mmodify (set_sv_state st);;
  mwhen (negb (keeps_main st)) (unwatch_main;; mmodify (set_sv_main_command []));;
  mwhen (negb (keeps_control st)) (unwatch_control;; mmodify (set_sv_control_command []));;
  s ← mget;
  let os := service_state_to_unit_state (sc_Type (sv_conf s)) original_state in
  let ns := service_state_to_unit_state (sc_Type (sv_conf s)) st in
  match sv_owner s with
  | Some _ => mmodify (set_sv_states (sv_states s ++
      [{| st_os := os; st_ns := ns; st_flags := UNIT_NOTIFY_RELOAD_FAILURE |}]))
  | None => mret tt
  end.

(** [if self.result() == Success { self.set_result(res) }] *)
Definition update_result res : S E unit :=
  s ← mget; mwhen (bool_decide (sv_result s = ServiceResult.Success)) (mmodify (set_sv_result res)).

Definition cgroup_good : S E bool :=
  s ← mget;
  mret (match sv_owner s with
        | Some u => match unit_cg_is_empty u (sv_env s) with Ok v => negb v | Err _ => false end
        | None => false
        end).

Definition service_alive : S E bool :=
  s ← mget;
  match pd_main_alive (λ p, os_alive p (sv_env s)) (sv_pid s) with
  | Ok v => mret v
  | Err _ => cgroup_good
  end.

(** ** Timers *)
Definition enable_timer (usec : Z) : S E unit :=
  s ← mget;
  if is_some (rd_timer (sv_rd s)) then
    rd_modify (set_rd_timer (Some usec));;
    r ← env_do (ev_set_enabled (timer_source usec) OneShot); munwrap_ok r
  else
    rd_modify (set_rd_timer (Some usec));;
    r ← env_do (ev_add_source (timer_source usec)); munwrap_ok r;;
    r ← env_do (ev_set_enabled (timer_source usec) OneShot); munwrap_ok r.

Definition stop_watchdog : S E unit :=
  s ← mget;
  match rd_watchdog (sv_rd s) with
  | Some time => r ← env_do (ev_del_source (watchdog_source time)); munwrap_ok r
  | None => mret tt
  end.

Definition restart_watchdog : S E unit :=
  mmodify (λ s, set_sv_monitor (set_original_watchdog (WatchdogSec (sv_conf s)) (sv_monitor s)) s);;
  s ← mget;
  let usec := watchdog_usec (sv_monitor s) in
  if (usec =? 0) || (usec =? u64_max) then stop_watchdog else
  match rd_watchdog (sv_rd s) with
  | Some time =>
    r ← env_do (ev_del_source (watchdog_source time)); munwrap_ok r;;
    rd_modify (set_rd_watchdog (Some usec));;
    r ← env_do (ev_add_source (watchdog_source usec)); munwrap_ok r;;
    r ← env_do (ev_set_enabled (watchdog_source usec) OneShot); munwrap_ok r
  | None =>
    rd_modify (set_rd_watchdog (Some usec));;
    r ← env_do (ev_add_source (watchdog_source usec)); munwrap_ok r;;
    r ← env_do (ev_set_enabled (watchdog_source usec) OneShot); munwrap_ok r
  end.
Definition override_watchdog_usec (usec : Z) : S E unit :=
  mmodify (λ s, set_sv_monitor (monitor_override_watchdog_usec usec (sv_monitor s)) s);;
  restart_watchdog.

(** ** The way down: signal, stop, dead *)
Definition shall_restart s : bool :=
  if rd_forbid_restart (sv_rd s) then false else
  if exit_status_enabled (rd_exec_status (sv_rd s)) (RestartPreventExitStatus (sv_conf s)) then false else
  match Restart (sv_conf s) with
  | ServiceRestart.No => false
  | ServiceRestart.OnSuccess => bool_decide (sv_result s = ServiceResult.Success)
  | ServiceRestart.OnFailure =>
    negb (bool_decide (sv_result s ∈ [ServiceResult.Success; ServiceResult.SkipCondition]))
  | ServiceRestart.OnWatchdog => bool_decide (sv_result s = ServiceResult.FailureWatchdog)
  | ServiceRestart.OnAbnormal =>
    negb (bool_decide (sv_result s ∈ [ServiceResult.Success; ServiceResult.FailureExitCode;
                                      ServiceResult.SkipCondition]))
  | ServiceRestart.OnAbort =>
    bool_decide (sv_result s ∈ [ServiceResult.FailureSignal; ServiceResult.FailureCoreDump])
  | ServiceRestart.Always => negb (bool_decide (sv_result s = ServiceResult.SkipCondition))
  end.

Definition enter_dead res (force_restart : bool) : S E unit :=
  s ← mget;
  match sv_owner s with
  | None => mret tt
  | Some u =>
    let restart := if um_has_stop_job u (sv_env s) then false else force_restart in
    update_result res;;
    s ← mget;
    let state := if bool_decide (sv_result s = ServiceResult.Success)
                 then ServiceState.Dead else ServiceState.Failed in
    let restart := if negb restart then restart else shall_restart s in
    set_state state;;
    (if restart then
       s ← mget;
       enable_timer (RestartSec (sv_conf s));;
       set_state ServiceState.AutoRestart
     else rd_modify (set_rd_reset_restarts true));;
    rd_modify (set_rd_forbid_restart false)
  end.

(** [enter_stop_post] and [enter_signal] call each other; [signal] is the
    recursive call. *)
Definition enter_stop_post_with (signal : ServiceState.t → ServiceResult.t → S E unit) res : S E unit :=
  update_result res;;
  control_command_fill ServiceCommand.StopPost;;
  c ← control_command_pop;
  match c with
  | Some cmd =>
    r ← start_service cmd EXEC_CONTROL;
    match r with
    | Ok pid => pid_modify (pd_set_control pid);; set_state ServiceState.StopPost
    | Err _ => signal ServiceState.FinalSigterm ServiceResult.FailureResources
    end
  | None => signal ServiceState.FinalSigterm ServiceResult.Success
  end.

Definition is_stop_signal st : bool :=
  bool_decide (st ∈ [ServiceState.StopWatchdog; ServiceState.StopSigterm; ServiceState.StopSigkill]).
Definition is_final_signal st : bool :=
  bool_decide (st ∈ [ServiceState.FinalWatchdog; ServiceState.FinalSigterm]).

Fixpoint enter_signal_fuel (fuel : nat) st res : S E unit :=
  match fuel with
  | O => mnofuel
  | Datatypes.S fuel' =>
    s ← mget;
    r ← match sv_owner s with
        | Some u =>
          env_modify (um_child_watch_all_pids u);;
          env_do (unit_kill_context u (sv_kill_context s) (pd_main (sv_pid s))
                    (pd_control (sv_pid s)) (to_kill_operation st))
        | None => mret (Ok tt)
        end;
    match r with
    | Err _ =>
      if is_stop_signal st
      then enter_stop_post_with (enter_signal_fuel fuel') ServiceResult.FailureResources
      else enter_dead ServiceResult.FailureResources true
    | Ok _ =>
      if is_stop_signal st
      then enter_stop_post_with (enter_signal_fuel fuel') ServiceResult.Success
      else if is_final_signal st
      then enter_signal_fuel fuel' ServiceState.FinalSigkill ServiceResult.Success
      else enter_dead ServiceResult.Success true
    end
  end.
(** A stop signal, the final one and the kill: three calls deep at most. *)
Definition signal_depth : nat := 3.
Definition enter_signal : ServiceState.t → ServiceResult.t → S E unit :=
  enter_signal_fuel signal_depth.
Definition enter_stop_post : ServiceResult.t → S E unit := enter_stop_post_with enter_signal.

Definition enter_stop res : S E unit :=
  update_result res;;
  control_command_fill ServiceCommand.Stop;;
  c ← control_command_pop;
  match c with
  | Some cmd =>
    r ← start_service cmd EXEC_CONTROL;
    match r with
    | Ok pid => pid_modify (pd_set_control pid);; set_state ServiceState.Stop
    | Err _ => enter_signal ServiceState.StopSigterm ServiceResult.FailureResources
    end
  | None => enter_signal ServiceState.StopSigterm ServiceResult.Success
  end.
Definition enter_stop_by_notify : S E unit := set_state ServiceState.StopSigterm.

(** ** The way up: condition, start, running *)
Definition enter_running res : S E unit :=
  unwatch_control;;
  update_result res;;
  s ← mget;
  if negb (bool_decide (sv_result s = ServiceResult.Success)) then
    enter_signal ServiceState.StopSigterm res
  else
    alive ← service_alive;
    if (alive : bool) then
      if bool_decide (rd_notify_state (sv_rd s) = NotifyState.Stopping)
      then enter_stop_by_notify else set_state ServiceState.Running
    else if RemainAfterExit (sv_conf s) then set_state ServiceState.Exited
    else enter_stop res.

Definition enter_start_post : S E unit :=
  unwatch_control;;
  restart_watchdog;;
  control_command_fill ServiceCommand.StartPost;;
  c ← control_command_pop;
  match c with
  | Some cmd =>
    r ← start_service cmd EXEC_CONTROL;
    match r with
    | Ok pid => pid_modify (pd_set_control pid);; set_state ServiceState.StartPost
    | Err _ => mret tt
    end
  | None => enter_running ServiceResult.Success
  end.

Definition exec_main_flags : ExecFlags := Z.lor EXEC_PASS_FDS EXEC_SOFT_WATCHDOG.

Definition enter_start : S E unit :=
  mmodify (set_sv_control_command []);;
  unwatch_control;;
  unwatch_main;;
  main_command_fill;;
  s ← mget;
  let service_type := sc_Type (sv_conf s) in
  c ← (if decide (service_type = ServiceType.Forking) then
         control_command_fill ServiceCommand.Start;; control_command_pop
       else main_command_fill;; main_command_pop);
  match c with
  | None =>
    if decide (service_type ≠ ServiceType.Oneshot) then
      enter_signal ServiceState.StopSigterm ServiceResult.FailureResources
    else set_state ServiceState.Start;; enter_start_post
  | Some cmd =>
    r ← start_service cmd exec_main_flags;
    match r with
    | Err _ => enter_signal ServiceState.StopSigterm ServiceResult.FailureResources
    | Ok pid =>
      match service_type with
      | ServiceType.Simple => set_main pid;; enter_start_post
      | ServiceType.Forking => pid_modify (pd_set_control pid);; set_state ServiceState.Start
      | ServiceType.Oneshot | ServiceType.Notify => set_main pid;; set_state ServiceState.Start
      | ServiceType.Idle | ServiceType.Exec => mpanic
      | ServiceType.TypeMax | ServiceType.TypeInvalid => mret tt
      end
    end
  end.

Definition enter_prestart : S E unit :=
  unwatch_control;;
  control_command_fill ServiceCommand.StartPre;;
  c ← control_command_pop;
  match c with
  | Some cmd =>
    r ← start_service cmd EXEC_CONTROL;
    match r with
    | Ok pid => pid_modify (pd_set_control pid);; set_state ServiceState.StartPre
    | Err _ => enter_dead ServiceResult.FailureResources true
    end
  | None => enter_start
  end.

Definition enter_contion : S E unit :=
  control_command_fill ServiceCommand.Condition;;
  c ← control_command_pop;
  match c with
  | Some cmd =>
    r ← start_service cmd EXEC_CONTROL;
    match r with
    | Ok pid => pid_modify (pd_set_control pid);; set_state ServiceState.Condition
    | Err _ => enter_dead ServiceResult.FailureResources true
    end
  | None => enter_prestart
  end.

Definition enter_reload : S E unit :=
  mmodify (set_sv_control_command []);;
  unwatch_control;;
  control_command_fill ServiceCommand.Reload;;
  c ← control_command_pop;
  match c with
  | Some cmd =>
    r ← start_service cmd EXEC_CONTROL;
    match r with
    | Ok pid => pid_modify (pd_set_control pid);; set_state ServiceState.Reload
    | Err _ => enter_running ServiceResult.Success
    end
  | None => enter_running ServiceResult.Success
  end.

Definition enter_restart : S E unit :=
  s ← mget;
  u ← munwrap (sv_owner s);
  if um_has_stop_job u (sv_env s) then mret tt else
  r ← env_do (um_restart_unit u);
  match r with
  | Err _ => enter_dead ServiceResult.FailureResources false
  | Ok _ =>
    rd_modify (λ d, set_rd_restarts (wrap_u32 (rd_restarts d + 1)) d);;
    rd_modify (set_rd_reset_restarts false)
  end.

Definition run_next_control : S E unit :=
  c ← control_command_pop;
  match c with
  | Some cmd =>
    r ← start_service cmd EXEC_CONTROL;
    match r with Ok pid => pid_modify (pd_set_control pid) | Err _ => mret tt end
  | None => mret tt
  end.
Definition run_next_main : S E unit :=
  c ← main_command_pop;
  match c with
  | Some cmd =>
    r ← start_service cmd exec_main_flags;
    match r with Ok pid => set_main pid;; mret tt | Err _ => mret tt end
  | None => mret tt
  end.

(** ** The main pid *)
Definition valid_main_pid pid : S E (Result bool Error) :=
  s ← mget;
  if decide (pid = os_getpid (sv_env s)) then
    mret (Err (ErrOther "main pid is the sysmaster's pid"))
  else if decide (pd_control (sv_pid s) = Some pid) then
    mret (Err (ErrOther "main pid is the control process"))
  else if negb (os_alive pid (sv_env s)) then mret (Err (ErrOther "main pid is not alive"))
  else mret (Ok (um_same_unit_with_pid (get_owner_id s) pid (sv_env s))).

Definition load_pid_file : S E (Result bool Error) :=
  s ← mget;
  match PIDFile (sv_conf s) with
  | None => mret (Err (ErrOther "pid file is not configured"))
  | Some file =>
    if negb (os_pid_file_exists file (sv_env s)) then
      mret (Err (ErrOther "pid file is not a file or not exist"))
    else match os_first_line file (sv_env s) with
    | None => mret (Err (ErrOther "Parse"))
    | Some line =>
      match parse_i32 (trim line) with
      | None => mret (Err (ErrOther "parsed the pid from pid file failed"))
      | Some pid =>
        if decide (pd_main (sv_pid s) = Some pid) then mret (Ok false) else
        v ← valid_main_pid pid;
        match v with
        | Err e => mret (Err e)
        | Ok _ =>
          unwatch_main;;
          ok ← set_main pid;
          if negb ok then mret (Err (ErrOther "invalid main pid")) else
          child_watch_pid pid;;
          mret (Ok true)
        end
      end
    end
  end.

Definition guess_main_pid : S E unit :=
  s ← mget;
  match pd_main (sv_pid s), sv_owner s with
  | Some _, _ | _, None => mret tt
  | None, Some u =>
    match unit_guess_main_pid u (sv_env s) with
    | Err _ => mret tt
    | Ok pid =>
      ok ← set_main pid;
      if (ok : bool) then child_watch_pid pid else mret tt
    end
  end.

(** ** The watch of the pid file ([PathIntofy]) *)
Definition pi_modify (f : PathIntofy → PathIntofy) : S E unit :=
  rd_modify (λ d, set_rd_path_inotify (f <$> rd_path_inotify d) d).
Definition path_inotify : S E PathIntofy :=
  s ← mget; munwrap (rd_path_inotify (sv_rd s)).

Definition unwatch : S E unit :=
  p ← path_inotify;
  env_modify (os_close (pi_inotify p));;
  pi_modify (λ p, {| pi_path := pi_path p; pi_inotify := -1; pi_wd := pi_wd p |}).
Definition unwatch_pid_file : S E unit := unwatch.

(** The loop over the ancestors of the path: the first that can be watched. *)
Fixpoint watch_ancestors (fd : Z) (primary : bool) (paths : list string) : S E bool :=
  match paths with
  | [] => mret false
  | anster :: paths' =>
    r ← env_do (os_inotify_add_watch fd anster primary);
    match r with
    | Some wd =>
      (if primary then
         pi_modify (λ p, {| pi_path := pi_path p; pi_inotify := pi_inotify p; pi_wd := Some wd |})
       else mret tt);;
      mret true
    | None => watch_ancestors fd false paths'
    end
  end.

Definition add_watch_path : S E (Result bool Error) :=
  unwatch;;
  r ← env_do os_inotify_init;
  match r with
  | None => mret (Err (ErrOther "create initofy fd err"))
  | Some fd =>
    pi_modify (λ p, {| pi_path := pi_path p; pi_inotify := fd; pi_wd := pi_wd p |});;
    p ← path_inotify;
    exist ← watch_ancestors fd true (path_ancestors (pi_path p));
    if negb exist then mret (Err (ErrOther "watch on any of the ancestor failed"))
    else mret (Ok true)
  end.

Definition retry_pid_file : S E (Result bool Error) :=
  r ← load_pid_file;
  match r with
  | Err e => mret (Err e)
  | Ok _ => unwatch_pid_file;; enter_running ServiceResult.Success;; mret (Ok true)
  end.

Definition watch_pid_file : S E (Result unit Error) :=
  path_inotify;;
  r ← add_watch_path;
  match r with
  | Ok _ =>
    p ← path_inotify;
    r ← env_do (ev_add_source (path_source p)); munwrap_ok r;;
    r ← env_do (ev_set_enabled (path_source p) On); munwrap_ok r;;
    retry_pid_file;;
    mret (Ok tt)
  | Err e => unwatch_pid_file;; mret (Err e)
  end.

Definition demand_pid_file : S E (Result unit Error) :=
  s ← mget;
  file ← munwrap (PIDFile (sv_conf s));
  rd_modify (set_rd_path_inotify (Some (PathIntofy_new file)));;
  watch_pid_file.

(** [read_fd_event]: whether the watch of the path itself fired. *)
Definition read_fd_event : S E (Result bool Error) :=
  p ← path_inotify;
  r ← env_do (os_read_events (pi_inotify p));
  match r with
  | Err e => if os_read_again e then mret (Ok false) else mret (Err e)
  | Ok wds => mret (Ok (match pi_wd p with Some wd => bool_decide (wd ∈ wds) | None => false end))
  end.

(** [PathIntofy::do_dispatch] and its [Source::dispatch]. *)
Definition path_do_dispatch : S E Z :=
  r ← read_fd_event;
  match r with
  | Err _ => mret (-1)
  | Ok _ =>
    r ← retry_pid_file;
    if is_ok r then mret 0 else
    r ← watch_pid_file;
    if is_ok r then mret 0 else
    unwatch_pid_file;;
    enter_signal ServiceState.StopSigterm ServiceResult.FailureResources;;
    mret 0
  end.
Definition path_dispatch : S E Z := ret ← path_do_dispatch; mng_db_insert;; mret ret.

(** [ServiceTimer::do_dispatch]: the other states are [todo!()]. *)
Definition timer_dispatch : S E Z :=
  s ← mget;
  match sv_state s with
  | ServiceState.Running => enter_stop ServiceResult.FailureTimeout;; mret 0
  | ServiceState.AutoRestart => enter_restart;; mret 0
  | _ => mpanic
  end.
(** [ServiceMonitorData::do_dispatch] *)
Definition watchdog_dispatch : S E Z :=
  enter_signal ServiceState.StopWatchdog ServiceResult.FailureWatchdog;; mret 0.
Definition force_watchdog : S E unit :=
  enter_signal ServiceState.StopWatchdog ServiceResult.FailureWatchdog.

(** ** A child ended *)

(** [None] is [unreachable!()]. *)
Definition sigchld_result (w : WaitStatus) : option ServiceResult.t :=
  match w with
  | Exited _ status =>
    Some (if status =? 0 then ServiceResult.Success else ServiceResult.FailureExitCode)
  | Signaled _ _ core_dump =>
    Some (if (core_dump : bool) then ServiceResult.FailureCoreDump else ServiceResult.FailureSignal)
  | _ => None
  end.

(** The main process ended and it left no other behind. *)
Definition sigchld_main_gone res : S E unit :=
  s ← mget;
  let ty := sc_Type (sv_conf s) in
  match sv_state s with
  | ServiceState.Dead => mpanic
  | ServiceState.Start =>
    if decide (ty = ServiceType.Oneshot) then
      if decide (res = ServiceResult.Success) then enter_start_post
      else enter_signal ServiceState.StopSigterm res
    else if decide (ty = ServiceType.Notify) then
      if decide (res ≠ ServiceResult.Success) then enter_signal ServiceState.StopSigterm res
      else enter_signal ServiceState.StopSigterm ServiceResult.FailureProtocol
    else enter_running res
  | ServiceState.StartPost | ServiceState.Reload =>
    mwhen (is_some (pd_control (sv_pid s))) (enter_stop res)
  | ServiceState.Running => enter_running res
  | ServiceState.Stop => mret tt
  | ServiceState.StopWatchdog | ServiceState.StopSigkill | ServiceState.StopSigterm =>
    enter_stop_post res
  | ServiceState.FinalSigterm | ServiceState.FinalSigkill => enter_dead res true
  | _ => mret tt
  end.

Definition sigchld_main (w : WaitStatus) res : S E unit :=
  r ← load_pid_file;
  if (match r with Ok v => v | Err _ => false end) then mret tt else
  pid_modify pd_reset_main;;
  rd_modify (set_rd_exec_status w);;
  update_result res;;
  s ← mget;
  if negb (bool_decide (sv_main_command s = [])) && bool_decide (res = ServiceResult.Success)
     && bool_decide (sc_Type (sv_conf s) = ServiceType.Oneshot)
  then run_next_main
  else
    mmodify (set_sv_main_command []);;
    good ← cgroup_good;
    if (good : bool) then mret tt else sigchld_main_gone res.

(** What follows when the pid file could not be loaded: watch it. *)
Definition demand_or (down : S E unit) : S E unit :=
  r ← demand_pid_file;
  match r with
  | Ok _ =>
    good ← cgroup_good;
    if (good : bool) then mret tt else down
  | Err _ => enter_signal ServiceState.StopSigterm ServiceResult.FailureProtocol
  end.

(** The control process of a forking service ended while it starts. *)
Definition sigchld_control_start res : S E unit :=
  s ← mget;
  if decide (sc_Type (sv_conf s) ≠ ServiceType.Forking) then mret tt else
  if decide (res ≠ ServiceResult.Success) then enter_signal ServiceState.StopSigterm res else
  match PIDFile (sv_conf s) with
  | Some _ =>
    let start_post_exist :=
      match get_exec_cmds ServiceCommand.StartPost (sv_conf s) with
      | Some cmds => negb (bool_decide (cmds = []))
      | None => false
      end in
    loaded ← load_pid_file;
    if is_err loaded && negb start_post_exist then
      demand_or (enter_signal ServiceState.StopSigterm ServiceResult.FailureProtocol)
    else enter_start_post;; enter_start_post
  | None => guess_main_pid;; enter_start_post
  end.

Definition sigchld_control_start_post res : S E unit :=
  mwhen (negb (bool_decide (res = ServiceResult.Success)))
    (enter_signal ServiceState.StopSigterm res);;
  s ← mget;
  match PIDFile (sv_conf s) with
  | Some _ =>
    loaded ← load_pid_file;
    if is_err loaded then demand_or (enter_stop ServiceResult.FailureProtocol)
    else enter_running ServiceResult.Success
  | None => guess_main_pid;; enter_running ServiceResult.Success
  end.

Definition sigchld_control res : S E unit :=
  pid_modify pd_reset_control;;
  s ← mget;
  if negb (bool_decide (sv_control_command s = [])) && bool_decide (res = ServiceResult.Success)
  then run_next_control
  else
    mmodify (set_sv_control_command []);;
    let up next := if decide (res = ServiceResult.Success) then next
                   else enter_signal ServiceState.StopSigterm res in
    match sv_state s with
    | ServiceState.Condition => up enter_prestart
    | ServiceState.StartPre => up enter_start
    | ServiceState.Start => sigchld_control_start res
    | ServiceState.StartPost => sigchld_control_start_post res
    | ServiceState.Running => mpanic
    | ServiceState.Reload => enter_running res
    | ServiceState.Stop => enter_signal ServiceState.StopSigterm res
    | ServiceState.StopSigterm | ServiceState.StopSigkill | ServiceState.StopWatchdog =>
      enter_stop_post res
    | ServiceState.StopPost => enter_signal ServiceState.FinalSigterm res
    | ServiceState.FinalSigterm | ServiceState.FinalSigkill => enter_dead res true
    | _ => mret tt
    end.

Definition do_sigchld_event (w : WaitStatus) : S E unit :=
  pid ← munwrap (wait_pid w);
  res ← munwrap (sigchld_result w);
  s ← mget;
  if decide (pd_main (sv_pid s) = Some pid) then sigchld_main w res
  else if decide (pd_control (sv_pid s) = Some pid) then sigchld_control res
  else mret tt.
Definition sigchld_event (w : WaitStatus) : S E unit := do_sigchld_event w;; mng_db_insert.

(** ** Notification messages *)

(** [MAINPID=]; [Some e] is the early return of an error. *)
Definition notify_main_pid (ucred_pid : Pid) (pidr : string) : S E (option Error) :=
  s ← mget;
  if negb (bool_decide (sv_state s ∈ [ServiceState.Start; ServiceState.StartPost;
                                      ServiceState.Running])) then mret None else
  match parse_i32 pidr with
  | None => mret (Some (ErrOther "ParseIntError"))
  | Some main_pid =>
    if decide (pd_main (sv_pid s) = Some main_pid) then mret None else
    v ← valid_main_pid main_pid;
    match v with
    | Err e => mret (Some e)
    | Ok valid =>
      if (ucred_pid =? 0) || valid then
        set_main main_pid;; child_watch_pid main_pid;; mret None
      else mret None
    end
  end.

Definition notify_entry (key value : string) : S E unit :=
  mwhen (bool_decide (key = "READY"%string ∧ value = "1"%string)) (
    rd_modify (set_rd_notify_state NotifyState.Ready);;
    s ← mget;
    mwhen (bool_decide (sc_Type (sv_conf s) = ServiceType.Notify)
           && bool_decide (sv_state s = ServiceState.Start)) enter_start_post);;
  mwhen (bool_decide (key = "STOPPING"%string ∧ value = "1"%string)) (
    rd_modify (set_rd_notify_state NotifyState.Stopping);;
    s ← mget;
    mwhen (bool_decide (sv_state s = ServiceState.Running)) enter_stop_by_notify);;
  mwhen (bool_decide (key = "ERRNO"%string)) (
    match parse_i32 value with
    | Some e => rd_modify (set_rd_errno e)
    | None => mret tt
    end);;
  mwhen (bool_decide (key = "WATCHDOG"%string)) (
    if decide (value = "1"%string) then restart_watchdog
    else if decide (value = "trigger"%string) then force_watchdog
    else s ← mget; munwrap (sv_owner s);; mret tt);;
  mwhen (bool_decide (key = "WATCHDOG_USEC"%string)) (
    match parse_u64 value with
    | Some v => override_watchdog_usec v
    | None => mret tt
    end).

Definition do_notify_message (ucred_pid : Pid) (messages : gmap string string)
    : S E (Result unit Error) :=
  r ← match messages !! "MAINPID"%string with
      | Some pidr => notify_main_pid ucred_pid pidr
      | None => mret None
      end;
  match r with
  | Some e => mret (Err e)
  | None => mforeach (λ kv, notify_entry kv.1 kv.2) (hm_iter messages);; mret (Ok tt)
  end.
Definition notify_message (ucred_pid : Pid) (messages : gmap string string)
    : S E (Result unit Error) :=
  ret ← do_notify_message ucred_pid messages; mng_db_insert;; mret ret.

(** ** The unit ([unit.rs]) *)
Definition is_stopping st : bool :=
  bool_decide (st ∈ [ServiceState.Stop; ServiceState.StopWatchdog; ServiceState.StopSigterm;
    ServiceState.StopSigkill; ServiceState.StopPost; ServiceState.FinalWatchdog;
    ServiceState.FinalSigterm; ServiceState.FinalSigkill; ServiceState.Cleaning]).
Definition is_starting st : bool :=
  bool_decide (st ∈ [ServiceState.Condition; ServiceState.StartPre; ServiceState.Start;
    ServiceState.StartPost]).

Definition start_check : S E (Result bool Error) :=
  s ← mget;
  if is_stopping (sv_state s) then mret (Err UnitActionEAgain) else
  if is_starting (sv_state s) then mret (Ok true) else
  ret ← match sv_owner s with
        | Some u => env_do (unit_test_start_limit u)
        | None => mret false
        end;
  if negb ret then
    enter_dead ServiceResult.FailureStartLimitHit false;;
    mret (Err UnitActionECanceled)
  else mret (Ok false).

Definition start_action : S E unit :=
  s ← mget;
  mwhen (rd_reset_restarts (sv_rd s)) (
    rd_modify (set_rd_restarts 0);;
    rd_modify (set_rd_reset_restarts false));;
  mmodify (set_sv_result ServiceResult.Success);;
  enter_contion;;
  mng_db_insert.

Definition start : S E (Result unit Error) :=
  started ← start_check;
  match started with
  | Err e => mret (Err e)
  | Ok true => mret (Ok tt)
  | Ok false => start_action;; mret (Ok tt)
  end.

Definition signal_on_stop st : bool :=
  bool_decide (st ∈ [ServiceState.Condition; ServiceState.StartPre; ServiceState.Start;
    ServiceState.StartPost; ServiceState.Reload; ServiceState.StopWatchdog]).
Definition stop_action : S E unit :=
  rd_modify (set_rd_forbid_restart true);;
  s ← mget;
  (if signal_on_stop (sv_state s)
   then enter_signal ServiceState.StopSigterm ServiceResult.Success
   else enter_stop ServiceResult.Success);;
  mng_db_insert.
(** [stop_check] answers [Ok(())] in every state, so [force] makes no difference. *)
Definition stop (force : bool) : S E (Result unit Error) := stop_action;; mret (Ok tt).

Definition reload : S E (Result unit Error) := enter_reload;; mng_db_insert;; mret (Ok tt).
Definition can_reload s : bool :=
  match get_exec_cmds ServiceCommand.Reload (sv_conf s) with
  | Some cmds => negb (bool_decide (cmds = []))
  | None => false
  end.
Definition current_active_state s : UnitActiveState :=
  service_state_to_unit_state (sc_Type (sv_conf s)) (sv_state s).

Definition attach_unit (u : UnitId) : S E unit := mmodify (set_sv_owner (Some u));; db_insert.

(** ** Loading ([unit.rs]): what follows the reading of the configuration *)
Definition parse_kill_context : S E (Result unit Error) :=
  s ← mget;
  mmodify (set_sv_kill_context {| kill_mode := sc_KillMode (sv_conf s);
                                  kill_signal := kill_signal (sv_kill_context s) |});;
  match sig_from_str (KillSignal (sv_conf s)) with
  | None => mret (Err (ErrOther "Nix"))
  | Some signal =>
    mmodify (set_sv_kill_context {| kill_mode := sc_KillMode (sv_conf s); kill_signal := signal |});;
    mret (Ok tt)
  end.

Definition parse_env (c : ExecContext) (env : string) : ExecContext :=
  match trim <$> split_char "="%char env with
  | [k; v] => insert_env k v c
  | _ => c
  end.

Definition parse : S E (Result unit Error) :=
  s ← mget;
  let c := sv_conf s in
  let ctx := foldl parse_env (sv_exec_ctx s) (default [] (Environment c)) in
  mmodify (set_sv_exec_ctx (insert_envs_files (EnvironmentFile c) ctx));;
  match sv_owner s, Sockets c with
  | Some owner, Some sockets =>
    mforeach (λ socket,
      env_do (um_unit_add_two_dependency owner UnitWants UnitAfter socket true MaskFile);;
      env_do (um_unit_add_dependency owner UnitTriggeredBy socket true MaskFile);;
      mret tt) sockets
  | _, _ => mret tt
  end;;
  parse_kill_context.

Definition add_default_dependencies : S E (Result unit Error) :=
  s ← mget;
  match sv_owner s with
  | None => mret (Ok tt)
  | Some u =>
    if negb (unit_default_dependencies u (sv_env s)) then mret (Ok tt) else
    r ← env_do (um_unit_add_two_dependency u UnitAfter UnitRequires SYSINIT_TARGET true MaskDefault);
    if is_err r then mret r else
    r ← env_do (um_unit_add_dependency u UnitAfter BASIC_TARGET true MaskDefault);
    if is_err r then mret r else
    env_do (um_unit_add_two_dependency u UnitBefore UnitConflicts SHUTDOWN_TARGET true MaskDefault)
  end.

Definition service_add_extras : S E (Result unit Error) :=
  s ← mget;
  mwhen (bool_decide (sc_Type (sv_conf s) = ServiceType.Notify)) (
    mmodify (λ s, set_sv_conf (set_notify_access AccessMain (sv_conf s)) s);;
    config_db_insert);;
  add_default_dependencies.

(** [service_verify], on the configuration. *)
Definition service_verify (c : SectionService) : Result unit Error :=
  let cmds := get_exec_cmds ServiceCommand.Start c in
  let empty := match cmds with None => true | Some l => bool_decide (l = []) end in
  if negb (RemainAfterExit c) && empty then Err (ErrOther "ConfigureError") else
  if bool_decide (sc_Type c ≠ ServiceType.Oneshot) && empty then Err (ErrOther "ConfigureError") else
  if bool_decide (sc_Type c ≠ ServiceType.Oneshot) && (1 <? length (default [] cmds))%nat
  then Err (ErrOther "ConfigureError") else
  if bool_decide (sc_Type c = ServiceType.Oneshot)
     && negb (bool_decide (Restart c ∈ [ServiceRestart.No; ServiceRestart.OnFailure;
          ServiceRestart.OnAbnormal; ServiceRestart.OnWatchdog; ServiceRestart.OnAbort]))
  then Err (ErrOther "ConfigureError") else Ok tt.

(** [SubUnit::load] once [conf] is what the unit files hold. *)
Definition load (conf : SectionService) : S E (Result unit Error) :=
  mmodify (set_sv_conf conf);;
  config_db_insert;;
  r ← parse;
  if is_err r then mret r else
  r ← service_add_extras;
  if is_err r then mret r else
  s ← mget; mret (service_verify (sv_conf s)).
End service.
