(* ===== verification/ServiceFacts.v ===== *)
(** * Facts about the service state machine

    Which fields each operation of [Service.v] leaves alone, where the calls
    that take a service down can land, and that a requested stop sticks. *)
From S2P Require Import Prelude UnitTypes ReDb StdString UnitEntry ExecParams UnitIf.
From S2P Require Import ServiceTypes ServiceStore Service.

Section facts.
Context `{HI : !HashIter} {E : Type} `{HX : !ExecEnv} `{HU : !UmIf E} `{HB : !UnitBase E}.
Context `{HL : !EventLoop ServiceSource E} `{HP : !Processes E} `{HF : !ServiceFiles E}.
Implicit Types (s : Svc E) (res : ServiceResult.t) (st : ServiceState.t) (pid : Pid).

(** ** The fields the state machine decides by *)
Definition forbid s : bool := rd_forbid_restart (sv_rd s).
Record same s s' : Prop := {
  sm_owner : sv_owner s' = sv_owner s;
  sm_conf : sv_conf s' = sv_conf s;
  sm_state : sv_state s' = sv_state s;
  sm_result : sv_result s' = sv_result s;
  sm_forbid : forbid s' = forbid s;
}.
#[local] Instance same_preorder : PreOrder same.
Proof. split; [done|]. intros s1 s2 s3 [] []. split; congruence. Qed.

Lemma keeps_env_do {A} (f : E → E * A) : keeps same (env_do f).
Proof. done. Qed.
Lemma keeps_env_modify (f : E → E) : keeps same (env_modify f).
Proof. done. Qed.
Lemma keeps_env_ask {A} (f : E → A) : keeps same (env_ask f).
Proof. done. Qed.
Lemma keeps_pid_modify f : keeps same (pid_modify f : S E unit).
Proof. done. Qed.
Lemma keeps_rd_modify f : (∀ d, rd_forbid_restart (f d) = rd_forbid_restart d) →
  keeps same (rd_modify f : S E unit).
Proof. intros Hf s. apply wtp_mmodify. split; try done. apply Hf. Qed.
Lemma keeps_set f : (∀ s, same s (f s)) → keeps same (mmodify f : S E unit).
Proof. apply keeps_modify. Qed.
Lemma keeps_munwrap_ok {A} (r : Result A Error) : keeps same (munwrap_ok r : S E A).
Proof. destruct r; [apply keeps_ret; apply _|done]. Qed.
#[local] Hint Resolve keeps_env_do keeps_env_modify keeps_env_ask keeps_pid_modify
  keeps_munwrap_ok : frames.
#[local] Hint Extern 1 (keeps same (rd_modify _)) => apply keeps_rd_modify; done : frames.
#[local] Hint Extern 1 (keeps same (mmodify _)) => apply keeps_set; done : frames.

Lemma keeps_child_unwatch_pid pid : keeps same (child_unwatch_pid pid).
Proof. unfold child_unwatch_pid. frame. Qed.
#[local] Hint Resolve keeps_child_unwatch_pid : frames.
Lemma keeps_unwatch_main : keeps same (unwatch_main : S E unit).
Proof. unfold unwatch_main. frame. Qed.
Lemma keeps_unwatch_control : keeps same (unwatch_control : S E unit).
Proof. unfold unwatch_control. frame. Qed.
#[local] Hint Resolve keeps_unwatch_main keeps_unwatch_control : frames.
Lemma keeps_set_main pid : keeps same (set_main pid : S E bool).
Proof. unfold set_main, data_set_main. frame. Qed.
Lemma keeps_child_watch_pid pid : keeps same (child_watch_pid pid : S E unit).
Proof. unfold child_watch_pid. frame. Qed.
Lemma keeps_main_fill : keeps same (main_command_fill : S E unit).
Proof. unfold main_command_fill. frame. Qed.
Lemma keeps_main_pop : keeps same (main_command_pop : S E _).
Proof. unfold main_command_pop. frame. Qed.
Lemma keeps_control_fill c : keeps same (control_command_fill c : S E unit).
Proof. unfold control_command_fill. frame. Qed.
Lemma keeps_control_pop : keeps same (control_command_pop : S E _).
Proof. unfold control_command_pop. frame. Qed.
Lemma keeps_mng_db_insert : keeps same (mng_db_insert : S E unit).
Proof. unfold mng_db_insert. frame. Qed.
#[local] Hint Resolve keeps_set_main keeps_child_watch_pid keeps_main_fill keeps_main_pop
  keeps_control_fill keeps_control_pop keeps_mng_db_insert : frames.
Lemma keeps_spawn_credentials c p : keeps same (spawn_credentials c p : S E _).
Proof. unfold spawn_credentials. frame. Qed.
#[local] Hint Resolve keeps_spawn_credentials : frames.
Lemma keeps_start_service cmd fl : keeps same (start_service cmd fl : S E _).
Proof. unfold start_service. frame. Qed.
Lemma keeps_cgroup_good : keeps same (cgroup_good : S E bool).
Proof. unfold cgroup_good. frame. Qed.
#[local] Hint Resolve keeps_start_service keeps_cgroup_good : frames.
Lemma keeps_service_alive : keeps same (service_alive : S E bool).
Proof. unfold service_alive. frame. Qed.
Lemma keeps_enable_timer t : keeps same (enable_timer t : S E unit).
Proof. unfold enable_timer. frame. Qed.
Lemma keeps_stop_watchdog : keeps same (stop_watchdog : S E unit).
Proof. unfold stop_watchdog. frame. Qed.
#[local] Hint Resolve keeps_service_alive keeps_enable_timer keeps_stop_watchdog : frames.
Lemma keeps_restart_watchdog : keeps same (restart_watchdog : S E unit).
Proof. unfold restart_watchdog. frame. Qed.
#[local] Hint Resolve keeps_restart_watchdog : frames.
Lemma keeps_override_watchdog t : keeps same (override_watchdog_usec t : S E unit).
Proof. unfold override_watchdog_usec. frame. Qed.
Lemma keeps_valid_main_pid pid : keeps same (valid_main_pid pid : S E _).
Proof. unfold valid_main_pid. frame. Qed.
#[local] Hint Resolve keeps_override_watchdog keeps_valid_main_pid : frames.
Lemma keeps_load_pid_file : keeps same (load_pid_file : S E _).
Proof. unfold load_pid_file. frame. Qed.
Lemma keeps_guess_main_pid : keeps same (guess_main_pid : S E unit).
Proof. unfold guess_main_pid. frame. Qed.
Lemma keeps_path_inotify : keeps same (path_inotify : S E _).
Proof. unfold path_inotify. frame. Qed.
Lemma keeps_pi_modify f : keeps same (pi_modify f : S E unit).
Proof. unfold pi_modify. frame. Qed.
#[local] Hint Resolve keeps_load_pid_file keeps_guess_main_pid keeps_path_inotify
  keeps_pi_modify : frames.
Lemma keeps_unwatch : keeps same (unwatch : S E unit).
Proof. unfold unwatch. frame. Qed.
#[local] Hint Resolve keeps_unwatch : frames.
Lemma keeps_unwatch_pid_file : keeps same (unwatch_pid_file : S E unit).
Proof. unfold unwatch_pid_file. frame. Qed.
Lemma keeps_watch_ancestors fd b l : keeps same (watch_ancestors fd b l : S E bool).
Proof. revert b. induction l as [|x l IH]; intros b; simpl; frame. Qed.
#[local] Hint Resolve keeps_unwatch_pid_file keeps_watch_ancestors : frames.
Lemma keeps_add_watch_path : keeps same (add_watch_path : S E _).
Proof. unfold add_watch_path. frame. Qed.
Lemma keeps_run_next_control : keeps same (run_next_control : S E unit).
Proof. unfold run_next_control. frame. Qed.
Lemma keeps_run_next_main : keeps same (run_next_main : S E unit).
Proof. unfold run_next_main. frame. Qed.
Lemma keeps_read_fd_event : keeps same (read_fd_event : S E _).
Proof. unfold read_fd_event. frame. Qed.
Lemma keeps_notify_main_pid p v : keeps same (notify_main_pid p v : S E _).
Proof. unfold notify_main_pid. frame. Qed.
#[local] Hint Resolve keeps_add_watch_path keeps_run_next_control keeps_run_next_main
  keeps_read_fd_event keeps_notify_main_pid : frames.

(** ** Where the way down lands *)

(** The service was declared dead, failed, or due for a restart, which a
    requested stop forbids. *)
Definition gone s s' : Prop :=
  forbid s' = false
  ∧ (sv_state s' = ServiceState.Dead ∨ sv_state s' = ServiceState.Failed
     ∨ sv_state s' = ServiceState.AutoRestart ∧ forbid s = false).
(** It is in one of the states [L] with its stop request still standing, or gone. *)
Record lands (L : list ServiceState.t) s s' : Prop := {
  ld_owner : sv_owner s' = sv_owner s;
  ld_conf : sv_conf s' = sv_conf s;
  ld_state : sv_state s' ∈ L ∧ forbid s' = forbid s ∨ gone s s';
}.

Lemma lands_weaken L L' s s' : L ⊆ L' → lands L s s' → lands L' s s'.
Proof. intros HL' [? ? Hs]. split; try done. destruct Hs as [[? ?]|]; [left|by right]. auto. Qed.
Lemma lands_same L s s1 s' : same s s1 → lands L s1 s' → lands L s s'.
Proof.
  intros [Ho Hc _ _ Hf] [Ho' Hc' Hs]. split; [congruence..|]. unfold gone in *. by rewrite Hf in Hs.
Qed.
Lemma lands_here L s s' : sv_owner s' = sv_owner s → sv_conf s' = sv_conf s →
  forbid s' = forbid s → sv_state s' ∈ L → lands L s s'.
Proof. split; [done..|by left]. Qed.

(** The steps of the proofs below: run what keeps the deciding fields, then go
    on in the store it ends in. *)
Lemma wtp_same {A B} (m : S E A) (k : A → S E B) s (Q : Svc E → B → Prop) :
  keeps same m → (∀ s' a, same s s' → wtp (k a) s' Q) → wtp (m ≫= k) s Q.
Proof. intros Hm Hk. apply wtp_bind. eapply wtp_mono; [apply Hm|]. intros s' a. apply Hk. Qed.

Lemma wtp_set_state st s :
  wtp (set_state st) s (λ s' _, sv_owner s' = sv_owner s ∧ sv_conf s' = sv_conf s
    ∧ sv_result s' = sv_result s ∧ forbid s' = forbid s ∧ sv_state s' = st).
Proof.
  unfold set_state. apply wtp_bind, wtp_mget, wtp_bind, wtp_mmodify.
  apply wtp_same; [frame|]. intros s1 _ H1. apply wtp_same; [frame|]. intros s2 _ H2.
  apply wtp_bind, wtp_mget. destruct H1 as [], H2 as [].
  case_match; [apply wtp_mmodify|apply wtp_ret]; unfold forbid in *; simpl in *;
    repeat split; congruence.
Qed.

Lemma wtp_update_result res s :
  wtp (update_result res) s (λ s' _, sv_owner s' = sv_owner s ∧ sv_conf s' = sv_conf s
    ∧ forbid s' = forbid s ∧ sv_state s' = sv_state s
    ∧ sv_result s' = if decide (sv_result s = ServiceResult.Success) then res else sv_result s).
Proof.
  unfold update_result. apply wtp_bind, wtp_mget, wtp_mwhen.
  case_bool_decide; [apply wtp_mmodify|]; by case_decide.
Qed.

Lemma shall_restart_forbid s : forbid s = true → shall_restart s = false.
Proof. unfold forbid, shall_restart. by intros ->. Qed.

(** What a dead service says of its result, and when it restarts. *)
Definition verdict s s' : Prop :=
  (sv_state s' = ServiceState.Dead → sv_result s' = ServiceResult.Success)
  ∧ (sv_state s' = ServiceState.Failed → sv_result s' ≠ ServiceResult.Success)
  ∧ (sv_state s' = ServiceState.AutoRestart → Restart (sv_conf s) = ServiceRestart.OnFailure →
     sv_result s' ≠ ServiceResult.Success).

(** With [Restart=always] it restarts, unless a stop is wanted; the timer is armed. *)
Definition revives s s' : Prop :=
  (∀ u e, um_has_stop_job u e = false) → forbid s = false →
  RestartPreventExitStatus (sv_conf s) = ExitStatusSet_default →
  Restart (sv_conf s) = ServiceRestart.Always → sv_result s' ≠ ServiceResult.SkipCondition →
  sv_state s' = ServiceState.AutoRestart ∧ rd_timer (sv_rd s') = Some (RestartSec (sv_conf s)).

(** A state change leaves the running data alone. *)
Definition same_rd s s' : Prop := sv_rd s' = sv_rd s.
#[local] Instance same_rd_preorder : PreOrder same_rd.
Proof. split; [done|]. unfold same_rd. intros ? ? ? ? ?. congruence. Qed.
Lemma keeps_rd_set_state st : keeps same_rd (set_state st : S E unit).
Proof.
  assert (∀ f, (∀ s, same_rd s (f s)) → keeps same_rd (mmodify f : S E unit)) as Hm by apply keeps_modify.
  assert (∀ p, keeps same_rd (child_unwatch_pid p : S E unit)) as Hc.
  { intros p. unfold child_unwatch_pid. apply keeps_mget. intros s. by case_match. }
  assert (keeps same_rd (unwatch_main : S E unit)) as Hu.
  { unfold unwatch_main. apply keeps_bind; [apply _|apply keeps_get; apply _|intros s].
    case_match; [apply keeps_bind; [apply _|apply Hc|intros; by apply Hm]|apply keeps_ret; apply _]. }
  assert (keeps same_rd (unwatch_control : S E unit)) as Hu'.
  { unfold unwatch_control. apply keeps_bind; [apply _|apply keeps_get; apply _|intros s].
    case_match; [apply keeps_bind; [apply _|apply Hc|intros; by apply Hm]|apply keeps_ret; apply _]. }
  unfold set_state. repeat first [apply Hm; done | apply Hu | apply Hu' | frame_step].
Qed.
Lemma wtp_munwrap_ok {A} (r : Result A Error) s (Q : Svc E → A → Prop) :
  (∀ a, Q s a) → wtp (munwrap_ok r) s Q.
Proof. destruct r; [intros HQ; apply wtp_ret, HQ|done]. Qed.
Lemma wtp_enable_timer t s :
  wtp (enable_timer t) s (λ s' _, same s s' ∧ rd_timer (sv_rd s') = Some t).
Proof.
  unfold enable_timer. apply wtp_bind, wtp_mget. case_match; apply wtp_bind, wtp_mmodify;
    repeat first [apply wtp_munwrap_ok; intros ? | apply wtp_bind, wtp_env_do | apply wtp_bind]; done.
Qed.

Lemma wtp_enter_dead res fr s : is_Some (sv_owner s) →
  wtp (enter_dead res fr) s (λ s' _, lands [] s s' ∧ verdict s s'
    ∧ sv_result s' = (if decide (sv_result s = ServiceResult.Success) then res else sv_result s)
    ∧ (fr = true → revives s s')).
Proof.
  intros [u Hu]. unfold enter_dead. apply wtp_bind, wtp_mget. rewrite Hu.
  apply wtp_bind. eapply wtp_mono; [apply wtp_update_result|].
  intros s1 _ (Ho1 & Hc1 & Hf1 & Hs1 & Hr1). apply wtp_bind, wtp_mget.
  apply wtp_bind. eapply wtp_mono; [apply wtp_set_state|].
  intros s2 _ (Ho2 & Hc2 & Hr2 & Hf2 & Hs2). apply wtp_bind.
  match goal with |- context [if ?b then _ else _] => destruct b eqn:Hb end.
  - apply wtp_bind, wtp_mget, wtp_bind. eapply wtp_mono; [apply wtp_enable_timer|].
    intros s3 _ [[] Ht3]. eapply wtp_mono; [apply wtp_and; [apply wtp_set_state|apply keeps_rd_set_state]|].
    intros s4 _ [(Ho4 & Hc4 & Hr4 & Hf4 & Hs4) Hrd].
    assert (shall_restart s1 = true) as Hr by (by destruct (um_has_stop_job _ _), fr).
    apply wtp_mmodify. split_and!; [split; simpl; try congruence| |simpl; congruence|].
    + right. split; [done|]. right; right. split; [done|].
      destruct (forbid s) eqn:Hf; [|done]. rewrite shall_restart_forbid in Hr by congruence. done.
    + unfold verdict. simpl. rewrite Hs4. split_and!; [done..|]. intros _ Hconf Hok.
      unfold shall_restart in Hr. rewrite Hc1, Hconf in Hr.
      replace (sv_result s1) with ServiceResult.Success in Hr by congruence.
      repeat case_match; done.
    + intros _ _ _ _ _ _. unfold same_rd in Hrd. simpl. rewrite Hrd. split; congruence.
  - apply wtp_mmodify, wtp_mmodify. unfold verdict. simpl. rewrite Hs2.
    split_and!; [split; simpl; try congruence| | | |congruence|]; rewrite ?Hr2.
    1: right; split; [done|]; simpl; rewrite Hs2.
    1-4: case_bool_decide; auto; done.
    intros -> Hstop Hf Hprev Hconf Hskip. exfalso. simpl in Hskip. rewrite Hr2 in Hskip.
    rewrite Hstop in Hb. simpl in Hb. unfold shall_restart, forbid in *.
    rewrite Hf1, Hf, Hc1, Hprev, Hconf in Hb. rewrite bool_decide_false in Hb by done.
    destruct (rd_exec_status _); done.
Qed.

Lemma wtp_stop_post_with signal res s :
  is_Some (sv_owner s) →
  (∀ r s, is_Some (sv_owner s) →
     wtp (signal ServiceState.FinalSigterm r) s (λ s' _, lands [ServiceState.StopPost] s s')) →
  wtp (enter_stop_post_with signal res) s (λ s' _, lands [ServiceState.StopPost] s s').
Proof.
  intros Ho Hsig. unfold enter_stop_post_with. apply wtp_bind.
  eapply wtp_mono; [apply wtp_update_result|]. intros s1 _ (Ho1 & Hc1 & Hf1 & Hs1 & _).
  apply wtp_same; [frame|]. intros s2 _ H2. apply wtp_same; [frame|]. intros s3 c H3.
  assert (is_Some (sv_owner s3)) as Ho3.
  { destruct H2, H3. by replace (sv_owner s3) with (sv_owner s) by congruence. }
  assert (∀ s', lands [ServiceState.StopPost] s3 s' → lands [ServiceState.StopPost] s s') as Hl.
  { intros s' [? ? Hs]. destruct H2, H3. split; [congruence..|].
    unfold gone in *. by replace (forbid s) with (forbid s3) by congruence. }
  destruct c as [cmd|]; [|by eapply wtp_mono; [by apply Hsig|eauto]].
  apply wtp_same; [frame|]. intros s4 [pid|e] H4.
  - apply wtp_same; [frame|]. intros s5 _ H5. eapply wtp_mono; [apply wtp_set_state|].
    intros s6 _ (Ho6 & Hc6 & Hr6 & Hf6 & Hs6). destruct H4, H5.
    apply Hl, lands_here; try congruence. rewrite Hs6. by left.
  - eapply wtp_mono; [apply Hsig|].
    { destruct H4. by replace (sv_owner s4) with (sv_owner s3). }
    intros s5 [] H5. by eapply Hl, lands_same.
Qed.

Lemma wtp_enter_signal_fuel n st res s :
  is_Some (sv_owner s) →
  ((if is_stop_signal st then 3 else if is_final_signal st then 2 else 1) ≤ n)%nat →
  wtp (enter_signal_fuel n st res) s (λ s' _, lands [ServiceState.StopPost] s s').
Proof.
  revert st res s. induction n as [|n IH]; intros st res s Ho Hn; [repeat case_match; lia|].
  cbn [enter_signal_fuel]. apply wtp_bind, wtp_mget. apply wtp_same; [frame|]. intros s1 r H1.
  assert (is_Some (sv_owner s1)) as Ho1 by (destruct H1; congruence).
  assert (∀ L s', lands L s1 s' → L ⊆ [ServiceState.StopPost] → lands [ServiceState.StopPost] s s')
    as Hl by (intros; eapply lands_same; [done|]; by eapply lands_weaken).
  assert (∀ r s, is_Some (sv_owner s) → is_stop_signal st = true →
    wtp (enter_signal_fuel n ServiceState.FinalSigterm r) s
      (λ s' _, lands [ServiceState.StopPost] s s')) as Hfinal.
  { intros r' s' Ho' Hst. apply IH; [done|]. rewrite Hst in Hn. simpl. lia. }
  assert (∀ r fr, wtp (enter_dead r fr) s1 (λ s' _, lands [ServiceState.StopPost] s s')) as Hdead.
  { intros r' fr. eapply wtp_mono; [by apply wtp_enter_dead|]. intros s' [] (Hd & _).
    eapply Hl; [done|set_solver]. }
  assert (∀ r, is_stop_signal st = true → wtp (enter_stop_post_with (enter_signal_fuel n) r) s1
    (λ s' _, lands [ServiceState.StopPost] s s')) as Hpost.
  { intros r' Hst. eapply wtp_mono; [apply wtp_stop_post_with; [done|]|].
    - intros. by apply Hfinal.
    - intros s' [] Hd. eapply Hl; [done|set_solver]. }
  destruct r; destruct (is_stop_signal st); auto.
  destruct (is_final_signal st); [|auto]. eapply wtp_mono; [apply IH; [done|simpl; lia]|].
  intros s' [] Hd. eapply Hl; [done|set_solver].
Qed.

Lemma signal_depth_enough st :
  ((if is_stop_signal st then 3 else if is_final_signal st then 2 else 1) ≤ signal_depth)%nat.
Proof. unfold signal_depth. repeat case_match; lia. Qed.
Lemma wtp_enter_signal st res s : is_Some (sv_owner s) →
  wtp (enter_signal st res) s (λ s' _, lands [ServiceState.StopPost] s s').
Proof.
  intros Ho. apply wtp_enter_signal_fuel; [done|apply signal_depth_enough].
Qed.
Lemma wtp_enter_stop_post res s : is_Some (sv_owner s) →
  wtp (enter_stop_post res) s (λ s' _, lands [ServiceState.StopPost] s s').
Proof. intros Ho. apply wtp_stop_post_with; [done|]. intros. by apply wtp_enter_signal. Qed.

(** A step that runs in a store with the same deciding fields but the result. *)
Definition still s s' : Prop :=
  sv_owner s' = sv_owner s ∧ sv_conf s' = sv_conf s ∧ sv_state s' = sv_state s
  ∧ forbid s' = forbid s.
#[local] Instance still_preorder : PreOrder still.
Proof. split; [done|]. intros s1 s2 s3 (?&?&?&?) (?&?&?&?). unfold still. split_and!; congruence. Qed.
Lemma same_still s s' : same s s' → still s s'.
Proof. by intros []. Qed.
Lemma lands_still L L' s s1 s' : still s s1 → L ⊆ L' → lands L s1 s' → lands L' s s'.
Proof.
  intros (Ho & Hc & _ & Hf) HL' [Ho' Hc' Hs]. split; [congruence..|]. unfold gone in *. rewrite Hf in Hs.
  destruct Hs as [[? ?]|]; [left|by right]. auto.
Qed.
Lemma still_owner s s' : still s s' → is_Some (sv_owner s) → is_Some (sv_owner s').
Proof. intros (Ho & _). congruence. Qed.
(** The steps of the walks below, from a store [s] that still has the deciding
    fields of the first one. *)
Lemma wtp_step {A B} (m : S E A) (k : A → S E B) s0 s Q : still s0 s → keeps same m →
  (∀ s' a, still s0 s' → wtp (k a) s' Q) → wtp (m ≫= k) s Q.
Proof.
  intros Hst Hm Hk. apply wtp_same; [done|]. intros s' a Hs. apply Hk.
  trans s; [done|by apply same_still].
Qed.
Lemma wtp_step_result {B} res (k : unit → S E B) s0 s Q : still s0 s →
  (∀ s', still s0 s' → wtp (k tt) s' Q) → wtp (update_result res ≫= k) s Q.
Proof.
  intros Hst Hk. apply wtp_bind. eapply wtp_mono; [apply wtp_update_result|].
  intros s1 [] (Ho1 & Hc1 & Hf1 & Hs1 & _). apply Hk. by trans s.
Qed.
Lemma wtp_land {A} L L' s0 s (m : S E A) : still s0 s → L ⊆ L' →
  (is_Some (sv_owner s) → wtp m s (λ s' _, lands L s s')) → is_Some (sv_owner s0) →
  wtp m s (λ s' _, lands L' s0 s').
Proof.
  intros Hst HL' Hm Ho. eapply wtp_mono; [apply Hm; by eapply still_owner|].
  intros s' a Hl. by eapply lands_still.
Qed.
Lemma wtp_land_state st L s0 s : still s0 s → st ∈ L →
  wtp (set_state st) s (λ s' _, lands L s0 s').
Proof.
  intros (? & ? & ? & ?) Hst. eapply wtp_mono; [apply wtp_set_state|].
  intros s1 _ (? & ? & ? & ? & Hs). apply lands_here; [congruence..|]. by rewrite Hs.
Qed.
Lemma wtp_land_ret {A} (a : A) L s0 s : still s0 s → sv_state s0 ∈ L →
  wtp (mret a) s (λ s' _, lands L s0 s').
Proof. intros (? & ? & Hs & ?) Hin. apply wtp_ret, lands_here; [done..|]. by rewrite Hs. Qed.

Lemma wtp_land_keeps {A} (m : S E A) L s0 s : still s0 s → keeps same m → sv_state s0 ∈ L →
  wtp m s (λ s' _, lands L s0 s').
Proof.
  intros Hst Hm Hin. eapply wtp_mono; [apply Hm|]. intros s' a Hs%same_still.
  destruct (transitivity Hst Hs) as (? & ? & Heq & ?). apply lands_here; [done..|]. by rewrite Heq.
Qed.

Ltac if_case := match goal with |- if ?b then _ else _ => destruct b eqn:? end.
(** The case distinction an operation is at. *)
Ltac wtp_case :=
  match goal with |- wtp (match ?x with _ => _ end) _ _ => destruct x eqn:? end.
(** One instruction of an operation. *)
Ltac svc_step :=
  match goal with
  | |- wtp (mget ≫= _) _ _ => apply wtp_bind, wtp_mget
  | |- wtp mpanic _ _ => apply wtp_mpanic
  | St : still _ ?s |- wtp (update_result _ ≫= _) ?s _ =>
    eapply (wtp_step_result _ _ _ _ _ St); clear St; intros ? St
  | St : still _ ?s |- wtp (_ ≫= _) ?s _ =>
    eapply (wtp_step _ _ _ _ _ St); [solve [frame]|]; clear St; intros ? ? St
  | St : still _ ?s |- wtp (set_state _) ?s _ => apply (wtp_land_state _ _ _ _ St); set_solver
  end.
Ltac svc := repeat svc_step.

Lemma wtp_enter_stop res s : is_Some (sv_owner s) →
  wtp (enter_stop res) s (λ s' _, lands [ServiceState.StopPost; ServiceState.Stop] s s').
Proof.
  intros Ho. assert (still s s) as St by done. unfold enter_stop. svc. case_match; svc.
  1: case_match; svc.
  all: eapply wtp_land; [exact St| |intros; by apply wtp_enter_signal|done]; set_solver.
Qed.

Definition running_states : list ServiceState.t :=
  [ServiceState.StopPost; ServiceState.Stop; ServiceState.Running; ServiceState.StopSigterm;
   ServiceState.Exited].
Lemma wtp_enter_running res s : is_Some (sv_owner s) →
  wtp (enter_running res) s (λ s' _, lands running_states s s').
Proof.
  intros Ho. assert (still s s) as St by done. unfold enter_running, enter_stop_by_notify.
  svc. case_match.
  - eapply wtp_land; [exact St| |intros; by apply wtp_enter_signal|done]. set_solver.
  - svc. case_match; [case_match; svc|]. case_match; [svc|].
    eapply wtp_land; [exact St| |intros; by apply wtp_enter_stop|done]. set_solver.
Qed.

(** ** A stopped service stays on its way down *)

(** The states a service can be in once it was told to stop, until it is down. *)
Definition halting_states : list ServiceState.t :=
  [ServiceState.StopPost; ServiceState.Stop; ServiceState.Running; ServiceState.StopSigterm;
   ServiceState.Exited; ServiceState.Reload].

Ltac svc_land lem :=
  match goal with
  | St : still _ _ |- _ => eapply wtp_land; [exact St| |intros; by apply lem|done]; set_solver
  end.
Ltac svc_calls := repeat (svc; repeat wtp_case; simplify_eq).
Ltac svc_end :=
  match goal with
  | |- wtp (enter_signal _ _) _ _ => svc_land @wtp_enter_signal
  | |- wtp (enter_stop_post _) _ _ => svc_land @wtp_enter_stop_post
  | |- wtp (enter_stop _) _ _ => svc_land @wtp_enter_stop
  | |- wtp (enter_running _) _ _ => svc_land @wtp_enter_running
  | St : still _ ?s |- wtp (enter_dead _ _) _ _ =>
    eapply wtp_land; [exact St| |intros; eapply wtp_mono; [by apply wtp_enter_dead|by intros ? ? (? & _)]|done]; set_solver
  | St : still _ ?s |- wtp _ ?s _ => apply (wtp_land_keeps _ _ _ _ St); [solve [frame]|set_solver]
  end.

Lemma wtp_enter_reload s : is_Some (sv_owner s) →
  wtp (enter_reload) s (λ s' _, lands halting_states s s').
Proof.
  intros Ho. assert (still s s) as St by done. unfold enter_reload. svc_calls; svc_end.
Qed.

(** The retries of the pid file: it was loaded and the service went on to run,
    or nothing the state machine decides by has changed. *)
Lemma wtp_retry_pid_file s : is_Some (sv_owner s) →
  wtp retry_pid_file s (λ s' r, if is_ok r then lands running_states s s' else still s s').
Proof.
  intros Ho. assert (still s s) as St by done. unfold retry_pid_file. svc. case_match.
  - svc. apply wtp_bind. eapply wtp_mono; [apply wtp_enter_running; by eapply still_owner|].
    intros s1 [] Hl. apply wtp_ret. by eapply lands_still.
  - by apply wtp_ret.
Qed.
Lemma wtp_watch_pid_file s : is_Some (sv_owner s) →
  wtp watch_pid_file s (λ s' r, if is_ok r then lands (sv_state s :: running_states) s s'
                                else still s s').
Proof.
  intros Ho. assert (still s s) as St by done. unfold watch_pid_file. svc. case_match.
  - svc. apply wtp_bind. eapply wtp_mono; [apply wtp_retry_pid_file; by eapply still_owner|].
    intros s1 r Hr. apply wtp_ret. cbn beta in Hr. destruct (is_ok r).
    + eapply lands_still; [exact St| |exact Hr]. set_solver.
    + destruct (still_preorder) as [_ Htr]. pose proof (Htr _ _ _ St Hr) as (? & ? & ? & ?).
      apply lands_here; [done..|]. set_solver.
  - svc. by apply wtp_ret.
Qed.

(** What follows an operation and keeps the deciding fields does not matter. *)
Lemma wtp_lands_then {A B} L s0 s (m : S E A) (k : A → S E B) :
  wtp m s (λ s' _, lands L s0 s') → (∀ a, keeps same (k a)) →
  wtp (m ≫= k) s (λ s' _, lands L s0 s').
Proof.
  intros Hm Hk. apply wtp_bind. eapply wtp_mono; [done|]. intros s1 a [Ho1 Hc1 Hs1].
  eapply wtp_mono; [apply Hk|]. intros s2 b [Ho2 Hc2 Hst2 _ Hf2].
  split; [congruence..|]. unfold gone in *. by rewrite Hst2, Hf2.
Qed.

Lemma wtp_path_dispatch s : is_Some (sv_owner s) → sv_state s ∈ halting_states →
  wtp path_dispatch s (λ s' _, lands halting_states s s').
Proof.
  intros Ho Hin. apply wtp_lands_then; [|intros; frame].
  assert (still s s) as St by done. unfold path_do_dispatch. svc. case_match; [|svc_end].
  apply wtp_bind. eapply wtp_mono; [apply wtp_retry_pid_file; by eapply still_owner|].
  intros s1 r Hr. cbn beta in Hr. destruct (is_ok r).
  { apply wtp_ret. eapply lands_still; [exact St| |exact Hr]. set_solver. }
  assert (still s s1) as St1 by (by etrans). clear St Hr. apply wtp_bind.
  eapply wtp_mono; [apply wtp_watch_pid_file; by eapply still_owner|].
  intros s2 r' Hr. cbn beta in Hr. destruct (is_ok r').
  { apply wtp_ret. eapply lands_still; [exact St1| |exact Hr]. destruct St1 as (_ & _ & -> & _).
    set_solver. }
  assert (still s s2) as St by (by etrans). clear St1. svc.
  apply wtp_lands_then; [svc_land @wtp_enter_signal|intros; frame].
Qed.

Lemma still_halting s s' : still s s' → sv_state s ∈ halting_states → sv_state s' ∈ halting_states.
Proof. by intros (_ & _ & -> & _). Qed.
(** Distinguish the halting states the current store can be in. *)
Ltac by_state :=
  match goal with
  | St : still ?s ?s', Hin : sv_state ?s ∈ halting_states |- _ =>
    let H := fresh in pose proof (still_halting _ _ St Hin) as H;
    destruct (sv_state s'); try (exfalso; clear -H; set_solver); clear H
  end.

Lemma wtp_sigchld s w : is_Some (sv_owner s) → sv_state s ∈ halting_states →
  wtp (sigchld_event w) s (λ s' _, lands halting_states s s').
Proof.
  intros Ho Hin. apply wtp_lands_then; [|intros; frame].
  assert (still s s) as St by done. unfold do_sigchld_event. svc. wtp_case; [|wtp_case].
  - unfold sigchld_main. svc. wtp_case; [svc_end|]. svc. wtp_case; [svc_end|].
    svc. wtp_case; [svc_end|]. unfold sigchld_main_gone. svc. by_state; try svc_end.
    unfold mwhen. wtp_case; svc_end.
  - unfold sigchld_control. svc. wtp_case; [svc_end|]. by_state; svc; svc_end.
  - svc_end.
Qed.

Lemma wtp_watchdog_dispatch s : is_Some (sv_owner s) →
  wtp watchdog_dispatch s (λ s' _, lands halting_states s s').
Proof.
  intros Ho. assert (still s s) as St by done.
  apply wtp_lands_then; [svc_land @wtp_enter_signal|intros; frame].
Qed.
Lemma wtp_timer_dispatch s : is_Some (sv_owner s) → sv_state s ∈ halting_states →
  wtp timer_dispatch s (λ s' _, lands halting_states s s').
Proof.
  intros Ho Hin. assert (still s s) as St by done. unfold timer_dispatch. svc. by_state; svc.
  apply wtp_lands_then; [svc_land @wtp_enter_stop|intros; frame].
Qed.

(** A stop request stands, or the service is down. *)
Definition is_down s : Prop := sv_state s = ServiceState.Dead ∨ sv_state s = ServiceState.Failed.
Definition stopping s : Prop := forbid s = true ∧ sv_state s ∈ halting_states.
Definition halting s : Prop := is_Some (sv_owner s) ∧ (stopping s ∨ is_down s).

Lemma lands_halting L s s' : L ⊆ halting_states → is_Some (sv_owner s) → forbid s = true →
  lands L s s' → halting s'.
Proof.
  intros HL' Ho Hf [Ho' _ Hs]. split; [congruence|]. unfold stopping, is_down, gone in *.
  destruct Hs as [[? ?]|(_ & [?|[?|[_ ?]]])]; [left|by right; left|by right; right|congruence].
  split; [congruence|auto].
Qed.
Lemma same_halting s s' : same s s' → halting s → halting s'.
Proof.
  intros [Ho _ Hs _ Hf] [? Hd]. split; [congruence|]. unfold stopping, is_down in *.
  by rewrite Hs, Hf.
Qed.
Lemma wtp_keeps_halting {A} (m : S E A) s : keeps same m → halting s → wtp m s (λ s' _, halting s').
Proof. intros Hm Hs. eapply wtp_mono; [apply Hm|]. intros s' a Hss. exact (same_halting _ _ Hss Hs). Qed.

Lemma wtp_stop_action force s : is_Some (sv_owner s) → wtp (stop force) s (λ s' _, halting s').
Proof.
  intros Ho. unfold stop. apply wtp_bind. unfold stop_action. apply wtp_bind, wtp_mmodify.
  set (s1 := set_sv_rd _ s). assert (is_Some (sv_owner s1)) as Ho1 by done.
  apply wtp_bind, wtp_mget, wtp_bind. eapply (wtp_mono _ _ (λ s' _, halting s')).
  - assert (still s1 s1) as St by done.
    eapply (wtp_mono _ _ (λ s' _, lands [ServiceState.StopPost; ServiceState.Stop] s1 s')).
    + wtp_case; svc_end.
    + intros s2 [] H2. eapply lands_halting; [|exact Ho1|done|exact H2]. set_solver.
  - intros s2 [] H2. eapply wtp_mono; [apply wtp_keeps_halting; [frame|done]|]. by intros s3 [].
Qed.

(** Only [WATCHDOG=] takes a halting service down. *)
Definition calm_state st : Prop :=
  st ∈ halting_states ∨ st = ServiceState.Dead ∨ st = ServiceState.Failed.
Definition stays s s' : Prop := calm_state (sv_state s) →
  sv_owner s' = sv_owner s ∧ sv_conf s' = sv_conf s ∧ forbid s' = forbid s
  ∧ (sv_state s' = sv_state s ∨ sv_state s ∈ halting_states ∧ sv_state s' ∈ halting_states).
#[local] Instance stays_preorder : PreOrder stays.
Proof.
  split; [intros s _; by auto|]. unfold stays, calm_state. intros s1 s2 s3 H1 H2 Hin.
  destruct (H1 Hin) as (? & ? & ? & Hs1).
  destruct H2 as (? & ? & ? & Hs2); [destruct Hs1 as [->|[]]; auto|].
  split_and!; [congruence..|]. destruct Hs1 as [Hs1|[? ?]]; [by rewrite Hs1 in Hs2|].
  destruct Hs2 as [->|[]]; auto.
Qed.
Lemma keeps_stays {A} (m : S E A) : keeps same m → keeps stays m.
Proof.
  intros Hm s. eapply wtp_mono; [apply Hm|]. intros s' a [Ho Hc Hs _ Hf] _. by auto.
Qed.

(** *** Termination: no operation runs out of fuel. *)
Definition anyhow s s' : Prop := True.
#[local] Instance anyhow_preorder : PreOrder anyhow.
Proof. by split. Qed.
Abbreviation ends m := (keeps anyhow m).
Lemma ends_same {A} (m : S E A) : keeps same m → ends m.
Proof. intros Hm s. by eapply wtp_mono; [apply Hm|]. Qed.
Lemma ends_modify f : ends (mmodify f : S E unit).
Proof. done. Qed.
Lemma ends_rd_modify f : ends (rd_modify f : S E unit).
Proof. done. Qed.
#[local] Hint Resolve ends_modify ends_rd_modify : frames.
#[local] Hint Extern 4 (ends _) => apply ends_same; solve [frame] : frames.

Lemma ends_set_state st : ends (set_state st : S E unit).
Proof. intros s. by eapply wtp_mono; [apply wtp_set_state|]. Qed.
Lemma ends_update_result res : ends (update_result res : S E unit).
Proof. intros s. by eapply wtp_mono; [apply wtp_update_result|]. Qed.
#[local] Hint Resolve ends_set_state ends_update_result : frames.
Lemma ends_enter_dead res b : ends (enter_dead res b : S E unit).
Proof. unfold enter_dead. frame. Qed.
#[local] Hint Resolve ends_enter_dead : frames.

(** The cycle of [enter_signal] and [enter_stop_post] closes after three calls. *)
Lemma ends_enter_signal_fuel n st res :
  ((if is_stop_signal st then 3 else if is_final_signal st then 2 else 1) ≤ n)%nat →
  ends (enter_signal_fuel n st res : S E unit).
Proof.
  revert st res. induction n as [|n IH]; intros st res Hn; [repeat case_match; lia|].
  cbn [enter_signal_fuel].
  assert (∀ r, is_stop_signal st = true →
    ends (enter_stop_post_with (enter_signal_fuel n) r : S E unit)) as Hpost.
  { intros r Hst. rewrite Hst in Hn. unfold enter_stop_post_with. frame; apply IH; simpl; lia. }
  destruct (is_stop_signal st).
  - frame; by apply Hpost.
  - destruct (is_final_signal st); frame. apply IH. simpl. lia.
Qed.
Lemma ends_enter_signal st res : ends (enter_signal st res : S E unit).
Proof. apply ends_enter_signal_fuel, signal_depth_enough. Qed.
#[local] Hint Resolve ends_enter_signal : frames.
Lemma ends_enter_stop_post res : ends (enter_stop_post res : S E unit).
Proof. unfold enter_stop_post, enter_stop_post_with. frame. Qed.
Lemma ends_enter_stop res : ends (enter_stop res : S E unit).
Proof. unfold enter_stop. frame. Qed.
Lemma ends_stop_by_notify : ends (enter_stop_by_notify : S E unit).
Proof. apply ends_set_state. Qed.
#[local] Hint Resolve ends_enter_stop_post ends_enter_stop ends_stop_by_notify : frames.
Lemma ends_enter_running res : ends (enter_running res : S E unit).
Proof. unfold enter_running. frame. Qed.
#[local] Hint Resolve ends_enter_running : frames.
Lemma ends_enter_start_post : ends (enter_start_post : S E unit).
Proof. unfold enter_start_post. frame. Qed.
#[local] Hint Resolve ends_enter_start_post : frames.
Lemma ends_enter_start : ends (enter_start : S E unit).
Proof. unfold enter_start. frame. Qed.
#[local] Hint Resolve ends_enter_start : frames.
Lemma ends_enter_prestart : ends (enter_prestart : S E unit).
Proof. unfold enter_prestart. frame. Qed.
#[local] Hint Resolve ends_enter_prestart : frames.
Lemma ends_enter_contion : ends (enter_contion : S E unit).
Proof. unfold enter_contion. frame. Qed.
Lemma ends_enter_reload : ends (enter_reload : S E unit).
Proof. unfold enter_reload. frame. Qed.
Lemma ends_enter_restart : ends (enter_restart : S E unit).
Proof. unfold enter_restart. frame. Qed.
Lemma ends_retry_pid_file : ends (retry_pid_file : S E _).
Proof. unfold retry_pid_file. frame. Qed.
#[local] Hint Resolve ends_enter_contion ends_enter_reload ends_enter_restart
  ends_retry_pid_file : frames.
Lemma ends_watch_pid_file : ends (watch_pid_file : S E _).
Proof. unfold watch_pid_file. frame. Qed.
#[local] Hint Resolve ends_watch_pid_file : frames.
Lemma ends_demand_pid_file : ends (demand_pid_file : S E _).
Proof. unfold demand_pid_file. frame. Qed.
#[local] Hint Resolve ends_demand_pid_file : frames.
Lemma ends_demand_or m : ends (m : S E unit) → ends (demand_or m).
Proof. intros Hm. unfold demand_or. frame. Qed.
Lemma ends_path_do_dispatch : ends (path_do_dispatch : S E _).
Proof. unfold path_do_dispatch. frame. Qed.
Lemma ends_sigchld_main_gone res : ends (sigchld_main_gone res : S E unit).
Proof. unfold sigchld_main_gone. frame. Qed.
#[local] Hint Resolve ends_demand_or ends_path_do_dispatch ends_sigchld_main_gone : frames.
Lemma ends_sigchld_main w res : ends (sigchld_main w res : S E unit).
Proof. unfold sigchld_main. frame. Qed.
Lemma ends_control_start res : ends (sigchld_control_start res : S E unit).
Proof. unfold sigchld_control_start. frame. Qed.
Lemma ends_control_start_post res : ends (sigchld_control_start_post res : S E unit).
Proof. unfold sigchld_control_start_post. frame. Qed.
#[local] Hint Resolve ends_sigchld_main ends_control_start ends_control_start_post : frames.
Lemma ends_sigchld_control res : ends (sigchld_control res : S E unit).
Proof. unfold sigchld_control. frame. Qed.
#[local] Hint Resolve ends_sigchld_control : frames.
Lemma ends_notify_entry k v : ends (notify_entry k v : S E unit).
Proof. unfold notify_entry, force_watchdog. frame. Qed.
#[local] Hint Resolve ends_notify_entry : frames.
Lemma ends_start_check : ends (start_check : S E _).
Proof. unfold start_check. frame. Qed.
Lemma ends_start_action : ends (start_action : S E unit).
Proof. unfold start_action. frame. Qed.
#[local] Hint Resolve ends_start_check ends_start_action : frames.

(** ** Events *)

(** What happens to a service: the requests of the manager ([EvStart] passes
    [Unit::start], which refuses an active unit), the end of a child, a
    notification, and its three event sources. *)
Inductive SvcEvent :=
| EvStart | EvStop (force : bool) | EvReload
| EvSigchld (w : WaitStatus) | EvNotify (ucred_pid : Pid) (messages : gmap string string)
| EvTimer | EvWatchdog | EvPidFile.

Definition run_event (ev : SvcEvent) : S E unit :=
  match ev with
  | EvStart =>
    s ← mget;
    if is_active_or_reloading (current_active_state s) then mret tt else start;; mret tt
  | EvStop force => stop force;; mret tt
  | EvReload => reload;; mret tt
  | EvSigchld w => sigchld_event w
  | EvNotify ucred_pid messages => notify_message ucred_pid messages;; mret tt
  | EvTimer => timer_dispatch;; mret tt
  | EvWatchdog => watchdog_dispatch;; mret tt
  | EvPidFile => path_dispatch;; mret tt
  end.

(** C30: every event of a service is handled in finitely many steps: the calls of
    [enter_signal] and [enter_stop_post] to each other, and every other chain of
    state changes, come to an end, whatever the manager, the operating system
    and the event loop answer. *)
Theorem service_events_end ev (s : Svc E) : run_event ev s ≠ OutOfFuel.
Proof.
  assert (ends (run_event ev)) as Hev.
  { destruct ev; unfold run_event, start, stop, stop_action, reload, sigchld_event,
      do_sigchld_event, notify_message, do_notify_message, timer_dispatch, watchdog_dispatch,
      path_dispatch; frame. }
  specialize (Hev s). unfold wtp in Hev. by intros Hn; rewrite Hn in Hev.
Qed.

Lemma keeps_notify_entry k v : k ≠ "WATCHDOG"%string → keeps stays (notify_entry k v : S E unit).
Proof.
  intros Hk. unfold notify_entry.
  apply keeps_bind; [apply _| |intros _].
  { apply keeps_mwhen; [apply _|]. apply keeps_bind; [apply _|apply keeps_stays; frame|intros _].
    apply keeps_mget. intros s. apply wtp_mwhen. if_case; [|by auto].
    apply andb_true_iff in Heqb as [_ Hb%bool_decide_eq_true].
    eapply wtp_mono; [apply ends_enter_start_post|]. intros s' a _ Hin. exfalso.
    unfold calm_state in Hin. rewrite Hb in Hin. set_solver. }
  apply keeps_bind; [apply _| |intros _].
  { apply keeps_mwhen; [apply _|]. apply keeps_bind; [apply _|apply keeps_stays; frame|intros _].
    apply keeps_mget. intros s. apply wtp_mwhen. case_bool_decide as Hr; [|by auto].
    eapply wtp_mono; [apply wtp_set_state|]. intros s' _ (Ho & Hc & _ & Hf & Hs) Hin.
    split_and!; [done..|]. right. rewrite Hr, Hs. set_solver. }
  apply keeps_bind; [apply _|apply keeps_stays; frame|intros _].
  rewrite (bool_decide_eq_false_2 _ Hk). cbn [mwhen]. apply keeps_stays. frame.
Qed.

Lemma wtp_notify_watchdog v s : is_Some (sv_owner s) → sv_state s ∈ halting_states →
  wtp (notify_entry "WATCHDOG" v) s (λ s' _, lands halting_states s s').
Proof.
  intros Ho Hin. assert (still s s) as St by done. unfold notify_entry.
  rewrite (bool_decide_eq_false_2 ("WATCHDOG"%string = "READY"%string ∧ _)) by (by intros []).
  rewrite (bool_decide_eq_false_2 ("WATCHDOG"%string = "STOPPING"%string ∧ _)) by (by intros []).
  rewrite (bool_decide_eq_true_2 ("WATCHDOG"%string = "WATCHDOG"%string)) by done. cbn [mwhen].
  svc. apply wtp_lands_then; [|intros; frame].
  wtp_case; [svc_end|]. wtp_case; [|svc_end]. unfold force_watchdog. svc_end.
Qed.

Lemma wtp_notify_entry k v s : halting s → (is_down s → k ≠ "WATCHDOG"%string) →
  wtp (notify_entry k v) s (λ s' _, halting s' ∧ (is_down s' → is_down s ∨ k = "WATCHDOG"%string)).
Proof.
  intros [Ho Hs] Hk. destruct (decide (k = "WATCHDOG"%string)) as [->|Hne].
  - destruct Hs as [[Hf Hin]|Hd]; [|by destruct (Hk Hd)].
    eapply wtp_mono; [by apply wtp_notify_watchdog|]. intros s' [] Hl. split; [|by right].
    by eapply lands_halting.
  - eapply wtp_mono; [by apply keeps_notify_entry|]. intros s' [] Hst.
    destruct Hst as (Ho' & _ & Hf' & Hs'); [unfold calm_state, stopping, is_down in *; tauto|].
    unfold halting, stopping, is_down in *. rewrite Ho', Hf'.
    destruct Hs' as [->|[Hin Hin']]; [tauto|]. split.
    + split; [done|]. left. split; [|done]. destruct Hs as [[]|[Hd|Hd]]; [done|..];
        rewrite Hd in Hin; set_solver.
    + intros [Hd|Hd]; rewrite Hd in Hin'; set_solver.
Qed.

Lemma wtp_notify ucred msgs s : is_Some (sv_owner s) → stopping s →
  wtp (notify_message ucred msgs) s (λ s' _, halting s').
Proof.
  intros Ho Hst. assert (halting s) as Hh by (by split; [|left]). unfold notify_message.
  apply wtp_bind. eapply (wtp_mono _ _ (λ s' _, halting s')).
  2: { intros s' r Hs'. apply wtp_same; [frame|]. intros s2 [] H2. by eapply same_halting. }
  unfold do_notify_message. apply wtp_same; [frame|]. intros s1 r H1.
  wtp_case; [by apply wtp_ret; eapply same_halting|]. apply wtp_bind.
  eapply (wtp_mforeach (λ dn s, halting s ∧ (is_down s → "WATCHDOG"%string ∈ dn.*1))).
  - split; [by eapply same_halting|]. intros Hd. destruct H1 as [_ _ Heq _ _], Hst as [_ Hin].
    exfalso. unfold is_down in Hd. rewrite Heq in Hd. destruct Hd as [Hd|Hd]; rewrite Hd in Hin; set_solver.
  - intros dn [k v] rest s2 Hl [Hh2 Hd2].
    pose proof (NoDup_hm_keys msgs) as Hnd. unfold hm_keys in Hnd. rewrite Hl, fmap_app in Hnd.
    apply NoDup_app in Hnd as (_ & Hdisj & _).
    eapply wtp_mono; [apply wtp_notify_entry; [done|]|].
    + simpl. intros Hd%Hd2 ->. apply (Hdisj _ Hd). by left.
    + intros s3 [] [Hh3 Hd3]. split; [done|]. rewrite fmap_app. intros [Hd|Hk]%Hd3.
      * apply elem_of_app. left. by apply Hd2.
      * apply elem_of_app. right. simpl in Hk |- *. subst. by left.
  - by intros s2 [Hh2 _].
Qed.

Lemma wtp_run_event ev s : is_Some (sv_owner s) → stopping s →
  wtp (run_event ev) s (λ s' _, halting s').
Proof.
  intros Ho [Hf Hin].
  assert (∀ A (m : S E A), wtp m s (λ s' _, lands halting_states s s') →
    wtp m s (λ s' _, halting s')) as Hl.
  { intros A m Hm. eapply wtp_mono; [exact Hm|]. intros s' a. by apply lands_halting. }
  destruct ev as [|force| |w|ucred msgs| | |]; cbn [run_event].
  - apply wtp_bind, wtp_mget.
    destruct (is_active_or_reloading (current_active_state s)) eqn:Hact.
    { by apply wtp_ret; split; [|left]. }
    assert (is_stopping (sv_state s) = true) as Hsp.
    { unfold current_active_state, service_state_to_unit_state in Hact.
      destruct (sv_state s); case_decide; try done; set_solver. }
    unfold start, start_check. rewrite !wtp_bind, wtp_mget, Hsp. by apply wtp_ret; split; [|left].
  - apply wtp_bind. eapply wtp_mono; [by apply wtp_stop_action|]. by intros s' [].
  - apply Hl, wtp_lands_then; [|intros; frame]. unfold reload. apply wtp_lands_then; [|intros; frame].
    by apply wtp_enter_reload.
  - by apply Hl, wtp_sigchld.
  - apply wtp_bind. eapply wtp_mono; [by apply wtp_notify|]. by intros s' [].
  - apply Hl, wtp_lands_then; [by apply wtp_timer_dispatch|intros; frame].
  - apply Hl, wtp_lands_then; [by apply wtp_watchdog_dispatch|intros; frame].
  - apply Hl, wtp_lands_then; [by apply wtp_path_dispatch|intros; frame].
Qed.

(** ** Runs *)

(** One event, before which the rest of the system may have moved on. *)
Definition svc_step s s' : Prop :=
  ∃ ev env, run_event ev (set_sv_env env s) = Returned (s', tt).
(** Runs that end when the service is down for the first time. *)
Inductive run_until_down s : Svc E → Prop :=
| run_refl : run_until_down s s
| run_step s1 s2 : run_until_down s s1 → ¬ is_down s1 → svc_step s1 s2 → run_until_down s s2.

Lemma run_halting s s' : halting s → run_until_down s s' → halting s'.
Proof.
  intros Hs Hrun. induction Hrun as [|s1 s2 Hrun IH Hup (ev & env & Hev)]; [done|].
  destruct IH as [Ho [Hst|]]; [|done].
  apply (wtp_returned _ _ _ _ _ (wtp_run_event ev (set_sv_env env s1) Ho Hst) Hev).
Qed.

(** C6: a stop sticks.  After a request to stop a service, in whatever state it
    was, no sequence of events (children that end, notifications, timers, the pid
    file, further starts, stops and reloads) and no behaviour of the rest of the
    system makes it restart by itself before it has been dead or failed. *)
Theorem stop_sticks u force (s s1 s2 : Svc E) r :
  sv_owner s = Some u → stop force s = Returned (s1, r) → run_until_down s1 s2 →
  sv_state s2 ≠ ServiceState.AutoRestart.
Proof.
  intros Hu Hstop Hrun.
  assert (halting s1) as Hs1.
  { apply (wtp_returned _ _ _ _ _ (wtp_stop_action force s ltac:(by rewrite Hu)) Hstop). }
  destruct (run_halting _ _ Hs1 Hrun) as [_ [[_ Hin]|[Hd|Hd]]]; [|by rewrite Hd..].
  intros Hs. rewrite Hs in Hin. set_solver.
Qed.
End facts.
