(* ===== verification/ServiceSample.v ===== *)
(** * A concrete system for the runs of service units

    An instance of every interface of [UnitIf.v] and [ServiceStore.v] with a
    scripted [exec_spawn], used by the witnesses and the concrete runs. *)
From S2P Require Import Prelude UnitTypes ReDb StdString UnitEntry ExecParams UnitIf.
From S2P Require Import ServiceTypes ServiceStore Service.
Local Open Scope Z_scope.

(** Processes get increasing pids; [sy_script] says which of the next starts
    fail; [sy_cgroup] are the processes of the unit; the lists are logs. *)
Record Sys := {
  sy_next : Pid;
  sy_script : list bool;
  sy_cgroup : list Pid;
  sy_started : list (ExecCommand * Pid);
  sy_armed : list ServiceSource;
  sy_restarts : list UnitId;
  sy_pid_file : option string;
}.
Definition Sys_new : Sys := {| sy_next := 100; sy_script := []; sy_cgroup := []; sy_started := [];
  sy_armed := []; sy_restarts := []; sy_pid_file := None |}.

Definition sys_spawn (cmd : ExecCommand) (e : Sys) : Sys * Result Pid Error :=
  let script := tail (sy_script e) in
  if default true (head (sy_script e)) then
    ({| sy_next := sy_next e + 1; sy_script := script; sy_cgroup := sy_next e :: sy_cgroup e;
        sy_started := sy_started e ++ [(cmd, sy_next e)]; sy_armed := sy_armed e;
        sy_restarts := sy_restarts e; sy_pid_file := sy_pid_file e |}, Ok (sy_next e))
  else
    ({| sy_next := sy_next e; sy_script := script; sy_cgroup := sy_cgroup e;
        sy_started := sy_started e; sy_armed := sy_armed e;
        sy_restarts := sy_restarts e; sy_pid_file := sy_pid_file e |}, Err (ErrOther "spawn")).
(** A process of the unit ended. *)
Definition sys_exit (pid : Pid) (e : Sys) : Sys :=
  {| sy_next := sy_next e; sy_script := sy_script e;
     sy_cgroup := filter (λ p, p ≠ pid) (sy_cgroup e); sy_started := sy_started e;
     sy_armed := sy_armed e; sy_restarts := sy_restarts e; sy_pid_file := sy_pid_file e |}.
Definition sys_arm (src : ServiceSource) (e : Sys) : Sys :=
  {| sy_next := sy_next e; sy_script := sy_script e; sy_cgroup := sy_cgroup e;
     sy_started := sy_started e; sy_armed := sy_armed e ++ [src];
     sy_restarts := sy_restarts e; sy_pid_file := sy_pid_file e |}.
Definition sys_restart (u : UnitId) (e : Sys) : Sys :=
  {| sy_next := sy_next e; sy_script := sy_script e; sy_cgroup := sy_cgroup e;
     sy_started := sy_started e; sy_armed := sy_armed e;
     sy_restarts := sy_restarts e ++ [u]; sy_pid_file := sy_pid_file e |}.

(** Which of the next starts fail. *)
Definition sys_script_set (l : list bool) (e : Sys) : Sys :=
  {| sy_next := sy_next e; sy_script := l; sy_cgroup := sy_cgroup e; sy_started := sy_started e;
     sy_armed := sy_armed e; sy_restarts := sy_restarts e; sy_pid_file := sy_pid_file e |}.
(** A daemon joined the unit's processes and wrote the pid file. *)
Definition sys_daemon (pid : Pid) (line : string) (e : Sys) : Sys :=
  {| sy_next := sy_next e; sy_script := sy_script e; sy_cgroup := pid :: sy_cgroup e;
     sy_started := sy_started e; sy_armed := sy_armed e; sy_restarts := sy_restarts e;
     sy_pid_file := Some line |}.

#[export] Instance SysUmIf : UmIf Sys := {|
  um_get_dependency_list _ _ _ := [];
  um_unit_add_dependency _ _ _ _ _ e := (e, Ok tt);
  um_unit_add_two_dependency _ _ _ _ _ _ e := (e, Ok tt);
  um_load_unit_success _ e := (e, true);
  um_unit_enabled _ _ := Ok tt;
  um_has_stop_job _ _ := false;
  um_relation_active_or_pending _ _ := false;
  um_start_unit _ e := (e, Ok tt);
  um_restart_unit u e := (sys_restart u e, Ok tt);
  um_child_watch_pid _ _ e := e;
  um_child_unwatch_pid _ _ e := e;
  um_child_watch_all_pids _ e := e;
  um_exec_spawn _ cmd _ _ e := sys_spawn cmd e;
  um_notify_socket _ := Some "/run/sysmaster/notify"%string;
  um_same_unit_with_pid _ _ _ := true;
  um_collect_socket_fds _ _ := [];
  um_rentry_trigger_merge _ _ e := e;
  um_trigger_unit _ e := e;
|}.
#[export] Instance SysUnitBase : UnitBase Sys := {|
  unit_test_start_limit _ e := (e, true);
  unit_kill_context _ _ _ _ _ e := (e, Ok tt);
  unit_prepare_exec _ e := (e, Ok tt);
  unit_default_dependencies _ _ := true;
  unit_guess_main_pid _ e := Ok (default 0 (head (sy_cgroup e)));
  unit_cg_is_empty _ e := Ok (bool_decide (sy_cgroup e = []));
|}.
#[export] Instance SysEvents : EventLoop ServiceSource Sys := {|
  ev_add_source _ e := (e, Ok tt);
  ev_del_source _ e := (e, Ok tt);
  ev_set_enabled src _ e := (sys_arm src e, Ok tt);
|}.
#[export] Instance SysProcesses : Processes Sys := {|
  os_alive pid e := bool_decide (pid ∈ sy_cgroup e);
  os_getpid _ := 1;
  sig_as_str n := if decide (n = SIGTERM) then "SIGTERM" else "SIGKILL"%string;
  sig_from_str n := if decide (n = "SIGTERM"%string) then Some SIGTERM else None;
|}.
(** [waitpid]'s encoding: an exit status is in the second byte, a signal in the
    first. *)
Definition sys_wait_from_raw (pid : Pid) (st : Z) : option WaitStatus :=
  if Z.land st 127 =? 0 then Some (Exited pid (Z.shiftr (Z.land st 65280) 8))
  else Some (Signaled pid (Z.land st 127) (negb (Z.land st 128 =? 0))).
#[export] Instance SysFiles : ServiceFiles Sys := {|
  os_pid_file_exists _ e := bool_decide (is_Some (sy_pid_file e));
  os_first_line _ e := sy_pid_file e;
  os_inotify_init e := (e, Some 7);
  os_inotify_add_watch _ _ _ e := (e, Some 1);
  os_close _ e := e;
  os_read_events _ e := (e, Ok [1]);
  os_read_again _ := false;
  os_wait_from_raw := sys_wait_from_raw;
|}.
#[export, refine] Instance SysExecEnv : ExecEnv := {|
  ex_user_by_uid uid := if decide (uid = 0) then Some {| us_uid := 0; us_gid := 0 |} else None;
  ex_user_by_name _ := None;
  ex_group_by_gid gid := if decide (gid = 0) then Some 0 else None;
  ex_group_by_name _ := None;
  ex_var _ := None;
  ex_is_dir _ := false;
|}.
Proof. all: by eexists. Defined.

#[export] Existing Instance hash_iter_canonical.

Definition cmd (path : string) : ExecCommand := {| ec_path := path; ec_argv := [] |}.
(** A configuration of the given type and commands. *)
Definition sample_conf (ty : ServiceType.t) (pre start post stop : list string)
    (pid_file : option string) (restart : ServiceRestart.t) : SectionService := {|
  sc_Type := ty; ExecStart := Some (cmd <$> start); ExecStartPre := Some (cmd <$> pre);
  ExecStartPost := Some (cmd <$> post); ExecStop := Some (cmd <$> stop); ExecStopPost := None;
  ExecReload := None; ExecCondition := None; Sockets := None; WatchdogSec := 0;
  PIDFile := pid_file; RemainAfterExit := false; sc_NotifyAccess := None; Environment := None;
  sc_KillMode := ControlGroup; WorkingDirectory := ""; sc_User := ""; sc_Group := "";
  UMask := "0022"; Restart := restart; RestartPreventExitStatus := ExitStatusSet_default;
  RestartSec := 5; EnvironmentFile := []; KillSignal := "SIGTERM" |}.

(** A service "a.service" with that configuration, attached to its unit. *)
Definition sample_service (conf : SectionService) : Svc Sys :=
  run_state (attach_unit "a.service") (set_sv_conf conf (Svc_new ServiceRe_new Sys_new)).

(** A process of the unit ends, and the service hears of it. *)
Definition exits (pid : Pid) (status : Z) : S Sys unit :=
  env_modify (sys_exit pid);; sigchld_event (Exited pid status).

(** A simple service runs, its main process fails, and it is to be restarted. *)
Example simple_run :
  let s := sample_service (sample_conf ServiceType.Simple [] ["m"] [] [] None ServiceRestart.Always) in
  let s1 := run_state start s in
  let s2 := run_state (exits 100 1) s1 in
  let s3 := run_state timer_dispatch s2 in
  (sv_state s1, sv_result s1) = (ServiceState.Running, ServiceResult.Success)
  ∧ (sv_state s2, sv_result s2) = (ServiceState.AutoRestart, ServiceResult.FailureExitCode)
  ∧ sy_armed (sv_env s2) = [SrcTimer 5000000]
  ∧ sy_restarts (sv_env s3) = ["a.service"%string].
Proof. by vm_compute. Qed.
(** A failing [ExecStartPre] command. *)
Example pre_fails :
  let s := sample_service (sample_conf ServiceType.Simple ["p"] ["m"] [] [] None ServiceRestart.OnFailure) in
  let s1 := run_state start s in
  let s2 := run_state (exits 100 1) s1 in
  sv_state s1 = ServiceState.StartPre
  ∧ (sv_state s2, sv_result s2) = (ServiceState.Dead, ServiceResult.Success).
Proof. by vm_compute. Qed.
