(* ===== verification/ServiceRunFacts.v ===== *)
(** * Runs of the service state machine

    How a service fails, recovers and restarts: what its result tells of the
    commands that failed, what survives a restart of the manager, and the runs
    that end where the code does not mean them to. *)
From S2P Require Import Prelude UnitTypes ReDb StdString UnitEntry ExecParams UnitIf.
From S2P Require Import ServiceTypes ServiceStore Service ServiceFacts ServiceSample.
Local Open Scope Z_scope.

Section runs.
Context `{HI : !HashIter} {E : Type} `{HX : !ExecEnv} `{HU : !UmIf E} `{HB : !UnitBase E}.
Context `{HL : !EventLoop ServiceSource E} `{HP : !Processes E} `{HF : !ServiceFiles E}.
Implicit Types (s : Svc E) (res : ServiceResult.t) (st : ServiceState.t) (pid : Pid).

(** ** A signal drops the result it is given *)

(** No [ExecStopPost] command is configured, and no control command waits. *)
Definition no_stop_post s : Prop :=
  default [] (get_exec_cmds ServiceCommand.StopPost (sv_conf s)) = [] ∧ sv_control_command s = [].

Lemma no_stop_post_fill s :
  no_stop_post s → control_command_fill ServiceCommand.StopPost s = Returned (s, tt)
  ∨ control_command_fill ServiceCommand.StopPost s = Returned (set_sv_control_command [] s, tt).
Proof.
  intros [Hc Hq]. unfold control_command_fill, mbind, M_bind, mget.
  destruct (get_exec_cmds _ _); simpl in *; subst; auto.
Qed.

(** [Unit::kill_context] answers [Ok(())] whatever happened to the signals. *)
Definition kill_answers_ok : Prop := ∀ u k m c ko (e : E), ∃ t, (unit_kill_context u k m c ko e).2 = Ok t.

(** The stores a quiet signal goes through. *)
Definition quiet s s' : Prop :=
  sv_owner s' = sv_owner s ∧ sv_conf s' = sv_conf s ∧ forbid s' = forbid s
  ∧ sv_result s' = sv_result s ∧ no_stop_post s'.
(** Where it ends: the service is gone, and its result is the one it had. *)
Definition quiet_end s s' : Prop :=
  lands [] s s' ∧ verdict s s' ∧ sv_result s' = sv_result s ∧ revives s s'.

Lemma quiet_end_from s s1 s' : quiet s s1 → quiet_end s1 s' → quiet_end s s'.
Proof.
  intros (Ho & Hc & Hf & Hr & _) ([Ho' Hc' Hs] & Hv & Hr' & Hrv).
  unfold quiet_end, verdict, gone, revives in *. rewrite Hc in *. rewrite Hf in *.
  split_and!; [|apply Hv..|congruence|exact Hrv]. split; [congruence..|exact Hs].
Qed.

Lemma wtp_signal_quiet n st res s : kill_answers_ok → is_Some (sv_owner s) → no_stop_post s →
  ((if is_stop_signal st then 3 else if is_final_signal st then 2 else 1) ≤ n)%nat →
  wtp (enter_signal_fuel n st res) s (λ s' _, quiet_end s s').
Proof.
  intros Hkill. revert st res s.
  induction n as [|n IH]; intros st res s Ho Hq Hn; [repeat case_match; lia|].
  cbn [enter_signal_fuel]. apply wtp_bind, wtp_mget. pose proof Ho as [u Hu]. rewrite Hu.
  apply wtp_bind, wtp_bind, wtp_mmodify, wtp_env_do.
  match goal with |- context [unit_kill_context ?u ?k ?m ?c ?ko ?e] =>
    destruct (Hkill u k m c ko e) as [[] ->] end.
  match goal with |- wtp _ ?x _ => set (s1 := x) end.
  assert (quiet s s1) as H1 by done. assert (is_Some (sv_owner s1)) as Ho1 by done.
  eapply (wtp_mono _ _ (λ s' _, quiet_end s1 s')); [|intros s' [] He; by eapply quiet_end_from].
  assert (no_stop_post s1) as Hq1 by done. clearbody s1. clear s Ho Hq Hu H1.
  destruct (is_stop_signal st); [|destruct (is_final_signal st)].
  - unfold enter_stop_post_with. apply wtp_bind. eapply wtp_mono.
    { instantiate (1 := λ s' _, quiet s1 s'). unfold update_result. apply wtp_bind, wtp_mget, wtp_mwhen.
      case_bool_decide as Hr; [|done]. by apply wtp_mmodify. }
    intros s2 [] H2. apply wtp_bind. unfold wtp at 1.
    assert (quiet s1 (set_sv_control_command [] s2)) as H2' by (by destruct H2 as (?&?&?&?&?&?)).
    destruct (no_stop_post_fill s2) as [->| ->]; [by destruct H2 as (?&?&?&?&?)|..];
      (apply wtp_bind; unfold control_command_pop; apply wtp_bind, wtp_mget, wtp_bind, wtp_mmodify, wtp_ret).
    all: destruct H2 as (Ho2 & Hc2 & Hf2 & Hr2 & Hn2 & He2); simpl; rewrite ?He2; simpl.
    all: eapply wtp_mono; [apply IH; simpl; [congruence|done|lia]|intros s' [] He].
    all: eapply quiet_end_from; [|exact He]; done.
  - eapply IH; [done|done|simpl; lia].
  - eapply wtp_mono; [by apply wtp_enter_dead|]. intros s' [] (Hl & Hv & Hr & Hrv).
    split_and!; [done..| |by apply Hrv]. rewrite Hr. by case_decide.
Qed.

(** The failure of an [ExecCondition] or [ExecStartPre] command is lost.  When
    the control process of a service that is starting ends badly, the service is
    signalled with the result of the command, but the signal hands [Success] on;
    without an [ExecStopPost] command the service ends dead with the result
    [Success], never failed, and [Restart=on-failure] does not restart it. *)
Theorem control_failure_lost s w pid res : kill_answers_ok → is_Some (sv_owner s) →
  default [] (get_exec_cmds ServiceCommand.StopPost (sv_conf s)) = [] →
  sv_state s = ServiceState.Condition ∨ sv_state s = ServiceState.StartPre →
  sv_result s = ServiceResult.Success →
  pd_control (sv_pid s) = Some pid → pd_main (sv_pid s) ≠ Some pid →
  wait_pid w = Some pid → sigchld_result w = Some res → res ≠ ServiceResult.Success →
  wtp (do_sigchld_event w) s (λ s' _, sv_result s' = ServiceResult.Success
    ∧ sv_state s' ≠ ServiceState.Failed
    ∧ (Restart (sv_conf s) = ServiceRestart.OnFailure → sv_state s' = ServiceState.Dead)).
Proof.
  intros Hkill Ho Hpost Hst Hok Hctl Hmain Hw Hres Hbad. unfold do_sigchld_event.
  rewrite Hw, Hres. do 3 (apply wtp_bind; apply wtp_ret || apply wtp_mget).
  rewrite decide_False, decide_True by done. unfold sigchld_control.
  apply wtp_bind, wtp_mmodify, wtp_bind, wtp_mget.
  rewrite (bool_decide_eq_false_2 (res = _)), andb_false_r by done. apply wtp_bind, wtp_mmodify.
  simpl. eapply (wtp_mono _ _ (λ s' _, quiet_end (set_sv_control_command [] s) s')).
  - destruct Hst as [-> | ->]; rewrite decide_False by done;
      (eapply wtp_mono; [apply wtp_signal_quiet; [done..|apply signal_depth_enough]|]; intros s' [] He;
       by eapply quiet_end_from, He).
  - intros s' [] ([_ _ Hg] & Hv & Hr & _). simpl in Hr. rewrite Hok in Hr. unfold verdict in Hv.
    split_and!; [done| |].
    + intros Hf. by apply Hv in Hf.
    + intros Hconf. destruct Hg as [[Hin _]|[_ Hg]]; [by apply elem_of_nil in Hin|].
      destruct Hg as [?|[Hf|[Ha _]]]; [done|..].
      * by apply Hv in Hf.
      * by apply Hv in Ha.
Qed.
End runs.

Lemma control_failure_lost_witness :
  let s := run_state start (sample_service
    (sample_conf ServiceType.Simple ["p"] ["m"] [] [] None ServiceRestart.OnFailure)) in
  sv_state s = ServiceState.StartPre
  ∧ wtp (do_sigchld_event (Exited 100 1)) s (λ s' _, sv_result s' = ServiceResult.Success
    ∧ sv_state s' ≠ ServiceState.Failed
    ∧ (Restart (sv_conf s) = ServiceRestart.OnFailure → sv_state s' = ServiceState.Dead)).
Proof.
  intros s. split; [by vm_compute|].
  apply (control_failure_lost s (Exited 100 1) 100 ServiceResult.FailureExitCode);
    try (by vm_compute).
  - intros u k m c ko e. by exists tt.
  - exists "a.service"%string. by vm_compute.
  - right. by vm_compute.
Defined.

(** ** A failed service comes back *)
Section restart.
Context `{HI : !HashIter} {E : Type} `{HX : !ExecEnv} `{HU : !UmIf E} `{HB : !UnitBase E}.
Context `{HL : !EventLoop ServiceSource E} `{HP : !Processes E} `{HF : !ServiceFiles E}.
Implicit Types (s : Svc E) (u : UnitId).

(** The event loop takes the service's timers, and the manager has its
    notification socket. *)
Record cooperative : Prop := {
  co_add : ∀ src (e : E), ∃ t, (ev_add_source src e).2 = Ok t;
  co_del : ∀ src (e : E), ∃ t, (ev_del_source src e).2 = Ok t;
  co_enable : ∀ src b (e : E), ∃ t, (ev_set_enabled src b e).2 = Ok t;
  co_socket : ∀ e : E, is_Some (um_notify_socket e);
  co_restart : ∀ u (e : E), ∃ t, (um_restart_unit u e).2 = Ok t;
  co_no_stop : ∀ u (e : E), um_has_stop_job u e = false;
}.
Context (Hco : cooperative).

Lemma calm_env_do {A} (f : E → E * A) : calm (env_do f).
Proof. done. Qed.
Lemma calm_env_modify (f : E → E) : calm (env_modify f).
Proof. done. Qed.
Lemma calm_env_ask {A} (f : E → A) : calm (env_ask f).
Proof. done. Qed.
Lemma calm_pid_modify f : calm (pid_modify f : S E unit).
Proof. done. Qed.
Lemma calm_rd_modify f : calm (rd_modify f : S E unit).
Proof. done. Qed.
#[local] Hint Resolve calm_env_do calm_env_modify calm_env_ask calm_pid_modify calm_rd_modify : calm.
Lemma calm_asked {A B} (f : E → E * Result A Error) (k : A → S E B) :
  (∀ e, ∃ t, (f e).2 = Ok t) → (∀ a, calm (k a)) →
  calm (r ← env_do f; a ← munwrap_ok r; k a).
Proof.
  intros Hf Hk s. unfold mbind, M_bind, env_do. simpl. destruct (Hf (sv_env s)) as [t ->].
  simpl. apply Hk.
Qed.
Lemma calm_asked_last {A} (f : E → E * Result A Error) :
  (∀ e, ∃ t, (f e).2 = Ok t) → calm (r ← env_do f; munwrap_ok r).
Proof.
  intros Hf s. unfold mbind, M_bind, env_do. simpl. by destruct (Hf (sv_env s)) as [t ->].
Qed.
Ltac asked := first [ apply calm_asked; [intros; by apply Hco|intros ?]
                    | apply calm_asked_last; intros; by apply Hco ].
Ltac calmly := intros; repeat first [asked | calm_step].

Lemma calm_unwatch_main : calm (unwatch_main : S E unit).
Proof. unfold unwatch_main, child_unwatch_pid. calmly. Qed.
Lemma calm_unwatch_control : calm (unwatch_control : S E unit).
Proof. unfold unwatch_control, child_unwatch_pid. calmly. Qed.
Lemma calm_mng_db_insert : calm (mng_db_insert : S E unit).
Proof. unfold mng_db_insert. calmly. Qed.
#[local] Hint Resolve calm_unwatch_main calm_unwatch_control calm_mng_db_insert : calm.
Lemma calm_set_state st : calm (set_state st : S E unit).
Proof. unfold set_state. calmly. Qed.
Lemma calm_update_result res : calm (update_result res : S E unit).
Proof. unfold update_result. calmly. Qed.
Lemma calm_enable_timer t : calm (enable_timer t : S E unit).
Proof. unfold enable_timer. calmly. Qed.
Lemma calm_control_fill c : calm (control_command_fill c : S E unit).
Proof. unfold control_command_fill. calmly. Qed.
Lemma calm_control_pop : calm (control_command_pop : S E _).
Proof. unfold control_command_pop. calmly. Qed.
#[local] Hint Resolve calm_set_state calm_update_result calm_enable_timer calm_control_fill
  calm_control_pop : calm.
(** Root exists, so a user that was added is there when the group is. *)
Lemma calm_spawn_credentials c p : calm (spawn_credentials c p : S E _).
Proof.
  unfold spawn_credentials. case_match eqn:Hu; [calmly|]. apply calm_bind; [|calmly].
  apply calm_munwrap. unfold add_group. unfold add_user in *.
  assert (is_Some (ex_user_by_uid 0)) as [root Hroot] by apply ex_root.
  repeat case_match; simplify_eq; simpl in *; rewrite ?Hroot; simpl; eauto.
Qed.
#[local] Hint Resolve calm_spawn_credentials : calm.
Lemma calm_socket : calm (sock ← env_ask um_notify_socket; munwrap sock : S E string).
Proof. intros s. unfold mbind, M_bind, env_ask, mgets. simpl. by destruct (co_socket Hco (sv_env s)) as [t ->]. Qed.
Lemma calm_assoc {A B C} (m : S E A) (k : A → S E B) (k' : B → S E C) :
  calm (m ≫= k) → (∀ b, calm (k' b)) → calm (m ≫= λ a, k a ≫= k').
Proof.
  intros Hm Hk s. specialize (Hm s). unfold mbind, M_bind in *. destruct (m s) as [[s1 a]| |]; [|done..].
  destruct (k a s1) as [[s2 b]| |]; [apply Hk|done..].
Qed.
Lemma calm_start_service cmd fl : calm (start_service cmd fl : S E _).
Proof.
  unfold start_service. repeat first [apply calm_assoc; [apply calm_socket|intros ?] | asked | calm_step].
Qed.
#[local] Hint Resolve calm_start_service : calm.
Lemma calm_enter_dead res fr : calm (enter_dead res fr : S E unit).
Proof. unfold enter_dead. calmly. Qed.
#[local] Hint Resolve calm_enter_dead : calm.
Lemma calm_signal_fuel n st res : calm (enter_signal_fuel n st res : S E unit).
Proof.
  revert st res. induction n as [|n IH]; intros st res; [done|].
  cbn [enter_signal_fuel]. unfold enter_stop_post_with. repeat first [apply IH | asked | calm_step].
Qed.

(** The running data of a live service whose main process is about to fail. *)
Record runs_once s (p : Pid) : Prop := {
  ro_owner : is_Some (sv_owner s);
  ro_state : sv_state s = ServiceState.Running;
  ro_result : sv_result s = ServiceResult.Success;
  ro_main : pd_main (sv_pid s) = Some p;
  ro_control : pd_control (sv_pid s) = None;
  ro_queue : no_stop_post s;
  ro_forbid : forbid s = false;
  ro_pid_file : PIDFile (sv_conf s) = None;
  ro_restart : Restart (sv_conf s) = ServiceRestart.Always;
  ro_prevent : RestartPreventExitStatus (sv_conf s) = ExitStatusSet_default;
  ro_alone : ∀ u, sv_owner s = Some u → unit_cg_is_empty u (sv_env s) = Ok true;
}.

(** The service is due for a restart after a failure, and its timer is armed. *)
Definition due s s' : Prop :=
  sv_owner s' = sv_owner s ∧ sv_conf s' = sv_conf s
  ∧ sv_state s' = ServiceState.AutoRestart ∧ sv_result s' = ServiceResult.FailureExitCode
  ∧ rd_timer (sv_rd s') = Some (RestartSec (sv_conf s)).

Lemma wp_signal_due s s1 res : kill_answers_ok → is_Some (sv_owner s) → quiet s s1 →
  Restart (sv_conf s) = ServiceRestart.Always →
  RestartPreventExitStatus (sv_conf s) = ExitStatusSet_default →
  forbid s = false → sv_result s = ServiceResult.FailureExitCode →
  wp (enter_signal ServiceState.StopSigterm res) s1 (λ s' _, due s s').
Proof.
  intros Hkill Ho (Ho1 & Hc1 & Hf1 & Hr1 & Hq1) Hre Hpr Hf Hr. apply wp_of_wtp; [apply calm_signal_fuel|].
  eapply wtp_mono; [apply wtp_signal_quiet; [done|by rewrite Ho1|done|apply signal_depth_enough]|].
  intros s' [] ([Ho' Hc' _] & _ & Hr' & Hrv).
  assert (sv_result s' = ServiceResult.FailureExitCode) as Hres by congruence.
  destruct Hrv as [Hs Ht]; try congruence; [apply Hco|]. unfold due. rewrite <-Hc1. split_and!; congruence.
Qed.

Lemma wp_main_failure s p code : kill_answers_ok → runs_once s p → code ≠ 0 →
  wp (do_sigchld_event (Exited p code)) s (λ s' _, due s s').
Proof.
  intros Hkill [Ho Hst Hr Hm Hctl Hq Hf Hpf Hre Hpr Hcg] Hcode.
  unfold do_sigchld_event. simpl. rewrite (proj2 (Z.eqb_neq _ _) Hcode).
  wp_pure. rewrite decide_True by done.
  unfold sigchld_main, load_pid_file. wp_pure. rewrite Hpf.
  unfold pid_modify, rd_modify, update_result, cgroup_good, mwhen. destruct Ho as [u Hu].
  repeat progress (wp_pure; simpl; rewrite ?Hr, ?andb_false_r, ?Hu, ?(Hcg u Hu)).
  unfold sigchld_main_gone, enter_running, unwatch_control, update_result, mwhen.
  repeat progress (wp_pure; simpl; rewrite ?Hst, ?Hctl).
  match goal with |- wp _ ?x _ => apply (wp_signal_due x x) end; try done; by exists u.
Qed.

End restart.

(** ** A restart of the manager *)
Section recovery.
Context `{HI : !HashIter} {E : Type} `{HX : !ExecEnv} `{HU : !UmIf E} `{HB : !UnitBase E}.
Context `{HL : !EventLoop ServiceSource E} `{HP : !Processes E} `{HF : !ServiceFiles E}.
Implicit Types (s : Svc E) (u : UnitId).

(** The service of a manager that knows nothing but the tables. *)
Definition restarted u (re : ServiceRe) (env : E) : Svc E :=
  set_sv_owner (Some u) (Svc_new re env).
Definition persists (re : ServiceRe) : Prop :=
  redb_ignore (re_conf re) = false ∧ redb_ignore (re_mng re) = false.

Definition re_mng_of s : ServiceReMng := {|
  rm_state := sv_state s; rm_result := sv_result s;
  rm_main_pid := pd_main (sv_pid s); rm_control_pid := pd_control (sv_pid s);
  rm_main_cmd_len := length (sv_main_command s); rm_control_cmd_type := sv_control_cmd_type s;
  rm_control_cmd_len := length (sv_control_command s);
  rm_notify_state := rd_notify_state (sv_rd s); rm_forbid_restart := rd_forbid_restart (sv_rd s);
  rm_reset_restart := rd_reset_restarts (sv_rd s); rm_restarts := rd_restarts (sv_rd s);
  rm_exit_status := ExitStatus_from (rd_exec_status (sv_rd s)); rm_monitor := sv_monitor s |}.

Lemma db_insert_get u s : sv_owner s = Some u → persists (sv_re s) →
  conf_get u (sv_re (run_state db_insert s)) = Some (sv_conf s)
  ∧ mng_get u (sv_re (run_state db_insert s)) = Some (re_mng_of s).
Proof.
  intros Hu [Hc Hm]. unfold run_state, db_insert, config_db_insert, mng_db_insert, mbind, M_bind, mget.
  rewrite Hu. simpl. rewrite Hu. simpl. unfold conf_get, mng_get, redb_get. simpl.
  rewrite !redb_insert_cache by done. by rewrite !lookup_insert, !decide_True.
Qed.

Lemma wp_main_pops a n s (Q : Svc E → unit → Prop) :
  Q (set_sv_main_command (drop n (sv_main_command s)) s) tt →
  wp (mforeach (λ _, main_command_pop;; mret tt) (seq a n)) s Q.
Proof.
  revert a s. induction n as [|n IH]; intros a s HQ; simpl.
  - by destruct s.
  - apply wp_bind, wp_bind. unfold main_command_pop. wp_pure. apply IH. simpl.
    by destruct (sv_main_command s); simpl in *; rewrite ?drop_nil.
Qed.

(** The main queue is what is left of the configured commands. *)
Definition queue_of (cmds : list ExecCommand) (l : list ExecCommand) : Prop := ∃ k, l = drop k cmds.

Lemma wp_main_command_update l s (Q : Svc E → unit → Prop) :
  queue_of (default [] (get_exec_cmds ServiceCommand.Start (sv_conf s))) l →
  Q (set_sv_main_command l s) tt → wp (main_command_update (length l)) s Q.
Proof.
  intros [k ->] HQ. unfold main_command_update, main_command_fill. wp_pure.
  destruct (get_exec_cmds _ _) as [cmds|]; simpl in *; wp_pure; apply wp_main_pops; simpl.
  - rewrite length_drop. replace (drop _ cmds) with (drop k cmds); [done|].
    destruct (decide (k ≤ length cmds)%nat); [f_equal; lia|].
    rewrite !drop_ge by lia. done.
  - by rewrite !drop_nil in *.
Qed.

Lemma wp_update_main p s (Q : Svc E → unit → Prop) :
  pd_main (sv_pid s) = None → (∀ q, p = Some q → 1 ≤ q) →
  (∀ st, Q (set_sv_pid {| pd_main := p; pd_state := st; pd_control := pd_control (sv_pid s) |} s) tt) →
  wp (update_main p) s Q.
Proof.
  intros Hn Hp HQ. unfold update_main. destruct p as [q|]; [|apply HQ].
  unfold set_main, data_set_main. wp_pure. rewrite Hn. wp_pure. unfold pd_set_main.
  rewrite (proj2 (Z.ltb_ge q 1)) by (by apply Hp). wp_pure. apply HQ.
Qed.
Lemma wp_update_control p s (Q : Svc E → unit → Prop) :
  (∀ d, pd_main d = pd_main (sv_pid s) → pd_control d = p → Q (set_sv_pid d s) tt) →
  wp (update_control p) s Q.
Proof. intros HQ. destruct p; by apply HQ. Qed.

(** C28: a service survives a restart of the manager.  A manager that reads back
    what the service persisted finds the same configuration, state, result,
    processes, remaining main commands, restart bookkeeping and watchdog times,
    if no control command was waiting. *)
Theorem service_recovers u s env : sv_owner s = Some u → persists (sv_re s) →
  sv_control_cmd_type s = None → sv_control_command s = [] →
  (∀ p, pd_main (sv_pid s) = Some p → 1 ≤ p) →
  queue_of (default [] (get_exec_cmds ServiceCommand.Start (sv_conf s))) (sv_main_command s) →
  wp db_map (restarted u (sv_re (run_state db_insert s)) env) (λ s' _,
    sv_conf s' = sv_conf s ∧ sv_state s' = sv_state s ∧ sv_result s' = sv_result s
    ∧ pd_main (sv_pid s') = pd_main (sv_pid s) ∧ pd_control (sv_pid s') = pd_control (sv_pid s)
    ∧ sv_main_command s' = sv_main_command s ∧ sv_control_command s' = []
    ∧ rd_notify_state (sv_rd s') = rd_notify_state (sv_rd s)
    ∧ rd_forbid_restart (sv_rd s') = rd_forbid_restart (sv_rd s)
    ∧ rd_reset_restarts (sv_rd s') = rd_reset_restarts (sv_rd s)
    ∧ rd_restarts (sv_rd s') = rd_restarts (sv_rd s) ∧ sv_monitor s' = sv_monitor s).
Proof.
  intros Hu Hre Hty Hq Hpid Hmain. destruct (db_insert_get u s Hu Hre) as [Hc Hm].
  unfold db_map, config_db_map, mng_db_map. wp_pure. simpl. rewrite Hc. wp_pure. simpl. rewrite Hm.
  wp_pure. simpl. rewrite Hty, Hq. apply wp_update_main; [done..|]. intros st.
  rewrite wp_bind. apply wp_update_control. intros d Hdm Hdc. simpl in Hdm.
  rewrite wp_bind. apply wp_main_command_update; [done|]. wp_pure. apply wp_massert.
  split; [by rewrite bool_decide_true|]. wp_pure. simpl. by split_and!.
Qed.

(** A queue of control commands does not survive a restart of the manager.
    The type of the control commands is never recorded, so the entry of a service
    with control commands waiting holds their number without their type, and the
    manager that reads it back fails the assertion of [control_command_update]. *)
Theorem service_recover_panics u s env : sv_owner s = Some u → persists (sv_re s) →
  sv_control_cmd_type s = None → sv_control_command s ≠ [] →
  (∀ p, pd_main (sv_pid s) = Some p → 1 ≤ p) →
  queue_of (default [] (get_exec_cmds ServiceCommand.Start (sv_conf s))) (sv_main_command s) →
  panics db_map (restarted u (sv_re (run_state db_insert s)) env).
Proof.
  intros Hu Hre Hty Hq Hpid Hmain. destruct (db_insert_get u s Hu Hre) as [Hc Hm].
  unfold db_map, config_db_map, mng_db_map. apply panics_bind. wp_pure. simpl.
  rewrite Hc. wp_pure. simpl. apply panics_bind. wp_pure. simpl. rewrite Hm.
  do 2 (apply panics_bind; wp_pure). apply panics_bind. apply wp_update_main; [done..|]. intros st.
  apply panics_bind, wp_update_control. intros d _ _. simpl.
  apply panics_bind, wp_main_command_update; [done|]. apply panics_bind_l.
  cbn [rm_control_cmd_type rm_control_cmd_len re_mng_of]. rewrite Hty.
  unfold control_command_update, panics, massert. rewrite bool_decide_false; [done|]. by destruct (sv_control_command s).
Qed.
End recovery.

(** ** The configurations that load *)

(** The commands of [ExecStart]. *)
Definition start_cmds (c : SectionService) : list ExecCommand :=
  default [] (get_exec_cmds ServiceCommand.Start c).

(** What configuration a service may have.  Exactly one [ExecStart] command,
    unless its type is [oneshot]; a oneshot service may have any number, none only
    with [RemainAfterExit], and must not ask to be restarted always or on success. *)
Theorem service_verify_spec c : service_verify c = Ok tt ↔
  if decide (sc_Type c = ServiceType.Oneshot)
  then (start_cmds c ≠ [] ∨ RemainAfterExit c = true)
       ∧ Restart c ≠ ServiceRestart.Always ∧ Restart c ≠ ServiceRestart.OnSuccess
  else length (start_cmds c) = 1%nat.
Proof.
  unfold service_verify, start_cmds.
  set (cmds := get_exec_cmds ServiceCommand.Start c).
  assert (match cmds with None => true | Some l => bool_decide (l = []) end
    = bool_decide (default [] cmds = [])) as Hempty by by destruct cmds.
  rewrite Hempty. clear Hempty. generalize (default [] cmds). clear cmds. intros l.
  case_decide as Ht; [rewrite !(bool_decide_false (sc_Type c ≠ _)), (bool_decide_true (sc_Type c = _)) by naive_solver
                     |rewrite !(bool_decide_true (sc_Type c ≠ _)), (bool_decide_false (sc_Type c = _)) by done]; simpl.
  - destruct l, (RemainAfterExit c), (Restart c); simpl; naive_solver.
  - destruct l as [|x [|y l]], (RemainAfterExit c); simpl; naive_solver.
Qed.

(** A simple service while it runs, and one with two [ExecStartPre] commands while
    the first of them runs. *)
Definition running_service : Svc Sys := Eval vm_compute in run_state start (sample_service
  (sample_conf ServiceType.Simple [] ["m"] [] [] None ServiceRestart.Always)).
Definition prestarting_service : Svc Sys := Eval vm_compute in run_state start (sample_service
  (sample_conf ServiceType.Simple ["p"; "q"] ["m"] [] [] None ServiceRestart.No)).

Lemma service_recovers_witness : ∃ s',
  db_map (restarted "a.service" (sv_re (run_state db_insert running_service)) Sys_new)
    = Returned (s', tt)
  ∧ sv_state s' = ServiceState.Running ∧ pd_main (sv_pid s') = Some 100.
Proof.
  destruct (wp_returns _ _ _ (service_recovers "a.service" running_service Sys_new
    ltac:(by vm_compute) ltac:(by vm_compute) ltac:(by vm_compute) ltac:(by vm_compute)
    ltac:(vm_compute; by intros p [= <-]) ltac:(exists 1%nat; by vm_compute)))
    as (s' & [] & Hs' & _ & Hst & _ & Hp & _).
  exists s'. split; [done|]. by rewrite Hst, Hp.
Defined.

Lemma service_recover_panics_witness :
  panics db_map (restarted "a.service" (sv_re (run_state db_insert prestarting_service)) Sys_new).
Proof.
  apply (service_recover_panics "a.service" prestarting_service Sys_new); try (by vm_compute).
  exists 1%nat. by vm_compute.
Defined.

(** The running service, its main process gone from the cgroup. *)
Definition failing_service : Svc Sys := Eval vm_compute in
  set_sv_env (sys_exit 100 (sv_env running_service)) running_service.

Lemma sys_kill_ok : kill_answers_ok (E := Sys).
Proof. intros u k m c ko e. by exists tt. Qed.
Lemma sys_cooperative : cooperative (E := Sys).
Proof. split; intros; try by exists tt. - by eexists. - done. Qed.

Lemma failing_runs_once : runs_once failing_service 100.
Proof. split; try (by vm_compute). by eexists. Qed.

(** A service that stops with an [ExecStop] command: a stop, then its main and
    its control process end. *)
Definition stopped_service : Svc Sys := Eval vm_compute in run_state (stop false) (run_state start
  (sample_service (sample_conf ServiceType.Simple [] ["m"] [] ["t"] None ServiceRestart.Always))).
Definition stopped_main_gone : Svc Sys := Eval vm_compute in
  run_state (run_event (EvSigchld (Exited 100 1))) stopped_service.
Definition stopped_down : Svc Sys := Eval vm_compute in
  run_state (run_event (EvSigchld (Exited 101 0))) stopped_main_gone.

Lemma stop_sticks_witness :
  run_until_down stopped_service stopped_down ∧ sv_state stopped_down = ServiceState.Failed
  ∧ sv_state stopped_down ≠ ServiceState.AutoRestart.
Proof.
  assert (run_until_down stopped_service stopped_down) as Hrun.
  { apply (run_step _ stopped_main_gone).
    - apply (run_step _ stopped_service); [apply run_refl|by vm_compute; intros []|].
      exists (EvSigchld (Exited 100 1)), (sv_env stopped_service). by vm_compute.
    - by vm_compute; intros [].
    - exists (EvSigchld (Exited 101 0)), (sv_env stopped_main_gone). by vm_compute. }
  split_and!; [done|by vm_compute|].
  apply (stop_sticks "a.service" false (run_state start
    (sample_service (sample_conf ServiceType.Simple [] ["m"] [] ["t"] None ServiceRestart.Always)))
    stopped_service _ (Ok tt)); [by vm_compute..|done].
Defined.

(** ** Runs that go wrong *)

(** The start of an [ExecStartPost] command fails: the service stays dead with its
    main process running, and when that process ends the handler reaches
    [todo!()]. *)
Theorem start_post_failure_strands :
  let s := sample_service (sample_conf ServiceType.Simple [] ["m"] ["q"] [] None ServiceRestart.Always) in
  let s1 := run_state start (set_sv_env (sys_script_set [true; false] (sv_env s)) s) in
  sv_state s1 = ServiceState.Dead ∧ pd_main (sv_pid s1) = Some 100
  ∧ panics (exits 100 0) s1.
Proof. by vm_compute. Qed.

(** A forking service with a pid file runs its [ExecStartPost] commands twice. *)
Theorem forking_start_post_twice :
  let s := sample_service (sample_conf ServiceType.Forking [] ["m"] ["q"] []
    (Some "/run/a.pid"%string) ServiceRestart.No) in
  let s1 := run_state start s in
  let s2 := run_state (exits 100 0) (set_sv_env (sys_daemon 900 "900" (sv_env s1)) s1) in
  sv_state s1 = ServiceState.Start ∧ sv_state s2 = ServiceState.StartPost
  ∧ (λ x, (ec_path x.1, x.2)) <$> sy_started (sv_env s2) =
      [("m"%string, 100); ("q"%string, 101); ("q"%string, 102)]
  ∧ pd_control (sv_pid s2) = Some 102.
Proof. by vm_compute. Qed.

(** The exit status a restarted manager reads back is not the one that was
    stored: [waitpid]'s encoding keeps it in the second byte. *)
Theorem exit_status_lost :
  WaitStatus_from sys_wait_from_raw (ExitStatus_from (Exited 100 1)) = Signaled 100 1 false.
Proof. by vm_compute. Qed.
