(* ===== verification/SocketTypes.v ===== *)
(** * The data of a socket unit

    [coms/socket/src]: the enumerations and the persisted entries of
    [rentry.rs], the netlink protocols of [base.rs], and from [config.rs] the
    configuration, the addresses and their parsing. *)
From Stdlib Require Import Ascii.
From S2P Require Import Prelude UnitTypes ReDb Condition StdString StdNet UnitEntry ExecParams UnitIf.
Local Open Scope Z_scope.

(** ** Enumerations ([rentry.rs]) *)
Module SocketState.
Inductive t :=
| Dead | StartPre | StartChown | StartPost | Listening | Running | StopPre | StopPreSigterm
| StopPreSigkill | StopPost | FinalSigterm | FinalSigkill | Failed | Cleaning | StateMax.
#[global] Instance eq_dec : EqDecision t.
Proof. solve_decision. Defined.
End SocketState.

Module SocketResult.
Inductive t :=
| Success | FailureResources | FailureTimeout | FailureExitCode | FailureSignal | FailureCoreDump
| FailureStartLimitHit | FailureTriggerLimitHit | FailureServiceStartLimitHit | ResultInvalid.
#[global] Instance eq_dec : EqDecision t.
Proof. solve_decision. Defined.
End SocketResult.

Module SocketCommand.
Inductive t := StartPre | StartPost | StopPre | StopPost.
#[global] Instance eq_dec : EqDecision t.
Proof. solve_decision. Defined.
End SocketCommand.

Module PortType.
Inductive t := Socket | Fifo | Invalid.
#[global] Instance eq_dec : EqDecision t.
Proof. solve_decision. Defined.
End PortType.

(** ** Active states ([mng.rs]) *)
Definition socket_active_state (s : SocketState.t) : UnitActiveState :=
  match s with
  | SocketState.Dead => UnitInActive
  | SocketState.StartPre | SocketState.StartChown | SocketState.StartPost => UnitActivating
  | SocketState.Listening | SocketState.Running => UnitActive
  | SocketState.StopPre | SocketState.StopPreSigterm | SocketState.StopPost
  | SocketState.StopPreSigkill | SocketState.StateMax | SocketState.FinalSigterm
  | SocketState.FinalSigkill => UnitDeActivating
  | SocketState.Failed => UnitFailed
  | SocketState.Cleaning => UnitMaintenance
  end.
Definition socket_kill_operation (s : SocketState.t) : KillOperation :=
  match s with
  | SocketState.StopPreSigterm => KillKill
  | SocketState.FinalSigterm => KillTerminate
  | _ => KillKill
  end.

(** ** Netlink protocols ([base.rs]) *)
Inductive NetlinkProtocol :=
| NetlinkRoute | NetlinkFirewall | NetlinkInetDiag | NetlinkNflog | NetlinkXfrm | NetlinkSelinux
| NetlinkIscsi | NetlinkAudit | NetlinkFibLookup | NetlinkConnector | NetlinkNetfilter
| NetlinkIpv6Fw | NetlinkDnrtMag | NetlinkKobjectUevent | NetlinkGeneric | NetlinkSCSITransport
| NetlinkEcryptfs | NetlinkRdma | NetlinkInvalid.
#[export] Instance NetlinkProtocol_eq_dec : EqDecision NetlinkProtocol.
Proof. solve_decision. Defined.

Definition NetlinkProtocol_from (protocol : string) : NetlinkProtocol :=
  if decide (protocol = "route") then NetlinkRoute
  else if decide (protocol = "firewall") then NetlinkFirewall
  else if decide (protocol = "inet-diag") then NetlinkInetDiag
  else if decide (protocol = "nflog") then NetlinkNflog
  else if decide (protocol = "xfrm") then NetlinkXfrm
  else if decide (protocol = "selinux") then NetlinkSelinux
  else if decide (protocol = "iscsi") then NetlinkIscsi
  else if decide (protocol = "audit") then NetlinkAudit
  else if decide (protocol = "fib-lookup") then NetlinkFibLookup
  else if decide (protocol = "connector") then NetlinkConnector
  else if decide (protocol = "netfilter") then NetlinkNetfilter
  else if decide (protocol = "ip6-fw") then NetlinkIpv6Fw
  else if decide (protocol = "dnrtmsg") then NetlinkDnrtMag
  else if decide (protocol = "kobject-uevent") then NetlinkKobjectUevent
  else if decide (protocol = "generic") then NetlinkGeneric
  else if decide (protocol = "scsitransport") then NetlinkSCSITransport
  else if decide (protocol = "ecryptfs") then NetlinkEcryptfs
  else if decide (protocol = "rdma") then NetlinkRdma
  else NetlinkInvalid.

(** The protocols of [nix::sys::socket::SockProtocol] it is mapped to. *)
Inductive SockProtocol :=
| PNetlinkRoute | PNetlinkSockDiag | PNetlinkSELinux | PNetlinkISCSI | PNetlinkAudit
| PNetlinkFIBLookup | PNetlinkNetFilter | PNetlinkIPv6Firewall | PNetlinkDECNetRoutingMessage
| PNetlinkKObjectUEvent | PNetlinkSCSITransport | PNetlinkRDMA.
#[export] Instance SockProtocol_eq_dec : EqDecision SockProtocol.
Proof. solve_decision. Defined.

(** [None] is [todo!()]. *)
Definition SockProtocol_from (protocol : NetlinkProtocol) : option SockProtocol :=
  match protocol with
  | NetlinkRoute => Some PNetlinkRoute
  | NetlinkFirewall => None
  | NetlinkInetDiag => Some PNetlinkSockDiag
  | NetlinkNflog => None
  | NetlinkXfrm => None
  | NetlinkSelinux => Some PNetlinkSELinux
  | NetlinkIscsi => Some PNetlinkISCSI
  | NetlinkAudit => Some PNetlinkAudit
  | NetlinkFibLookup => Some PNetlinkFIBLookup
  | NetlinkConnector => None
  | NetlinkNetfilter => Some PNetlinkNetFilter
  | NetlinkIpv6Fw => Some PNetlinkIPv6Firewall
  | NetlinkDnrtMag => Some PNetlinkDECNetRoutingMessage
  | NetlinkKobjectUevent => Some PNetlinkKObjectUEvent
  | NetlinkGeneric => None
  | NetlinkSCSITransport => Some PNetlinkSCSITransport
  | NetlinkEcryptfs => None
  | NetlinkRdma => Some PNetlinkRDMA
  | NetlinkInvalid => None
  end.

(** ** Addresses ([config.rs]) *)
Inductive SockType := SockStream | SockDatagram | SockSeqPacket | SockRaw.
#[export] Instance SockType_eq_dec : EqDecision SockType.
Proof. solve_decision. Defined.
Inductive AddressFamily := AfUnix | AfInet | AfInet6 | AfNetlink.
#[export] Instance AddressFamily_eq_dec : EqDecision AddressFamily.
Proof. solve_decision. Defined.

(** The addresses of [nix::sys::socket] the unit makes. *)
Inductive Sockaddr :=
| UnixAddr (path : string)
| UnixAddrAbstract (name : string)
| SockaddrIn (ip : list Z) (port : Z)
| SockaddrIn6 (ip : list Z) (port scope_id : Z)
| NetlinkAddr (pid groups : Z).
Definition sockaddr_family (a : Sockaddr) : AddressFamily :=
  match a with
  | UnixAddr _ | UnixAddrAbstract _ => AfUnix
  | SockaddrIn _ _ => AfInet
  | SockaddrIn6 _ _ _ => AfInet6
  | NetlinkAddr _ _ => AfNetlink
  end.

Record SocketAddress := { sock_addr : Sockaddr; sa_type : SockType; sa_protocol : option SockProtocol }.
Definition can_accept (sa : SocketAddress) : bool := bool_decide (sa_type sa = SockStream).
(** [path]: an abstract address has none. *)
Definition sa_path (sa : SocketAddress) : option string :=
  match sock_addr sa with UnixAddr path => Some path | _ => None end.
Definition sa_family (sa : SocketAddress) : AddressFamily := sockaddr_family (sock_addr sa).

Record SocketPortConf := { pc_type : PortType.t; pc_sa : SocketAddress; pc_listen : string }.

(** What parsing asks of the system: whether [nix] takes a path and a name as a
    unix address (it refuses those that do not fit), and [ipv6_is_supported]
    ([libs/basic/src/socket_util.rs]), the existence of a file of [/proc]. *)
Class SockEnv : Type := {
  se_unix_fits : string → bool;
  se_abstract_fits : string → bool;
  se_if_inet6_exists : bool;
}.

Section parse.
Context `{HE : !SockEnv}.

Definition ipv6_is_supported : bool := if se_if_inet6_exists then true else false.

(** The outer [None] is a panic, in [SockProtocol::from]. *)
Definition parse_netlink_address (item : string) : option (Result SocketAddress Error) :=
  match of_chars <$> split_whitespace item with
  | [family; group] =>
    let family := NetlinkProtocol_from family in
    if decide (family = NetlinkInvalid) then Some (Err (ErrOther "Netlink family is invalid")) else
    match parse_u32 group with
    | None => Some (Err (ErrOther "Netlink group is invalid"))
    | Some group =>
      protocol ← SockProtocol_from family;
      Some (Ok {| sock_addr := NetlinkAddr 0 group; sa_type := SockRaw; sa_protocol := Some protocol |})
    end
  | _ => Some (Err (ErrOther "Netlink configuration format is not correct"))
  end.

Definition parse_u16 : string → option Z := parse_unsigned 10 u16_max.
Definition parse_socket_address (item : string) (socket_type : SockType) : Result SocketAddress Error :=
  let ok a := Ok {| sock_addr := a; sa_type := socket_type; sa_protocol := None |} in
  if starts_with_char "/" item then
    if se_unix_fits item then ok (UnixAddr item) else Err (ErrOther "Nix")
  else if starts_with_char "@" item then
    if se_abstract_fits item then ok (UnixAddrAbstract item) else Err (ErrOther "Nix")
  else match parse_u16 item with
  | Some port =>
    if port =? 0 then Err (ErrOther "invalid port number")
    else if ipv6_is_supported then ok (SockaddrIn6 [0; 0; 0; 0; 0; 0; 0; 0] port 0)
    else ok (SockaddrIn [0; 0; 0; 0] port)
  | None =>
    match parse_socket_addr item with
    | Some (SocketAddrV4 ip port) => ok (SockaddrIn ip port)
    | Some (SocketAddrV6 ip port scope_id) => ok (SockaddrIn6 ip port scope_id)
    | None => Err (ErrOther "invalid listening config")
    end
  end.
End parse.

(** ** The configuration ([rentry.rs]) *)
Record SectionSocket := {
  sk_ExecStartPre : option (list ExecCommand);
  sk_ExecStartChown : option (list ExecCommand);
  sk_ExecStartPost : option (list ExecCommand);
  sk_ExecStopPre : option (list ExecCommand);
  sk_ExecStopPost : option (list ExecCommand);
  ListenStream : option (list string);
  ListenDatagram : option (list string);
  ListenNetlink : option (list string);
  ListenSequentialPacket : option (list string);
  PassPacketInfo : option bool;
  Accept : bool;
  sk_Service : option string;
  ReceiveBuffer : option Z;
  SendBuffer : option Z;
  PassCredentials : option bool;
  KeepAlive : option bool;
  KeepAliveTimeSec : option Z;
  KeepAliveIntervalSec : option Z;
  KeepAliveProbes : option Z;
  Broadcast : option bool;
  Symlinks : option (list string);
  PassSecurity : option bool;
  SocketMode : option Z;
  sk_KillMode : KillMode;
  sk_KillSignal : string;
}.
(** [SocketConfigData::default()]: every field at the default of its type, not
    at the one of the configuration. *)
Definition SectionSocket_default : SectionSocket := {|
  sk_ExecStartPre := None; sk_ExecStartChown := None; sk_ExecStartPost := None;
  sk_ExecStopPre := None; sk_ExecStopPost := None; ListenStream := None; ListenDatagram := None;
  ListenNetlink := None; ListenSequentialPacket := None; PassPacketInfo := None; Accept := false;
  sk_Service := None; ReceiveBuffer := None; SendBuffer := None; PassCredentials := None;
  KeepAlive := None; KeepAliveTimeSec := None; KeepAliveIntervalSec := None;
  KeepAliveProbes := None; Broadcast := None; Symlinks := None; PassSecurity := None;
  SocketMode := None; sk_KillMode := ControlGroup; sk_KillSignal := "" |}.

Definition socket_exec_cmds (cmd_type : SocketCommand.t) (c : SectionSocket)
    : option (list ExecCommand) :=
  match cmd_type with
  | SocketCommand.StartPre => sk_ExecStartPre c
  | SocketCommand.StartPost => sk_ExecStartPost c
  | SocketCommand.StopPre => sk_ExecStopPre c
  | SocketCommand.StopPost => sk_ExecStopPost c
  end.

(** ** Persisted entries ([rentry.rs]) *)
Record SocketReConf := { rc_socket : SectionSocket; rc_service : option string }.
Record SocketReMng := {
  sr_state : SocketState.t;
  sr_result : SocketResult.t;
  sr_control_pid : option Pid;
  sr_control_cmd_type : option SocketCommand.t;
  sr_control_cmd_len : nat;
  sr_refused : Z;
  sr_ports : list (PortType.t * string * Z);
}.
Inductive SocketReFrame := FdListen (spread : bool).
(** The frame is a table of one row, at [RELI_LAST_KEY]. *)
Record SocketRe := {
  sre_conf : ReDb UnitId SocketReConf;
  sre_mng : ReDb UnitId SocketReMng;
  sre_frame : ReDb Z SocketReFrame;
}.
Definition RELI_LAST_KEY : Z := 0.
Definition SocketRe_new : SocketRe :=
  {| sre_conf := ReDb_new; sre_mng := ReDb_new; sre_frame := ReDb_new |}.

Definition socket_conf_insert (unit_id : UnitId) (socket : SectionSocket) (service : option string)
    (r : SocketRe) : SocketRe :=
  {| sre_conf := redb_insert unit_id {| rc_socket := socket; rc_service := service |} (sre_conf r);
     sre_mng := sre_mng r; sre_frame := sre_frame r |}.
Definition socket_conf_get (unit_id : UnitId) (r : SocketRe) : option (SectionSocket * option string) :=
  c ← redb_get unit_id (sre_conf r); Some (rc_socket c, rc_service c).
Definition socket_mng_insert (unit_id : UnitId) (m : SocketReMng) (r : SocketRe) : SocketRe :=
  {| sre_conf := sre_conf r; sre_mng := redb_insert unit_id m (sre_mng r); sre_frame := sre_frame r |}.
Definition socket_mng_get (unit_id : UnitId) (r : SocketRe) : option SocketReMng :=
  redb_get unit_id (sre_mng r).
Definition set_last_frame (frame : SocketReFrame) (r : SocketRe) : SocketRe :=
  {| sre_conf := sre_conf r; sre_mng := sre_mng r;
     sre_frame := redb_insert RELI_LAST_KEY frame (sre_frame r) |}.
Definition clear_last_frame (r : SocketRe) : SocketRe :=
  {| sre_conf := sre_conf r; sre_mng := sre_mng r;
     sre_frame := redb_remove RELI_LAST_KEY (sre_frame r) |}.
Definition last_frame (r : SocketRe) : option SocketReFrame := redb_get RELI_LAST_KEY (sre_frame r).
