(* ===== verification/SocketStore.v ===== *)
(** * The store of a socket unit

    What one [SocketUnit] of [coms/socket/src] holds: its configuration
    ([config.rs]), its control process ([pid.rs]), its ports ([port.rs]) and the
    fields of [SocketMngData] ([mng.rs]), the three tables of [SocketRe]
    ([rentry.rs]), what it published, and the rest of the system [E] behind the
    interfaces of [UnitIf.v] and the two below. *)
From S2P Require Import Prelude UnitTypes ReDb StdString UnitEntry ExecParams UnitIf SocketTypes.
Local Open Scope Z_scope.

(** ** [config.rs], [port.rs] *)
Record UnitRef := { ur_source : option string; ur_target : option string }.
Definition UnitRef_new : UnitRef := {| ur_source := None; ur_target := None |}.
Definition set_ref (source target : string) (r : UnitRef) : UnitRef :=
  {| ur_source := Some source; ur_target := Some target |}.

Definition SOCKET_INVALID_FD : Z := -1.
Record SocketPort := { sp_conf : SocketPortConf; sp_fd : Z }.
Definition SocketPort_new (p_conf : SocketPortConf) : SocketPort :=
  {| sp_conf := p_conf; sp_fd := SOCKET_INVALID_FD |}.
Definition port_set_fd (fd : Z) (p : SocketPort) : SocketPort := {| sp_conf := sp_conf p; sp_fd := fd |}.
Definition p_type (p : SocketPort) : PortType.t := pc_type (sp_conf p).
Definition p_sa (p : SocketPort) : SocketAddress := pc_sa (sp_conf p).
Definition p_listen (p : SocketPort) : string := pc_listen (sp_conf p).

(** [SocketMngPort] as the event loop sees it: which port it is, and the
    descriptor it has at the call. *)
Record SocketSource := { ss_port : nat; ss_fd : Z }.

(** The options [apply_sock_opt] sets ([libs/basic/src/socket_util.rs]). *)
Inductive SockOpt :=
| Ipv4PacketInfo (v : bool) | Ipv6RecvPacketInfo (v : bool) | PassCred (v : bool) | RcvBuf (v : Z)
| SndBuf (v : Z) | OptKeepAlive (v : bool) | TcpKeepIdle (v : Z) | TcpKeepInterval (v : Z)
| TcpKeepCount (v : Z) | OptBroadcast (v : bool) | ReuseAddr (v : bool).

(** The socket calls.  An error is its [errno]; [os_ppoll] waits for nothing: it
    answers the number of ready descriptors (0 or 1) and the returned events. *)
Class SocketSys (E : Type) : Type := {
  os_socket : AddressFamily → SockType → option SockProtocol → E → E * Result Z Z;
  os_setsockopt : Z → SockOpt → E → E * Result unit Z;
  os_bind : Z → Sockaddr → E → E * Result unit Z;
  os_listen : Z → Z → E → E * Result unit Z;
  os_accept : Z → E → E * Result Z Z;
  os_accept_conn : Z → E → Result bool Z;              (* getsockopt AcceptConn *)
  os_ppoll : Z → E → E * Result (Z * option Z) Z;      (* for POLLIN, timeout 0 *)
  os_read_buf : Z → E → E * Result Z Z;                (* at most 2048 bytes *)
  os_close_fd : Z → E → E;
  os_create_dir_all : string → E → E * bool;           (* false is an error *)
  os_unlink : string → E → E;                          (* its error is only logged *)
}.
Definition EBADF : Z := 9.
Definition EINTR : Z := 4.
Definition EINVAL : Z := 22.
Definition EADDRINUSE : Z := 98.
Definition EAFNOSUPPORT : Z := 97.
Definition POLLNVAL : Z := 32.

(** ** The store *)
Record Sock (E : Type) := {
  sk_owner : option UnitId;
  sk_conf : SectionSocket;
  sk_service : UnitRef;
  sk_port_confs : list SocketPortConf;
  sk_kill_context : KillContext;
  sk_exec_ctx : ExecContext;
  sk_control : option Pid;
  sk_ports : list SocketPort;
  sk_state : SocketState.t;
  sk_result : SocketResult.t;
  sk_control_cmd_type : option SocketCommand.t;
  sk_control_command : list ExecCommand;
  sk_refused : Z;
  sk_re : SocketRe;
  sk_states : list UnitState;
  sk_env : E;
}.
Arguments sk_owner {E}.
Arguments sk_conf {E}.
Arguments sk_service {E}.
Arguments sk_port_confs {E}.
Arguments sk_kill_context {E}.
Arguments sk_exec_ctx {E}.
Arguments sk_control {E}.
Arguments sk_ports {E}.
Arguments sk_state {E}.
Arguments sk_result {E}.
Arguments sk_control_cmd_type {E}.
Arguments sk_control_command {E}.
Arguments sk_refused {E}.
Arguments sk_re {E}.
Arguments sk_states {E}.
Arguments sk_env {E}.
Arguments Build_Sock {E}.

Section setters.
Context {E : Type}.
Definition set_sk_owner (v : option UnitId) (s : Sock E) : Sock E :=
  {| sk_owner := v; sk_conf := sk_conf s; sk_service := sk_service s;
     sk_port_confs := sk_port_confs s; sk_kill_context := sk_kill_context s;
     sk_exec_ctx := sk_exec_ctx s; sk_control := sk_control s; sk_ports := sk_ports s;
     sk_state := sk_state s; sk_result := sk_result s;
     sk_control_cmd_type := sk_control_cmd_type s; sk_control_command := sk_control_command s;
     sk_refused := sk_refused s; sk_re := sk_re s; sk_states := sk_states s;
     sk_env := sk_env s |}.
Definition set_sk_conf (v : SectionSocket) (s : Sock E) : Sock E :=
  {| sk_owner := sk_owner s; sk_conf := v; sk_service := sk_service s;
     sk_port_confs := sk_port_confs s; sk_kill_context := sk_kill_context s;
     sk_exec_ctx := sk_exec_ctx s; sk_control := sk_control s; sk_ports := sk_ports s;
     sk_state := sk_state s; sk_result := sk_result s;
     sk_control_cmd_type := sk_control_cmd_type s; sk_control_command := sk_control_command s;
     sk_refused := sk_refused s; sk_re := sk_re s; sk_states := sk_states s;
     sk_env := sk_env s |}.
Definition set_sk_service (v : UnitRef) (s : Sock E) : Sock E :=
  {| sk_owner := sk_owner s; sk_conf := sk_conf s; sk_service := v;
     sk_port_confs := sk_port_confs s; sk_kill_context := sk_kill_context s;
     sk_exec_ctx := sk_exec_ctx s; sk_control := sk_control s; sk_ports := sk_ports s;
     sk_state := sk_state s; sk_result := sk_result s;
     sk_control_cmd_type := sk_control_cmd_type s; sk_control_command := sk_control_command s;
     sk_refused := sk_refused s; sk_re := sk_re s; sk_states := sk_states s;
     sk_env := sk_env s |}.
Definition set_sk_port_confs (v : list SocketPortConf) (s : Sock E) : Sock E :=
  {| sk_owner := sk_owner s; sk_conf := sk_conf s; sk_service := sk_service s;
     sk_port_confs := v; sk_kill_context := sk_kill_context s; sk_exec_ctx := sk_exec_ctx s;
     sk_control := sk_control s; sk_ports := sk_ports s; sk_state := sk_state s;
     sk_result := sk_result s; sk_control_cmd_type := sk_control_cmd_type s;
     sk_control_command := sk_control_command s; sk_refused := sk_refused s; sk_re := sk_re s;
     sk_states := sk_states s; sk_env := sk_env s |}.
Definition set_sk_kill_context (v : KillContext) (s : Sock E) : Sock E :=
  {| sk_owner := sk_owner s; sk_conf := sk_conf s; sk_service := sk_service s;
     sk_port_confs := sk_port_confs s; sk_kill_context := v; sk_exec_ctx := sk_exec_ctx s;
     sk_control := sk_control s; sk_ports := sk_ports s; sk_state := sk_state s;
     sk_result := sk_result s; sk_control_cmd_type := sk_control_cmd_type s;
     sk_control_command := sk_control_command s; sk_refused := sk_refused s; sk_re := sk_re s;
     sk_states := sk_states s; sk_env := sk_env s |}.
Definition set_sk_exec_ctx (v : ExecContext) (s : Sock E) : Sock E :=
  {| sk_owner := sk_owner s; sk_conf := sk_conf s; sk_service := sk_service s;
     sk_port_confs := sk_port_confs s; sk_kill_context := sk_kill_context s; sk_exec_ctx := v;
     sk_control := sk_control s; sk_ports := sk_ports s; sk_state := sk_state s;
     sk_result := sk_result s; sk_control_cmd_type := sk_control_cmd_type s;
     sk_control_command := sk_control_command s; sk_refused := sk_refused s; sk_re := sk_re s;
     sk_states := sk_states s; sk_env := sk_env s |}.
Definition set_sk_control (v : option Pid) (s : Sock E) : Sock E :=
  {| sk_owner := sk_owner s; sk_conf := sk_conf s; sk_service := sk_service s;
     sk_port_confs := sk_port_confs s; sk_kill_context := sk_kill_context s;
     sk_exec_ctx := sk_exec_ctx s; sk_control := v; sk_ports := sk_ports s;
     sk_state := sk_state s; sk_result := sk_result s;
     sk_control_cmd_type := sk_control_cmd_type s; sk_control_command := sk_control_command s;
     sk_refused := sk_refused s; sk_re := sk_re s; sk_states := sk_states s;
     sk_env := sk_env s |}.
Definition set_sk_ports (v : list SocketPort) (s : Sock E) : Sock E :=
  {| sk_owner := sk_owner s; sk_conf := sk_conf s; sk_service := sk_service s;
     sk_port_confs := sk_port_confs s; sk_kill_context := sk_kill_context s;
     sk_exec_ctx := sk_exec_ctx s; sk_control := sk_control s; sk_ports := v;
     sk_state := sk_state s; sk_result := sk_result s;
     sk_control_cmd_type := sk_control_cmd_type s; sk_control_command := sk_control_command s;
     sk_refused := sk_refused s; sk_re := sk_re s; sk_states := sk_states s;
     sk_env := sk_env s |}.
Definition set_sk_state (v : SocketState.t) (s : Sock E) : Sock E :=
  {| sk_owner := sk_owner s; sk_conf := sk_conf s; sk_service := sk_service s;
     sk_port_confs := sk_port_confs s; sk_kill_context := sk_kill_context s;
     sk_exec_ctx := sk_exec_ctx s; sk_control := sk_control s; sk_ports := sk_ports s;
     sk_state := v; sk_result := sk_result s; sk_control_cmd_type := sk_control_cmd_type s;
     sk_control_command := sk_control_command s; sk_refused := sk_refused s; sk_re := sk_re s;
     sk_states := sk_states s; sk_env := sk_env s |}.
Definition set_sk_result (v : SocketResult.t) (s : Sock E) : Sock E :=
  {| sk_owner := sk_owner s; sk_conf := sk_conf s; sk_service := sk_service s;
     sk_port_confs := sk_port_confs s; sk_kill_context := sk_kill_context s;
     sk_exec_ctx := sk_exec_ctx s; sk_control := sk_control s; sk_ports := sk_ports s;
     sk_state := sk_state s; sk_result := v; sk_control_cmd_type := sk_control_cmd_type s;
     sk_control_command := sk_control_command s; sk_refused := sk_refused s; sk_re := sk_re s;
     sk_states := sk_states s; sk_env := sk_env s |}.
Definition set_sk_control_cmd_type (v : option SocketCommand.t) (s : Sock E) : Sock E :=
  {| sk_owner := sk_owner s; sk_conf := sk_conf s; sk_service := sk_service s;
     sk_port_confs := sk_port_confs s; sk_kill_context := sk_kill_context s;
     sk_exec_ctx := sk_exec_ctx s; sk_control := sk_control s; sk_ports := sk_ports s;
     sk_state := sk_state s; sk_result := sk_result s; sk_control_cmd_type := v;
     sk_control_command := sk_control_command s; sk_refused := sk_refused s; sk_re := sk_re s;
     sk_states := sk_states s; sk_env := sk_env s |}.
Definition set_sk_control_command (v : list ExecCommand) (s : Sock E) : Sock E :=
  {| sk_owner := sk_owner s; sk_conf := sk_conf s; sk_service := sk_service s;
     sk_port_confs := sk_port_confs s; sk_kill_context := sk_kill_context s;
     sk_exec_ctx := sk_exec_ctx s; sk_control := sk_control s; sk_ports := sk_ports s;
     sk_state := sk_state s; sk_result := sk_result s;
     sk_control_cmd_type := sk_control_cmd_type s; sk_control_command := v;
     sk_refused := sk_refused s; sk_re := sk_re s; sk_states := sk_states s;
     sk_env := sk_env s |}.
Definition set_sk_refused (v : Z) (s : Sock E) : Sock E :=
  {| sk_owner := sk_owner s; sk_conf := sk_conf s; sk_service := sk_service s;
     sk_port_confs := sk_port_confs s; sk_kill_context := sk_kill_context s;
     sk_exec_ctx := sk_exec_ctx s; sk_control := sk_control s; sk_ports := sk_ports s;
     sk_state := sk_state s; sk_result := sk_result s;
     sk_control_cmd_type := sk_control_cmd_type s; sk_control_command := sk_control_command s;
     sk_refused := v; sk_re := sk_re s; sk_states := sk_states s; sk_env := sk_env s |}.
Definition set_sk_re (v : SocketRe) (s : Sock E) : Sock E :=
  {| sk_owner := sk_owner s; sk_conf := sk_conf s; sk_service := sk_service s;
     sk_port_confs := sk_port_confs s; sk_kill_context := sk_kill_context s;
     sk_exec_ctx := sk_exec_ctx s; sk_control := sk_control s; sk_ports := sk_ports s;
     sk_state := sk_state s; sk_result := sk_result s;
     sk_control_cmd_type := sk_control_cmd_type s; sk_control_command := sk_control_command s;
     sk_refused := sk_refused s; sk_re := v; sk_states := sk_states s; sk_env := sk_env s |}.
Definition set_sk_states (v : list UnitState) (s : Sock E) : Sock E :=
  {| sk_owner := sk_owner s; sk_conf := sk_conf s; sk_service := sk_service s;
     sk_port_confs := sk_port_confs s; sk_kill_context := sk_kill_context s;
     sk_exec_ctx := sk_exec_ctx s; sk_control := sk_control s; sk_ports := sk_ports s;
     sk_state := sk_state s; sk_result := sk_result s;
     sk_control_cmd_type := sk_control_cmd_type s; sk_control_command := sk_control_command s;
     sk_refused := sk_refused s; sk_re := sk_re s; sk_states := v; sk_env := sk_env s |}.
Definition set_sk_env (v : E) (s : Sock E) : Sock E :=
  {| sk_owner := sk_owner s; sk_conf := sk_conf s; sk_service := sk_service s;
     sk_port_confs := sk_port_confs s; sk_kill_context := sk_kill_context s;
     sk_exec_ctx := sk_exec_ctx s; sk_control := sk_control s; sk_ports := sk_ports s;
     sk_state := sk_state s; sk_result := sk_result s;
     sk_control_cmd_type := sk_control_cmd_type s; sk_control_command := sk_control_command s;
     sk_refused := sk_refused s; sk_re := sk_re s; sk_states := sk_states s; sk_env := v |}.
End setters.

(** A socket as [SocketUnit::new] makes it, with no owner yet. *)
Definition Sock_new {E} (re : SocketRe) (env : E) : Sock E := {|
  sk_owner := None; sk_conf := SectionSocket_default; sk_service := UnitRef_new;
  sk_port_confs := []; sk_kill_context := KillContext_default; sk_exec_ctx := ExecContext_new;
  sk_control := None; sk_ports := []; sk_state := SocketState.StateMax;
  sk_result := SocketResult.Success; sk_control_cmd_type := None; sk_control_command := [];
  sk_refused := 0; sk_re := re; sk_states := []; sk_env := env |}.

(** What a socket computes with. *)
Abbreviation K E A := (M (Sock E) A).

Section store.
Context {E : Type}.

Definition sk_do {A} (f : E → E * A) : K E A := λ s,
  let r := f (sk_env s) in Returned (set_sk_env r.1 s, r.2).
Definition sk_env_modify (f : E → E) : K E unit := mmodify (λ s, set_sk_env (f (sk_env s)) s).
Definition sk_ask {A} (f : E → A) : K E A := mgets (λ s, f (sk_env s)).
Definition sk_re_modify (f : SocketRe → SocketRe) : K E unit := mmodify (λ s, set_sk_re (f (sk_re s)) s).

(** The ports are shared cells: a port is its place in the vector. *)
Definition port (i : nat) : K E SocketPort := s ← mget; munwrap (sk_ports s !! i).
Definition set_fd (i : nat) (fd : Z) : K E unit :=
  mmodify (λ s, set_sk_ports (alter (port_set_fd fd) i (sk_ports s)) s).
Definition for_ports (f : nat → K E unit) : K E unit :=
  s ← mget; mforeach f (seq 0 (length (sk_ports s))).

(** [self.f()?] *)
Definition sk_and_ok {A B R} (m : K E (Result A R)) (k : A → K E (Result B R)) : K E (Result B R) :=
  r ← m; match r with Ok a => k a | Err e => mret (Err e) end.
End store.

(** The proof steps over this store's own primitives. *)
Lemma wp_sk_do {E A} (f : E → E * A) (s : Sock E) (Q : Sock E → A → Prop) :
  wp (sk_do f) s Q ↔ Q (set_sk_env (f (sk_env s)).1 s) (f (sk_env s)).2.
Proof. done. Qed.
Lemma wtp_sk_do {E A} (f : E → E * A) (s : Sock E) (Q : Sock E → A → Prop) :
  wtp (sk_do f) s Q ↔ Q (set_sk_env (f (sk_env s)).1 s) (f (sk_env s)).2.
Proof. done. Qed.
