(* ===== verification/Socket.v ===== *)
(** * Socket units

    [coms/socket/src]: the control process ([pid.rs]), the start of a command
    ([spawn.rs]), the addresses and the ports ([config.rs], [port.rs]), the
    state machine ([mng.rs]), the loading of the configuration ([config.rs],
    [load.rs]), the unit ([unit.rs]) and what its manager does after a crash
    ([manager.rs]), over the store of [SocketStore.v].  A method is the
    definition of the same name. *)
From Stdlib Require Import Ascii.
From S2P Require Import Prelude UnitTypes ReDb StdString StdNet UnitEntry ExecParams UnitIf.
From S2P Require Import SocketTypes SocketStore.
Local Open Scope Z_scope.

(** How often a loop over a descriptor asks the system again. *)
Class FlushFuel : Type := flush_fuel : nat.

Section socket.
Context {E : Type} `{HU : !UmIf E} `{HB : !UnitBase E} `{HL : !EventLoop SocketSource E}.
Context `{HP : !Processes E} `{HN : !SocketSys E} `{HR : !Reli E} `{HE : !SockEnv} `{HF : !FlushFuel}.
Implicit Types (s : Sock E) (res : SocketResult.t) (st : SocketState.t) (i : nat).

(** ** [pid.rs] *)
Definition sk_unwatch_control : K E unit :=
  s ← mget;
  match sk_control s with
  | Some pid =>
    match sk_owner s with
    | Some u => sk_env_modify (um_child_unwatch_pid u pid)
    | None => mret tt
    end;;
    mmodify (set_sk_control None)
  | None => mret tt
  end.
Definition sk_update_control (pid : option Pid) : K E unit := mmodify (set_sk_control pid).

(** ** [spawn.rs] *)
Definition sk_spawn_error : Error := ErrOther "spawn exec return error".
Definition start_socket (cmdline : ExecCommand) : K E (Result Pid Error) :=
  s ← mget;
  match sk_owner s with
  | Some unit =>
    sk_and_ok (sk_do (unit_prepare_exec unit)) (λ _,
    r ← sk_do (um_exec_spawn unit cmdline ExecParameters_new (sk_exec_ctx s));
    match r with
    | Ok pid => sk_env_modify (um_child_watch_pid unit pid);; mret (Ok pid)
    | Err _ => mret (Err sk_spawn_error)
    end)
  | None => mret (Err sk_spawn_error)
  end.

(** ** [SocketAddress] ([config.rs]) *)
Definition sa_unlink (sa : SocketAddress) : K E unit :=
  match sa_path sa with Some path => sk_env_modify (os_unlink path) | None => mret tt end.

(** Of the errors of the first [bind] to a path, only [EADDRINUSE] is looked at. *)
Definition bind_path (fd : Z) (path : string) (sa : SocketAddress) : K E (Result unit Z) :=
  match path_parent path with
  | None => mpanic
  | Some parent =>
    made ← sk_do (os_create_dir_all parent);
    if negb made then mret (Err EINVAL) else
    r ← sk_do (os_bind fd (sock_addr sa));
    match r with
    | Err e =>
      if e =? EADDRINUSE then sa_unlink sa;; sk_do (os_bind fd (sock_addr sa)) else mret (Ok tt)
    | Ok _ => mret (Ok tt)
    end
  end.
Definition socket_listen (backlog : Z) (sa : SocketAddress) : K E (Result Z Z) :=
  sk_and_ok (sk_do (os_socket (sa_family sa) (sa_type sa) (sa_protocol sa))) (λ fd,
  sk_and_ok (sk_do (os_setsockopt fd (ReuseAddr true))) (λ _,
  sk_and_ok (match sa_path sa with
    | Some path => bind_path fd path sa
    | None => sk_do (os_bind fd (sock_addr sa))
    end) (λ _,
  if can_accept sa then sk_and_ok (sk_do (os_listen fd backlog)) (λ _, mret (Ok fd))
  else mret (Ok fd)))).

(** ** [port.rs] *)
(** [ppoll_timeout] and [wait_for_events] of [libs/basic/src/io_util.rs]. *)
Definition wait_for_events (fd : Z) : K E (Result Z Z) :=
  r ← sk_do (os_ppoll fd);
  mret (match r with
  | Err e => Err e
  | Ok (ret, revents) =>
    if ret =? 0 then Ok 0
    else match revents with
    | Some ev => if ev =? POLLNVAL then Err EBADF else Ok ret
    | None => Ok ret
    end
  end).

Definition accept (i : nat) : K E (Result Z Error) :=
  p ← port i;
  r ← sk_do (os_accept (sp_fd p));
  mret (match r with Ok fd => Ok fd | Err _ => Err (ErrOther "Nix") end).

Definition port_close (update : bool) i : K E unit :=
  p ← port i;
  let fd := sp_fd p in
  if fd <? 0 then mret tt else
  mwhen update (sk_do (reli_fd_cloexec fd true);; mret tt);;
  sk_env_modify (os_close_fd fd);;
  match p_type p with
  | PortType.Socket => sa_unlink (p_sa p)
  | PortType.Fifo | PortType.Invalid => mpanic
  end;;
  set_fd i SOCKET_INVALID_FD.

Definition open_port (update : bool) i : K E (Result unit Error) :=
  p ← port i;
  if 0 <=? sp_fd p then mret (Ok tt) else
  match p_type p with
  | PortType.Fifo | PortType.Invalid => mpanic
  | PortType.Socket =>
    r ← socket_listen 128 (p_sa p);
    match r with
    | Err _ => mret (Err (ErrOther "Nix"))
    | Ok fd =>
      r ← (if update : bool then sk_do (reli_fd_cloexec fd false) else mret (Ok tt));
      match r with
      | Err e => port_close update i;; mret (Err e)
      | Ok _ => set_fd i fd;; mret (Ok tt)
      end
    end
  end.

(** [while let Err(e) = wait_for_events(..) { if EINTR { continue } return }]:
    false is the return. *)
Fixpoint wait_ready (fuel : nat) (fd : Z) : K E bool :=
  match fuel with
  | O => mnofuel
  | Datatypes.S fuel' =>
    r ← wait_for_events fd;
    match r with
    | Ok _ => mret true
    | Err e => if e =? EINTR then wait_ready fuel' fd else mret false
    end
  end.
(** The connection that was accepted is dropped open; the listening descriptor
    is the one that is closed. *)
Fixpoint flush_accepts (n : nat) (fd : Z) : K E unit :=
  match n with
  | O => mret tt
  | Datatypes.S n' =>
    ready ← wait_ready flush_fuel fd;
    if negb ready then mret tt else
    r ← sk_do (os_accept fd);
    match r with
    | Ok _ => sk_env_modify (os_close_fd fd);; flush_accepts n' fd
    | Err _ => mret tt
    end
  end.
Definition flush_accept i : K E unit :=
  p ← port i;
  r ← sk_ask (os_accept_conn (sp_fd p));
  match r with
  | Ok true => flush_accepts 1023 (sp_fd p)
  | _ => mret tt
  end.

Fixpoint flush_reads (fuel : nat) (fd : Z) : K E unit :=
  match fuel with
  | O => mnofuel
  | Datatypes.S fuel' =>
    r ← wait_for_events fd;
    let v := match r with Ok v => v | Err _ => 0 end in
    if v =? 0 then mret tt else
    r ← sk_do (os_read_buf fd);
    let v := match r with Ok v => v | Err e => if e =? EINTR then 1 else 0 end in
    if v =? 0 then mret tt else flush_reads fuel' fd
  end.
Definition flush_fd i : K E unit := p ← port i; flush_reads flush_fuel (sp_fd p).

(** The options of the configuration, in the order they are set. *)
Definition pkginfo_opt (family : AddressFamily) (v : bool) : option SockOpt :=
  match family with
  | AfInet => Some (Ipv4PacketInfo v)
  | AfInet6 => Some (Ipv6RecvPacketInfo v)
  | _ => None
  end.
Definition sock_opts (family : AddressFamily) (c : SectionSocket) : list SockOpt :=
  omap id [v ← PassPacketInfo c; pkginfo_opt family v; PassCred <$> PassCredentials c;
    RcvBuf <$> ReceiveBuffer c; SndBuf <$> SendBuffer c; OptKeepAlive <$> KeepAlive c;
    TcpKeepIdle <$> KeepAliveTimeSec c; TcpKeepInterval <$> KeepAliveIntervalSec c;
    TcpKeepCount <$> KeepAliveProbes c; OptBroadcast <$> Broadcast c].
Definition apply_sock_opt i (fd : Z) : K E unit :=
  p ← port i;
  s ← mget;
  mforeach (λ o, sk_do (os_setsockopt fd o);; mret tt) (sock_opts (sa_family (p_sa p)) (sk_conf s)).

(** ** Watching the ports ([mng.rs]) *)
Definition port_source i (p : SocketPort) : SocketSource := {| ss_port := i; ss_fd := sp_fd p |}.
Definition watch_fds : K E unit := for_ports (λ i,
  p ← port i;
  if sp_fd p <? 0 then mret tt else
  r ← sk_do (ev_add_source (port_source i p)); munwrap_ok r;;
  r ← sk_do (ev_set_enabled (port_source i p) On); munwrap_ok r).
Definition unwatch_fds : K E unit := for_ports (λ i,
  p ← port i;
  r ← sk_do (ev_set_enabled (port_source i p) Off); munwrap_ok r).
Definition close_fds : K E unit :=
  for_ports (λ i, p ← port i; r ← sk_do (ev_del_source (port_source i p)); munwrap_ok r);;
  for_ports (port_close true).
Definition flush_ports : K E unit := for_ports (λ i, flush_accept i;; flush_fd i).

(** [open_fds]: the first port that cannot be opened closes them all. *)
Fixpoint open_fds_from (ports : list nat) : K E (Result unit Error) :=
  match ports with
  | [] => mret (Ok tt)
  | i :: ports' =>
    ret ← open_port true i;
    if is_err ret then close_fds;; mret ret else
    p ← port i;
    apply_sock_opt i (sp_fd p);;
    open_fds_from ports'
  end.
Definition open_fds : K E (Result unit Error) := s ← mget; open_fds_from (seq 0 (length (sk_ports s))).

(** ** Commands *)
Definition sk_control_command_fill (cmd_type : SocketCommand.t) : K E unit :=
  s ← mget;
  match socket_exec_cmds cmd_type (sk_conf s) with
  | Some cmds => mmodify (set_sk_control_command cmds)
  | None => mret tt
  end.
Definition sk_control_command_pop : K E (option ExecCommand) :=
  s ← mget;
  mmodify (set_sk_control_command (tail (sk_control_command s)));;
  mret (head (sk_control_command s)).
Definition sk_control_command_update (cmd_type : option SocketCommand.t) (len : nat) : K E unit :=
  match cmd_type with
  | Some c_type =>
    mmodify (set_sk_control_command []);;
    sk_control_command_fill c_type;;
    s ← mget;
    mforeach (λ _, sk_control_command_pop;; mret tt)
      (seq len (length (sk_control_command s) - len))
  | None => massert (bool_decide (len = 0%nat))
  end.

(** ** States *)
Definition socket_keeps_control st : bool := bool_decide (st ∈
  [SocketState.StartPre; SocketState.StartChown; SocketState.StartPost; SocketState.StopPre;
   SocketState.StopPreSigterm; SocketState.StopPreSigkill; SocketState.StopPost;
   SocketState.FinalSigterm; SocketState.FinalSigkill]).
Definition keeps_fds st : bool := bool_decide (st ∈
  [SocketState.StartChown; SocketState.StartPost; SocketState.Listening; SocketState.Running;
   SocketState.StopPre; SocketState.StopPreSigterm; SocketState.StopPreSigkill]).

Definition sk_set_state st : K E unit :=
  s0 ← mget;
  let original_state := sk_state s0 in
  mmodify (set_sk_state st);;
  mwhen (negb (socket_keeps_control st)) sk_unwatch_control;;
  mwhen (negb (bool_decide (st = SocketState.Listening))) unwatch_fds;;
  mwhen (negb (keeps_fds st)) close_fds;;
  s ← mget;
  match sk_owner s with
  | Some _ => mmodify (set_sk_states (sk_states s ++
      [{| st_os := socket_active_state original_state; st_ns := socket_active_state st;
          st_flags := UNIT_NOTIFY_RELOAD_FAILURE |}]))
  | None => mret tt
  end.

(** [if self.result() == Success { self.set_result(res) }] *)
Definition sk_update_result res : K E unit :=
  s ← mget; mwhen (bool_decide (sk_result s = SocketResult.Success)) (mmodify (set_sk_result res)).

(** ** The way down: dead, stop, signals *)
Definition sk_enter_dead res : K E unit :=
  sk_update_result res;;
  s ← mget;
  sk_set_state (if bool_decide (sk_result s = SocketResult.Success)
                then SocketState.Dead else SocketState.Failed).

(** The start of the next control command; the continuations are what follows a
    failed start and what follows when there is none. *)
Definition run_control (st : SocketState.t) (failed none : K E unit) : K E unit :=
  c ← sk_control_command_pop;
  match c with
  | Some cmd =>
    r ← start_socket cmd;
    match r with
    | Ok pid => mmodify (set_sk_control (Some pid));; sk_set_state st
    | Err _ => failed
    end
  | None => none
  end.

(** [enter_stop_post] and [enter_signal] call each other; [signal] is the
    recursive call. *)
Definition sk_enter_stop_post_with (signal : SocketState.t → SocketResult.t → K E unit) res : K E unit :=
  sk_update_result res;;
  sk_control_command_fill SocketCommand.StopPost;;
  run_control SocketState.StopPost
    (signal SocketState.FinalSigterm SocketResult.FailureResources)
    (signal SocketState.FinalSigterm SocketResult.Success).

Definition is_stop_pre_signal st : bool :=
  bool_decide (st ∈ [SocketState.StopPreSigterm; SocketState.StopPreSigkill]).
(** [u.kill_context(..)] *)
Definition sk_kill st : K E (Result unit Error) :=
  s ← mget;
  match sk_owner s with
  | Some u => sk_do (unit_kill_context u (sk_kill_context s) None (sk_control s)
                      (socket_kill_operation st))
  | None => mret (Ok tt)
  end.
Fixpoint sk_enter_signal_fuel (fuel : nat) st res : K E unit :=
  match fuel with
  | O => mnofuel
  | Datatypes.S fuel' =>
    sk_update_result res;;
    r ← sk_kill st;
    match r with
    | Err _ =>
      if is_stop_pre_signal st
      then sk_enter_stop_post_with (sk_enter_signal_fuel fuel') SocketResult.FailureResources
      else sk_enter_dead SocketResult.FailureResources
    | Ok _ =>
      if bool_decide (st = SocketState.StopPreSigterm)
      then sk_enter_signal_fuel fuel' SocketState.StopPreSigkill SocketResult.Success
      else if bool_decide (st = SocketState.StopPreSigkill)
      then sk_enter_stop_post_with (sk_enter_signal_fuel fuel') SocketResult.Success
      else if bool_decide (st = SocketState.FinalSigterm)
      then sk_enter_signal_fuel fuel' SocketState.FinalSigkill SocketResult.Success
      else sk_enter_dead SocketResult.Success
    end
  end.
(** The two stop signals and the two final ones: four calls deep at most. *)
Definition sk_signal_depth : nat := 4.
Definition sk_enter_signal : SocketState.t → SocketResult.t → K E unit :=
  sk_enter_signal_fuel sk_signal_depth.
Definition sk_enter_stop_post : SocketResult.t → K E unit := sk_enter_stop_post_with sk_enter_signal.

Definition enter_stop_pre res : K E unit :=
  sk_update_result res;;
  sk_unwatch_control;;
  sk_control_command_fill SocketCommand.StopPre;;
  run_control SocketState.StopPre
    (sk_enter_stop_post SocketResult.FailureResources)
    (sk_enter_stop_post SocketResult.Success).

(** ** The way up: start, listening, running *)
Definition enter_listening : K E unit :=
  s ← mget;
  mwhen (negb (Accept (sk_conf s))) flush_ports;;
  watch_fds;;
  sk_set_state SocketState.Listening.
Definition sk_enter_start_post : K E unit :=
  sk_unwatch_control;;
  sk_control_command_fill SocketCommand.StartPost;;
  run_control SocketState.StartPost (enter_stop_pre SocketResult.FailureResources) enter_listening.
Definition enter_start_chown : K E unit :=
  r ← open_fds;
  match r with
  | Ok _ => sk_enter_start_post
  | Err _ => enter_stop_pre SocketResult.FailureResources
  end.
Definition enter_start_pre : K E unit :=
  sk_unwatch_control;;
  sk_control_command_fill SocketCommand.StartPre;;
  run_control SocketState.StartPre (sk_enter_dead SocketResult.FailureResources) enter_start_chown.

Definition wrap_i32 (z : Z) : Z := (z + 2 ^ 31) mod 2 ^ 32 - 2 ^ 31.
Definition sk_enter_running (fd : Z) : K E unit :=
  s ← mget;
  match sk_owner s with
  | None => mret tt
  | Some u =>
    if um_has_stop_job u (sk_env s) then
      if 0 <=? fd then mmodify (λ s, set_sk_refused (wrap_i32 (sk_refused s + 1)) s) else flush_ports
    else if fd <? 0 then
      if um_relation_active_or_pending u (sk_env s) then sk_set_state SocketState.Running else
      match ur_target (sk_service s) with
      | None => enter_stop_pre SocketResult.FailureResources
      | Some service =>
        sk_re_modify (set_last_frame (FdListen false));;
        ret ← sk_do (um_start_unit service);
        sk_re_modify (set_last_frame (FdListen true));;
        if is_err ret then enter_stop_pre SocketResult.FailureResources
        else sk_set_state SocketState.Running
      end
    else mpanic
  end.

Definition sk_run_next : K E unit :=
  c ← sk_control_command_pop;
  match c with
  | Some cmd =>
    r ← start_socket cmd;
    match r with Ok pid => mmodify (set_sk_control (Some pid)) | Err _ => mret tt end
  | None => mret tt
  end.

(** ** The end of the control process; [None] is [unreachable!()]. *)
Definition sk_sigchld_result (w : WaitStatus) : option SocketResult.t :=
  match w with
  | UnitIf.Exited _ status =>
    Some (if status =? 0 then SocketResult.Success else SocketResult.FailureExitCode)
  | Signaled _ _ core_dump =>
    Some (if core_dump : bool then SocketResult.FailureCoreDump else SocketResult.FailureSignal)
  | _ => None
  end.
Definition sk_do_sigchld_event (w : WaitStatus) : K E unit :=
  res ← munwrap (sk_sigchld_result w);
  s ← mget;
  let ok := bool_decide (res = SocketResult.Success) in
  if bool_decide (sk_control_command s ≠ []) && ok then sk_run_next else
  match sk_state s with
  | SocketState.StartPre => if ok then enter_start_chown else sk_enter_signal SocketState.FinalSigterm res
  | SocketState.StartChown => if ok then sk_enter_start_post else enter_stop_pre res
  | SocketState.StartPost => if ok then enter_listening else enter_stop_pre res
  | SocketState.StopPre | SocketState.StopPreSigterm | SocketState.StopPreSigkill =>
    sk_enter_stop_post res
  | SocketState.StopPost | SocketState.FinalSigterm | SocketState.FinalSigkill => sk_enter_dead res
  | _ => mpanic
  end.

(** ** [ReStation] ([mng.rs], [config.rs], [unit.rs]) *)
Definition sk_mng_db_insert : K E unit :=
  s ← mget;
  match sk_owner s with
  | Some u =>
    sk_re_modify (socket_mng_insert u {|
      sr_state := sk_state s; sr_result := sk_result s; sr_control_pid := sk_control s;
      sr_control_cmd_type := sk_control_cmd_type s;
      sr_control_cmd_len := length (sk_control_command s); sr_refused := sk_refused s;
      sr_ports := (λ p, (p_type p, p_listen p, sp_fd p)) <$> sk_ports s |})
  | None => mret tt
  end.

Definition build_ports : K E unit :=
  mmodify (λ s, set_sk_ports (sk_ports s ++ (SocketPort_new <$> sk_port_confs s)) s);;
  sk_mng_db_insert.

(** The first port of the type and the text. *)
Definition ports_find (t : PortType.t) (listen : string) (ports : list SocketPort) : option nat :=
  fst <$> list_find (λ p, p_type p = t ∧ p_listen p = listen) ports.
Definition map_ports_fd (rports : list (PortType.t * string * Z)) : K E unit :=
  s ← mget;
  massert (bool_decide (length rports = length (sk_ports s)));;
  mforeach (λ '(t, listen, fd),
    s ← mget;
    i ← munwrap (ports_find t listen (sk_ports s));
    fd' ← sk_do (reli_fd_take fd);
    set_fd i fd') rports.

Definition sk_data_db_map : K E unit :=
  s ← mget;
  match (u ← sk_owner s; socket_mng_get u (sk_re s)) with
  | Some m =>
    mmodify (set_sk_state (sr_state m));;
    mmodify (set_sk_result (sr_result m));;
    sk_update_control (sr_control_pid m);;
    sk_control_command_update (sr_control_cmd_type m) (sr_control_cmd_len m);;
    mmodify (set_sk_refused (sr_refused m));;
    map_ports_fd (sr_ports m)
  | None => mret tt
  end.
Definition sk_mng_db_map : K E unit := build_ports;; sk_data_db_map.

Definition sk_config_db_insert : K E unit :=
  s ← mget;
  match sk_owner s with
  | Some u => sk_re_modify (socket_conf_insert u (sk_conf s) (ur_target (sk_service s)))
  | None => mret tt
  end.

(** ** The configuration ([config.rs]) *)
Definition config_set_ref (target : string) : K E unit :=
  s ← mget;
  match sk_owner s with
  | Some u => mmodify (set_sk_service (set_ref u target (sk_service s)))
  | None => mret tt
  end.
Definition set_unit_ref (service : string) : K E (Result unit Error) :=
  loaded ← sk_do (um_load_unit_success service);
  if negb loaded then mret (Err (ErrOther "failed to load unit")) else
  config_set_ref service;;
  sk_config_db_insert;;
  mret (Ok tt).
Definition parse_service : K E (Result unit Error) :=
  s ← mget;
  match sk_Service (sk_conf s) with
  | Some service =>
    if negb (ends_with ".service" service)
    then mret (Err (ErrOther "socket service must be end with .service"))
    else set_unit_ref service
  | None => mret (Ok tt)
  end.

Definition push_port (sa : SocketAddress) (listen : string) : K E unit :=
  mmodify (λ s, set_sk_port_confs (sk_port_confs s ++
    [{| pc_type := PortType.Socket; pc_sa := sa; pc_listen := listen |}]) s).
Fixpoint parse_sockets (listens : list string) (socket_type : SockType) : K E (Result unit Error) :=
  match listens with
  | [] => mret (Ok tt)
  | v :: listens' =>
    if decide (v = "") then parse_sockets listens' socket_type else
    match parse_socket_address v socket_type with
    | Ok sa => push_port sa v;; parse_sockets listens' socket_type
    | Err _ => mret (Err (ErrOther "parsing listening socket failed"))
    end
  end.
Fixpoint parse_netlinks (listens : list string) : K E (Result unit Error) :=
  match listens with
  | [] => mret (Ok tt)
  | v :: listens' =>
    if decide (v = "") then parse_netlinks listens' else
    r ← munwrap (parse_netlink_address v);
    match r with
    | Ok sa => push_port sa v;; parse_netlinks listens'
    | Err _ => mret (Err (ErrOther "create netlink listening socket failed"))
    end
  end.
Inductive ListeningItem := ItemStream | ItemDatagram | ItemNetlink | ItemSequentialPacket.
Definition parse_listen_socket (item : ListeningItem) : K E (Result unit Error) :=
  s ← mget;
  let sockets listens ty :=
    match listens with Some l => parse_sockets l ty | None => mret (Ok tt) end in
  match item with
  | ItemStream => sockets (ListenStream (sk_conf s)) SockStream
  | ItemDatagram => sockets (ListenDatagram (sk_conf s)) SockDatagram
  | ItemNetlink =>
    match ListenNetlink (sk_conf s) with Some l => parse_netlinks l | None => mret (Ok tt) end
  | ItemSequentialPacket => sockets (ListenSequentialPacket (sk_conf s)) SockSeqPacket
  end.
Definition parse_port : K E (Result unit Error) :=
  sk_and_ok (parse_listen_socket ItemStream) (λ _,
  sk_and_ok (parse_listen_socket ItemDatagram) (λ _,
  sk_and_ok (parse_listen_socket ItemNetlink) (λ _,
  sk_and_ok (parse_listen_socket ItemSequentialPacket) (λ _, mret (Ok tt))))).

Definition sk_parse_kill_context : K E (Result unit Error) :=
  s ← mget;
  mmodify (λ s, set_sk_kill_context {| kill_mode := sk_KillMode (sk_conf s);
                                       kill_signal := kill_signal (sk_kill_context s) |} s);;
  match sig_from_str (sk_KillSignal (sk_conf s)) with
  | None => mret (Err (ErrOther "Nix"))
  | Some signal =>
    mmodify (set_sk_kill_context {| kill_mode := sk_KillMode (sk_conf s); kill_signal := signal |});;
    mret (Ok tt)
  end.
Definition config_reset : K E unit :=
  mmodify (λ s, set_sk_conf SectionSocket_default (set_sk_service UnitRef_new (set_sk_port_confs [] s)));;
  sk_config_db_insert.
(** [SocketConfig::load] once [conf] is what the unit files hold. *)
Definition config_load (conf : SectionSocket) (update : bool) : K E (Result unit Error) :=
  mmodify (set_sk_conf conf);;
  sk_and_ok sk_parse_kill_context (λ _,
  ret1 ← parse_service;
  ret2 ← parse_port;
  if is_err ret1 || is_err ret2 then
    config_reset;; mret (match ret1 with Ok _ => ret2 | Err _ => ret1 end)
  else mwhen update sk_config_db_insert;; mret (Ok tt)).

Definition sk_config_db_map : K E unit :=
  s ← mget;
  match (u ← sk_owner s; socket_conf_get u (sk_re s)) with
  | Some (data, service) =>
    mmodify (set_sk_conf data);;
    match service with
    | Some svc => r ← set_unit_ref svc; munwrap_ok r
    | None => mret tt
    end;;
    r ← parse_port; munwrap_ok r
  | None => mret tt
  end.
Definition sk_db_map : K E unit := sk_config_db_map;; sk_mng_db_map.
Definition sk_db_insert : K E unit := sk_config_db_insert;; sk_mng_db_insert.
Definition entry_coldplug : K E unit := watch_fds.
Definition entry_clear : K E unit := unwatch_fds.

(** ** Loading ([load.rs]) *)
Definition load_related_unit (related_type : UnitType) : K E (Result unit Error) :=
  s ← mget;
  let suffix := UnitType_to_string related_type in
  if decide (suffix = "") then mret (Err (ErrOther "failed to load related unit")) else
  match sk_owner s with
  | None => mret (Err (ErrOther "failed to load related unit unit name is none"))
  | Some u_name =>
    stem_name ← munwrap (file_stem u_name);
    set_unit_ref (stem_name ++ "." ++ suffix)
  end.
Definition no_accept_socket (ports : list SocketPortConf) : bool :=
  existsb (λ p, negb (bool_decide (pc_type p = PortType.Socket)) || negb (can_accept (pc_sa p))) ports.
Definition sk_can_accept s : bool :=
  if negb (Accept (sk_conf s)) then true else no_accept_socket (sk_port_confs s).
Definition sk_add_default_dependencies : K E (Result unit Error) :=
  s ← mget;
  match sk_owner s with
  | None => mret (Ok tt)
  | Some u =>
    if negb (unit_default_dependencies u (sk_env s)) then mret (Ok tt) else
    sk_and_ok (sk_do (um_unit_add_dependency u UnitAfter SOCKETS_TARGET true MaskDefault)) (λ _,
    sk_and_ok (sk_do (um_unit_add_two_dependency u UnitAfter UnitRequires SYSINIT_TARGET true MaskDefault)) (λ _,
    sk_and_ok (sk_do (um_unit_add_two_dependency u UnitBefore UnitConflicts SHUTDOWN_TARGET true MaskDefault)) (λ _,
    mret (Ok tt))))
  end.
Definition socket_add_extras : K E (Result unit Error) :=
  s ← mget;
  sk_and_ok (if sk_can_accept s then
      sk_and_ok (if is_some (ur_target (sk_service s)) then mret (Ok tt)
                 else load_related_unit UnitService) (λ _,
      s ← mget;
      match sk_owner s with
      | Some owner =>
        target ← munwrap (ur_target (sk_service s));
        sk_do (um_unit_add_two_dependency owner UnitBefore UnitTriggers target true MaskImplicit)
      | None => mret (Ok tt)
      end)
    else mret (Ok tt)) (λ _,
  sk_and_ok sk_add_default_dependencies (λ _, mret (Ok tt))).
Definition socket_verify : K E (Result unit Error) := mret (Ok tt).

(** ** [SubUnit] ([unit.rs]) *)
Definition sk_load (conf : SectionSocket) : K E (Result unit Error) :=
  sk_and_ok (config_load conf true) (λ _,
  ret ← socket_add_extras;
  if is_err ret then config_reset;; mret ret else
  build_ports;;
  socket_verify).

Definition sk_is_stopping st : bool := bool_decide (st ∈
  [SocketState.StopPre; SocketState.StopPreSigkill; SocketState.StopPreSigterm;
   SocketState.StopPost; SocketState.FinalSigterm; SocketState.FinalSigkill]).
Definition sk_is_starting st : bool := bool_decide (st ∈
  [SocketState.StartPre; SocketState.StartChown; SocketState.StartPost]).

Definition sk_start_check : K E (Result bool Error) :=
  s ← mget;
  if sk_is_stopping (sk_state s) || bool_decide (sk_state s = SocketState.Cleaning)
  then mret (Err UnitActionEAgain) else
  if sk_is_starting (sk_state s) then mret (Ok true) else
  sk_and_ok (match ur_target (sk_service s) with
    | Some name => sk_ask (um_unit_enabled name)
    | None => mret (Ok tt)
    end) (λ _,
  ret ← match sk_owner s with
        | Some u => sk_do (unit_test_start_limit u)
        | None => mret false
        end;
  if negb ret then
    sk_enter_dead SocketResult.FailureStartLimitHit;; mret (Err UnitActionECanceled)
  else mret (Ok false)).
Definition sk_start_action : K E unit := enter_start_pre;; sk_mng_db_insert.
Definition sk_start : K E (Result unit Error) :=
  sk_and_ok sk_start_check (λ starting,
  if (starting : bool) then mret (Ok tt) else sk_start_action;; mret (Ok tt)).

Definition sk_stop_check : K E (Result bool Error) :=
  s ← mget;
  if sk_is_stopping (sk_state s) then mret (Ok true) else
  if sk_is_starting (sk_state s) then
    sk_enter_signal SocketState.StopPreSigterm SocketResult.Success;; mret (Err UnitActionEAgain)
  else mret (Ok false).
Definition sk_stop_action : K E unit := enter_stop_pre SocketResult.Success;; sk_mng_db_insert.
Definition sk_stop (force : bool) : K E (Result unit Error) :=
  if force then sk_stop_action;; mret (Ok tt) else
  sk_and_ok sk_stop_check (λ stopping,
  if (stopping : bool) then mret (Ok tt) else sk_stop_action;; mret (Ok tt)).

Definition sk_sigchld_event (w : WaitStatus) : K E unit := sk_do_sigchld_event w;; sk_mng_db_insert.
Definition sk_current_active_state s : UnitActiveState := socket_active_state (sk_state s).
Definition collect_fds s : list Z := filter (λ fd, 0 ≤ fd) (sp_fd <$> sk_ports s).
Definition sk_attach_unit (u : UnitId) : K E unit := mmodify (set_sk_owner (Some u));; sk_db_insert.

(** ** Incoming traffic: [Source for SocketMngPort] ([mng.rs]) *)
(** The descriptor that was accepted is shadowed: [enter_running] gets [-1]. *)
Definition dispatch_io i : K E (Result Z Error) :=
  s ← mget;
  if negb (bool_decide (sk_state s = SocketState.Listening)) then mret (Ok 0) else
  p ← port i;
  sk_and_ok (if Accept (sk_conf s) && bool_decide (p_type p = PortType.Socket) && can_accept (p_sa p)
    then sk_and_ok (accept i) (λ afd, apply_sock_opt i afd;; mret (Ok tt))
    else mret (Ok tt)) (λ _,
  sk_enter_running (-1);;
  sk_mng_db_insert;;
  mret (Ok 0)).

(** [ReliLastFrame::SubManager] and [UnitType::UnitSocket] as numbers. *)
Definition FRAME_SUB_MANAGER : Z := 5.
Definition UNIT_SOCKET : Z := 2.
Definition socket_dispatch i : K E Z :=
  sk_env_modify (reli_set_last_frame2 FRAME_SUB_MANAGER UNIT_SOCKET);;
  sk_re_modify (set_last_frame (FdListen true));;
  s ← mget;
  u ← munwrap (sk_owner s);
  sk_env_modify (reli_set_last_unit u);;
  ret ← dispatch_io i;
  sk_env_modify reli_clear_last_unit;;
  sk_re_modify clear_last_frame;;
  sk_env_modify reli_clear_last_frame;;
  mret (match ret with Ok v => v | Err _ => -1 end).

(** ** After a crash: [ReStation for SocketManager] ([manager.rs]) *)
Definition compensate_last (lunit : option UnitId) (f : UnitId → bool → K E unit) : K E unit :=
  massert (is_some lunit);;
  s ← mget;
  match last_frame (sk_re s) with
  | None => mret tt
  | Some (FdListen spread) => u ← munwrap lunit; f u spread
  end.
Definition rc_last_fdlisten (lunit : UnitId) (spread : bool) : K E unit :=
  if spread then sk_env_modify (um_rentry_trigger_merge lunit true) else mret tt.
Definition dc_last_fdlisten (lunit : UnitId) (spread : bool) : K E unit :=
  if spread then sk_env_modify (um_trigger_unit lunit) else mret tt.
Definition db_compensate_last (lunit : option UnitId) : K E unit := compensate_last lunit rc_last_fdlisten.
Definition do_compensate_last (lunit : option UnitId) : K E unit := compensate_last lunit dc_last_fdlisten.
End socket.
