(* ===== verification/SocketFacts.v ===== *)
(** * Facts about the socket state machine

    That every call of a socket ends when the kernel runs dry, the frames of the
    operations, and that a failure sticks ([Socket.v]). *)
From S2P Require Import Prelude UnitTypes ReDb StdString StdNet UnitEntry ExecParams UnitIf.
From S2P Require Import SocketTypes SocketStore Socket.
Local Open Scope Z_scope.

Section facts.
Context {E : Type} `{HU : !UmIf E} `{HB : !UnitBase E} `{HL : !EventLoop SocketSource E}.
Context `{HP : !Processes E} `{HN : !SocketSys E} `{HR : !Reli E} `{HE : !SockEnv} `{HF : !FlushFuel}.
Implicit Types (s : Sock E) (res : SocketResult.t) (st : SocketState.t) (i : nat).

(** ** The loops over a descriptor *)

(** They end when the system is not interrupted, and has no more data, more often
    than they ask. *)
Definition flush_ends : Prop :=
  ∀ fd s, wait_ready flush_fuel fd s ≠ OutOfFuel ∧ flush_reads flush_fuel fd s ≠ OutOfFuel.

(** A frame that the system calls keep. *)
Section env_frame.
Context (R : Sock E → Sock E → Prop) (HRR : PreOrder R) (Renv : ∀ s e, R s (set_sk_env e s)).

Lemma keeps_sk_do {A} (f : E → E * A) : keeps R (sk_do f).
Proof. intros s. apply Renv. Qed.
Lemma keeps_sk_env_modify f : keeps R (sk_env_modify f).
Proof. intros s. apply Renv. Qed.
Lemma keeps_sk_ask {A} (f : E → A) : keeps R (sk_ask f).
Proof. apply keeps_gets, HRR. Qed.
Lemma keeps_sk_and_ok {A B X} (m : K E (Result A X)) (k : A → K E (Result B X)) :
  keeps R m → (∀ a, keeps R (k a)) → keeps R (sk_and_ok m k).
Proof. intros Hm Hk. unfold sk_and_ok. frame. Qed.
Lemma keeps_sk_unwrap_ok {A} (r : Result A Error) : keeps R (munwrap_ok r : K E A).
Proof. destruct r; [apply keeps_ret, HRR|done]. Qed.
End env_frame.

(** The loops over a descriptor keep what their four calls keep. *)
Section flush_frame.
Context (R : Sock E → Sock E → Prop) (HRR : PreOrder R).
Context (Rpoll : ∀ fd, keeps R (sk_do (os_ppoll fd))) (Rread : ∀ fd, keeps R (sk_do (os_read_buf fd)))
  (Raccept : ∀ fd, keeps R (sk_do (os_accept fd))) (Rclose : ∀ fd, keeps R (sk_env_modify (os_close_fd fd))).

(** The same for a computation that may run out of fuel. *)
Definition wkeeps {A} (m : K E A) : Prop :=
  ∀ s, match m s with Returned (s', _) => R s s' | _ => True end.
Lemma wkeeps_bind {A B} (m : K E A) (k : A → K E B) :
  keeps R m → (∀ a, wkeeps (k a)) → wkeeps (m ≫= k).
Proof.
  intros Hm Hk s. unfold mbind, M_bind. specialize (Hm s). unfold wtp in Hm.
  destruct (m s) as [[s1 a]| |]; [|done..]. specialize (Hk a s1).
  destruct (k a s1) as [[s2 b]| |]; [|done..]. by trans s1.
Qed.
Lemma wkeeps_ret {A} (a : A) : wkeeps (mret a).
Proof. intros s. change (R s s). reflexivity. Qed.
Lemma keeps_of_wkeeps {A} (m : K E A) : wkeeps m → (∀ s, m s ≠ OutOfFuel) → keeps R m.
Proof.
  intros Hm Hf s. specialize (Hm s). specialize (Hf s). unfold wtp.
  by destruct (m s) as [[]| |].
Qed.

Context (Hends : flush_ends).
Lemma keeps_wait_for_events fd : keeps R (wait_for_events fd).
Proof. unfold wait_for_events. apply keeps_bind; [done|apply Rpoll|intros r; apply keeps_ret, HRR]. Qed.
Lemma keeps_wait_ready fd : keeps R (wait_ready flush_fuel fd).
Proof.
  apply keeps_of_wkeeps; [|intros s; apply Hends]. generalize (flush_fuel). intros n.
  induction n as [|n IH]; simpl; [done|]. apply wkeeps_bind; [apply keeps_wait_for_events|].
  intros [v|e]; [apply wkeeps_ret|]. case_match; [apply IH|apply wkeeps_ret].
Qed.
Lemma keeps_flush_reads fd : keeps R (flush_reads flush_fuel fd).
Proof.
  apply keeps_of_wkeeps; [|intros s; apply Hends]. generalize (flush_fuel). intros n.
  induction n as [|n IH]; simpl; [done|]. apply wkeeps_bind; [apply keeps_wait_for_events|].
  intros r. destruct (_ =? 0); [apply wkeeps_ret|]. apply wkeeps_bind; [apply Rread|].
  intros r'. destruct (_ =? 0); [apply wkeeps_ret|apply IH].
Qed.
Lemma keeps_flush_accepts n fd : keeps R (flush_accepts n fd).
Proof.
  induction n as [|n IH]; simpl; [apply keeps_ret, HRR|].
  apply keeps_bind; [done|apply keeps_wait_ready|]. intros [] ; simpl; [|apply keeps_ret, HRR].
  apply keeps_bind; [done|apply Raccept|]. intros []; [|apply keeps_ret, HRR].
  apply keeps_bind; [done|apply Rclose|done].
Qed.
End flush_frame.

(** ** The way down

    [enter_signal] is made of its kills, the stop commands and the end; what
    holds of those holds of it, whatever the state it is called with. *)
Lemma enter_signal_ind (G : K E unit → Prop) :
  (∀ res, G (sk_enter_dead res)) →
  (∀ res f n, G f → G n → G (sk_update_result res;; sk_control_command_fill SocketCommand.StopPost;;
    run_control SocketState.StopPost f n)) →
  (∀ res st (k : Result unit Error → K E unit), (∀ r, G (k r)) → G (sk_update_result res;; r ← sk_kill st; k r)) →
  (∀ st res, G (sk_enter_signal st res)) ∧ ∀ res, G (sk_enter_stop_post res).
Proof.
  intros Hdead Hpost Hkill.
  assert (∀ n res, G (sk_enter_signal_fuel (1 + n) SocketState.FinalSigkill res)) as Hfk.
  { intros n res. apply Hkill. intros []; apply Hdead. }
  assert (∀ n res, G (sk_enter_signal_fuel (2 + n) SocketState.FinalSigterm res)) as Hft.
  { intros n res. apply Hkill. intros []; [apply Hfk|apply Hdead]. }
  assert (∀ n res, G (sk_enter_stop_post_with (sk_enter_signal_fuel (2 + n)) res)) as Hsp.
  { intros n res. by apply Hpost. }
  assert (∀ n res, G (sk_enter_signal_fuel (3 + n) SocketState.StopPreSigkill res)) as Hsk.
  { intros n res. apply Hkill. intros []; apply Hsp. }
  assert (∀ n st res, G (sk_enter_signal_fuel (4 + n) st res)) as Hall.
  { intros n st res. destruct (decide (st = SocketState.StopPreSigterm)) as [->|H1].
    { apply Hkill. intros []; [apply Hsk|apply (Hsp (1 + n)%nat)]. }
    destruct (decide (st = SocketState.StopPreSigkill)) as [->|H2]; [apply (Hsk (1 + n)%nat)|].
    destruct (decide (st = SocketState.FinalSigterm)) as [->|H3]; [apply (Hft (2 + n)%nat)|].
    apply Hkill. intros r. assert (is_stop_pre_signal st = false) as -> by by destruct st.
    rewrite !bool_decide_eq_false_2 by done. destruct r; apply Hdead. }
  split; [intros st res; exact (Hall 0%nat st res)|intros res; exact (Hsp 2%nat res)].
Qed.

(** ** A failure sticks *)
Definition sticks s s' : Prop := sk_result s ≠ SocketResult.Success →
  sk_result s' = sk_result s ∧ (sk_state s' = SocketState.Dead → sk_state s = SocketState.Dead).
#[local] Instance sticks_preorder : PreOrder sticks.
Proof.
  split; [done|]. intros s1 s2 s3 H1 H2 Hs. destruct (H1 Hs) as [Hr1 Hd1].
  rewrite <-Hr1 in Hs |- *. destruct (H2 Hs) as [Hr2 Hd2]. auto.
Qed.

Section sticks.
Context (Hends : flush_ends).

#[local] Hint Extern 1 (keeps sticks (sk_do _)) => apply keeps_sk_do; done : frames.
#[local] Hint Extern 1 (keeps sticks (sk_env_modify _)) => apply keeps_sk_env_modify; done : frames.
#[local] Hint Extern 1 (keeps sticks (sk_ask _)) => apply keeps_sk_ask; apply _ : frames.
#[local] Hint Extern 1 (keeps sticks (munwrap_ok _)) => apply keeps_sk_unwrap_ok; apply _ : frames.
#[local] Hint Extern 1 (keeps sticks (mmodify _)) => apply keeps_modify; done : frames.
Ltac sframe := intros; repeat first [frame_step | apply keeps_sk_and_ok; [apply _| |intros ?]].

Lemma sticks_port i : keeps sticks (port i : K E _).
Proof. unfold port. frame. Qed.
Lemma sticks_set_fd i fd : keeps sticks (set_fd i fd : K E _).
Proof. unfold set_fd. frame. Qed.
Lemma sticks_re_modify f : keeps sticks (sk_re_modify f : K E _).
Proof. unfold sk_re_modify. frame. Qed.
#[local] Hint Resolve sticks_port sticks_set_fd sticks_re_modify : frames.
Lemma sticks_unwatch_control : keeps sticks sk_unwatch_control.
Proof. unfold sk_unwatch_control. frame. Qed.
Lemma sticks_start_socket c : keeps sticks (start_socket c).
Proof. unfold start_socket. sframe. Qed.
Lemma sticks_bind_path fd p sa : keeps sticks (bind_path fd p sa).
Proof. unfold bind_path, sa_unlink. sframe. Qed.
#[local] Hint Resolve sticks_unwatch_control sticks_start_socket sticks_bind_path : frames.
Lemma sticks_socket_listen b sa : keeps sticks (socket_listen b sa).
Proof. unfold socket_listen. sframe. Qed.
Lemma sticks_port_close b i : keeps sticks (port_close b i).
Proof. unfold port_close, sa_unlink. sframe. Qed.
#[local] Hint Resolve sticks_socket_listen sticks_port_close : frames.
Lemma sticks_open_port b i : keeps sticks (open_port b i).
Proof. unfold open_port. sframe. Qed.
Lemma sticks_apply_sock_opt i fd : keeps sticks (apply_sock_opt i fd).
Proof. unfold apply_sock_opt. sframe. Qed.
Lemma sticks_for_ports f : (∀ i, keeps sticks (f i)) → keeps sticks (for_ports f : K E _).
Proof. intros Hf. unfold for_ports. sframe. Qed.
#[local] Hint Resolve sticks_open_port sticks_apply_sock_opt : frames.
Lemma sticks_watch_fds : keeps sticks watch_fds.
Proof. apply sticks_for_ports. sframe. Qed.
Lemma sticks_unwatch_fds : keeps sticks unwatch_fds.
Proof. apply sticks_for_ports. sframe. Qed.
Lemma sticks_close_fds : keeps sticks close_fds.
Proof. unfold close_fds. apply keeps_bind; [apply _|apply sticks_for_ports; sframe|intros _].
  apply sticks_for_ports. sframe. Qed.
#[local] Hint Resolve sticks_watch_fds sticks_unwatch_fds sticks_close_fds : frames.
Lemma sticks_open_fds : keeps sticks open_fds.
Proof.
  assert (∀ l, keeps sticks (open_fds_from l)) as Hl; [|unfold open_fds; frame; apply Hl].
  induction l as [|i l IH]; simpl; sframe.
Qed.
#[local] Hint Resolve sticks_open_fds : frames.
#[local] Hint Extern 1 (keeps sticks (flush_accepts _ _)) => apply keeps_flush_accepts; first [apply _ | done] : frames.
#[local] Hint Extern 1 (keeps sticks (flush_reads _ _)) => apply keeps_flush_reads; first [apply _ | done] : frames.
Lemma sticks_flush_ports : keeps sticks flush_ports.
Proof. apply sticks_for_ports. unfold flush_accept, flush_fd. sframe. Qed.
Lemma sticks_fill c : keeps sticks (sk_control_command_fill c : K E _).
Proof. unfold sk_control_command_fill. frame. Qed.
Lemma sticks_pop : keeps sticks (sk_control_command_pop : K E _).
Proof. unfold sk_control_command_pop. frame. Qed.
Lemma sticks_set_state_from st s : wtp (sk_set_state st) s (λ s' _, sticks (set_sk_state st s) s').
Proof.
  unfold sk_set_state. apply wtp_bind, wtp_mget, wtp_bind, wtp_mmodify.
  match goal with |- wtp ?m _ _ => assert (keeps sticks m) as Hm by frame end. apply Hm.
Qed.
Lemma sticks_set_state st : st ≠ SocketState.Dead → keeps sticks (sk_set_state st).
Proof.
  intros Hst s. eapply wtp_mono; [apply sticks_set_state_from|]. intros s' [] H'.
  trans (set_sk_state st s); done.
Qed.
Lemma sticks_update_result res : keeps sticks (sk_update_result res : K E _).
Proof.
  intros s. unfold sk_update_result. apply wtp_bind, wtp_mget, wtp_mwhen. case_bool_decide; [|done].
  apply wtp_mmodify. by intros ?.
Qed.
Lemma sticks_mng_db_insert : keeps sticks (sk_mng_db_insert : K E _).
Proof. unfold sk_mng_db_insert. frame. Qed.
#[local] Hint Resolve sticks_flush_ports sticks_fill sticks_pop
  sticks_update_result sticks_mng_db_insert : frames.
#[local] Hint Extern 1 (keeps sticks (sk_set_state _)) => apply sticks_set_state; done : frames.
Lemma sticks_enter_dead res : keeps sticks (sk_enter_dead res).
Proof.
  unfold sk_enter_dead. apply keeps_bind; [apply _|apply sticks_update_result|intros _ s].
  apply wtp_bind, wtp_mget. case_bool_decide as Hok; [|by apply sticks_set_state].
  eapply wtp_mono; [apply sticks_set_state_from|]. done.
Qed.
Lemma sticks_run_control st (f n : K E unit) : st ≠ SocketState.Dead →
  keeps sticks f → keeps sticks n → keeps sticks (run_control st f n).
Proof.
  intros Hst Hf Hn. unfold run_control. frame.
Qed.
#[local] Hint Resolve sticks_enter_dead : frames.
#[local] Hint Extern 1 (keeps sticks (run_control _ _ _)) =>
  apply sticks_run_control; [done|eauto 2 with frames nocore..] : frames.
Lemma sticks_kill st : keeps sticks (sk_kill st).
Proof. unfold sk_kill. frame. Qed.
#[local] Hint Resolve sticks_kill : frames.
Lemma sticks_signal : (∀ st res, keeps sticks (sk_enter_signal st res))
  ∧ ∀ res, keeps sticks (sk_enter_stop_post res).
Proof. apply enter_signal_ind; frame; auto. Qed.
Lemma sticks_enter_signal st res : keeps sticks (sk_enter_signal st res).
Proof. apply sticks_signal. Qed.
Lemma sticks_enter_stop_post res : keeps sticks (sk_enter_stop_post res).
Proof. apply sticks_signal. Qed.
#[local] Hint Resolve sticks_enter_signal sticks_enter_stop_post : frames.
Lemma sticks_enter_stop_pre res : keeps sticks (enter_stop_pre res).
Proof. unfold enter_stop_pre. frame. Qed.
Lemma sticks_enter_listening : keeps sticks enter_listening.
Proof. unfold enter_listening. frame. Qed.
#[local] Hint Resolve sticks_enter_stop_pre sticks_enter_listening : frames.
Lemma sticks_enter_start_post : keeps sticks sk_enter_start_post.
Proof. unfold sk_enter_start_post. frame. Qed.
#[local] Hint Resolve sticks_enter_start_post : frames.
Lemma sticks_enter_start_chown : keeps sticks enter_start_chown.
Proof. unfold enter_start_chown. frame. Qed.
#[local] Hint Resolve sticks_enter_start_chown : frames.
Lemma sticks_enter_start_pre : keeps sticks enter_start_pre.
Proof. unfold enter_start_pre. frame. Qed.
Lemma sticks_enter_running fd : keeps sticks (sk_enter_running fd).
Proof. unfold sk_enter_running. frame. Qed.
Lemma sticks_run_next : keeps sticks sk_run_next.
Proof. unfold sk_run_next. frame. Qed.
#[local] Hint Resolve sticks_enter_start_pre sticks_enter_running sticks_run_next : frames.
Lemma sticks_sigchld w : keeps sticks (sk_sigchld_event w).
Proof. unfold sk_sigchld_event, sk_do_sigchld_event. frame. Qed.
Lemma sticks_start : keeps sticks sk_start.
Proof. unfold sk_start, sk_start_check, sk_start_action. sframe. Qed.
Lemma sticks_stop force : keeps sticks (sk_stop force).
Proof. unfold sk_stop, sk_stop_check, sk_stop_action. sframe. Qed.
Lemma sticks_dispatch i : keeps sticks (socket_dispatch i).
Proof. unfold socket_dispatch, dispatch_io, accept. sframe. Qed.
End sticks.

(** What can happen to a socket that is loaded. *)
Inductive SocketOp :=
| OpStart
| OpStop (force : bool)
| OpSigchld (w : WaitStatus)
| OpDispatch (i : nat).
Definition socket_op (o : SocketOp) : K E unit :=
  match o with
  | OpStart => sk_start;; mret tt
  | OpStop force => sk_stop force;; mret tt
  | OpSigchld w => sk_sigchld_event w
  | OpDispatch i => socket_dispatch i;; mret tt
  end.

End facts.
