(* ===== verification/SocketWatchFacts.v ===== *)
(** * The ports of a socket unit

    The invariant that ties the state of a socket to its ports: what the event
    loop watches, and which descriptors are open ([Socket.v]). *)
From S2P Require Import Prelude UnitTypes ReDb StdString StdNet UnitEntry ExecParams UnitIf.
From S2P Require Import SocketTypes SocketStore Socket SocketFacts.
Local Open Scope Z_scope.

Section watch.
Context {E : Type} `{HU : !UmIf E} `{HB : !UnitBase E} `{HL : !EventLoop SocketSource E}.
Context `{HP : !Processes E} `{HN : !SocketSys E} `{HR : !Reli E} `{HE : !SockEnv} `{HF : !FlushFuel}.
Context `{HW : !EventLaws SocketSource E nat ss_port}.
Implicit Types (s : Sock E) (res : SocketResult.t) (st : SocketState.t) (i k : nat).

(** ** The rest of the system

    The calls that are not of the event loop leave the watches of the ports
    alone, and a socket that was created has a valid descriptor. *)
Definition quiet {A} (f : E → E * A) : Prop := ∀ k e, ev_state_of k (f e).1 = ev_state_of k e.
Definition quiet_modify (f : E → E) : Prop := ∀ k e, ev_state_of k (f e) = ev_state_of k e.
Class QuietSystem : Prop := {
  qt_unwatch_pid u p : quiet_modify (um_child_unwatch_pid u p);
  qt_watch_pid u p : quiet_modify (um_child_watch_pid u p);
  qt_spawn u c p x : quiet (um_exec_spawn u c p x);
  qt_start_unit u : quiet (um_start_unit u);
  qt_start_limit u : quiet (unit_test_start_limit u);
  qt_kill u kc m c o : quiet (unit_kill_context u kc m c o);
  qt_prepare u : quiet (unit_prepare_exec u);
  qt_socket f t p : quiet (os_socket f t p);
  qt_setsockopt fd o : quiet (os_setsockopt fd o);
  qt_bind fd a : quiet (os_bind fd a);
  qt_listen fd b : quiet (os_listen fd b);
  qt_accept fd : quiet (os_accept fd);
  qt_ppoll fd : quiet (os_ppoll fd);
  qt_read fd : quiet (os_read_buf fd);
  qt_close fd : quiet_modify (os_close_fd fd);
  qt_mkdir p : quiet (os_create_dir_all p);
  qt_unlink p : quiet_modify (os_unlink p);
  qt_cloexec fd b : quiet (reli_fd_cloexec fd b);
  qt_frame2 a b : quiet_modify (reli_set_last_frame2 a b);
  qt_clear_frame : quiet_modify reli_clear_last_frame;
  qt_last_unit u : quiet_modify (reli_set_last_unit u);
  qt_clear_unit : quiet_modify reli_clear_last_unit;
  os_socket_valid f t p e fd : (os_socket f t p e).2 = Ok fd → 0 ≤ fd;
}.
Context `{HQ : !QuietSystem}.

(** ** What leaves the ports alone *)
Record still s s' : Prop := {
  sl_state : sk_state s' = sk_state s;
  sl_ports : sk_ports s' = sk_ports s;
  sl_watch : ∀ k, ev_state_of k (sk_env s') = ev_state_of k (sk_env s);
}.
#[local] Instance still_preorder : PreOrder still.
Proof. split; [done|]. intros s1 s2 s3 [] []. split; congruence. Qed.

Lemma still_do {A} (f : E → E * A) : quiet f → keeps still (sk_do f).
Proof. intros Hf s. apply wtp_sk_do. split; try done. intros k. apply Hf. Qed.
Lemma still_env_modify f : quiet_modify f → keeps still (sk_env_modify f).
Proof. intros Hf s. apply wtp_mmodify. split; try done. intros k. apply Hf. Qed.
Lemma still_ask {A} (f : E → A) : keeps still (sk_ask f).
Proof. apply keeps_gets, _. Qed.
Lemma still_modify (f : Sock E → Sock E) : (∀ s, still s (f s)) → keeps still (mmodify f).
Proof. apply keeps_modify. Qed.
#[local] Hint Extern 1 (keeps still (sk_do _)) => apply still_do; solve [intros ??; apply HQ] : frames.
#[local] Hint Extern 1 (keeps still (sk_env_modify _)) => apply still_env_modify; solve [intros ??; apply HQ] : frames.
#[local] Hint Extern 1 (keeps still (mmodify _)) => apply still_modify; intros ?; split; done : frames.
#[local] Hint Resolve still_ask : frames.
Ltac qframe := intros; repeat first [frame_step | apply keeps_sk_and_ok; [apply _| |intros ?]].

Lemma still_port i : keeps still (port i : K E _).
Proof. unfold port. frame. Qed.
Lemma still_re_modify f : keeps still (sk_re_modify f : K E _).
Proof. unfold sk_re_modify. frame. Qed.
Lemma still_unwatch_control : keeps still sk_unwatch_control.
Proof. unfold sk_unwatch_control. frame. Qed.
Lemma still_start_socket c : keeps still (start_socket c).
Proof. unfold start_socket. qframe. Qed.
Lemma still_unlink sa : keeps still (sa_unlink sa).
Proof. unfold sa_unlink. frame. Qed.
#[local] Hint Resolve still_port still_re_modify still_unwatch_control still_start_socket still_unlink : frames.
Lemma still_bind_path fd p sa : keeps still (bind_path fd p sa).
Proof. unfold bind_path. qframe. Qed.
#[local] Hint Resolve still_bind_path : frames.
Lemma still_socket_listen b sa : keeps still (socket_listen b sa).
Proof. unfold socket_listen. qframe. Qed.
Lemma still_apply_sock_opt i fd : keeps still (apply_sock_opt i fd).
Proof. unfold apply_sock_opt. qframe. Qed.
Lemma still_fill c : keeps still (sk_control_command_fill c : K E _).
Proof. unfold sk_control_command_fill. frame. Qed.
Lemma still_pop : keeps still (sk_control_command_pop : K E _).
Proof. unfold sk_control_command_pop. frame. Qed.
Lemma still_update_result res : keeps still (sk_update_result res : K E _).
Proof. unfold sk_update_result. frame. Qed.
Lemma still_kill st : keeps still (sk_kill st).
Proof. unfold sk_kill. frame. Qed.
Lemma still_mng_db_insert : keeps still (sk_mng_db_insert : K E _).
Proof. unfold sk_mng_db_insert. frame. Qed.
#[local] Hint Resolve still_socket_listen still_apply_sock_opt still_fill still_pop
  still_update_result still_kill still_mng_db_insert : frames.
Lemma still_run_next : keeps still sk_run_next.
Proof. unfold sk_run_next. frame. Qed.

(** ** Loops over the ports *)

(** Doing [f] to every port: [P] holds of each port after its turn, and the
    other turns leave it. *)
Lemma wtp_for_ports (I : Sock E → Prop) (P : Sock E → nat → Prop) f s (Q : Sock E → unit → Prop) :
  I s →
  (∀ s1 i, (i < length (sk_ports s))%nat → I s1 →
     wtp (f i) s1 (λ s2 _, I s2 ∧ P s2 i ∧ ∀ j, j ≠ i → P s1 j → P s2 j)) →
  (∀ s', I s' → (∀ i, (i < length (sk_ports s))%nat → P s' i) → Q s' tt) →
  wtp (for_ports f) s Q.
Proof.
  intros HI Hf HQ'. unfold for_ports. apply wtp_bind, wtp_mget.
  apply (wtp_mforeach (λ dn s1, I s1 ∧ ∀ i, i ∈ dn → P s1 i)).
  - split; [done|]. intros i Hi. by inversion Hi.
  - intros dn i rest s1 Hl [HI1 HP1]. assert (i < length (sk_ports s))%nat as Hi.
    { assert (i ∈ seq 0 (length (sk_ports s))) as Hin by (rewrite Hl; set_solver).
      apply elem_of_seq in Hin. lia. }
    eapply wtp_mono; [by apply Hf|]. intros s2 [] (HI2 & Hi2 & Hj). split; [done|].
    intros j [Hj'|Hj']%elem_of_app; [|apply list_elem_of_singleton in Hj' as ->; done].
    assert (NoDup (dn ++ i :: rest)) as Hnd by (rewrite <-Hl; apply NoDup_seq).
    apply NoDup_app in Hnd as (_ & Hnd & _). apply Hj; [|by apply HP1].
    intros ->. specialize (Hnd i Hj'). set_solver.
  - intros s1 [HI1 HP1]. apply HQ'; [done|]. intros i Hi. apply HP1, elem_of_seq. lia.
Qed.

Lemma wtp_port i s (Q : Sock E → SocketPort → Prop) :
  (∀ p, sk_ports s !! i = Some p → Q s p) → wtp (port i) s Q.
Proof. intros H. unfold port. apply wtp_bind, wtp_mget, wtp_munwrap, H. Qed.
Lemma wtp_unwrap_ok (r : Result unit Error) s (Q : Sock E → unit → Prop) :
  (r = Ok tt → Q s tt) → wtp (munwrap_ok r) s Q.
Proof. destruct r as [[]|]; [|done]. intros H. by apply H. Qed.

Definition asleep (o : option EventState) : Prop := o = None ∨ o = Some Off.
(** The watch of a port. *)
Definition watch_of s i : option EventState := ev_state_of i (sk_env s).
(** The state and the ports are those of [s]. *)
Definition ports_as s s1 : Prop := sk_state s1 = sk_state s ∧ sk_ports s1 = sk_ports s.

Lemma wtp_unwatch_fds s : wtp unwatch_fds s (λ s' _, ports_as s s'
  ∧ ∀ i, (i < length (sk_ports s))%nat → watch_of s' i = Some Off).
Proof.
  apply (wtp_for_ports (ports_as s) (λ s' i, watch_of s' i = Some Off)); [done| |by split].
  intros s1 i Hi H1. apply wtp_bind, wtp_port. intros p Hp. apply wtp_bind, wtp_sk_do, wtp_unwrap_ok.
  intros Hok. destruct (ev_enable_law _ _ _ Hok) as [Hs Ho].
  split_and!; [done|exact Hs|]. intros j Hj Hw. unfold watch_of in *. simpl. by rewrite Ho.
Qed.
Lemma wtp_watch_fds s : (∀ p, p ∈ sk_ports s → 0 ≤ sp_fd p) → wtp watch_fds s (λ s' _, ports_as s s'
  ∧ ∀ i, (i < length (sk_ports s))%nat → watch_of s' i = Some On).
Proof.
  intros Hopen.
  apply (wtp_for_ports (ports_as s) (λ s' i, watch_of s' i = Some On)); [done| |by split].
  intros s1 i Hi [Hst1 Hp1]. apply wtp_bind, wtp_port. intros p Hp. rewrite Hp1 in Hp.
  rewrite (proj2 (Z.ltb_ge _ _)) by (by eapply Hopen, list_elem_of_lookup_2).
  apply wtp_bind, wtp_sk_do, wtp_bind, wtp_unwrap_ok. intros Hadd.
  destruct (ev_add_law _ _ Hadd) as [_ Ho1]. apply wtp_bind, wtp_sk_do, wtp_unwrap_ok.
  intros Hok. destruct (ev_enable_law _ _ _ Hok) as [Hs Ho].
  split_and!; [done|exact Hs|]. intros j Hj Hw. unfold watch_of in *. simpl in *. by rewrite Ho, Ho1.
Qed.

Definition all_closed s : Prop := ∀ i p, sk_ports s !! i = Some p → sp_fd p < 0.
Lemma wtp_port_close i s :
  wtp (port_close true i) s (λ s' _, sk_state s' = sk_state s ∧ length (sk_ports s') = length (sk_ports s)
    ∧ (∀ k, watch_of s' k = watch_of s k) ∧ (∀ p, sk_ports s' !! i = Some p → sp_fd p < 0)
    ∧ ∀ j, j ≠ i → sk_ports s' !! j = sk_ports s !! j).
Proof.
  unfold port_close. apply wtp_bind, wtp_port. intros p Hp. case_match eqn:Hfd.
  { apply wtp_ret. split_and!; try done. intros p' Hp'. simplify_eq. by apply Z.ltb_lt. }
  match goal with |- wtp (?m ≫= _) _ _ => assert (keeps still m) as Hm end.
  { simpl. qframe. }
  apply wtp_bind. eapply wtp_mono; [apply Hm|]. intros s1 [] [H1 H2 H3].
  apply wtp_bind, wtp_mmodify, wtp_bind.
  assert (keeps still (match p_type p with
    | PortType.Socket => sa_unlink (p_sa p) | PortType.Fifo | PortType.Invalid => mpanic end : K E unit)) as Hu by frame.
  eapply wtp_mono; [apply Hu|]. intros s2 [] [H1' H2' H3']. simpl in *.
  apply wtp_mmodify. simpl. split_and!; [congruence|rewrite length_alter; congruence| | |].
  - intros k. unfold watch_of. simpl. rewrite H3', (qt_close _ k). apply H3.
  - intros p'. rewrite H2', H2, list_lookup_alter_eq, Hp. simpl. by intros [= <-].
  - intros j Hj. rewrite list_lookup_alter_ne, H2', H2 by done. done.
Qed.
Lemma wtp_close_fds s : wtp close_fds s (λ s' _, sk_state s' = sk_state s
  ∧ length (sk_ports s') = length (sk_ports s)
  ∧ (∀ i, (i < length (sk_ports s))%nat → watch_of s' i = None) ∧ all_closed s').
Proof.
  unfold close_fds. apply wtp_bind.
  apply (wtp_for_ports (ports_as s) (λ s' i, watch_of s' i = None)); [done| |].
  { intros s1 i Hi H1. apply wtp_bind, wtp_port. intros p Hp. apply wtp_bind, wtp_sk_do, wtp_unwrap_ok.
    intros Hok. destruct (ev_del_law _ _ Hok) as [Hs Ho].
    split_and!; [done|exact Hs|]. intros j Hj Hw. unfold watch_of in *. simpl. by rewrite Ho. }
  intros s1 [Hst1 Hp1] Hnone. apply (wtp_for_ports (λ s2, sk_state s2 = sk_state s1
    ∧ length (sk_ports s2) = length (sk_ports s1) ∧ ∀ k, watch_of s2 k = watch_of s1 k)
    (λ s2 i, ∀ p, sk_ports s2 !! i = Some p → sp_fd p < 0)); [done| |].
  - intros s2 i Hi (Hst2 & Hl2 & Hw2). eapply wtp_mono; [apply wtp_port_close|].
    intros s3 [] (Hst3 & Hl3 & Hw3 & Hi3 & Hj3). split_and!; [congruence|congruence| |done|].
    + intros k. by rewrite Hw3.
    + intros j Hj Hlt p. rewrite Hj3 by done. apply Hlt.
  - intros s2 (Hst2 & Hl2 & Hw2) Hc. rewrite Hp1 in Hl2, Hc. split_and!; [congruence|done| |].
    + intros i Hi. rewrite Hw2. by apply Hnone.
    + intros i p Hp. apply (Hc i); [|done]. apply lookup_lt_Some in Hp. lia.
Qed.

(** ** Opening *)
Definition port_open s i : Prop := ∀ p, sk_ports s !! i = Some p → 0 ≤ sp_fd p.
Definition all_open s : Prop := ∀ i, port_open s i.

Lemma wtp_sk_and_ok {A B X} (m : K E (Result A X)) (k : A → K E (Result B X)) s (Q : Sock E → Result B X → Prop) :
  keeps still m → (∀ s1 a, still s s1 → wtp (k a) s1 Q) → (∀ s1 e, still s s1 → Q s1 (Err e)) →
  wtp (sk_and_ok m k) s Q.
Proof.
  intros Hm Hk He. unfold sk_and_ok. apply wtp_bind. eapply wtp_mono; [apply Hm|].
  intros s1 [a|e] H1; [by apply Hk|]. by apply wtp_ret, He.
Qed.
Lemma wtp_socket_listen b sa s (Q : Sock E → Result Z Z → Prop) :
  (∀ s' r, still s s' → (∀ fd, r = Ok fd → 0 ≤ fd) → Q s' r) → wtp (socket_listen b sa) s Q.
Proof.
  intros HQ'. unfold socket_listen, sk_and_ok at 1. apply wtp_bind, wtp_sk_do.
  set (s1 := set_sk_env _ s).
  assert (still s s1) as H1 by (split; try done; intros k; apply qt_socket).
  assert (∀ s' e, still s1 s' → Q s' (Err e)) as HE' by (intros; apply HQ'; [by trans s1|done]).
  destruct (os_socket _ _ _ (sk_env s)).2 as [fd|e] eqn:Hfd; [|apply wtp_ret, HE'; done].
  apply os_socket_valid in Hfd.
  assert (∀ s', still s1 s' → Q s' (Ok fd)) as HO by (intros; apply HQ'; [by trans s1|by intros ? [= <-]]).
  apply wtp_sk_and_ok; [frame| |done]. intros s2 _ H2.
  apply wtp_sk_and_ok; [frame| |intros; apply HE'; by trans s2]. intros s3 _ H3.
  assert (still s1 s3) as H13 by by trans s2.
  case_match; [|by apply wtp_ret, HO].
  apply wtp_sk_and_ok; [frame| |intros; apply HE'; by trans s3]. intros s4 _ H4.
  apply wtp_ret, HO. by trans s3.
Qed.

Lemma wtp_open_port i s : wtp (open_port true i) s (λ s' r, sk_state s' = sk_state s
  ∧ length (sk_ports s') = length (sk_ports s) ∧ (r = Ok tt → port_open s' i ∧ ∀ j, j ≠ i → sk_ports s' !! j = sk_ports s !! j)).
Proof.
  unfold open_port. apply wtp_bind, wtp_port. intros p Hp. case_match eqn:Hfd.
  { apply wtp_ret. split_and!; try done. intros _. split; [|done]. intros p' Hp'. simplify_eq. by apply Z.leb_le. }
  destruct (p_type p); [|done..]. apply wtp_bind, wtp_socket_listen. intros s1 r [H1 H2 _] Hr.
  destruct r as [fd|e]; [|apply wtp_ret; rewrite H1, H2; split_and!; congruence]. specialize (Hr fd eq_refl).
  apply wtp_bind, wtp_sk_do. destruct (reli_fd_cloexec fd false (sk_env s1)).2 as [[]|e].
  - apply wtp_bind, wtp_mmodify, wtp_ret. simpl. rewrite length_alter, H1, H2. split_and!; [done..|].
    intros _. split.
    + intros p'. simpl. rewrite list_lookup_alter_eq, Hp. simpl. by intros [= <-].
    + intros j Hj. simpl. by rewrite list_lookup_alter_ne by done.
  - apply wtp_bind. eapply wtp_mono; [apply wtp_port_close|]. simpl.
    intros s2 [] (Hst2 & Hl2 & _). apply wtp_ret. simpl in *. split_and!; congruence.
Qed.

Lemma wtp_open_fds s : wtp open_fds s (λ s' r, sk_state s' = sk_state s ∧ (r = Ok tt → all_open s')).
Proof.
  assert (∀ l s (D : list nat), (∀ i, i ∈ D → port_open s i) → wtp (open_fds_from l) s (λ s' r,
    sk_state s' = sk_state s ∧ length (sk_ports s') = length (sk_ports s)
    ∧ (r = Ok tt → ∀ i, i ∈ D ++ l → port_open s' i))) as Hgen.
  { clear s. induction l as [|i l IH]; intros s D HD; simpl.
    - apply wtp_ret. split_and!; [done..|]. by rewrite app_nil_r.
    - apply wtp_bind. eapply wtp_mono; [apply wtp_open_port|]. intros s1 [[]|e] (Hst1 & Hl1 & Hok); simpl.
      + destruct (Hok eq_refl) as [Hi Hj]. apply wtp_bind, wtp_port. intros p Hp. apply wtp_bind.
        eapply wtp_mono; [apply still_apply_sock_opt|]. intros s2 [] [Hst2 Hp2 _].
        eapply wtp_mono; [apply (IH s2 (D ++ [i]))|].
        * intros j. rewrite elem_of_app, list_elem_of_singleton. unfold port_open. rewrite Hp2.
          destruct (decide (j = i)) as [->|Hne]; [done|]. intros [Hj'|]; [|done].
          rewrite Hj by done. by apply HD.
        * intros s3 r (Hst3 & Hl3 & H3). rewrite <-app_assoc in H3. split_and!; [congruence|congruence|done].
      + apply wtp_bind. eapply wtp_mono; [apply wtp_close_fds|]. intros s2 [] (Hst2 & Hl2 & _).
        apply wtp_ret. split_and!; [congruence|congruence|done]. }
  unfold open_fds. apply wtp_bind, wtp_mget. eapply wtp_mono; [apply (Hgen _ _ [])|].
  - intros i Hi. by inversion Hi.
  - intros s' r (Hst & Hl & Ho). split; [done|]. intros Hr i p Hp. apply (Ho Hr i); [|done].
    apply elem_of_seq. apply lookup_lt_Some in Hp. lia.
Qed.

(** ** The invariant *)
Definition serving st : bool := bool_decide (st ∈
  [SocketState.StartChown; SocketState.StartPost; SocketState.Listening; SocketState.Running]).
Record socket_ok s : Prop := {
  ok_asleep : sk_state s ≠ SocketState.Listening →
    ∀ i, (i < length (sk_ports s))%nat → asleep (watch_of s i);
  ok_watched : sk_state s = SocketState.Listening →
    ∀ i, (i < length (sk_ports s))%nat → watch_of s i = Some On;
  ok_open : serving (sk_state s) → all_open s;
  ok_closed : keeps_fds (sk_state s) = false → all_closed s;
}.
Lemma still_ok s s' : still s s' → socket_ok s → socket_ok s'.
Proof.
  intros [Hst Hp Hw] [H1 H2 H3 H4].
  split; unfold watch_of, all_open, port_open, all_closed in *; rewrite ?Hst, ?Hp;
    try setoid_rewrite Hw; done.
Qed.

Lemma wtp_sk_set_state st s :
  (st = SocketState.Listening → ∀ i, (i < length (sk_ports s))%nat → watch_of s i = Some On) →
  (serving st → all_open s) → wtp (sk_set_state st) s (λ s' _, socket_ok s').
Proof.
  intros Hwatch Hopen. unfold sk_set_state. apply wtp_bind, wtp_mget, wtp_bind, wtp_mmodify, wtp_bind.
  assert (keeps still (mwhen (negb (socket_keeps_control st)) sk_unwatch_control)) as Hc by frame.
  eapply wtp_mono; [apply Hc|]. intros s1 [] [Hst1 Hp1 Hw1]. simpl in Hst1, Hp1, Hw1.
  assert (∀ os s2, socket_ok s2 → wtp (s ← mget;
    match sk_owner s with
    | Some _ => mmodify (set_sk_states (sk_states s ++ [{| st_os := os;
        st_ns := socket_active_state st; st_flags := UNIT_NOTIFY_RELOAD_FAILURE |}]))
    | None => mret tt
    end) s2 (λ s' _, socket_ok s')) as Hnotify.
  { intros os s2 H2. apply wtp_bind, wtp_mget. destruct (sk_owner s2); [|by apply wtp_ret].
    apply wtp_mmodify. eapply still_ok; [|exact H2]. by split. }
  assert (serving st → all_open s1) as Hopen1.
  { intros H. unfold all_open, port_open. rewrite Hp1. by apply Hopen. }
  apply wtp_bind, wtp_mwhen. case_bool_decide as Hl; simpl.
  - apply wtp_bind, wtp_mwhen. replace (keeps_fds st) with true by (by rewrite Hl). simpl. apply Hnotify.
    split; rewrite Hst1; [done| |done|by rewrite Hl].
    intros _ i Hi. unfold watch_of. rewrite Hw1. apply Hwatch; [done|]. by rewrite <-Hp1.
  - eapply wtp_mono; [apply wtp_unwatch_fds|]. intros s2 [] [[Hst2 Hp2] Hoff].
    apply wtp_bind, wtp_mwhen. destruct (keeps_fds st) eqn:Hkeep; simpl.
    + apply Hnotify. split; rewrite Hst2, Hst1, ?Hp2; try done.
      * intros _ i Hi. right. by apply Hoff.
      * unfold all_open, port_open. by rewrite Hp2.
      * by rewrite Hkeep.
    + eapply wtp_mono; [apply wtp_close_fds|]. intros s3 [] (Hst3 & Hl3 & Hnone & Hclosed). apply Hnotify.
      split; rewrite Hst3, Hst2, Hst1; try done.
      * intros _ i Hi. left. apply Hnone. by rewrite <-Hl3.
      * destruct st; done.
Qed.

(** ** The calls that end in a state *)
Definition lands (m : K E unit) : Prop := ∀ s, wtp m s (λ s' _, socket_ok s').
Lemma lands_after {A} (m : K E A) (k : A → K E unit) : keeps still m → (∀ a, lands (k a)) → lands (m ≫= k).
Proof. intros Hm Hk s. apply wtp_bind. eapply wtp_mono; [apply Hm|]. intros s1 a _. apply Hk. Qed.
Lemma lands_set_state st : ¬ serving st → lands (sk_set_state st).
Proof.
  intros Hst s. apply wtp_sk_set_state; [|done]. intros ->. exfalso. by apply Hst.
Qed.
Lemma lands_enter_dead res : lands (sk_enter_dead res).
Proof.
  apply lands_after; [frame|]. intros _ s. apply wtp_bind, wtp_mget, lands_set_state.
  by case_bool_decide; intros [].
Qed.
Lemma wtp_run_control st f n s (Q : Sock E → unit → Prop) :
  (∀ s1, still s s1 → wtp (sk_set_state st) s1 Q) → (∀ s1, still s s1 → wtp f s1 Q) →
  (∀ s1, still s s1 → wtp n s1 Q) → wtp (run_control st f n) s Q.
Proof.
  intros Hst Hf Hn. unfold run_control. apply wtp_bind. eapply wtp_mono; [apply still_pop|].
  intros s1 [cmd|] H1; [|by apply Hn]. apply wtp_bind. eapply wtp_mono; [apply still_start_socket|].
  intros s2 [pid|e] H2; [|apply Hf; by trans s1]. apply wtp_bind, wtp_mmodify, Hst.
  trans s1; [done|]. trans s2; [done|]. by split.
Qed.
Lemma lands_run_control st f n : ¬ serving st → lands f → lands n → lands (run_control st f n).
Proof. intros Hst Hf Hn s. apply wtp_run_control; intros s1 _; [by apply lands_set_state|apply Hf|apply Hn]. Qed.

Lemma lands_signal : (∀ st res, lands (sk_enter_signal st res)) ∧ ∀ res, lands (sk_enter_stop_post res).
Proof.
  apply enter_signal_ind.
  - apply lands_enter_dead.
  - intros res f n Hf Hn. apply lands_after; [frame|intros _]. apply lands_after; [frame|intros _].
    apply lands_run_control; [by intros []|done..].
  - intros res st k Hk. apply lands_after; [frame|intros _]. apply lands_after; [frame|done].
Qed.
Lemma lands_enter_stop_pre res : lands (enter_stop_pre res).
Proof.
  apply lands_after; [frame|intros _]. apply lands_after; [frame|intros _].
  apply lands_after; [frame|intros _]. apply lands_run_control; [by intros []|apply lands_signal..].
Qed.

Section ends.
Context (Hends : flush_ends).
Lemma still_flush_ports : keeps still flush_ports.
Proof.
  assert (∀ n fd, keeps still (flush_accepts n fd)) as Ha by (intros; apply keeps_flush_accepts; first [apply _ | done | intros; frame]).
  assert (∀ fd, keeps still (flush_reads flush_fuel fd)) as Hr by (intros; apply keeps_flush_reads; first [apply _ | done | intros; frame]).
  unfold flush_ports, for_ports, flush_accept, flush_fd. frame; auto.
Qed.

Lemma wtp_enter_listening s : all_open s → wtp enter_listening s (λ s' _, socket_ok s').
Proof.
  intros Ho. unfold enter_listening. apply wtp_bind, wtp_mget, wtp_bind.
  assert (keeps still (mwhen (negb (Accept (sk_conf s))) flush_ports)) as Hf.
  { apply keeps_mwhen; [apply _|apply still_flush_ports]. }
  eapply wtp_mono; [apply Hf|]. intros s1 [] [Hst1 Hp1 _]. apply wtp_bind.
  eapply wtp_mono; [apply wtp_watch_fds|].
  { intros p [i Hp]%list_elem_of_lookup_1. rewrite Hp1 in Hp. by apply (Ho i). }
  intros s2 [] [[Hst2 Hp2] Hon]. apply wtp_sk_set_state.
  - intros _ i Hi. apply Hon. by rewrite <-Hp2.
  - intros _ i p Hp. rewrite Hp2, Hp1 in Hp. by apply (Ho i).
Qed.
Lemma still_open s s' : still s s' → all_open s → all_open s'.
Proof. intros [_ Hp _] Ho i p. rewrite Hp. apply Ho. Qed.
Lemma wtp_enter_start_post s : all_open s → wtp sk_enter_start_post s (λ s' _, socket_ok s').
Proof.
  intros Ho. unfold sk_enter_start_post. apply wtp_bind. eapply wtp_mono; [apply still_unwatch_control|].
  intros s1 [] H1. apply wtp_bind. eapply wtp_mono; [apply still_fill|]. intros s2 [] H2.
  assert (all_open s2) as Ho2 by (eapply still_open; [exact H2|]; by eapply still_open).
  apply wtp_run_control; intros s3 H3.
  - apply wtp_sk_set_state; [done|]. intros _. by eapply still_open.
  - apply lands_enter_stop_pre.
  - apply wtp_enter_listening. by eapply still_open.
Qed.
Lemma lands_enter_start_chown : lands enter_start_chown.
Proof.
  intros s. unfold enter_start_chown. apply wtp_bind. eapply wtp_mono; [apply wtp_open_fds|].
  intros s1 [[]|e] [_ Ho]; [by apply wtp_enter_start_post, Ho|apply lands_enter_stop_pre].
Qed.
Lemma lands_enter_start_pre : lands enter_start_pre.
Proof.
  apply lands_after; [frame|intros _]. apply lands_after; [frame|intros _].
  apply lands_run_control; [by intros []|apply lands_enter_dead|apply lands_enter_start_chown].
Qed.
Lemma wtp_sk_enter_running fd s : socket_ok s → serving (sk_state s) →
  wtp (sk_enter_running fd) s (λ s' _, socket_ok s').
Proof.
  intros Hok Hsv. pose proof (ok_open s Hok Hsv) as Ho.
  assert (∀ s1, still s s1 → wtp (sk_set_state SocketState.Running) s1 (λ s' _, socket_ok s')) as Hrun.
  { intros s1 H1. apply wtp_sk_set_state; [done|]. intros _. by eapply still_open. }
  unfold sk_enter_running. apply wtp_bind, wtp_mget. destruct (sk_owner s) as [u|]; [|by apply wtp_ret].
  case_match; [case_match|].
  - apply wtp_mmodify. eapply still_ok; [|exact Hok]. by split.
  - eapply wtp_mono; [apply still_flush_ports|]. intros s1 [] T1. exact (still_ok _ _ T1 Hok).
  - case_match; [|done]. case_match; [by apply Hrun|]. destruct (ur_target _) as [sv|];
      [|apply lands_enter_stop_pre].
    apply wtp_bind. eapply wtp_mono; [apply still_re_modify|]. intros s1 [] T1. apply wtp_bind.
    assert (keeps still (sk_do (um_start_unit sv))) as Hstart by frame.
    eapply wtp_mono; [apply Hstart|]. intros s2 r T2. apply wtp_bind.
    eapply wtp_mono; [apply still_re_modify|]. intros s3 [] T3.
    case_match; [apply lands_enter_stop_pre|]. apply Hrun. trans s1; [done|]. by trans s2.
Qed.

(** ** The operations *)
Lemma ok_then_insert (m : K E unit) s : wtp m s (λ s' _, socket_ok s') →
  wtp (m;; sk_mng_db_insert) s (λ s' _, socket_ok s').
Proof.
  intros Hm. apply wtp_bind. eapply wtp_mono; [exact Hm|]. intros s1 [] H1.
  eapply wtp_mono; [apply still_mng_db_insert|]. intros s2 [] T2. exact (still_ok _ _ T2 H1).
Qed.
Lemma ok_sigchld w s : socket_ok s → wtp (sk_sigchld_event w) s (λ s' _, socket_ok s').
Proof.
  intros Hok. apply ok_then_insert. unfold sk_do_sigchld_event. apply wtp_bind, wtp_munwrap.
  intros res _. apply wtp_bind, wtp_mget. destruct (_ && _).
  { eapply wtp_mono; [apply still_run_next|]. intros s1 [] T1. exact (still_ok _ _ T1 Hok). }
  pose proof (ok_open s Hok) as Ho.
  destruct (sk_state s) eqn:Hst; try done; try destruct (bool_decide _);
    try apply lands_enter_start_chown; try apply lands_signal; try apply lands_enter_stop_pre;
    try apply lands_enter_dead.
  - by apply wtp_enter_start_post, Ho.
  - by apply wtp_enter_listening, Ho.
Qed.
Lemma ok_start s : socket_ok s → wtp sk_start s (λ s' _, socket_ok s').
Proof.
  intros Hok. unfold sk_start, sk_and_ok at 1. apply wtp_bind.
  assert (wtp sk_start_check s (λ s' _, socket_ok s')) as Hc.
  { unfold sk_start_check. apply wtp_bind, wtp_mget. case_match; [by apply wtp_ret|].
    case_match; [by apply wtp_ret|]. apply wtp_sk_and_ok.
    - frame.
    - intros s1 _ T1. pose proof (still_ok _ _ T1 Hok) as Hok1. apply wtp_bind.
      assert (keeps still (match sk_owner s with Some u => sk_do (unit_test_start_limit u)
        | None => mret false end)) as Hl by frame.
      eapply wtp_mono; [apply Hl|]. intros s2 b T2. destruct (negb b).
      + apply wtp_bind. eapply wtp_mono; [apply lands_enter_dead|]. intros s3 [] H3. by apply wtp_ret.
      + apply wtp_ret. exact (still_ok _ _ T2 Hok1).
    - intros s1 e T1. exact (still_ok _ _ T1 Hok). }
  eapply wtp_mono; [exact Hc|]. intros s1 [[]|e] H1; [by apply wtp_ret| |by apply wtp_ret].
  apply wtp_bind. eapply wtp_mono; [apply ok_then_insert, lands_enter_start_pre|].
  intros s2 [] H2. by apply wtp_ret.
Qed.
Lemma ok_stop force s : socket_ok s → wtp (sk_stop force) s (λ s' _, socket_ok s').
Proof.
  intros Hok. assert (∀ s1, wtp (sk_stop_action;; mret (Ok tt)) s1 (λ s' (_ : Result unit Error), socket_ok s')) as Ha.
  { intros s1. apply wtp_bind. eapply wtp_mono; [apply ok_then_insert, lands_enter_stop_pre|].
    intros s2 [] H2. by apply wtp_ret. }
  unfold sk_stop. destruct force; [apply Ha|]. unfold sk_and_ok. apply wtp_bind.
  unfold sk_stop_check. apply wtp_bind, wtp_mget. case_match; [by apply wtp_ret, wtp_ret|].
  case_match; [|apply wtp_ret, Ha]. apply wtp_bind.
  eapply wtp_mono; [apply lands_signal|]. intros s1 [] H1. by apply wtp_ret, wtp_ret.
Qed.
Lemma still_accept i : keeps still (accept i).
Proof. unfold accept. frame. Qed.
Lemma ok_dispatch_io i s : socket_ok s → wtp (dispatch_io i) s (λ s' _, socket_ok s').
Proof.
  intros Hok. unfold dispatch_io. apply wtp_bind, wtp_mget. case_bool_decide as Hst; simpl; [|by apply wtp_ret].
  apply wtp_bind, wtp_port. intros p Hp. apply wtp_sk_and_ok.
  - case_match; [|frame]. apply keeps_sk_and_ok; [apply _|apply still_accept|intros afd; frame].
  - intros s1 _ T1. pose proof (still_ok _ _ T1 Hok) as Hok1. apply wtp_bind.
    eapply wtp_mono; [apply wtp_sk_enter_running; [done|]|].
    + destruct T1 as [-> _ _]. by rewrite Hst.
    + intros s2 [] H2. apply wtp_bind. eapply wtp_mono; [apply still_mng_db_insert|].
      intros s3 [] T3. apply wtp_ret. exact (still_ok _ _ T3 H2).
  - intros s1 e T1. exact (still_ok _ _ T1 Hok).
Qed.
Lemma ok_dispatch i s : socket_ok s → wtp (socket_dispatch i) s (λ s' _, socket_ok s').
Proof.
  intros Hok. unfold socket_dispatch.
  assert (∀ f (k : unit → K E Z) s0, keeps still f → socket_ok s0 →
    (∀ s1, socket_ok s1 → wtp (k tt) s1 (λ s' _, socket_ok s')) → wtp (f ≫= k) s0 (λ s' _, socket_ok s')) as Hstep.
  { intros f k s0 Hf H0 Hk. apply wtp_bind. eapply wtp_mono; [apply Hf|]. intros s1 [] T1.
    apply Hk. exact (still_ok _ _ T1 H0). }
  apply Hstep; [frame|done|]. intros s1 H1. apply Hstep; [frame|done|]. intros s2 H2.
  apply wtp_bind, wtp_mget, wtp_bind, wtp_munwrap. intros u _. apply Hstep; [frame|done|]. intros s3 H3.
  apply wtp_bind. eapply wtp_mono; [by apply ok_dispatch_io|]. intros s4 r H4.
  apply Hstep; [frame|done|]. intros s5 H5. apply Hstep; [frame|done|]. intros s6 H6.
  apply Hstep; [frame|done|]. intros s7 H7. by apply wtp_ret.
Qed.


End ends.

(** A manager that comes back watches the sockets that do not listen.
    [entry_coldplug] watches every open port, whatever the state: a socket whose
    service runs is watched too, and what comes in is dispatched to a handler that
    returns at once, with nothing read and nothing changed. *)
Theorem coldplug_watches_running s i : socket_ok s → sk_state s = SocketState.Running →
  (i < length (sk_ports s))%nat →
  wtp entry_coldplug s (λ s' _, sk_state s' = SocketState.Running ∧ watch_of s' i = Some On
    ∧ dispatch_io i s' = Returned (s', Ok 0)).
Proof.
  intros Hok Hst Hi. eapply wtp_mono; [apply wtp_watch_fds|].
  { intros p [j Hp]%list_elem_of_lookup_1. apply (ok_open s Hok) with j; [by rewrite Hst|done]. }
  intros s' [] [[Hst' Hp'] Hw]. rewrite Hst in Hst'. split_and!; [done|by apply Hw|].
  unfold dispatch_io, mbind, M_bind, mget. rewrite Hst'. done.
Qed.
End watch.
