(* ===== verification/SocketSample.v ===== *)
(** * A concrete system for the runs of socket units

    A small kernel - descriptors, connections that wait, processes - under the
    event loop of [Event.v]: an instance of every interface a socket unit uses,
    for the witnesses and the concrete runs. *)
From S2P Require Import Prelude UnitTypes ReDb StdString StdNet UnitEntry ExecParams UnitIf.
From S2P Require Import Event EventFacts EventSample EventIo SocketTypes SocketStore Socket SocketFacts SocketWatchFacts.
Local Open Scope Z_scope.

(** The next descriptor, the open ones, those that listen with the connections
    that wait on them, the next process id, which of the next starts fail, the
    commands that were started, and whether an address can be bound. *)
Record Kern := {
  kn_fd : nat;
  kn_open : gset Z;
  kn_waiting : gmap Z nat;
  kn_pid : Pid;
  kn_script : list bool;
  kn_started : list string;
  kn_bind : bool;
}.
Definition Kern_new (bind : bool) (script : list bool) : Kern :=
  {| kn_fd := 3; kn_open := ∅; kn_waiting := ∅; kn_pid := 100; kn_script := script;
     kn_started := []; kn_bind := bind |}.
Definition kern_set (fd : nat) (o : gset Z) (w : gmap Z nat) (k : Kern) : Kern :=
  {| kn_fd := fd; kn_open := o; kn_waiting := w; kn_pid := kn_pid k; kn_script := kn_script k;
     kn_started := kn_started k; kn_bind := kn_bind k |}.
Definition kern_new_fd (w : gmap Z nat) (k : Kern) : Kern * Result Z Z :=
  let fd := Z.of_nat (kn_fd k) in (kern_set (kn_fd k + 1) ({[fd]} ∪ kn_open k) w k, Ok fd).
Definition kern_close (fd : Z) (k : Kern) : Kern :=
  kern_set (kn_fd k) (kn_open k ∖ {[fd]}) (delete fd (kn_waiting k)) k.
Definition kern_waiting (fd : Z) (k : Kern) : nat := default 0%nat (kn_waiting k !! fd).
Definition kern_accept (fd : Z) (k : Kern) : Kern * Result Z Z :=
  match kern_waiting fd k with
  | O => (k, Err EAGAIN)
  | Datatypes.S n => kern_new_fd (<[fd:=n]> (kn_waiting k)) k
  end.
Definition kern_spawn (cmd : ExecCommand) (k : Kern) : Kern * Result Pid Error :=
  let ok := default true (head (kn_script k)) in
  ({| kn_fd := kn_fd k; kn_open := kn_open k; kn_waiting := kn_waiting k; kn_pid := kn_pid k + 1;
      kn_script := tail (kn_script k); kn_started := kn_started k ++ [ec_path cmd]; kn_bind := kn_bind k |},
   if ok then Ok (kn_pid k) else Err (ErrOther "spawn")).

#[local] Existing Instance sample_heap.
(** [epoll] refuses a descriptor that is not open. *)
#[local] Instance kern_epoll : EventSys Kern := {|
  ep_register fd _ _ k := (k, if decide (fd ∈ kn_open k) then Ok tt else Err (ErrOther "EBADF"));
  ep_unregister fd k := (k, if decide (fd ∈ kn_open k) then Ok tt else Err (ErrOther "EBADF"));
  ep_poll _ k := (k, Ok []);
  os_clock _ k := (k, (0, 0));
  os_timerfd_create _ k := (k, 0);
  os_timerfd_settime _ _ k := k;
  os_read _ k := (k, Ok tt);
  os_pidfd_open _ k := (k, 0);
  os_sigmask _ k := k;
  os_signalfd _ k := (k, 0);
|}.
#[local] Instance socket_source : Source SocketSource Kern := {|
  src_event_type _ := EvIo;
  src_token x := Z.of_nat (ss_port x);
  src_priority _ := 0;
  src_fd x _ := ss_fd x;
  src_signals _ _ := [];
  src_pid _ _ := 0;
  src_time _ _ := 0;
  src_time_relative _ _ := 0;
  src_epoll_event _ _ := 1;
  src_dispatch _ := mret 0;
|}.

(** The rest of the system of a socket: the event loop over the kernel. *)
Abbreviation Env := (Events SocketSource Kern).
Definition kern_do {A} (f : Kern → Kern * A) (e : Env) : Env * A :=
  let r := f (ev_env e) in (set_ev_env r.1 e, r.2).
Definition kern_modify (f : Kern → Kern) (e : Env) : Env := set_ev_env (f (ev_env e)) e.

#[export] Instance SockUmIf : UmIf Env := {|
  um_get_dependency_list _ _ _ := [];
  um_unit_add_dependency _ _ _ _ _ e := (e, Ok tt);
  um_unit_add_two_dependency _ _ _ _ _ _ e := (e, Ok tt);
  um_load_unit_success _ e := (e, true);
  um_unit_enabled _ _ := Ok tt;
  um_has_stop_job _ _ := false;
  um_relation_active_or_pending _ _ := false;
  um_start_unit _ e := (e, Ok tt);
  um_restart_unit _ e := (e, Ok tt);
  um_child_watch_pid _ _ e := e;
  um_child_unwatch_pid _ _ e := e;
  um_child_watch_all_pids _ e := e;
  um_exec_spawn _ cmd _ _ := kern_do (kern_spawn cmd);
  um_notify_socket _ := None;
  um_same_unit_with_pid _ _ _ := true;
  um_collect_socket_fds _ _ := [];
  um_rentry_trigger_merge _ _ e := e;
  um_trigger_unit _ e := e;
|}.
#[export] Instance SockUnitBase : UnitBase Env := {|
  unit_test_start_limit _ e := (e, true);
  unit_kill_context _ _ _ _ _ e := (e, Ok tt);
  unit_prepare_exec _ e := (e, Ok tt);
  unit_default_dependencies _ _ := true;
  unit_guess_main_pid _ _ := Err ErrInternal;
  unit_cg_is_empty _ _ := Ok true;
|}.
#[export] Instance SockEvents : EventLoop SocketSource Env := io_loop.
#[export] Instance SockProcesses : Processes Env := {|
  os_alive _ _ := true;
  os_getpid _ := 1;
  sig_as_str _ := "SIGTERM"%string;
  sig_from_str _ := Some SIGTERM;
|}.
#[export] Instance SockNet : SocketSys Env := {|
  os_socket _ _ _ := kern_do (λ k, kern_new_fd (kn_waiting k) k);
  os_setsockopt _ _ e := (e, Ok tt);
  os_bind _ _ e := (e, if kn_bind (ev_env e) then Ok tt else Err 99);
  os_listen fd _ := kern_do (λ k, (kern_set (kn_fd k) (kn_open k) (<[fd:=0%nat]> (kn_waiting k)) k, Ok tt));
  os_accept fd := kern_do (kern_accept fd);
  os_accept_conn fd e := Ok (bool_decide (is_Some (kn_waiting (ev_env e) !! fd)));
  os_ppoll fd e := (e, if decide (fd ∈ kn_open (ev_env e))
    then if (0 <? kern_waiting fd (ev_env e))%nat then Ok (1, Some 1) else Ok (0, None)
    else Ok (1, Some POLLNVAL));
  os_read_buf _ e := (e, Err EAGAIN);
  os_close_fd fd := kern_modify (kern_close fd);
  os_create_dir_all _ e := (e, true);
  os_unlink _ e := e;
|}.
#[export] Instance SockReli : Reli Env := {|
  reli_fd_cloexec _ _ e := (e, Ok tt);
  reli_fd_take fd e := (e, fd);
  reli_set_last_frame1 _ e := e;
  reli_set_last_frame2 _ _ e := e;
  reli_clear_last_frame e := e;
  reli_set_last_unit _ e := e;
  reli_clear_last_unit e := e;
|}.
#[export] Instance SockParse : SockEnv := {|
  se_unix_fits s := (length (chars s) <? 108)%nat;
  se_abstract_fits s := (length (chars s) <? 108)%nat;
  se_if_inet6_exists := true;
|}.
#[export] Instance sock_fuel : FlushFuel := 5%nat.

#[export] Instance SockLaws : EventLaws SocketSource Env nat ss_port :=
  io_laws ss_port (λ _, eq_refl) (λ _, eq_refl).
#[export] Instance SockQuiet : QuietSystem.
Proof.
  split; try done. intros f t p e fd [= <-]. lia.
Defined.

(** ** Runs *)
Definition sock_cmds (l : list string) : option (list ExecCommand) :=
  Some ((λ p, {| ec_path := p; ec_argv := [] |}) <$> l).
Definition sock_conf (streams : list string) (pre post stop_pre stop_post : option (list ExecCommand))
    : SectionSocket := {|
  sk_ExecStartPre := pre; sk_ExecStartChown := None; sk_ExecStartPost := post;
  sk_ExecStopPre := stop_pre; sk_ExecStopPost := stop_post; ListenStream := Some streams;
  ListenDatagram := None; ListenNetlink := None; ListenSequentialPacket := None;
  PassPacketInfo := None; Accept := false; sk_Service := Some "a.service"; ReceiveBuffer := None;
  SendBuffer := None; PassCredentials := None; KeepAlive := Some true; KeepAliveTimeSec := None;
  KeepAliveIntervalSec := None; KeepAliveProbes := None; Broadcast := None; Symlinks := None;
  PassSecurity := None; SocketMode := None; sk_KillMode := ControlGroup; sk_KillSignal := "SIGTERM" |}.
(** A loaded socket "a.socket". *)
Definition sample_socket (conf : SectionSocket) (k : Kern) : Sock Env :=
  run_state (sk_attach_unit "a.socket";; sk_load conf) (Sock_new SocketRe_new (Events_new 0 k)).

(** A plain socket: it listens, starts its service at the first connection, and
    is stopped. *)
Example socket_run :
  let s0 := sample_socket (sock_conf ["8080"; "/run/a.sock"] None None None None) (Kern_new true []) in
  let s1 := run_state sk_start s0 in
  let s2 := run_state (socket_dispatch 0) s1 in
  let s3 := run_state (sk_stop false) s2 in
  (sk_state s0, sp_fd <$> sk_ports s0) = (SocketState.StateMax, [-1; -1])
  ∧ (sk_state s1, sp_fd <$> sk_ports s1, watch_of s1 0, watch_of s1 1)
    = (SocketState.Listening, [3; 4], Some On, Some On)
  ∧ (sk_state s2, watch_of s2 0) = (SocketState.Running, Some Off)
  ∧ (sk_state s3, sp_fd <$> sk_ports s3, watch_of s3 1) = (SocketState.Dead, [-1; -1], None)
  ∧ kn_open (ev_env (sk_env s3)) = ∅.
Proof. by vm_compute. Qed.
