(* ===== verification/SocketRunFacts.v ===== *)
(** * Runs of the socket state machine

    How a socket comes back after a restart of the manager, and the runs that
    end where the code does not mean them to ([Socket.v], on the system of
    [SocketSample.v]). *)
From S2P Require Import Prelude UnitTypes ReDb StdString StdNet UnitEntry ExecParams UnitIf.
From S2P Require Import Event EventFacts EventSample EventIo SocketTypes SocketStore Socket SocketFacts SocketWatchFacts SocketSample.
Local Open Scope Z_scope.

Section facts.
Context {E : Type} `{HU : !UmIf E} `{HB : !UnitBase E} `{HL : !EventLoop SocketSource E}.
Context `{HP : !Processes E} `{HN : !SocketSys E} `{HR : !Reli E} `{HE : !SockEnv} `{HF : !FlushFuel}.
Implicit Types (s : Sock E).

(** ** A connection that comes early *)

(** A descriptor is open until it is closed; polling one that is not answers
    [POLLNVAL], and [epoll] refuses it. *)
Class FdLaws : Type := {
  fd_open : Z → E → Prop;
  fd_closed fd e : ¬ fd_open fd (os_close_fd fd e);
  fd_poll_bad fd e : ¬ fd_open fd e →
    (os_ppoll fd e).2 = Ok (1, Some POLLNVAL) ∧ ¬ fd_open fd (os_ppoll fd e).1;
  fd_add_bad x e : ¬ fd_open (ss_fd x) e → ¬ fd_open (ss_fd x) (ev_add_source x e).1;
  fd_enable_bad x e : ¬ fd_open (ss_fd x) e → (ev_set_enabled x On e).2 ≠ Ok tt;
}.
Context `{HFD : !FdLaws}.

Lemma wait_bad fd n s : ¬ fd_open fd (sk_env s) →
  wait_ready (Datatypes.S n) fd s = Returned (set_sk_env (os_ppoll fd (sk_env s)).1 s, false).
Proof.
  intros Hbad. destruct (fd_poll_bad _ _ Hbad) as [Hr _]. simpl.
  unfold wait_for_events, sk_do, mbind, M_bind, mret, M_ret. by rewrite Hr.
Qed.
Lemma reads_bad fd n s : ¬ fd_open fd (sk_env s) →
  flush_reads (Datatypes.S n) fd s = Returned (set_sk_env (os_ppoll fd (sk_env s)).1 s, tt).
Proof.
  intros Hbad. destruct (fd_poll_bad _ _ Hbad) as [Hr _]. simpl.
  unfold wait_for_events, sk_do, mbind, M_bind, mret, M_ret. by rewrite Hr.
Qed.

(** The first connection that waits closes the listening descriptor. *)
Lemma flush_pending fd c n s ev : flush_fuel = Datatypes.S n → ev ≠ POLLNVAL →
  (os_ppoll fd (sk_env s)).2 = Ok (1, Some ev) → (os_accept fd (os_ppoll fd (sk_env s)).1).2 = Ok c →
  ∃ e, flush_accepts 1023 fd s = Returned (set_sk_env e s, tt) ∧ ¬ fd_open fd e.
Proof.
  intros Hfuel Hev Hp Ha. set (e1 := (os_ppoll fd (sk_env s)).1) in *.
  set (e3 := os_close_fd fd (os_accept fd e1).1). exists (os_ppoll fd e3).1.
  assert (¬ fd_open fd e3) as Hbad by apply fd_closed.
  split; [|by apply fd_poll_bad].
  change 1023%nat with (Datatypes.S (Datatypes.S 1021)). cbn [flush_accepts]. rewrite Hfuel.
  unfold mbind, M_bind.
  assert (wait_ready (Datatypes.S n) fd s = Returned (set_sk_env e1 s, true)) as ->.
  { simpl. unfold wait_for_events, sk_do, mbind, M_bind, mret, M_ret. rewrite Hp. simpl.
    by rewrite (proj2 (Z.eqb_neq ev POLLNVAL) Hev). }
  cbn [negb]. unfold sk_do at 1. cbn [sk_env set_sk_env fst snd]. rewrite Ha.
  unfold sk_env_modify, mmodify. cbn [sk_env set_sk_env].
  rewrite wait_bad; [|exact Hbad]. done.
Qed.

(** A connection that comes before the socket listens takes the manager down.
    Entering [Listening] first flushes the ports: [flush_accept] accepts what
    waits, and then closes the listening descriptor in place of the accepted
    one.  The port still names it, so [watch_fds] asks the event loop to watch a
    descriptor that is closed, and unwraps the refusal.  Shown for a socket with
    one port and no [Accept=]; the connection can come at any time after the port
    was opened, as while [ExecStartPost] runs. *)
Theorem early_connection_panics s p c ev : flush_fuel ≠ 0%nat →
  sk_ports s = [p] → 0 ≤ sp_fd p → Accept (sk_conf s) = false →
  os_accept_conn (sp_fd p) (sk_env s) = Ok true →
  (os_ppoll (sp_fd p) (sk_env s)).2 = Ok (1, Some ev) → ev ≠ POLLNVAL →
  (os_accept (sp_fd p) (os_ppoll (sp_fd p) (sk_env s)).1).2 = Ok c →
  panics enter_listening s.
Proof.
  intros Hfuel Hports Hfd Hacc Hlisten Hpoll Hev Haccept.
  destruct flush_fuel as [|n] eqn:Hn; [done|].
  destruct (flush_pending _ _ _ _ _ Hn Hev Hpoll Haccept) as (e & Hflush & Hbad).
  assert (∀ s1, sk_ports s1 = [p] → wp (port 0) s1 (λ s2 q, s2 = s1 ∧ q = p)) as Hport.
  { intros s1 H1. unfold port. rewrite wp_bind, wp_mget, wp_munwrap, H1. by exists p. }
  assert (wp flush_ports s (λ s' _, sk_ports s' = [p] ∧ ¬ fd_open (sp_fd p) (sk_env s'))) as Hfp.
  { unfold flush_ports, for_ports. rewrite wp_bind, wp_mget, Hports. simpl. rewrite !wp_bind.
    unfold flush_accept at 1. rewrite wp_bind. eapply wp_mono; [by apply Hport|]. intros s0 q [-> ->].
    unfold sk_ask. rewrite wp_bind, wp_mgets, Hlisten. unfold wp at 1. rewrite Hflush.
    unfold flush_fd. rewrite wp_bind. eapply wp_mono; [by apply Hport|]. intros s0 q [-> ->].
    unfold wp at 1. rewrite Hn, reads_bad by done. rewrite wp_ret. simpl. split; [done|].
    by apply fd_poll_bad. }
  unfold enter_listening. apply panics_bind. rewrite wp_mget, Hacc. simpl. apply panics_bind.
  eapply wp_mono; [exact Hfp|]. intros s1 [] [Hp1 Hb1]. apply panics_bind_l.
  unfold watch_fds, for_ports. apply panics_bind. rewrite wp_mget, Hp1. simpl. apply panics_bind_l, panics_bind.
  eapply wp_mono; [by apply Hport|]. intros s0 q [-> ->]. rewrite (proj2 (Z.ltb_ge _ _) Hfd).
  apply panics_bind. rewrite wp_sk_do.
  destruct (ev_add_source (port_source 0 p) (sk_env s1)).2 as [[]|] eqn:Hadd; [|done].
  apply panics_bind. unfold munwrap_ok. rewrite wp_ret. apply panics_bind. rewrite wp_sk_do. simpl.
  pose proof (fd_enable_bad (port_source 0 p) _ (fd_add_bad (port_source 0 p) _ Hb1)) as Hen.
  by destruct (ev_set_enabled _ _ _).2 as [[]|].
Qed.

(** ** A restart of the manager *)

(** What [sk_mng_db_insert] persists. *)
Definition mng_entry s : SocketReMng := {|
  sr_state := sk_state s; sr_result := sk_result s; sr_control_pid := sk_control s;
  sr_control_cmd_type := sk_control_cmd_type s;
  sr_control_cmd_len := length (sk_control_command s); sr_refused := sk_refused s;
  sr_ports := (λ p, (p_type p, p_listen p, sp_fd p)) <$> sk_ports s |}.
Lemma mng_db_insert_eq s : sk_mng_db_insert s = Returned (match sk_owner s with
  | Some u => set_sk_re (socket_mng_insert u (mng_entry s) (sk_re s)) s | None => s end, tt).
Proof. unfold sk_mng_db_insert, mbind, M_bind, mget. by destruct (sk_owner s). Qed.

Definition port_key (p : SocketPort) : PortType.t * string := (p_type p, p_listen p).
Lemma ports_find_nodup (ports : list SocketPort) i p : NoDup (port_key <$> ports) → ports !! i = Some p →
  ports_find (p_type p) (p_listen p) ports = Some i.
Proof.
  intros Hnd Hi. unfold ports_find.
  assert (list_find (λ q, p_type q = p_type p ∧ p_listen q = p_listen p) ports = Some (i, p)) as ->; [|done].
  apply list_find_Some. split_and!; [done|done|done|]. intros j q Hj Hlt [Ht Hl].
  assert (j = i); [|lia]. apply (NoDup_lookup _ _ _ (port_key p) Hnd).
  - rewrite list_lookup_fmap, Hj. simpl. unfold port_key. congruence.
  - by rewrite list_lookup_fmap, Hi.
Qed.
Lemma port_keys_conf (ps qs : list SocketPort) : sp_conf <$> ps = sp_conf <$> qs →
  port_key <$> ps = port_key <$> qs.
Proof.
  intros H. assert (∀ l : list SocketPort, port_key <$> l = (λ c, (pc_type c, pc_listen c)) <$> (sp_conf <$> l)) as Hk.
  { intros l. by rewrite <-list_fmap_compose. }
  by rewrite !Hk, H.
Qed.

(** The fields but the ports and the system. *)
Definition apart_ports s s' : Prop :=
  ∃ ports e, s' = set_sk_ports ports (set_sk_env e s).
Lemma wp_map_ports_fd (ps : list SocketPort) s : (∀ fd e, (reli_fd_take fd e).2 = fd) →
  NoDup (port_key <$> ps) → sp_conf <$> sk_ports s = sp_conf <$> ps →
  wp (map_ports_fd ((λ p, (p_type p, p_listen p, sp_fd p)) <$> ps)) s
    (λ s' _, apart_ports s s' ∧ sk_ports s' = ps).
Proof.
  intros Htake Hnd Hconf. unfold map_ports_fd. rewrite wp_bind, wp_mget, wp_bind, length_fmap.
  assert (length ps = length (sk_ports s)) as Hlen by by rewrite <-(length_fmap sp_conf ps), <-Hconf, length_fmap.
  rewrite bool_decide_eq_true_2 by done. unfold massert. rewrite wp_ret.
  apply (wp_mforeach (λ dn s1, apart_ports s s1 ∧ sp_conf <$> sk_ports s1 = sp_conf <$> ps
    ∧ ∀ j, (j < length dn)%nat → sk_ports s1 !! j = ps !! j)).
  - split_and!; [by exists (sk_ports s), (sk_env s); destruct s|done|]. simpl. lia.
  - intros dn r rest s1 Hl ([ports [e ->]] & Hc1 & Hdone).
    assert (((λ p, (p_type p, p_listen p, sp_fd p)) <$> ps) !! length dn = Some r) as Hr
      by (rewrite Hl; by apply list_lookup_middle).
    apply list_lookup_fmap_Some in Hr as (p & -> & Hp).
    simpl in Hc1, Hdone. rewrite wp_bind, wp_mget, wp_bind. simpl.
    assert (∃ q, ports !! length dn = Some q ∧ sp_conf q = sp_conf p) as (q & Hq & Hqc).
    { assert ((sp_conf <$> ports) !! length dn = Some (sp_conf p)) as Hx by (by rewrite Hc1, list_lookup_fmap, Hp).
      apply list_lookup_fmap_Some in Hx as (q & -> & Hq). eauto. }
    assert (ports_find (p_type p) (p_listen p) ports = Some (length dn)) as ->.
    { replace (p_type p) with (p_type q) by (unfold p_type; congruence).
      replace (p_listen p) with (p_listen q) by (unfold p_listen; congruence).
      apply ports_find_nodup; [|done]. by rewrite (port_keys_conf _ _ Hc1). }
    rewrite wp_munwrap. eexists. split; [done|]. rewrite wp_bind, wp_sk_do, Htake.
    apply wp_mmodify. simpl. split_and!; [by eexists _, _| |].
    + rewrite <-Hc1. apply list_eq. intros j. rewrite !list_lookup_fmap.
      destruct (decide (j = length dn)) as [->|Hne]; [rewrite list_lookup_alter_eq|by rewrite list_lookup_alter_ne].
      by rewrite Hq.
    + intros j. rewrite length_app. simpl. intros Hj.
      destruct (decide (j = length dn)) as [->|Hne].
      * rewrite list_lookup_alter_eq, Hq, Hp. simpl. f_equal. unfold port_set_fd. destruct p. simpl in *. by subst.
      * rewrite list_lookup_alter_ne by done. apply Hdone. lia.
  - intros s1 (Ha & Hc1 & Hdone). split; [done|]. apply list_eq. intros j.
    destruct (decide (j < length ps)%nat) as [Hj|Hj]; [apply Hdone; by rewrite length_fmap|].
    rewrite !lookup_ge_None_2; [done|lia|]. rewrite <-(length_fmap sp_conf), Hc1, length_fmap. lia.
Qed.

(** C29: a socket survives the restart of its manager.  A new socket with the same
    ports, over the tables the old one left, reads back its state, its result, its
    control process, its count of refused connections and the descriptor of every
    port - provided no two ports have the same type and text, and no control
    command waits; if one waits, reading the entry back panics. *)
Theorem socket_recovers s s0 u : (∀ fd e, (reli_fd_take fd e).2 = fd) →
  sk_owner s0 = Some u → socket_mng_get u (sk_re s0) = Some (mng_entry s) →
  redb_ignore (sre_mng (sk_re s0)) = true →
  sk_ports s0 = [] → sk_port_confs s0 = sp_conf <$> sk_ports s → sk_control_cmd_type s = None →
  (sk_control_command s = [] → NoDup (port_key <$> sk_ports s) →
   wp sk_mng_db_map s0 (λ s' _, sk_state s' = sk_state s ∧ sk_result s' = sk_result s
     ∧ sk_control s' = sk_control s ∧ sk_refused s' = sk_refused s ∧ sk_ports s' = sk_ports s
     ∧ sk_conf s' = sk_conf s0 ∧ sk_owner s' = sk_owner s0))
  ∧ (sk_control_command s ≠ [] → panics sk_mng_db_map s0).
Proof.
  intros Htake Hown Hget Hign Hports Hconf Htype.
  set (fresh := SocketPort_new <$> sk_port_confs s0). set (s1 := set_sk_ports fresh s0).
  assert (∃ m, build_ports s0 = Returned (set_sk_re (socket_mng_insert u m (sk_re s0)) s1, tt)
    ∧ socket_mng_insert u m (sk_re s0) = sk_re s0) as (m & Hbuild & Hre).
  { eexists. split.
    - unfold build_ports, mbind, M_bind, mmodify. rewrite mng_db_insert_eq. simpl. rewrite Hown, Hports. done.
    - unfold socket_mng_insert, redb_insert. rewrite Hign. by destruct (sk_re s0). }
  set (chain := mmodify (set_sk_state (sk_state s));; mmodify (set_sk_result (sk_result s));;
    sk_update_control (sk_control s);;
    massert (bool_decide (length (sk_control_command s) = 0%nat));;
    mmodify (set_sk_refused (sk_refused s));;
    map_ports_fd ((λ p, (p_type p, p_listen p, sp_fd p)) <$> sk_ports s) : K E unit).
  assert (sk_mng_db_map s0 = chain s1) as Hdata.
  { transitivity (sk_data_db_map s1).
    { unfold sk_mng_db_map, mbind, M_bind. rewrite Hbuild, Hre. by destruct s0. }
    unfold sk_data_db_map. unfold mbind at 1, M_bind at 1, mget at 1. simpl. rewrite Hown. simpl.
    rewrite Hget. unfold mng_entry, sk_control_command_update. simpl. by rewrite Htype. }
  assert (∀ Q, wp chain s1 Q → wp sk_mng_db_map s0 Q) as Hmap by (unfold wp; by rewrite Hdata).
  split.
  - intros Hcmd Hnd. apply Hmap. unfold chain.
    rewrite Hcmd. unfold sk_update_control, massert. rewrite !wp_bind. apply wp_mmodify.
    rewrite wp_bind. apply wp_mmodify. rewrite wp_bind. apply wp_mmodify. simpl. rewrite wp_bind, wp_ret, wp_bind.
    apply wp_mmodify. eapply wp_mono; [apply (wp_map_ports_fd (sk_ports s)); [done|done|]|].
    + simpl. unfold fresh. rewrite Hconf, <-!list_fmap_compose. done.
    + intros s' [] [(ports & e & ->) Hp]. simpl in Hp |- *. by subst.
  - intros Hcmd. unfold panics. rewrite Hdata. unfold chain, mbind, M_bind, mmodify, sk_update_control.
    rewrite bool_decide_eq_false_2; [done|]. by destruct (sk_control_command s).
Qed.
End facts.

(** ** On the concrete system *)
#[local] Existing Instance sample_heap.
#[local] Existing Instance kern_epoll.
#[local] Existing Instance socket_source.

#[local, refine] Instance sample_fds : FdLaws := {| fd_open fd e := fd ∈ kn_open (ev_env e) |}.
Proof.
  - intros fd e. simpl. set_solver.
  - intros fd e Hbad. simpl. rewrite decide_False by done. done.
  - intros x e Hbad. exact Hbad.
  - intros x e Hbad. simpl. unfold io_run, Event.set_enabled, source_online, and_ok, sys_ask, sys_do,
      mbind, M_bind, mgets, mret, M_ret. simpl. by rewrite decide_False.
Defined.
Lemma sample_flush_ends : flush_ends (E := Env).
Proof.
  intros fd s. unfold flush_fuel, sock_fuel. simpl.
  unfold wait_for_events, sk_do, mbind, M_bind, mret, M_ret. simpl.
  destruct (decide (fd ∈ kn_open (ev_env (sk_env s)))); [|done].
  destruct (0 <? kern_waiting fd (ev_env (sk_env s)))%nat; done.
Qed.

(** The control process ends. *)
Definition control_exits (status : Z) : K Env unit :=
  s ← mget; sk_sigchld_event (UnitIf.Exited (default 0 (sk_control s)) status).
(** A connection arrives at a descriptor. *)
Definition connect (fd : Z) : K Env unit :=
  sk_env_modify (kern_modify (λ k, kern_set (kn_fd k) (kn_open k) (alter Datatypes.S fd (kn_waiting k)) k)).

Definition plain_conf : SectionSocket := sock_conf ["8080"; "/run/a.sock"] None None None None.
Definition sample_listening : Sock Env := run_state sk_start (sample_socket plain_conf (Kern_new true [])).
(** Its only port is open and [ExecStartPost] runs when the client comes. *)
Definition sample_early : Sock Env :=
  run_state (sk_start;; connect 3)
    (sample_socket (sock_conf ["8080"] None (sock_cmds ["post"]) None None) (Kern_new true [])).

Lemma sample_listening_ok : socket_ok sample_listening.
Proof.
  split; [by intros []|..].
  - intros _ [|[|i]] Hi; [by vm_compute..|]. vm_compute in Hi. lia.
  - intros _ [|[|i]] p Hp; vm_compute in Hp; [..|done]; injection Hp as <-; vm_compute; discriminate.
  - intros H. exfalso. vm_compute in H. discriminate H.
Qed.

Lemma early_connection_panics_witness : panics enter_listening sample_early.
Proof.
  apply (early_connection_panics sample_early (default (SocketPort_new
    {| pc_type := PortType.Socket; pc_sa := {| sock_addr := UnixAddr ""; sa_type := SockStream; sa_protocol := None |};
       pc_listen := "" |}) (head (sk_ports sample_early))) 4 1);
    first [by vm_compute | vm_compute; reflexivity | discriminate].
Defined.

(** A socket whose addresses are taken when it starts. *)
Definition sample_failed : Sock Env := run_state sk_start (sample_socket plain_conf (Kern_new false [])).

(** A client has come, and the service runs. *)
Definition sample_running : Sock Env := run_state (connect 3;; socket_dispatch 0) sample_listening.
Lemma sample_running_ok : socket_ok sample_running.
Proof.
  split.
  - intros _ [|[|i]] Hi; [by vm_compute; right..|]. vm_compute in Hi. lia.
  - intros H. exfalso. vm_compute in H. discriminate H.
  - intros _ [|[|i]] p Hp; vm_compute in Hp; [..|done]; injection Hp as <-; vm_compute; discriminate.
  - intros H. exfalso. vm_compute in H. discriminate H.
Qed.
Lemma coldplug_watches_running_witness :
  wtp entry_coldplug sample_running (λ s' _, sk_state s' = SocketState.Running
    ∧ watch_of s' 1 = Some On ∧ dispatch_io 1 s' = Returned (s', Ok 0)).
Proof.
  apply (coldplug_watches_running sample_running 1 sample_running_ok); [by vm_compute|].
  vm_compute. lia.
Defined.

(** The same unit in the next manager: the tables are read only until it is loaded. *)
Definition reli_ignore (r : SocketRe) : SocketRe :=
  {| sre_conf := redb_set_ignore true (sre_conf r); sre_mng := redb_set_ignore true (sre_mng r);
     sre_frame := redb_set_ignore true (sre_frame r) |}.
Definition sample_again (s : Sock Env) : Sock Env :=
  run_state (sk_attach_unit "a.socket";; sk_load plain_conf;; mmodify (set_sk_ports []))
    (Sock_new (reli_ignore (sk_re s)) (Events_new 0 (Kern_new true []))).
Lemma socket_recovers_witness :
  wp sk_mng_db_map (sample_again sample_running) (λ s' _, sk_state s' = SocketState.Running
    ∧ (sp_fd <$> sk_ports s') = [3; 4]).
Proof.
  destruct (socket_recovers sample_running (sample_again sample_running) "a.socket") as [H _];
    [done|by vm_compute..|].
  eapply wp_mono; [apply H; [by vm_compute|]|].
  - apply (bool_decide_unpack _). vm_compute. exact I.
  - intros s' [] (-> & _ & _ & _ & -> & _). clear; vm_compute; split; reflexivity.
Defined.

(** What is left of the commands of a failed [ExecStartPost] is run as a command of
    the stop: with no [ExecStopPre=], [sk_control_command_fill] keeps the old list. *)
Example stale_commands_run :
  let s0 := sample_socket (sock_conf ["8080"] None (sock_cmds ["post1"; "post2"]) None None) (Kern_new true []) in
  let s1 := run_state sk_start s0 in
  let s2 := run_state (control_exits 1) s1 in
  (sk_state s1, kn_started (ev_env (sk_env s1))) = (SocketState.StartPost, ["post1"%string])
  ∧ (sk_state s2, kn_started (ev_env (sk_env s2)))
    = (SocketState.StopPre, ["post1"; "post2"]%string).
Proof. vm_compute. split; reflexivity. Qed.

(** A command that cannot be started after another one leaves the socket where it
    is, with the id of the process that has ended for its control process. *)
Example run_next_strands :
  let s0 := sample_socket (sock_conf ["8080"] (sock_cmds ["pre1"; "pre2"]) None None None)
              (Kern_new true [true; false]) in
  let s1 := run_state sk_start s0 in
  let s2 := run_state (control_exits 0) s1 in
  (sk_state s1, sk_control s1) = (SocketState.StartPre, Some 100)
  ∧ (sk_state s2, sk_control s2) = (SocketState.StartPre, Some 100).
Proof. vm_compute. split; reflexivity. Qed.
